(* ===== verification/_CoqProject ===== *)
-Q . S2P
Prelude.v
Errors.v
Sizers.v
SignalSplit.v
SplitProps.v
PersistentQueue.v
PersistentQueueProofs.v
PersistentQueueFailures.v
MemoryQueue.v
MemoryQueueProofs.v
Cond.v
Retry.v
Batcher.v
BatcherProofs.v
BatchSignals.v
BatcherFindings.v
BatcherLiveness.v
ComponentStatus.v
ServiceGraph.v
MemoryLimiter.v
Fanout.v
PipelineGraph.v
PipelineGraphProofs.v
PipelineFlow.v
PipelineBuild.v
PipelineBuildProofs.v
DirectedGraphs.v
PartialReload.v
PartialReloadProofs.v
PartialReloadRun.v
PipelineTheorems.v
Confmap.v
ConfmapProofs.v
ConfmapTemplates.v
RecordUpdate.v
ProtoWire.v
ProtoWireProofs.v
ProtoFields.v
ProtoCommon.v
ProtoCommonProofs.v
ProtoMessage.v
ProtoKinds.v
ProtoIds.v
PcommonValue.v
PcommonMap.v
ProtoResource.v
ProtoLogs.v
ProtoTraces.v
ProtoMetrics.v
MetricData.v
MetricsSplit.v
MetricsSplitProofs.v
BatchProcessor.v
BatchProcessorProofs.v
ProtoProfiles.v
ProtoExport.v
ProfilesDict.v
ProfilesIndex.v
ProfilesMeaning.v
ProfilesMerge.v
ProtoRequests.v
ProtoApi.v
ProfilesRefs.v
ProfilesSplit.v
ProfilesSplitProofs.v
ProtoQueue.v
ProfilesQueue.v
FeatureGates.v
SharedComponent.v
