(* ===== verification/Prelude.v ===== *)
(** * The OpenTelemetry Collector core, modelled and verified

    The collector receives telemetry (logs, traces, metrics, profiles), passes it
    through a graph of components and exports it.  This library models the parts of
    the core in which data can be lost, duplicated, delayed or corrupted, and proves
    what they promise.  Paths below are relative to the root of the sources.

    ** The parts and how they interact

    A request of an exporter goes through the senders of exporter/exporterhelper:
    a queue, in memory or in storage, a batcher that merges and splits requests,
    and a sender that retries.  What the queue stores are the protobuf bytes of the
    data with the context of the request; the same bytes travel between collectors.
    Between components a fan-out hands one piece of data to several consumers.
    The batch processor collects data inside a pipeline.  Around this, the service
    lays out the graph of the pipelines and builds its components, starts and stops
    them in the order of the graph and reloads receivers, a reporter follows the
    status of each, a memory limiter refuses data, and a resolver computes the
    configuration all of them are built from.  Feature gates switch parts of this on
    and off, and components of several signals may share one instance.

    ** Which file models which part

    - Prelude: scopes, tactics, hint databases, Go's machine integers ([u64],
      [i64]), sums over lists.
    - Errors: consumer/consumererror and exporterhelper/internal/experr.  Error
      values as trees, their classification, HTTP and gRPC status.
    - Sizers, SignalSplit, SplitProps: exporterhelper/internal/request, sizer and
      queuebatch/logs_batch.go, traces_batch.go.  [MergeSplit] with every helper,
      over payloads given by their encoded sizes.
    - MetricData, MetricsSplit, MetricsSplitProofs: queuebatch/metrics_batch.go and
      sizer/metrics_sizer.go.  [metricsMergeSplit] with every helper for the five kinds
      of metrics, over the messages of ProtoMetrics.
    - BatchProcessor, BatchProcessorProofs: processor/batchprocessor.  The splits of
      the three signals, which are instances of the class [Signal], the goroutine of
      a shard as the step relation [loop_step], and [consume] of the map of shards as
      [multi_step].
    - PersistentQueue, PersistentQueueProofs, PersistentQueueFailures:
      exporterhelper/internal/queue/persistent_queue.go.  The state is the record
      [pqueue]; the storage client is the class [Client], its documented behaviour
      the class [ClientLaws].
    - MemoryQueue, MemoryQueueProofs, Cond: memory_queue.go and cond.go of the same
      package.  Linked nodes live in a heap; the condition variable is a step
      relation on counts of goroutines.
    - Batcher, BatcherProofs, BatchSignals, BatcherFindings, BatcherLiveness:
      queuebatch/partition_batcher.go, sharded_batcher.go, multi_batcher.go and the
      callbacks of batch_context.go and of the reference counts.  Goroutines are
      lists of instructions and any interleaving of them is an execution.
      [BatchLaws] is what the batcher relies on, [BatchFits] the promise of some
      requests that what is split fits; BatchSignals discharges both for log and span
      requests.
    - Retry: exporterhelper/internal/retry_sender.go and config/configretry.
    - ComponentStatus: component/componentstatus and service/internal/status.
    - PipelineGraph, PipelineGraphProofs, PipelineFlow: [createNodes] and [createEdges]
      of service/internal/graph/graph.go, service/pipelines/config.go.  A node is the
      attributes that the code hashes to its number; the order in which Go ranges over
      a map is the class [Range]; the graph library is the class [DirectedGraph] with
      [DirectedGraphLaws].  PipelineFlow says what the graph of a configuration is.
    - PipelineBuild, PipelineBuildProofs: [buildComponents] and the [buildComponent]s,
      with the factories as an argument.
    - PartialReload, PartialReloadProofs, PartialReloadRun: otelcol/config_diff.go and
      [UpdateReceivers] phase by phase, with the calls it makes as a log.
    - DirectedGraphs, PipelineTheorems: a graph that satisfies the laws, for the
      witnesses, and the theorems on layout, construction and reload.
    - ServiceGraph: [StartAll] and [ShutdownAll] of service/internal/graph, [Start]
      and [Shutdown] of service/extensions, over the reporter of ComponentStatus.
    - MemoryLimiter: internal/memorylimiter and processor/memorylimiterprocessor.
    - Fanout: internal/fanoutconsumer, over a heap of shared objects.
    - Confmap, ConfmapProofs, ConfmapTemplates: confmap/expand.go, resolver.go and
      provider.go.
    - RecordUpdate, ProtoWire, ProtoWireProofs, ProtoFields, ProtoCommon,
      ProtoCommonProofs, ProtoMessage, ProtoKinds, ProtoIds: pdata/internal/proto and
      the snippets of which the generated files of pdata/internal are made.
      [Codec] is what a message offers to those that contain it and [CodecLaws]
      what it promises.
    - ProtoResource, ProtoLogs, ProtoTraces, ProtoMetrics, ProtoProfiles,
      ProtoRequests: the generated messages.  For a message [M], the record [M] is
      the struct, [M_SizeProto] and [M_MarshalProto] the methods of those names and
      [M_step] the switch of [UnmarshalProto]; [M_wire] and [M_ok] are the bytes and
      the ranges of the Go types, used to state the laws.
    - ProtoApi: the marshalers of pdata/plog, ptrace and pmetric, the export requests
      of plogotlp, ptraceotlp and pmetricotlp, and pdata/internal/otlp.
    - ProtoQueue: pdata/xpdata/request and the encodings of queuebatch.
    - ProtoExport: the generated export request of profiles and the export responses.
    - PcommonValue, PcommonMap: values and maps of attributes, pdata/pcommon/value.go and
      map.go, with the finite map that a map of attributes stands for.
    - ProfilesDict, ProfilesIndex, ProfilesMeaning, ProfilesMerge: pdata/pprofile.
      Profiles refer to the tables of a dictionary; [MergeTo] moves them to another
      one.  The class [Interner] is what [switchDictionary] needs of a table: it is
      implemented with the index of hashes of dictionary_merge_index.go and by scanning
      the tables as in [SetString] and the like.  ProfilesMeaning follows references.
    - ProfilesRefs: pdata/internal/otlp/profiles_dictionary.go, the marshaler of profiles
      and pprofileotlp/grpc.go.  Strings of attributes become references and back.
    - ProfilesSplit, ProfilesSplitProofs, ProfilesQueue: xexporterhelper/profiles_batch.go
      and profiles.go, sizer/profiles_sizer.go and pdata/xpdata/request.  [MergeSplit] of
      profile requests and what the queue stores of them.
    - FeatureGates: featuregate.  The registry is a finite map of gates.
    - SharedComponent: internal/sharedcomponent.  Wrappers are cells of a memory and
      [components] is the map to them; [run] is any sequence of calls.

    Definitions keep the names of the sources; where a Go function was cut in
    pieces, such as the bodies of its loops, the pieces have names of their own.  State is passed explicitly, a
    failing operation gives an error as a value, a panic is a value too.

    ** What the theorems show

    - Splitting (SplitProps): it terminates, every output fits, every record is in
      exactly one output, in order, or is counted in the error; with the items sizer
      the outputs are the exact chunks.  For metrics (MetricsSplitProofs) every data
      point is in an output or counted in the error, and chunks are exact too; sizes
      in bytes may exceed the limit.
    - Batch processor (BatchProcessorProofs): in every execution what was accepted is
      exported, held or waiting, in order; batches respect the sizes; a shutdown
      exports the rest; one shard per combination of metadata.
    - Pipelines (PipelineTheorems): the layout is that of the configured data flow or
      an unsupported connector is reported; cycles are refused; every component gets
      exactly the consumers it feeds and pipelines the right capability; a reload
      of receivers ends in the graph of a fresh layout.
    - Batching (BatcherProofs, BatchSignals, BatcherLiveness, BatcherFindings): each
      callback runs once; no error hides a loss; no log or span is sent twice, and their
      batches fit the maximum (those of metrics and profiles need not); over shards no deadlock and
      every shutdown completes.  Over partitions three executions go wrong.
    - Queues (PersistentQueueProofs, PersistentQueueFailures, MemoryQueueProofs,
      Cond): first in first out, sizes within the capacity, balanced references,
      reads that end; after any crash and restart exactly the requests that were
      accepted and not completed are read again.  The persistent queue refines an
      abstract queue of waiting and dispatched requests.
    - Bytes (ProtoApi, ProtoQueue): marshaling fills exactly the buffer it sized,
      unmarshaling inverts it, and any bytes at all give an error or a well-typed
      value without a panic; the same for stored requests with their context.
    - Profiles (ProfilesMerge, ProfilesIndex, ProfilesSplitProofs, ProfilesRefs,
      ProfilesQueue): merging keeps what every profile means, up to equality of
      attribute values, of which any two references to strings are equal; the index of hashes
      changes nothing but the time it takes; splitting accounts for every sample, with
      its meaning in the dictionary of its output; what is sent has references in place
      of the strings and keys of attributes, and they are resolved to the strings they
      were made from, on the wire and in the queue.
    - Attributes (PcommonMap): a map with distinct keys refines a finite map.
    - Feature gates (FeatureGates): stable and deprecated gates keep their values; what
      the flag prints sets any registry of the same gates to the printed one; gates are
      visited in order.
    - Shared components (SharedComponent): each is started and stopped once and every
      caller gets its error; a reporter is told the last five events before it came and
      every later one.
    - Fan-out (Fanout): a consumer that changes data shares it with nobody; every
      consumer gets the data as it came; fan-outs nest.
    - Configuration (ConfmapProofs, ConfmapTemplates): what was retrieved is closed
      once, also when a call fails; only a second [Shutdown] panics; strings expand to
      their meaning.
    - Retries, status, start and shutdown, limiter: outcomes, bounds, orders and
      invariants, each stated where it is proved.

    Theorems that are found with a concrete input where the code does not do what it
    means to are next to those that hold: [failed_retrieval_loses_requests],
    [eviction_stops_exports], [shutdown_deadlock], [onEmpty_panics],
    [ToGRPCStatus_panics_iff], [accepted_not_forwarded], [packed_chunks],
    [escaped_reference_replaced], [scheme_pattern_not_anchored],
    [metrics_exceed_limit], [metrics_empty_output], [metrics_drop_the_rest],
    [splitMetrics_loses_metadata], [existing_combination_refused],
    [map_equal_duplicates], [references_equal], [merge_references_conflated],
    [merge_value_references], [merge_into_new_profiles], [merge_nan_copies],
    [marshal_leaves_references], [items_split_measures], [bytes_split_dictionary],
    [recovery_told_to_another].

    ** Bounds and fuel

    Recursion that is not structural takes a fuel, and is shown to end within it:
    [splitLoop] by the size left, [metricsSplitLoop] by the data points left,
    [profilesSplitLoop] by the size of the resources left,
    [sendFull] by the items of the batch, the read loops of the queues by the items left,
    the loops of ProtoWire by the bytes left or the ten bytes of a varint (the value
    [OutOfFuel] is shown not to occur), [onDone] by the nesting of callbacks,
    [findURI] by the length of the string ([findURI_fuel]).  The recursion limit of a hundred for attribute values and of
    a thousand rounds of expansion are those of the code.

    ** Not modelled

    - Code that is not in the repository is an argument, with its documented
      behaviour as hypotheses where a theorem needs it: the storage client, the LRU
      cache, the exponential backoff, the directed graphs and their topological sort,
      the trace API, the store of the merged configuration, the versions of feature
      gates, and lower case of text that is not ASCII.
    - Input and output: receivers, exporters, configuration providers, servers,
      telemetry of the collector itself; build-time tools and generators.
    - The JSON form of the signals, which is written over a third-party iterator, and
      the accessors, copies and pools generated for each message.
    - [FromAttributeIndices] and [FromLocationIndices] of profiles, which read a table.
    - The factories of components and the adapters of their consumers, hashing and
      reflective decoding of the configuration, and the settings handed to network
      libraries.
    - The memory model of Go below a lock or an atomic operation: what runs under a
      lock is one step.  Times are numbers that the environment gives. *)

From stdpp Require Export base tactics list gmap strings numbers relations.
From Stdlib Require Export ZArith Lia.

(** ** Scopes and automation *)

Declare Scope otel_scope.
Delimit Scope otel_scope with otel.

(** [otel] collects the lemmas that close routine side conditions:
    monotonicity of sizes, bounds of machine integers, membership facts. *)
Create HintDb otel discriminated.
Create Rewrite HintDb otel_sum.

(** [break_match] splits on the first test of the goal, keeping its equation. *)
Ltac break_match :=
  match goal with
  | |- context [match ?x with _ => _ end] =>
      lazymatch x with
      | context [match _ with _ => _ end] => fail
      | _ => let E := fresh "E" in destruct x eqn:E
      end
  end.

Ltac break_match_in H :=
  match type of H with
  | context [match ?x with _ => _ end] =>
      lazymatch x with
      | context [match _ with _ => _ end] => fail
      | _ => let E := fresh "E" in destruct x eqn:E
      end
  end.

(** Turn the boolean comparisons of [Z] and [nat] the code tests into propositions. *)
Ltac zbool :=
  repeat match goal with
  | H : (_ <? _)%Z = true |- _ => apply Z.ltb_lt in H
  | H : (_ <? _)%Z = false |- _ => apply Z.ltb_ge in H
  | H : (_ <=? _)%Z = true |- _ => apply Z.leb_le in H
  | H : (_ <=? _)%Z = false |- _ => apply Z.leb_gt in H
  | H : (_ =? _)%Z = true |- _ => apply Z.eqb_eq in H
  | H : (_ =? _)%Z = false |- _ => apply Z.eqb_neq in H
  | H : (_ <? _)%nat = true |- _ => apply Nat.ltb_lt in H
  | H : (_ <? _)%nat = false |- _ => apply Nat.ltb_ge in H
  | H : (_ <=? _)%nat = true |- _ => apply Nat.leb_le in H
  | H : (_ <=? _)%nat = false |- _ => apply Nat.leb_gt in H
  | H : (_ =? _)%nat = true |- _ => apply Nat.eqb_eq in H
  | H : (_ =? _)%nat = false |- _ => apply Nat.eqb_neq in H
  | H : (_ >? _)%Z = _ |- _ => rewrite Z.gtb_ltb in H
  | H : (_ >=? _)%Z = _ |- _ => rewrite Z.geb_leb in H
  | H : _ && _ = true |- _ => apply andb_true_iff in H as [? ?]
  | H : _ || _ = false |- _ => apply orb_false_iff in H as [? ?]
  | H : negb _ = true |- _ => apply negb_true_iff in H
  | H : negb _ = false |- _ => apply negb_false_iff in H
  end.

(** ** Go's machine integers

    A Go [uint64] is a [Z] in [0, 2^64), an [int64] (and [int] on the 64-bit
    platforms the collector supports) a [Z] in [-2^63, 2^63).  The two
    functions below are the conversions [uint64(x)] and [int64(x)]; an
    operation that may leave the range is written with one of them around it. *)
Section Integers.
Local Open Scope Z_scope.

Definition u64 (z : Z) : Z := z mod 2 ^ 64.
Definition i64 (z : Z) : Z := (z + 2 ^ 63) mod 2 ^ 64 - 2 ^ 63.

Definition is_u64 (z : Z) : Prop := 0 <= z < 2 ^ 64.
Definition is_i64 (z : Z) : Prop := - 2 ^ 63 <= z < 2 ^ 63.

Lemma u64_range z : is_u64 (u64 z).
Proof. unfold is_u64, u64. apply Z.mod_pos_bound. lia. Qed.

Lemma u64_id z : is_u64 z -> u64 z = z.
Proof. unfold is_u64, u64. intros. by apply Z.mod_small. Qed.

Lemma i64_range z : is_i64 (i64 z).
Proof.
  unfold is_i64, i64.
  pose proof (Z.mod_pos_bound (z + 2 ^ 63) (2 ^ 64) ltac:(lia)). lia.
Qed.

Lemma i64_id z : is_i64 z -> i64 z = z.
Proof. unfold is_i64, i64. intros. rewrite Z.mod_small; lia. Qed.

(** [bits.Len64]: the number of bits needed to write [x]. *)
Definition Len64 (x : Z) : Z := if x =? 0 then 0 else Z.log2 x + 1.

Lemma Len64_mono x y : 0 <= x <= y -> Len64 x <= Len64 y.
Proof.
  intros [H0 H]. unfold Len64.
  destruct (Z.eqb_spec x 0), (Z.eqb_spec y 0); try lia.
  - pose proof (Z.log2_nonneg y). lia.
  - pose proof (Z.log2_le_mono x y H). lia.
Qed.

Lemma Len64_bound x n : 0 <= n -> 0 <= x < 2 ^ n -> 0 <= Len64 x <= n.
Proof.
  intros Hn [H0 H]. unfold Len64. destruct (Z.eqb_spec x 0); [lia|].
  pose proof (Z.log2_nonneg x). pose proof (proj1 (Z.log2_lt_pow2 x n ltac:(lia)) H). lia.
Qed.

End Integers.

#[export] Hint Resolve u64_range i64_range u64_id i64_id : otel.

(** ** Sums of sizes over a list *)

Section Sums.
Local Open Scope Z_scope.
Context {A : Type}.

Fixpoint sumZ (f : A -> Z) (l : list A) : Z :=
  match l with
  | [] => 0
  | x :: l => f x + sumZ f l
  end.

Lemma sumZ_app f l1 l2 : sumZ f (l1 ++ l2) = sumZ f l1 + sumZ f l2.
Proof. induction l1 as [|x l1 IH]; simpl; lia. Qed.

Lemma sumZ_nonneg f l : (forall x, x ∈ l -> 0 <= f x) -> 0 <= sumZ f l.
Proof.
  induction l as [|x l IH]; simpl; intros Hf; [lia|].
  pose proof (Hf x ltac:(left)).
  assert (0 <= sumZ f l) by (apply IH; intros y Hy; apply Hf; by right). lia.
Qed.

Lemma sumZ_le_elem f l x : (forall y, y ∈ l -> 0 <= f y) -> x ∈ l -> f x <= sumZ f l.
Proof.
  intros Hf Hx. induction l as [|y l IH]; [by apply not_elem_of_nil in Hx|].
  simpl. apply elem_of_cons in Hx as [->|Hx].
  - assert (0 <= sumZ f l) by (apply sumZ_nonneg; intros z Hz; apply Hf; by right). lia.
  - assert (0 <= f y) by (apply Hf; left).
    assert (f x <= sumZ f l) by (apply IH; [intros z Hz; apply Hf; by right|done]). lia.
Qed.

Lemma sumZ_const c l : sumZ (fun _ => c) l = c * Z.of_nat (length l).
Proof. induction l as [|x l IH]; simpl; lia. Qed.

Lemma sumZ_ext f g l : (forall x, x ∈ l -> f x = g x) -> sumZ f l = sumZ g l.
Proof.
  induction l as [|x l IH]; simpl; intros H; [done|].
  rewrite (H x) by left. rewrite IH; [done|]. intros y Hy. apply H. by right.
Qed.

Lemma sumZ_mono f g l : (forall x, x ∈ l -> f x <= g x) -> sumZ f l <= sumZ g l.
Proof.
  induction l as [|x l IH]; simpl; intros H; [done|].
  pose proof (H x ltac:(left)).
  assert (sumZ f l <= sumZ g l) by (apply IH; intros y Hy; apply H; by right). lia.
Qed.

Lemma sumZ_permutation f l1 l2 : l1 ≡ₚ l2 -> sumZ f l1 = sumZ f l2.
Proof. induction 1; simpl; lia. Qed.
End Sums.

#[export] Hint Rewrite @sumZ_app : otel_sum.

Lemma filter_all {A} (P : A -> Prop) `{!forall x, Decision (P x)} (l : list A) : Forall P l -> filter P l = l.
Proof. induction 1 as [|x l Hx _ IH]; [done|]. by rewrite filter_cons_True, IH. Qed.

Lemma map_flat_map {A B C} (f : B -> C) (g : A -> list B) l : map f (flat_map g l) = flat_map (fun x => map f (g x)) l.
Proof. induction l as [|x l IH]; cbn; [done|]. by rewrite map_app, IH. Qed.

(** ** [RemoveIf]

    Every pdata slice has [RemoveIf(f)]: [f] is called on the elements in
    order, the ones for which it returns [true] are removed.  In the callers
    [f] is a closure that updates local variables (the state [S]) and may
    modify the element it is given, so the callback returns the new state, the
    element as the callback left it, and whether to remove it. *)
Section RemoveIf.
Context {S A : Type}.

Fixpoint removeIf (f : S -> A -> S * A * bool) (s : S) (l : list A) : S * list A :=
  match l with
  | [] => (s, [])
  | x :: l =>
      let '(s1, x', rm) := f s x in
      let '(s2, l') := removeIf f s1 l in
      (s2, if rm then l' else x' :: l')
  end.

End RemoveIf.
