(* ===== verification/Errors.v ===== *)
(** * Error values (consumer/consumererror, exporterhelper/internal/experr)

    Go errors as a tree.  [errors.New] gives a leaf, [fmt.Errorf] with a [%w]
    verb wraps another error, [multierr.Append]/[errors.Join] collect several,
    and the collector's own wrapper types each wrap one error.  A Go [error]
    that may be [nil] is an [option error].

    An error text keeps the format string and its arguments apart: nothing in
    the collector's logic reads a rendered text.  [multierr] and the standard
    [errors.Join] are represented by the list of the non-nil errors they were
    given, in order; both document that [errors.Is]/[errors.As] reach each. *)

From S2P Require Import Prelude.

Inductive fmt_arg :=
  | ArgS (s : string)
  | ArgZ (n : Z)
  | ArgL (l : list string).

(** gRPC status codes (google.golang.org/grpc/codes). *)
Inductive Code :=
  | OK | Canceled | Unknown | InvalidArgument | DeadlineExceeded | NotFound
  | AlreadyExists | PermissionDenied | ResourceExhausted | FailedPrecondition
  | Aborted | OutOfRange | Unimplemented | Internal | Unavailable | DataLoss
  | Unauthenticated.

#[export] Instance Code_eq_dec : EqDecision Code.
Proof. solve_decision. Defined.

Record Status := mkStatus { status_Code : Code; status_Message : string }.

Inductive error :=
  | New (msg : string)
  | Errorf (fmt : string) (args : list fmt_arg)
  | Wrapf (fmt : string) (args : list fmt_arg) (err : error)
  | Multi (errs : list error)
  | StatusErr (st : Status)
  | permanent (err : error)
  | downstreamError (inner : error)
  | shutdownErr (err : error)
  | throttleRetry (err : error) (delay : Z)
  | ConsumerError (err : option error) (httpStatus : Z)
      (grpcStatus : option Status) (isRetryable : bool).

(** The value [multierr.Append] or [errors.Join] builds from the non-nil errors
    it was given: [nil] when there is none. *)
Definition multi (errs : list error) : option error :=
  match errs with
  | [] => None
  | _ => Some (Multi errs)
  end.

(** [multierr.Append]: a nil side gives the other one, two errors are collected
    in one list. *)
Definition multierr_list (e : error) : list error :=
  match e with Multi errs => errs | _ => [e] end.
Definition multierr_Append (left right : option error) : option error :=
  match left, right with
  | None, _ => right
  | _, None => left
  | Some l, Some r => Some (Multi (multierr_list l ++ multierr_list r))
  end.

Lemma multierr_Append_None left right :
  multierr_Append left right = None <-> left = None /\ right = None.
Proof. destruct left, right; naive_solver. Qed.

(** [errors.As]: pre-order search of the error tree. *)
Section ErrorsAs.
Context {B : Type} (p : error -> option B).

Definition first_of (l : list (option B)) : option B :=
  foldr (fun x acc => match x with Some b => Some b | None => acc end) None l.

Fixpoint errors_as (e : error) : option B :=
  match p e with
  | Some b => Some b
  | None =>
      match e with
      | New _ | Errorf _ _ | StatusErr _ => None
      | Wrapf _ _ err | permanent err | downstreamError err
      | shutdownErr err | throttleRetry err _ => errors_as err
      | Multi errs => first_of (map errors_as errs)
      | ConsumerError (Some err) _ _ _ => errors_as err
      | ConsumerError None _ (Some st) _ => p (StatusErr st)
      | ConsumerError None _ None _ => None
      end
  end.

Lemma first_of_Some l b : first_of l = Some b -> Some b ∈ l.
Proof.
  induction l as [|[x|] l IH]; simpl; [done| |].
  - intros [= ->]. left.
  - intros H. right. auto.
Qed.

(** What [errors_as] returns was accepted by the target's type test. *)
Lemma errors_as_sound : forall e b, errors_as e = Some b -> exists x, p x = Some b.
Proof.
  fix IH 1. intros e b. destruct e; simpl;
    match goal with |- context [p ?x] => destruct (p x) as [c|] eqn:Ep end; intros H;
    try (injection H as <-; by eexists); try done; try (by eapply IH).
  - clear Ep. induction errs as [|x errs IHl]; simpl in H; [done|].
    destruct (errors_as x) as [c|] eqn:Ex; [injection H as <-; eapply IH, Ex|]. auto.
  - destruct err as [err|]; [by eapply IH|]. destruct grpcStatus; [by eexists|done].
Qed.

Lemma first_of_None l : first_of l = None <-> Forall (fun x => x = None) l.
Proof.
  induction l as [|[x|] l IH]; simpl.
  - split; [constructor|done].
  - split; [done|]. inversion 1; done.
  - rewrite IH. split; [by constructor|by inversion 1].
Qed.
End ErrorsAs.

(** [errors.Is(e, sentinel)] for a sentinel made by [errors.New]. *)
Definition errors_is (sentinel : string) (e : error) : bool :=
  match errors_as (fun x => match x with
                            | New m => if decide (m = sentinel) then Some tt else None
                            | _ => None
                            end) e with
  | Some _ => true
  | None => false
  end.

Definition opt_bool {A} (o : option A) : bool :=
  match o with Some _ => true | None => false end.

(** ** consumererror/permanent.go, downstream.go, experr/err.go *)

Definition NewPermanent (err : error) : error := permanent err.

Definition as_permanent (e : error) : option error :=
  match e with permanent err => Some err | _ => None end.

Definition IsPermanent (err : option error) : bool :=
  match err with
  | None => false
  | Some e => opt_bool (errors_as as_permanent e)
  end.

Definition NewDownstream (err : error) : error := downstreamError err.

Definition as_downstream (e : error) : option error :=
  match e with downstreamError inner => Some inner | _ => None end.

Definition IsDownstream (err : option error) : bool :=
  match err with
  | None => false
  | Some e => opt_bool (errors_as as_downstream e)
  end.

Definition NewShutdownErr (err : error) : error := shutdownErr err.

Definition as_shutdown (e : error) : option error :=
  match e with shutdownErr err => Some err | _ => None end.

Definition IsShutdownErr (err : option error) : bool :=
  match err with
  | None => false
  | Some e => opt_bool (errors_as as_shutdown e)
  end.

(** ** exporterhelper/internal/retry_sender.go: throttleRetry *)

Definition NewThrottleRetry (err : error) (delay : Z) : error := throttleRetry err delay.

(** [errors.As(err, &throttleErr)], returning its delay. *)
Definition as_throttle (e : error) : option Z :=
  match e with throttleRetry _ d => Some d | _ => None end.

(** ** consumererror/error.go *)
Section ConsumerErrors.
Local Open Scope Z_scope.

(** [None] is the panic on a success code. *)
Definition NewOTLPHTTPError (origErr : option error) (httpStatus : Z) : option error :=
  if (200 <=? httpStatus) && (httpStatus <=? 299) then None
  else
    let retryable :=
      (httpStatus =? 429) || (httpStatus =? 502) || (httpStatus =? 503) || (httpStatus =? 504) in
    Some (ConsumerError origErr httpStatus None retryable).

Definition grpc_retryable (c : Code) : bool :=
  match c with
  | Canceled | DeadlineExceeded | Aborted | OutOfRange | Unavailable | DataLoss => true
  | _ => false
  end.

(** [None] is the panic on [codes.OK]. *)
Definition NewOTLPGRPCError (origErr : option error) (status : option Status) : option error :=
  match status with
  | None => Some (ConsumerError origErr 0 None false)
  | Some st =>
      if decide (status_Code st = OK) then None
      else Some (ConsumerError origErr 0 (Some st) (grpc_retryable (status_Code st)))
  end.

Definition NewRetryableError (origErr : option error) : error :=
  ConsumerError origErr 0 None true.

Definition IsRetryable (e : error) : bool :=
  match e with ConsumerError _ _ _ r => r | _ => false end.

Definition as_Error (e : error) : option error :=
  match e with ConsumerError _ _ _ _ => Some e | _ => None end.

(** consumererror/internal/statusconversion/conversion.go *)
Definition GetHTTPStatusCodeFromStatus (c : Code) : Z :=
  match c with
  | Canceled | DeadlineExceeded | Aborted | OutOfRange | Unavailable | DataLoss => 503
  | ResourceExhausted => 429
  | InvalidArgument => 400
  | Unauthenticated => 401
  | PermissionDenied => 403
  | Unimplemented => 404
  | _ => 500
  end.

Definition NewStatusFromMsgAndHTTPCode (errMsg : string) (statusCode : Z) : Status :=
  let c :=
    if statusCode =? 400 then InvalidArgument
    else if statusCode =? 401 then Unauthenticated
    else if statusCode =? 403 then PermissionDenied
    else if statusCode =? 404 then Unimplemented
    else if statusCode =? 429 then ResourceExhausted
    else if (statusCode =? 502) || (statusCode =? 503) || (statusCode =? 504) then Unavailable
    else Unknown in
  mkStatus c errMsg.

Definition ToHTTPStatus (err : error) : Z :=
  match errors_as as_Error err with
  | Some (ConsumerError _ http grpc retryable) =>
      if negb (http =? 0) then http
      else match grpc with
           | Some st => GetHTTPStatusCodeFromStatus (status_Code st)
           | None => if retryable then 503 else 500
           end
  | _ => 500
  end.

(** [ToGRPCStatus] uses [Error()] texts and grpc's [status.FromError], which
    are parameters.  [None] is the nil dereference of [e.Error()] on the last
    line: [e] is nil there exactly when [errors.As] did not find an [*Error]. *)
Section ToGRPC.
Context (errorText : error -> string) (FromError : error -> option Status).

Definition ToGRPCStatus (err : error) : option Status :=
  let e := errors_as as_Error err in
  let fromErr :=
    match FromError err with
    | Some st => Some st
    | None => match e with
              | Some x => Some (mkStatus Unknown (errorText x))
              | None => None
              end
    end in
  match e with
  | Some (ConsumerError _ http grpc retryable as x) =>
      match grpc with
      | Some st => Some st
      | None =>
          if negb (http =? 0) then Some (NewStatusFromMsgAndHTTPCode (errorText x) http)
          else if retryable then Some (mkStatus Unavailable (errorText x))
          else fromErr
      end
  | _ => fromErr
  end.
End ToGRPC.
End ConsumerErrors.

(** ** Lemmas *)

Lemma IsPermanent_NewPermanent err : IsPermanent (Some (NewPermanent err)) = true.
Proof. done. Qed.

Lemma IsShutdownErr_NewShutdownErr err : IsShutdownErr (Some (NewShutdownErr err)) = true.
Proof. done. Qed.

(** A wrapper that is not itself the searched type is looked through. *)
Lemma IsPermanent_Wrapf f a err : IsPermanent (Some (Wrapf f a err)) = IsPermanent (Some err).
Proof. done. Qed.

Lemma IsShutdownErr_Wrapf f a err : IsShutdownErr (Some (Wrapf f a err)) = IsShutdownErr (Some err).
Proof. done. Qed.

Lemma multi_None errs : multi errs = None <-> errs = [].
Proof. by destruct errs. Qed.

(** ** Properties *)

(** The gRPC and the HTTP classification of a failure agree on whether it may
    be retried, for every code an error can carry except [ResourceExhausted]:
    that one is not retryable as a gRPC status, and is mapped to 429, which is
    retryable as an HTTP status. *)
Theorem retryable_grpc_http_agree origErr c msg e h :
  NewOTLPGRPCError origErr (Some (mkStatus c msg)) = Some e ->
  NewOTLPHTTPError origErr (ToHTTPStatus e) = Some h ->
  IsRetryable e = IsRetryable h <-> c <> ResourceExhausted.
Proof.
  unfold NewOTLPGRPCError; simpl. case_decide as Hok; [done|]. intros [= <-].
  unfold ToHTTPStatus; simpl.
  destruct c; simpl; unfold NewOTLPHTTPError; simpl; intros [= <-]; simpl;
    (split; [congruence|done]) || (split; [done|congruence]).
Qed.

Lemma retryable_grpc_http_agree_witness :
  IsRetryable (ConsumerError None 0 (Some (mkStatus Unavailable "x")) true) =
  IsRetryable (ConsumerError None 503 None true) <-> Unavailable <> ResourceExhausted.
Proof. by apply (retryable_grpc_http_agree None Unavailable "x"). Defined.

(** [ToGRPCStatus] panics, dereferencing the nil [e], exactly on the errors
    that hold no [*Error] and that grpc does not recognise as a status; its
    documentation promises a status for these. *)
Theorem ToGRPCStatus_panics_iff errorText FromError err :
  ToGRPCStatus errorText FromError err = None <->
  errors_as as_Error err = None /\ FromError err = None.
Proof.
  unfold ToGRPCStatus.
  destruct (errors_as as_Error err) as [x|] eqn:Ex; [|destruct (FromError err); naive_solver].
  apply errors_as_sound in Ex as (y & Hy). destruct y; try done. injection Hy as <-.
  destruct grpcStatus, (negb (httpStatus =? 0)%Z), isRetryable, (FromError err); naive_solver.
Qed.

(** A failure sent as an HTTP status, read back as a gRPC status and turned
    into an HTTP status again keeps its HTTP code for the codes OTLP names,
    and becomes 503 for the other retryable gateway codes and 500 otherwise. *)
Theorem http_grpc_http_roundtrip msg h :
  GetHTTPStatusCodeFromStatus (status_Code (NewStatusFromMsgAndHTTPCode msg h)) =
  (if bool_decide (h ∈ [400; 401; 403; 404; 429; 503]) then h
   else if bool_decide (h ∈ [502; 504]) then 503 else 500)%Z.
Proof.
  unfold NewStatusFromMsgAndHTTPCode. simpl.
  repeat (match goal with |- context [(?a =? ?b)%Z] => destruct (Z.eqb_spec a b) as [->|] end; [done|]).
  simpl. rewrite !bool_decide_eq_false_2; [done|..]; set_solver.
Qed.
