(* ===== verification/Sizers.v ===== *)
(** * Request sizes (exporterhelper/internal/request, exporterhelper/internal/sizer)

    The sizer types a queue or batch is configured with, the per-request size
    cache, and the proto delta sizer with the bounds the splitting code relies
    on. *)

From S2P Require Import Prelude Errors.
Local Open Scope Z_scope.

(** ** request/sizer.go *)

Record SizerType := mkSizerType { szt_val : string }.

#[export] Instance SizerType_eq_dec : EqDecision SizerType.
Proof. solve_decision. Defined.

Definition SizerTypeBytes : SizerType := mkSizerType "bytes".
Definition SizerTypeItems : SizerType := mkSizerType "items".
Definition SizerTypeRequests : SizerType := mkSizerType "requests".

Definition UnmarshalText (text : string) : SizerType + error :=
  if decide (text = "items") then inl SizerTypeItems
  else if decide (text = "bytes") then inl SizerTypeBytes
  else if decide (text = "requests") then inl SizerTypeRequests
  else inr (Errorf "invalid sizer: %q" [ArgS text]).

Definition MarshalText (s : SizerType) : string := szt_val s.

(** A request as the queue sees it: [ItemsCount] and [BytesSize]. *)
Class Request (T : Type) := {
  ItemsCount : T -> Z;
  BytesSize : T -> Z;
}.

(** [NewSizer(sizerType).Sizeof(req)]. *)
Definition Sizeof {T} `{Request T} (szt : SizerType) (req : T) : Z :=
  if decide (szt = SizerTypeBytes) then BytesSize req
  else if decide (szt = SizerTypeItems) then ItemsCount req
  else 1.

(** ** request/sizecache.go *)

Definition uncachedSize : Z := -1.

Record SizeCache := mkSizeCache { itemsSize : Z; bytesSize : Z }.

Definition NewSizeCache : SizeCache := mkSizeCache uncachedSize uncachedSize.

(** The size and the cache after the call; [compute] is what the callback
    would return. *)
Definition SizeOf (c : SizeCache) (szt : SizerType) (compute : Z) : Z * SizeCache :=
  if decide (szt = SizerTypeItems) then
    let c := if itemsSize c =? uncachedSize then mkSizeCache compute (bytesSize c) else c in
    (itemsSize c, c)
  else if decide (szt = SizerTypeBytes) then
    let c := if bytesSize c =? uncachedSize then mkSizeCache (itemsSize c) compute else c in
    (bytesSize c, c)
  else (compute, c).

Definition Update (c : SizeCache) (szt : SizerType) (size : Z) : SizeCache :=
  let c := mkSizeCache uncachedSize uncachedSize in
  if decide (szt = SizerTypeItems) then mkSizeCache size (bytesSize c)
  else if decide (szt = SizerTypeBytes) then mkSizeCache (itemsSize c) size
  else c.

(** The cache agrees with the data it was computed from: a dimension is either
    not computed or right. *)
Definition cache_ok (c : SizeCache) (items bytes : Z) : Prop :=
  (itemsSize c = uncachedSize \/ itemsSize c = items) /\
  (bytesSize c = uncachedSize \/ bytesSize c = bytes).

Definition dim (szt : SizerType) (items bytes : Z) : Z :=
  if decide (szt = SizerTypeItems) then items else bytes.

Lemma NewSizeCache_ok items bytes : cache_ok NewSizeCache items bytes.
Proof. split; by left. Qed.

Lemma SizeOf_ok c szt items bytes :
  cache_ok c items bytes ->
  fst (SizeOf c szt (dim szt items bytes)) = dim szt items bytes /\
  cache_ok (snd (SizeOf c szt (dim szt items bytes))) items bytes.
Proof.
  unfold SizeOf, dim, cache_ok. intros [Hi Hb].
  repeat case_decide; simplify_eq/=; repeat case_match; zbool; simpl; naive_solver.
Qed.

(** A second request for the same dimension is answered from the cache. *)
Lemma SizeOf_cached c szt x y :
  szt = SizerTypeItems \/ szt = SizerTypeBytes -> x <> uncachedSize ->
  fst (SizeOf (snd (SizeOf c szt x)) szt y) = fst (SizeOf c szt x).
Proof.
  unfold SizeOf. intros Hs Hx. repeat case_decide; simplify_eq/=;
    repeat case_match; zbool; simplify_eq/=; repeat case_match; zbool; simplify_eq/=; naive_solver.
Qed.

Lemma Update_ok c szt items bytes :
  cache_ok (Update c szt (dim szt items bytes)) items bytes.
Proof. unfold Update, dim, cache_ok. repeat case_decide; simpl; auto. Qed.

(** ** sizer/proto_delta_sizer.go and pdata/internal/proto/size.go *)

Definition sov (x : Z) : Z := (Len64 (Z.lor x 1) + 6) / 7.

Definition protoDeltaSize (newItemSize : Z) : Z := 1 + newItemSize + sov (u64 newItemSize).

Lemma lor_even_1 q : Z.lor (2 * q) 1 = 2 * q + 1.
Proof.
  symmetry. apply Z.add_nocarry_lor. change 1 with (Z.ones 1).
  rewrite Z.land_ones by lia. rewrite Z.mul_comm. by apply Z_mod_mult.
Qed.

Lemma lor_1 z : Z.lor z 1 = 2 * (z / 2) + 1.
Proof.
  pose proof (Z.div_mod z 2 ltac:(lia)). pose proof (Z.mod_pos_bound z 2 ltac:(lia)).
  rewrite <- lor_even_1.
  assert (z mod 2 = 0 \/ z mod 2 = 1) as [E|E] by lia.
  - f_equal. lia.
  - replace z with (Z.lor (2 * (z / 2)) 1) at 1 by (rewrite lor_even_1; lia).
    by rewrite <- Z.lor_assoc, Z.lor_diag.
Qed.

Lemma lor_1_mono x y : 0 <= x <= y -> 0 <= Z.lor x 1 <= Z.lor y 1.
Proof.
  intros [Hx Hxy]. rewrite !lor_1. pose proof (Z.div_le_mono x y 2 ltac:(lia) Hxy).
  pose proof (Z.div_pos x 2 Hx). lia.
Qed.

Lemma sov_mono x y : 0 <= x <= y -> sov x <= sov y.
Proof.
  intros H. unfold sov. apply Z.div_le_mono; [lia|].
  pose proof (Len64_mono (Z.lor x 1) (Z.lor y 1) (lor_1_mono x y H)). lia.
Qed.

Lemma sov_pos x : 0 <= x -> 1 <= sov x.
Proof. intros H. transitivity (sov 0); [done|]. apply sov_mono. lia. Qed.

Lemma protoDeltaSize_ge x : x < protoDeltaSize x.
Proof.
  unfold protoDeltaSize. pose proof (u64_range x) as [? _].
  pose proof (sov_pos (u64 x)). lia.
Qed.

Lemma protoDeltaSize_mono x y :
  0 <= x <= y -> y < 2 ^ 63 -> y - x <= protoDeltaSize y - protoDeltaSize x.
Proof.
  intros H Hy. unfold protoDeltaSize. rewrite !u64_id by (unfold is_u64; lia).
  pose proof (sov_mono x y H). lia.
Qed.

(** The room a parent of capacity [c] leaves for the body of a new element is
    always enough for the element with its header. *)
Lemma protoDeltaSize_fit x c :
  0 <= x -> c < 2 ^ 63 -> x <= c - (protoDeltaSize c - c) -> protoDeltaSize x <= c.
Proof.
  intros Hx Hc H. unfold protoDeltaSize in *.
  destruct (Z.lt_ge_cases c 0) as [Hneg|Hpos].
  - pose proof (u64_range c) as [? _]. pose proof (sov_pos (u64 c)). lia.
  - rewrite (u64_id c) in H by (unfold is_u64; lia).
    pose proof (sov_pos c Hpos).
    rewrite (u64_id x) by (unfold is_u64; lia).
    pose proof (sov_mono x c). lia.
Qed.

(** Bytes of a length-delimited field with a one-byte tag. *)
Definition lenField (l : Z) : Z := 1 + sov (u64 l) + l.

Lemma lenField_delta l : lenField l = protoDeltaSize l.
Proof. unfold lenField, protoDeltaSize. lia. Qed.
