(* ===== verification/SignalSplit.v ===== *)
(** * Merging and splitting export requests (exporterhelper/internal/queuebatch)

    logs_batch.go and traces_batch.go are the same code over two three-level
    structures: resources hold scopes, scopes hold records (log records or
    spans).  This file models that code once, over the record, scope and
    resource types and their encoded sizes; the section [Traces] names the
    traces copy.

    The pdata slices are mutable and the code moves elements between a source
    and a destination: a function returns the destination together with the
    source as it is left. *)

From S2P Require Import Prelude Errors Sizers.
Local Open Scope Z_scope.

Section Signal.
(** The payload types and the size of their encodings: the generated
    [SizeProto] of Resource, InstrumentationScope and LogRecord or Span. *)
Context {Resource Scope Rec : Type}.
Context (resourceProto : Resource -> Z) (scopeProto : Scope -> Z) (recordProto : Rec -> Z).

Record ScopeData := mkScope {
  sc_scope : Scope;
  sc_schemaUrl : string;
  sc_records : list Rec;
}.

Record ResourceData := mkResource {
  rs_resource : Resource;
  rs_schemaUrl : string;
  rs_scopes : list ScopeData;
  rs_deprecated : list ScopeData;
}.

(** Logs or Traces: the slice of resources. *)
Definition Data := list ResourceData.

(** LogRecordCount / SpanCount. *)
Definition recordCount (d : Data) : Z :=
  sumZ (fun r => sumZ (fun s => Z.of_nat (length (sc_records s))) (rs_scopes r)) d.

(** The sizer interface (sizer/logs_sizer.go, sizer/traces_sizer.go). *)
Record Sizer := mkSizer {
  DataSize : Data -> Z;
  ResourceSize : ResourceData -> Z;
  ScopeSize : ScopeData -> Z;
  RecordSize : Rec -> Z;
  DeltaSize : Z -> Z;
}.

Definition CountSizer : Sizer := {|
  DataSize := recordCount;
  ResourceSize := fun r => sumZ (fun s => Z.of_nat (length (sc_records s))) (rs_scopes r);
  ScopeSize := fun s => Z.of_nat (length (sc_records s));
  RecordSize := fun _ => 1;
  DeltaSize := fun n => n;
|}.

(** The generated [SizeProto] of ScopeLogs / ScopeSpans. *)
Definition scopeSizeProto (s : ScopeData) : Z :=
  lenField (scopeProto (sc_scope s))
  + sumZ (fun r => lenField (recordProto r)) (sc_records s)
  + (let l := Z.of_nat (String.length (sc_schemaUrl s)) in if 0 <? l then lenField l else 0).

(** The generated [SizeProto] of ResourceLogs / ResourceSpans. *)
Definition resourceSizeProto (r : ResourceData) : Z :=
  lenField (resourceProto (rs_resource r))
  + sumZ (fun s => lenField (scopeSizeProto s)) (rs_scopes r)
  + (let l := Z.of_nat (String.length (rs_schemaUrl r)) in if 0 <? l then lenField l else 0)
  + sumZ (fun s => let l := scopeSizeProto s in 2 + sov (u64 l) + l) (rs_deprecated r).

(** The generated [SizeProto] of LogsData / TracesData. *)
Definition dataSizeProto (d : Data) : Z := sumZ (fun r => lenField (resourceSizeProto r)) d.

Definition BytesSizer : Sizer := {|
  DataSize := dataSizeProto;
  ResourceSize := resourceSizeProto;
  ScopeSize := scopeSizeProto;
  RecordSize := recordProto;
  DeltaSize := protoDeltaSize;
|}.

(** ** Extraction *)

Section Extract.
Context (sz : Sizer).

(** State of the closures passed to [RemoveIf]: capacityLeft, removedSize and
    the elements appended to the destination. *)
Definition scopeStep (maxRecordSize : Z) (st : Z * Z * list Rec) (srcLR : Rec)
    : (Z * Z * list Rec) * Rec * bool :=
  let '(capacityLeft, removedSize, dest) := st in
  if capacityLeft =? 0 then (st, srcLR, false)
  else
    let rlSize := DeltaSize sz (RecordSize sz srcLR) in
    if maxRecordSize <? rlSize then ((capacityLeft, removedSize + rlSize, dest), srcLR, true)
    else if capacityLeft <? rlSize then ((0, removedSize, dest), srcLR, false)
    else ((capacityLeft - rlSize, removedSize + rlSize, dest ++ [srcLR]), srcLR, true).

(** extractScopeLogs / extractScopeSpans: destination, removed size, source. *)
Definition extractScope (srcSL : ScopeData) (capacity maxScopeSize : Z) : ScopeData * Z * ScopeData :=
  let destSL := mkScope (sc_scope srcSL) (sc_schemaUrl srcSL) [] in
  let capacityLeft := capacity - (DeltaSize sz capacity - capacity) - ScopeSize sz destSL in
  let maxRecordSize :=
    maxScopeSize - (DeltaSize sz maxScopeSize - maxScopeSize) - ScopeSize sz destSL in
  let '((_, removedSize, dest), rest) :=
    removeIf (scopeStep maxRecordSize) (capacityLeft, 0, []) (sc_records srcSL) in
  (mkScope (sc_scope srcSL) (sc_schemaUrl srcSL) dest, removedSize,
   mkScope (sc_scope srcSL) (sc_schemaUrl srcSL) rest).

Definition resourceStep (maxScopeSize : Z) (st : Z * Z * list ScopeData) (srcSL : ScopeData)
    : (Z * Z * list ScopeData) * ScopeData * bool :=
  let '(capacityLeft, removedSize, dest) := st in
  if capacityLeft =? 0 then (st, srcSL, false)
  else
    let rawSlSize := ScopeSize sz srcSL in
    let slSize := DeltaSize sz rawSlSize in
    if capacityLeft <? slSize then
      let '(extSrcSL, extSlSize, srcSL') := extractScope srcSL capacityLeft maxScopeSize in
      let dest := if (0 <? length (sc_records extSrcSL))%nat then dest ++ [extSrcSL] else dest in
      if (length (sc_records srcSL') =? 0)%nat then ((0, removedSize + slSize, dest), srcSL', true)
      else ((0, removedSize + (slSize - DeltaSize sz (rawSlSize - extSlSize)), dest), srcSL', false)
    else ((capacityLeft - slSize, removedSize + slSize, dest ++ [srcSL]), srcSL, true).

(** extractResourceLogs / extractResourceSpans. *)
Definition extractResource (srcRL : ResourceData) (capacity maxSize : Z)
    : ResourceData * Z * ResourceData :=
  let destRL := mkResource (rs_resource srcRL) (rs_schemaUrl srcRL) [] [] in
  let capacityLeft := capacity - (DeltaSize sz capacity - capacity) - ResourceSize sz destRL in
  let maxScopeSize := maxSize - (DeltaSize sz maxSize - maxSize) - ResourceSize sz destRL in
  let '((_, removedSize, dest), rest) :=
    removeIf (resourceStep maxScopeSize) (capacityLeft, 0, []) (rs_scopes srcRL) in
  (mkResource (rs_resource srcRL) (rs_schemaUrl srcRL) dest [], removedSize,
   mkResource (rs_resource srcRL) (rs_schemaUrl srcRL) rest (rs_deprecated srcRL)).

Definition dataStep (capacity : Z) (st : Z * Z * list ResourceData) (srcRL : ResourceData)
    : (Z * Z * list ResourceData) * ResourceData * bool :=
  let '(capacityLeft, removedSize, dest) := st in
  if capacityLeft =? 0 then (st, srcRL, false)
  else
    let rawRlSize := ResourceSize sz srcRL in
    let rlSize := DeltaSize sz rawRlSize in
    if capacityLeft <? rlSize then
      let '(extSrcRL, extRlSize, srcRL') := extractResource srcRL capacityLeft capacity in
      let dest := if (0 <? length (rs_scopes extSrcRL))%nat then dest ++ [extSrcRL] else dest in
      if (length (rs_scopes srcRL') =? 0)%nat then ((0, removedSize + rlSize, dest), srcRL', true)
      else ((0, removedSize + (rlSize - DeltaSize sz (rawRlSize - extRlSize)), dest), srcRL', false)
    else ((capacityLeft - rlSize, removedSize + rlSize, dest ++ [srcRL]), srcRL, true).

(** extractLogs / extractTraces. *)
Definition extractData (src : Data) (capacity : Z) : Data * Z * Data :=
  let capacityLeft := capacity - DataSize sz [] in
  let '((_, removedSize, dest), rest) :=
    removeIf (dataStep capacity) (capacityLeft, 0, []) src in
  (dest, removedSize, rest).
End Extract.

(** ** Requests *)

Record request := mkRequest { rq_data : Data; rq_sizes : SizeCache }.

Definition newRequest (d : Data) : request := mkRequest d NewSizeCache.

Definition set_sizes (r : request) (c : SizeCache) : request := mkRequest (rq_data r) c.

(** [req.size(sz, szt)]: the size, and the request with its cache filled. *)
Definition size (sz : Sizer) (szt : SizerType) (req : request) : Z * request :=
  let '(n, c) := SizeOf (rq_sizes req) szt (DataSize sz (rq_data req)) in
  (n, set_sizes req c).

(** [req.mergeTo(dst)]: the destination; the merged request is left empty. *)
Definition mergeTo (sz : Sizer) (szt : SizerType) (req dst : request) : request :=
  let '(n1, dst) := size sz szt dst in
  let '(n2, req) := size sz szt req in
  let dst := set_sizes dst (Update (rq_sizes dst) szt (n1 + n2)) in
  mkRequest (rq_data dst ++ rq_data req) (rq_sizes dst).

Definition errCannotSplit (n : Z) : error :=
  Errorf "request size is greater than max size and cannot be split further, dropping items: %d" [ArgZ n].

Definition errDropped (fmt : string) (n : Z) : error := Errorf fmt [ArgZ n].

(** The loop of [split]: the requests, the error, and what the receiver holds
    afterwards.  [None] is reached only without fuel; [split_ok] shows that the
    fuel [split] gives is always enough. *)
Fixpoint splitLoop (sz : Sizer) (szt : SizerType) (fmt : string) (maxSize : Z) (fuel : nat)
    (req : request) (res : list request) (droppedItems : Z)
    : option (list request * option error * request) :=
  match fuel with
  | O => None
  | S fuel =>
      let '(n, req) := size sz szt req in
      if maxSize <? n then
        let recordsBefore := recordCount (rq_data req) in
        let '(ld, removedSize, src) := extractData sz (rq_data req) maxSize in
        let req := mkRequest src (rq_sizes req) in
        if removedSize =? 0 then
          Some (res, Some (errCannotSplit (droppedItems + recordCount (rq_data req))), req)
        else
          let '(n, req) := size sz szt req in
          let req := set_sizes req (Update (rq_sizes req) szt (n - removedSize)) in
          let droppedItems :=
            droppedItems + (recordsBefore - recordCount (rq_data req) - recordCount ld) in
          let res := if 0 <? recordCount ld then res ++ [newRequest ld] else res in
          splitLoop sz szt fmt maxSize fuel req res droppedItems
      else
        let res := if 0 <? recordCount (rq_data req) then res ++ [req] else res in
        Some (res, if 0 <? droppedItems then Some (errDropped fmt droppedItems) else None, req)
  end.

Definition split (sz : Sizer) (szt : SizerType) (fmt : string) (maxSize : Z) (req : request)
    : option (list request * option error * request) :=
  let '(n, req) := size sz szt req in
  if n <=? maxSize then Some ([req], None, req)
  else splitLoop sz szt fmt maxSize (S (Z.to_nat n)) req [] 0.

(** [MergeSplit].  The second request is absent ([None]), of another type
    ([Some None]), or of the same type. *)
Definition MergeSplit (fmt : string) (req : request) (maxSize : Z) (szt : SizerType)
    (r2 : option (option request)) : option (list request * option error * request) :=
  let go sz :=
    match r2 with
    | Some None => Some ([], Some (New "invalid input type"), req)
    | Some (Some req2) =>
        let req := mergeTo sz szt req2 req in
        if maxSize =? 0 then Some ([req], None, req) else split sz szt fmt maxSize req
    | None => if maxSize =? 0 then Some ([req], None, req) else split sz szt fmt maxSize req
    end in
  if decide (szt = SizerTypeItems) then go CountSizer
  else if decide (szt = SizerTypeBytes) then go BytesSizer
  else Some ([], Some (New "unknown sizer type"), req).
End Signal.

(** The message of the logs copy and of the traces copy; otherwise the two
    files are the same code. *)
Definition logsDropped : string := "single log record exceeds the max size limit, dropping items: %d".
Definition spansDropped : string := "single span exceeds the max size limit, dropping items: %d".

(** traces_batch.go: a record is a span. *)
Section Traces.
Context {Resource Scope Span : Type}.
Context (resourceProto : Resource -> Z) (scopeProto : Scope -> Z) (spanProto : Span -> Z).

Definition extractScopeSpans (sz : @Sizer Resource Scope Span) (srcSS : @ScopeData Scope Span)
    (capacity maxScopeSize : Z) := extractScope sz srcSS capacity maxScopeSize.
Definition extractResourceSpans (sz : @Sizer Resource Scope Span)
    (srcRS : @ResourceData Resource Scope Span) (capacity maxSize : Z) :=
  extractResource sz srcRS capacity maxSize.
Definition extractTraces (sz : @Sizer Resource Scope Span) (srcTraces : @Data Resource Scope Span)
    (capacity : Z) := extractData sz srcTraces capacity.
Definition tracesMergeTo (sz : @Sizer Resource Scope Span) (szt : SizerType) (req dst : @request Resource Scope Span) :=
  mergeTo sz szt req dst.
Definition tracesSplit (sz : @Sizer Resource Scope Span) (szt : SizerType) (maxSize : Z)
    (req : @request Resource Scope Span) := split sz szt spansDropped maxSize req.
Definition tracesMergeSplit := @MergeSplit Resource Scope Span resourceProto scopeProto spanProto spansDropped.
Definition TracesCountSizer : @Sizer Resource Scope Span := CountSizer.
Definition TracesBytesSizer : @Sizer Resource Scope Span := BytesSizer resourceProto scopeProto spanProto.
End Traces.

Arguments ScopeData : clear implicits.
Arguments ResourceData : clear implicits.
Arguments Data : clear implicits.
Arguments Sizer : clear implicits.
Arguments request : clear implicits.

(** ** The traversal common to the three levels

    [E] is the type of the elements of one level, [δs] their size in the
    parent, [rows] the records below an element (with their headers), and
    [bad] the records that may be dropped. *)
Section Level.
Context {E Row : Type} (δs : E -> Z) (rows : E -> list Row) (bad : Row -> Prop).
Context (P : E -> Prop) (cmax : Z) (Hcmax : 0 <= cmax).

Definition allRows (l : list E) : list Row := flat_map rows l.
Definition nrows (l : list E) : Z := Z.of_nat (length (allRows l)).

Lemma nrows_app l1 l2 : nrows (l1 ++ l2) = nrows l1 + nrows l2.
Proof. unfold nrows, allRows. rewrite flat_map_app, length_app. lia. Qed.

Lemma nrows_cons x l : nrows (x :: l) = Z.of_nat (length (rows x)) + nrows l.
Proof. unfold nrows. simpl. rewrite length_app. lia. Qed.

Lemma allRows_app l1 l2 : allRows (l1 ++ l2) = allRows l1 ++ allRows l2.
Proof. apply flat_map_app. Qed.

(** [out] is [inp] with some bad rows left out, order kept. *)
Definition kept_of (out inp : list Row) : Prop :=
  out `sublist_of` inp /\ exists dropped, inp ≡ₚ out ++ dropped /\ Forall bad dropped.

Lemma kept_of_refl l : kept_of l l.
Proof. split; [done|]. exists []. by rewrite app_nil_r. Qed.

Lemma kept_of_app o1 i1 o2 i2 : kept_of o1 i1 -> kept_of o2 i2 -> kept_of (o1 ++ o2) (i1 ++ i2).
Proof.
  intros [Hs1 (d1 & Hp1 & Hb1)] [Hs2 (d2 & Hp2 & Hb2)]. split; [by apply sublist_app|].
  exists (d1 ++ d2). split; [|by apply Forall_app].
  rewrite Hp1, Hp2. solve_Permutation.
Qed.

Lemma kept_of_trans a b c : kept_of a b -> kept_of b c -> kept_of a c.
Proof.
  intros [Hs1 (d1 & Hp1 & Hb1)] [Hs2 (d2 & Hp2 & Hb2)]. split; [by etrans|].
  exists (d1 ++ d2). split; [|by apply Forall_app].
  rewrite Hp2, Hp1. solve_Permutation.
Qed.

Lemma kept_of_length out inp : kept_of out inp -> (length out <= length inp)%nat.
Proof. intros [Hs _]. by apply sublist_length. Qed.

Lemma kept_of_drop l : Forall bad l -> kept_of [] l.
Proof. intros H. split; [apply sublist_nil_l|]. by exists l. Qed.

(** What one call of the closure may do with the element [x] when the room
    left is [c]: keep it because nothing is left, move it whole, drop it, or
    extract [exts] from it and leave [left] behind. *)
Definition step_ok (f : Z * Z * list E -> E -> (Z * Z * list E) * E * bool) : Prop :=
  forall c r m x, P x -> c <= cmax ->
  exists c' r' m' x' rm, f (c, r, m) x = ((c', r', m'), x', rm) /\
  ((c = 0 /\ c' = 0 /\ r' = r /\ m' = m /\ x' = x /\ rm = false) \/
   (c <> 0 /\ δs x <= c /\ c' = c - δs x /\ r' = r + δs x /\ m' = m ++ [x] /\ rm = true) \/
   (c <> 0 /\ c' = c /\ r' = r + δs x /\ m' = m /\ rm = true /\ Forall bad (rows x)) \/
   (c <> 0 /\ c' = 0 /\ exists exts left, left = (if rm then [] else [x']) /\
      m' = m ++ exts /\ kept_of (allRows (exts ++ left)) (rows x) /\
      (exts = [] \/ sumZ δs exts <= c) /\
      r' = r + δs x - sumZ δs left /\ 
      Z.of_nat (length (rows x)) - nrows left <= δs x - sumZ δs left /\ Forall P left /\ Forall P exts)).

Lemma level_ok f l c r m :
  step_ok f -> Forall P l ->
  Forall (fun x => Z.of_nat (length (rows x)) <= δs x) l -> c <= cmax ->
  exists c' r' m1 kept,
    removeIf f (c, r, m) l = ((c', r', m ++ m1), kept) /\
    kept_of (allRows (m1 ++ kept)) (allRows l) /\
    r' = r + sumZ δs l - sumZ δs kept /\
    (m1 = [] \/ sumZ δs m1 <= c) /\
    (c = 0 -> m1 = [] /\ kept = l /\ r' = r) /\
    nrows l - nrows kept <= r' - r /\ Forall P kept /\ Forall P m1.
Proof.
  intros Hf. revert c r m. induction l as [|x l IH]; intros c r m HP Hnn Hc.
  - exists c, r, [], []. simpl. rewrite app_nil_r. split; [done|]. split; [apply kept_of_refl|]. repeat split; try done; try lia; by left.
  - inversion HP as [|?? HPx HPl]; subst. inversion Hnn as [|?? Hx Hl]; subst. simpl in Hx.
    destruct (Hf c r m x HPx Hc) as (c' & r' & m' & x' & rm & Ef & Hcase). simpl.
    rewrite Ef.
    destruct Hcase as [(-> & -> & -> & -> & -> & ->)
                      |[(Hc0 & Hfit & -> & -> & -> & ->)
                      |[(Hc0 & -> & -> & -> & -> & Hbad)
                      |(Hc0 & -> & exts & left & Hleft & -> & Hk & Hfit & -> & Hle & HPleft & HPexts)]]].
    + destruct (IH 0 r m) as (c2 & r2 & m1 & kept & -> & Hk & -> & Hm & H0 & Hr & HPk & HPm); [done..|].
      destruct (H0 eq_refl) as (-> & -> & _).
      exists c2, (r + sumZ δs l - sumZ δs l), [], (x :: l). split; [done|].
      split; [apply kept_of_refl|]. repeat split; try done; try (simpl; lia); auto.
    + destruct (IH (c - δs x) (r + δs x) (m ++ [x]))
        as (c2 & r2 & m1 & kept & -> & Hk & -> & Hm & H0 & Hr & HPk & HPm); [done..|lia|].
      eexists c2, _, (x :: m1), kept. rewrite <- app_assoc. split; [done|].
      split; [by apply (kept_of_app (rows x) (rows x)); [apply kept_of_refl|]|].
      rewrite nrows_cons. repeat split; try done; try (simpl; lia).
      * right. simpl. destruct Hm as [->|Hm]; simpl; lia.
      * by constructor.
    + destruct (IH c (r + δs x) m)
        as (c2 & r2 & m1 & kept & -> & Hk & -> & Hm & H0 & Hr & HPk & HPm); [done..|].
      eexists c2, _, m1, kept. split; [done|].
      split; [by apply (kept_of_app [] (rows x)); [apply kept_of_drop|]|].
      rewrite nrows_cons. repeat split; try done; try (simpl; lia).
    + destruct (IH 0 (r + δs x - sumZ δs left) (m ++ exts))
        as (c2 & r2 & m1 & kept & -> & _ & -> & _ & H0 & Hr & HPk & _); [done..|lia|].
      destruct (H0 eq_refl) as (-> & -> & _).
      eexists c2, _, exts, (left ++ l). rewrite app_nil_r.
      split; [subst left; by destruct rm|]. rewrite app_assoc, allRows_app.
      split; [by apply (kept_of_app _ (rows x)); [|apply kept_of_refl]|].
      rewrite sumZ_app, nrows_app, nrows_cons. repeat split; try done; try (simpl; lia). by apply Forall_app.
Qed.
End Level.

Lemma kept_of_map {Row Row'} (f : Row -> Row') (bad : Row -> Prop) (bad' : Row' -> Prop) out inp :
  (forall x, bad x -> bad' (f x)) -> kept_of bad out inp -> kept_of bad' (map f out) (map f inp).
Proof.
  intros Hb [Hs (d & Hp & Hd)]. split.
  - clear -Hs. induction Hs; simpl; by constructor.
  - exists (map f d). split; [rewrite <- map_app; by apply Permutation_map|].
    apply Forall_forall. intros y Hy. apply list_elem_of_fmap in Hy as (x & -> & Hx).
    apply Hb. by eapply Forall_forall in Hd.
Qed.

(** One level above another: a closure that moves an element whole when it
    fits and extracts from it when it does not. *)
Lemma level_step_ok {E Row} (δ : Z -> Z) (δ_ge : forall x, x <= δ x)
    (δ_mono : forall x y, 0 <= x <= y -> y < 2 ^ 63 -> y - x <= δ y - δ x) (esize : E -> Z) (rows : E -> list Row) bad (children : E -> nat)
    (extract : E -> Z -> E * Z * E) step :
  (forall x, Z.of_nat (length (rows x)) <= esize x) -> (forall x, children x = 0%nat -> rows x = []) ->
  (forall x c dest rem x', c < 2 ^ 63 -> esize x < 2 ^ 63 -> extract x c = (dest, rem, x') ->
     kept_of bad (rows dest ++ rows x') (rows x) /\ esize x' = esize x - rem /\
     Z.of_nat (length (rows x)) - Z.of_nat (length (rows x')) <= rem /\
     (children dest = 0%nat \/ δ (esize dest) <= c)) ->
  (forall c r d x, step (c, r, d) x =
     if c =? 0 then ((c, r, d), x, false)
     else if c <? δ (esize x) then
       let '(ext, extSize, x') := extract x c in
       let d := if (0 <? children ext)%nat then d ++ [ext] else d in
       if (children x' =? 0)%nat then ((0, r + δ (esize x), d), x', true)
       else ((0, r + (δ (esize x) - δ (esize x - extSize)), d), x', false)
     else ((c - δ (esize x), r + δ (esize x), d ++ [x]), x, true)) ->
  step_ok (fun x => δ (esize x)) rows bad (fun x => esize x < 2 ^ 63) (2 ^ 63 - 1) step.
Proof.
  intros Hnn Hnil Hext Hstep c r d x Hx Hc. rewrite Hstep.
  destruct (Z.eqb_spec c 0) as [->|Hc0]; [eexists _, _, _, _, _; split; [done|]; naive_solver|].
  destruct (Z.ltb_spec c (δ (esize x))) as [Hl|Hl];
    [|eexists _, _, _, _, _; split; [done|]; right; left; repeat split; try done; lia].
  destruct (extract x c) as [[ext rem] x'] eqn:Ee.
  apply Hext in Ee as (Hk & Hsz & Hrem & Hfit); [|lia|done].
  pose proof (Hnn x') as Hx'. pose proof (δ_ge (esize x)) as Hdx.
  pose proof (kept_of_length _ _ _ Hk) as Hlen. rewrite length_app in Hlen.
  set (exts := if (0 <? children ext)%nat then [ext] else []).
  assert (Hd : (if (0 <? children ext)%nat then d ++ [ext] else d) = d ++ exts).
  { subst exts. destruct (_ <? _)%nat; [done|by rewrite app_nil_r]. }
  assert (Hke : kept_of bad (allRows rows exts ++ rows x') (rows x)).
  { subst exts. destruct (Nat.ltb_spec 0 (children ext)); simpl; [by rewrite app_nil_r|].
    rewrite (Hnil ext) in Hk by lia. done. }
  assert (Hfe : exts = [] \/ sumZ (fun s => δ (esize s)) exts <= c).
  { subst exts. destruct (Nat.ltb_spec 0 (children ext)); [right; simpl; lia|by left]. }
  assert (HPe : Forall (fun x => esize x < 2 ^ 63) exts).
  { subst exts. destruct (Nat.ltb_spec 0 (children ext)); [|constructor]. apply Forall_singleton. pose proof (δ_ge (esize ext)). lia. }
  rewrite Hd. destruct (Nat.eqb_spec (children x') 0) as [E0|E0];
    eexists _, _, _, _, _; (split; [done|]); right; right; right; (split; [done|]); (split; [done|]).
  - exists exts, []. rewrite (Hnil _ E0) in Hke. rewrite allRows_app.
    pose proof (Hnn x). unfold nrows; simpl. split_and!; try done; try (simpl; lia).
  - exists exts, [x']. rewrite allRows_app, <- Hsz. simpl. rewrite app_nil_r.
    pose proof (δ_mono (esize x') (esize x)). unfold nrows; simpl; rewrite app_nil_r.
    split_and!; try done; try lia. repeat constructor; lia.
Qed.

(** ** What a sizer promises

    The client theorems below are proved against these laws; [CountSizer_laws]
    and [BytesSizer_laws] discharge them. Sizes are Go [int]s: the laws about
    growing a size are stated below 2^63. *)
Section Laws.
Context {Resource Scope Rec : Type}.

Class SizerLaws (sz : Sizer Resource Scope Rec) : Prop := {
  law_data : forall d, DataSize sz d = sumZ (fun r => DeltaSize sz (ResourceSize sz r)) d;
  law_resource : forall res url scopes depr,
    ResourceSize sz (mkResource res url scopes depr) =
    ResourceSize sz (mkResource res url [] depr) + sumZ (fun s => DeltaSize sz (ScopeSize sz s)) scopes;
  law_deprecated : forall res url depr,
    0 <= ResourceSize sz (mkResource res url [] []) <= ResourceSize sz (mkResource res url [] depr);
  law_scope : forall sc url recs,
    ScopeSize sz (mkScope sc url recs) =
    ScopeSize sz (mkScope sc url []) + sumZ (fun r => DeltaSize sz (RecordSize sz r)) recs;
  law_scope_nonneg : forall sc url, 0 <= ScopeSize sz (mkScope sc url []);
  law_record : forall r, 0 <= RecordSize sz r;
  law_record_pos : forall r, 1 <= DeltaSize sz (RecordSize sz r);
  law_delta_ge : forall x, x <= DeltaSize sz x;
  law_delta_mono : forall x y, 0 <= x <= y -> y < 2 ^ 63 -> y - x <= DeltaSize sz y - DeltaSize sz x;
  law_delta_fit : forall x c, 0 <= x -> c < 2 ^ 63 ->
    x <= c - (DeltaSize sz c - c) -> DeltaSize sz x <= c;
}.

#[export] Instance CountSizer_laws : SizerLaws CountSizer.
Proof.
  split; simpl; intros; try lia; try done.
  - rewrite sumZ_const. lia.
Qed.

Context (resourceProto : Resource -> Z) (scopeProto : Scope -> Z) (recordProto : Rec -> Z).
Hypothesis resourceProto_nonneg : forall r, 0 <= resourceProto r.
Hypothesis scopeProto_nonneg : forall s, 0 <= scopeProto s.
Hypothesis recordProto_nonneg : forall r, 0 <= recordProto r.

Lemma lenField_nonneg l : 0 <= l -> 0 <= lenField l.
Proof. intros. rewrite lenField_delta. pose proof (protoDeltaSize_ge l). lia. Qed.

Lemma urlField_nonneg (u : string) :
  0 <= (let l := Z.of_nat (String.length u) in if 0 <? l then lenField l else 0).
Proof. simpl. destruct (_ <? _) eqn:E; [|lia]. zbool. apply lenField_nonneg. lia. Qed.

Lemma scopeSizeProto_nonneg (s : ScopeData Scope Rec) : 0 <= scopeSizeProto scopeProto recordProto s.
Proof.
  unfold scopeSizeProto. pose proof (urlField_nonneg (sc_schemaUrl s)). simpl in *.
  pose proof (lenField_nonneg _ (scopeProto_nonneg (sc_scope s))).
  assert (0 <= sumZ (fun r => lenField (recordProto r)) (sc_records s)); [|lia].
  apply sumZ_nonneg. intros r _. by apply lenField_nonneg.
Qed.

Lemma BytesSizer_laws : SizerLaws (BytesSizer resourceProto scopeProto recordProto).
Proof.
  split; simpl; intros.
  - unfold dataSizeProto. apply sumZ_ext. intros r _. apply lenField_delta.
  - unfold resourceSizeProto; simpl.
    rewrite (sumZ_ext (fun s => protoDeltaSize _) (fun s => lenField (scopeSizeProto scopeProto recordProto s)))
      by (intros; by rewrite lenField_delta). lia.
  - unfold resourceSizeProto; simpl. pose proof (urlField_nonneg url). simpl in *.
    pose proof (lenField_nonneg _ (resourceProto_nonneg res)).
    assert (0 <= sumZ (fun s => 2 + sov (u64 (scopeSizeProto scopeProto recordProto s)) +
                          scopeSizeProto scopeProto recordProto s) depr); [|lia].
    apply sumZ_nonneg. intros s _. pose proof (scopeSizeProto_nonneg s).
    pose proof (u64_range (scopeSizeProto scopeProto recordProto s)) as [? _].
    pose proof (sov_pos (u64 (scopeSizeProto scopeProto recordProto s))). lia.
  - unfold scopeSizeProto; simpl.
    rewrite (sumZ_ext (fun r => protoDeltaSize _) (fun r => lenField (recordProto r)))
      by (intros; by rewrite lenField_delta). lia.
  - apply scopeSizeProto_nonneg.
  - done.
  - pose proof (protoDeltaSize_ge (recordProto r)). pose proof (recordProto_nonneg r). lia.
  - pose proof (protoDeltaSize_ge x). lia.
  - by apply protoDeltaSize_mono.
  - by apply protoDeltaSize_fit.
Qed.
End Laws.

(** ** Extraction keeps every record it does not drop, and its sizes are exact *)
Section ExtractProofs.
Context {Resource Scope Rec : Type} (sz : Sizer Resource Scope Rec) `{!SizerLaws sz}.

Local Abbreviation δ := (DeltaSize sz).

(** The largest size a record may have below these headers, as the code
    computes it. *)
Definition maxRecord (maxScopeSize : Z) (sc : Scope) (url : string) : Z :=
  maxScopeSize - (δ maxScopeSize - maxScopeSize) - ScopeSize sz (mkScope sc url []).
Definition maxScope (maxSize : Z) (res : Resource) (url : string) : Z :=
  maxSize - (δ maxSize - maxSize) - ResourceSize sz (mkResource res url [] []).

(** The records of a structure, each with the headers above it. *)
Definition scopeRows (s : ScopeData Scope Rec) : list (Scope * string * Rec) :=
  map (fun r => (sc_scope s, sc_schemaUrl s, r)) (sc_records s).
Definition resourceRows (r : ResourceData Resource Scope Rec)
    : list (Resource * string * (Scope * string * Rec)) :=
  map (fun t => (rs_resource r, rs_schemaUrl r, t)) (flat_map scopeRows (rs_scopes r)).
Definition dataRows (d : Data Resource Scope Rec) := flat_map resourceRows d.

(** A record too large for an otherwise empty batch of [maxSize]. *)
Definition oversizedRec (maxRecordSize : Z) (r : Rec) : Prop := maxRecordSize < δ (RecordSize sz r).
Definition oversizedScope (maxScopeSize : Z) (t : Scope * string * Rec) : Prop :=
  oversizedRec (maxRecord maxScopeSize t.1.1 t.1.2) t.2.
Definition oversized (maxSize : Z) (t : Resource * string * (Scope * string * Rec)) : Prop :=
  oversizedScope (maxScope maxSize t.1.1 t.1.2) t.2.

Lemma delta_nonneg x : 0 <= x -> 0 <= δ x.
Proof. intros. pose proof (law_delta_ge x). lia. Qed.

Lemma ScopeSize_nonneg s : 0 <= ScopeSize sz s.
Proof.
  destruct s as [sc url recs]. rewrite law_scope. pose proof (law_scope_nonneg sc url).
  assert (0 <= sumZ (fun r => δ (RecordSize sz r)) recs); [|lia].
  apply sumZ_nonneg. intros r _. apply delta_nonneg, law_record.
Qed.

Lemma scopes_nonneg l : 0 <= sumZ (fun s => δ (ScopeSize sz s)) l.
Proof. apply sumZ_nonneg. intros s _. apply delta_nonneg, ScopeSize_nonneg. Qed.

Lemma ResourceSize_nonneg r : 0 <= ResourceSize sz r.
Proof.
  destruct r as [res url scopes depr]. rewrite law_resource.
  pose proof (law_deprecated res url depr). pose proof (scopes_nonneg scopes). lia.
Qed.

Lemma DataSize_nonneg d : 0 <= DataSize sz d.
Proof.
  rewrite law_data. apply sumZ_nonneg. intros r _. apply delta_nonneg, ResourceSize_nonneg.
Qed.

(** A record adds at least one to every size above it. *)
Lemma ScopeSize_rows s : Z.of_nat (length (scopeRows s)) <= ScopeSize sz s.
Proof.
  destruct s as [sc url recs]. rewrite law_scope. pose proof (law_scope_nonneg sc url).
  unfold scopeRows; rewrite length_map; simpl.
  pose proof (sumZ_mono (fun _ => 1) (fun r => δ (RecordSize sz r)) recs
    ltac:(intros; apply law_record_pos)) as Hm.
  rewrite sumZ_const in Hm. lia.
Qed.

Lemma ResourceSize_rows r : Z.of_nat (length (resourceRows r)) <= ResourceSize sz r.
Proof.
  destruct r as [res url scopes depr]. rewrite law_resource.
  pose proof (law_deprecated res url depr). unfold resourceRows; rewrite length_map; simpl.
  assert (Z.of_nat (length (flat_map scopeRows scopes)) <= sumZ (fun s => δ (ScopeSize sz s)) scopes);
    [|lia].
  induction scopes as [|s scopes IH]; [done|]. simpl. rewrite length_app.
  pose proof (ScopeSize_rows s). pose proof (law_delta_ge (ScopeSize sz s)). lia.
Qed.

Lemma delta_rows x n : n <= x -> n <= δ x.
Proof. pose proof (law_delta_ge x). lia. Qed.

Lemma scopeStep_ok m :
  step_ok (fun r => δ (RecordSize sz r)) (fun r => [r]) (oversizedRec m) (fun _ => True) (2 ^ 63 - 1)
    (scopeStep sz m).
Proof.
  intros c r d x _ _. unfold scopeStep.
  destruct (Z.eqb_spec c 0) as [->|Hc]; [eexists _, _, _, _, _; split; [done|]; naive_solver|].
  destruct (Z.ltb_spec m (δ (RecordSize sz x))) as [Hm|Hm].
  { eexists _, _, _, _, _; split; [done|]. right; right; left.
    repeat split; try done. by constructor. }
  destruct (Z.ltb_spec c (δ (RecordSize sz x))) as [Hl|Hl].
  - eexists _, _, _, _, _; split; [done|]. right; right; right. split; [done|]. split; [done|].
    exists [], [x]. rewrite app_nil_r. unfold nrows. simpl.
    split_and!; try done; try lia; [apply (kept_of_refl _ [x])|by left|by constructor].
  - eexists _, _, _, _, _; split; [done|]. right; left. repeat split; try done; lia.
Qed.

Lemma extractScope_ok s c m dest rem s' :
  c < 2 ^ 63 ->
  extractScope sz s c m = (dest, rem, s') ->
  kept_of (oversizedScope m) (scopeRows dest ++ scopeRows s') (scopeRows s) /\
  ScopeSize sz s' = ScopeSize sz s - rem /\
  Z.of_nat (length (scopeRows s)) - Z.of_nat (length (scopeRows s')) <= rem /\
  (sc_records dest = [] \/ δ (ScopeSize sz dest) <= c).
Proof.
  intros Hc. unfold extractScope. set (h := ScopeSize sz _).
  destruct (level_ok (fun r => δ (RecordSize sz r)) (fun r => [r]) _ _ (2 ^ 63 - 1) ltac:(lia) _
    (sc_records s) (c - (δ c - c) - h) 0 [] (scopeStep_ok (m - (δ m - m) - h)))
    as (c' & r' & m1 & kept & -> & Hk & Hr & Hfit & _ & Hle & _).
  { by apply Forall_true. }
  { apply Forall_true. intros. apply law_record_pos. }
  { pose proof (law_delta_ge c). pose proof (ScopeSize_nonneg (mkScope (sc_scope s) (sc_schemaUrl s) [])). lia. }
  intros [= <- <- <-]. simpl.
  assert (Hall : forall l : list Rec, allRows (fun r => [r]) l = l).
  { intros l. induction l as [|x l IH]; [done|]. by rewrite <- IH at 2. }
  rewrite !Hall in Hk. split_and!.
  - unfold scopeRows; simpl. rewrite <- map_app.
    eapply kept_of_map; [|exact Hk]. intros x Hx. exact Hx.
  - destruct s as [sc url recs]; simpl in *. rewrite (law_scope _ _ kept), (law_scope _ _ recs). lia.
  - unfold nrows in Hle. rewrite !Hall in Hle. unfold scopeRows; simpl. rewrite !length_map. lia.
  - destruct Hfit as [->|Hfit]; [by left|right]. apply law_delta_fit; [apply ScopeSize_nonneg|done|].
    rewrite law_scope. subst h. lia.
Qed.

Lemma scopeRows_nil s : sc_records s = [] -> scopeRows s = [].
Proof. unfold scopeRows. by intros ->. Qed.

Lemma resourceStep_ok m :
  step_ok (fun s => δ (ScopeSize sz s)) scopeRows (oversizedScope m)
    (fun s => ScopeSize sz s < 2 ^ 63) (2 ^ 63 - 1) (resourceStep sz m).
Proof.
  apply (level_step_ok _ law_delta_ge law_delta_mono _ _ _ (fun s => length (sc_records s)) (fun s c => extractScope sz s c m)).
  - apply ScopeSize_rows.
  - intros s Hs. by apply scopeRows_nil, length_zero_iff_nil.
  - intros s c dest rem s' Hc _ He. apply extractScope_ok in He as (? & ? & ? & Hf); [|done].
    rewrite length_zero_iff_nil. naive_solver.
  - done.
Qed.

Lemma extractResource_ok r c m dest rem r' :
  c < 2 ^ 63 -> ResourceSize sz r < 2 ^ 63 ->
  extractResource sz r c m = (dest, rem, r') ->
  kept_of (oversized m) (resourceRows dest ++ resourceRows r') (resourceRows r) /\
  ResourceSize sz r' = ResourceSize sz r - rem /\
  Z.of_nat (length (resourceRows r)) - Z.of_nat (length (resourceRows r')) <= rem /\
  (rs_scopes dest = [] \/ δ (ResourceSize sz dest) <= c).
Proof.
  intros Hc Hr0. destruct r as [res url scopes depr].
  unfold extractResource; simpl. set (h := ResourceSize sz _).
  rewrite law_resource in Hr0. pose proof (law_deprecated res url depr) as Hdep.
  destruct (level_ok (fun s => δ (ScopeSize sz s)) scopeRows _ _ (2 ^ 63 - 1) ltac:(lia) _
    scopes (c - (δ c - c) - h) 0 [] (resourceStep_ok (m - (δ m - m) - h)))
    as (c' & rem' & m1 & kept & -> & Hk & Hr & Hfit & _ & Hle & _).
  { apply Forall_forall. intros s Hs. pose proof (law_delta_ge (ScopeSize sz s)).
    pose proof (sumZ_le_elem (fun s => δ (ScopeSize sz s)) scopes s
      ltac:(intros; apply delta_nonneg, ScopeSize_nonneg) Hs). simpl in *. lia. }
  { apply Forall_true. intros. apply delta_rows, ScopeSize_rows. }
  { pose proof (law_delta_ge c). lia. }
  intros [= <- <- <-]. simpl. split_and!.
  - unfold resourceRows; simpl. rewrite <- map_app, <- flat_map_app.
    eapply kept_of_map; [|exact Hk]. intros x Hx. exact Hx.
  - rewrite (law_resource _ _ kept), (law_resource _ _ scopes). lia.
  - unfold nrows, allRows in Hle. unfold resourceRows; simpl. rewrite !length_map. lia.
  - destruct Hfit as [->|Hfit]; [by left|right].
    apply law_delta_fit; [apply ResourceSize_nonneg|done|].
    rewrite law_resource. subst h. lia.
Qed.

Lemma resourceRows_nil r : rs_scopes r = [] -> resourceRows r = [].
Proof. unfold resourceRows. by intros ->. Qed.

Lemma dataStep_ok m :
  step_ok (fun r => δ (ResourceSize sz r)) resourceRows (oversized m)
    (fun r => ResourceSize sz r < 2 ^ 63) (2 ^ 63 - 1) (dataStep sz m).
Proof.
  apply (level_step_ok _ law_delta_ge law_delta_mono _ _ _ (fun r => length (rs_scopes r)) (fun r c => extractResource sz r c m)).
  - apply ResourceSize_rows.
  - intros r Hr. by apply resourceRows_nil, length_zero_iff_nil.
  - intros r c dest rem r' Hc Hr He. apply extractResource_ok in He as (? & ? & ? & Hf); [|done..].
    rewrite length_zero_iff_nil. naive_solver.
  - done.
Qed.

(** The destination and what is left in the source hold the records of the
    input in order, minus oversized ones; the removed size is exact; the
    destination fits the capacity. *)
Lemma extractData_ok d cap dest rem d' :
  0 <= cap < 2 ^ 63 -> DataSize sz d < 2 ^ 63 ->
  extractData sz d cap = (dest, rem, d') ->
  kept_of (oversized cap) (dataRows dest ++ dataRows d') (dataRows d) /\
  DataSize sz d' = DataSize sz d - rem /\
  Z.of_nat (length (dataRows d)) - Z.of_nat (length (dataRows d')) <= rem /\ DataSize sz dest <= cap.
Proof.
  intros Hc Hd. unfold extractData.
  assert (H0 : DataSize sz [] = 0) by by rewrite law_data. rewrite H0, Z.sub_0_r.
  rewrite law_data in Hd.
  destruct (level_ok (fun r => δ (ResourceSize sz r)) resourceRows _ _ (2 ^ 63 - 1) ltac:(lia) _
    d cap 0 [] (dataStep_ok cap)) as (c' & r' & m1 & kept & -> & Hk & Hr & Hfit & _ & Hle & _).
  { apply Forall_forall. intros s Hs. pose proof (law_delta_ge (ResourceSize sz s)).
    pose proof (sumZ_le_elem (fun s => δ (ResourceSize sz s)) d s
      ltac:(intros; apply delta_nonneg, ResourceSize_nonneg) Hs). simpl in *. lia. }
  { apply Forall_true. intros. apply delta_rows, ResourceSize_rows. }
  { lia. }
  intros [= <- <- <-]. simpl. split_and!.
  - unfold dataRows. by rewrite <- flat_map_app.
  - rewrite !law_data. lia.
  - unfold nrows, allRows in Hle. unfold dataRows. lia.
  - rewrite law_data. destruct Hfit as [->|Hfit]; simpl; lia.
Qed.
End ExtractProofs.

(** ** Splitting a request *)
Section SplitProofs.
Context {Resource Scope Rec : Type}.
Context (resourceProto : Resource -> Z) (scopeProto : Scope -> Z) (recordProto : Rec -> Z).

Local Abbreviation data := (Data Resource Scope Rec).
Local Abbreviation req := (request Resource Scope Rec).
Local Abbreviation bytesOf := (dataSizeProto resourceProto scopeProto recordProto).

(** The cached sizes of a request are those of its data. *)
Definition request_ok (r : req) : Prop :=
  cache_ok (rq_sizes r) (recordCount (rq_data r)) (bytesOf (rq_data r)).

(** The sizer [MergeSplit] selects for a sizer type. *)
Inductive sizer_for : SizerType -> Sizer Resource Scope Rec -> Prop :=
  | sizer_items : sizer_for SizerTypeItems CountSizer
  | sizer_bytes : sizer_for SizerTypeBytes (BytesSizer resourceProto scopeProto recordProto).

Lemma sizer_for_dim szt sz (d : data) :
  sizer_for szt sz -> DataSize sz d = dim szt (recordCount d) (bytesOf d).
Proof. by destruct 1. Qed.

Lemma sizer_for_cases szt sz :
  sizer_for szt sz -> szt = SizerTypeItems \/ szt = SizerTypeBytes.
Proof. destruct 1; auto. Qed.

Lemma recordCount_rows (d : data) : recordCount d = Z.of_nat (length (dataRows d)).
Proof.
  induction d as [|[res url scopes depr] d IH]; [done|]. simpl in *.
  unfold recordCount in *; simpl. rewrite IH, length_app. unfold resourceRows; simpl.
  rewrite length_map. rewrite Nat2Z.inj_add. f_equal.
  induction scopes as [|s scopes IHs]; [done|]. simpl. rewrite IHs, length_app, Nat2Z.inj_add.
  unfold scopeRows. by rewrite length_map.
Qed.

Section WithSizer.
Context (szt : SizerType) (sz : Sizer Resource Scope Rec) `{!SizerLaws sz}.
Hypothesis Hsz : sizer_for szt sz.

Lemma newRequest_ok d : request_ok (newRequest d).
Proof. apply NewSizeCache_ok. Qed.

(** [size] returns the size of the data, and keeps returning it after the data
    has changed, until the cache is updated. *)
Lemma size_ok (r : req) :
  request_ok r -> exists r', size sz szt r = (DataSize sz (rq_data r), r') /\
    rq_data r' = rq_data r /\ request_ok r' /\
    forall d, exists r'', size sz szt (mkRequest d (rq_sizes r')) = (DataSize sz (rq_data r), r'') /\
      rq_data r'' = d.
Proof.
  intros Hr. unfold size.
  pose proof (SizeOf_ok (rq_sizes r) szt _ _ Hr) as [H1 H2].
  rewrite <- (sizer_for_dim szt sz (rq_data r) Hsz) in H1, H2.
  destruct (SizeOf (rq_sizes r) szt (DataSize sz (rq_data r))) as [n c] eqn:E. simpl in *. subst n.
  eexists. split; [done|]. split; [done|]. split; [done|]. intros d. simpl.
  pose proof (SizeOf_cached (rq_sizes r) szt (DataSize sz (rq_data r)) (DataSize sz d)
    (sizer_for_cases _ _ Hsz)) as H3.
  rewrite E in H3. simpl in H3.
  destruct (SizeOf c szt (DataSize sz d)) as [n' c'] eqn:E'. simpl in H3. rewrite H3.
  - by eexists.
  - pose proof (DataSize_nonneg sz (rq_data r)). unfold uncachedSize. lia.
Qed.

Lemma mergeTo_ok (r1 r2 : req) :
  request_ok r1 -> request_ok r2 ->
  request_ok (mergeTo sz szt r2 r1) /\ rq_data (mergeTo sz szt r2 r1) = rq_data r1 ++ rq_data r2.
Proof.
  intros H1 H2. unfold mergeTo.
  destruct (size_ok r1 H1) as (r1' & -> & Hd1 & _ & _).
  destruct (size_ok r2 H2) as (r2' & -> & Hd2 & _ & _). simpl. rewrite Hd1, Hd2. split; [|done].
  unfold request_ok; simpl. rewrite !(sizer_for_dim szt sz _ Hsz).
  replace (_ + _) with (dim szt (recordCount (rq_data r1 ++ rq_data r2)) (bytesOf (rq_data r1 ++ rq_data r2))).
  - apply Update_ok.
  - rewrite <- !(sizer_for_dim szt sz _ Hsz), !law_data. apply sumZ_app.
Qed.

Context (fmt : string) (maxSize : Z).
Hypothesis HmaxSize : 0 <= maxSize < 2 ^ 63.

Definition outRows (out : list req) := flat_map (fun r => dataRows (rq_data r)) out.

(** A request [split] may return: its cache is right, it fits, it is not empty. *)
Definition good (r : req) : Prop :=
  request_ok r /\ DataSize sz (rq_data r) <= maxSize /\ 0 < recordCount (rq_data r).

(** How an outcome accounts for the [lost] records that are not in it. *)
Definition accounts (lost : Z) (nothingLeft : Prop) (err : option error) : Prop :=
  (err = None /\ lost = 0 /\ nothingLeft) \/
  (err = Some (errDropped fmt lost) /\ 0 < lost /\ nothingLeft) \/
  err = Some (errCannotSplit lost).

Lemma recordCount_nil (d : data) : ~ 0 < recordCount d -> dataRows d = [].
Proof.
  rewrite recordCount_rows. intros H. apply length_zero_iff_nil. lia.
Qed.

(** What one round of the loop leaves and takes. *)
Lemma extract_round (d : data) ld rem src :
  DataSize sz d < 2 ^ 63 -> extractData sz d maxSize = (ld, rem, src) ->
  kept_of (oversized sz maxSize) (dataRows ld ++ dataRows src) (dataRows d) /\
  DataSize sz src = DataSize sz d - rem /\ DataSize sz ld <= maxSize /\
  0 <= rem /\ 0 <= recordCount d - recordCount src - recordCount ld /\
  (rem = 0 -> dataRows ld = [] /\ recordCount src = recordCount d).
Proof.
  intros Hb Ee. apply extractData_ok in Ee as (Hk & Hrem & Hrows & Hld); [|done..].
  pose proof (kept_of_length _ _ _ Hk) as Hlen. rewrite length_app in Hlen.
  rewrite !recordCount_rows. split_and!; try done; try lia.
  intros ->. split; [apply length_zero_iff_nil|]; lia.
Qed.

Definition appendNonEmpty (r : req) : list req := if 0 <? recordCount (rq_data r) then [r] else [].

Lemma appendNonEmpty_rows (r : req) : outRows (appendNonEmpty r) = dataRows (rq_data r).
Proof.
  unfold appendNonEmpty. destruct (Z.ltb_spec 0 (recordCount (rq_data r))); simpl.
  - by rewrite app_nil_r.
  - rewrite recordCount_nil; [done|lia].
Qed.

Lemma appendNonEmpty_good (r : req) :
  request_ok r -> DataSize sz (rq_data r) <= maxSize -> Forall good (appendNonEmpty r).
Proof.
  intros. unfold appendNonEmpty. destruct (Z.ltb_spec 0 (recordCount (rq_data r))); [|apply Forall_nil_2].
  apply Forall_singleton. done.
Qed.

Lemma appendNonEmpty_eq res (r : req) :
  (if 0 <? recordCount (rq_data r) then res ++ [r] else res) = res ++ appendNonEmpty r.
Proof. unfold appendNonEmpty. destruct (_ <? _); [done|by rewrite app_nil_r]. Qed.

(** The loop ends within the fuel, and accounts for every record. *)
Lemma splitLoop_ok fuel (r : req) res dropped :
  request_ok r -> DataSize sz (rq_data r) < 2 ^ 63 -> 0 <= dropped ->
  (Z.to_nat (DataSize sz (rq_data r)) < fuel)%nat ->
  exists outs rest err left, splitLoop sz szt fmt maxSize fuel r res dropped = Some (res ++ outs, err, left) /\
    Forall good outs /\
    kept_of (oversized sz maxSize) (outRows outs ++ rest) (dataRows (rq_data r)) /\
    accounts (dropped + (recordCount (rq_data r) - Z.of_nat (length (outRows outs)))) (rest = []) err.
Proof.
  revert r res dropped. induction fuel as [|fuel IH]; intros r res dropped Hr Hb Hdr Hf; [lia|].
  simpl. destruct (size_ok r Hr) as (r' & -> & Hd' & Hr' & Hcached). rewrite Hd'.
  destruct (Z.ltb_spec maxSize (DataSize sz (rq_data r))) as [Hbig|Hsmall].
  - destruct (extractData sz (rq_data r) maxSize) as [[ld rem] src] eqn:Ee.
    apply extract_round in Ee as (Hk & Hsrc & Hld & Hrem & Hlost & H0); [|done]. simpl.
    destruct (Z.eqb_spec rem 0) as [->|Hrem1].
    { destruct H0 as [Hnil Hcnt]; [done|]. rewrite Hnil in Hk.
      eexists [], (dataRows src), _, _. rewrite app_nil_r. split_and!; try done.
      right; right. simpl. rewrite Hcnt. do 2 f_equal. lia. }
    destruct (Hcached src) as (r'' & -> & Hr''). simpl. rewrite Hr''.
    pose proof (appendNonEmpty_eq res (newRequest ld)) as Ea; simpl in Ea; rewrite Ea; clear Ea.
    destruct (IH (mkRequest src (Update (rq_sizes r'') szt (DataSize sz (rq_data r) - rem)))
      (res ++ appendNonEmpty (newRequest ld))
      (dropped + (recordCount (rq_data r) - recordCount src - recordCount ld)))
      as (outs & rest & err & left & E & Hg & Hkr & Hacc); simpl; try lia.
    { unfold request_ok; simpl. rewrite <- Hsrc, (sizer_for_dim szt sz _ Hsz). apply Update_ok. }
    unfold set_sizes; rewrite Hr''. rewrite E.
    eexists (appendNonEmpty (newRequest ld) ++ outs), rest, err, left. simpl in *.
    rewrite app_assoc. unfold outRows. rewrite flat_map_app. fold (outRows outs).
    change (flat_map _ (appendNonEmpty _)) with (outRows (appendNonEmpty (newRequest ld))).
    rewrite appendNonEmpty_rows; simpl. split_and!; [done|..].
    + apply Forall_app. split; [|done]. by apply appendNonEmpty_good; [apply newRequest_ok|].
    + eapply kept_of_trans; [|exact Hk]. rewrite <- app_assoc. by apply kept_of_app; [apply kept_of_refl|].
    + rewrite length_app. replace (dropped + _) with
        (dropped + (recordCount (rq_data r) - recordCount src - recordCount ld) +
         (recordCount src - Z.of_nat (length (outRows outs)))); [done|].
      rewrite (recordCount_rows ld). lia.
  - replace (recordCount (rq_data r)) with (recordCount (rq_data r')) by by rewrite Hd'.
    rewrite appendNonEmpty_eq. eexists _, [], _, _. split; [done|].
    rewrite appendNonEmpty_rows, app_nil_r, <- recordCount_rows, Hd'. split_and!.
    + apply appendNonEmpty_good; [done|by rewrite Hd'].
    + apply kept_of_refl.
    + replace (dropped + _) with dropped by lia. unfold accounts.
      destruct (Z.ltb_spec 0 dropped); [naive_solver lia|left; split_and!; try done; lia].
Qed.

(** [split] itself: the request is returned as it is when it fits. *)
Lemma split_ok (r : req) :
  request_ok r -> DataSize sz (rq_data r) < 2 ^ 63 ->
  exists outs rest err left, split sz szt fmt maxSize r = Some (outs, err, left) /\
    (Forall good outs \/ exists r', outs = [r'] /\ request_ok r' /\ rq_data r' = rq_data r /\
       DataSize sz (rq_data r) <= maxSize) /\
    kept_of (oversized sz maxSize) (outRows outs ++ rest) (dataRows (rq_data r)) /\
    accounts (recordCount (rq_data r) - Z.of_nat (length (outRows outs))) (rest = []) err.
Proof.
  intros Hr Hb. unfold split. destruct (size_ok r Hr) as (r' & -> & Hd' & Hr' & _).
  destruct (Z.leb_spec (DataSize sz (rq_data r)) maxSize) as [Hle|Hgt].
  - exists [r'], [], None, r'. rewrite app_nil_r. simpl. rewrite app_nil_r, Hd', recordCount_rows.
    split_and!; [done|right; eauto 10|apply kept_of_refl|]. left. split_and!; try done; lia.
  - destruct (splitLoop_ok (S (Z.to_nat (DataSize sz (rq_data r)))) r' [] 0)
      as (outs & rest & err & lft & -> & Hg & Hk & Ha); rewrite ?Hd' in *; try done; [lia|].
    exists outs, rest, err, lft. split_and!; try done. by left.
Qed.
End WithSizer.
End SplitProofs.
