(* ===== verification/SplitProps.v ===== *)
(** * What merging and splitting log and span requests guarantees

    The theorems on [MergeSplit] of logs_batch.go and traces_batch.go, over the
    model and the lemmas of [SignalSplit]: every record is in exactly one
    output, in order, or is counted in the error; every output fits the limit;
    with the items sizer the outputs are exact chunks of the input. *)

From S2P Require Import Prelude Errors Sizers SignalSplit.
Local Open Scope Z_scope.

Section Accounting.
Context {Resource Scope Rec : Type}.
Context (resourceProto : Resource -> Z) (scopeProto : Scope -> Z) (recordProto : Rec -> Z).

Local Abbreviation req := (request Resource Scope Rec).
Local Abbreviation ok := (request_ok resourceProto scopeProto recordProto).
Local Abbreviation sizerFor := (sizer_for resourceProto scopeProto recordProto).
Local Abbreviation run := (MergeSplit resourceProto scopeProto recordProto).

(** The records that go in. *)
Definition inRows (r1 : req) (r2 : option req) :=
  dataRows (rq_data r1) ++ from_option (fun r => dataRows (rq_data r)) [] r2.
Definition inSize (sz : Sizer Resource Scope Rec) (r1 : req) (r2 : option req) : Z :=
  DataSize sz (rq_data r1) + from_option (fun r => DataSize sz (rq_data r)) 0 r2.

(** [MergeSplit] is [split] of the merged request. *)
Lemma MergeSplit_split fmt (r1 : req) r2 maxSize szt sz `{!SizerLaws sz} :
  sizerFor szt sz -> ok r1 -> from_option ok True r2 -> maxSize <> 0 ->
  exists r, run fmt r1 maxSize szt (Some <$> r2) = split sz szt fmt maxSize r /\
    ok r /\ dataRows (rq_data r) = inRows r1 r2 /\ DataSize sz (rq_data r) = inSize sz r1 r2 /\
    rq_data r = rq_data r1 ++ from_option rq_data [] r2.
Proof.
  intros Hsz H1 H2 Hm.
  assert (Hrun : run fmt r1 maxSize szt (Some <$> r2) =
    split sz szt fmt maxSize (from_option (fun r2 => mergeTo sz szt r2 r1) r1 r2)).
  { unfold run. destruct Hsz; destruct r2; simpl; by rewrite (proj2 (Z.eqb_neq _ _) Hm). }
  eexists. split; [exact Hrun|]. unfold inRows, inSize. destruct r2 as [r2|]; simpl in *.
  - destruct (mergeTo_ok resourceProto scopeProto recordProto szt sz Hsz r1 r2 H1 H2) as [Hok ->].
    split; [done|]. split; [apply flat_map_app|]. split; [|done]. rewrite !law_data. apply sumZ_app.
  - by rewrite !app_nil_r, Z.add_0_r.
Qed.

Hypothesis resourceProto_nonneg : forall r, 0 <= resourceProto r.
Hypothesis scopeProto_nonneg : forall s, 0 <= scopeProto s.
Hypothesis recordProto_nonneg : forall r, 0 <= recordProto r.

Lemma sizer_for_laws szt sz : sizerFor szt sz -> SizerLaws sz.
Proof. destruct 1; [apply CountSizer_laws|by apply BytesSizer_laws]. Qed.

(** C1: [MergeSplit] of log and span requests terminates, and with a limit every
    output has a right size cache and fits the limit; the outputs hold the input
    records in order, without the records too large for any batch and, when the
    split stops early, without the rest; the error is nil exactly when nothing is
    lost, and otherwise carries the number of lost records. *)
Theorem MergeSplit_accounts fmt (r1 : req) r2 maxSize szt sz :
  sizerFor szt sz -> ok r1 -> from_option ok True r2 ->
  0 < maxSize < 2 ^ 63 -> inSize sz r1 r2 < 2 ^ 63 ->
  exists out rest err left, run fmt r1 maxSize szt (Some <$> r2) = Some (out, err, left) /\
    Forall (fun r => ok r /\ DataSize sz (rq_data r) <= maxSize) out /\
    kept_of (oversized sz maxSize) (outRows out ++ rest) (inRows r1 r2) /\
    accounts fmt (Z.of_nat (length (inRows r1 r2)) - Z.of_nat (length (outRows out))) (rest = []) err.
Proof.
  intros Hsz H1 H2 Hm Hb. pose proof (sizer_for_laws _ _ Hsz) as Hlaws.
  destruct (MergeSplit_split fmt r1 r2 maxSize szt sz) as (r & -> & Hr & <- & Hs & _); try done; [lia|].
  destruct (split_ok resourceProto scopeProto recordProto szt sz Hsz fmt maxSize ltac:(lia) r Hr)
    as (outs & rest & err & lft & -> & Hg & Hk & Ha); [lia|].
  exists outs, rest, err, lft. rewrite <- recordCount_rows. split_and!; try done.
  destruct Hg as [Hg|(r' & -> & Hr' & Hd' & Hle)].
  - eapply Forall_impl; [exact Hg|]. intros x (? & ? & _). done.
  - apply Forall_singleton. by rewrite Hd'.
Qed.
End Accounting.

(** ** The items sizer: exact chunks, nothing lost *)
Section Items.
Context {Resource Scope Rec : Type}.
Context (resourceProto : Resource -> Z) (scopeProto : Scope -> Z) (recordProto : Rec -> Z).

Local Abbreviation req := (request Resource Scope Rec).
Local Abbreviation data := (Data Resource Scope Rec).
Local Abbreviation count := (@CountSizer Resource Scope Rec).

(** A closure that takes as much of an element as the room left allows takes as
    much of the whole slice. *)
Lemma level_count {E} (size : E -> Z) step (l : list E) c r (d : list E) :
  (forall c r d x, 0 <= c < 2 ^ 63 -> size x < 2 ^ 63 -> exists d' x' rm,
     step (c, r, d) x = ((c - Z.min c (size x), r + Z.min c (size x), d'), x', rm)) ->
  Forall (fun x => 0 <= size x < 2 ^ 63) l -> 0 <= c < 2 ^ 63 ->
  exists c' d' l', removeIf step (c, r, d) l = ((c', r + Z.min c (sumZ size l), d'), l').
Proof.
  intros Hstep Hl. revert c r d. induction Hl as [|x l Hx Hl IH]; intros c r d Hc; simpl.
  - eexists _, _, _. rewrite Z.min_r, Z.add_0_r; [done|lia].
  - destruct (Hstep c r d x) as (d' & x' & rm & ->); [lia..|].
    destruct (IH (c - Z.min c (size x)) (r + Z.min c (size x)) d') as (c2 & d2 & l2 & ->); [lia|].
    assert (0 <= sumZ size l).
    { apply sumZ_nonneg. intros y Hy. by eapply Forall_forall in Hl as [??]. }
    replace (r + Z.min c (size x + sumZ size l))
      with (r + Z.min c (size x) + Z.min (c - Z.min c (size x)) (sumZ size l)) by lia.
    by eexists _, _, _.
Qed.

Lemma elem_bound {E} (size : E -> Z) l :
  (forall x, 0 <= size x) -> sumZ size l < 2 ^ 63 -> Forall (fun x => 0 <= size x < 2 ^ 63) l.
Proof.
  intros Hnn Hs. apply Forall_forall. intros x Hx.
  pose proof (sumZ_le_elem size l x ltac:(auto) Hx). specialize (Hnn x). lia.
Qed.

Lemma sub_sub_cancel x y : x - (x - y) = y.
Proof. lia. Qed.

Lemma extractScope_count (s : ScopeData Scope Rec) c m dest rem s' :
  0 <= c < 2 ^ 63 -> 1 <= m -> extractScope count s c m = (dest, rem, s') ->
  rem = Z.min c (ScopeSize count s).
Proof.
  intros Hc Hm. unfold extractScope; simpl. change (Z.of_nat 0) with 0. rewrite !sub_sub_cancel, !Z.sub_0_r.
  destruct (level_count (fun _ : Rec => 1) (scopeStep count m) (sc_records s)
    c 0 []) as (c' & d' & l' & ->).
  - intros c0 r d x Hc0 _. unfold scopeStep; simpl.
    destruct (Z.eqb_spec c0 0) as [->|?]; [by eexists _, _, _; rewrite !Z.add_0_r|].
    destruct (Z.ltb_spec m 1); [lia|]. destruct (Z.ltb_spec c0 1); [lia|].
    eexists _, _, _. rewrite Z.min_r by lia. done.
  - by apply Forall_true.
  - lia.
  - intros [= <- <- <-]. rewrite sumZ_const. lia.
Qed.

Lemma extractResource_count (r : ResourceData Resource Scope Rec) c m dest rem r' :
  0 <= c < 2 ^ 63 -> 1 <= m -> ResourceSize count r < 2 ^ 63 ->
  extractResource count r c m = (dest, rem, r') -> rem = Z.min c (ResourceSize count r).
Proof.
  intros Hc Hm Hr. unfold extractResource; simpl. rewrite !sub_sub_cancel, !Z.sub_0_r.
  destruct (level_count (ScopeSize count) (resourceStep count m) (rs_scopes r)
    c 0 []) as (c' & d' & l' & ->).
  - intros c0 r0 d x Hc0 Hx. unfold resourceStep.
    destruct (Z.eqb_spec c0 0) as [->|?]; [eexists _, _, _; rewrite Z.min_l, !Z.add_0_r; [done|simpl; lia]|].
    change (DeltaSize count) with (fun n : Z => n). cbv beta.
    destruct (Z.ltb_spec c0 (ScopeSize count x)); [|by eexists _, _, _; rewrite Z.min_r by lia].
    destruct (extractScope count x c0 m) as [[ext k] x'] eqn:Ee.
    pose proof (extractScope_ok count _ _ _ _ _ _ (proj2 Hc0) Ee) as (_ & Hsz & _).
    apply extractScope_count in Ee; [|lia..]. rewrite Z.min_l in * by lia. subst k.
    destruct (Nat.eqb_spec (length (sc_records x')) 0) as [E0|_]; [simpl in *; lia|].
    rewrite Z.sub_diag, sub_sub_cancel. by eexists _, _, _.
  - by apply elem_bound; [apply ScopeSize_nonneg; apply _|].
  - lia.
  - intros [= <- <- <-]. done.
Qed.

Lemma extractData_count (d : data) cap dest rem d' :
  1 <= cap < 2 ^ 63 -> recordCount d < 2 ^ 63 ->
  extractData count d cap = (dest, rem, d') -> rem = Z.min cap (recordCount d).
Proof.
  intros Hc Hd. unfold extractData.
  destruct (level_count (ResourceSize count) (dataStep count cap) d (cap - DataSize count []) 0 [])
    as (c' & d1 & l' & ->).
  - intros c0 r0 d0 x Hc0 Hx. unfold dataStep.
    destruct (Z.eqb_spec c0 0) as [->|?].
    { pose proof (ResourceSize_nonneg count x).
      eexists _, _, _; rewrite Z.min_l, !Z.add_0_r; [done|lia]. }
    change (DeltaSize count) with (fun n : Z => n). cbv beta.
    destruct (Z.ltb_spec c0 (ResourceSize count x)); [|by eexists _, _, _; rewrite Z.min_r by lia].
    destruct (extractResource count x c0 cap) as [[ext k] x'] eqn:Ee.
    pose proof (extractResource_ok count _ _ _ _ _ _ (proj2 Hc0) Hx Ee) as (_ & Hsz & _).
    apply extractResource_count in Ee; [|lia..]. rewrite Z.min_l in * by lia. subst k.
    destruct (Nat.eqb_spec (length (rs_scopes x')) 0) as [E0|_].
    { apply length_zero_iff_nil in E0. simpl in Hsz. rewrite E0 in Hsz. simpl in *. lia. }
    rewrite Z.sub_diag, sub_sub_cancel. by eexists _, _, _.
  - by apply elem_bound; [apply ResourceSize_nonneg; apply _|].
  - change (DataSize count []) with 0. lia.
  - intros [= <- <- <-]. simpl. by rewrite Z.sub_0_r.
Qed.

Lemma oversized_count maxSize t : 1 <= maxSize -> ~ @oversized Resource Scope Rec count maxSize t.
Proof.
  unfold oversized, oversizedScope, oversizedRec, maxRecord, maxScope; simpl.
  change (Z.of_nat 0) with 0. lia.
Qed.

Lemma sublist_length_eq {A} (l1 l2 : list A) :
  l1 `sublist_of` l2 -> length l1 = length l2 -> l1 = l2.
Proof.
  induction 1 as [|x l1 l2 Hs IH|x l1 l2 Hs IH]; simpl; intros Hl; [done|f_equal; auto|].
  apply sublist_length in Hs. lia.
Qed.

Lemma kept_of_all {Row} (bad : Row -> Prop) out inp :
  (forall x, ~ bad x) -> kept_of bad out inp -> out = inp.
Proof.
  intros Hb [Hs (d & Hp & Hd)]. destruct d as [|x d]; [|inversion Hd; naive_solver].
  rewrite app_nil_r in Hp. apply sublist_length_eq; [done|]. by rewrite Hp.
Qed.

(** Every element is [m] but the last one, which is between 1 and [m]. *)
Definition fullButLast (m : Z) (l : list Z) : Prop :=
  exists init z, l = init ++ [z] /\ Forall (fun x => x = m) init /\ 0 < z <= m.

Local Abbreviation ok := (request_ok resourceProto scopeProto recordProto).
Local Abbreviation sizes := (map (fun r : req => recordCount (rq_data r))).

Lemma splitLoop_items fmt maxSize fuel (r : req) res :
  1 <= maxSize < 2 ^ 63 -> ok r -> 0 < recordCount (rq_data r) < 2 ^ 63 ->
  (Z.to_nat (recordCount (rq_data r)) < fuel)%nat ->
  exists outs left, splitLoop count SizerTypeItems fmt maxSize fuel r res 0 = Some (res ++ outs, None, left) /\
    outRows outs = dataRows (rq_data r) /\ fullButLast maxSize (sizes outs).
Proof.
  intros Hm. revert r res. induction fuel as [|fuel IH]; intros r res Hr Hb Hf; [lia|].
  cbn [splitLoop]. pose proof (sizer_items resourceProto scopeProto recordProto) as Hsz.
  destruct (size_ok _ _ _ _ _ Hsz r Hr) as (r' & -> & Hd' & Hr' & Hcached). rewrite Hd'.
  destruct (Z.ltb_spec maxSize (DataSize count (rq_data r))) as [Hbig|Hsmall].
  - destruct (extractData count (rq_data r) maxSize) as [[ld rem] src] eqn:Ee.
    pose proof (extractData_count _ _ _ _ _ Hm (proj2 Hb) Ee) as Hrem. simpl in Hbig.
    rewrite Z.min_l in Hrem by lia. subst rem.
    apply extractData_ok in Ee as (Hk & Hsrc & _ & _); [|apply _|simpl; lia..].
    apply kept_of_all in Hk; [|intros t; apply oversized_count; lia].
    assert (Hc : recordCount ld = maxSize).
    { simpl in Hsrc. rewrite !recordCount_rows, <- Hk, length_app in *. lia. }
    destruct (Z.eqb_spec maxSize 0); [lia|]. simpl in Hsrc.
    destruct (Hcached src) as (r'' & -> & Hr''). cbn [set_sizes rq_data rq_sizes DataSize CountSizer]. rewrite Hr''.
    replace (0 + (recordCount (rq_data r) - recordCount src - recordCount ld)) with 0 by lia.
    destruct (Z.ltb_spec 0 (recordCount ld)); [|lia].
    unfold set_sizes. rewrite Hr''.
    destruct (IH (mkRequest src (Update (rq_sizes r'') SizerTypeItems (recordCount (rq_data r) - maxSize)))
      (res ++ [newRequest ld])) as (outs & lft & -> & Hrows & init & z & Hi & Hinit & Hz); simpl; try lia.
    { unfold request_ok; simpl. rewrite <- Hsrc. apply (Update_ok _ SizerTypeItems). }
    exists (newRequest ld :: outs), lft. rewrite <- app_assoc. split; [done|]. simpl in *.
    split; [by rewrite Hrows|]. exists (maxSize :: init), z. rewrite Hc, Hi. eauto.
  - simpl in *. destruct (Z.ltb_spec 0 (recordCount (rq_data r))); [|lia].
    exists [r'], r'. simpl. rewrite app_nil_r, Hd'. split; [done|]. split; [done|].
    exists [], (recordCount (rq_data r)). split; [done|]. split; [by constructor|lia].
Qed.

(** C2: With the items sizer, [MergeSplit] loses nothing and returns no error:
    the outputs, concatenated, are the records of the first request followed by
    those of the second, and every output holds exactly [maxSize] records except
    the last, which holds between 1 and [maxSize]. *)
Theorem MergeSplit_items_chunks fmt (r1 : req) r2 maxSize :
  ok r1 -> from_option ok True r2 -> 0 < maxSize < 2 ^ 63 ->
  0 < Z.of_nat (length (inRows r1 r2)) < 2 ^ 63 ->
  exists out left, MergeSplit resourceProto scopeProto recordProto fmt r1 maxSize SizerTypeItems (Some <$> r2)
      = Some (out, None, left) /\
    outRows out = inRows r1 r2 /\ fullButLast maxSize (sizes out).
Proof.
  intros H1 H2 Hm Hn. pose proof (sizer_items resourceProto scopeProto recordProto) as Hsz.
  destruct (MergeSplit_split resourceProto scopeProto recordProto fmt r1 r2 maxSize _ _ Hsz)
    as (r & -> & Hr & Hrows & _); try done; [lia|].
  rewrite <- Hrows, <- recordCount_rows in *. unfold split.
  destruct (size_ok _ _ _ _ _ Hsz r Hr) as (r' & -> & Hd' & Hr' & _).
  cbn [DataSize CountSizer]. destruct (Z.leb_spec (recordCount (rq_data r)) maxSize).
  - exists [r'], r'. simpl. rewrite app_nil_r, Hd'. split; [done|]. split; [done|].
    exists [], (recordCount (rq_data r)). split; [done|]. split; [by constructor|lia].
  - destruct (splitLoop_items fmt maxSize (S (Z.to_nat (recordCount (rq_data r)))) r' [])
      as (outs & lft & E & Ho & Hc); rewrite ?Hd' in *; try done; try lia. by exists outs, lft.
Qed.
End Items.

(** ** Concrete requests

    A payload is given by the size of its encoding. *)
Section Examples.
Local Abbreviation data := (Data N N N).

Definition exRecs (l : list N) : ScopeData N N := mkScope 0%N "" l.
Definition exData (l : list (list N)) : data := map (fun r => mkResource 0%N "" [exRecs r] []) l.
Definition exSplit (szt : SizerType) (maxSize : Z) (d : data) :=
  MergeSplit Z.of_N Z.of_N Z.of_N logsDropped (newRequest d) maxSize szt None.

Lemma MergeSplit_accounts_witness :
  exists out err left,
    exSplit SizerTypeBytes 30 (exData [[1%N; 100%N; 2%N]; [3%N; 20%N]]) = Some (out, err, left) /\
    Forall (fun r => request_ok Z.of_N Z.of_N Z.of_N r /\
      dataSizeProto Z.of_N Z.of_N Z.of_N (rq_data r) <= 30) out /\
    err = Some (errDropped logsDropped 1).
Proof.
  destruct (MergeSplit_accounts Z.of_N Z.of_N Z.of_N N2Z.is_nonneg N2Z.is_nonneg N2Z.is_nonneg
    logsDropped (newRequest (exData [[1%N; 100%N; 2%N]; [3%N; 20%N]])) None 30 SizerTypeBytes
    (BytesSizer Z.of_N Z.of_N Z.of_N)) as (out & rest & err & lft & E & Ho & _ & _).
  - constructor.
  - apply newRequest_ok.
  - done.
  - lia.
  - vm_compute. reflexivity.
  - assert (err = Some (errDropped logsDropped 1)) as -> by (vm_compute in E; by injection E).
    exists out, (Some (errDropped logsDropped 1)), lft. split; [exact E|]. split; [exact Ho|done].
Defined.

Lemma MergeSplit_items_chunks_witness :
  exists out left, exSplit SizerTypeItems 2 (exData [[1%N; 100%N; 2%N]; [3%N; 20%N]]) = Some (out, None, left) /\
    map (fun r => recordCount (rq_data r)) out = [2; 2; 1] /\
    fullButLast 2 (map (fun r => recordCount (rq_data r)) out).
Proof.
  destruct (MergeSplit_items_chunks Z.of_N Z.of_N Z.of_N logsDropped
    (newRequest (exData [[1%N; 100%N; 2%N]; [3%N; 20%N]])) None 2) as (out & lft & E & _ & Hc).
  - apply newRequest_ok.
  - done.
  - lia.
  - vm_compute. split; reflexivity.
  - exists out, lft. split; [exact E|]. split; [|exact Hc].
    vm_compute in E. by injection E as <- _.
Defined.

(** A resource whose header leaves room for no byte at all, followed by a small
    resource. *)
Definition zeroRoom : data := mkResource 16%N "" [exRecs [0%N]] [] :: exData [[0%N]].

(** With the bytes sizer, a resource whose header leaves exactly no room for
    its scopes stops the split with nothing removed: the whole rest of the
    request is dropped, also a later resource that fits the limit and is
    exported when it comes alone.  A header one byte larger only loses its own
    record. *)
Theorem zero_room_drops_fitting :
  (exists l, exSplit SizerTypeBytes 20 zeroRoom = Some ([], Some (errCannotSplit 2), l)) /\
  (exists r l, exSplit SizerTypeBytes 20 (exData [[0%N]]) = Some ([r], None, l)) /\
  (exists r l, exSplit SizerTypeBytes 20 (mkResource 17%N "" [exRecs [0%N]] [] :: exData [[0%N]])
     = Some ([r], Some (errDropped logsDropped 1), l)).
Proof. split; [eexists|split; do 2 eexists]; vm_compute; reflexivity. Qed.

(** The room reserved for the length prefix is that of the capacity, so a record
    whose own batch has exactly the limit is dropped as too large when it has
    to be extracted, though alone it is exported. *)
Theorem conservative_drop :
  (exists l, exSplit SizerTypeBytes 128 (exData [[118%N; 118%N]]) = Some ([], Some (errDropped logsDropped 2), l)) /\
  dataSizeProto Z.of_N Z.of_N Z.of_N (exData [[118%N]]) = 128 /\
  exists r l, exSplit SizerTypeBytes 128 (exData [[118%N]]) = Some ([r], None, l).
Proof. split; [eexists|split; [|do 2 eexists]]; vm_compute; reflexivity. Qed.
End Examples.
