(* ===== verification/PersistentQueue.v ===== *)
(** * The persistent queue (exporterhelper/internal/queue/persistent_queue.go)

    Every operation runs under [pq.mu], so each one is a function on the
    queue's state and the state of the storage client.  The storage client is
    an interface: [Client] has its operations, [ClientLaws] what storage.go
    documents of them, including that a failed batch may have applied any part
    of its operations.  A blocked [Offer] or [Read] ends in a result that says
    so; waking up is running the operation again.

    The wire format of the metadata (google's proto package) and the request
    encoding are parameters. *)

From stdpp Require Import pretty.
From S2P Require Import Prelude Errors Sizers.
Local Open Scope Z_scope.

(** A byte is an integer in [0, 256). *)
Definition bytes := list Z.

(** ** extension/xextension/storage: the client interface *)

Inductive Operation :=
  | GetOperation (key : string)
  | SetOperation (key : string) (value : bytes)
  | DeleteOperation (key : string).

(** Results are in the order of the operations; a [Get] gives the value, nil
    ([None]) when the key is not set. *)
Class Client (W : Type) := {
  client_Get : string -> W -> W * (option bytes + error);
  client_Set : string -> bytes -> W -> W * option error;
  client_Batch : list Operation -> W -> W * (list (option bytes) + error);
  client_Close : W -> W * option error;
}.

Definition applyOp (op : Operation) (st : gmap string bytes) : gmap string bytes :=
  match op with
  | GetOperation _ => st
  | SetOperation k v => <[k := v]> st
  | DeleteOperation k => delete k st
  end.

Definition readOp (op : Operation) (st : gmap string bytes) : option bytes :=
  match op with GetOperation k => st !! k | _ => None end.

Fixpoint runOps (ops : list Operation) (st : gmap string bytes) : gmap string bytes * list (option bytes) :=
  match ops with
  | [] => (st, [])
  | op :: ops => let '(st', vs) := runOps ops (applyOp op st) in (st', readOp op st :: vs)
  end.

Class ClientLaws (W : Type) `{!Client W} (contents : W -> gmap string bytes) : Prop := {
  law_Get : forall k w w' r, client_Get k w = (w', r) ->
    contents w' = contents w /\ (forall v, r = inl v -> v = contents w !! k);
  law_Set : forall k v w w' r, client_Set k v w = (w', r) ->
    contents w' = <[k := v]> (contents w) \/ (r <> None /\ contents w' = contents w);
  law_Batch_ok : forall ops w w' vs, client_Batch ops w = (w', inl vs) ->
    (contents w', vs) = runOps ops (contents w);
  law_Batch_err : forall ops w w' e, client_Batch ops w = (w', inr e) ->
    exists done, done `sublist_of` ops /\ contents w' = (runOps done (contents w)).1;
  law_Close : forall w w' r, client_Close w = (w', r) -> contents w' = contents w;
}.

(** ** Keys and the legacy encodings *)

Definition legacyReadIndexKey : string := "ri".
Definition legacyWriteIndexKey : string := "wi".
Definition legacyCurrentlyDispatchedItemsKey : string := "di".
Definition metadataKey : string := "qmv0".

Definition errValueNotSet : error := New "value not set".
Definition errInvalidValue : error := New "invalid value".
Definition errNoStorageClient : error := New "no storage client extension found".
Definition errWrongExtensionType : error := New "requested extension is not a storage extension".
Definition ErrQueueIsFull : error := New "sending queue is full".

Definition getItemKey (index : Z) : string := pretty (Z.to_N index).

Fixpoint leDecode (buf : bytes) : Z :=
  match buf with [] => 0 | b :: buf => b + 256 * leDecode buf end.

(** binary.LittleEndian.Uint64 / Uint32. *)
Definition leUint64 (buf : bytes) : Z := leDecode (take 8 buf).
Definition leUint32 (buf : bytes) : Z := leDecode (take 4 buf).

Definition bytesToItemIndex (buf : option bytes) : Z + error :=
  match buf with
  | None => inr errValueNotSet
  | Some buf => if (length buf <? 8)%nat then inr errInvalidValue else inl (leUint64 buf)
  end.

(** The loop [for i := range size]: one index from the front of [buf] each. *)
Fixpoint readIndexes (size : nat) (buf : bytes) : list Z :=
  match size with
  | O => []
  | S size => leUint64 buf :: readIndexes size (drop 8 buf)
  end.

Definition bytesToItemIndexArray (buf : option bytes) : list Z + error :=
  let buf := default [] buf in
  if (length buf =? 0)%nat then inl []
  else if (length buf <? 4)%nat then inr errInvalidValue
  else
    let size := Z.to_nat (leUint32 buf) in
    if (size =? 0)%nat then inl []
    else
      let buf := drop 4 buf in
      if (length buf <? size * 8)%nat then inr errInvalidValue
      else inl (readIndexes size buf).

(** ** State *)

(** PersistentMetadata (meta.proto): int64 sizes, uint64 indexes. *)
Record Metadata := mkMetadata {
  md_ItemsSize : Z;
  md_BytesSize : Z;
  md_ReadIndex : Z;
  md_WriteIndex : Z;
  md_Dispatched : list Z;
}.

Definition zeroMetadata : Metadata := mkMetadata 0 0 0 0 [].

Definition set_sizes (m : Metadata) (items bytes : Z) : Metadata :=
  mkMetadata items bytes (md_ReadIndex m) (md_WriteIndex m) (md_Dispatched m).
Definition set_ReadIndex (m : Metadata) (i : Z) : Metadata :=
  mkMetadata (md_ItemsSize m) (md_BytesSize m) i (md_WriteIndex m) (md_Dispatched m).
Definition set_WriteIndex (m : Metadata) (i : Z) : Metadata :=
  mkMetadata (md_ItemsSize m) (md_BytesSize m) (md_ReadIndex m) i (md_Dispatched m).
Definition set_Dispatched (m : Metadata) (l : list Z) : Metadata :=
  mkMetadata (md_ItemsSize m) (md_BytesSize m) (md_ReadIndex m) (md_WriteIndex m) l.

(** What the queue did to its condition variables, most recent last. *)
Inductive Signal := SignalElements | BroadcastElements | SignalSpace.

Record pqueue := mkPQueue {
  pq_metadata : Metadata;
  pq_refClient : Z;
  pq_stopped : bool;
  pq_signals : list Signal;
}.

Definition set_metadata (pq : pqueue) (m : Metadata) : pqueue :=
  mkPQueue m (pq_refClient pq) (pq_stopped pq) (pq_signals pq).
Definition set_refClient (pq : pqueue) (n : Z) : pqueue :=
  mkPQueue (pq_metadata pq) n (pq_stopped pq) (pq_signals pq).
Definition signal (pq : pqueue) (s : Signal) : pqueue :=
  mkPQueue (pq_metadata pq) (pq_refClient pq) (pq_stopped pq) (pq_signals pq ++ [s]).

(** [newPersistentQueue]. *)
Definition newPersistentQueue : pqueue := mkPQueue zeroMetadata 0 false [].

Section Queue.
Context {W T Ctx : Type} `{!Client W} `{!Request T}.

(** The queue's settings. *)
Context (capacity : Z) (sizerType : SizerType) (blockOnOverflow : bool).

(** proto.Marshal / proto.Unmarshal on the metadata, and the request encoding. *)
Context (metaMarshal : Metadata -> bytes + error) (metaUnmarshal : bytes -> Metadata + error).
Context (encMarshal : Ctx -> T -> bytes + error) (encUnmarshal : bytes -> (Ctx * T) + error).

Definition requestSize (m : Metadata) : Z :=
  i64 (i64 (u64 (md_WriteIndex m - md_ReadIndex m)) + Z.of_nat (length (md_Dispatched m))).

Definition internalSize (m : Metadata) : Z :=
  if decide (sizerType = SizerTypeBytes) then md_BytesSize m
  else if decide (sizerType = SizerTypeItems) then md_ItemsSize m
  else requestSize m.

Definition Size (pq : pqueue) : Z := internalSize (pq_metadata pq).

(** Both sizes are reset when the queue is drained. *)
Definition syncDrained (m : Metadata) : Metadata :=
  if requestSize m =? 0 then set_sizes m 0 0 else m.

(** ** Producing *)

Definition putInternal (ctx : Ctx) (req : T) (pq : pqueue) (w : W) : pqueue * W * option error :=
  let m := set_WriteIndex (pq_metadata pq) (u64 (md_WriteIndex (pq_metadata pq) + 1)) in
  let pq := set_metadata pq m in
  match metaMarshal m with
  | inr err => (pq, w, Some err)
  | inl metadataBuf =>
      match encMarshal ctx req with
      | inr err => (pq, w, Some err)
      | inl reqBuf =>
          let ops := [SetOperation metadataKey metadataBuf;
                      SetOperation (getItemKey (u64 (md_WriteIndex m - 1))) reqBuf] in
          match client_Batch ops w with
          | (w, inr err) => (pq, w, Some err)
          | (w, inl _) => (signal pq SignalElements, w, None)
          end
      end
  end.

Inductive OfferResult :=
  | Offered (err : option error)
  | OfferWaits.

(** [Offer], up to where it returns or waits on [hasMoreSpace]. *)
Definition Offer (ctx : Ctx) (req : T) (pq : pqueue) (w : W) : pqueue * W * OfferResult :=
  let m := pq_metadata pq in
  if capacity <? i64 (internalSize m + Sizeof sizerType req) then
    if blockOnOverflow then (pq, w, OfferWaits) else (pq, w, Offered (Some ErrQueueIsFull))
  else
    let m := set_sizes m (i64 (md_ItemsSize m + Sizeof SizerTypeItems req))
                         (i64 (md_BytesSize m + Sizeof SizerTypeBytes req)) in
    let '(pq, w, err) := putInternal ctx req (set_metadata pq m) w in
    (pq, w, Offered err).

(** ** Consuming *)

(** The element at [index] is overwritten by the last one, and the list loses
    its last element. *)
Fixpoint swapRemove (index : Z) (l : list Z) : list Z :=
  match l with
  | [] => []
  | x :: l' =>
      if x =? index then match last l' with Some y => y :: removelast l' | None => [] end
      else x :: swapRemove index l'
  end.

Definition itemDispatchingFinish (index : Z) (pq : pqueue) (w : W) : pqueue * W * option error :=
  let m := syncDrained (set_Dispatched (pq_metadata pq) (swapRemove index (md_Dispatched (pq_metadata pq)))) in
  let pq := set_metadata pq m in
  match metaMarshal m with
  | inr err => (pq, w, Some err)
  | inl metadataBytes =>
      let setOp := SetOperation metadataKey metadataBytes in
      let deleteOp := DeleteOperation (getItemKey index) in
      match client_Batch [setOp; deleteOp] w with
      | (w, inl _) => (pq, w, None)
      | (w, inr _) =>
          match client_Batch [deleteOp] w with
          | (w, inr err) =>
              (pq, w, Some (Wrapf "failed deleting item from queue, got error from storage: %w" [] err))
          | (w, inl _) =>
              match client_Batch [setOp] w with
              | (w, inr err) =>
                  (pq, w, Some (Wrapf "failed updating currently dispatched items, but deleted item successfully: %w" [] err))
              | (w, inl _) => (pq, w, None)
              end
          end
      end
  end.

(** The index, context and request when one was consumed. *)
Definition getNextItem (pq : pqueue) (w : W) : pqueue * W * option (Z * Ctx * T) :=
  let index := md_ReadIndex (pq_metadata pq) in
  let m := set_Dispatched (set_ReadIndex (pq_metadata pq) (u64 (index + 1)))
             (md_Dispatched (pq_metadata pq) ++ [index]) in
  let pq := set_metadata pq m in
  match metaMarshal m with
  | inr _ => (pq, w, None)
  | inl metadataBytes =>
      let '(w, r) := client_Batch [SetOperation metadataKey metadataBytes; GetOperation (getItemKey index)] w in
      let r := match r with
               | inr err => inr err
               | inl vs => encUnmarshal (default [] (default None (vs !! 1%nat)))
               end in
      match r with
      | inr _ =>
          let '(pq, w, _) := itemDispatchingFinish index pq w in (pq, w, None)
      | inl (ctx, req) => (set_refClient pq (pq_refClient pq + 1), w, Some (index, ctx, req))
      end
  end.

Inductive ReadResult :=
  | ReadStopped
  | ReadItem (index : Z) (ctx : Ctx) (req : T) (itemsSize bytesSize : Z)
  | ReadWaits.

(** The loop over the stored elements.  [None] is reached only without fuel. *)
Fixpoint readLoop (fuel : nat) (pq : pqueue) (w : W) : option (pqueue * W * ReadResult) :=
  let m := pq_metadata pq in
  if md_ReadIndex m =? md_WriteIndex m then Some (pq, w, ReadWaits)
  else
    match fuel with
    | O => None
    | S fuel =>
        let '(pq, w, consumed) := getNextItem pq w in
        let pq := set_metadata pq (syncDrained (pq_metadata pq)) in
        match consumed with
        | Some (index, ctx, req) =>
            Some (pq, w, ReadItem index ctx req (Sizeof SizerTypeItems req) (Sizeof SizerTypeBytes req))
        | None => readLoop fuel (signal pq SignalSpace) w
        end
    end.

(** [Read], up to where it returns or waits on [hasMoreElements]. *)
Definition Read (pq : pqueue) (w : W) : option (pqueue * W * ReadResult) :=
  if pq_stopped pq then Some (pq, w, ReadStopped)
  else readLoop (Z.to_nat (u64 (md_WriteIndex (pq_metadata pq) - md_ReadIndex (pq_metadata pq)))) pq w.

(** ** Reference count, completion and shutdown *)

Definition unrefClient (pq : pqueue) (w : W) : pqueue * W * option error :=
  let pq := set_refClient pq (pq_refClient pq - 1) in
  if pq_refClient pq =? 0 then let '(w, err) := client_Close w in (pq, w, err)
  else (pq, w, None).

Definition onDone (index itemsSize bytesSize : Z) (consumeErr : option error) (pq : pqueue) (w : W)
    : pqueue * W :=
  let '(pq, w) :=
    if IsShutdownErr consumeErr then (pq, w)
    else
      let m := pq_metadata pq in
      let b := i64 (md_BytesSize m - bytesSize) in
      let b := if b <? 0 then 0 else b in
      let i := i64 (md_ItemsSize m - itemsSize) in
      let i := if i <? 0 then 0 else i in
      let '(pq, w, _) := itemDispatchingFinish index (set_metadata pq (set_sizes m i b)) w in
      (signal pq SignalSpace, w) in
  let '(pq, w, _) := unrefClient pq w in (pq, w).

(** A queue that was never started has no client. *)
Definition Shutdown (clientIsNil : bool) (pq : pqueue) (w : W) : pqueue * W * option error :=
  if clientIsNil then (pq, w, None) else
  let pq := mkPQueue (pq_metadata pq) (pq_refClient pq) true (pq_signals pq ++ [BroadcastElements]) in
  unrefClient pq w.

(** ** Starting *)

(** The loop that puts the retrieved values back. *)
Fixpoint reEnqueue (vals : list (option bytes)) (pq : pqueue) (w : W) : pqueue * W :=
  match vals with
  | [] => (pq, w)
  | v :: vals =>
      match v with
      | None => reEnqueue vals pq w
      | Some buf =>
          match encUnmarshal buf with
          | inr _ => reEnqueue vals pq w
          | inl (ctx, req) => let '(pq, w, _) := putInternal ctx req pq w in reEnqueue vals pq w
          end
      end
  end.

Definition enqueueNotDispatchedReqs (dispatchedItems : list Z) (pq : pqueue) (w : W) : pqueue * W :=
  if (length dispatchedItems =? 0)%nat then (pq, w)
  else
    let retrieveBatch := map (fun it => GetOperation (getItemKey it)) dispatchedItems in
    let cleanupBatch := map (fun it => DeleteOperation (getItemKey it)) dispatchedItems in
    let '(w, retrieved) := client_Batch retrieveBatch w in
    let '(w, _) := client_Batch cleanupBatch w in
    match retrieved with
    | inr _ => (pq, w)
    | inl vals => reEnqueue vals pq w
    end.

Definition retrieveAndEnqueueNotDispatchedReqs (pq : pqueue) (w : W) : pqueue * W :=
  let '(w, r) := client_Get legacyCurrentlyDispatchedItemsKey w in
  let r := match r with inr err => inr err | inl itemKeysBuf => bytesToItemIndexArray itemKeysBuf end in
  match r with
  | inr _ => (pq, w)
  | inl dispatchedItems => enqueueNotDispatchedReqs dispatchedItems pq w
  end.

(** The loaded metadata, or the error. *)
Definition loadQueueMetadata (w : W) : W * (Metadata + error) :=
  let '(w, r) := client_Get metadataKey w in
  (w, match r with
      | inr err => inr err
      | inl buf =>
          let buf := default [] buf in
          if (length buf =? 0)%nat then inr errValueNotSet else metaUnmarshal buf
      end).

Definition loadLegacyMetadata (pq : pqueue) (w : W) : pqueue * W :=
  let '(w, r) := client_Batch [GetOperation legacyReadIndexKey; GetOperation legacyWriteIndexKey] w in
  let idx :=
    match r with
    | inr err => None
    | inl vs =>
        match bytesToItemIndex (default None (vs !! 0%nat)), bytesToItemIndex (default None (vs !! 1%nat)) with
        | inl ri, inl wi => Some (ri, wi)
        | _, _ => None
        end
    end in
  let '(ri, wi) := default (0, 0) idx in
  let pq := set_metadata pq (set_WriteIndex (set_ReadIndex (pq_metadata pq) ri) wi) in
  let '(pq, w) := retrieveAndEnqueueNotDispatchedReqs pq w in
  match metaMarshal (pq_metadata pq) with
  | inr _ => (pq, w)
  | inl metadataBytes =>
      match client_Set metadataKey metadataBytes w with
      | (w, Some _) => (pq, w)
      | (w, None) =>
          let '(w, _) := client_Batch [DeleteOperation legacyReadIndexKey;
                                       DeleteOperation legacyWriteIndexKey;
                                       DeleteOperation legacyCurrentlyDispatchedItemsKey] w in
          (pq, w)
      end
  end.

Definition initClient (pq : pqueue) (w : W) : pqueue * W :=
  let pq := set_refClient pq 1 in
  match loadQueueMetadata w with
  | (w, inl m) =>
      let '(pq, w) := enqueueNotDispatchedReqs (md_Dispatched m) (set_metadata pq m) w in
      (set_metadata pq (set_Dispatched (pq_metadata pq) []), w)
  | (w, inr err) =>
      if errors_is "value not set" err then loadLegacyMetadata pq w
      else (set_metadata pq zeroMetadata, w)
  end.

(** [toStorageClient]: the extension registered under the storage id, which is
    absent, not a storage extension, or gives a client or an error. *)
Definition toStorageClient (ext : option (option (W + error))) : W + error :=
  match ext with
  | None => inr errNoStorageClient
  | Some None => inr errWrongExtensionType
  | Some (Some r) => r
  end.

Definition Start (ext : option (option (W + error))) (pq : pqueue) : (pqueue * W) + error :=
  match toStorageClient ext with
  | inr err => inr err
  | inl w => inl (initClient pq w)
  end.
End Queue.
