(* ===== verification/PersistentQueueProofs.v ===== *)
(** * Durability of the persistent queue

    The queue over a storage client that does not fail implements an abstract
    queue: a list of waiting requests and a list of dispatched ones.  [Idx] and
    [Persisted] relate the two to the contents of the storage; every operation,
    and a restart at any point, keeps them.  The failure paths have their own
    theorems at the end. *)

From stdpp Require Import pretty.
From S2P Require Import Prelude Errors Sizers PersistentQueue.
Local Open Scope Z_scope.

(** ** Item keys *)

Lemma pretty_go_first c x s : (forall y, pretty_N_char y <> c) ->
  (forall s', s <> String c s') -> forall s', pretty_N_go x s <> String c s'.
Proof.
  intros Hc. revert s. induction (N.lt_wf_0 x) as [x _ IH]; intros s Hs s'.
  assert (x = 0 ∨ 0 < x)%N as [->|?] by lia; [by rewrite pretty_N_go_0|].
  rewrite pretty_N_go_step by done. apply IH; [by apply N.div_lt|].
  intros s'' [= E _]. by apply Hc in E.
Qed.

Lemma getItemKey_first c i s : (forall y, pretty_N_char y <> c) -> getItemKey i <> String c s.
Proof.
  intros Hc. unfold getItemKey, pretty, pretty_N. case_decide.
  - intros [= E _]. by apply (Hc 0%N).
  - by apply pretty_go_first.
Qed.

Lemma digit_not y c : pretty_N_char y = c ->
  ((48 <=? Ascii.nat_of_ascii c) && (Ascii.nat_of_ascii c <=? 57))%nat = true.
Proof. unfold pretty_N_char. intros <-. by repeat case_match. Qed.

Lemma getItemKey_metadata i : getItemKey i <> metadataKey.
Proof. apply getItemKey_first. intros y E. by apply digit_not in E. Qed.
Lemma getItemKey_ri i : getItemKey i <> legacyReadIndexKey.
Proof. apply getItemKey_first. intros y E. by apply digit_not in E. Qed.
Lemma getItemKey_wi i : getItemKey i <> legacyWriteIndexKey.
Proof. apply getItemKey_first. intros y E. by apply digit_not in E. Qed.
Lemma getItemKey_di i : getItemKey i <> legacyCurrentlyDispatchedItemsKey.
Proof. apply getItemKey_first. intros y E. by apply digit_not in E. Qed.

Lemma getItemKey_inj i j : 0 <= i -> 0 <= j -> getItemKey i = getItemKey j -> i = j.
Proof. unfold getItemKey. intros ?? E. apply (inj pretty) in E. lia. Qed.

#[export] Hint Resolve getItemKey_metadata getItemKey_ri getItemKey_wi getItemKey_di : otel.

(** ** swapRemove *)

Lemma last_removelast {A} (l : list A) y : last l = Some y -> l = removelast l ++ [y].
Proof.
  intros H. destruct l as [|x l] using rev_ind; [done|]. rewrite last_snoc in H. injection H as ->.
  by rewrite removelast_last.
Qed.

Lemma removelast_map {A B} (f : A -> B) l : removelast (map f l) = map f (removelast l).
Proof. induction l as [|x [|y l] IH]; [done..|]. simpl in *. by rewrite IH. Qed.

(** [swapRemove] on the first components, seen on the pairs. *)
Lemma swapRemove_pairs {A} (l : list (Z * A)) i r :
  NoDup (map fst l) -> (i, r) ∈ l ->
  exists l', map fst l' = swapRemove i (map fst l) /\ l ≡ₚ (i, r) :: l'.
Proof.
  induction l as [|[j x] l IH]; intros Hnd Hin; [by apply not_elem_of_nil in Hin|].
  apply NoDup_cons in Hnd as [Hj Hnd]. simpl in *. destruct (Z.eqb_spec j i) as [->|Hne].
  - assert (x = r) as ->.
    { apply elem_of_cons in Hin as [[= ->]|Hin]; [done|]. destruct Hj.
      apply list_elem_of_fmap. by exists (i, r). }
    destruct (last l) as [[k y]|] eqn:El.
    + exists ((k, y) :: removelast l). simpl. rewrite fmap_last, El. simpl. split; [by rewrite removelast_map|].
      rewrite (last_removelast _ _ El) at 1. solve_Permutation.
    + apply last_None in El as ->. exists []. done.
  - apply elem_of_cons in Hin as [[= ->]|Hin]; [done|].
    destruct (IH Hnd Hin) as (l' & Hl' & Hp). exists ((j, x) :: l'). simpl. rewrite Hl'. split; [done|].
    rewrite Hp. solve_Permutation.
Qed.

Lemma swapRemove_perm i l : i ∈ l -> l ≡ₚ i :: swapRemove i l.
Proof.
  induction l as [|x l IH]; intros Hin; [by apply not_elem_of_nil in Hin|]. simpl.
  destruct (Z.eqb_spec x i) as [->|Hne].
  - destruct (last l) as [y|] eqn:El; [|by apply last_None in El as ->].
    rewrite (last_removelast _ _ El) at 1. solve_Permutation.
  - apply elem_of_cons in Hin as [->|Hin]; [done|]. rewrite (IH Hin) at 1. solve_Permutation.
Qed.

Lemma swapRemove_notin i l : i ∉ l -> swapRemove i l = l.
Proof.
  induction l as [|x l IH]; intros Hin; [done|]. apply not_elem_of_cons in Hin as [Hx Hl]. simpl.
  destruct (Z.eqb_spec x i); [done|]. by rewrite IH.
Qed.

(** Distinct indexes below [n] are at most [n]. *)
Lemma nodup_bound (l : list Z) n : NoDup l -> Forall (fun i => 0 <= i < n) l -> Z.of_nat (length l) <= Z.max 0 n.
Proof.
  intros Hnd Hl.
  assert (Hs : l ⊆+ seqZ 0 n).
  { apply NoDup_submseteq; [done|]. intros x Hx. eapply Forall_forall in Hx; [|exact Hl].
    apply elem_of_seqZ. simpl in Hx. lia. }
  apply submseteq_length in Hs. rewrite length_seqZ in Hs. lia.
Qed.

(** ** The representation of an abstract queue in the storage *)
Section Representation.
Context {T Ctx : Type} (encUnmarshal : bytes -> (Ctx * T) + error).

Definition stored (st : gmap string bytes) (i : Z) (r : T) : Prop :=
  exists b c, st !! getItemKey i = Some b /\ encUnmarshal b = inl (c, r).

(** The waiting requests [q] are stored at [ri, wi), the dispatched ones [fl]
    at their indexes, and no other item key is set. *)
Record Idx (st : gmap string bytes) (ri wi : Z) (q : list T) (fl : list (Z * T)) : Prop := {
  idx_ri : 0 <= ri;
  idx_wi : wi = ri + Z.of_nat (length q);
  idx_max : wi < 2 ^ 63;
  idx_nodup : NoDup (map fst fl);
  idx_lt : Forall (fun p => 0 <= p.1 < ri) fl;
  idx_q : forall k r, q !! k = Some r -> stored st (ri + Z.of_nat k) r;
  idx_fl : forall i r, (i, r) ∈ fl -> stored st i r;
  idx_only : forall i, 0 <= i -> is_Some (st !! getItemKey i) -> ri <= i < wi \/ i ∈ map fst fl;
}.

Lemma stored_insert st i r k b : k <> getItemKey i -> stored st i r -> stored (<[k := b]> st) i r.
Proof. intros Hk (b' & c & Hst & He). exists b', c. by rewrite lookup_insert_ne. Qed.

Lemma stored_delete st i r k : k <> getItemKey i -> stored st i r -> stored (delete k st) i r.
Proof. intros Hk (b' & c & Hst & He). exists b', c. by rewrite lookup_delete_ne. Qed.

Lemma stored_set st i r b c : encUnmarshal b = inl (c, r) -> stored (<[getItemKey i := b]> st) i r.
Proof. intros He. exists b, c. by rewrite lookup_insert_eq. Qed.

(** A key that is no item key may change freely. *)
Lemma Idx_insert_other st ri wi q fl k b :
  (forall i, getItemKey i <> k) -> Idx st ri wi q fl -> Idx (<[k := b]> st) ri wi q fl.
Proof.
  intros Hk []. split; try done.
  - intros j r Hr. apply stored_insert; auto.
  - intros i r Hr. apply stored_insert; auto.
  - intros i Hi. rewrite lookup_insert_ne by auto. auto.
Qed.

Lemma Idx_delete_other st ri wi q fl k :
  (forall i, getItemKey i <> k) -> Idx st ri wi q fl -> Idx (delete k st) ri wi q fl.
Proof.
  intros Hk []. split; try done.
  - intros j r Hr. apply stored_delete; auto.
  - intros i r Hr. apply stored_delete; auto.
  - intros i Hi. rewrite lookup_delete_ne by auto. auto.
Qed.

Lemma Idx_bounds st ri wi q fl i r : Idx st ri wi q fl -> (i, r) ∈ fl -> 0 <= i < ri.
Proof. intros [] Hin. by eapply Forall_forall in Hin; [|done]. Qed.

Lemma Idx_put st ri wi q fl b c r :
  Idx st ri wi q fl -> wi + 1 < 2 ^ 63 -> encUnmarshal b = inl (c, r) ->
  Idx (<[getItemKey wi := b]> st) ri (wi + 1) (q ++ [r]) fl.
Proof.
  intros HI Hmax He. pose proof (Idx_bounds st ri wi q fl) as Hb. destruct HI as [Hri Hwi _ Hnd Hlt Hq Hfl Honly].
  split; try done.
  - rewrite length_app. simpl. lia.
  - intros k r' Hk. apply lookup_app_Some in Hk as [Hk|[Hk1 Hk2]].
    + apply stored_insert; [|auto]. intros E%getItemKey_inj; apply lookup_lt_Some in Hk; lia.
    + apply list_lookup_singleton_Some in Hk2 as [Hk2 ->].
      replace (ri + Z.of_nat k) with wi by lia. by eapply stored_set.
  - intros i r' Hi. apply stored_insert; [|auto].
    eapply Forall_forall in Hlt; [|exact Hi]. simpl in Hlt. intros E%getItemKey_inj; lia.
  - intros i Hi Hs. destruct (decide (i = wi)) as [->|Hne]; [left; lia|].
    rewrite lookup_insert_ne in Hs by (intros E%getItemKey_inj; lia). destruct (Honly i Hi Hs); [left; lia|by right].
Qed.

Lemma Idx_read st ri wi r q fl :
  Idx st ri wi (r :: q) fl -> Idx st (ri + 1) wi q (fl ++ [(ri, r)]).
Proof.
  intros [Hri Hwi Hmax Hnd Hlt Hq Hfl Honly]. simpl in Hwi. split; simpl; try lia.
  - rewrite map_app. apply NoDup_app. split_and!; [done| |apply NoDup_singleton].
    intros i Hi Hi'. apply list_elem_of_singleton in Hi'. simpl in Hi'. subst i.
    apply list_elem_of_fmap in Hi as ([j r'] & E & Hi). eapply Forall_forall in Hlt; [|exact Hi]. simpl in *. lia.
  - apply Forall_app. split; [|repeat constructor; simpl; lia].
    eapply Forall_impl; [exact Hlt|]. intros [j r']; simpl; lia.
  - intros k r' Hk. replace (ri + 1 + Z.of_nat k) with (ri + Z.of_nat (S k)) by lia. by apply Hq.
  - intros i r' Hi. apply elem_of_app in Hi as [Hi|Hi]; [auto|].
    apply list_elem_of_singleton in Hi as [= -> ->]. replace ri with (ri + Z.of_nat 0) by lia. by apply Hq.
  - intros i Hi Hs. rewrite map_app, elem_of_app.
    destruct (Honly i Hi Hs) as [?|?]; [|auto].
    destruct (decide (i = ri)) as [->|]; [right; right; left|left; lia].
Qed.

Lemma Idx_done st ri wi q fl fl' i r :
  Idx st ri wi q fl -> fl ≡ₚ (i, r) :: fl' -> Idx (delete (getItemKey i) st) ri wi q fl'.
Proof.
  intros HI Hp. assert (Hi : 0 <= i < ri) by (eapply Idx_bounds; [done|rewrite Hp; left]).
  destruct HI as [Hri Hwi Hmax Hnd Hlt Hq Hfl Honly].
  rewrite Hp in Hnd, Hlt. inversion Hnd as [|?? Hni Hnd']; subst. inversion Hlt as [|?? _ Hlt']; subst.
  split; try done.
  - intros k r' Hk. apply stored_delete; [|auto]. intros E%getItemKey_inj; lia.
  - intros j r' Hj. apply stored_delete; [|apply Hfl; rewrite Hp; by right].
    intros E%getItemKey_inj; [|lia|]; [|eapply Forall_forall in Hlt'; [|exact Hj]; simpl in *; lia].
    subst j. apply Hni. apply list_elem_of_fmap. by exists (i, r').
  - intros j Hj Hs. destruct (decide (j = i)) as [->|Hne].
    { rewrite lookup_delete_eq in Hs. by destruct Hs. }
    rewrite lookup_delete_ne in Hs by (intros E%getItemKey_inj; lia).
    destruct (Honly j Hj Hs) as [?|Hin]; [by left|right].
    change (map fst fl) with (fst <$> fl) in Hin. rewrite Hp in Hin. apply elem_of_cons in Hin as [?|?]; [simpl in *; lia|done].
Qed.
End Representation.

(** ** Operations over a client that does not fail *)
Section Reliable.
Context {W T Ctx : Type} `{!Client W} `{!Request T}.
Context (contents : W -> gmap string bytes) `{!ClientLaws W contents}.
Context (capacity : Z) (sizerType : SizerType) (blockOnOverflow : bool).
Context (metaMarshal : Metadata -> bytes + error) (metaUnmarshal : bytes -> Metadata + error).
Context (encMarshal : Ctx -> T -> bytes + error) (encUnmarshal : bytes -> (Ctx * T) + error).

(** The fields of a metadata message are in the range of their wire types. *)
Definition md_wf (m : Metadata) : Prop :=
  is_i64 (md_ItemsSize m) /\ is_i64 (md_BytesSize m) /\
  is_u64 (md_ReadIndex m) /\ is_u64 (md_WriteIndex m) /\ Forall is_u64 (md_Dispatched m).

(** The assumptions: the client answers every call; proto messages round-trip,
    and only the message of all defaults is encoded as no bytes; the request
    encoding round-trips; request sizes are not negative. *)
Record Assumptions : Prop := {
  batch_ok : forall ops w, exists w' vs, client_Batch ops w = (w', inl vs);
  get_ok : forall k w, exists w' v, client_Get k w = (w', inl v);
  set_ok : forall k v w, exists w', client_Set k v w = (w', None) /\ contents w' = <[k := v]> (contents w);
  meta_roundtrip : forall m, md_wf m -> exists b, metaMarshal m = inl b /\ metaUnmarshal b = inl m;
  meta_empty : forall m, metaMarshal m = inl [] -> m = zeroMetadata;
  enc_roundtrip : forall c r, exists b c', encMarshal c r = inl b /\ encUnmarshal b = inl (c', r);
  items_nonneg : forall r : T, 0 <= ItemsCount r;
  bytes_nonneg : forall r : T, 0 <= BytesSize r;
}.
Context (A : Assumptions).

Local Abbreviation put := (putInternal metaMarshal encMarshal).
Local Abbreviation offer := (Offer capacity sizerType blockOnOverflow metaMarshal encMarshal).
Local Abbreviation read := (Read metaMarshal encUnmarshal).
Local Abbreviation done := (onDone metaMarshal).
Local Abbreviation finish := (itemDispatchingFinish metaMarshal).
Local Abbreviation init := (initClient metaMarshal metaUnmarshal encMarshal encUnmarshal).
Local Abbreviation idx := (Idx encUnmarshal).

Definition total (szt : SizerType) (q : list T) (fl : list (Z * T)) : Z :=
  sumZ (Sizeof szt) (q ++ map snd fl).

(** What an index decodes to. *)
Definition lookupReq (st : gmap string bytes) (i : Z) : option T :=
  b ← st !! getItemKey i; match encUnmarshal b with inl (_, r) => Some r | inr _ => None end.

(** The stored metadata is the one in memory, except that its dispatched list
    may hold stale indexes whose items are gone. *)
Definition Persisted (st : gmap string bytes) (m : Metadata) (fl : list (Z * T)) : Prop :=
  exists D b, md_wf (set_Dispatched m D) /\ st !! metadataKey = Some b /\
    metaMarshal (set_Dispatched m D) = inl b /\
    NoDup D /\ Forall (fun i => 0 <= i < md_ReadIndex m) D /\
    omap (lookupReq st) D = map snd fl /\ (forall i, i ∈ map fst fl -> i ∈ D).

Definition noLegacy (st : gmap string bytes) : Prop :=
  st !! legacyReadIndexKey = None /\ st !! legacyWriteIndexKey = None /\
  st !! legacyCurrentlyDispatchedItemsKey = None.

Record RepM (st : gmap string bytes) (m : Metadata) (q : list T) (fl : list (Z * T)) : Prop := {
  rep_idx : idx st (md_ReadIndex m) (md_WriteIndex m) q fl;
  rep_disp : md_Dispatched m = map fst fl;
  rep_items : md_ItemsSize m = total SizerTypeItems q fl;
  rep_bytes : md_BytesSize m = total SizerTypeBytes q fl;
  rep_small : total SizerTypeItems q fl < 2 ^ 63 /\ total SizerTypeBytes q fl < 2 ^ 63;
  rep_persisted : Persisted st m fl;
  rep_legacy : noLegacy st;
}.

Definition Rep (pq : pqueue) (w : W) := RepM (contents w) (pq_metadata pq).

Lemma Sizeof_nonneg szt (r : T) : 0 <= Sizeof szt r.
Proof.
  unfold Sizeof. pose proof (items_nonneg A r). pose proof (bytes_nonneg A r). repeat case_decide; lia.
Qed.

Lemma total_nonneg szt q fl : 0 <= total szt q fl.
Proof. apply sumZ_nonneg. intros r _. apply Sizeof_nonneg. Qed.

Lemma lookupReq_stored st i r : stored encUnmarshal st i r -> lookupReq st i = Some r.
Proof. intros (b & c & Hst & He). unfold lookupReq. by rewrite Hst; simpl; rewrite He. Qed.

Lemma omap_stored st fl :
  (forall i r, (i, r) ∈ fl -> stored encUnmarshal st i r) -> omap (lookupReq st) (map fst fl) = map snd fl.
Proof.
  induction fl as [|[i r] fl IH]; intros H; [done|]. simpl.
  rewrite (lookupReq_stored _ _ r) by (apply H; left). f_equal. apply IH. intros j r' Hj. apply H. by right.
Qed.

Lemma idx_wf st m q fl :
  idx st (md_ReadIndex m) (md_WriteIndex m) q fl -> md_Dispatched m = map fst fl ->
  is_i64 (md_ItemsSize m) -> is_i64 (md_BytesSize m) -> md_wf m.
Proof.
  intros HI Hd Hi Hb. pose proof (idx_lt _ _ _ _ _ _ HI) as Hlt.
  destruct HI as [Hri Hwi Hmax _ _ _ _ _]. unfold md_wf, is_u64. rewrite Hd. split_and!; try done; try lia.
  apply Forall_map. eapply Forall_impl; [exact Hlt|]. intros [j r]; simpl; unfold is_u64. lia.
Qed.

(** A metadata just written with its own dispatched list is persisted. *)
Lemma Persisted_written st m q fl b :
  idx st (md_ReadIndex m) (md_WriteIndex m) q fl -> md_Dispatched m = map fst fl -> md_wf m ->
  st !! metadataKey = Some b -> metaMarshal m = inl b -> Persisted st m fl.
Proof.
  intros HI Hd Hwf Hst Hb. exists (md_Dispatched m), b. destruct m as [i by' ri wi D]; simpl in *.
  unfold set_Dispatched; simpl. split_and!; try done; subst D.
  - apply (idx_nodup _ _ _ _ _ _ HI).
  - apply Forall_map. eapply Forall_impl; [exact (idx_lt _ _ _ _ _ _ HI)|]. done.
  - apply omap_stored. apply (idx_fl _ _ _ _ _ _ HI).
  - done.
Qed.

Lemma flight_bound st ri wi q fl : idx st ri wi q fl -> Z.of_nat (length fl) <= ri.
Proof.
  intros [Hri _ _ Hnd Hlt _ _ _]. rewrite <- (length_map fst).
  pose proof (nodup_bound (map fst fl) ri Hnd) as Hb.
  rewrite Forall_map in Hb. specialize (Hb Hlt). lia.
Qed.

(** The number of requests in the queue, dispatched ones included. *)
Lemma requestSize_rep st m q fl :
  idx st (md_ReadIndex m) (md_WriteIndex m) q fl -> md_Dispatched m = map fst fl ->
  requestSize m = Z.of_nat (length q) + Z.of_nat (length fl).
Proof.
  intros HI Hd. pose proof (flight_bound _ _ _ _ _ HI) as Hb. destruct HI as [Hri Hwi Hmax _ _ _ _ _].
  unfold requestSize. rewrite Hd, length_map.
  rewrite u64_id by (unfold is_u64; lia).
  rewrite (i64_id (md_WriteIndex m - md_ReadIndex m)) by (unfold is_i64; lia).
  rewrite i64_id; unfold is_i64; lia.
Qed.

(** Resetting the sizes of a drained queue changes nothing here. *)
Lemma syncDrained_rep st m q fl :
  idx st (md_ReadIndex m) (md_WriteIndex m) q fl -> md_Dispatched m = map fst fl ->
  md_ItemsSize m = total SizerTypeItems q fl -> md_BytesSize m = total SizerTypeBytes q fl ->
  syncDrained m = m.
Proof.
  intros HI Hd Hi Hb. unfold syncDrained. rewrite (requestSize_rep _ _ _ _ HI Hd).
  destruct (Z.eqb_spec (Z.of_nat (length q) + Z.of_nat (length fl)) 0) as [E|]; [|done].
  destruct q; [|simpl in E; lia]. destruct fl; [|simpl in E; lia].
  destruct m; simpl in *. unfold set_sizes; simpl. unfold total in *; simpl in *. by subst.
Qed.

Lemma total_app szt q r fl : total szt (q ++ [r]) fl = total szt q fl + Sizeof szt r.
Proof. unfold total. rewrite !sumZ_app. simpl. lia. Qed.

Lemma total_read szt q r i fl : total szt q (fl ++ [(i, r)]) = total szt (r :: q) fl.
Proof. unfold total. rewrite map_app, !sumZ_app. simpl. lia. Qed.

Lemma total_done szt q i r fl fl' :
  fl ≡ₚ (i, r) :: fl' -> total szt q fl = Sizeof szt r + total szt q fl'.
Proof.
  intros Hp. unfold total. rewrite !sumZ_app.
  rewrite (sumZ_permutation _ (map snd fl) (map snd ((i, r) :: fl'))) by (by apply Permutation_map). simpl. lia.
Qed.

Lemma noLegacy_insert st k b :
  k <> legacyReadIndexKey -> k <> legacyWriteIndexKey -> k <> legacyCurrentlyDispatchedItemsKey ->
  noLegacy st -> noLegacy (<[k := b]> st).
Proof. intros ??? (? & ? & ?). unfold noLegacy. rewrite !lookup_insert_ne by done. done. Qed.

Lemma noLegacy_delete st k : noLegacy st -> noLegacy (delete k st).
Proof. intros (? & ? & ?). unfold noLegacy. rewrite !lookup_delete_None. auto. Qed.

Lemma Rep_wf st m q fl : RepM st m q fl -> md_wf m.
Proof.
  intros [HI Hd Hi Hb [Hsi Hsb] _ _]. eapply idx_wf; [done..| |]; unfold is_i64.
  - pose proof (total_nonneg SizerTypeItems q fl). lia.
  - pose proof (total_nonneg SizerTypeBytes q fl). lia.
Qed.

(** Writing a metadata [m'] whose indexes and sizes are right re-establishes the
    relation. *)
Lemma RepM_write st m' q fl mb :
  idx st (md_ReadIndex m') (md_WriteIndex m') q fl -> md_Dispatched m' = map fst fl ->
  md_ItemsSize m' = total SizerTypeItems q fl -> md_BytesSize m' = total SizerTypeBytes q fl ->
  total SizerTypeItems q fl < 2 ^ 63 -> total SizerTypeBytes q fl < 2 ^ 63 ->
  st !! metadataKey = Some mb -> metaMarshal m' = inl mb -> noLegacy st -> RepM st m' q fl.
Proof.
  intros HI Hd Hi Hb Hsi Hsb Hst Hmb Hl. split; try done. eapply Persisted_written; try done.
  pose proof (total_nonneg SizerTypeItems q fl). pose proof (total_nonneg SizerTypeBytes q fl).
  eapply idx_wf; try done; unfold is_i64; lia.
Qed.

(** [putInternal]: what it writes. *)
Lemma put_runs c r pq w m' :
  m' = set_WriteIndex (pq_metadata pq) (md_WriteIndex (pq_metadata pq) + 1) ->
  0 <= md_WriteIndex (pq_metadata pq) < 2 ^ 63 - 1 -> md_wf m' ->
  exists w' mb b c', put c r pq w = (signal (set_metadata pq m') SignalElements, w', None) /\
    metaMarshal m' = inl mb /\ metaUnmarshal mb = inl m' /\ encUnmarshal b = inl (c', r) /\
    contents w' = <[getItemKey (md_WriteIndex (pq_metadata pq)) := b]> (<[metadataKey := mb]> (contents w)).
Proof.
  intros -> Hwi Hwf. unfold putInternal. rewrite u64_id by (unfold is_u64; lia).
  destruct (meta_roundtrip A _ Hwf) as (mb & Hmb & Hun). rewrite Hmb.
  destruct (enc_roundtrip A c r) as (b & c' & Hb & Hdec). rewrite Hb. simpl.
  rewrite Z.add_simpl_r, u64_id by (unfold is_u64; lia).
  match goal with |- context [client_Batch ?ops ?w0] => destruct (batch_ok A ops w0) as (w' & vs & Eb) end.
  rewrite Eb. apply law_Batch_ok in Eb. simpl in Eb. injection Eb as Ew _.
  eexists w', mb, b, c'. done.
Qed.

(** [Offer] when there is room: the request is stored at the back. *)
Lemma Offer_accepts c r pq w q fl :
  Rep pq w q fl -> i64 (internalSize sizerType (pq_metadata pq) + Sizeof sizerType r) <= capacity ->
  md_WriteIndex (pq_metadata pq) < 2 ^ 63 - 1 ->
  total SizerTypeItems (q ++ [r]) fl < 2 ^ 63 -> total SizerTypeBytes (q ++ [r]) fl < 2 ^ 63 ->
  exists pq' w', offer c r pq w = (pq', w', Offered None) /\ Rep pq' w' (q ++ [r]) fl /\
    pq_refClient pq' = pq_refClient pq /\ pq_stopped pq' = pq_stopped pq /\
    md_WriteIndex (pq_metadata pq') = md_WriteIndex (pq_metadata pq) + 1 /\
    pq_signals pq' = pq_signals pq ++ [SignalElements].
Proof.
  intros [HI Hd Hi Hb [Hsi Hsb] Hp Hl] Hroom Hwi Hti Htb. unfold Offer.
  destruct (Z.ltb_spec capacity (i64 (internalSize sizerType (pq_metadata pq) + Sizeof sizerType r))); [lia|].
  set (m := pq_metadata pq) in *. rewrite total_app in Hti, Htb.
  pose proof (total_nonneg SizerTypeItems q fl). pose proof (total_nonneg SizerTypeBytes q fl).
  pose proof (Sizeof_nonneg SizerTypeItems r). pose proof (Sizeof_nonneg SizerTypeBytes r).
  rewrite !i64_id by (unfold is_i64; lia).
  set (pq1 := set_metadata pq _).
  pose proof (idx_ri _ _ _ _ _ _ HI) as Hri. pose proof (idx_wi _ _ _ _ _ _ HI) as Hwq.
  set (m' := set_WriteIndex (pq_metadata pq1) (md_WriteIndex (pq_metadata pq1) + 1)).
  assert (Hwf : md_wf m').
  { pose proof (Rep_wf _ _ _ _ (Build_RepM _ _ _ _ HI Hd Hi Hb (conj Hsi Hsb) Hp Hl)) as (_ & _ & Hw3 & Hw4 & Hw5).
    unfold md_wf, is_i64, is_u64 in *; simpl in *. split_and!; try done; lia. }
  destruct (put_runs c r pq1 w m') as (w' & mb & b & c' & -> & Hmb & Hun & Hdec & Hw'); simpl; try done; [lia|].
  eexists _, w'. split; [done|]. split; [|done]. unfold Rep; simpl. rewrite Hw'. simpl.
  eapply RepM_write; simpl; try done; rewrite ?total_app; try lia.
  - apply (Idx_put _ _ _ _ _ _ _ c'); [|lia|done]. apply Idx_insert_other; auto with otel.
  - rewrite lookup_insert_ne by auto with otel. by rewrite lookup_insert_eq.
  - repeat apply noLegacy_insert; auto with otel.
Qed.

(** [Offer] without room changes nothing. *)
Lemma Offer_full c r pq w :
  capacity < i64 (internalSize sizerType (pq_metadata pq) + Sizeof sizerType r) ->
  offer c r pq w = (pq, w, if blockOnOverflow then OfferWaits else Offered (Some ErrQueueIsFull)).
Proof.
  intros H. unfold Offer. destruct (Z.ltb_spec capacity
    (i64 (internalSize sizerType (pq_metadata pq) + Sizeof sizerType r))); [|lia]. by destruct blockOnOverflow.
Qed.

Lemma Read_empty pq w fl : Rep pq w [] fl -> pq_stopped pq = false -> read pq w = Some (pq, w, ReadWaits).
Proof.
  intros [HI _ _ _ _ _ _] Hs. unfold Read. rewrite Hs. pose proof (idx_wi _ _ _ _ _ _ HI) as Hwi. simpl in Hwi.
  destruct (Z.to_nat _); simpl; destruct (Z.eqb_spec (md_ReadIndex (pq_metadata pq)) (md_WriteIndex (pq_metadata pq)));
    done || lia.
Qed.

(** [Read] hands out the oldest waiting request and records it as dispatched. *)
Lemma Read_takes pq w r q fl :
  Rep pq w (r :: q) fl -> pq_stopped pq = false ->
  exists pq' w' c, read pq w =
      Some (pq', w', ReadItem (md_ReadIndex (pq_metadata pq)) c r (Sizeof SizerTypeItems r) (Sizeof SizerTypeBytes r)) /\
    Rep pq' w' q (fl ++ [(md_ReadIndex (pq_metadata pq), r)]) /\
    pq_refClient pq' = pq_refClient pq + 1 /\ pq_stopped pq' = false /\
    md_WriteIndex (pq_metadata pq') = md_WriteIndex (pq_metadata pq).
Proof.
  intros HR Hs. pose proof (Rep_wf _ _ _ _ HR) as Hwf. destruct HR as [HI Hd Hi Hb [Hsi Hsb] Hp Hl].
  unfold Read. rewrite Hs. set (m := pq_metadata pq) in *.
  pose proof (idx_wi _ _ _ _ _ _ HI) as Hwi. pose proof (idx_ri _ _ _ _ _ _ HI) as Hri.
  pose proof (idx_max _ _ _ _ _ _ HI) as Hmax. simpl in Hwi.
  destruct (Z.to_nat (u64 (md_WriteIndex m - md_ReadIndex m))) as [|n] eqn:En.
  { rewrite u64_id in En by (unfold is_u64; lia). lia. }
  simpl. fold m. destruct (Z.eqb_spec (md_ReadIndex m) (md_WriteIndex m)); [lia|].
  unfold getNextItem. fold m. rewrite u64_id by (unfold is_u64; lia).
  set (m' := set_Dispatched _ _).
  assert (Hwf' : md_wf m').
  { destruct Hwf as (H1 & H2 & H3 & H4 & H5). unfold md_wf, is_u64 in *; simpl. split_and!; try done; try lia.
    apply Forall_app. split; [done|]. repeat constructor; lia. }
  destruct (meta_roundtrip A _ Hwf') as (mb & Hmb & Hun). rewrite Hmb.
  match goal with |- context [client_Batch ?ops ?w0] => destruct (batch_ok A ops w0) as (w' & vs & Eb) end.
  rewrite Eb. apply law_Batch_ok in Eb. simpl in Eb. injection Eb as Ew ->. simpl.
  pose proof (idx_q _ _ _ _ _ _ HI 0%nat r eq_refl) as (b & c & Hst & Hdec). rewrite Z.add_0_r in Hst.
  rewrite lookup_insert_ne by (symmetry; auto with otel). rewrite Hst. simpl. rewrite Hdec. simpl.
  assert (HI' : idx (contents w') (md_ReadIndex m + 1) (md_WriteIndex m) q (fl ++ [(md_ReadIndex m, r)])).
  { rewrite Ew. apply Idx_insert_other; [auto with otel|]. by apply Idx_read. }
  assert (HR' : RepM (contents w') m' q (fl ++ [(md_ReadIndex m, r)])).
  { eapply RepM_write; simpl; rewrite ?total_read; try done.
    - by rewrite map_app, Hd.
    - by rewrite Ew, lookup_insert_eq.
    - rewrite Ew. by apply noLegacy_insert. }
  rewrite (syncDrained_rep _ m' q _ HI').
  - eexists _, w', c. split; [done|]. split; [exact HR'|]. done.
  - apply (rep_disp _ _ _ _ HR').
  - apply (rep_items _ _ _ _ HR').
  - apply (rep_bytes _ _ _ _ HR').
Qed.

(** [itemDispatchingFinish]: what it writes. *)
Lemma finish_runs i pq w m' :
  m' = syncDrained (set_Dispatched (pq_metadata pq) (swapRemove i (md_Dispatched (pq_metadata pq)))) ->
  md_wf m' ->
  exists w' mb, finish i pq w = (set_metadata pq m', w', None) /\ metaMarshal m' = inl mb /\
    contents w' = delete (getItemKey i) (<[metadataKey := mb]> (contents w)).
Proof.
  intros -> Hwf. unfold itemDispatchingFinish.
  destruct (meta_roundtrip A _ Hwf) as (mb & Hmb & Hun). rewrite Hmb.
  match goal with |- context [client_Batch ?ops ?w0] => destruct (batch_ok A ops w0) as (w' & vs & Eb) end.
  rewrite Eb. apply law_Batch_ok in Eb. simpl in Eb. injection Eb as Ew _. by exists w', mb.
Qed.

(** Dropping a reference only closes the client. *)
Lemma unref_contents pq w pq' w' e :
  unrefClient pq w = (pq', w', e) ->
  contents w' = contents w /\ pq' = set_refClient pq (pq_refClient pq - 1).
Proof.
  unfold unrefClient. simpl. destruct (_ =? 0).
  - destruct (client_Close w) as [w1 e1] eqn:Ec. intros [= <- <- _]. split; [by eapply law_Close|done].
  - by intros [= <- <- _].
Qed.

(** [onDone] of a dispatched request that was sent or refused for good removes
    it from the queue. *)
Lemma onDone_removes i r pq w q fl err :
  Rep pq w q fl -> (i, r) ∈ fl -> IsShutdownErr err = false ->
  exists pq' w' fl', done i (Sizeof SizerTypeItems r) (Sizeof SizerTypeBytes r) err pq w = (pq', w') /\
    fl ≡ₚ (i, r) :: fl' /\ Rep pq' w' q fl' /\ pq_refClient pq' = pq_refClient pq - 1 /\
    pq_stopped pq' = pq_stopped pq /\ md_WriteIndex (pq_metadata pq') = md_WriteIndex (pq_metadata pq) /\
    pq_signals pq' = pq_signals pq ++ [SignalSpace].
Proof.
  intros HR Hin He. pose proof (Rep_wf _ _ _ _ HR) as Hwf. destruct HR as [HI Hd Hi Hb [Hsi Hsb] Hp Hl].
  unfold onDone. rewrite He. set (m := pq_metadata pq) in *.
  destruct (swapRemove_pairs fl i r (idx_nodup _ _ _ _ _ _ HI) Hin) as (fl' & Hfl' & Hperm).
  pose proof (total_done SizerTypeItems q i r fl fl' Hperm) as Hti.
  pose proof (total_done SizerTypeBytes q i r fl fl' Hperm) as Htb.
  pose proof (total_nonneg SizerTypeItems q fl'). pose proof (total_nonneg SizerTypeBytes q fl').
  pose proof (Sizeof_nonneg SizerTypeItems r). pose proof (Sizeof_nonneg SizerTypeBytes r).
  rewrite !i64_id by (unfold is_i64; lia).
  destruct (Z.ltb_spec (md_BytesSize m - Sizeof SizerTypeBytes r) 0); [lia|].
  destruct (Z.ltb_spec (md_ItemsSize m - Sizeof SizerTypeItems r) 0); [lia|].
  set (m1 := set_sizes m _ _).
  set (m2 := set_Dispatched m1 (swapRemove i (md_Dispatched m1))).
  assert (HI' : forall mb, idx (delete (getItemKey i) (<[metadataKey := mb]> (contents w)))
            (md_ReadIndex m) (md_WriteIndex m) q fl').
  { intros mb. eapply Idx_done; [|exact Hperm]. by apply Idx_insert_other; auto with otel. }
  assert (Hsync : syncDrained m2 = m2).
  { eapply (syncDrained_rep _ m2 q fl' (HI' [])); simpl; [by rewrite Hd|lia..]. }
  assert (Hwf' : md_wf m2).
  { eapply (idx_wf _ m2 q fl' (HI' [])); simpl; [by rewrite Hd|unfold is_i64; lia..]. }
  destruct (finish_runs i (set_metadata pq m1) w m2) as (w' & mb & -> & Hmb & Hw'); [by rewrite <- Hsync|done|].
  simpl. destruct (unrefClient _ w') as [[pq' w''] e'] eqn:Eu.
  apply unref_contents in Eu as [Hc ->].
  eexists _, w'', fl'. split; [done|]. split; [done|]. split; [|done].
  unfold Rep; simpl. rewrite Hc, Hw'. eapply RepM_write; simpl; try lia.
  - apply HI'.
  - by rewrite Hd.
  - rewrite lookup_delete_ne by auto with otel. by rewrite lookup_insert_eq.
  - done.
  - apply noLegacy_delete, noLegacy_insert; done.
Qed.

(** On a shutdown error the request stays dispatched in the storage. *)
Lemma onDone_shutdown i a b pq w q fl err :
  Rep pq w q fl -> IsShutdownErr err = true ->
  exists pq' w', done i a b err pq w = (pq', w') /\ Rep pq' w' q fl /\
    pq_refClient pq' = pq_refClient pq - 1 /\ pq_stopped pq' = pq_stopped pq /\
    md_WriteIndex (pq_metadata pq') = md_WriteIndex (pq_metadata pq).
Proof.
  intros HR He. unfold onDone. rewrite He.
  destruct (unrefClient pq w) as [[pq' w'] e'] eqn:Eu. apply unref_contents in Eu as [Hc ->].
  eexists _, w'. split; [done|]. unfold Rep. by rewrite Hc.
Qed.

Lemma Shutdown_rep pq w q fl pq' w' e :
  Rep pq w q fl -> Shutdown false pq w = (pq', w', e) ->
  Rep pq' w' q fl /\ pq_refClient pq' = pq_refClient pq - 1 /\ pq_stopped pq' = true.
Proof.
  intros HR Eu. apply unref_contents in Eu as [Hc ->]. unfold Rep. by rewrite Hc.
Qed.

(** ** Restarting *)

Lemma runOps_gets (D : list Z) st :
  runOps (map (fun i => GetOperation (getItemKey i)) D) st = (st, map (fun i => st !! getItemKey i) D).
Proof. induction D as [|i D IH]; [done|]. simpl. by rewrite IH. Qed.

Definition cleanup (D : list Z) (st : gmap string bytes) : gmap string bytes :=
  (runOps (map (fun i => DeleteOperation (getItemKey i)) D) st).1.

Lemma cleanup_cons i D st : cleanup (i :: D) st = cleanup D (delete (getItemKey i) st).
Proof. unfold cleanup. simpl. by destruct (runOps _ _). Qed.

Lemma cleanup_absent D st i : i ∈ D -> cleanup D st !! getItemKey i = None.
Proof.
  revert st. induction D as [|j D IH]; intros st Hi; [by apply not_elem_of_nil in Hi|]. rewrite cleanup_cons.
  destruct (decide (i ∈ D)) as [HD|HD]; [by apply IH|]. apply elem_of_cons in Hi as [->|?]; [|done].
  assert (Hk : forall st', st' !! getItemKey j = None -> cleanup D st' !! getItemKey j = None).
  { clear. induction D as [|k D IH]; intros st' H; [done|]. rewrite cleanup_cons. apply IH.
    apply lookup_delete_None. by right. }
  apply Hk, lookup_delete_eq.
Qed.

Lemma cleanup_other D st k : (forall i, i ∈ D -> getItemKey i <> k) -> cleanup D st !! k = st !! k.
Proof.
  revert st. induction D as [|j D IH]; intros st Hi; [done|]. rewrite cleanup_cons, IH.
  - rewrite lookup_delete_ne; [done|]. apply Hi. left.
  - intros i Hin. apply Hi. by right.
Qed.

Lemma Idx_cleanup st ri wi q fl D :
  idx st ri wi q fl -> Forall (fun i => 0 <= i < ri) D -> (forall i, i ∈ map fst fl -> i ∈ D) ->
  idx (cleanup D st) ri wi q [].
Proof.
  intros [Hri Hwi Hmax Hnd Hlt Hq Hfl Honly] HD Hsub.
  assert (Hne : forall i j, i ∈ D -> ri <= j -> getItemKey i <> getItemKey j).
  { intros i j Hi Hj E. eapply Forall_forall in Hi; [|exact HD]. simpl in Hi. apply getItemKey_inj in E; lia. }
  split; try done.
  - apply NoDup_nil_2.
  - intros k r Hk. destruct (Hq k r Hk) as (b & c & Hst & He). exists b, c. split; [|done].
    rewrite cleanup_other; [done|]. intros i Hi. apply Hne; [done|lia].
  - intros i r Hi. by apply not_elem_of_nil in Hi.
  - intros i Hi Hs. destruct (decide (i ∈ D)) as [HiD|HiD].
    { rewrite cleanup_absent in Hs by done. by destruct Hs. }
    rewrite cleanup_other in Hs.
    + destruct (Honly i Hi Hs) as [?|Hin]; [by left|]. by apply Hsub in Hin.
    + intros j Hj E. eapply Forall_forall in Hj as Hj'; [|exact HD]. simpl in Hj'.
      apply getItemKey_inj in E; [|lia..]. by subst.
Qed.

Definition decode (v : option bytes) : option T :=
  b ← v; match encUnmarshal b with inl (_, r) => Some r | inr _ => None end.

Lemma omap_decode st D : omap decode (map (fun i => st !! getItemKey i) D) = omap (lookupReq st) D.
Proof. induction D as [|i D IH]; csimpl; [done|]. by rewrite IH. Qed.

Local Abbreviation reput := (reEnqueue metaMarshal encMarshal encUnmarshal).

(** Putting the retrieved values back appends what they decode to; the indexes
    [D] stay unset. *)
Lemma reEnqueue_ok vals pq w q D b :
  let m := pq_metadata pq in
  idx (contents w) (md_ReadIndex m) (md_WriteIndex m) q [] -> md_wf m -> noLegacy (contents w) ->
  Forall (fun i => 0 <= i < md_ReadIndex m /\ contents w !! getItemKey i = None) D ->
  contents w !! metadataKey = Some b -> metaMarshal m = inl b ->
  md_WriteIndex m + Z.of_nat (length vals) < 2 ^ 63 ->
  exists pq' w' wi' b', reput vals pq w = (pq', w') /\
    let m' := set_WriteIndex m wi' in
    pq_metadata pq' = m' /\ pq_refClient pq' = pq_refClient pq /\ pq_stopped pq' = pq_stopped pq /\
    idx (contents w') (md_ReadIndex m) wi' (q ++ omap decode vals) [] /\ md_wf m' /\ noLegacy (contents w') /\
    Forall (fun i => 0 <= i < md_ReadIndex m /\ contents w' !! getItemKey i = None) D /\
    contents w' !! metadataKey = Some b' /\ metaMarshal m' = inl b'.
Proof.
  revert pq w q b. induction vals as [|v vals IH]; intros pq w q b m HI Hwf Hl HD Hb Hm Hmax.
  { exists pq, w, (md_WriteIndex m), b. subst m. destruct pq as [[] ref st sg]; simpl in *. by rewrite app_nil_r. }
  simpl length in Hmax. simpl. destruct v as [buf|]; [|apply (IH _ _ _ b); try done; subst m; simpl; lia]. simpl.
  destruct (encUnmarshal buf) as [[c r]|] eqn:Ee; [|apply (IH _ _ _ b); try done; subst m; simpl; lia].
  pose proof (idx_ri _ _ _ _ _ _ HI) as Hri. pose proof (idx_wi _ _ _ _ _ _ HI) as Hwi.
  set (m1 := set_WriteIndex m (md_WriteIndex m + 1)).
  assert (Hwf1 : md_wf m1).
  { destruct Hwf as (?&?&?&?&?). unfold md_wf, is_u64 in *; simpl. split_and!; try done; subst m; lia. }
  destruct (put_runs c r pq w m1) as (w1 & mb & b1 & c1 & -> & Hmb & _ & Hdec & Hw1); [done|subst m; lia|done|].
  destruct (IH (signal (set_metadata pq m1) SignalElements) w1 (q ++ [r]) mb)
    as (pq' & w' & wi' & b' & E & Hm' & H1 & H2 & H3 & H4 & H5 & H6 & H7 & H8); simpl; try done; try (subst m; lia).
  - rewrite Hw1. apply (Idx_put _ _ _ _ _ _ _ c1); [|subst m; lia|done].
    apply Idx_insert_other; auto with otel.
  - rewrite Hw1. repeat apply noLegacy_insert; auto with otel.
  - eapply Forall_impl; [exact HD|]. intros i [Hi Hn]. split; [done|]. rewrite Hw1.
    rewrite lookup_insert_ne by (subst m; intros E%getItemKey_inj; lia).
    rewrite lookup_insert_ne; [done|]. intros E. symmetry in E. by apply getItemKey_metadata in E.
  - rewrite Hw1, lookup_insert_ne by auto with otel. apply lookup_insert_eq.
  - exists pq', w', wi', b'. rewrite <- app_assoc in H3. simpl in *. done.
Qed.

(** The state a restarted queue is in: everything that was waiting, then
    everything that was dispatched. *)
Lemma enqueue_ok D pq w q fl b :
  let m := pq_metadata pq in
  idx (contents w) (md_ReadIndex m) (md_WriteIndex m) q fl -> md_Dispatched m = D -> md_wf m ->
  noLegacy (contents w) -> NoDup D -> Forall (fun i => 0 <= i < md_ReadIndex m) D ->
  omap (lookupReq (contents w)) D = map snd fl -> (forall i, i ∈ map fst fl -> i ∈ D) ->
  contents w !! metadataKey = Some b -> metaMarshal m = inl b ->
  md_WriteIndex m + Z.of_nat (length D) < 2 ^ 63 ->
  exists pq' w' wi', enqueueNotDispatchedReqs metaMarshal encMarshal encUnmarshal D pq w = (pq', w') /\
    let m' := set_WriteIndex m wi' in
    pq_metadata pq' = m' /\ pq_refClient pq' = pq_refClient pq /\ pq_stopped pq' = pq_stopped pq /\
    idx (contents w') (md_ReadIndex m) wi' (q ++ map snd fl) [] /\ noLegacy (contents w') /\
    Persisted (contents w') (set_Dispatched m' []) [].
Proof.
  intros m HI HD Hwf Hl Hnd HDlt Homap Hsub Hb Hm Hmax. unfold enqueueNotDispatchedReqs.
  destruct (Nat.eqb_spec (length D) 0) as [E0|_].
  { apply length_zero_iff_nil in E0. rewrite E0 in *. simpl in Homap.
    destruct fl as [|p fl]; [|done]. exists pq, w, (md_WriteIndex m). subst m.
    destruct pq as [[i by' ri wi dd] ref st sg]; simpl in *. rewrite app_nil_r. subst dd.
    split_and!; try done. exists [], b. split_and!; done. }
  destruct (batch_ok A (map (fun it => GetOperation (getItemKey it)) D) w) as (w1 & vs & Eb). rewrite Eb.
  apply law_Batch_ok in Eb. rewrite runOps_gets in Eb. injection Eb as Ew1 ->.
  destruct (batch_ok A (map (fun it => DeleteOperation (getItemKey it)) D) w1) as (w2 & vs2 & Eb). rewrite Eb.
  apply law_Batch_ok in Eb. rewrite Ew1 in Eb.
  assert (Ew2 : contents w2 = cleanup D (contents w)) by (unfold cleanup; by rewrite <- Eb).
  destruct (reEnqueue_ok (map (fun i => contents w !! getItemKey i) D) pq w2 q D b)
    as (pq' & w' & wi' & b' & -> & Hm' & Href & Hst & HI' & Hwf' & Hl' & HD' & Hb' & Hmb').
  - rewrite Ew2. by eapply Idx_cleanup.
  - done.
  - destruct Hl as (? & ? & ?). unfold noLegacy. rewrite Ew2, !cleanup_other by auto with otel. done.
  - rewrite Ew2. apply Forall_forall. intros i Hi. split; [by apply (proj1 (Forall_forall _ _) HDlt)|by apply cleanup_absent].
  - rewrite Ew2, cleanup_other by auto with otel. done.
  - done.
  - rewrite length_map. done.
  - exists pq', w', wi'. split; [done|]. simpl in *. split_and!; try done.
    + rewrite <- Homap, <- omap_decode. done.
    + exists D, b'. assert (Hset : set_Dispatched (set_Dispatched (set_WriteIndex m wi') []) D = set_WriteIndex m wi').
      { rewrite <- HD. by destruct m. }
      rewrite Hset. split_and!; try done; simpl.
      * clear -HD'. induction HD' as [|i D [_ Hn] _ IH]; csimpl; [done|].
        unfold lookupReq at 1. rewrite Hn. done.
      * intros i Hi. by apply not_elem_of_nil in Hi.
Qed.

(** With no metadata and no item stored, the queue starts empty. *)
Lemma legacy_empty pq w :
  pq_metadata pq = zeroMetadata -> idx (contents w) 0 0 [] [] -> noLegacy (contents w) ->
  exists pq' w', loadLegacyMetadata metaMarshal encMarshal encUnmarshal pq w = (pq', w') /\
    Rep pq' w' [] [] /\ pq_metadata pq' = zeroMetadata /\
    pq_refClient pq' = pq_refClient pq /\ pq_stopped pq' = pq_stopped pq.
Proof.
  intros Hm HI Hl. unfold loadLegacyMetadata. pose proof Hl as (Hr & Hw & Hd).
  match goal with |- context [client_Batch ?ops w] => destruct (batch_ok A ops w) as (w1 & vs & Eb) end.
  rewrite Eb. apply law_Batch_ok in Eb. simpl in Eb. injection Eb as Ew1 ->. rewrite Hr, Hw. simpl.
  rewrite Hm. change (set_WriteIndex (set_ReadIndex zeroMetadata 0) 0) with zeroMetadata.
  unfold retrieveAndEnqueueNotDispatchedReqs.
  destruct (get_ok A legacyCurrentlyDispatchedItemsKey w1) as (w2 & v & Eg). rewrite Eg.
  apply law_Get in Eg as [Ew2 Hv]. rewrite (Hv v eq_refl), Ew1, Hd. simpl.
  destruct (meta_roundtrip A zeroMetadata) as (mb & Hmb & _).
  { unfold md_wf, is_i64, is_u64; simpl. split_and!; try lia. constructor. }
  rewrite Hmb. destruct (set_ok A metadataKey mb w2) as (w3 & -> & Ew3).
  match goal with |- context [client_Batch ?ops w3] => destruct (batch_ok A ops w3) as (w4 & vs & Eb) end.
  rewrite Eb. apply law_Batch_ok in Eb. simpl in Eb. injection Eb as Ew4 _.
  eexists _, w4. split; [done|]. split; [|done]. unfold Rep; simpl.
  rewrite Ew4, Ew3, Ew2, Ew1. eapply RepM_write; simpl; try done.
  - repeat (apply Idx_delete_other; [auto with otel|]). apply Idx_insert_other; auto with otel.
  - rewrite !lookup_delete_ne by done. apply lookup_insert_eq.
  - repeat apply noLegacy_delete. by apply noLegacy_insert.
Qed.

(** Restarting from the storage alone recovers every request that was not done:
    the waiting ones in order, then the dispatched ones. *)
Lemma restart_ok pq w q fl :
  Rep pq w q fl -> md_WriteIndex (pq_metadata pq) < 2 ^ 62 ->
  exists pq' w', init newPersistentQueue w = (pq', w') /\ Rep pq' w' (q ++ map snd fl) [] /\
    pq_refClient pq' = 1 /\ pq_stopped pq' = false.
Proof.
  intros HR Hmax. destruct HR as [HI Hd Hi Hb [Hsi Hsb] (D & b & Hwf & Hst & Hmb & Hnd & HDlt & Homap & Hsub) Hl].
  set (m := pq_metadata pq) in *. unfold initClient, loadQueueMetadata.
  destruct (get_ok A metadataKey w) as (w1 & v & Eg). rewrite Eg.
  apply law_Get in Eg as [Ew1 Hv]. rewrite (Hv v eq_refl), Hst. simpl. rewrite <- Ew1 in *.
  pose proof (idx_ri _ _ _ _ _ _ HI) as Hri. pose proof (idx_wi _ _ _ _ _ _ HI) as Hwi.
  destruct (Nat.eqb_spec (length b) 0) as [E0|_].
  - apply length_zero_iff_nil in E0. subst b. apply (meta_empty A) in Hmb.
    assert (Hz : md_ReadIndex m = 0 /\ md_WriteIndex m = 0) by (unfold set_Dispatched in Hmb; by injection Hmb).
    destruct Hz as [Hr0 Hw0]. rewrite Hr0, Hw0 in *.
    assert (q = []) as -> by (destruct q; [done|simpl in Hwi; lia]).
    assert (fl = []) as ->.
    { destruct fl as [|[i r] fl]; [done|]. pose proof (Idx_bounds _ _ _ _ _ _ i r HI ltac:(left)). lia. }
    simpl. by destruct (legacy_empty (set_refClient newPersistentQueue 1) w1) as (pq' & w' & E & HR & _ & H1 & H2);
      [..|rewrite E; exists pq', w'].
  - destruct (meta_roundtrip A _ Hwf) as (b' & Hb' & Hun). rewrite Hb' in Hmb. injection Hmb as ->. rewrite Hun.
    destruct (enqueue_ok D (set_metadata (set_refClient newPersistentQueue 1) (set_Dispatched m D)) w1 q fl b)
      as (pq' & w' & wi' & E & Hm' & H1 & H2 & HI' & Hl' & HP'); simpl; try done.
    { pose proof (nodup_bound D (md_ReadIndex m) Hnd HDlt). lia. }
    simpl in E. rewrite E. eexists _, w'. split; [done|]. simpl in *. split; [|done].
    unfold Rep; simpl. rewrite Hm'. simpl in *. split; simpl; try done.
    + rewrite Hi. unfold total. simpl. by rewrite app_nil_r.
    + rewrite Hb. unfold total. simpl. by rewrite app_nil_r.
    + unfold total in *. simpl. by rewrite app_nil_r.
Qed.

(** The very first start. *)
Lemma fresh_ok w : contents w = ∅ ->
  exists pq' w', init newPersistentQueue w = (pq', w') /\ Rep pq' w' [] [] /\
    pq_refClient pq' = 1 /\ pq_stopped pq' = false.
Proof.
  intros Hw. unfold initClient, loadQueueMetadata.
  destruct (get_ok A metadataKey w) as (w1 & v & Eg). rewrite Eg.
  apply law_Get in Eg as [Ew1 Hv]. rewrite (Hv v eq_refl), Hw, lookup_empty. simpl.
  destruct (legacy_empty (set_refClient newPersistentQueue 1) w1) as (pq' & w' & E & HR & _ & H1 & H2); try done.
  - rewrite Ew1, Hw. split; try done.
    + apply NoDup_nil_2.
    + intros i r Hi. by apply not_elem_of_nil in Hi.
    + intros i _ [x Hx]. by rewrite lookup_empty in Hx.
  - rewrite Ew1, Hw. done.
  - rewrite E. by exists pq', w'.
Qed.

(** ** Runs *)

(** The reported size is the size of everything waiting or dispatched. *)
Lemma internalSize_rep st m q fl :
  RepM st m q fl -> internalSize sizerType m = total sizerType q fl.
Proof.
  intros [HI Hd Hi Hb _ _ _]. unfold internalSize.
  case_decide as E1; [by subst|]. case_decide as E2; [by subst|].
  rewrite (requestSize_rep _ _ _ _ HI Hd). unfold total.
  rewrite (sumZ_ext _ (fun _ => 1)).
  - rewrite sumZ_const, length_app, length_map. lia.
  - intros r _. unfold Sizeof. by rewrite !decide_False.
Qed.

(** What happens to the queue: the producers' and consumers' calls, one at a
    time because they hold the lock, and restarts.  A state carries the
    requests handed out whose [Done] was not called yet. *)
Inductive event :=
  | EvOffer (r : T) (accepted : bool)
  | EvRead (i : Z) (r : T)
  | EvIdle
  | EvDone (i : Z) (r : T) (err : option error)
  | EvShutdown
  | EvRestart.

Definition state := (pqueue * W * list (Z * T))%type.

(** Far from the end of the index space, and the sizes fit an int64. *)
Definition inRange (m : Metadata) (r : T) : Prop :=
  md_WriteIndex m < 2 ^ 62 /\ md_ItemsSize m + ItemsCount r < 2 ^ 63 /\ md_BytesSize m + BytesSize r < 2 ^ 63.

Inductive step : state -> event -> state -> Prop :=
  | step_offer c r pq w pend pq' w' res :
      inRange (pq_metadata pq) r -> offer c r pq w = (pq', w', res) ->
      step (pq, w, pend) (EvOffer r (match res with Offered None => true | _ => false end)) (pq', w', pend)
  | step_read pq w pend pq' w' i c r a b :
      read pq w = Some (pq', w', ReadItem i c r a b) ->
      step (pq, w, pend) (EvRead i r) (pq', w', pend ++ [(i, r)])
  | step_idle pq w pend pq' w' res :
      read pq w = Some (pq', w', res) -> (forall i c r a b, res <> ReadItem i c r a b) ->
      step (pq, w, pend) EvIdle (pq', w', pend)
  | step_done pq w pend pend' pq' w' i r err :
      pend ≡ₚ (i, r) :: pend' ->
      done i (Sizeof SizerTypeItems r) (Sizeof SizerTypeBytes r) err pq w = (pq', w') ->
      step (pq, w, pend) (EvDone i r err) (pq', w', pend')
  | step_shutdown pq w pend pq' w' e :
      pq_stopped pq = false -> Shutdown false pq w = (pq', w', e) ->
      step (pq, w, pend) EvShutdown (pq', w', pend)
  | step_restart pq w pend pq' w' :
      md_WriteIndex (pq_metadata pq) < 2 ^ 62 -> init newPersistentQueue w = (pq', w') ->
      step (pq, w, pend) EvRestart (pq', w', []).

(** A run from the first start over an empty storage; events oldest first. *)
Inductive run : list event -> state -> Prop :=
  | run_start w pq w' : contents w = ∅ -> init newPersistentQueue w = (pq, w') -> run [] (pq, w', [])
  | run_step tr s e s' : run tr s -> step s e s' -> run (tr ++ [e]) s'.

(** Executing calls one after another gives a run. *)
Inductive call :=
  | COffer (c : Ctx) (r : T)
  | CRead
  | CDone (k : nat) (err : option error)
  | CShutdown
  | CRestart.

Definition exec (cl : call) (s : state) : option (event * state) :=
  let '(pq, w, pend) := s in
  let m := pq_metadata pq in
  match cl with
  | COffer c r =>
      if (md_WriteIndex m <? 2 ^ 62) && (md_ItemsSize m + ItemsCount r <? 2 ^ 63)
         && (md_BytesSize m + BytesSize r <? 2 ^ 63) then
        let '(pq', w', res) := offer c r pq w in
        Some (EvOffer r (match res with Offered None => true | _ => false end), (pq', w', pend))
      else None
  | CRead =>
      match read pq w with
      | Some (pq', w', ReadItem i _ r _ _) => Some (EvRead i r, (pq', w', pend ++ [(i, r)]))
      | Some (pq', w', _) => Some (EvIdle, (pq', w', pend))
      | None => None
      end
  | CDone k err =>
      match pend !! k with
      | Some (i, r) =>
          let '(pq', w') := done i (Sizeof SizerTypeItems r) (Sizeof SizerTypeBytes r) err pq w in
          Some (EvDone i r err, (pq', w', delete k pend))
      | None => None
      end
  | CShutdown =>
      if pq_stopped pq then None
      else let '(pq', w', _) := Shutdown false pq w in Some (EvShutdown, (pq', w', pend))
  | CRestart =>
      if md_WriteIndex m <? 2 ^ 62 then
        let '(pq', w') := init newPersistentQueue w in Some (EvRestart, (pq', w', []))
      else None
  end.

#[local] Arguments Shutdown : simpl never.

Lemma exec_step cl s e s' : exec cl s = Some (e, s') -> step s e s'.
Proof.
  destruct s as [[pq w] pend]. destruct cl as [c r| |k err| |]; simpl; intros H.
  - destruct (Z.ltb_spec (md_WriteIndex (pq_metadata pq)) (2 ^ 62)); [|done].
    destruct (Z.ltb_spec (md_ItemsSize (pq_metadata pq) + ItemsCount r) (2 ^ 63)); [|done].
    destruct (Z.ltb_spec (md_BytesSize (pq_metadata pq) + BytesSize r) (2 ^ 63)); [|done]. cbn [andb] in H.
    destruct (offer c r pq w) as [[pq' w'] res] eqn:E. injection H as <- <-. by eapply step_offer.
  - destruct (read pq w) as [[[pq' w'] res]|] eqn:E; [|done].
    destruct res; injection H as <- <-; try (by eapply step_read); by eapply step_idle.
  - destruct (pend !! k) as [[i r]|] eqn:Ek; [|done].
    destruct (done i _ _ err pq w) as [pq' w'] eqn:E. injection H as <- <-.
    eapply step_done; [|exact E]. by apply delete_Permutation.
  - destruct (pq_stopped pq) eqn:Hs; [done|]. destruct (Shutdown false pq w) as [[pq' w'] e'] eqn:E.
    injection H as <- <-. by eapply step_shutdown.
  - destruct (Z.ltb_spec (md_WriteIndex (pq_metadata pq)) (2 ^ 62)); [|done].
    destruct (init newPersistentQueue w) as [pq' w'] eqn:E. injection H as <- <-. by eapply step_restart.
Qed.

Fixpoint execAll (cs : list call) (s : state) : option (list event * state) :=
  match cs with
  | [] => Some ([], s)
  | c :: cs =>
      '(e, s1) ← exec c s; '(es, s2) ← execAll cs s1; Some (e :: es, s2)
  end.

Lemma execAll_run cs tr s es s' : run tr s -> execAll cs s = Some (es, s') -> run (tr ++ es) s'.
Proof.
  revert tr s es. induction cs as [|c cs IH]; intros tr s es Hr H; simpl in H.
  - injection H as <- <-. by rewrite app_nil_r.
  - destruct (exec c s) as [[e s1]|] eqn:E; [|done]. simpl in H.
    destruct (execAll cs s1) as [[es1 s2]|] eqn:E2; [|done]. simpl in H. injection H as <- <-.
    replace (tr ++ e :: es1) with ((tr ++ [e]) ++ es1) by (by rewrite <- app_assoc).
    eapply IH; [|exact E2]. eapply run_step; [exact Hr|]. by apply exec_step in E.
Qed.

Definition acceptedOf (e : event) : list T :=
  match e with EvOffer r true => [r] | _ => [] end.
Definition finishedOf (e : event) : list T :=
  match e with EvDone _ r err => if IsShutdownErr err then [] else [r] | _ => [] end.
Definition readOf (e : event) : list T :=
  match e with EvRead _ r => [r] | _ => [] end.

Definition accepted (tr : list event) : list T := flat_map acceptedOf tr.
Definition finished (tr : list event) : list T := flat_map finishedOf tr.
Definition delivered (tr : list event) : list T := flat_map readOf tr.

(** What holds after every event. *)
Record Good (tr : list event) (s : state) (q : list T) (fl rest : list (Z * T)) : Prop := {
  good_rep : Rep s.1.1 s.1.2 q fl;
  good_account : accepted tr ≡ₚ finished tr ++ q ++ map snd fl;
  good_pend : fl ≡ₚ s.2 ++ rest;
  good_ref : pq_refClient s.1.1 = (if pq_stopped s.1.1 then 0 else 1) + Z.of_nat (length s.2);
  good_fifo : EvRestart ∉ tr -> accepted tr = delivered tr ++ q;
  good_size : 0 <= capacity -> total sizerType q fl <= capacity;
}.

Lemma flat_map_snoc {B} (f : event -> list B) tr e : flat_map f (tr ++ [e]) = flat_map f tr ++ f e.
Proof. rewrite flat_map_app. simpl. by rewrite app_nil_r. Qed.

Lemma accepted_snoc tr e : accepted (tr ++ [e]) = accepted tr ++ acceptedOf e.
Proof. apply flat_map_snoc. Qed.
Lemma finished_snoc tr e : finished (tr ++ [e]) = finished tr ++ finishedOf e.
Proof. apply flat_map_snoc. Qed.
Lemma delivered_snoc tr e : delivered (tr ++ [e]) = delivered tr ++ readOf e.
Proof. apply flat_map_snoc. Qed.

Lemma total_perm szt q fl q' fl' : q ++ map snd fl ≡ₚ q' ++ map snd fl' -> total szt q fl = total szt q' fl'.
Proof. apply sumZ_permutation. Qed.

Lemma not_restart_app tr e : EvRestart ∉ tr ++ [e] -> EvRestart ∉ tr /\ e <> EvRestart.
Proof. rewrite not_elem_of_app, list_elem_of_singleton. naive_solver. Qed.

Lemma good_offer tr pq w pend q fl rest c r pq' w' res :
  Good tr (pq, w, pend) q fl rest -> inRange (pq_metadata pq) r -> offer c r pq w = (pq', w', res) ->
  exists q', Good (tr ++ [EvOffer r (match res with Offered None => true | _ => false end)])
    (pq', w', pend) q' fl rest.
Proof.
  intros [HR Hacc Hp Hr Hf Hs] (Hwi & Hit & Hby) E; simpl in *.
  pose proof HR as [HI Hd Hi Hb [Hsi Hsb] _ _].
  pose proof (internalSize_rep _ _ _ _ HR) as Hsz.
  destruct (Z_le_gt_dec (i64 (internalSize sizerType (pq_metadata pq) + Sizeof sizerType r)) capacity) as [Hle|Hgt].
  - destruct (Offer_accepts c r pq w q fl HR Hle) as (pq1 & w1 & E1 & HR1 & Href & Hst & _).
    { lia. }
    { rewrite total_app, <- Hi. exact Hit. }
    { rewrite total_app, <- Hb. exact Hby. }
    rewrite E in E1. injection E1 as -> -> ->. exists (q ++ [r]).
    split; simpl; rewrite ?accepted_snoc, ?finished_snoc, ?delivered_snoc; simpl; rewrite ?app_nil_r.
    + done.
    + rewrite Hacc. solve_Permutation.
    + done.
    + by rewrite Href, Hst.
    + intros [Hn _]%not_restart_app. rewrite (Hf Hn). by rewrite app_assoc.
    + intros Hc. rewrite total_app, <- Hsz. specialize (Hs Hc).
      pose proof (total_nonneg sizerType q fl). pose proof (Sizeof_nonneg sizerType r).
      rewrite i64_id in Hle; [done|]. rewrite Hsz. split; [lia|].
      rewrite Hsz in Hle. unfold Sizeof in *. unfold is_i64 in *.
      repeat case_decide; subst; try lia.
      pose proof (flight_bound _ _ _ _ _ HI). pose proof (idx_wi _ _ _ _ _ _ HI).
      rewrite <- Hsz. unfold internalSize. rewrite !decide_False by done.
      rewrite (requestSize_rep _ _ _ _ HI Hd). pose proof (idx_ri _ _ _ _ _ _ HI). lia.
  - rewrite Offer_full in E by lia. injection E as <- <- <-. exists q.
    split; simpl; rewrite ?accepted_snoc, ?finished_snoc, ?delivered_snoc; destruct blockOnOverflow; simpl; rewrite ?app_nil_r; try done;
      intros [Hn _]%not_restart_app; auto.
Qed.

Lemma read_cases tr pq w pend q fl rest pq' w' res :
  Good tr (pq, w, pend) q fl rest -> read pq w = Some (pq', w', res) ->
  (pq' = pq /\ w' = w /\ (res = ReadStopped \/ (q = [] /\ res = ReadWaits))) \/
  exists i c r q', q = r :: q' /\
    res = ReadItem i c r (Sizeof SizerTypeItems r) (Sizeof SizerTypeBytes r) /\
    Rep pq' w' q' (fl ++ [(i, r)]) /\ pq_refClient pq' = pq_refClient pq + 1 /\
    pq_stopped pq' = false /\ pq_stopped pq = false.
Proof.
  intros [HR _ _ _ _ _] E; simpl in *. destruct (pq_stopped pq) eqn:Hs.
  - unfold Read in E. rewrite Hs in E. injection E as <- <- <-. auto.
  - destruct q as [|r q'].
    + rewrite (Read_empty _ _ _ HR Hs) in E. injection E as <- <- <-. left. auto.
    + destruct (Read_takes _ _ _ _ _ HR Hs) as (pq1 & w1 & c & E1 & HR1 & Href & Hst & _).
      rewrite E in E1. injection E1 as -> -> ->. right. eexists _, c, r, q'. eauto 10.
Qed.

Lemma good_read tr pq w pend q fl rest pq' w' i c r a b :
  Good tr (pq, w, pend) q fl rest -> read pq w = Some (pq', w', ReadItem i c r a b) ->
  exists q' fl', Good (tr ++ [EvRead i r]) (pq', w', pend ++ [(i, r)]) q' fl' rest.
Proof.
  intros HG E. destruct (read_cases _ _ _ _ _ _ _ _ _ _ HG E)
    as [(_ & _ & [?|[_ ?]])|(i' & c' & r' & q' & -> & [= <- <- <- -> ->] & HR1 & Href & Hst' & Hst)]; try done.
  destruct HG as [HR Hacc Hp Hr Hf Hs]; simpl in *. exists q', (fl ++ [(i, r)]).
  split; simpl; rewrite ?accepted_snoc, ?finished_snoc, ?delivered_snoc; simpl; rewrite ?app_nil_r.
  - done.
  - rewrite Hacc, map_app. simpl. solve_Permutation.
  - rewrite Hp. solve_Permutation.
  - rewrite Href, Hst', Hr, Hst, length_app. simpl. lia.
  - intros [Hn _]%not_restart_app. rewrite (Hf Hn). by rewrite <- app_assoc.
  - intros Hc. rewrite total_read. auto.
Qed.

Lemma good_done tr pq w pend pend' q fl rest pq' w' i r err :
  Good tr (pq, w, pend) q fl rest -> pend ≡ₚ (i, r) :: pend' ->
  done i (Sizeof SizerTypeItems r) (Sizeof SizerTypeBytes r) err pq w = (pq', w') ->
  exists fl' rest', Good (tr ++ [EvDone i r err]) (pq', w', pend') q fl' rest'.
Proof.
  intros [HR Hacc Hp Hr Hf Hs] Hpend E; simpl in *.
  assert (Hlen : Z.of_nat (length pend) = 1 + Z.of_nat (length pend')) by (rewrite Hpend; simpl; lia).
  assert (Hin : (i, r) ∈ fl) by (rewrite Hp, Hpend; left).
  destruct (IsShutdownErr err) eqn:He.
  - destruct (onDone_shutdown i (Sizeof SizerTypeItems r) (Sizeof SizerTypeBytes r) _ _ _ _ _ HR He)
      as (pq1 & w1 & E1 & HR1 & Href & Hst & _). rewrite E in E1. injection E1 as -> ->.
    exists fl, ((i, r) :: rest).
    split; simpl; rewrite ?accepted_snoc, ?finished_snoc, ?delivered_snoc; simpl; rewrite ?He, ?app_nil_r; try done.
    + rewrite Hp, Hpend. solve_Permutation.
    + rewrite Href, Hst. lia.
    + intros [Hn _]%not_restart_app. auto.
  - destruct (onDone_removes i r _ _ _ _ _ HR Hin He) as (pq1 & w1 & fl' & E1 & Hperm & HR1 & Href & Hst & _).
    rewrite E in E1. injection E1 as -> ->. exists fl', rest.
    assert (Hsnd : map snd fl ≡ₚ r :: map snd fl') by (apply (Permutation_map snd) in Hperm; done).
    split; simpl; rewrite ?accepted_snoc, ?finished_snoc, ?delivered_snoc; simpl; rewrite ?He, ?app_nil_r; try done.
    + rewrite Hacc, Hsnd. solve_Permutation.
    + rewrite Hp, Hpend in Hperm. simpl in Hperm. by apply Permutation_cons_inv in Hperm.
    + rewrite Href, Hst. lia.
    + intros [Hn _]%not_restart_app. auto.
    + intros Hc. specialize (Hs Hc). rewrite (total_done _ _ _ _ _ _ Hperm) in Hs.
      pose proof (Sizeof_nonneg sizerType r). lia.
Qed.

Lemma good_restart tr pq w pend q fl rest pq' w' :
  Good tr (pq, w, pend) q fl rest -> md_WriteIndex (pq_metadata pq) < 2 ^ 62 ->
  init newPersistentQueue w = (pq', w') ->
  Good (tr ++ [EvRestart]) (pq', w', []) (q ++ map snd fl) [] [].
Proof.
  intros [HR Hacc Hp Hr Hf Hs] Hmax E; simpl in *.
  destruct (restart_ok _ _ _ _ HR Hmax) as (pq1 & w1 & E1 & HR1 & Href & Hst).
  rewrite E in E1. injection E1 as -> ->.
  split; simpl; rewrite ?accepted_snoc, ?finished_snoc, ?delivered_snoc; simpl; rewrite ?app_nil_r; try done.
  - by rewrite Href, Hst.
  - intros [_ Hn]%not_restart_app. done.
  - unfold total in *. simpl. by rewrite app_nil_r.
Qed.

Lemma run_good tr s : run tr s -> exists q fl rest, Good tr s q fl rest.
Proof.
  induction 1 as [w pq w' Hw E|tr s e s' _ (q & fl & rest & HG) Hstep].
  - destruct (fresh_ok w Hw) as (pq1 & w1 & E1 & HR & Href & Hst). rewrite E in E1. injection E1 as -> ->.
    exists [], [], []. split; simpl; try done. by rewrite Href, Hst.
  - destruct Hstep as [c r pq w pend pq' w' res Hin E|pq w pend pq' w' i c r a b E|pq w pend pq' w' res E Hni
                      |pq w pend pend' pq' w' i r err Hpend E|pq w pend pq' w' e' Hst E|pq w pend pq' w' Hmax E].
    + destruct (good_offer _ _ _ _ _ _ _ _ _ _ _ _ HG Hin E) as (q' & HG'). eauto.
    + destruct (good_read _ _ _ _ _ _ _ _ _ _ _ _ _ _ HG E) as (q' & fl' & HG'). eauto.
    + exists q, fl, rest.
      destruct (read_cases _ _ _ _ _ _ _ _ _ _ HG E) as [(-> & -> & _)|(i & c & r & q' & _ & -> & _)];
        [|by edestruct Hni].
      destruct HG as [HR Hacc Hp Hr Hf Hs].
      split; simpl; rewrite ?accepted_snoc, ?finished_snoc, ?delivered_snoc; simpl; rewrite ?app_nil_r; try done.
      intros [Hn _]%not_restart_app. auto.
    + destruct (good_done _ _ _ _ _ _ _ _ _ _ _ _ _ HG Hpend E) as (fl' & rest' & HG'). eauto.
    + exists q, fl, rest. destruct HG as [HR Hacc Hp Hr Hf Hs]. simpl in *.
      destruct (Shutdown_rep _ _ _ _ _ _ _ HR E) as (HR1 & Href & Hst').
      split; simpl; rewrite ?accepted_snoc, ?finished_snoc, ?delivered_snoc; simpl; rewrite ?app_nil_r; try done.
      * rewrite Href, Hst', Hr, Hst. lia.
      * intros [Hn _]%not_restart_app. auto.
    + eexists _, _, _. by eapply good_restart.
Qed.

(** Reading until nothing is left, the requests in the order they come. *)
Fixpoint readAll (n : nat) (pq : pqueue) (w : W) : list T * option (ReadResult (Ctx := Ctx)) :=
  match n with
  | O => ([], None)
  | S n =>
      match read pq w with
      | Some (pq', w', ReadItem i c r a b) => let '(l, last) := readAll n pq' w' in (r :: l, last)
      | Some (_, _, res) => ([], Some res)
      | None => ([], None)
      end
  end.

Lemma readAll_rep pq w q fl :
  Rep pq w q fl -> pq_stopped pq = false -> readAll (S (length q)) pq w = (q, Some ReadWaits).
Proof.
  revert pq w fl. induction q as [|r q IH]; intros pq w fl HR Hs.
  - simpl. by rewrite (Read_empty _ _ _ HR Hs).
  - destruct (Read_takes _ _ _ _ _ HR Hs) as (pq1 & w1 & c & E1 & HR1 & _ & Hst & _).
    cbn [readAll length]. rewrite E1. pose proof (IH _ _ _ HR1 Hst) as IH1. cbn [readAll] in IH1. rewrite IH1. done.
Qed.

(** C13: The persistent queue loses no request.  After any sequence of offers,
    reads, completions, shutdowns and restarts over a storage that answers,
    restarting from the storage and reading until the queue is empty gives
    exactly the accepted requests that were not completed (a completion with a
    shutdown error is none). *)
Theorem persistent_no_loss tr pq w pend :
  run tr (pq, w, pend) -> md_WriteIndex (pq_metadata pq) < 2 ^ 62 ->
  exists pq' w' n recovered, init newPersistentQueue w = (pq', w') /\
    readAll n pq' w' = (recovered, Some ReadWaits) /\
    accepted tr ≡ₚ finished tr ++ recovered.
Proof.
  intros (q & fl & rest & [HR Hacc _ _ _ _])%run_good Hmax; simpl in *.
  destruct (restart_ok _ _ _ _ HR Hmax) as (pq' & w' & E & HR' & _ & Hst).
  eexists pq', w', _, _. split; [exact E|]. split; [by eapply readAll_rep|done].
Qed.

(** C14: Between restarts the persistent queue is first in, first out: the requests
    handed to the consumers are a prefix of the accepted ones, in their order. *)
Theorem persistent_fifo tr s :
  run tr s -> EvRestart ∉ tr -> delivered tr `prefix_of` accepted tr.
Proof. intros (q & fl & rest & [_ _ _ _ Hf _])%run_good Hn. exists q. auto. Qed.

(** The reported size never exceeds the capacity, and the storage client is
    referenced once for the producers, until the shutdown, and once for every
    request handed out and not completed. *)
Theorem persistent_size_and_refs tr pq w pend :
  run tr (pq, w, pend) -> 0 <= capacity ->
  Size sizerType pq <= capacity /\
  pq_refClient pq = (if pq_stopped pq then 0 else 1) + Z.of_nat (length pend).
Proof.
  intros (q & fl & rest & [HR _ _ Href _ Hs])%run_good Hc. split; [|done].
  unfold Size. simpl in *. rewrite (internalSize_rep _ _ _ _ HR). auto.
Qed.
End Reliable.
