(* ===== verification/PersistentQueueFailures.v ===== *)
(** * The persistent queue over a storage that may fail

    [MemInv] is what the queue's memory satisfies whatever the storage client
    answers; the examples at the end show what a failing or partly written
    storage does to a restarted queue.  Concrete clients instantiate the
    interface: one that always answers and one that follows a script. *)

From S2P Require Import Prelude Errors Sizers PersistentQueue PersistentQueueProofs.
Local Open Scope Z_scope.

(** ** Invariant of the memory under any storage behaviour *)
Section AnyClient.
Context {W T Ctx : Type} `{!Client W} `{!Request T}.
Context (capacity : Z) (sizerType : SizerType) (blockOnOverflow : bool).
Context (metaMarshal : Metadata -> bytes + error).
Context (encMarshal : Ctx -> T -> bytes + error) (encUnmarshal : bytes -> (Ctx * T) + error).
Hypothesis items_nonneg : forall r : T, 0 <= ItemsCount r.
Hypothesis bytes_nonneg : forall r : T, 0 <= BytesSize r.

Local Abbreviation put := (putInternal metaMarshal encMarshal).
Local Abbreviation offer := (Offer capacity sizerType blockOnOverflow metaMarshal encMarshal).
Local Abbreviation read := (Read metaMarshal encUnmarshal).
Local Abbreviation next := (getNextItem metaMarshal encUnmarshal).
Local Abbreviation done := (onDone metaMarshal).
Local Abbreviation finish := (itemDispatchingFinish metaMarshal).

(** The indexes are ordered, the dispatched ones are distinct and lie below the
    read index, the sizes are not negative, and a drained queue has size 0. *)
Record MetaInv (m : Metadata) : Prop := {
  mi_idx : 0 <= md_ReadIndex m <= md_WriteIndex m;
  mi_max : md_WriteIndex m < 2 ^ 63;
  mi_nodup : NoDup (md_Dispatched m);
  mi_lt : Forall (fun i => 0 <= i < md_ReadIndex m) (md_Dispatched m);
  mi_items : 0 <= md_ItemsSize m < 2 ^ 63;
  mi_bytes : 0 <= md_BytesSize m < 2 ^ 63;
}.

Definition drainedOk (m : Metadata) : Prop :=
  requestSize m = 0 -> md_ItemsSize m = 0 /\ md_BytesSize m = 0.

Lemma requestSize_val m : MetaInv m ->
  requestSize m = md_WriteIndex m - md_ReadIndex m + Z.of_nat (length (md_Dispatched m)).
Proof.
  intros [Hi Hm Hnd Hlt _ _]. pose proof (nodup_bound _ _ Hnd Hlt). unfold requestSize.
  rewrite u64_id by (unfold is_u64; lia).
  rewrite (i64_id (md_WriteIndex m - md_ReadIndex m)) by (unfold is_i64; lia).
  rewrite i64_id; unfold is_i64; lia.
Qed.

Lemma syncDrained_inv m : MetaInv m -> MetaInv (syncDrained m) /\ drainedOk (syncDrained m) /\
  md_ReadIndex (syncDrained m) = md_ReadIndex m /\ md_WriteIndex (syncDrained m) = md_WriteIndex m /\
  md_Dispatched (syncDrained m) = md_Dispatched m.
Proof.
  intros HI. unfold syncDrained. destruct (Z.eqb_spec (requestSize m) 0) as [E|E].
  - split; [|done]. destruct HI. by split; simpl.
  - split; [done|]. by split.
Qed.

Lemma swapRemove_sub i l : NoDup l -> NoDup (swapRemove i l) /\ (forall x, x ∈ swapRemove i l <-> x ∈ l /\ x <> i).
Proof.
  intros Hnd. destruct (decide (i ∈ l)) as [Hin|Hin].
  - pose proof (swapRemove_perm i l Hin) as Hp. rewrite Hp in Hnd. apply NoDup_cons in Hnd as [Hni Hnd].
    split; [done|]. intros x.
    assert (Hx : x ∈ l <-> x ∈ i :: swapRemove i l) by (by rewrite <- Hp).
    rewrite Hx, elem_of_cons. set_solver.
  - rewrite swapRemove_notin by done. split; [done|]. set_solver.
Qed.

(** [itemDispatchingFinish] has the same effect on the memory whatever the
    storage answers. *)
Lemma finish_memory i pq w pq' w' e :
  finish i pq w = (pq', w', e) ->
  pq' = set_metadata pq (syncDrained (set_Dispatched (pq_metadata pq) (swapRemove i (md_Dispatched (pq_metadata pq))))).
Proof. unfold itemDispatchingFinish. intros H. repeat (break_match_in H; simplify_eq/=); done. Qed.

Lemma finish_inv i pq w pq' w' e :
  MetaInv (pq_metadata pq) -> finish i pq w = (pq', w', e) ->
  let m := pq_metadata pq in let m' := pq_metadata pq' in
  MetaInv m' /\ drainedOk m' /\ md_ReadIndex m' = md_ReadIndex m /\ md_WriteIndex m' = md_WriteIndex m /\
  (forall x, x ∈ md_Dispatched m' <-> x ∈ md_Dispatched m /\ x <> i) /\
  pq_refClient pq' = pq_refClient pq /\ pq_stopped pq' = pq_stopped pq.
Proof.
  intros HI E. apply finish_memory in E as ->. destruct HI as [Hi Hm Hnd Hlt Hit Hby].
  destruct (swapRemove_sub i _ Hnd) as [Hnd' Hel].
  set (m1 := set_Dispatched _ _). assert (H1 : MetaInv m1).
  { split; simpl; try done. apply Forall_forall. intros x [Hx _]%Hel. by apply (proj1 (Forall_forall _ _) Hlt). }
  apply syncDrained_inv in H1 as (H1 & H2 & H3 & H4 & H5). simpl. rewrite H5. done.
Qed.

(** [getNextItem] takes one index, and gives up on it when the storage or the
    encoding fails. *)
Lemma next_inv pq w pq' w' res :
  MetaInv (pq_metadata pq) -> md_ReadIndex (pq_metadata pq) < md_WriteIndex (pq_metadata pq) ->
  next pq w = (pq', w', res) ->
  let m := pq_metadata pq in let m' := pq_metadata pq' in
  MetaInv m' /\ md_ReadIndex m' = md_ReadIndex m + 1 /\ md_WriteIndex m' = md_WriteIndex m /\
  (forall x, x ∈ md_Dispatched m -> x ∈ md_Dispatched m') /\ pq_stopped pq' = pq_stopped pq /\
  match res with
  | Some (i, _, _) => i = md_ReadIndex m /\ i ∈ md_Dispatched m' /\ pq_refClient pq' = pq_refClient pq + 1
  | None => pq_refClient pq' = pq_refClient pq
  end.
Proof.
  intros HI Hlt' E. unfold getNextItem in E. pose proof HI as [Hi Hm Hnd Hlt Hit Hby].
  rewrite u64_id in E by (unfold is_u64; lia). set (m1 := set_Dispatched _ _) in E.
  assert (Hni : md_ReadIndex (pq_metadata pq) ∉ md_Dispatched (pq_metadata pq)).
  { intros Hin. apply (proj1 (Forall_forall _ _) Hlt) in Hin. simpl in Hin. lia. }
  assert (H1 : MetaInv m1).
  { split; simpl; try done; try lia.
    - apply NoDup_app. split_and!; [done| |apply NoDup_singleton]. intros x Hx Hx'.
      apply list_elem_of_singleton in Hx'. by subst.
    - apply Forall_app. split; [|repeat constructor; lia].
      eapply Forall_impl; [exact Hlt|]. intros x; simpl; lia. }
  assert (Hsub : forall x, x ∈ md_Dispatched (pq_metadata pq) -> x ∈ md_Dispatched m1) by (simpl; set_solver).
  destruct (metaMarshal m1) as [mb|]; [|simplify_eq/=; by split_and!].
  destruct (client_Batch _ w) as [w1 r] eqn:Eb.
  match type of E with context [match ?x with inl _ => _ | inr _ => _ end] => destruct x as [[c req]|err] eqn:Er end.
  - injection E as <- <- <-. simpl. split_and!; try done. set_solver.
  - destruct (finish _ _ w1) as [[pq2 w2] e2] eqn:Ef. injection E as <- <- <-.
    apply finish_inv in Ef as (F1 & F2 & F3 & F4 & F5 & F6 & F7); [|done]. simpl in *.
    split_and!; try done. intros x Hx. apply F5. split; [set_solver|]. intros ->. done.
Qed.

(** ** [Read] terminates *)

Lemma next_indexes pq w pq' w' res :
  next pq w = (pq', w', res) ->
  md_ReadIndex (pq_metadata pq') = u64 (md_ReadIndex (pq_metadata pq) + 1) /\
  md_WriteIndex (pq_metadata pq') = md_WriteIndex (pq_metadata pq).
Proof.
  unfold getNextItem. intros E. set (m1 := set_Dispatched _ _) in E.
  destruct (metaMarshal m1) as [mb|]; [|by simplify_eq/=].
  destruct (client_Batch _ w) as [w1 r] eqn:Eb.
  match type of E with context [match ?x with inl _ => _ | inr _ => _ end] => destruct x as [[c req]|err] eqn:Er end.
  - by simplify_eq/=.
  - destruct (finish _ _ w1) as [[pq2 w2] e2] eqn:Ef. injection E as <- <- <-.
    apply finish_memory in Ef as ->. simpl. unfold syncDrained. by destruct (_ =? 0).
Qed.

Lemma u64_sub_succ wi ri :
  is_u64 wi -> is_u64 ri -> ri <> wi -> u64 (wi - u64 (ri + 1)) = u64 (wi - ri) - 1.
Proof.
  unfold is_u64, u64. intros Hw Hr Hne. rewrite Zminus_mod_idemp_r.
  destruct (Z_lt_le_dec ri wi).
  - rewrite !Z.mod_small; lia.
  - rewrite <- (Z_mod_plus_full (wi - (ri + 1)) 1), <- (Z_mod_plus_full (wi - ri) 1).
    rewrite !Z.mod_small; lia.
Qed.

Lemma readLoop_total fuel pq w :
  is_u64 (md_ReadIndex (pq_metadata pq)) -> is_u64 (md_WriteIndex (pq_metadata pq)) ->
  u64 (md_WriteIndex (pq_metadata pq) - md_ReadIndex (pq_metadata pq)) <= Z.of_nat fuel ->
  exists pq' w' res, readLoop metaMarshal encUnmarshal fuel pq w = Some (pq', w', res).
Proof.
  revert pq w. induction fuel as [|fuel IH]; intros pq w Hr Hw Hf; simpl;
    (destruct (Z.eqb_spec (md_ReadIndex (pq_metadata pq)) (md_WriteIndex (pq_metadata pq))) as [|Hne]; [eauto|]).
  - pose proof (u64_sub_succ _ _ Hw Hr Hne) as Hs.
    pose proof (u64_range (md_WriteIndex (pq_metadata pq) - u64 (md_ReadIndex (pq_metadata pq) + 1))) as [? _]. lia.
  - destruct (next pq w) as [[pq1 w1] res] eqn:En. apply next_indexes in En as [E1 E2].
    destruct res as [[[i c] r]|]; [eauto|].
    assert (Hs : forall m, md_ReadIndex (syncDrained m) = md_ReadIndex m /\ md_WriteIndex (syncDrained m) = md_WriteIndex m)
      by (intros m; unfold syncDrained; by destruct (_ =? 0)).
    destruct (Hs (pq_metadata pq1)) as [S1 S2].
    apply IH; simpl; rewrite ?S1, ?S2, ?E1, ?E2; auto with otel.
    rewrite u64_sub_succ by done. lia.
Qed.

(** C32: [Read] of the persistent queue always returns or waits: its loop over
    unreadable items ends, whatever the storage and the encodings answer, also
    when the indexes have wrapped around. *)
Theorem persistent_read_terminates pq w :
  is_u64 (md_ReadIndex (pq_metadata pq)) -> is_u64 (md_WriteIndex (pq_metadata pq)) ->
  exists pq' w' res, read pq w = Some (pq', w', res).
Proof.
  intros Hr Hw. unfold Read. destruct (pq_stopped pq); [eauto|]. apply readLoop_total; [done..|].
  pose proof (u64_range (md_WriteIndex (pq_metadata pq) - md_ReadIndex (pq_metadata pq))) as [? _]. lia.
Qed.

(** ** Runs with failures *)

(** The memory of the queue and the requests handed out. *)
Record MemInv (pq : pqueue) (pend : list Z) : Prop := {
  mem_meta : MetaInv (pq_metadata pq);
  mem_drained : drainedOk (pq_metadata pq);
  mem_pend : NoDup pend;
  mem_sub : forall i, i ∈ pend -> i ∈ md_Dispatched (pq_metadata pq);
  mem_ref : pq_refClient pq = (if pq_stopped pq then 0 else 1) + Z.of_nat (length pend);
}.

(** The calls, with any outcome of the storage operations inside them. *)
Inductive fstep : pqueue * W * list Z -> pqueue * W * list Z -> Prop :=
  | fstep_offer c r pq w pend pq' w' res :
      md_WriteIndex (pq_metadata pq) < 2 ^ 63 - 1 ->
      md_ItemsSize (pq_metadata pq) + ItemsCount r < 2 ^ 63 ->
      md_BytesSize (pq_metadata pq) + BytesSize r < 2 ^ 63 ->
      offer c r pq w = (pq', w', res) -> fstep (pq, w, pend) (pq', w', pend)
  | fstep_read pq w pend pq' w' res :
      read pq w = Some (pq', w', res) ->
      fstep (pq, w, pend) (pq', w', match res with ReadItem i _ _ _ _ => pend ++ [i] | _ => pend end)
  | fstep_done pq w pend pend' pq' w' i a b err :
      pend ≡ₚ i :: pend' -> 0 <= a < 2 ^ 62 -> 0 <= b < 2 ^ 62 ->
      done i a b err pq w = (pq', w') -> fstep (pq, w, pend) (pq', w', pend')
  | fstep_shutdown pq w pend pq' w' e :
      pq_stopped pq = false -> Shutdown false pq w = (pq', w', e) -> fstep (pq, w, pend) (pq', w', pend).

Lemma put_memory c r pq w pq' w' e :
  put c r pq w = (pq', w', e) ->
  pq_metadata pq' = set_WriteIndex (pq_metadata pq) (u64 (md_WriteIndex (pq_metadata pq) + 1)) /\
  pq_refClient pq' = pq_refClient pq /\ pq_stopped pq' = pq_stopped pq.
Proof. unfold putInternal. intros H. repeat (break_match_in H; simplify_eq/=); done. Qed.

Lemma unref_memory pq w pq' w' e :
  unrefClient pq w = (pq', w', e) -> pq' = set_refClient pq (pq_refClient pq - 1).
Proof. unfold unrefClient. simpl. destruct (_ =? 0); [destruct (client_Close w)|]; by intros [= <- <- <-]. Qed.

Lemma offer_mem pq w pend c r pq' w' res :
  MemInv pq pend -> md_WriteIndex (pq_metadata pq) < 2 ^ 63 - 1 ->
  md_ItemsSize (pq_metadata pq) + ItemsCount r < 2 ^ 63 ->
  md_BytesSize (pq_metadata pq) + BytesSize r < 2 ^ 63 ->
  offer c r pq w = (pq', w', res) -> MemInv pq' pend.
Proof.
  intros [[Hi Hm Hnd Hlt Hit Hby] Hd Hp Hs Hr] Hwi Hti Htb E. unfold Offer in E.
  destruct (_ <? _); [destruct blockOnOverflow; by injection E as <- <- <-|].
  pose proof (items_nonneg r). pose proof (bytes_nonneg r).
  change (Sizeof SizerTypeItems r) with (ItemsCount r) in E. change (Sizeof SizerTypeBytes r) with (BytesSize r) in E.
  rewrite !i64_id in E by (unfold is_i64; lia).
  destruct (put c r _ w) as [[pq1 w1] e1] eqn:Ep. injection E as <- <- <-.
  apply put_memory in Ep as (Em & Er & Est). simpl in *. rewrite u64_id in Em by (unfold is_u64; lia).
  assert (HM : MetaInv (pq_metadata pq1)) by (rewrite Em; split; simpl; try done; lia).
  split; rewrite ?Er, ?Est; try done.
  - intros Hz. rewrite (requestSize_val _ HM), Em in Hz. simpl in Hz. lia.
  - by rewrite Em.
Qed.

Lemma readLoop_mem fuel pq w pend pq' w' res :
  MemInv pq pend -> readLoop metaMarshal encUnmarshal fuel pq w = Some (pq', w', res) ->
  MemInv pq' (match res with ReadItem i _ _ _ _ => pend ++ [i] | _ => pend end).
Proof.
  revert pq w. induction fuel as [|fuel IH]; intros pq w HI; simpl;
    (destruct (Z.eqb_spec (md_ReadIndex (pq_metadata pq)) (md_WriteIndex (pq_metadata pq))) as [|Hne];
     [by intros [= <- <- <-]|]); [done|].
  destruct HI as [HM Hd Hp Hs Hr]. pose proof (mi_idx _ HM). pose proof (mi_lt _ HM) as Hlt.
  destruct (next pq w) as [[pq1 w1] o] eqn:En. apply next_inv in En as (HM1 & E1 & E2 & Hsub & Hst & Ho); [|done|lia].
  apply syncDrained_inv in HM1 as (HM2 & HD2 & S1 & S2 & S3).
  destruct o as [[[i c] r]|].
  - destruct Ho as (-> & Hin & Href). intros [= <- <- <-]. split; simpl; try done.
    + apply NoDup_app. split_and!; [done| |apply NoDup_singleton]. intros x Hx Hx'.
      apply list_elem_of_singleton in Hx'. subst x. apply Hs in Hx.
      apply (proj1 (Forall_forall _ _) Hlt) in Hx. simpl in Hx. lia.
    + rewrite S3. intros x [Hx|Hx]%elem_of_app; [auto|]. apply list_elem_of_singleton in Hx. by subst.
    + rewrite Href, Hst, length_app. simpl. lia.
  - apply IH. split; simpl; try done.
    + rewrite S3. auto.
    + by rewrite Ho, Hst.
Qed.

Lemma clamp_range x n : x < n -> 0 < n -> 0 <= (if x <? 0 then 0 else x) < n.
Proof. destruct (Z.ltb_spec x 0); lia. Qed.

Lemma done_mem pq w pend pend' i a b err pq' w' :
  MemInv pq pend -> pend ≡ₚ i :: pend' -> 0 <= a < 2 ^ 62 -> 0 <= b < 2 ^ 62 ->
  done i a b err pq w = (pq', w') -> MemInv pq' pend'.
Proof.
  intros [HM Hd Hp Hs Hr] Hpend Ha Hb E. rewrite Hpend in Hp. apply NoDup_cons in Hp as [Hni Hp].
  assert (Hlen : Z.of_nat (length pend) = 1 + Z.of_nat (length pend')) by (rewrite Hpend; simpl; lia).
  assert (Hs' : forall x, x ∈ pend' -> x ∈ md_Dispatched (pq_metadata pq)) by (intros x Hx; apply Hs; rewrite Hpend; by right).
  unfold onDone in E. destruct (IsShutdownErr err).
  - destruct (unrefClient pq w) as [[pq1 w1] e1] eqn:Eu. injection E as <- <-.
    apply unref_memory in Eu as ->. split; simpl; try done. lia.
  - destruct HM as [Hi Hm Hnd Hlt Hit Hby]. rewrite !i64_id in E by (unfold is_i64; lia).
    set (m1 := set_sizes _ _ _) in E.
    assert (HM1 : MetaInv m1) by (split; simpl; try done; apply clamp_range; lia).
    destruct (finish i _ w) as [[pq1 w1] e1] eqn:Ef.
    apply finish_inv in Ef as (F1 & F2 & F3 & F4 & F5 & F6 & F7); [|done]. simpl in *.
    destruct (unrefClient _ w1) as [[pq2 w2] e2] eqn:Eu. injection E as <- <-.
    apply unref_memory in Eu as ->. split; simpl; try done.
    + intros x Hx. apply F5. split; [auto|]. intros ->. done.
    + rewrite F6, F7. lia.
Qed.

(** Whatever the storage answers, every call keeps the queue's memory
    consistent: ordered indexes, distinct dispatched indexes that include every
    request handed out, sizes that are never negative and are zero once the
    queue is drained, and an exact count of references to the client. *)
Theorem persistent_memory_invariant s s' :
  rtc fstep s s' -> MemInv s.1.1 s.2 -> MemInv s'.1.1 s'.2.
Proof.
  induction 1 as [|s s1 s2 Hstep _ IH]; [done|]. intros HI. apply IH. clear IH.
  destruct Hstep as [c r pq w pend pq' w' res H1 H2 H3 E|pq w pend pq' w' res E
                    |pq w pend pend' pq' w' i a b err Hp Ha Hb E|pq w pend pq' w' e Hst E]; simpl in *.
  - by eapply offer_mem.
  - unfold Read in E. destruct (pq_stopped pq); [by injection E as <- <- <-|]. by eapply readLoop_mem.
  - exact (done_mem _ _ _ _ _ _ _ _ _ _ HI Hp Ha Hb E).
  - apply unref_memory in E as ->. destruct HI as [HM Hd Hp Hs Hr]. split; simpl in *; try done.
    rewrite Hr, Hst. lia.
Qed.
End AnyClient.

(** ** Concrete clients *)

(** A storage that always answers. *)
Record mapStore := mkMapStore { ms_contents : gmap string bytes }.

#[export] Instance mapClient : Client mapStore := {|
  client_Get k w := (w, inl (ms_contents w !! k));
  client_Set k v w := (mkMapStore (<[k := v]> (ms_contents w)), None);
  client_Batch ops w := let '(st, vs) := runOps ops (ms_contents w) in (mkMapStore st, inl vs);
  client_Close w := (w, None);
|}.

#[export] Instance mapClient_laws : ClientLaws mapStore ms_contents.
Proof.
  split; simpl.
  - intros k w w' r [= <- <-]. split; [done|]. by intros v [= <-].
  - intros k v w w' r [= <- <-]. by left.
  - intros ops w w' vs. destruct (runOps ops (ms_contents w)) as [st vs']. by intros [= <- <-].
  - intros ops w w' e. by destruct (runOps ops (ms_contents w)).
  - by intros w w' r [= <- <-].
Qed.

(** A storage whose batches fail, without any effect, where the script says so. *)
Record scriptStore := mkScriptStore { ss_contents : gmap string bytes; ss_script : list bool }.

Definition storageDown : error := New "storage not available".

#[export] Instance scriptClient : Client scriptStore := {|
  client_Get k w := (w, inl (ss_contents w !! k));
  client_Set k v w := (mkScriptStore (<[k := v]> (ss_contents w)) (ss_script w), None);
  client_Batch ops w :=
    match ss_script w with
    | false :: script => (mkScriptStore (ss_contents w) script, inr storageDown)
    | script =>
        let '(st, vs) := runOps ops (ss_contents w) in (mkScriptStore st (tail script), inl vs)
    end;
  client_Close w := (w, None);
|}.

#[export] Instance scriptClient_laws : ClientLaws scriptStore ss_contents.
Proof.
  split; simpl.
  - intros k w w' r [= <- <-]. split; [done|]. by intros v [= <-].
  - intros k v w w' r [= <- <-]. by left.
  - intros ops [st script] w' vs; simpl. destruct (runOps ops st) as [st' vs'].
    destruct script as [|[|] script]; intros H; by simplify_eq/=.
  - intros ops [st script] w' e; simpl. destruct (runOps ops st) as [st' vs'].
    destruct script as [|[|] script]; intros H; simplify_eq/=. exists []. split; [apply sublist_nil_l|done].
  - by intros w w' r [= <- <-].
Qed.

(** ** Concrete encodings

    A request is a list of integers; its encoding is the list.  As for the
    protobuf encodings of the telemetry requests, no bytes decode to an empty
    request. *)
Section Examples.
#[local] Instance listRequest : Request (list Z) := {|
  ItemsCount r := Z.of_nat (length r);
  BytesSize r := Z.of_nat (length r);
|}.

Definition exMarshal (_ : unit) (r : list Z) : bytes + error := inl r.
Definition exUnmarshal (b : bytes) : (unit * list Z) + error := inl (tt, b).

Definition exMeta (m : Metadata) : bytes + error :=
  match m with
  | mkMetadata 0 0 0 0 [] => inl []
  | mkMetadata i b ri wi d => inl (i :: b :: ri :: wi :: d)
  end.
Definition exUnmeta (b : bytes) : Metadata + error :=
  match b with
  | [] => inl zeroMetadata
  | i :: b :: ri :: wi :: d => inl (mkMetadata i b ri wi d)
  | _ => inr errInvalidValue
  end.

Lemma exMeta_cases m : (m = zeroMetadata /\ exMeta m = inl []) \/
  exMeta m = inl (md_ItemsSize m :: md_BytesSize m :: md_ReadIndex m :: md_WriteIndex m :: md_Dispatched m).
Proof.
  destruct m as [i b ri wi d]. unfold exMeta.
  destruct i; auto. destruct b; auto. destruct ri; auto. destruct wi; auto. destruct d; auto.
Qed.

Lemma exAssumptions : Assumptions (W := mapStore) ms_contents exMeta exUnmeta exMarshal exUnmarshal.
Proof.
  split.
  - intros ops w. simpl. destruct (runOps ops (ms_contents w)). eauto.
  - intros k w. simpl. eauto.
  - intros k v w. simpl. eauto.
  - intros m _. destruct (exMeta_cases m) as [ [-> ->] | -> ]; eexists; split; try done. by destruct m.
  - intros m H. destruct (exMeta_cases m) as [ [-> _] | E ]; [done|]. rewrite E in H. done.
  - intros c r. by exists r, tt.
  - intros r. simpl. lia.
  - intros r. simpl. lia.
Qed.

Local Abbreviation exRun := (run (W := mapStore) ms_contents 10 SizerTypeItems false exMeta exUnmeta exMarshal exUnmarshal).
Local Abbreviation exInit := (initClient exMeta exUnmeta exMarshal exUnmarshal newPersistentQueue).
Local Abbreviation exExec := (execAll (W := mapStore) 10 SizerTypeItems false exMeta exUnmeta exMarshal exUnmarshal).

(** Two requests are accepted and read, one is refused, one is completed. *)
Definition exCalls : list (call (T := list Z) (Ctx := unit)) :=
  [COffer tt [1; 2]; COffer tt [3]; COffer tt [4; 5; 6; 7; 8; 9; 10; 11]; CRead; CRead; CDone 0 None].
Definition exEvents : list (event (T := list Z)) :=
  [EvOffer [1; 2] true; EvOffer [3] true; EvOffer [4; 5; 6; 7; 8; 9; 10; 11] false;
   EvRead 0 [1; 2]; EvRead 1 [3]; EvDone 0 [1; 2] None].
Definition exFinal : state (W := mapStore) (T := list Z) :=
  match exExec exCalls (exInit (mkMapStore ∅), []) with Some (_, s) => s | None => (newPersistentQueue, mkMapStore ∅, []) end.

Lemma exRun_final : exRun exEvents exFinal.
Proof.
  apply (execAll_run _ _ _ _ _ _ _ _ exCalls [] (exInit (mkMapStore ∅), []) exEvents).
  - destruct (exInit (mkMapStore ∅)) as [pq w] eqn:E. by eapply run_start; [|exact E].
  - vm_compute. reflexivity.
Qed.

Lemma persistent_no_loss_witness :
  exists pq' w' n recovered, exInit exFinal.1.2 = (pq', w') /\
    readAll exMeta exUnmarshal n pq' w' = (recovered, Some ReadWaits) /\
    [[1; 2]; [3]] ≡ₚ [[1; 2]] ++ recovered.
Proof.
  apply (persistent_no_loss ms_contents 10 SizerTypeItems false exMeta exUnmeta exMarshal exUnmarshal exAssumptions
    exEvents exFinal.1.1 exFinal.1.2 exFinal.2).
  - rewrite <- !surjective_pairing. exact exRun_final.
  - vm_compute. reflexivity.
Defined.

Lemma persistent_fifo_witness : [[1; 2]; [3]] `prefix_of` [[1; 2]; [3]].
Proof.
  apply (persistent_fifo ms_contents 10 SizerTypeItems false exMeta exUnmeta exMarshal exUnmarshal exAssumptions
    exEvents exFinal exRun_final).
  unfold exEvents. rewrite !not_elem_of_cons. split_and!; try done. apply not_elem_of_nil.
Defined.

Lemma persistent_size_and_refs_witness :
  Size SizerTypeItems exFinal.1.1 <= 10 /\ pq_refClient exFinal.1.1 = 1 + 1.
Proof.
  apply (persistent_size_and_refs ms_contents 10 SizerTypeItems false exMeta exUnmeta exMarshal exUnmarshal
    exAssumptions exEvents exFinal.1.1 exFinal.1.2 exFinal.2); [|lia].
  rewrite <- !surjective_pairing. exact exRun_final.
Defined.

(** Indexes that have wrapped: two unreadable items, the storage down. *)
Definition exWrapped : pqueue := mkPQueue (mkMetadata 5 5 (2 ^ 64 - 1) 1 []) 1 false [].

Lemma persistent_read_terminates_witness : exists pq' w' res,
  Read exMeta exUnmarshal exWrapped (mkScriptStore ∅ [false; false; false; false]) = Some (pq', w', res).
Proof. apply persistent_read_terminates; simpl; unfold is_u64; lia. Defined.

Lemma persistent_memory_invariant_witness :
  let pq := mkPQueue zeroMetadata 1 false [] in
  let w := mkScriptStore ∅ [false] in
  let pq' := (Offer 10 SizerTypeItems false exMeta exMarshal tt [7] pq w).1.1 in
  MemInv pq [] /\ MemInv pq' [] /\ md_WriteIndex (pq_metadata pq') = 1.
Proof.
  intros pq w pq'.
  assert (HI : MemInv pq []).
  { split; simpl; try done; try (by apply NoDup_nil_2). split; simpl; try done. apply NoDup_nil_2. }
  split; [exact HI|]. split; [|vm_compute; reflexivity].
  apply (persistent_memory_invariant (Request0 := listRequest) (Ctx := unit) 10 SizerTypeItems false exMeta exMarshal exUnmarshal
    (fun r => Nat2Z.is_nonneg (length r)) (fun r => Nat2Z.is_nonneg (length r)) (pq, w, [])
    (pq', (Offer 10 SizerTypeItems false exMeta exMarshal tt [7] pq w).1.2, [])); [|exact HI].
  apply rtc_once. eapply (fstep_offer _ _ _ _ _ _ tt [7]); [simpl; lia..|].
  vm_compute. reflexivity.
Defined.

(** *** What failures do across a restart *)

Local Abbreviation scriptInit := (initClient (W := scriptStore) exMeta exUnmeta exMarshal exUnmarshal newPersistentQueue).
Local Abbreviation scriptOffer := (Offer (W := scriptStore) 10 SizerTypeItems false exMeta exMarshal).
Local Abbreviation scriptRead := (Read (W := scriptStore) exMeta exUnmarshal).

(** One dispatched request in the storage, nothing waiting. *)
Definition oneDispatched : gmap string bytes :=
  <[metadataKey := [2; 2; 1; 1; 0]]> {[getItemKey 0 := [7; 8]]}.

(** A restarted queue deletes the requests that were dispatched even when it
    could not read them: when the batch that retrieves them fails and the one
    that deletes them does not, they are gone from the storage and from the
    queue, though the storage held them; with both batches answered the request
    is recovered. *)
Theorem failed_retrieval_loses_requests :
  (let '(pq, w) := scriptInit (mkScriptStore oneDispatched [false; true]) in
   ss_contents w !! getItemKey 0 = None /\ scriptRead pq w = Some (pq, w, ReadWaits) /\
   md_Dispatched (pq_metadata pq) = []) /\
  (let '(pq, w) := scriptInit (mkScriptStore oneDispatched [true; true]) in
   exists pq' w', scriptRead pq w = Some (pq', w', ReadItem 1 tt [7; 8] 2 2)).
Proof. vm_compute. split; [split; [|split]; reflexivity|]. eexists _, _. reflexivity. Qed.

(** A full queue whose one request is completed while the storage refuses the
    update of the metadata but performs the deletion; then a restart. *)
Definition stuck : pqueue * scriptStore :=
  let '(pq, w) := scriptInit (mkScriptStore ∅ [true; true; true; true; false; true; false]) in
  let '(pq, w, _) := scriptOffer tt (replicate 10 0) pq w in
  match scriptRead pq w with
  | Some (pq, w, ReadItem i _ _ a b) => scriptInit (onDone exMeta i a b None pq w).2
  | _ => (pq, w)
  end.

(** A size left over in the storage is never corrected while the queue is
    empty: after a completion whose metadata update failed, the restarted queue
    holds nothing, reads wait, and yet every further offer is refused as full,
    with no change of state. *)
Theorem stale_size_blocks_empty_queue :
  scriptRead stuck.1 stuck.2 = Some (stuck.1, stuck.2, ReadWaits) /\
  md_ReadIndex (pq_metadata stuck.1) = md_WriteIndex (pq_metadata stuck.1) /\
  Size SizerTypeItems stuck.1 = 10 /\
  forall x, scriptOffer tt [x] stuck.1 stuck.2 = (stuck.1, stuck.2, Offered (Some ErrQueueIsFull)).
Proof.
  split; [vm_compute; reflexivity|]. split; [vm_compute; reflexivity|]. split; [vm_compute; reflexivity|].
  intros x. apply Offer_full. vm_compute. reflexivity.
Qed.

(** An offer that fails because the storage refuses the batch still takes an
    index; when no bytes decode to an empty request, as for the protobuf
    encodings, the next read hands that empty request to a consumer. *)
Theorem failed_offer_dispatches_empty :
  let '(pq, w) := scriptInit (mkScriptStore ∅ [true; true; false]) in
  let '(pq, w, res) := scriptOffer tt [5] pq w in
  res = Offered (Some storageDown) /\
  exists pq' w', scriptRead pq w = Some (pq', w', ReadItem 0 tt [] 0 0).
Proof. vm_compute. split; [reflexivity|]. eexists _, _. reflexivity. Qed.
End Examples.

(** ** The legacy list of dispatched items *)

Fixpoint leEncode (n : nat) (z : Z) : bytes :=
  match n with O => [] | S n => z mod 256 :: leEncode n (z / 256) end.

Lemma leEncode_length n z : length (leEncode n z) = n.
Proof. revert z. induction n as [|n IH]; intros z; [done|]. simpl. by rewrite IH. Qed.

Lemma leDecode_encode n z : 0 <= z < 256 ^ Z.of_nat n -> leDecode (leEncode n z) = z.
Proof.
  revert z. induction n as [|n IH]; intros z Hz; [simpl in *; lia|].
  cbn [leEncode leDecode]. rewrite IH.
  - pose proof (Z.div_mod z 256). lia.
  - rewrite Nat2Z.inj_succ, Z.pow_succ_r in Hz by lia. split; [apply Z.div_pos; lia|].
    apply Z.div_lt_upper_bound; lia.
Qed.

Lemma leUint64_encode z rest : is_u64 z -> leUint64 (leEncode 8 z ++ rest) = z.
Proof.
  intros Hz. unfold leUint64. rewrite take_app_length' by (by rewrite leEncode_length).
  by apply leDecode_encode.
Qed.

(** The format the older versions wrote: a 32-bit count, then 64-bit indexes. *)
Definition itemIndexArrayToBytes (l : list Z) : bytes :=
  leEncode 4 (Z.of_nat (length l)) ++ flat_map (leEncode 8) l.

Lemma readIndexes_encode l rest : Forall is_u64 l -> readIndexes (length l) (flat_map (leEncode 8) l ++ rest) = l.
Proof.
  induction 1 as [|x l Hx Hl IH]; [done|]. cbn [length readIndexes flat_map]. rewrite <- app_assoc.
  rewrite leUint64_encode by done. rewrite drop_app_length' by (by rewrite leEncode_length). by rewrite IH.
Qed.

Lemma flat_encode_length l : length (flat_map (leEncode 8) l) = (length l * 8)%nat.
Proof. induction l as [|x l IH]; [done|]. cbn [flat_map length]. rewrite length_app, leEncode_length, IH. lia. Qed.

(** Reading the legacy list of dispatched items gives back the indexes it was
    written from, trailing bytes ignored, and every buffer cut short is an
    error rather than a shorter list. *)
Theorem legacy_dispatched_roundtrip l rest k :
  Forall is_u64 l -> (0 < length l)%nat -> Z.of_nat (length l) < 2 ^ 32 ->
  bytesToItemIndexArray (Some (itemIndexArrayToBytes l ++ rest)) = inl l /\
  ((0 < k < length (itemIndexArrayToBytes l))%nat ->
   bytesToItemIndexArray (Some (take k (itemIndexArrayToBytes l))) = inr errInvalidValue).
Proof.
  intros Hl Hne Hlen. set (hdr := leEncode 4 (Z.of_nat (length l))).
  assert (Hh : length hdr = 4%nat) by apply leEncode_length.
  assert (Hd : leDecode hdr = Z.of_nat (length l)) by (apply leDecode_encode; split; [lia|exact Hlen]).
  pose proof (flat_encode_length l) as Hf.
  unfold bytesToItemIndexArray, itemIndexArrayToBytes. fold hdr. cbn [default from_option id].
  split.
  - rewrite !length_app, Hh, Hf. rewrite (proj2 (Nat.eqb_neq _ _)), (proj2 (Nat.ltb_ge _ _)) by lia.
    unfold leUint32. rewrite <- app_assoc, take_app_length', drop_app_length', Hd, Nat2Z.id by lia.
    rewrite (proj2 (Nat.eqb_neq _ _)), (proj2 (Nat.ltb_ge _ _)) by (rewrite ?length_app; lia).
    by rewrite readIndexes_encode.
  - rewrite length_app, Hh, Hf. intros Hk. rewrite length_take, length_app, Hh, Hf.
    rewrite (proj2 (Nat.eqb_neq _ _)) by lia. destruct (Nat.ltb_spec (k `min` (4 + length l * 8)) 4); [done|].
    unfold leUint32. rewrite take_take, take_app_le, (take_ge hdr), Hd, Nat2Z.id by lia.
    rewrite (proj2 (Nat.eqb_neq _ _)) by lia. rewrite length_drop, length_take, length_app, Hh, Hf.
    rewrite (proj2 (Nat.ltb_lt _ _)) by lia. done.
Qed.

Lemma legacy_dispatched_roundtrip_witness :
  bytesToItemIndexArray (Some (itemIndexArrayToBytes [3; 256] ++ [9])) = inl [3; 256] /\
  bytesToItemIndexArray (Some (take 19 (itemIndexArrayToBytes [3; 256]))) = inr errInvalidValue.
Proof.
  destruct (legacy_dispatched_roundtrip [3; 256] [9] 19) as [H1 H2].
  - repeat constructor; unfold is_u64; lia.
  - simpl; lia.
  - simpl; lia.
  - split; [exact H1|]. apply H2. vm_compute. lia.
Defined.
