(* ===== verification/MemoryQueue.v ===== *)
(** * The in-memory queue (exporterhelper/internal/queue/memory_queue.go)

    The queue is a linked list of nodes that producers keep pointers to: a
    producer that waits for the result of its element may abandon the node while
    it is still linked.  The nodes therefore live in a heap, and [head], [tail]
    and [next] are pointers into it.

    Operations run under [mq.mu] and are functions on the state; an operation
    that would wait on a condition variable says so in its result, and waking
    up is running the rest of it ([add]) again.  A [blockingDone] is owned by one
    element from [add] to its completion, and is represented in the node. *)

From S2P Require Import Prelude Errors Sizers.
Local Open Scope Z_scope.

Section MemoryQueue.
Context {T : Type} `{!Request T}.

Definition loc := nat.

(** A node with its [blockingDone]: [n_result] is what was sent on its channel. *)
Record node := mkNode {
  n_data : T;
  n_elSize : Z;
  n_next : option loc;
  n_queued : bool;
  n_abandoned : bool;
  n_result : option (option error);
}.

Definition set_next (n : node) (p : option loc) : node :=
  mkNode (n_data n) (n_elSize n) p (n_queued n) (n_abandoned n) (n_result n).
Definition set_queued (n : node) (b : bool) : node :=
  mkNode (n_data n) (n_elSize n) (n_next n) b (n_abandoned n) (n_result n).
Definition set_abandoned (n : node) : node :=
  mkNode (n_data n) (n_elSize n) (n_next n) (n_queued n) true (n_result n).
Definition set_result (n : node) (err : option error) : node :=
  mkNode (n_data n) (n_elSize n) (n_next n) (n_queued n) (n_abandoned n) (Some err).

(** linkedQueue: the heap of nodes, the next free address, head and tail. *)
Record linkedQueue := mkLinked {
  lq_heap : gmap loc node;
  lq_fresh : loc;
  lq_head : option loc;
  lq_tail : option loc;
}.

Definition emptyLinked : linkedQueue := mkLinked ∅ O None None.

Definition set_heap (q : linkedQueue) (h : gmap loc node) : linkedQueue :=
  mkLinked h (lq_fresh q) (lq_head q) (lq_tail q).

(** [None] is the dereference of a pointer outside of the heap. *)
Definition push (data : T) (elSize : Z) (l : linkedQueue) : option (linkedQueue * loc) :=
  let p := lq_fresh l in
  let h := <[p := mkNode data elSize None true false None]> (lq_heap l) in
  match lq_tail l with
  | None => Some (mkLinked h (S p) (Some p) (Some p), p)
  | Some t =>
      match h !! t with
      | None => None
      | Some n => Some (mkLinked (<[t := set_next n (Some p)]> h) (S p) (lq_head l) (Some p), p)
      end
  end.

Definition hasElements (l : linkedQueue) : bool :=
  match lq_head l with Some _ => true | None => false end.

Definition pop (l : linkedQueue) : option (linkedQueue * loc * node) :=
  match lq_head l with
  | None => None
  | Some p =>
      match lq_heap l !! p with
      | None => None
      | Some n =>
          let head := n_next n in
          let tail := match head with None => None | Some _ => lq_tail l end in
          let n := set_queued (set_next n None) false in
          Some (mkLinked (<[p := n]> (lq_heap l)) (lq_fresh l) head tail, p, n)
      end
  end.

(** What happened to the condition variables. *)
Inductive MSignal := MSignalElements | MBroadcastElements | MSignalSpace.

Record mqueue := mkMQueue {
  mq_items : linkedQueue;
  mq_size : Z;
  mq_stopped : bool;
  mq_signals : list MSignal;
  mq_refd : list T;
  mq_unrefd : list T;
}.

Definition newMemoryQueue : mqueue := mkMQueue emptyLinked 0 false [] [] [].

Definition set_items (mq : mqueue) (l : linkedQueue) : mqueue :=
  mkMQueue l (mq_size mq) (mq_stopped mq) (mq_signals mq) (mq_refd mq) (mq_unrefd mq).
Definition set_size (mq : mqueue) (n : Z) : mqueue :=
  mkMQueue (mq_items mq) n (mq_stopped mq) (mq_signals mq) (mq_refd mq) (mq_unrefd mq).
Definition msignal (mq : mqueue) (s : MSignal) : mqueue :=
  mkMQueue (mq_items mq) (mq_size mq) (mq_stopped mq) (mq_signals mq ++ [s]) (mq_refd mq) (mq_unrefd mq).

Definition errInvalidSize : error := New "invalid element size".
Definition errSizeTooLarge : error := New "element size too large".
Definition errQueueIsFull : error := New "sending queue is full".

(** Settings: cap, the sizer, waitForResult, blockOnOverflow, and whether a
    reference counter is given. *)
Context (cap : Z) (sizerType : SizerType) (waitForResult blockOnOverflow hasCounter : bool).

(** The counter is dropped when the caller waits for the result. *)
Definition counting : bool := hasCounter && negb waitForResult.

Definition Ref (el : T) (mq : mqueue) : mqueue :=
  if counting then
    mkMQueue (mq_items mq) (mq_size mq) (mq_stopped mq) (mq_signals mq) (mq_refd mq ++ [el]) (mq_unrefd mq)
  else mq.
Definition Unref (el : T) (mq : mqueue) : mqueue :=
  if counting then
    mkMQueue (mq_items mq) (mq_size mq) (mq_stopped mq) (mq_signals mq) (mq_refd mq) (mq_unrefd mq ++ [el])
  else mq.

Inductive AddResult :=
  | Added (n : loc)
  | AddFull
  | AddWaits
  | AddFault.

(** [add], up to where it returns or waits for space. *)
Definition add (el : T) (elSize : Z) (mq : mqueue) : mqueue * AddResult :=
  if cap <? i64 (mq_size mq + elSize) then (mq, if blockOnOverflow then AddWaits else AddFull)
  else
    let mq := set_size mq (i64 (mq_size mq + elSize)) in
    match push el elSize (mq_items mq) with
    | None => (mq, AddFault)
    | Some (items, n) => (msignal (set_items mq items) MSignalElements, Added n)
    end.

Inductive MOfferResult :=
  | MReturned (err : option error)
  | MBlockedForSpace (elSize : Z)
  | MWaitsForResult (n : loc)
  | MFault.

(** The part of [Offer] after [add] was tried. *)
Definition afterAdd (el : T) (elSize : Z) (r : mqueue * AddResult) : mqueue * MOfferResult :=
  match r with
  | (mq, Added n) => (mq, if waitForResult then MWaitsForResult n else MReturned None)
  | (mq, AddFull) => (Unref el mq, MReturned (Some errQueueIsFull))
  | (mq, AddWaits) => (mq, MBlockedForSpace elSize)
  | (mq, AddFault) => (mq, MFault)
  end.

Definition MOffer (el : T) (mq : mqueue) : mqueue * MOfferResult :=
  let elSize := Sizeof sizerType el in
  if elSize =? 0 then (mq, MReturned None)
  else if elSize <=? 0 then (mq, MReturned (Some errInvalidSize))
  else if cap <? elSize then (mq, MReturned (Some errSizeTooLarge))
  else afterAdd el elSize (add el elSize (Ref el mq)).

(** A producer woken on [hasMoreSpace] tries again; one whose context ended
    gives up. *)
Definition offerWoken (el : T) (elSize : Z) (mq : mqueue) : mqueue * MOfferResult :=
  afterAdd el elSize (add el elSize mq).
Definition offerCanceled (el : T) (ctxErr : error) (mq : mqueue) : mqueue * MOfferResult :=
  (Unref el mq, MReturned (Some ctxErr)).

Definition freeCapacity (elSize : Z) (mq : mqueue) : mqueue :=
  msignal (set_size mq (i64 (mq_size mq - elSize))) MSignalSpace.

(** [abandon]: [true] when the element was still queued. *)
Definition abandon (n : loc) (mq : mqueue) : option (mqueue * bool) :=
  match lq_heap (mq_items mq) !! n with
  | None => None
  | Some nd =>
      if negb (n_queued nd) then Some (mq, false)
      else
        let items := set_heap (mq_items mq) (<[n := set_abandoned nd]> (lq_heap (mq_items mq))) in
        Some (freeCapacity (n_elSize nd) (set_items mq items), true)
  end.

(** The producer waiting for the result of [n] when its context ends. *)
Definition resultCanceled (n : loc) (ctxErr : error) (mq : mqueue) : option (mqueue * MOfferResult) :=
  match abandon n mq with
  | None => None
  | Some (mq, true) => Some (mq, MReturned (Some ctxErr))
  | Some (mq, false) => Some (mq, MWaitsForResult n)
  end.

(** The same producer when the result is there. *)
Definition resultReceived (n : loc) (mq : mqueue) : option MOfferResult :=
  nd ← lq_heap (mq_items mq) !! n; err ← n_result nd; Some (MReturned err).

Inductive MReadResult :=
  | MReadItem (n : loc) (data : T)
  | MReadStopped
  | MReadWaits.

(** [Read]: abandoned elements are dropped on the way.  [None] is a fault or
    missing fuel. *)
Fixpoint mreadLoop (fuel : nat) (mq : mqueue) : option (mqueue * MReadResult) :=
  if hasElements (mq_items mq) then
    match fuel with
    | O => None
    | S fuel =>
        match pop (mq_items mq) with
        | None => None
        | Some (items, p, n) =>
            if waitForResult && n_abandoned n then mreadLoop fuel (set_items mq items)
            else Some (set_items mq items, MReadItem p (n_data n))
        end
    end
  else Some (mq, if mq_stopped mq then MReadStopped else MReadWaits).

Definition MRead (mq : mqueue) : option (mqueue * MReadResult) := mreadLoop (lq_fresh (mq_items mq)) mq.

Definition monDone (n : loc) (err : option error) (mq : mqueue) : option mqueue :=
  nd ← lq_heap (mq_items mq) !! n;
  let mq := freeCapacity (n_elSize nd) (Unref (n_data nd) mq) in
  Some (if waitForResult then
          set_items mq (set_heap (mq_items mq) (<[n := set_result nd err]> (lq_heap (mq_items mq))))
        else mq).

Definition MShutdown (mq : mqueue) : mqueue :=
  mkMQueue (mq_items mq) (mq_size mq) true (mq_signals mq ++ [MBroadcastElements]) (mq_refd mq) (mq_unrefd mq).
End MemoryQueue.

Arguments node : clear implicits.
Arguments linkedQueue : clear implicits.
Arguments mqueue : clear implicits.
Arguments MReadResult : clear implicits.
