(* ===== verification/MemoryQueueProofs.v ===== *)
(** * Correctness of the in-memory queue

    [Linked] says that the pointers form a list; [push] and [pop] are shown to
    append to it and to take its head without a dangling dereference.  [Inv]
    relates the queue to the elements linked, handed to consumers and blocked,
    and every call keeps it. *)

From S2P Require Import Prelude Errors Sizers MemoryQueue.
Local Open Scope Z_scope.

Section Linked.
Context {T : Type}.

Fixpoint chain (h : gmap loc (node T)) (p : option loc) (l : list loc) : Prop :=
  match l with
  | [] => p = None
  | x :: l => p = Some x /\ exists n, h !! x = Some n /\ chain h (n_next n) l
  end.

(** The linked queue [q] holds the nodes [l]. *)
Record Linked (q : linkedQueue T) (l : list loc) : Prop := {
  ln_chain : chain (lq_heap q) (lq_head q) l;
  ln_tail : lq_tail q = last l;
  ln_nodup : NoDup l;
  ln_fresh : forall p n, lq_heap q !! p = Some n -> (p < lq_fresh q)%nat;
  ln_queued : forall p n, lq_heap q !! p = Some n -> (n_queued n = true <-> p ∈ l);
}.

(** Everything about a node but its link. *)
Record Info := mkInfo {
  i_data : T;
  i_size : Z;
  i_queued : bool;
  i_abandoned : bool;
  i_result : option (option error);
}.
Definition info (n : node T) : Info :=
  mkInfo (n_data n) (n_elSize n) (n_queued n) (n_abandoned n) (n_result n).
Definition view (q : linkedQueue T) : gmap loc Info := info <$> lq_heap q.

Lemma chain_in h p l x : chain h p l -> x ∈ l -> exists n, h !! x = Some n.
Proof.
  revert p. induction l as [|y l IH]; intros p Hc Hx; [by apply not_elem_of_nil in Hx|].
  destruct Hc as (_ & n & Hn & Hc). apply elem_of_cons in Hx as [->|Hx]; eauto.
Qed.

(** Changes away from the list do not matter. *)
Lemma chain_frame h h' p l :
  (forall x, x ∈ l -> n_next <$> h' !! x = n_next <$> h !! x) -> chain h p l -> chain h' p l.
Proof.
  revert p. induction l as [|y l IH]; intros p Hf Hc; [done|].
  destruct Hc as (-> & n & Hn & Hc). split; [done|].
  pose proof (Hf y ltac:(left)) as Hy. rewrite Hn in Hy. simpl in Hy.
  destruct (h' !! y) as [n'|]; [|done]. injection Hy as Hy. exists n'. split; [done|]. rewrite Hy.
  apply IH; [|done]. intros x Hx. apply Hf. by right.
Qed.

Lemma chain_snoc h p l t x nt nx :
  chain h p (l ++ [t]) -> NoDup (l ++ [t]) -> x ∉ l ++ [t] -> h !! t = Some nt -> n_next nx = None ->
  chain (<[t := set_next nt (Some x)]> (<[x := nx]> h)) p (l ++ [t; x]).
Proof.
  revert p. induction l as [|y l IH]; intros p Hc Hnd Hx Ht Hnx; simpl in *.
  - destruct Hc as (-> & n & Hn & Hc). split; [done|]. exists (set_next nt (Some x)).
    rewrite lookup_insert_eq. split; [done|]. simpl. split; [done|]. exists nx.
    rewrite lookup_insert_ne by set_solver. by rewrite lookup_insert_eq.
  - destruct Hc as (-> & n & Hn & Hc). split; [done|]. apply NoDup_cons in Hnd as [Hy Hnd].
    exists n. rewrite !lookup_insert_ne by set_solver. split; [done|]. apply IH; set_solver.
Qed.

Lemma push_ok data elSize q l :
  Linked q l -> exists q', push data elSize q = Some (q', lq_fresh q) /\ Linked q' (l ++ [lq_fresh q]) /\
    view q' = <[lq_fresh q := mkInfo data elSize true false None]> (view q) /\ lq_fresh q' = S (lq_fresh q).
Proof.
  intros [Hc Ht Hnd Hf Hq]. set (x := lq_fresh q) in *.
  assert (Hx : lq_heap q !! x = None).
  { destruct (lq_heap q !! x) eqn:E; [|done]. apply Hf in E. lia. }
  assert (Hxl : x ∉ l).
  { intros Hin. destruct (chain_in _ _ _ _ Hc Hin) as [n Hn]. congruence. }
  unfold push. fold x. destruct (lq_tail q) as [t|] eqn:Et.
  - destruct l as [|t' l _] using rev_ind; [done|]. rewrite last_snoc in Ht. injection Ht as ->.
    assert (Htx : t' <> x) by set_solver.
    destruct (chain_in _ _ _ t' Hc) as [nt Hnt]; [set_solver|].
    rewrite lookup_insert_ne by done. rewrite Hnt. eexists. split; [done|].
    assert (Hnd' : NoDup ((l ++ [t']) ++ [x])) by (apply NoDup_app; split_and!; [done|set_solver|apply NoDup_singleton]).
    split; [|split; [|done]].
    + split; simpl.
      * rewrite <- app_assoc. simpl. by apply chain_snoc.
      * by rewrite last_snoc.
      * done.
      * intros p n. rewrite lookup_insert_Some, lookup_insert_Some. intros [[<- _]|[? [[<- _]|[? Hn]]]]; [|lia|].
        { apply Hf in Hnt. lia. } { apply Hf in Hn. lia. }
      * intros p n. rewrite lookup_insert_Some, lookup_insert_Some.
        intros [[<- <-]|[? [[<- <-]|[? Hn]]]]; simpl; [rewrite (Hq _ _ Hnt)| |rewrite (Hq _ _ Hn)]; set_solver.
    + unfold view; simpl. rewrite !fmap_insert. unfold info at 2; simpl.
      rewrite insert_insert_ne by done. f_equal. apply insert_id. by rewrite lookup_fmap, Hnt.
  - destruct l as [|t l _] using rev_ind; [|by rewrite last_snoc in Ht]. eexists. split; [done|].
    split; [|split; [|done]].
    + split; simpl.
      * split; [done|]. eexists. by rewrite lookup_insert_eq.
      * done.
      * apply NoDup_singleton.
      * intros p n. rewrite lookup_insert_Some. intros [[<- _]|[? Hn]]; [lia|]. apply Hf in Hn. lia.
      * intros p n. rewrite lookup_insert_Some. intros [[<- <-]|[? Hn]]; simpl; [|rewrite (Hq _ _ Hn)]; set_solver.
    + unfold view; simpl. by rewrite fmap_insert.
Qed.

Lemma pop_ok q x l :
  Linked q (x :: l) -> exists q' n, pop q = Some (q', x, n) /\ Linked q' l /\
    view q !! x = Some (mkInfo (n_data n) (n_elSize n) true (n_abandoned n) (n_result n)) /\
    view q' = <[x := mkInfo (n_data n) (n_elSize n) false (n_abandoned n) (n_result n)]> (view q) /\
    lq_fresh q' = lq_fresh q.
Proof.
  intros [Hc Ht Hnd Hf Hq]. destruct Hc as (Hh & n & Hn & Hc). apply NoDup_cons in Hnd as [Hx Hnd].
  unfold pop. rewrite Hh, Hn. eexists _, _. split; [done|]. split; [|split; [|split; [|done]]]; simpl.
  - split; simpl.
    + eapply chain_frame; [|exact Hc]. intros y Hy. rewrite lookup_insert_ne by set_solver. done.
    + destruct l as [|y l]; simpl in Hc; [by rewrite Hc|]. destruct Hc as (-> & _). by rewrite Ht.
    + done.
    + intros p n'. rewrite lookup_insert_Some. intros [[<- _]|[? Hn']]; eauto.
    + intros p n'. rewrite lookup_insert_Some. intros [[<- <-]|[? Hn']]; simpl; [|rewrite (Hq _ _ Hn')]; set_solver.
  - unfold view. rewrite lookup_fmap, Hn. simpl. unfold info. do 2 f_equal.
    apply (Hq _ _ Hn). by left.
  - unfold view; simpl. by rewrite fmap_insert.
Qed.

Lemma hasElements_ok q l : Linked q l -> hasElements q = (0 <? length l)%nat.
Proof.
  intros [Hc _ _ _ _]. unfold hasElements. destruct l; simpl in Hc; [by rewrite Hc|]. by destruct Hc as [-> _].
Qed.

(** Changing a node without touching its link or whether it is queued. *)
Lemma Linked_update q l p n n' :
  Linked q l -> lq_heap q !! p = Some n -> n_next n' = n_next n -> n_queued n' = n_queued n ->
  Linked (set_heap q (<[p := n']> (lq_heap q))) l.
Proof.
  intros [Hc Ht Hnd Hf Hq] Hp Hnx Hqu. split; simpl; try done.
  - eapply chain_frame; [|exact Hc]. intros x _. destruct (decide (x = p)) as [->|].
    + rewrite lookup_insert_eq, Hp. simpl. by rewrite Hnx.
    + by rewrite lookup_insert_ne.
  - intros x m. rewrite lookup_insert_Some. intros [[<- _]|[? ?]]; eauto.
  - intros x m. rewrite lookup_insert_Some. intros [[<- <-]|[? Hm]]; [rewrite Hqu|]; eauto.
Qed.
End Linked.

(** ** Runs of the queue *)
Section Runs.
Context {T : Type} `{!Request T}.
Context (cap : Z) (sizerType : SizerType) (waitForResult blockOnOverflow hasCounter : bool).
Hypothesis Hcap : 0 <= cap < 2 ^ 62.

Local Abbreviation counting := (counting waitForResult hasCounter).
Local Abbreviation offer := (MOffer cap sizerType waitForResult blockOnOverflow hasCounter).
Local Abbreviation woken := (offerWoken cap waitForResult blockOnOverflow hasCounter).
Local Abbreviation canceled := (offerCanceled waitForResult hasCounter).
Local Abbreviation addTo := (add cap blockOnOverflow).
Local Abbreviation read := (MRead waitForResult).
Local Abbreviation ondone := (monDone waitForResult hasCounter).

(** The queue, the elements handed out and not completed, the producers blocked
    for space with their elements, and the producers waiting for a result. *)
Record mstate := mkState {
  s_mq : mqueue T;
  s_flight : list loc;
  s_blocked : list (T * Z);
  s_waiters : list loc;
}.

Definition vw (s : mstate) : gmap loc Info := view (mq_items (s_mq s)).

(** What an element still takes of the capacity. *)
Definition wt (v : gmap loc (Info (T := T))) (p : loc) : Z :=
  match v !! p with Some i => if i_abandoned i then 0 else i_size i | None => 0 end.
Definition datas (v : gmap loc (Info (T := T))) (ps : list loc) : list T :=
  omap (fun p => i_data <$> v !! p) ps.

(** [l] are the elements linked in the queue, oldest first. *)
Record Inv (s : mstate) (l : list loc) : Prop := {
  inv_linked : Linked (mq_items (s_mq s)) l;
  inv_flight : NoDup (s_flight s) /\ forall p, p ∈ s_flight s ->
    exists i, vw s !! p = Some i /\ i_queued i = false /\ i_abandoned i = false;
  inv_aband : forall p i, vw s !! p = Some i -> i_abandoned i = true -> waitForResult = true;
  inv_pos : forall p i, vw s !! p = Some i -> 0 < i_size i <= cap;
  inv_size : mq_size (s_mq s) = sumZ (wt (vw s)) (l ++ s_flight s);
  inv_cap : mq_size (s_mq s) <= cap;
  inv_refs : if counting
    then mq_refd (s_mq s) ≡ₚ mq_unrefd (s_mq s) ++ datas (vw s) (l ++ s_flight s) ++ map fst (s_blocked s)
    else mq_refd (s_mq s) = [] /\ mq_unrefd (s_mq s) = [];
  inv_waiters : NoDup (s_waiters s) /\ forall p, p ∈ s_waiters s ->
    exists i, vw s !! p = Some i /\ i_abandoned i = false;
  inv_blocked : Forall (fun b => 0 < b.2 <= cap) (s_blocked s);
}.

Lemma view_fresh (q : linkedQueue T) l p i : Linked q l -> view q !! p = Some i -> (p < lq_fresh q)%nat.
Proof.
  intros HL. unfold view. rewrite lookup_fmap. destruct (lq_heap q !! p) eqn:E; [|done]. intros _.
  by eapply ln_fresh.
Qed.

Lemma linked_view (q : linkedQueue T) l p : Linked q l -> p ∈ l -> exists i, view q !! p = Some i /\ i_queued i = true.
Proof.
  intros HL Hp. destruct (chain_in _ _ _ _ (ln_chain _ _ HL) Hp) as [n Hn]. exists (info n).
  unfold view. rewrite lookup_fmap, Hn. split; [done|]. by apply (ln_queued _ _ HL p n Hn).
Qed.

Lemma wt_insert_ne v p i ps : p ∉ ps -> sumZ (wt (<[p := i]> v)) ps = sumZ (wt v) ps.
Proof.
  intros Hp. apply sumZ_ext. intros x Hx. unfold wt. rewrite lookup_insert_ne; [done|]. by intros ->.
Qed.

Lemma wt_new v p el sz : wt (<[p := mkInfo el sz true false None]> v) p = sz.
Proof. unfold wt. by rewrite lookup_insert_eq. Qed.

Lemma datas_insert_ne v p i ps : p ∉ ps -> datas (<[p := i]> v) ps = datas v ps.
Proof.
  induction ps as [|x ps IH]; intros Hp; [done|]. apply not_elem_of_cons in Hp as [Hx Hp].
  unfold datas in *. csimpl. rewrite lookup_insert_ne by done. by rewrite (IH Hp).
Qed.

Lemma datas_app v ps ps' : datas v (ps ++ ps') = datas v ps ++ datas v ps'.
Proof. apply omap_app. Qed.

Lemma datas_perm v ps ps' : ps ≡ₚ ps' -> datas v ps ≡ₚ datas v ps'.
Proof. intros H. unfold datas. by rewrite H. Qed.

(** An update that keeps the data of every element. *)
Lemma datas_same v p i i' ps : v !! p = Some i -> i_data i' = i_data i -> datas (<[p := i']> v) ps = datas v ps.
Proof.
  intros Hp Hd. unfold datas. induction ps as [|x ps IH]; csimpl; [done|]. rewrite IH.
  destruct (decide (x = p)) as [->|]; [|by rewrite lookup_insert_ne].
  rewrite lookup_insert_eq, Hp. simpl. by rewrite Hd.
Qed.

Lemma wt_same v p i i' ps :
  v !! p = Some i -> i_size i' = i_size i -> i_abandoned i' = i_abandoned i ->
  sumZ (wt (<[p := i']> v)) ps = sumZ (wt v) ps.
Proof.
  intros Hp Hs Ha. apply sumZ_ext. intros x _. unfold wt.
  destruct (decide (x = p)) as [->|]; [|by rewrite lookup_insert_ne].
  by rewrite lookup_insert_eq, Hp, Hs, Ha.
Qed.

Lemma Inv_fresh_notin s l : Inv s l -> lq_fresh (mq_items (s_mq s)) ∉ l ++ s_flight s.
Proof.
  intros [HL [_ Hf] _ _ _ _ _ _ _] [Hin|Hin]%elem_of_app.
  - destruct (linked_view _ _ _ HL Hin) as (i & Hi & _). apply (view_fresh _ _ _ _ HL) in Hi. lia.
  - destruct (Hf _ Hin) as (i & Hi & _). apply (view_fresh _ _ _ _ HL) in Hi. lia.
Qed.

Lemma wt_nonneg s l ps : Inv s l -> 0 <= sumZ (wt (vw s)) ps.
Proof.
  intros HI. apply sumZ_nonneg. intros p _. unfold wt. destruct (vw s !! p) as [i|] eqn:E; [|done].
  pose proof (inv_pos _ _ HI p i E). destruct (i_abandoned i); lia.
Qed.

Lemma size_nonneg s l : Inv s l -> 0 <= mq_size (s_mq s).
Proof. intros HI. rewrite (inv_size _ _ HI). by eapply wt_nonneg. Qed.

(** [add]: refused for lack of space, or linked at the end. *)
Lemma add_ok el sz s l mq' r :
  Inv s l -> 0 < sz <= cap -> addTo el sz (s_mq s) = (mq', r) ->
  (mq' = s_mq s /\ (r = AddFull \/ r = AddWaits)) \/
  (r = Added (lq_fresh (mq_items (s_mq s))) /\
   Linked (mq_items mq') (l ++ [lq_fresh (mq_items (s_mq s))]) /\
   view (mq_items mq') = <[lq_fresh (mq_items (s_mq s)) := mkInfo el sz true false None]> (vw s) /\
   lq_fresh (mq_items mq') = S (lq_fresh (mq_items (s_mq s))) /\
   mq_size mq' = mq_size (s_mq s) + sz /\ mq_size mq' <= cap /\ mq_stopped mq' = mq_stopped (s_mq s) /\
   mq_refd mq' = mq_refd (s_mq s) /\ mq_unrefd mq' = mq_unrefd (s_mq s)).
Proof.
  intros HI Hsz. unfold add. pose proof (size_nonneg _ _ HI) as Hnn. pose proof (inv_cap _ _ HI).
  rewrite !i64_id by (unfold is_i64; lia).
  destruct (Z.ltb_spec cap (mq_size (s_mq s) + sz)).
  - intros [= <- <-]. left. split; [done|]. destruct blockOnOverflow; auto.
  - simpl. destruct (push_ok el sz _ _ (inv_linked _ _ HI)) as (q' & -> & HL & Hv & Hfr).
    intros [= <- <-]. right. simpl. split_and!; try done.
Qed.

Lemma counting_waits : waitForResult = true -> counting = false.
Proof. unfold MemoryQueue.counting. intros ->. by rewrite andb_false_r. Qed.

Lemma Inv_ref mq fl bl wa l el sz :
  Inv (mkState mq fl bl wa) l -> 0 < sz <= cap ->
  Inv (mkState (Ref waitForResult hasCounter el mq) fl ((el, sz) :: bl) wa) l.
Proof.
  intros [HL Hf Ha Hp Hs Hc Hr Hw Hb] Hsz. unfold Ref.
  split; unfold vw in *; simpl in *; destruct counting; simpl; try done; try (by constructor).
  rewrite Hr. solve_Permutation.
Qed.

Lemma Inv_unref mq fl bl wa l el sz :
  Inv (mkState mq fl ((el, sz) :: bl) wa) l -> Inv (mkState (Unref waitForResult hasCounter el mq) fl bl wa) l.
Proof.
  intros [HL Hf Ha Hp Hs Hc Hr Hw Hb]. simpl in Hb. inversion Hb; subst. unfold Unref.
  split; unfold vw in *; simpl in *; destruct counting; simpl; try done.
  rewrite Hr. solve_Permutation.
Qed.

Lemma Inv_blocked_perm mq fl bl bl' wa l :
  bl ≡ₚ bl' -> Inv (mkState mq fl bl wa) l -> Inv (mkState mq fl bl' wa) l.
Proof.
  intros Hp [HL Hf Ha Hpos Hs Hc Hr Hw Hb]. split; try done; unfold vw in *; simpl in *.
  - destruct counting; [|done]. rewrite Hr. by rewrite (Permutation_map fst Hp).
  - by rewrite <- Hp.
Qed.

Lemma Inv_accept mq fl bl wa l el sz mq' n :
  Inv (mkState mq fl ((el, sz) :: bl) wa) l -> addTo el sz mq = (mq', Added n) ->
  Inv (mkState mq' fl bl (if waitForResult then wa ++ [n] else wa)) (l ++ [n]) /\
  lq_fresh (mq_items mq) = n /\ lq_fresh (mq_items mq') = S n /\ mq_stopped mq' = mq_stopped mq.
Proof.
  intros HI E. pose proof (Inv_fresh_notin _ _ HI) as Hfr. pose proof (inv_blocked _ _ HI) as Hb.
  inversion Hb as [|?? Hsz Hb']; subst; simpl in Hsz.
  destruct (add_ok el sz _ _ _ _ HI Hsz E) as [(_ & [?|?])|([= ->] & HL & Hv & Hf & Hs & Hc & Hst & Hr1 & Hr2)]; [done..|].
  split; [|done]. simpl in *. set (n := lq_fresh (mq_items mq)) in *.
  destruct HI as [HL0 [Hnd Hfl] Hab Hpos Hsize Hcap0 Hrefs [Hnw Hw] _]; simpl in *.
  assert (Hnl : n ∉ l /\ n ∉ fl) by set_solver. destruct Hnl as [Hnl Hnf].
  unfold vw in *; simpl in *.
  split; unfold vw; simpl; rewrite ?Hv, ?Hs; try done.
  - split; [done|]. intros p Hp. rewrite lookup_insert_ne by set_solver. auto.
  - intros p i [[<- <-]|[? Hi]]%lookup_insert_Some; [done|eauto].
  - intros p i [[<- <-]|[? Hi]]%lookup_insert_Some; [done|eauto].
  - rewrite !sumZ_app, (wt_insert_ne _ _ _ l), (wt_insert_ne _ _ _ fl) by done. rewrite sumZ_app in Hsize. simpl.
    rewrite wt_new. lia.
  - by rewrite <- Hs.
  - rewrite Hr1, Hr2. destruct counting; [|done].
    rewrite !datas_app, (datas_insert_ne _ _ _ l), (datas_insert_ne _ _ _ fl) by done. unfold datas at 2; csimpl. rewrite lookup_insert_eq. simpl.
    rewrite Hrefs, datas_app. solve_Permutation.
  - assert (Hold : forall p, p ∈ wa -> exists i, <[n := mkInfo el sz true false None]> (view (mq_items mq)) !! p = Some i /\
                i_abandoned i = false).
    { intros p Hp. destruct (Hw p Hp) as (i & Hi & Hi'). exists i. rewrite lookup_insert_ne; [done|].
      intros <-. apply (view_fresh _ _ _ _ HL0) in Hi. unfold n in Hi. lia. }
    destruct waitForResult; [|done]. split.
    + apply NoDup_app. split_and!; [done| |apply NoDup_singleton]. intros p Hp Hp'.
      apply list_elem_of_singleton in Hp' as ->. destruct (Hw n Hp) as (i & Hi & _).
      apply (view_fresh _ _ _ _ HL0) in Hi. unfold n in Hi. lia.
    + intros p [Hp| ->%list_elem_of_singleton]%elem_of_app; [auto|]. eexists. by rewrite lookup_insert_eq.
Qed.

(** Taking the head of the list, for a consumer or to drop it. *)
Lemma Inv_pop mq fl bl wa x l q' n :
  Inv (mkState mq fl bl wa) (x :: l) -> pop (mq_items mq) = Some (q', x, n) ->
  (n_abandoned n = false -> Inv (mkState (set_items mq q') (fl ++ [x]) bl wa) l) /\
  (n_abandoned n = true -> Inv (mkState (set_items mq q') fl bl wa) l).
Proof.
  intros [HL [Hnd Hfl] Hab Hpos Hsize Hcap0 Hrefs [Hnw Hw] Hb] E; unfold vw in *; simpl in *.
  destruct (pop_ok _ _ _ HL) as (q1 & n1 & E1 & HL1 & Hx & Hv & Hfr). rewrite E in E1. injection E1 as <- <-.
  set (i' := mkInfo (n_data n) (n_elSize n) false (n_abandoned n) (n_result n)) in *.
  assert (Hxf : x ∉ fl).
  { intros Hin. destruct (Hfl _ Hin) as (i & Hi & Hq & _). rewrite Hx in Hi. by injection Hi as <-. }
  assert (Hwt : forall ps, sumZ (wt (view q')) ps = sumZ (wt (view (mq_items mq))) ps).
  { intros ps. rewrite Hv. by eapply wt_same. }
  assert (Hdt : forall ps, datas (view q') ps = datas (view (mq_items mq)) ps).
  { intros ps. rewrite Hv. by eapply datas_same. }
  assert (Hab' : forall p i, view q' !! p = Some i -> i_abandoned i = true -> waitForResult = true).
  { intros p i. rewrite Hv. intros [[<- <-]|[? Hi]]%lookup_insert_Some; [|eauto]. intros Ha. by eapply (Hab x). }
  assert (Hpos' : forall p i, view q' !! p = Some i -> 0 < i_size i <= cap).
  { intros p i. rewrite Hv. intros [[<- <-]|[? Hi]]%lookup_insert_Some; [|eauto]. apply (Hpos x _ Hx). }
  assert (Hw' : forall p, p ∈ wa -> exists i, view q' !! p = Some i /\ i_abandoned i = false).
  { intros p Hp. destruct (Hw p Hp) as (i & Hi & Hi'). rewrite Hv. destruct (decide (p = x)) as [->|].
    - rewrite Hx in Hi. injection Hi as <-. eexists. by rewrite lookup_insert_eq.
    - exists i. by rewrite lookup_insert_ne. }
  assert (Hfl' : forall p, p ∈ fl -> exists i, view q' !! p = Some i /\ i_queued i = false /\ i_abandoned i = false).
  { intros p Hp. rewrite Hv, lookup_insert_ne by set_solver. auto. }
  split; intros Ha; split; unfold vw; simpl; rewrite ?Hwt, ?Hdt; try done.
  - split.
    + apply NoDup_app. split_and!; [done|set_solver|apply NoDup_singleton].
    + intros p [Hp| ->%list_elem_of_singleton]%elem_of_app; [auto|]. rewrite Hv. eexists. by rewrite lookup_insert_eq.
  - rewrite Hsize, !sumZ_app. simpl. lia.
  - destruct counting; [|done]. rewrite Hrefs. rewrite (datas_perm _ (l ++ fl ++ [x]) (x :: l ++ fl)); [done|].
    solve_Permutation.
  - rewrite Hsize. unfold wt at 1. rewrite Hx. simpl. by rewrite Ha.
  - rewrite (counting_waits (Hab x _ Hx Ha)) in *. done.
Qed.

Lemma nodup_lt (l : list nat) n : NoDup l -> (forall x, x ∈ l -> (x < n)%nat) -> (length l <= n)%nat.
Proof.
  intros Hnd Hl. rewrite <- (length_seq n 0). apply submseteq_length, NoDup_submseteq; [done|].
  intros x Hx. apply elem_of_seq. specialize (Hl x Hx). lia.
Qed.

Lemma linked_length (q : linkedQueue T) l : Linked q l -> (length l <= lq_fresh q)%nat.
Proof.
  intros HL. apply nodup_lt; [apply (ln_nodup _ _ HL)|]. intros x Hx.
  destruct (linked_view _ _ _ HL Hx) as (i & Hi & _). by eapply view_fresh.
Qed.

Definition isAbandoned (s : mstate) (p : loc) : Prop := exists i, vw s !! p = Some i /\ i_abandoned i = true.

(** [Read] skips the abandoned elements, and hands out the first other one. *)
Lemma readLoop_ok fuel mq fl bl wa l :
  Inv (mkState mq fl bl wa) l -> (length l <= fuel)%nat ->
  exists mq' r skipped, mreadLoop waitForResult fuel mq = Some (mq', r) /\
    Forall (isAbandoned (mkState mq fl bl wa)) skipped /\ lq_fresh (mq_items mq') = lq_fresh (mq_items mq) /\
    mq_stopped mq' = mq_stopped mq /\
    (forall x, isAbandoned (mkState mq' fl bl wa) x <-> isAbandoned (mkState mq fl bl wa) x) /\
    ((exists p d l', r = MReadItem p d /\ l = skipped ++ p :: l' /\ ~ isAbandoned (mkState mq fl bl wa) p /\
        Inv (mkState mq' (fl ++ [p]) bl wa) l') \/
     (r = (if mq_stopped mq then MReadStopped else MReadWaits) /\ l = skipped /\ Inv (mkState mq' fl bl wa) [])).
Proof.
  revert mq l. induction fuel as [|fuel IH]; intros mq l HI Hf; simpl;
    pose proof (inv_linked _ _ HI) as HLq; simpl in HLq; rewrite (hasElements_ok _ _ HLq).
  { destruct l; [|simpl in Hf; lia]. eexists mq, _, []. split; [done|]. split_and!; [constructor|done|done|done|]. right. done. }
  destruct l as [|x l]; simpl.
  { eexists mq, _, []. split; [done|]. split_and!; [constructor|done|done|done|]. right. done. }
  destruct (pop_ok _ _ _ HLq) as (q' & n & Ep & _ & Hx & Hv & Hfr). rewrite Ep.
  pose proof (Inv_pop _ _ _ _ _ _ _ _ HI Ep) as [H1 H2].
  assert (Hax : isAbandoned (mkState mq fl bl wa) x <-> n_abandoned n = true).
  { unfold isAbandoned, vw; simpl. rewrite Hx. split; [by intros (i & [= <-] & Ha)|eauto]. }
  assert (Hsame : forall p, isAbandoned (mkState (set_items mq q') fl bl wa) p <-> isAbandoned (mkState mq fl bl wa) p).
  { intros p. unfold isAbandoned, vw; simpl. rewrite Hv. destruct (decide (p = x)) as [->|].
    - rewrite lookup_insert_eq, Hx. naive_solver.
    - by rewrite lookup_insert_ne. }
  destruct (n_abandoned n) eqn:Ha.
  - assert (Hwait : waitForResult = true) by (by eapply (inv_aband _ _ HI x); [exact Hx|simpl]).
    rewrite Hwait in *. simpl.
    destruct (IH (set_items mq q') l (H2 eq_refl)) as (mq' & r & sk & -> & Hsk & Hfr' & Hst' & Hab' & Hcase); [simpl in Hf; lia|].
    eexists mq', r, (x :: sk). split; [done|].
    split_and!.
    + constructor; [by apply Hax|]. eapply Forall_impl; [exact Hsk|]. intros p. by apply Hsame.
    + simpl in Hfr'. congruence.
    + done.
    + intros y. rewrite Hab'. apply Hsame.
    + destruct Hcase as [(p & d & l' & -> & -> & Hna & HI')|(-> & -> & HI')]; [left|by right].
      exists p, d, l'. split_and!; try done. by rewrite <- Hsame.
  - rewrite andb_false_r. eexists _, _, []. split; [done|]. split_and!; [constructor|done|done|exact Hsame|].
    left. exists x, (n_data n), l. split_and!; try done; [by rewrite Hax|by apply H1].
Qed.

(** Completing an element handed out gives its space and its reference back. *)
Lemma Inv_done mq fl fl1 bl wa l p err :
  Inv (mkState mq fl bl wa) l -> fl ≡ₚ p :: fl1 ->
  exists mq', ondone p err mq = Some mq' /\ Inv (mkState mq' fl1 bl wa) l /\
    lq_fresh (mq_items mq') = lq_fresh (mq_items mq) /\
    (waitForResult = true -> resultReceived p mq' = Some (MReturned err)) /\
    (forall x, isAbandoned (mkState mq' fl1 bl wa) x <-> isAbandoned (mkState mq fl bl wa) x).
Proof.
  intros HI Hp. pose proof (size_nonneg _ _ HI) as Hnn. simpl in Hnn.
  destruct HI as [HL [Hnd Hfl] Hab Hpos Hsize Hcap0 Hrefs [Hnw Hw] Hb]; unfold vw, isAbandoned in *; simpl in *.
  destruct (Hfl p) as (i & Hi & Hiq & Hia); [rewrite Hp; left|].
  pose proof Hi as Hi2. unfold view in Hi2. rewrite lookup_fmap in Hi2.
  destruct (lq_heap (mq_items mq) !! p) as [nd|] eqn:En; [|done]. injection Hi2 as <-. simpl in Hiq, Hia.
  pose proof (Hpos _ _ Hi) as Hsz. simpl in Hsz.
  assert (Hsum : mq_size mq = n_elSize nd + sumZ (wt (view (mq_items mq))) (l ++ fl1)).
  { rewrite Hsize, (sumZ_permutation _ (l ++ fl) (p :: l ++ fl1)) by (rewrite Hp; solve_Permutation).
    simpl. unfold wt at 1. rewrite Hi. simpl. by rewrite Hia. }
  assert (Hdat : datas (view (mq_items mq)) (l ++ fl) ≡ₚ n_data nd :: datas (view (mq_items mq)) (l ++ fl1)).
  { rewrite (datas_perm _ (l ++ fl) (p :: l ++ fl1)) by (rewrite Hp; solve_Permutation).
    unfold datas; csimpl. by rewrite Hi. }
  rewrite Hp in Hnd. apply NoDup_cons in Hnd as [Hnp Hnd1].
  assert (Hfl1 : forall x, x ∈ fl1 -> exists i, view (mq_items mq) !! x = Some i /\ i_queued i = false /\ i_abandoned i = false).
  { intros x Hx. apply Hfl. rewrite Hp. by right. }
  unfold monDone. rewrite En. cbn [mbind option_bind]. eexists. split; [done|].
  unfold freeCapacity, Unref.
  destruct (sumbool_of_bool waitForResult) as [Ewait|Ewait].
  - rewrite (counting_waits Ewait) in *. rewrite Ewait. simpl.
    set (h' := <[p := set_result nd err]> (lq_heap (mq_items mq))).
    assert (Hv : view (set_heap (mq_items mq) h') = <[p := info (set_result nd err)]> (view (mq_items mq))).
    { unfold view, h'; simpl. by rewrite fmap_insert. }
    split; [|split; [done|split]].
    + split; unfold vw; simpl; rewrite ?Hv, ?(counting_waits Ewait); try done.
      * by eapply Linked_update.
      * split; [done|]. intros x Hx. rewrite lookup_insert_ne by set_solver. auto.
      * intros x j [[<- <-]|[? Hj]]%lookup_insert_Some; [done|eauto].
      * rewrite i64_id by (unfold is_i64; lia). erewrite wt_same; [|done..]. lia.
      * rewrite i64_id by (unfold is_i64; lia). lia.
      * split; [done|]. intros x Hx. destruct (Hw x Hx) as (j & Hj & Hja). destruct (decide (x = p)) as [->|].
        { eexists. by rewrite lookup_insert_eq. } { exists j. by rewrite lookup_insert_ne. }
    + intros _. unfold resultReceived; simpl. unfold h'. by rewrite lookup_insert_eq.
    + intros x. unfold vw; simpl. rewrite Hv.
      destruct (decide (x = p)) as [->|]; [|by rewrite lookup_insert_ne].
      rewrite lookup_insert_eq, Hi. naive_solver.
  - destruct counting eqn:Ec; rewrite Ewait; (split; [|split; [done|split; [congruence|done]]]);
      split; unfold vw; simpl; rewrite ?i64_id by (unfold is_i64; lia); rewrite ?Ec; try done; try lia.
    rewrite Hrefs, Hdat. solve_Permutation.
Qed.

(** A producer that gives up while its element is queued frees its space. *)
Lemma Inv_abandon mq fl bl wa wa1 l p :
  Inv (mkState mq fl bl wa) l -> wa ≡ₚ p :: wa1 -> waitForResult = true ->
  exists mq' b, abandon p mq = Some (mq', b) /\ lq_fresh (mq_items mq') = lq_fresh (mq_items mq) /\
    (b = true /\ p ∈ l /\ Inv (mkState mq' fl bl wa1) l /\
       (forall x, isAbandoned (mkState mq' fl bl wa1) x <-> x = p \/ isAbandoned (mkState mq fl bl wa) x) \/
     b = false /\ p ∉ l /\ mq' = mq).
Proof.
  intros HI Hp Hwait. pose proof (size_nonneg _ _ HI) as Hnn. simpl in Hnn.
  destruct HI as [HL [Hnd Hfl] Hab Hpos Hsize Hcap0 Hrefs [Hnw Hw] Hb]; unfold vw, isAbandoned in *; simpl in *.
  destruct (Hw p) as (i & Hi & Hia); [rewrite Hp; left|].
  pose proof Hi as Hi2. unfold view in Hi2. rewrite lookup_fmap in Hi2.
  destruct (lq_heap (mq_items mq) !! p) as [nd|] eqn:En; [|done]. injection Hi2 as <-. simpl in Hia.
  unfold abandon. rewrite En. pose proof (ln_queued _ _ HL p nd En) as Hq.
  destruct (n_queued nd) eqn:Eq; simpl.
  2: { eexists mq, false. split; [done|]. split; [done|]. right. split_and!; try done. rewrite <- Hq. done. }
  assert (Hpl : p ∈ l) by (by apply Hq).
  set (h' := <[p := set_abandoned nd]> (lq_heap (mq_items mq))).
  assert (Hv : view (set_heap (mq_items mq) h') = <[p := info (set_abandoned nd)]> (view (mq_items mq))).
  { unfold view, h'; simpl. by rewrite fmap_insert. }
  pose proof (Hpos _ _ Hi) as Hsz. simpl in Hsz.
  assert (Hpf : p ∉ fl).
  { intros Hin. destruct (Hfl _ Hin) as (j & Hj & Hjq & _). rewrite Hi in Hj. injection Hj as <-. simpl in Hjq. congruence. }
  apply list_elem_of_split in Hpl as (l1 & l2 & ->).
  pose proof (ln_nodup _ _ HL) as Hnl. apply NoDup_app in Hnl as (_ & Hd1 & Hnl2).
  apply NoDup_cons in Hnl2 as [Hd2 _]. assert (Hp1 : p ∉ l1) by set_solver.
  assert (Hsum : mq_size mq - n_elSize nd = sumZ (wt (view (set_heap (mq_items mq) h'))) ((l1 ++ p :: l2) ++ fl)).
  { rewrite Hsize, Hv, !sumZ_app. simpl. rewrite !wt_insert_ne by done.
    unfold wt at 2 6. rewrite lookup_insert_eq, Hi. simpl. rewrite Hia. lia. }
  rewrite Hp in Hnw. apply NoDup_cons in Hnw as [Hpw Hnw1].
  eexists _, true. split; [done|]. split; [done|]. left. split; [done|]. split; [set_solver|]. split.
  - split; unfold vw; simpl; rewrite ?Hv, ?(counting_waits Hwait); try done.
    + by eapply Linked_update.
    + split; [done|]. intros x Hx. rewrite lookup_insert_ne by set_solver. auto.
    + intros x j [[<- <-]|[? Hj]]%lookup_insert_Some; [done|eauto].
    + rewrite i64_id by (unfold is_i64; lia). by rewrite Hsum, Hv.
    + rewrite i64_id by (unfold is_i64; lia). lia.
    + by rewrite (counting_waits Hwait) in Hrefs.
    + split; [done|]. intros x Hx. rewrite lookup_insert_ne by set_solver. apply Hw. rewrite Hp. by right.
  - intros x. unfold vw; simpl. rewrite Hv. destruct (decide (x = p)) as [->|].
    + rewrite lookup_insert_eq. split; [by left|]. intros _. eexists. done.
    + rewrite lookup_insert_ne by done. naive_solver.
Qed.

(** ** The calls as steps *)

Inductive mevent :=
  | EAccept (p : loc)
  | ENone
  | ERead (p : loc)
  | EDone (p : loc) (err : option error)
  | EAbandon (p : loc)
  | EResult (p : loc) (err : option error).

(** An offer was accepted when it allocated a node. *)
Definition acceptEvent (mq mq' : mqueue T) : mevent :=
  if (lq_fresh (mq_items mq) <? lq_fresh (mq_items mq'))%nat then EAccept (lq_fresh (mq_items mq)) else ENone.

(** Where the producer of [el] is after its call. *)
Definition settle (s : mstate) (mq' : mqueue T) (el : T) (res : MOfferResult) (bl : list (T * Z)) : mstate :=
  mkState mq' (s_flight s)
    (match res with MBlockedForSpace sz => (el, sz) :: bl | _ => bl end)
    (match res with MWaitsForResult n => s_waiters s ++ [n] | _ => s_waiters s end).

Inductive mstep : mstate -> mevent -> mstate -> Prop :=
  | ms_offer s el mq' res :
      offer el (s_mq s) = (mq', res) ->
      mstep s (acceptEvent (s_mq s) mq') (settle s mq' el res (s_blocked s))
  | ms_woken s el sz bl1 mq' res :
      s_blocked s ≡ₚ (el, sz) :: bl1 -> woken el sz (s_mq s) = (mq', res) ->
      mstep s (acceptEvent (s_mq s) mq') (settle s mq' el res bl1)
  | ms_cancel s el sz bl1 e mq' res :
      s_blocked s ≡ₚ (el, sz) :: bl1 -> canceled el e (s_mq s) = (mq', res) ->
      mstep s ENone (settle s mq' el res bl1)
  | ms_giveup s p wa1 e mq' res :
      waitForResult = true -> s_waiters s ≡ₚ p :: wa1 -> resultCanceled p e (s_mq s) = Some (mq', res) ->
      mstep s (match res with MReturned _ => EAbandon p | _ => ENone end)
        (mkState mq' (s_flight s) (s_blocked s) (match res with MReturned _ => wa1 | _ => s_waiters s end))
  | ms_result s p wa1 err :
      s_waiters s ≡ₚ p :: wa1 -> resultReceived p (s_mq s) = Some (MReturned err) ->
      mstep s (EResult p err) (mkState (s_mq s) (s_flight s) (s_blocked s) wa1)
  | ms_read s mq' p d :
      read (s_mq s) = Some (mq', MReadItem p d) ->
      mstep s (ERead p) (mkState mq' (s_flight s ++ [p]) (s_blocked s) (s_waiters s))
  | ms_idle s mq' res :
      read (s_mq s) = Some (mq', res) -> (forall p d, res <> MReadItem p d) ->
      mstep s ENone (mkState mq' (s_flight s) (s_blocked s) (s_waiters s))
  | ms_done s p fl1 err mq' :
      s_flight s ≡ₚ p :: fl1 -> ondone p err (s_mq s) = Some mq' ->
      mstep s (EDone p err) (mkState mq' fl1 (s_blocked s) (s_waiters s))
  | ms_shutdown s :
      mstep s ENone (mkState (MShutdown (s_mq s)) (s_flight s) (s_blocked s) (s_waiters s)).

Inductive mrun : list mevent -> mstate -> Prop :=
  | mrun_start : mrun [] (mkState newMemoryQueue [] [] [])
  | mrun_step tr s e s' : mrun tr s -> mstep s e s' -> mrun (tr ++ [e]) s'.

Definition evAccepted (e : mevent) : list loc := match e with EAccept p => [p] | _ => [] end.
Definition evRead (e : mevent) : list loc := match e with ERead p => [p] | _ => [] end.
Definition evAbandoned (e : mevent) : list loc := match e with EAbandon p => [p] | _ => [] end.

Definition acceptedM (tr : list mevent) : list loc := flat_map evAccepted tr.
Definition deliveredM (tr : list mevent) : list loc := flat_map evRead tr.
Definition abandonedM (tr : list mevent) : list loc := flat_map evAbandoned tr.

(** The elements of [l] whose producers did not give up. *)
Definition kept (tr : list mevent) (l : list loc) : list loc := filter (fun p => p ∉ abandonedM tr) l.

Record Fifo (tr : list mevent) (s : mstate) (l : list loc) : Prop := {
  ff_inv : Inv s l;
  ff_order : kept tr (acceptedM tr) = deliveredM tr ++ kept tr l;
  ff_nodup : NoDup (acceptedM tr);
  ff_fresh : Forall (fun p => p < lq_fresh (mq_items (s_mq s)))%nat (acceptedM tr ++ abandonedM tr);
  ff_aband : forall p, p ∈ l -> (isAbandoned s p <-> p ∈ abandonedM tr);
}.

Lemma snoc_flat {B} (f : mevent -> list B) tr e : flat_map f (tr ++ [e]) = flat_map f tr ++ f e.
Proof. rewrite flat_map_app. simpl. by rewrite app_nil_r. Qed.

(** Events that are no acceptance, delivery or abandonment leave the order alone. *)
Lemma Fifo_quiet tr s l e s' :
  Fifo tr s l -> evAccepted e = [] -> evRead e = [] -> evAbandoned e = [] -> Inv s' l ->
  lq_fresh (mq_items (s_mq s')) = lq_fresh (mq_items (s_mq s)) ->
  (forall p, p ∈ l -> isAbandoned s' p <-> isAbandoned s p) -> Fifo (tr ++ [e]) s' l.
Proof.
  intros [HI Ho Hn Hf Ha] E1 E2 E3 HI' Hfr Hab.
  assert (Ea : acceptedM (tr ++ [e]) = acceptedM tr) by (unfold acceptedM; rewrite snoc_flat, E1; apply app_nil_r).
  assert (Ed : deliveredM (tr ++ [e]) = deliveredM tr) by (unfold deliveredM; rewrite snoc_flat, E2; apply app_nil_r).
  assert (Eb : abandonedM (tr ++ [e]) = abandonedM tr) by (unfold abandonedM; rewrite snoc_flat, E3; apply app_nil_r).
  split; unfold kept in *; rewrite ?Ea, ?Ed, ?Eb, ?Hfr; try done.
  intros p Hp. rewrite Hab by done. by apply Ha.
Qed.

(** An acceptance puts the new element last. *)
Lemma Fifo_accept tr s l s' n :
  Fifo tr s l -> n = lq_fresh (mq_items (s_mq s)) -> Inv s' (l ++ [n]) ->
  lq_fresh (mq_items (s_mq s')) = S n ->
  (forall p, p ∈ l -> isAbandoned s' p <-> isAbandoned s p) -> ~ isAbandoned s' n ->
  Fifo (tr ++ [EAccept n]) s' (l ++ [n]).
Proof.
  intros [HI Ho Hn Hf Ha] -> HI' Hfr Hab Hna. set (n := lq_fresh (mq_items (s_mq s))) in *.
  assert (Ea : acceptedM (tr ++ [EAccept n]) = acceptedM tr ++ [n]) by (unfold acceptedM; by rewrite snoc_flat).
  assert (Ed : deliveredM (tr ++ [EAccept n]) = deliveredM tr) by (unfold deliveredM; rewrite snoc_flat; apply app_nil_r).
  assert (Eb : abandonedM (tr ++ [EAccept n]) = abandonedM tr) by (unfold abandonedM; rewrite snoc_flat; apply app_nil_r).
  assert (Hnew : n ∉ acceptedM tr /\ n ∉ abandonedM tr).
  { split; intros Hin; assert (Hlt : (n < n)%nat) by (apply (proj1 (Forall_forall _ _) Hf); set_solver); lia. }
  destruct Hnew as [Hn1 Hn2].
  split; unfold kept in *; rewrite ?Ea, ?Ed, ?Eb; try done.
  - rewrite !filter_app, Ho, <- app_assoc. done.
  - apply NoDup_app. split_and!; [done|set_solver|apply NoDup_singleton].
  - rewrite Hfr. apply Forall_app in Hf as [Hf1 Hf2].
    rewrite !Forall_app. split_and!; [eapply Forall_impl; [exact Hf1|simpl; lia]|repeat constructor; lia|].
    eapply Forall_impl; [exact Hf2|simpl; lia].
  - intros p [Hp| ->%list_elem_of_singleton]%elem_of_app; [rewrite Hab by done; by apply Ha|]. naive_solver.
Qed.

Lemma kept_app tr l1 l2 : kept tr (l1 ++ l2) = kept tr l1 ++ kept tr l2.
Proof. apply filter_app. Qed.

Lemma kept_none tr l : Forall (fun p => p ∈ abandonedM tr) l -> kept tr l = [].
Proof. induction 1 as [|p l Hp _ IH]; [done|]. unfold kept in *. rewrite filter_cons_False; [done|]. auto. Qed.

(** A read delivers the first element that is not abandoned, or finds none. *)
Lemma Fifo_read tr s l s' skipped p l' :
  Fifo tr s l -> l = skipped ++ p :: l' -> Forall (isAbandoned s) skipped -> ~ isAbandoned s p -> Inv s' l' ->
  lq_fresh (mq_items (s_mq s')) = lq_fresh (mq_items (s_mq s)) ->
  (forall x, isAbandoned s' x <-> isAbandoned s x) -> Fifo (tr ++ [ERead p]) s' l'.
Proof.
  intros [HI Ho Hn Hf Ha] -> Hsk Hp HI' Hfr Hab.
  assert (Ea : acceptedM (tr ++ [ERead p]) = acceptedM tr) by (unfold acceptedM; rewrite snoc_flat; apply app_nil_r).
  assert (Ed : deliveredM (tr ++ [ERead p]) = deliveredM tr ++ [p]) by (unfold deliveredM; by rewrite snoc_flat).
  assert (Eb : abandonedM (tr ++ [ERead p]) = abandonedM tr) by (unfold abandonedM; rewrite snoc_flat; apply app_nil_r).
  split; unfold kept in *; rewrite ?Ea, ?Ed, ?Eb, ?Hfr; try done.
  - rewrite Ho. change (filter _ (skipped ++ p :: l')) with (kept tr (skipped ++ p :: l')).
    rewrite kept_app, (kept_none tr skipped).
    + simpl. unfold kept. rewrite filter_cons_True by (rewrite <- Ha; set_solver). by rewrite <- app_assoc.
    + apply Forall_forall. intros x Hx. apply Ha; [set_solver|]. by apply (proj1 (Forall_forall _ _) Hsk).
  - intros x Hx. rewrite Hab. apply Ha. set_solver.
Qed.

Lemma filter_notin_cons (p : loc) (ab l : list loc) :
  filter (fun x => x ∉ ab ++ [p]) l = filter (fun x => x <> p) (filter (fun x => x ∉ ab) l).
Proof.
  rewrite list_filter_filter. apply list_filter_iff. intros x. set_solver.
Qed.

Lemma Fifo_abandon tr s l s' p :
  Fifo tr s l -> p ∈ l -> ~ isAbandoned s p -> Inv s' l ->
  lq_fresh (mq_items (s_mq s')) = lq_fresh (mq_items (s_mq s)) ->
  (forall x, isAbandoned s' x <-> x = p \/ isAbandoned s x) -> Fifo (tr ++ [EAbandon p]) s' l.
Proof.
  intros [HI Ho Hn Hf Ha] Hp Hna HI' Hfr Hab.
  assert (Ea : acceptedM (tr ++ [EAbandon p]) = acceptedM tr) by (unfold acceptedM; rewrite snoc_flat; apply app_nil_r).
  assert (Ed : deliveredM (tr ++ [EAbandon p]) = deliveredM tr) by (unfold deliveredM; rewrite snoc_flat; apply app_nil_r).
  assert (Eb : abandonedM (tr ++ [EAbandon p]) = abandonedM tr ++ [p]) by (unfold abandonedM; by rewrite snoc_flat).
  assert (Hpa : p ∉ abandonedM tr) by (by rewrite <- Ha).
  assert (Hpk : p ∈ kept tr l) by (by apply list_elem_of_filter).
  assert (Hnd : NoDup (deliveredM tr ++ kept tr l)) by (rewrite <- Ho; by apply NoDup_filter).
  apply NoDup_app in Hnd as (_ & Hdis & _).
  assert (Hpd : p ∉ deliveredM tr) by (intros Hin; by apply (Hdis p)).
  split; unfold kept in *; rewrite ?Ea, ?Ed, ?Eb, ?Hfr; try done.
  - rewrite !filter_notin_cons, Ho, filter_app. f_equal. apply filter_all, Forall_forall. set_solver.
  - rewrite !Forall_app in *. destruct Hf as [Hf1 Hf2]. split_and!; try done. repeat constructor.
    destruct (linked_view _ _ _ (inv_linked _ _ HI) Hp) as (i & Hi & _). by eapply view_fresh; [apply (inv_linked _ _ HI)|].
  - intros x Hx. rewrite Hab, (Ha x Hx). set_solver.
Qed.

(** One try of an offer whose element is counted among the blocked ones. *)
Lemma Fifo_try tr s l mq bl el sz mq' res :
  Fifo tr s l -> Inv (mkState mq (s_flight s) ((el, sz) :: bl) (s_waiters s)) l ->
  mq_items mq = mq_items (s_mq s) ->
  woken el sz mq = (mq', res) ->
  exists l', Fifo (tr ++ [acceptEvent (s_mq s) mq']) (settle s mq' el res bl) l' /\ res <> MFault.
Proof.
  intros HF HI Hit E. unfold offerWoken in E. pose proof (inv_blocked _ _ HI) as Hb.
  inversion Hb as [|?? Hsz _]; subst; simpl in Hsz.
  destruct (addTo el sz mq) as [mq1 r] eqn:Ea.
  assert (Hab : forall x fl bl wa, isAbandoned (mkState mq fl bl wa) x <-> isAbandoned s x).
  { intros. unfold isAbandoned, vw; simpl. by rewrite Hit. }
  assert (Hquiet : forall mq2 e, mq_items mq2 = mq_items mq -> acceptEvent (s_mq s) mq2 = e -> e = ENone).
  { intros mq2 e H <-. unfold acceptEvent. by rewrite H, Hit, Nat.ltb_irrefl. }
  destruct (add_ok el sz _ _ _ _ HI Hsz Ea) as [(-> & [-> | ->])|(-> & HL & Hv & Hf & Hs & Hc & Hst & _)]; simpl in *.
  - injection E as <- <-. exists l. split; [|done].
    assert (Hi2 : mq_items (Unref waitForResult hasCounter el mq) = mq_items mq) by (unfold Unref; by destruct counting).
    rewrite (Hquiet _ _ Hi2 eq_refl). eapply Fifo_quiet; try done.
    + by apply Inv_unref in HI.
    + simpl. by rewrite Hi2, Hit.
    + intros x _. unfold isAbandoned, vw; simpl. by rewrite Hi2, Hit.
  - injection E as <- <-. exists l. split; [|done]. rewrite (Hquiet _ _ eq_refl eq_refl).
    eapply Fifo_quiet; try done; simpl; [by rewrite Hit|]. intros x _. apply Hab.
  - destruct (Inv_accept _ _ _ _ _ _ _ _ _ HI Ea) as (HI' & _ & Hfr & _).
    exists (l ++ [lq_fresh (mq_items mq)]). injection E as <- <-.
    unfold acceptEvent. rewrite Hf, <- Hit, (proj2 (Nat.ltb_lt _ _)) by lia. split; [|by destruct waitForResult].
    eapply Fifo_accept; try done; simpl.
    + by rewrite Hit.
    + unfold settle. by destruct waitForResult.
    + intros x Hx. unfold isAbandoned, vw; simpl. rewrite Hv, lookup_insert_ne; [by rewrite <- Hit|].
      intros <-. pose proof (Inv_fresh_notin _ _ HI) as Hn. simpl in Hn. set_solver.
    + unfold isAbandoned, vw; simpl. rewrite Hv, lookup_insert_eq. naive_solver.
Qed.

Lemma Fifo_step tr s e s' l : Fifo tr s l -> mstep s e s' -> exists l', Fifo (tr ++ [e]) s' l'.
Proof.
  intros HF Hstep. pose proof (ff_inv _ _ _ HF) as HI.
  destruct Hstep as [s el mq' res E|s el sz bl1 mq' res Hp E|s el sz bl1 er mq' res Hp E|s p wa1 er mq' res Hw Hp E
                    |s p wa1 err Hp E|s mq' p d E|s mq' res E Hni|s p fl1 err mq' Hp E|s]; destruct s as [mq fl bl wa]; simpl in *.
  - unfold MOffer in E.
    assert (Hq : forall err, (mq', res) = (mq, MReturned err) -> exists l', Fifo (tr ++ [acceptEvent mq mq']) (settle (mkState mq fl bl wa) mq' el res bl) l').
    { intros err [= -> ->]. exists l. unfold acceptEvent. rewrite Nat.ltb_irrefl. by eapply Fifo_quiet. }
    destruct (Z.eqb_spec (Sizeof sizerType el) 0); [by eapply Hq|].
    destruct (Z.leb_spec (Sizeof sizerType el) 0); [by eapply Hq|].
    destruct (Z.ltb_spec cap (Sizeof sizerType el)); [by eapply Hq|]. clear Hq.
    destruct (Fifo_try tr (mkState mq fl bl wa) l (Ref waitForResult hasCounter el mq) bl el (Sizeof sizerType el) mq' res HF)
      as (l' & HF' & _); [by apply Inv_ref|unfold Ref; by destruct counting|exact E|]. by exists l'.
  - destruct (Fifo_try tr (mkState mq fl bl wa) l mq bl1 el sz mq' res HF) as (l' & HF' & _);
      [by eapply Inv_blocked_perm|done|exact E|]. by exists l'.
  - injection E as <- <-. exists l.
    assert (Hi2 : mq_items (Unref waitForResult hasCounter el mq) = mq_items mq) by (unfold Unref; by destruct counting).
    eapply Fifo_quiet; try done.
    + eapply Inv_unref. by eapply Inv_blocked_perm.
    + simpl. by rewrite Hi2.
    + intros x _. unfold isAbandoned, vw; simpl. by rewrite Hi2.
  - destruct (Inv_abandon _ _ _ _ _ _ _ HI Hp Hw) as (mq1 & b & Ea & Hfr & Hcase).
    unfold resultCanceled in E. rewrite Ea in E.
    destruct Hcase as [(-> & Hpl & HI' & Hab)|(-> & _ & ->)]; injection E as <- <-; exists l.
    + eapply Fifo_abandon; try done. intros (i & Hi & Hia).
      destruct (proj2 (inv_waiters _ _ HI) p) as (j & Hj & Hja); [simpl; rewrite Hp; left|]. congruence.
    + by eapply Fifo_quiet.
  - exists l. eapply Fifo_quiet; try done. destruct HI as [? ? ? ? ? ? ? [Hn Hw] ?]. split; try done; simpl in *.
    rewrite Hp in Hn. apply NoDup_cons in Hn as [_ Hn]. split; [done|]. intros x Hx. apply Hw. rewrite Hp. by right.
  - destruct (readLoop_ok (lq_fresh (mq_items mq)) _ _ _ _ _ HI (linked_length _ _ (inv_linked _ _ HI)))
      as (mq1 & r & sk & Er & Hsk & Hfr & _ & Hab & Hcase).
    unfold MRead in E. rewrite Er in E. injection E as -> ->.
    destruct Hcase as [(p1 & d1 & l' & [= <- <-] & -> & Hna & HI')|(Hr & _)]; [|by destruct (mq_stopped mq)].
    exists l'. by eapply Fifo_read.
  - destruct (readLoop_ok (lq_fresh (mq_items mq)) _ _ _ _ _ HI (linked_length _ _ (inv_linked _ _ HI)))
      as (mq1 & r & sk & Er & Hsk & Hfr & _ & Hab & Hcase).
    unfold MRead in E. rewrite Er in E. injection E as -> ->.
    destruct Hcase as [(p1 & d1 & l' & -> & _)|(_ & -> & HI')]; [by edestruct Hni|].
    exists []. destruct HF as [_ Ho Hn Hf Ha].
    assert (Hk : kept tr sk = []).
    { apply kept_none, Forall_forall. intros x Hx. apply Ha; [done|]. by apply (proj1 (Forall_forall _ _) Hsk). }
    eapply (Fifo_quiet tr (mkState mq' fl bl wa)); try done. split; try done; simpl in *.
    + by rewrite Ho, Hk.
    + by rewrite Hfr.
    + intros x Hx. by apply not_elem_of_nil in Hx.
  - destruct (Inv_done _ _ _ _ _ _ p err HI Hp) as (mq1 & E1 & HI' & Hfr & _ & Hab).
    rewrite E in E1. injection E1 as ->. exists l. by eapply Fifo_quiet.
  - exists l. eapply Fifo_quiet; try done. by destruct HI.
Qed.

Lemma mrun_fifo tr s : mrun tr s -> exists l, Fifo tr s l.
Proof.
  induction 1 as [|tr s e s' _ [l HF] Hstep]; [|by eapply Fifo_step].
  exists [].
  assert (Hnil : forall p : loc, p ∈ @nil loc -> False) by (intros p Hp; by apply not_elem_of_nil in Hp).
  split; simpl; try done; try apply NoDup_nil_2; try (by constructor).
  - split; simpl; try done; try (by constructor).
    + split; simpl; try done. apply NoDup_nil_2.
    + split; [apply NoDup_nil_2|]. intros p Hp. by apply Hnil in Hp.
    + lia.
    + destruct counting; done.
    + split; [apply NoDup_nil_2|]. intros p Hp. by apply Hnil in Hp.
  - intros p Hp. by apply Hnil in Hp.
Qed.

(** C33: The memory queue is first in, first out, and an abandoned element is never
    delivered: the elements handed to consumers are, in order, a prefix of the
    accepted ones without those whose producers gave up. *)
Theorem memory_fifo tr s : mrun tr s -> deliveredM tr `prefix_of` kept tr (acceptedM tr).
Proof. intros [l HF]%mrun_fifo. exists (kept tr l). apply (ff_order _ _ _ HF). Qed.

(** The size of the memory queue is the total size of the elements queued and
    not abandoned or handed out and not completed, it stays within the capacity,
    and with a reference counter every reference taken is given back once no
    element is queued, handed out or waiting for space. *)
Theorem memory_size_and_refs tr s :
  mrun tr s ->
  (exists l, Linked (mq_items (s_mq s)) l /\ mq_size (s_mq s) = sumZ (wt (vw s)) (l ++ s_flight s)) /\
  0 <= mq_size (s_mq s) <= cap /\
  (hasElements (mq_items (s_mq s)) = false -> s_flight s = [] -> s_blocked s = [] ->
   mq_refd (s_mq s) ≡ₚ mq_unrefd (s_mq s)).
Proof.
  intros [l [HI _ _ _ _]]%mrun_fifo. split; [|split].
  - exists l. split; [apply (inv_linked _ _ HI)|apply (inv_size _ _ HI)].
  - split; [by eapply size_nonneg|apply (inv_cap _ _ HI)].
  - intros He Hf Hb. pose proof (inv_refs _ _ HI) as Hr. rewrite (hasElements_ok _ _ (inv_linked _ _ HI)) in He.
    destruct l; [|done]. rewrite Hf, Hb in Hr. simpl in Hr. destruct counting; [|by destruct Hr as [-> ->]].
    by rewrite app_nil_r in Hr.
Qed.

(** No call on the memory queue follows a dangling pointer or fails to return:
    an offer, a read, the completion of an element handed out and the giving up
    of a waiting producer always have a result, and a read says that the queue
    is stopped only when every accepted element that was not abandoned has been
    delivered. *)
Theorem memory_calls_return tr s :
  mrun tr s ->
  (forall el, (offer el (s_mq s)).2 <> MFault) /\
  (exists mq' r, read (s_mq s) = Some (mq', r) /\ (r = MReadStopped -> deliveredM tr = kept tr (acceptedM tr))) /\
  (forall p err, p ∈ s_flight s -> is_Some (ondone p err (s_mq s))) /\
  (forall p e, waitForResult = true -> p ∈ s_waiters s -> is_Some (resultCanceled p e (s_mq s))).
Proof.
  intros [l HF]%mrun_fifo. pose proof (ff_inv _ _ _ HF) as HI. destruct s as [mq fl bl wa]; simpl in *. split_and!.
  - intros el. unfold MOffer. repeat case_match; try done.
    destruct (woken el (Sizeof sizerType el) (Ref waitForResult hasCounter el mq)) as [mq' res] eqn:E.
    unfold offerWoken in E. rewrite E. simpl. zbool.
    destruct (Fifo_try tr (mkState mq fl bl wa) l (Ref waitForResult hasCounter el mq) bl el (Sizeof sizerType el) mq' res HF)
      as (l' & _ & Hres); [apply Inv_ref; [done|lia]|unfold Ref; by destruct counting|exact E|done].
  - destruct (readLoop_ok (lq_fresh (mq_items mq)) _ _ _ _ _ HI (linked_length _ _ (inv_linked _ _ HI)))
      as (mq1 & r & sk & Er & Hsk & _ & _ & _ & Hcase).
    exists mq1, r. split; [exact Er|]. intros ->. destruct Hcase as [(? & ? & ? & ? & _)|(_ & -> & _)]; [done|].
    rewrite (ff_order _ _ _ HF), kept_none; [by rewrite app_nil_r|].
    apply Forall_forall. intros x Hx. apply (ff_aband _ _ _ HF x Hx). by apply (proj1 (Forall_forall _ _) Hsk).
  - intros p err Hp. apply elem_of_Permutation in Hp as [fl1 Hp].
    destruct (Inv_done _ _ _ _ _ _ p err HI Hp) as (mq1 & E & _). by exists mq1.
  - intros p e Hw Hp. apply elem_of_Permutation in Hp as [wa1 Hp].
    destruct (Inv_abandon _ _ _ _ _ _ _ HI Hp Hw) as (mq1 & b & Ea & _). unfold resultCanceled. rewrite Ea.
    destruct b; by eexists.
Qed.

(** ** Executing calls *)

Inductive mcall :=
  | MCOffer (el : T)
  | MCWake (k : nat)
  | MCGiveUp (k : nat) (e : error)
  | MCRead
  | MCDone (k : nat) (err : option error)
  | MCShutdown.

Definition mexec (c : mcall) (s : mstate) : option (mevent * mstate) :=
  let mq := s_mq s in
  match c with
  | MCOffer el =>
      let '(mq', res) := offer el mq in Some (acceptEvent mq mq', settle s mq' el res (s_blocked s))
  | MCWake k =>
      '(el, sz) ← s_blocked s !! k;
      let '(mq', res) := woken el sz mq in
      Some (acceptEvent mq mq', settle s mq' el res (delete k (s_blocked s)))
  | MCGiveUp k e =>
      if waitForResult then
        match s_waiters s !! k with
        | None => None
        | Some p =>
            match resultCanceled p e mq with
            | None => None
            | Some (mq', res) =>
                Some (match res with MReturned _ => EAbandon p | _ => ENone end,
                  mkState mq' (s_flight s) (s_blocked s)
                    (match res with MReturned _ => delete k (s_waiters s) | _ => s_waiters s end))
            end
        end
      else None
  | MCRead =>
      match read mq with
      | Some (mq', MReadItem p d) => Some (ERead p, mkState mq' (s_flight s ++ [p]) (s_blocked s) (s_waiters s))
      | Some (mq', _) => Some (ENone, mkState mq' (s_flight s) (s_blocked s) (s_waiters s))
      | None => None
      end
  | MCDone k err =>
      match s_flight s !! k with
      | None => None
      | Some p =>
          match ondone p err mq with
          | None => None
          | Some mq' => Some (EDone p err, mkState mq' (delete k (s_flight s)) (s_blocked s) (s_waiters s))
          end
      end
  | MCShutdown => Some (ENone, mkState (MShutdown mq) (s_flight s) (s_blocked s) (s_waiters s))
  end.

Lemma mexec_step c s e s' : mexec c s = Some (e, s') -> mstep s e s'.
Proof.
  destruct c as [el|k|k er| |k err|]; simpl; intros H.
  - destruct (offer el (s_mq s)) as [mq' res] eqn:E. injection H as <- <-. by constructor.
  - destruct (s_blocked s !! k) as [[el sz]|] eqn:Ek; [|done]. simpl in H.
    destruct (woken el sz (s_mq s)) as [mq' res] eqn:E. injection H as <- <-.
    eapply ms_woken; [|exact E]. by apply delete_Permutation.
  - destruct (sumbool_of_bool waitForResult) as [Hw|Hw]; rewrite Hw in H; [|done].
    destruct (s_waiters s !! k) as [p|] eqn:Ek; [|done].
    destruct (resultCanceled p er (s_mq s)) as [[mq' res]|] eqn:E; [|done]. injection H as <- <-.
    eapply ms_giveup; [done| |exact E]. by apply delete_Permutation.
  - destruct (read (s_mq s)) as [[mq' res]|] eqn:E; [|done].
    destruct res; injection H as <- <-; try (by eapply ms_read); by eapply ms_idle.
  - destruct (s_flight s !! k) as [p|] eqn:Ek; [|done].
    destruct (ondone p err (s_mq s)) as [mq'|] eqn:E; [|done]. injection H as <- <-.
    eapply ms_done; [|exact E]. by apply delete_Permutation.
  - injection H as <- <-. constructor.
Qed.

Fixpoint mexecAll (cs : list mcall) (s : mstate) : option (list mevent * mstate) :=
  match cs with
  | [] => Some ([], s)
  | c :: cs => '(e, s1) ← mexec c s; '(es, s2) ← mexecAll cs s1; Some (e :: es, s2)
  end.

Lemma mexecAll_run cs tr s es s' : mrun tr s -> mexecAll cs s = Some (es, s') -> mrun (tr ++ es) s'.
Proof.
  revert tr s es. induction cs as [|c cs IH]; intros tr s es Hr H; simpl in H.
  - injection H as <- <-. by rewrite app_nil_r.
  - destruct (mexec c s) as [[e s1]|] eqn:E; [|done]. simpl in H.
    destruct (mexecAll cs s1) as [[es1 s2]|] eqn:E2; [|done]. simpl in H. injection H as <- <-.
    replace (tr ++ e :: es1) with ((tr ++ [e]) ++ es1) by (by rewrite <- app_assoc).
    eapply IH; [|exact E2]. eapply mrun_step; [exact Hr|]. by apply mexec_step in E.
Qed.
End Runs.

(** ** A concrete run: four elements, a producer blocked for space, one that gives
    up; a request is its own size. *)
Section Examples.
#[local] Instance sizeRequest : Request Z := {| ItemsCount r := r; BytesSize r := r |}.

Definition exMCalls : list mcall :=
  [MCOffer 4; MCOffer 5; MCOffer 3; MCGiveUp 0 (New "context canceled"); MCWake 0; MCRead; MCDone 0 None; MCRead].
Definition exMEvents : list mevent :=
  [EAccept 0%nat; EAccept 1%nat; ENone; EAbandon 0%nat; EAccept 2%nat; ERead 1%nat; EDone 1%nat None; ERead 2%nat].
Definition exMFinal : mstate :=
  match mexecAll 10 SizerTypeItems true true false exMCalls (mkState newMemoryQueue [] [] []) with
  | Some (_, s) => s | None => mkState newMemoryQueue [] [] [] end.

Lemma exMRun : mrun 10 SizerTypeItems true true false exMEvents exMFinal.
Proof.
  apply (mexecAll_run 10 SizerTypeItems true true false exMCalls [] (mkState newMemoryQueue [] [] []) exMEvents).
  - constructor.
  - vm_compute. reflexivity.
Qed.

Lemma memory_fifo_witness : [1%nat; 2%nat] `prefix_of` [1%nat; 2%nat].
Proof. apply (memory_fifo 10 SizerTypeItems true true false ltac:(lia) exMEvents exMFinal exMRun). Defined.

Lemma memory_size_and_refs_witness : 0 <= mq_size (s_mq exMFinal) <= 10 /\ mq_size (s_mq exMFinal) = 3.
Proof.
  destruct (memory_size_and_refs 10 SizerTypeItems true true false ltac:(lia) exMEvents exMFinal exMRun) as (_ & H & _).
  split; [exact H|]. vm_compute. reflexivity.
Defined.

Lemma memory_calls_return_witness : is_Some (monDone true false 2%nat None (s_mq exMFinal)).
Proof.
  destruct (memory_calls_return 10 SizerTypeItems true true false ltac:(lia) exMEvents exMFinal exMRun) as (_ & _ & H & _).
  apply H. vm_compute. left.
Defined.
End Examples.
