(* ===== verification/Cond.v ===== *)
(** * The context-aware condition variable (exporterhelper/internal/queue/cond.go)

    [Signal] and [Wait] run under the lock [c.L], but [Wait] gives it up while it
    selects between the context and the channel, and [Signal] gives it up while
    it sends on a full channel.  The state counts the goroutines at each of
    these points; a step is what one goroutine does between two of them. *)

From S2P Require Import Prelude.

Section Cond.
(** The number of slots of the channel, [runtime.NumCPU()]. *)
Context (slots : nat).

Record cond := mkCond {
  c_waiting : nat;    (** the field [waiting] *)
  c_ch : nat;         (** tokens in the channel *)
  c_sending : nat;    (** in [Signal], blocked on the full channel without the lock *)
  c_selecting : nat;  (** in [Wait], in the select *)
  c_canceled : nat;   (** in [Wait], the context was done, about to take the lock *)
  c_draining : nat;   (** in [Wait], receiving the token nobody else waits for, holding the lock *)
}.

Definition newCond : cond := mkCond 0 0 0 0 0 0.

(** Someone holds the lock and is blocked: only [draining] does that. *)
Definition lockFree (c : cond) : bool := (c_draining c =? 0)%nat.

Definition Signal (c : cond) : cond :=
  if (c_waiting c =? 0)%nat then c
  else if (c_ch c <? slots)%nat then
    mkCond (c_waiting c - 1) (c_ch c + 1) (c_sending c) (c_selecting c) (c_canceled c) (c_draining c)
  else
    mkCond (c_waiting c - 1) (c_ch c) (c_sending c + 1) (c_selecting c) (c_canceled c) (c_draining c).

(** [Wait] up to the select. *)
Definition waitBegin (c : cond) : cond :=
  mkCond (c_waiting c + 1) (c_ch c) (c_sending c) (c_selecting c + 1) (c_canceled c) (c_draining c).

(** The branch [<-c.ch] of the select. *)
Definition waitReceive (c : cond) : option cond :=
  match c_ch c, c_selecting c with
  | S n, S m => Some (mkCond (c_waiting c) n (c_sending c) m (c_canceled c) (c_draining c))
  | _, _ => None
  end.

(** The branch [<-ctx.Done()], up to the lock, then with the lock. *)
Definition waitCanceled (c : cond) : option cond :=
  match c_selecting c with
  | S m => Some (mkCond (c_waiting c) (c_ch c) (c_sending c) m (c_canceled c + 1) (c_draining c))
  | O => None
  end.
Definition waitCanceledLocked (c : cond) : option cond :=
  match c_canceled c with
  | S m =>
      Some (if (c_waiting c =? 0)%nat
            then mkCond (c_waiting c) (c_ch c) (c_sending c) (c_selecting c) m (c_draining c + 1)
            else mkCond (c_waiting c - 1) (c_ch c) (c_sending c) (c_selecting c) m (c_draining c))
  | O => None
  end.

(** The receive in the cancel path, and the send in [Signal], when they can go. *)
Definition drain (c : cond) : option cond :=
  match c_ch c, c_draining c with
  | S n, S m => Some (mkCond (c_waiting c) n (c_sending c) (c_selecting c) (c_canceled c) m)
  | _, _ => None
  end.
Definition sendBlocked (c : cond) : option cond :=
  match c_sending c with
  | S m =>
      if (c_ch c <? slots)%nat
      then Some (mkCond (c_waiting c) (c_ch c + 1) m (c_selecting c) (c_canceled c) (c_draining c))
      else None
  | O => None
  end.

Inductive cstep : cond -> cond -> Prop :=
  | cs_signal c : lockFree c = true -> cstep c (Signal c)
  | cs_wait c : lockFree c = true -> cstep c (waitBegin c)
  | cs_receive c c' : waitReceive c = Some c' -> cstep c c'
  | cs_canceled c c' : waitCanceled c = Some c' -> cstep c c'
  | cs_locked c c' : lockFree c = true -> waitCanceledLocked c = Some c' -> cstep c c'
  | cs_drain c c' : drain c = Some c' -> cstep c c'
  | cs_send c c' : sendBlocked c = Some c' -> cstep c c'.

(** Every goroutine in [Wait] is either counted in [waiting] or has a token, in
    the channel or with a blocked sender. *)
Record balanced (c : cond) : Prop := {
  bal_count : (c_selecting c + c_canceled c + c_draining c = c_waiting c + c_ch c + c_sending c)%nat;
  bal_lock : (c_draining c <= 1)%nat;
  bal_drain : (0 < c_draining c -> c_waiting c = 0)%nat;
  bal_slots : (c_ch c <= slots)%nat;
}.

Lemma cstep_balanced c c' : cstep c c' -> balanced c -> balanced c'.
Proof.
  intros Hs [Hc Hl Hd Hb].
  destruct Hs as [c E0|c E0|c c' E|c c' E|c c' E0 E|c c' E|c c' E];
    unfold lockFree, Signal, waitBegin, waitReceive, waitCanceled, waitCanceledLocked, drain, sendBlocked in *;
    destruct c as [wt ch sd sl ca dr]; simpl in *; zbool;
    repeat (case_match; simplify_eq/=; zbool); split; simpl; lia.
Qed.

Lemma reachable_balanced c : rtc cstep newCond c -> balanced c.
Proof.
  intros H. refine (rtc_ind_r balanced newCond _ _ c H); [split; simpl; lia|].
  intros x y _ Hs. by apply cstep_balanced.
Qed.

(** C34: The condition variable has no lost or spurious token: a goroutine in
    [Wait] for every token, and for a token, a waiter; the receive in the cancel
    path, which holds the lock, and the send on a full channel are never stuck,
    since a token, a receiver or a canceled waiter is there to move on. *)
Theorem cond_no_deadlock c :
  rtc cstep newCond c -> (0 < slots)%nat ->
  (c_ch c + c_sending c <= c_selecting c + c_canceled c + c_draining c)%nat /\
  ((0 < c_draining c)%nat -> is_Some (drain c) \/ is_Some (sendBlocked c)) /\
  ((0 < c_sending c)%nat -> is_Some (sendBlocked c) \/ is_Some (waitReceive c) \/ is_Some (drain c) \/
     (lockFree c = true /\ is_Some (waitCanceledLocked c))).
Proof.
  intros [Hc Hl Hd Hb]%reachable_balanced Hs. destruct c as [wt ch sd sl ca dr]; simpl in *.
  unfold drain, sendBlocked, waitReceive, waitCanceledLocked, lockFree; simpl. split_and!; [lia|..].
  - intros H. destruct dr; [lia|]. destruct ch; [|left; eauto]. right. destruct sd; [lia|].
    rewrite (proj2 (Nat.ltb_lt _ _)) by lia. eauto.
  - intros H. destruct sd; [lia|]. destruct (Nat.ltb_spec ch slots); [left; eauto|].
    destruct ch; [lia|]. destruct sl; [|right; left; eauto]. destruct dr; [|right; right; left; eauto].
    destruct ca; [lia|]. right; right; right. split; [done|]. eauto.
Qed.
End Cond.

(** Two waiters, one signal that finds the single slot taken by another. *)
Lemma cond_no_deadlock_witness :
  let c := Signal 1 (Signal 1 (waitBegin (waitBegin newCond))) in
  c_sending c = 1%nat /\ (is_Some (sendBlocked 1 c) \/ is_Some (waitReceive c) \/ is_Some (drain c) \/
     (lockFree c = true /\ is_Some (waitCanceledLocked c))).
Proof.
  intros c. split; [reflexivity|]. apply (cond_no_deadlock 1 c); [|lia|simpl; lia].
  do 4 (eapply rtc_r; [|by (eapply cs_signal || eapply cs_wait)]). apply rtc_refl.
Defined.
