(* ===== verification/Retry.v ===== *)
(** * Retries (exporterhelper/internal/retry_sender.go)

    [retrySender.Send] with the configuration of config/configretry.

    An execution of [Send] is a function of what its environment does at each
    attempt: the result of the next sender, how long it took, and how the wait
    before the next attempt ended.  Times are in nanoseconds. *)

From S2P Require Import Prelude Errors.
Local Open Scope Z_scope.

(** ** Configuration (config/configretry)

    The two factors are floating-point numbers; only their comparisons with 0
    and 1 matter here, so they are given as fractions of a million. *)
Record BackOffConfig := mkBackOffConfig {
  Enabled : bool;
  InitialInterval : Z;
  MaxElapsedTime : Z;
  MaxInterval : Z;
  Multiplier : Z;
  RandomizationFactor : Z;
}.

Definition validateMaxElapsedTime (bs : BackOffConfig) : option error :=
  if 0 <? MaxElapsedTime bs then
    if MaxElapsedTime bs <? InitialInterval bs then
      Some (New "'max_elapsed_time' must not be less than 'initial_interval'")
    else if MaxElapsedTime bs <? MaxInterval bs then
      Some (New "'max_elapsed_time' must not be less than 'max_interval'")
    else None
  else None.

Definition BackOffConfig_Validate (c : BackOffConfig) : option error :=
  let check (b : bool) (msg : string) := if b then [New msg] else [] in
  multi
    (option_list (validateMaxElapsedTime c) ++
     check (InitialInterval c <? 0) "initial_interval value must be greater than or equal to 0" ++
     check (MaxElapsedTime c <? 0) "max_elapsed_time value must be greater than or equal to 0" ++
     check (MaxInterval c <? 0) "max_interval value must be greater than or equal to 0" ++
     check (Multiplier c <? 0) "multiplier value must be greater than or equal to 0" ++
     check (RandomizationFactor c <? 0) "randomization_factor value must be greater than or equal to 0" ++
     check (1000000 <? RandomizationFactor c) "randomization_factor value must be less than or equal to 1").

Definition NewDefaultBackOffConfig : BackOffConfig :=
  mkBackOffConfig true 5000000000 300000000000 30000000000 1500000 500000.

(** ** retry_sender.go *)
Section Retry.
(** [OnError] is that of [request.ErrorHandler], absent when the request does not
    implement it; [NextBackOff] is the exponential backoff of the library. *)
Context {Req BackOff : Type} (OnError : option (Req -> error -> Req)) (NextBackOff : BackOff -> Z * BackOff).

(** [backoff.Stop]. *)
Definition Stop : Z := -1.

(** How the select ended, and after how long. *)
Inductive wait :=
  | Elapsed (d : Z)
  | Canceled (d : Z)
  | Stopped (d : Z).

Record attempt := mkAttempt { a_result : option error; a_took : Z; a_wait : wait }.

(** The call: the deadline of its context. *)
Context (deadline : option Z).

(** An attempt that was made: when, with which request, and its result. *)
Record sending := mkSending { s_at : Z; s_req : Req; s_result : option error }.

(** The time after which a retry would start, if it may start. *)
Definition tooLate (limit : option Z) (t : Z) : bool :=
  match limit with Some m => m <? t | None => false end.

(** The loop of [Send]: the attempts, and the value returned ([None] while the
    script has no further attempt). *)
Fixpoint retryLoop (script : list attempt) (maxElapsedTime : option Z) (now : Z) (req : Req) (b : BackOff)
    : list sending * option (option error) :=
  match script with
  | [] => ([], None)
  | a :: script =>
      let here := mkSending now req (a_result a) in
      let now := now + a_took a in
      match a_result a with
      | None => ([here], Some None)
      | Some err =>
          if IsPermanent (Some err) then ([here], Some (Some (Wrapf "not retryable error: %w" [] err)))
          else
            let req := match OnError with Some f => f req err | None => req end in
            let '(backoffDelay, b) := NextBackOff b in
            if backoffDelay =? Stop then ([here], Some (Some (Wrapf "no more retries left: %w" [] err)))
            else
              let backoffDelay :=
                match errors_as as_throttle err with Some delay => Z.max backoffDelay delay | None => backoffDelay end in
              let nextRetryTime := now + backoffDelay in
              if tooLate maxElapsedTime nextRetryTime then
                ([here], Some (Some (Wrapf "no more retries left: %w" [] err)))
              else if tooLate deadline nextRetryTime then
                ([here], Some (Some (Wrapf "request will be cancelled before next retry: %w" [] err)))
              else
                match a_wait a with
                | Canceled _ => ([here], Some (Some (Wrapf "request is cancelled or timed out: %w" [] err)))
                | Stopped _ => ([here], Some (Some (NewShutdownErr err)))
                | Elapsed d =>
                    let '(sent, res) := retryLoop script maxElapsedTime (now + d) req b in
                    (here :: sent, res)
                end
      end
  end.

Definition Send (cfg : BackOffConfig) (script : list attempt) (now : Z) (req : Req) (b : BackOff)
    : list sending * option (option error) :=
  let maxElapsedTime := if 0 <? MaxElapsedTime cfg then Some (now + MaxElapsedTime cfg) else None in
  retryLoop script maxElapsedTime now req b.

(** ** What the environment does *)

(** The delay the code waits for, after the error [err]. *)
Definition delayFor (backoffDelay : Z) (err : error) : Z :=
  match errors_as as_throttle err with Some delay => Z.max backoffDelay delay | None => backoffDelay end.

(** [stop] and [ctxDone] are the times the sender is shut down and the context is
    cancelled.  A select ends with a branch that is ready; a branch that was
    ready from the start wins over a timer that was not. *)
Definition waitOk (stop ctxDone : option Z) (now delay : Z) (w : wait) : Prop :=
  match w with
  | Elapsed d => delay <= d /\ (0 < delay -> forall t, stop = Some t \/ ctxDone = Some t -> now < t)
  | Canceled d => exists t, ctxDone = Some t /\ t <= now + d
  | Stopped d => exists t, stop = Some t /\ t <= now + d
  end.

Fixpoint scriptOk (stop ctxDone : option Z) (script : list attempt) (now : Z) (b : BackOff) : Prop :=
  match script with
  | [] => True
  | a :: script =>
      0 <= a_took a /\
      match a_result a with
      | None => True
      | Some err =>
          let '(d, b) := NextBackOff b in
          waitOk stop ctxDone (now + a_took a) (delayFor d err) (a_wait a) /\
          match a_wait a with
          | Elapsed d => scriptOk stop ctxDone script (now + a_took a + d) b
          | _ => True
          end
      end
  end.

Definition wraps (e err : error) : Prop := (exists fmt, e = Wrapf fmt [] err) \/ e = NewShutdownErr err.

(** [later] is what is sent after [s] failed. *)
Definition follows (s later : sending) : Prop :=
  exists err, s_result s = Some err /\ IsPermanent (Some err) = false /\
    s_req later = match OnError with Some f => f (s_req s) err | None => s_req s end.

Ltac ends_here :=
  left; eexists; split; [reflexivity|]; eexists; split; [reflexivity|];
  first [by right | left; by eexists].

(** One round of the loop: it ends here, or waits and goes on. *)
Lemma retryLoop_cases a script limit now req b :
  let here := mkSending now req (a_result a) in
  (exists r, retryLoop (a :: script) limit now req b = ([here], Some r) /\
     match r with
     | None => a_result a = None
     | Some e => exists err, a_result a = Some err /\ wraps e err
     end) \/
  (exists err d delay b', a_result a = Some err /\ IsPermanent (Some err) = false /\ NextBackOff b = (delay, b') /\
     delay <> Stop /\ a_wait a = Elapsed d /\ tooLate limit (now + a_took a + delayFor delay err) = false /\
     retryLoop (a :: script) limit now req b =
       (here :: (retryLoop script limit (now + a_took a + d) (match OnError with Some f => f req err | None => req end) b').1,
        (retryLoop script limit (now + a_took a + d) (match OnError with Some f => f req err | None => req end) b').2)).
Proof.
  cbn [retryLoop]. destruct (a_result a) as [err|]; [|left; by exists None].
  destruct (IsPermanent (Some err)) eqn:Ep; [ends_here|].
  destruct (NextBackOff b) as [delay b'] eqn:Eb. destruct (Z.eqb_spec delay Stop) as [?|Hs]; [ends_here|].
  fold (delayFor delay err). destruct (tooLate limit _) eqn:El; [ends_here|].
  destruct (tooLate deadline _) eqn:Ed; [ends_here|]. destruct (a_wait a) as [d|d|d] eqn:Ew; [|ends_here..].
  right. exists err, d, delay, b'. split_and!; try done. by destruct (retryLoop script _ _ _ _).
Qed.

(** C36: When [Send] returns, it returns nil exactly when its last attempt
    succeeded, and otherwise an error that wraps the error of the last attempt.
    Every attempt before the last failed with an error that is not permanent,
    and the next one sent what [OnError] left of the request. *)
Theorem retry_outcome cfg script now req b sent r :
  Send cfg script now req b = (sent, Some r) ->
  exists init final, sent = init ++ [final] /\
    s_req (default final (head sent)) = req /\
    (forall j x y, sent !! j = Some x -> sent !! S j = Some y -> follows x y) /\
    match r with
    | None => s_result final = None
    | Some e => exists err, s_result final = Some err /\ wraps e err
    end.
Proof.
  unfold Send. generalize (if 0 <? MaxElapsedTime cfg then Some (now + MaxElapsedTime cfg) else None) as limit.
  intros limit. revert now req b sent. induction script as [|a script IH]; intros now req b sent E; [done|].
  destruct (retryLoop_cases a script limit now req b) as [(r' & E' & Hr)|(err & d & delay & b' & Er & Ep & Eb & Hs & Ew & El & E')];
    rewrite E' in E; simplify_eq.
  - exists [], (mkSending now req (a_result a)). by split_and!.
  - destruct (retryLoop script limit _ _ b') as [sent' r'] eqn:Es. simpl in *. subst r'.
    destruct (IH _ _ _ _ Es) as (init & final & -> & Hhd & Hch & Hfin).
    exists (mkSending now req (a_result a) :: init), final. split_and!; try done.
    intros [|j] x y Hx Hy; simplify_eq/=; [|by apply (Hch j)].
    exists err. split_and!; try done. by destruct init; simplify_eq/=.
Qed.

Lemma delayFor_pos d err : 0 < d -> 0 < delayFor d err.
Proof. unfold delayFor. destruct (errors_as _ _); lia. Qed.

Section Bounded.
Context (m : Z).
Hypothesis Hm : 0 < m.
Hypothesis NextBackOff_min : forall b, (NextBackOff b).1 = Stop \/ m <= (NextBackOff b).1.

Lemma delayFor_ge d err : m <= d -> m <= delayFor d err.
Proof. unfold delayFor. destruct (errors_as _ _); lia. Qed.

Lemma retryLoop_bounded stop ctxDone limit script now req b sent r :
  scriptOk stop ctxDone script now b -> retryLoop script (Some limit) now req b = (sent, r) -> now <= limit ->
  m * (Z.of_nat (length sent) - 1) <= limit - now /\
  (r = None -> length sent = length script).
Proof.
  revert now req b sent. induction script as [|a script IH]; intros now req b sent Hok E Hle.
  { simplify_eq/=. split; [lia|done]. }
  destruct (retryLoop_cases a script (Some limit) now req b) as
    [(r' & E' & _)|(err & d & delay & b' & Er & _ & Eb & Hs & Ew & El & E')]; rewrite E' in E; simplify_eq.
  { simpl. split; [lia|done]. }
  simpl in Hok. rewrite Er, Eb, Ew in Hok. destruct Hok as (Htk & [Hd _] & Hok).
  pose proof (NextBackOff_min b) as Hb. rewrite Eb in Hb; simpl in Hb. destruct Hb as [?|Hb]; [done|].
  pose proof (delayFor_ge delay err Hb) as Hge. simpl in El. zbool.
  destruct (retryLoop script (Some limit) _ _ b') as [sent' r'] eqn:Es. simpl.
  destruct (decide (now + a_took a + d <= limit)) as [Hin|Hout].
  - destruct (IH _ _ _ _ Hok Es Hin) as [H1 H2]. split; [lia|]. intros Hr. by rewrite H2.
  - assert (Hlast : (length sent' <= 1)%nat /\ (r' = None -> length sent' = length script)).
    { clear IH. destruct script as [|a2 script2]; [simplify_eq/=; split; [lia|done]|].
      simpl in Hok. destruct Hok as [Htk2 Hok2].
      destruct (retryLoop_cases a2 script2 (Some limit) (now + a_took a + d) (match OnError with Some f => f req err | None => req end) b')
        as [(r2 & E2 & _)|(err2 & d2 & delay2 & b2 & Er2 & _ & Eb2 & Hs2 & Ew2 & El2 & E2)]; rewrite E2 in Es; simplify_eq; [split; [simpl; lia|done]|].
      exfalso. simpl in El2. zbool. pose proof (NextBackOff_min b') as Hb2. rewrite Eb2 in Hb2; simpl in Hb2.
      destruct Hb2 as [?|Hb2]; [done|]. pose proof (delayFor_ge delay2 err2 Hb2). lia. }
    destruct Hlast as [Hl1 Hl2]. split; [nia|]. intros Hr. by rewrite Hl2.
Qed.

(** With a positive max_elapsed_time and delays of at least [m], [Send] makes
    at most max_elapsed_time / m + 1 attempts, and returns once the environment
    has answered that many. *)
Theorem retry_bounded cfg stop ctxDone script now req b sent r :
  0 < MaxElapsedTime cfg -> scriptOk stop ctxDone script now b ->
  Send cfg script now req b = (sent, r) ->
  Z.of_nat (length sent) <= MaxElapsedTime cfg / m + 1 /\
  (MaxElapsedTime cfg / m + 1 < Z.of_nat (length script) -> r <> None).
Proof.
  unfold Send. intros Hme Hok E. destruct (Z.ltb_spec 0 (MaxElapsedTime cfg)); [|lia].
  destruct (retryLoop_bounded _ _ _ _ _ _ _ _ _ Hok E) as [H1 H2]; [lia|].
  assert (Hq : Z.of_nat (length sent) - 1 <= MaxElapsedTime cfg / m) by (apply Z.div_le_lower_bound; lia).
  split; [lia|]. intros Hlt ->. rewrite H2 in Hq by done. lia.
Qed.
End Bounded.

(** A [Send] that begins after the retry sender has been shut down, with
    delays that are positive, makes a single attempt and returns.  It returns
    nil exactly if the attempt succeeded, and a shutdown error if the attempt
    failed with an error that may be retried, a retry was due and nothing else
    (the context, the deadline, the elapsed time) ended the call. *)
Theorem retry_once_after_shutdown cfg ctxDone a script t now req b sent r :
  (forall b, (NextBackOff b).1 = Stop \/ 0 < (NextBackOff b).1) ->
  t <= now -> scriptOk (Some t) ctxDone (a :: script) now b ->
  Send cfg (a :: script) now req b = (sent, r) ->
  sent = [mkSending now req (a_result a)] /\
  (r = Some None <-> a_result a = None) /\
  (forall err, a_result a = Some err -> IsPermanent (Some err) = false -> (NextBackOff b).1 <> Stop ->
    ctxDone = None -> deadline = None -> MaxElapsedTime cfg <= 0 -> r = Some (Some (NewShutdownErr err))) /\
  r <> None.
Proof.
  intros Hpos Ht Hok E. unfold Send in E.
  destruct (retryLoop_cases a script (if 0 <? MaxElapsedTime cfg then Some (now + MaxElapsedTime cfg) else None) now req b)
    as [(r' & E' & Hr)|(err & d & delay & b' & Er & _ & Eb & Hs & Ew & _ & E')].
  - split_and!; [rewrite E' in E; by simplify_eq|..|rewrite E' in E; by simplify_eq].
    + rewrite E' in E. simplify_eq. destruct r' as [e|]; [destruct Hr as (err & -> & _); by split|done].
    + intros err Er Ep Hs -> Hd Hme. cbn [retryLoop scriptOk] in *. clear Hr E'. rewrite Er, Ep in *.
      destruct (Z.ltb_spec 0 (MaxElapsedTime cfg)); [lia|].
      destruct (NextBackOff b) as [delay b'] eqn:Eb. simpl in Hs, E. destruct (Z.eqb_spec delay Stop); [done|].
      rewrite Hd in E. simpl in E. destruct Hok as (Htk & Hw & _).
      specialize (Hpos b). rewrite Eb in Hpos; simpl in Hpos. destruct Hpos as [?|Hpos]; [done|].
      destruct (a_wait a); simpl in Hw; [|destruct Hw as (? & ? & _); done|by simplify_eq].
      destruct Hw as [_ Hw]. pose proof (delayFor_pos delay err Hpos). specialize (Hw ltac:(done) t (or_introl eq_refl)). lia.
  - exfalso. simpl in Hok. rewrite Er, Eb, Ew in Hok. destruct Hok as (Htk & [_ Hw] & _).
    specialize (Hpos b). rewrite Eb in Hpos; simpl in Hpos. destruct Hpos as [?|Hpos]; [done|].
    pose proof (delayFor_pos delay err Hpos). specialize (Hw ltac:(done) t (or_introl eq_refl)). lia.
Qed.
End Retry.

Arguments sending : clear implicits.

(** ** A concrete sender

    The backoff doubles; a failed attempt leaves the rest of the records. *)
Section Examples.
Definition doubling (b : Z) : Z * Z := (b, Z.min (2 * b) 30).
Definition exRetry : BackOffConfig := mkBackOffConfig true 5 100 30 0 0.
Definition rest (r : list nat) (_ : error) : list nat := tail r.
Definition flaky : list attempt :=
  [mkAttempt (Some (New "unavailable")) 1 (Elapsed 5);
   mkAttempt (Some (throttleRetry (New "slow down") 20)) 1 (Elapsed 21);
   mkAttempt None 1 (Elapsed 0)].
Definition failing : list attempt := replicate 30 (mkAttempt (Some (New "unavailable")) 0 (Elapsed 30)).

Lemma retry_outcome_witness :
  exists sent, Send (Some rest) doubling None exRetry flaky 0 [1; 2; 3]%nat 5 = (sent, Some None) /\
    map s_req sent = [[1; 2; 3]; [2; 3]; [3]]%nat /\ map s_at sent = [0; 6; 28] /\
    forall j x y, sent !! j = Some x -> sent !! S j = Some y -> follows (Some rest) x y.
Proof.
  destruct (Send (Some rest) doubling None exRetry flaky 0 [1; 2; 3]%nat 5) as [sent r] eqn:E.
  assert (r = Some None) as -> by (vm_compute in E; by injection E as _ <-).
  destruct (retry_outcome (Some rest) doubling None exRetry flaky 0 [1; 2; 3]%nat 5 sent None E)
    as (init & final & _ & _ & Hch & _).
  exists sent. split; [done|]. split_and!; [vm_compute in E; by injection E as <-..|exact Hch].
Defined.

Definition every30 (b : unit) : Z * unit := (30, b).

Lemma failing_ok now : scriptOk every30 None None failing now tt.
Proof.
  unfold failing. revert now. generalize 30%nat as n. induction n as [|n IH]; intros now; [done|].
  cbn [replicate scriptOk a_took a_result a_wait every30]. split; [lia|]. split; [|apply IH].
  split; [done|]. intros _ t [?|?]; done.
Qed.

Lemma retry_bounded_witness :
  exists sent r, Send (Some rest) every30 None exRetry failing 0 [1]%nat tt = (sent, r) /\
    Z.of_nat (length sent) <= 100 / 30 + 1 /\ r <> None.
Proof.
  destruct (Send (Some rest) every30 None exRetry failing 0 [1]%nat tt) as [sent r] eqn:E.
  exists sent, r. split; [done|].
  destruct (retry_bounded (Some rest) every30 None 30 ltac:(lia) ltac:(intros; right; simpl; lia)
    exRetry None None failing 0 [1]%nat tt sent r ltac:(simpl; lia) (failing_ok 0) E) as [H1 H2].
  split; [exact H1|]. apply H2. vm_compute. reflexivity.
Defined.

Definition exUnlimited : BackOffConfig := mkBackOffConfig true 5 0 30 0 0.
Definition stopped : attempt := mkAttempt (Some (New "unavailable")) 1 (Stopped 0).

Lemma retry_once_after_shutdown_witness :
  exists sent r, Send (Some rest) (fun b : Z => (7, b)) None exUnlimited [stopped] 50 [1; 2]%nat 5 = (sent, r) /\
    length sent = 1%nat /\ r = Some (Some (NewShutdownErr (New "unavailable"))).
Proof.
  destruct (Send (Some rest) (fun b : Z => (7, b)) None exUnlimited [stopped] 50 [1; 2]%nat 5) as [sent r] eqn:E.
  exists sent, r. split; [done|].
  destruct (retry_once_after_shutdown (Some rest) (fun b : Z => (7, b)) None exUnlimited None
    stopped [] 40 50 [1; 2]%nat 5 sent r) as (-> & _ & Hs & _).
  - intros b. right. simpl. lia.
  - lia.
  - simpl. split; [lia|]. split; [exists 40; split; [done|lia]|done].
  - exact E.
  - split; [done|]. by apply Hs.
Defined.
End Examples.
