(* ===== verification/Batcher.v ===== *)
(** * Batching (exporterhelper/internal/queuebatch)

    The partition batcher (partition_batcher.go) with its reference-counted
    completion callbacks, timer and worker pool, and the two batchers built on
    it: one over shards (sharded_batcher.go) and one over the partitions of an
    LRU cache (multi_batcher.go).

    A batcher is run by many goroutines.  A goroutine is the list of the
    instructions it still has to execute, an instruction is what the code does
    between two points where it may block or be overtaken: taking the lock of
    a partition or of the multi batcher, waiting for a worker, for a wait group
    or in a select.  [exec] runs one instruction. *)

From S2P Require Import Prelude Errors Sizers.
Local Open Scope Z_scope.

(** ** Interfaces *)

(** What the batcher uses of contexts: the valid span context, the links stored
    under [batchSpanLinksKey], and storing them. *)
Class ContextOps (Ctx Link : Type) := {
  Background : Ctx;
  SpanContextFromContext : Ctx -> option Link;
  ValueLinks : Ctx -> option (list Link);
  WithLinks : Ctx -> list Link -> Ctx;
}.

(** A request that can be merged and split.  [MergeSplit ctx req maxSize szt r2]
    returns the requests, the error, and what the receiver [req], which the
    call modifies, holds afterwards. *)
Class BatchRequest (Ctx Req : Type) `{Request Req} := {
  MergeSplit : Ctx -> Req -> Z -> SizerType -> option Req -> list Req * option error * Req;
}.

(** The cache of [hashicorp/golang-lru/simplelru] as the multi batcher uses it;
    the operations that evict return the evicted entries, for which the eviction
    callback runs. *)
Class LRU (V C : Type) := {
  lru_Get : string -> C -> option V * C;
  lru_Add : string -> V -> C -> C * list (string * V);
  lru_Remove : string -> C -> C * list (string * V);
  lru_Keys : C -> list string;
  lru_Peek : string -> C -> option V;
  lru_Purge : C -> C * list (string * V);
}.

(** ** batch_context.go *)
Section Links.
Context {Ctx Link : Type} `{ContextOps Ctx Link}.

Definition LinksFromContext (ctx : Ctx) : list Link :=
  match ValueLinks ctx with
  | Some links => links
  | None => []
  end.

Definition parentsFromContext (ctx : Ctx) : list Link :=
  match SpanContextFromContext ctx with
  | Some spanCtx => [spanCtx]
  | None => LinksFromContext ctx
  end.

Definition contextWithMergedLinks (mergedCtx ctx1 ctx2 : Ctx) : Ctx :=
  WithLinks mergedCtx (parentsFromContext ctx1 ++ parentsFromContext ctx2).
End Links.

(** ** Completion callbacks

    A [queue.Done] is the callback of a request read from the queue, or a
    [refCountDone] object in the heap. *)
Inductive Done :=
  | Ext (i : nat)
  | RefCount (l : nat).

#[export] Instance Done_eq_dec : EqDecision Done.
Proof. solve_decision. Defined.

Record refCountDone := mkRefCountDone {
  rc_done : Done;
  rc_refCount : Z;
  rc_err : option error;
}.

(** The heap of [refCountDone] objects and the calls made so far to the
    callbacks of the queue. *)
Record dones := mkDones {
  d_heap : list refCountDone;
  d_calls : list (nat * option error);
}.

Definition newRefCountDone (done : Done) (refCount : Z) (s : dones) : Done * dones :=
  (RefCount (length (d_heap s)),
   mkDones (d_heap s ++ [mkRefCountDone done refCount None]) (d_calls s)).

(** [OnDone].  A counter calls the callback it was created with, which is older
    than itself; the fuel bounds the length of such a chain. *)
Fixpoint onDone (fuel : nat) (d : Done) (err : option error) (s : dones) : option dones :=
  match fuel with
  | O => None
  | S fuel =>
      match d with
      | Ext i => Some (mkDones (d_heap s) (d_calls s ++ [(i, err)]))
      | RefCount l =>
          match d_heap s !! l with
          | None => None
          | Some rcd =>
              let rcd := mkRefCountDone (rc_done rcd) (rc_refCount rcd - 1)
                           (multierr_Append (rc_err rcd) err) in
              let s := mkDones (<[l := rcd]> (d_heap s)) (d_calls s) in
              if rc_refCount rcd =? 0 then onDone fuel (rc_done rcd) (rc_err rcd) s
              else Some s
          end
      end
  end.

Definition OnDone (d : Done) (err : option error) (s : dones) : option dones :=
  onDone (S (S (length (d_heap s)))) d err s.

(** [multiDone.OnDone]. *)
Fixpoint multiOnDone (mdc : list Done) (err : option error) (s : dones) : option dones :=
  match mdc with
  | [] => Some s
  | d :: mdc => OnDone d err s ≫= multiOnDone mdc err
  end.

(** ** Configuration *)
Record BatchConfig := mkBatchConfig {
  FlushTimeout : Z;
  bc_Sizer : SizerType;
  MinSize : Z;
  MaxSize : Z;
  MetadataKeys : list string;
  CacheSize : Z;
  IdleTimeout : Z;
}.

(** [BatchConfig.Validate]; a nil receiver is valid and not modelled. *)
Definition BatchConfig_Validate (cfg : BatchConfig) : option error :=
  if negb (bool_decide (bc_Sizer cfg = SizerTypeItems)) && negb (bool_decide (bc_Sizer cfg = SizerTypeBytes)) then
    Some (Errorf "`batch` supports only `items` or `bytes` sizer, found %q" [ArgS (szt_val (bc_Sizer cfg))])
  else if FlushTimeout cfg <=? 0 then
    Some (Errorf "`flush_timeout` must be positive, found %d" [ArgZ (FlushTimeout cfg)])
  else if MinSize cfg <? 0 then
    Some (Errorf "`min_size` must be non-negative, found %d" [ArgZ (MinSize cfg)])
  else if MaxSize cfg <? 0 then
    Some (Errorf "`max_size` must be non-negative, found %d" [ArgZ (MaxSize cfg)])
  else if (0 <? MaxSize cfg) && (MaxSize cfg <? MinSize cfg) then
    Some (Errorf "`max_size` (%d) must be greater or equal to `min_size` (%d)"
            [ArgZ (MaxSize cfg); ArgZ (MinSize cfg)])
  else None.

(** [PartitionConfig.Validate]; [ToLower] is [strings.ToLower]. *)
Fixpoint duplicateKey (ToLower : string -> string) (uniq : gset string) (keys : list string) : option string :=
  match keys with
  | [] => None
  | k :: keys =>
      let l := ToLower k in
      if decide (l ∈ uniq) then Some l else duplicateKey ToLower ({[l]} ∪ uniq) keys
  end.
Definition PartitionConfig_Validate (ToLower : string -> string) (cfg : BatchConfig) : option error :=
  if IdleTimeout cfg <=? 0 then
    Some (Errorf "`idle_timeout` must be positive, found %s" [ArgZ (IdleTimeout cfg)])
  else
    match duplicateKey ToLower ∅ (MetadataKeys cfg) with
    | Some l => Some (Errorf "duplicate entry in metadata_keys: %q (case-insensitive)" [ArgS l])
    | None =>
        if CacheSize cfg <=? 0 then
          Some (Errorf "`cache_size` must be positive, found %d" [ArgZ (CacheSize cfg)])
        else None
    end.

Lemma BatchConfig_Validate_ok cfg :
  BatchConfig_Validate cfg = None ->
  (bc_Sizer cfg = SizerTypeItems \/ bc_Sizer cfg = SizerTypeBytes) /\ 0 < FlushTimeout cfg /\
  0 <= MinSize cfg /\ 0 <= MaxSize cfg /\ (MaxSize cfg = 0 \/ MinSize cfg <= MaxSize cfg).
Proof.
  unfold BatchConfig_Validate.
  destruct (negb _ && negb _) eqn:E1; [done|]. destruct (FlushTimeout cfg <=? 0) eqn:E2; [done|].
  destruct (MinSize cfg <? 0) eqn:E3; [done|]. destruct (MaxSize cfg <? 0) eqn:E4; [done|].
  destruct ((0 <? MaxSize cfg) && _) eqn:E5; [done|]. intros _.
  apply andb_false_iff in E1, E5. rewrite !negb_false_iff, !bool_decide_eq_true in E1.
  destruct E5; zbool; split_and!; try done; lia.
Qed.

(** ** partition_batcher.go *)
Section PartitionBatcher.
Context {Ctx Link Req : Type} `{ContextOps Ctx Link} `{Request Req} `{!BatchRequest Ctx Req}.
Context (cfg : BatchConfig) (mergeCtx : option (Ctx -> Ctx -> Ctx)).

Record batch := mkBatch { b_ctx : Ctx; b_req : Req; b_done : list Done }.

(** A call [flush(ctx, req, done)] has the same parts as a batch. *)
Local Abbreviation task := batch.

(** [pb_timer] is [None] for the nil pointer, and otherwise holds the deadline of
    an armed timer.  [pb_onEmpty] is the key that the callback removes. *)
Record partitionBatcher := mkPB {
  pb_currentBatch : option batch;
  pb_timer : option (option Z);
  pb_shutdownCh : bool;
  pb_onEmpty : option string;
  pb_lastDataTime : Z;
  pb_active : bool;
  pb_stopWG : nat;
}.

Definition set_currentBatch (b : option batch) (qb : partitionBatcher) : partitionBatcher :=
  mkPB b (pb_timer qb) (pb_shutdownCh qb) (pb_onEmpty qb) (pb_lastDataTime qb) (pb_active qb) (pb_stopWG qb).
Definition set_timer (t : option (option Z)) (qb : partitionBatcher) : partitionBatcher :=
  mkPB (pb_currentBatch qb) t (pb_shutdownCh qb) (pb_onEmpty qb) (pb_lastDataTime qb) (pb_active qb) (pb_stopWG qb).
Definition set_lastDataTime (t : Z) (qb : partitionBatcher) : partitionBatcher :=
  mkPB (pb_currentBatch qb) (pb_timer qb) (pb_shutdownCh qb) (pb_onEmpty qb) t (pb_active qb) (pb_stopWG qb).
Definition set_stopWG (n : nat) (qb : partitionBatcher) : partitionBatcher :=
  mkPB (pb_currentBatch qb) (pb_timer qb) (pb_shutdownCh qb) (pb_onEmpty qb) (pb_lastDataTime qb) (pb_active qb) n.
Definition set_shutdownCh (c : bool) (qb : partitionBatcher) : partitionBatcher :=
  mkPB (pb_currentBatch qb) (pb_timer qb) c (pb_onEmpty qb) (pb_lastDataTime qb) (pb_active qb) (pb_stopWG qb).
Definition set_inactive (qb : partitionBatcher) : partitionBatcher :=
  mkPB (pb_currentBatch qb) (pb_timer qb) (pb_shutdownCh qb) None (pb_lastDataTime qb) false (pb_stopWG qb).

Definition newPartitionBatcher (now : Z) (onEmpty : option string) : partitionBatcher :=
  mkPB None None false onEmpty now true 0.

(** [resetTimer]; [None] is the panic on a nil timer. *)
Definition resetTimer (now : Z) (qb : partitionBatcher) : option partitionBatcher :=
  if 0 <? FlushTimeout cfg then
    match pb_timer qb with
    | None => None
    | Some _ => Some (set_timer (Some (Some (now + FlushTimeout cfg))) qb)
    end
  else Some qb.

(** The callback to use for [reqList] outputs: itself, or a counter when it has
    to be called several times, to which the error is already reported. *)
Definition shareDone (reqList : list Req) (mergeSplitErr : option error) (done : Done) (s : dones)
    : option (Done * dones) :=
  let numRefs := Z.of_nat (length reqList) + match mergeSplitErr with Some _ => 1 | None => 0 end in
  if 1 <? numRefs then
    let '(done, s) := newRefCountDone done numRefs s in
    match mergeSplitErr with
    | Some _ => OnDone done mergeSplitErr s ≫= fun s => Some (done, s)
    | None => Some (done, s)
    end
  else Some (done, s).

(** Keep the last request as the current batch when it is too small to flush. *)
Definition keepLast (now : Z) (ctx : Ctx) (reqList : list Req) (done : Done) (qb : partitionBatcher)
    : option (list Req * partitionBatcher) :=
  match last reqList with
  | None => Some (reqList, qb)
  | Some lastReq =>
      if Sizeof (bc_Sizer cfg) lastReq <? MinSize cfg then
        resetTimer now (set_currentBatch (Some (mkBatch ctx lastReq [done])) qb) ≫= fun qb =>
        Some (removelast reqList, qb)
      else Some (reqList, qb)
  end.

(** [consumeInternal]: the new state, the flushes to make after the lock is
    released, in order, and whether the partition is active. *)
Definition consumeInternal (now : Z) (ctx : Ctx) (req : Req) (done : Done)
    (qb : partitionBatcher) (s : dones) : option (partitionBatcher * dones * list task * bool) :=
  let isActive := pb_active qb in
  let qb := set_lastDataTime now qb in
  match pb_currentBatch qb with
  | None =>
      let '(reqList, mergeSplitErr, _) := MergeSplit ctx req (MaxSize cfg) (bc_Sizer cfg) None in
      match reqList with
      | [] => OnDone done mergeSplitErr s ≫= fun s => Some (qb, s, [], isActive)
      | _ =>
          shareDone reqList mergeSplitErr done s ≫= fun '(done, s) =>
          keepLast now ctx reqList done qb ≫= fun '(reqList, qb) =>
          Some (qb, s, map (fun r => mkBatch ctx r [done]) reqList, isActive)
      end
  | Some cur =>
      let '(reqList, mergeSplitErr, curReq) :=
        MergeSplit ctx (b_req cur) (MaxSize cfg) (bc_Sizer cfg) (Some req) in
      match reqList with
      | [] =>
          OnDone done mergeSplitErr s ≫= fun s =>
          Some (set_currentBatch (Some (mkBatch (b_ctx cur) curReq (b_done cur))) qb, s, [], isActive)
      | first :: reqList =>
          shareDone (first :: reqList) mergeSplitErr done s ≫= fun '(done, s) =>
          let mergedCtx :=
            match mergeCtx with
            | Some f => f (b_ctx cur) ctx
            | None => Background
            end in
          let cur := mkBatch (contextWithMergedLinks mergedCtx (b_ctx cur) ctx) first (b_done cur ++ [done]) in
          let '(firstBatch, qb) :=
            if (0 <? length reqList)%nat || (MinSize cfg <=? Sizeof (bc_Sizer cfg) (b_req cur))
            then ([cur], set_currentBatch None qb)
            else ([], set_currentBatch (Some cur) qb) in
          keepLast now ctx reqList done qb ≫= fun '(reqList, qb) =>
          Some (qb, s, firstBatch ++ map (fun r => mkBatch ctx r [done]) reqList, isActive)
      end
  end.

(** [flushCurrentBatchOrRemovePartition] up to the release of the lock: what is
    left to do is a flush, the call of [onEmpty], or nothing. *)
Inductive afterUnlock :=
  | DoFlush (t : task)
  | DoOnEmpty
  | DoNothing.

Definition flushCurrentBatchOrRemovePartition (now : Z) (qb : partitionBatcher)
    : option (partitionBatcher * afterUnlock) :=
  match pb_currentBatch qb with
  | None =>
      let idleDuration := now - pb_lastDataTime qb in
      if (IdleTimeout cfg <=? idleDuration) && bool_decide (pb_onEmpty qb <> None) then
        Some (qb, DoOnEmpty)
      else
        match pb_timer qb with
        | Some _ => resetTimer now qb ≫= fun qb => Some (qb, DoNothing)
        | None => Some (qb, DoNothing)
        end
  | Some batchToFlush =>
      resetTimer now (set_currentBatch None (set_lastDataTime now qb)) ≫= fun qb =>
      Some (qb, DoFlush batchToFlush)
  end.
End PartitionBatcher.

Arguments batch : clear implicits.
Arguments partitionBatcher : clear implicits.
Arguments afterUnlock : clear implicits.
Arguments OnDone : simpl never.
Arguments shareDone : simpl never.
Arguments keepLast : simpl never.
Arguments resetTimer : simpl never.

(** ** Goroutines *)
Section Goroutines.
Context {Ctx Link Req C : Type} `{ContextOps Ctx Link} `{Request Req} `{!BatchRequest Ctx Req} `{LRU nat C}.
Context (cfg : BatchConfig) (mergeCtx : option (Ctx -> Ctx -> Ctx)).
Context (GetKey : Ctx -> Req -> string).

(** A partition batcher is named by its index in [w_pbs]. *)
Inductive instr :=
  | ShardedConsume (ctx : Ctx) (req : Req) (done : Done)  (** shardedBatcher.Consume *)
  | MultiConsume (ctx : Ctx) (req : Req) (done : Done)    (** multiBatcher.Consume *)
  | Consume (p : nat) (ctx : Ctx) (req : Req) (done : Done)
  | Flush (p : nat) (t : batch Ctx Req)            (** flush: [stopWG.Add] *)
  | ExecuteSend (p : nat) (t : batch Ctx Req)      (** flush: [wp.execute] of the send *)
  | Send (p : nat) (t : batch Ctx Req)             (** [done.OnDone(consumeFunc(ctx, req))] *)
  | StopWGDone (p : nat)
  | Release                                        (** a worker goes back to the pool *)
  | FlushCurrent (p : nat)
  | OnEmpty (p : nat)                              (** the call [qb.onEmpty()] *)
  | Lock                                           (** [mb.lock.Lock()] *)
  | Unlock
  | RemovePartition (key : string)
  | StartPartition (p : nat)
  | TimerLoop (p : nat)                            (** the select of [Start] *)
  | ShutdownInternal (p : nat)
  | CloseShutdownCh (p : nat)
  | StopWGWait (p : nat)
  | ExecuteShutdown (p : nat)                      (** [mb.wp.execute(pb.shutdownInternal)] *)
  | ShutdownPartitions                             (** the loop of multiBatcher.Shutdown *)
  | ShutdownGoDone
  | ShutdownGoWait
  | PurgePartitions.

Record world := mkWorld {
  w_now : Z;
  w_pbs : list (partitionBatcher Ctx Req);
  w_next : Z;                                      (** shardedBatcher.next *)
  w_partitions : C;                                (** multiBatcher.partitions *)
  w_lock : bool;                                   (** multiBatcher.lock is held *)
  w_workers : nat;                                 (** tokens in wp.workers *)
  w_shutdownWG : nat;                              (** the wait group of multiBatcher.Shutdown *)
  w_dones : dones;
  w_sent : list (batch Ctx Req * option error);    (** the calls of consumeFunc and their results *)
}.

Definition set_pbs (l : list (partitionBatcher Ctx Req)) (w : world) : world :=
  mkWorld (w_now w) l (w_next w) (w_partitions w) (w_lock w) (w_workers w) (w_shutdownWG w) (w_dones w) (w_sent w).
Definition set_pb (p : nat) (qb : partitionBatcher Ctx Req) (w : world) : world := set_pbs (<[p := qb]> (w_pbs w)) w.
Definition set_next (n : Z) (w : world) : world :=
  mkWorld (w_now w) (w_pbs w) n (w_partitions w) (w_lock w) (w_workers w) (w_shutdownWG w) (w_dones w) (w_sent w).
Definition set_partitions (c : C) (w : world) : world :=
  mkWorld (w_now w) (w_pbs w) (w_next w) c (w_lock w) (w_workers w) (w_shutdownWG w) (w_dones w) (w_sent w).
Definition set_lock (b : bool) (w : world) : world :=
  mkWorld (w_now w) (w_pbs w) (w_next w) (w_partitions w) b (w_workers w) (w_shutdownWG w) (w_dones w) (w_sent w).
Definition set_workers (n : nat) (w : world) : world :=
  mkWorld (w_now w) (w_pbs w) (w_next w) (w_partitions w) (w_lock w) n (w_shutdownWG w) (w_dones w) (w_sent w).
Definition set_shutdownWG (n : nat) (w : world) : world :=
  mkWorld (w_now w) (w_pbs w) (w_next w) (w_partitions w) (w_lock w) (w_workers w) n (w_dones w) (w_sent w).
Definition set_dones (s : dones) (w : world) : world :=
  mkWorld (w_now w) (w_pbs w) (w_next w) (w_partitions w) (w_lock w) (w_workers w) (w_shutdownWG w) s (w_sent w).
Definition add_sent (t : batch Ctx Req) (res : option error) (w : world) : world :=
  mkWorld (w_now w) (w_pbs w) (w_next w) (w_partitions w) (w_lock w) (w_workers w) (w_shutdownWG w) (w_dones w)
    (w_sent w ++ [(t, res)]).
Definition tick (d : Z) (w : world) : world :=
  mkWorld (w_now w + d) (w_pbs w) (w_next w) (w_partitions w) (w_lock w) (w_workers w) (w_shutdownWG w) (w_dones w) (w_sent w).

(** What an instruction leaves: it blocks, it panics, or the goroutine goes on
    with other instructions, having started some goroutines. *)
Inductive outcome :=
  | Blocked
  | Panic
  | Next (k : list instr) (spawned : list (list instr)) (w : world).

(** What the environment decides: the result of [consumeFunc], and which ready
    branch a select takes. *)
Record choice := mkChoice { c_result : option error; c_timer : bool }.

(** The eviction callback, for each evicted partition. *)
Definition onEvict (evicted : list (string * nat)) : list instr :=
  map (fun e => ExecuteShutdown e.2) evicted.

(** [partitionBatcher.Start]: the batcher and the goroutine it starts. *)
Definition Start (now : Z) (p : nat) (qb : partitionBatcher Ctx Req)
    : partitionBatcher Ctx Req * list (list instr) :=
  if FlushTimeout cfg <=? 0 then (qb, [])
  else (set_stopWG (S (pb_stopWG qb)) (set_timer (Some (Some (now + FlushTimeout cfg))) qb),
        [[TimerLoop p]]).

Definition with_pb (w : world) (p : nat) (f : partitionBatcher Ctx Req -> outcome) : outcome :=
  match w_pbs w !! p with Some qb => f qb | None => Panic end.

(** [getPartition] and the call of [Consume] on its result.  The partition is
    looked up and created under the lock; [Add] runs the eviction callbacks
    before the new partition is started. *)
Definition getPartition (ctx : Ctx) (req : Req) (done : Done) (k : list instr) (w : world) : outcome :=
  if w_lock w then Blocked
  else
    let key := GetKey ctx req in
    match lru_Get key (w_partitions w) with
    | (Some p, c) => Next (Consume p ctx req done :: k) [] (set_partitions c w)
    | (None, c) =>
        let p := length (w_pbs w) in
        let '(c, evicted) := lru_Add key p c in
        let newPB := newPartitionBatcher (w_now w) (Some key) in
        Next (onEvict evicted ++ StartPartition p :: Unlock :: Consume p ctx req done :: k) []
          (set_lock true (set_partitions c (set_pbs (w_pbs w ++ [newPB]) w)))
    end.

(** One instruction of a goroutine that goes on with [k]. *)
Definition exec (c : choice) (i : instr) (k : list instr) (w : world) : outcome :=
  match i with
  | ShardedConsume ctx req done =>
      let idx := u64 (u64 (w_next w + 1) - 1) in
      let shard := Z.to_nat (idx mod Z.of_nat (length (w_pbs w))) in
      if (length (w_pbs w) =? 0)%nat then Panic
      else Next (Consume shard ctx req done :: k) [] (set_next (u64 (w_next w + 1)) w)
  | MultiConsume ctx req done => getPartition ctx req done k w
  | Consume p ctx req done =>
      with_pb w p (fun qb =>
        match consumeInternal cfg mergeCtx (w_now w) ctx req done qb (w_dones w) with
        | None => Panic
        | Some (qb, s, flushes, isActive) =>
            Next (map (Flush p) flushes ++ (if isActive then [] else [FlushCurrent p]) ++ k) []
              (set_dones s (set_pb p qb w))
        end)
  | Flush p t =>
      with_pb w p (fun qb =>
        Next (ExecuteSend p t :: k) [] (set_pb p (set_stopWG (S (pb_stopWG qb)) qb) w))
  | ExecuteSend p t =>
      match w_workers w with
      | O => Blocked
      | S n => Next k [[Send p t; StopWGDone p; Release]] (set_workers n w)
      end
  | Send p t =>
      match multiOnDone (b_done t) (c_result c) (w_dones w) with
      | None => Panic
      | Some s => Next k [] (set_dones s (add_sent t (c_result c) w))
      end
  | StopWGDone p =>
      with_pb w p (fun qb =>
        match pb_stopWG qb with
        | O => Panic
        | S n => Next k [] (set_pb p (set_stopWG n qb) w)
        end)
  | Release => Next k [] (set_workers (S (w_workers w)) w)
  | FlushCurrent p =>
      with_pb w p (fun qb =>
        match flushCurrentBatchOrRemovePartition cfg (w_now w) qb with
        | None => Panic
        | Some (qb, DoFlush t) => Next (Flush p t :: k) [] (set_pb p qb w)
        | Some (qb, DoOnEmpty) => Next (OnEmpty p :: k) [] (set_pb p qb w)
        | Some (qb, DoNothing) => Next k [] (set_pb p qb w)
        end)
  | OnEmpty p =>
      with_pb w p (fun qb =>
        match pb_onEmpty qb with
        | None => Panic
        | Some key => Next (Lock :: RemovePartition key :: Unlock :: k) [] w
        end)
  | Lock => if w_lock w then Blocked else Next k [] (set_lock true w)
  | Unlock => Next k [] (set_lock false w)
  | RemovePartition key =>
      let '(c, evicted) := lru_Remove key (w_partitions w) in
      Next (onEvict evicted ++ k) [] (set_partitions c w)
  | StartPartition p =>
      with_pb w p (fun qb =>
        let '(qb, started) := Start (w_now w) p qb in Next k started (set_pb p qb w))
  | TimerLoop p =>
      with_pb w p (fun qb =>
        if c_timer c then
          match pb_timer qb with
          | Some (Some deadline) =>
              if deadline <=? w_now w
              then Next (FlushCurrent p :: TimerLoop p :: k) [] (set_pb p (set_timer (Some None) qb) w)
              else Blocked
          | _ => Blocked
          end
        else if pb_shutdownCh qb then Next (StopWGDone p :: k) [] w else Blocked)
  | ShutdownInternal p =>
      with_pb w p (fun qb =>
        if pb_active qb
        then Next (CloseShutdownCh p :: FlushCurrent p :: StopWGWait p :: k) [] (set_pb p (set_inactive qb) w)
        else Next k [] w)
  | CloseShutdownCh p =>
      with_pb w p (fun qb =>
        if pb_shutdownCh qb then Panic else Next k [] (set_pb p (set_shutdownCh true qb) w))
  | StopWGWait p =>
      with_pb w p (fun qb => match pb_stopWG qb with O => Next k [] w | S _ => Blocked end)
  | ExecuteShutdown p =>
      match w_workers w with
      | O => Blocked
      | S n => Next k [[ShutdownInternal p; Release]] (set_workers n w)
      end
  | ShutdownPartitions =>
      let pbs := omap (fun key => lru_Peek key (w_partitions w)) (lru_Keys (w_partitions w)) in
      Next k (map (fun p => [ShutdownInternal p; ShutdownGoDone]) pbs)
        (set_shutdownWG (w_shutdownWG w + length pbs) w)
  | ShutdownGoDone =>
      match w_shutdownWG w with
      | O => Panic
      | S n => Next k [] (set_shutdownWG n w)
      end
  | ShutdownGoWait => match w_shutdownWG w with O => Next k [] w | S _ => Blocked end
  | PurgePartitions =>
      let '(c, evicted) := lru_Purge (w_partitions w) in
      Next (onEvict evicted ++ k) [] (set_partitions c w)
  end.

(** The goroutines, and the program around them: time passes, the queue calls
    [Consume], the component is shut down. *)
Record system := mkSystem {
  s_world : world;
  s_threads : list (list instr);
  s_offered : list Req;   (** the requests given to [Consume]; the i-th has the callback [Ext i] *)
}.

(** The calls the rest of the collector makes. *)
Record calls := mkCalls {
  call_Consume : Ctx -> Req -> Done -> instr;
  call_Shutdown : list instr;
}.

Definition shardedCalls (shardCount : nat) : calls :=
  mkCalls ShardedConsume (map ShutdownInternal (seq 0 shardCount)).
Definition multiCalls : calls :=
  mkCalls MultiConsume [Lock; ShutdownPartitions; ShutdownGoWait; PurgePartitions; Unlock].

Inductive event :=
  | ERun (thread : nat) (c : choice)
  | ETick (d : Z)
  | EConsume (ctx : Ctx) (req : Req)
  | EShutdown.

Definition stepThread (t : nat) (c : choice) (s : system) : outcome :=
  match s_threads s !! t with
  | Some (i :: k) => exec c i k (s_world s)
  | _ => Blocked
  end.

(** [None] for an event that cannot happen, or that panics. *)
Definition sysStep (api : calls) (e : event) (s : system) : option system :=
  match e with
  | ERun t c =>
      match stepThread t c s with
      | Next k spawned w => Some (mkSystem w (<[t := k]> (s_threads s) ++ spawned) (s_offered s))
      | _ => None
      end
  | ETick d => if 0 <? d then Some (mkSystem (tick d (s_world s)) (s_threads s) (s_offered s)) else None
  | EConsume ctx req =>
      Some (mkSystem (s_world s)
        (s_threads s ++ [[call_Consume api ctx req (Ext (length (s_offered s)))]]) (s_offered s ++ [req]))
  | EShutdown => Some (mkSystem (s_world s) (s_threads s ++ [call_Shutdown api]) (s_offered s))
  end.

Fixpoint sysRun (api : calls) (es : list event) (s : system) : option system :=
  match es with
  | [] => Some s
  | e :: es => sysStep api e s ≫= sysRun api es
  end.

(** [newShardedBatcher] and its [Start]; a positive [shardCount] is required. *)
Definition newShardedBatcher (now : Z) (shardCount : Z) : list (partitionBatcher Ctx Req) + error :=
  if shardCount <=? 0 then inr (Errorf "queue_batch: shard count must be positive, found %d" [ArgZ shardCount])
  else inl (replicate (Z.to_nat shardCount) (newPartitionBatcher now None)).

Definition startSharded (now : Z) (shards : list (partitionBatcher Ctx Req))
    : list (partitionBatcher Ctx Req) * list (list instr) :=
  let started := imap (Start now) shards in
  (map fst started, concat (map snd started)).

(** A batcher with the worker pool of [newWorkerPool(maxWorkers)], after Start. *)
Definition shardedSystem (now : Z) (empty : C) (maxWorkers : nat) (shards : list (partitionBatcher Ctx Req)) : system :=
  let '(pbs, threads) := startSharded now shards in
  mkSystem (mkWorld now pbs 0 empty false maxWorkers 0 (mkDones [] []) []) threads [].
Definition multiSystem (now : Z) (empty : C) (maxWorkers : nat) : system :=
  mkSystem (mkWorld now [] 0 empty false maxWorkers 0 (mkDones [] []) []) [] [].
End Goroutines.

Arguments instr : clear implicits.
Arguments world : clear implicits.
Arguments outcome : clear implicits.
Arguments system : clear implicits.
Arguments calls : clear implicits.
Arguments event : clear implicits.
