(* ===== verification/BatcherProofs.v ===== *)
(** * Batching: every callback is called once, and never hides a loss

    The invariant of the goroutine system of [Batcher].  A completion callback
    that has not been called is a token held somewhere: by a pending call of
    [Consume], by a flush on its way to a worker, or by a current batch.  The
    theorems hold for every number of partitions, every interleaving and every
    LRU cache, and for every kind of request that keeps the laws [BatchLaws]. *)

From S2P Require Import Prelude Errors Sizers Batcher.
Local Open Scope Z_scope.

(** ** Counting *)
Section Count.
Context {A : Type} `{EqDecision A}.

Definition cnt (x : A) (l : list A) : nat := length (filter (fun y => y = x) l).

Lemma cnt_app x l k : cnt x (l ++ k) = (cnt x l + cnt x k)%nat.
Proof. unfold cnt. by rewrite filter_app, length_app. Qed.

Lemma cnt_cons_eq x l : cnt x (x :: l) = S (cnt x l).
Proof. unfold cnt. rewrite filter_cons. by rewrite decide_True. Qed.
Lemma cnt_cons_ne x y l : y <> x -> cnt x (y :: l) = cnt x l.
Proof. intros. unfold cnt. rewrite filter_cons. by rewrite decide_False. Qed.

Lemma cnt_pos x l : x ∈ l -> (0 < cnt x l)%nat.
Proof.
  intros Hx. unfold cnt. apply elem_of_Permutation in Hx as [k ->].
  rewrite filter_cons, decide_True by done. simpl. lia.
Qed.
Lemma cnt_pos_inv x l : (0 < cnt x l)%nat -> x ∈ l.
Proof.
  unfold cnt. destruct (filter _ l) as [|y k] eqn:E; simpl; [lia|]. intros _.
  assert (y ∈ filter (fun y => y = x) l) as Hy by (rewrite E; left).
  by apply list_elem_of_filter in Hy as [-> ?].
Qed.

#[export] Instance cnt_proper x : Proper ((≡ₚ) ==> (=)) (cnt x).
Proof. intros l k E. unfold cnt. by rewrite E. Qed.
End Count.

(** ** What a batched request promises *)
Class BatchLaws (Ctx Req Item : Type) `{Request Req} `{!BatchRequest Ctx Req} := {
  items : Req -> list Item;
  valid : Req -> Prop;
  Sizeof_nonneg szt (r : Req) : valid r -> 0 <= Sizeof szt r;
  (** [MergeSplit] of valid requests whose sizes do not overflow returns valid
      requests that hold nothing but what went in. *)
  ms_valid (ctx : Ctx) (r : Req) maxSize szt r2 outs err r' :
    (szt = SizerTypeItems \/ szt = SizerTypeBytes) -> 0 <= maxSize < 2 ^ 63 ->
    valid r -> from_option valid True r2 ->
    Sizeof szt r + from_option (Sizeof szt) 0 r2 < 2 ^ 63 ->
    MergeSplit ctx r maxSize szt r2 = (outs, err, r') ->
    Forall valid outs /\ valid r' /\
    Sizeof szt r' <= Sizeof szt r + from_option (Sizeof szt) 0 r2 /\
    (match outs with [] => items r' | _ => concat (map items outs) end
       ⊆+ items r ++ from_option items [] r2) /\
    (** without an error the items of the newest request are all in the outputs *)
    (err = None -> forall x, x ∈ from_option items (items r) r2 -> x ∈ concat (map items outs)) /\
    (** a receiver that fits the limit ends up in the first output *)
    (r2 <> None -> maxSize = 0 \/ Sizeof szt r <= maxSize ->
       items r = [] \/ exists o outs', outs = o :: outs' /\ forall x, x ∈ items r -> x ∈ items o);
}.

(** What log and span requests promise beyond that, and metric and profile requests do
    not: the outputs of [MergeSplit] fit the limit, and none of them is empty.  Only the
    sizes of batches depend on it. *)
Class BatchFits (Ctx Req Item : Type) `{BatchLaws Ctx Req Item} : Prop :=
  ms_fits (ctx : Ctx) (r : Req) maxSize szt r2 outs err r' :
    (szt = SizerTypeItems \/ szt = SizerTypeBytes) -> 0 <= maxSize < 2 ^ 63 ->
    valid r -> from_option valid True r2 ->
    Sizeof szt r + from_option (Sizeof szt) 0 r2 < 2 ^ 63 ->
    MergeSplit ctx r maxSize szt r2 = (outs, err, r') ->
    (0 < maxSize -> Forall (fun o => Sizeof szt o <= maxSize) outs) /\
    (items r <> [] -> Forall (fun o => items o <> []) outs).

(** ** Tokens and callbacks *)

(** [T] are the callbacks that somebody still has to call, [n] the number of
    requests given to the batcher. *)
Definition ncalls (s : dones) (i : nat) : nat := cnt i (map fst (d_calls s)).
Definition live (i : nat) (r : refCountDone) : Prop := rc_done r = Ext i /\ 0 < rc_refCount r.
#[export] Instance live_dec i r : Decision (live i r).
Proof. apply _. Defined.
Definition nlive (s : dones) (i : nat) : nat := length (filter (live i) (d_heap s)).

Record DoneInv (s : dones) (T : list Done) (n : nat) : Prop := {
  di_range l : RefCount l ∈ T -> (l < length (d_heap s))%nat;
  di_count l r : d_heap s !! l = Some r ->
    rc_refCount r = Z.of_nat (cnt (RefCount l) T) /\ exists i, rc_done r = Ext i;
  di_once i : (ncalls s i + cnt (Ext i) T + nlive s i = if decide (i < n)%nat then 1 else 0)%nat;
}.

#[export] Instance DoneInv_proper s : Proper ((≡ₚ) ==> (=) ==> iff) (DoneInv s).
Proof.
  assert (forall T1 T2 n, T1 ≡ₚ T2 -> DoneInv s T1 n -> DoneInv s T2 n) as H.
  { intros T1 T2 n E [H1 H2 H3]. split; [intros l; rewrite <- E; auto|intros l r; rewrite <- E; auto|].
    intros i. by rewrite <- E. }
  intros T1 T2 E n ? <-. split; apply H; by rewrite E.
Qed.

(** The request a callback reports to. *)
Definition owns (s : dones) (t : Done) (i : nat) : Prop :=
  t = Ext i \/ exists l r, t = RefCount l /\ d_heap s !! l = Some r /\ rc_done r = Ext i.

(** An error has been reported for request [i]. *)
Definition failed (s : dones) (i : nat) : Prop :=
  (exists e, (i, Some e) ∈ d_calls s) \/
  exists l r, d_heap s !! l = Some r /\ live i r /\ rc_err r <> None.

(** Later states of the callbacks keep the owners and the reported errors. *)
Definition extends (s s' : dones) : Prop :=
  (forall t i, owns s t i -> owns s' t i) /\ (forall i, failed s i -> failed s' i).

#[export] Instance extends_preorder : PreOrder extends.
Proof. split; [by intros s|]. intros s1 s2 s3 [H1 H2] [H3 H4]. split; auto. Qed.

Lemma nlive_insert s l r r' i :
  d_heap s !! l = Some r ->
  (nlive (mkDones (<[l := r']> (d_heap s)) (d_calls s)) i + (if decide (live i r) then 1 else 0)
   = nlive s i + (if decide (live i r') then 1 else 0))%nat.
Proof.
  intros Hl. unfold nlive; simpl. rewrite (insert_take_drop _ _ _ (lookup_lt_Some _ _ _ Hl)).
  rewrite <- (take_drop_middle _ _ _ Hl) at 3.
  rewrite !filter_app, !filter_cons, !length_app. do 2 case_decide; simpl; lia.
Qed.

Lemma call_ok s i err T n :
  DoneInv s (Ext i :: T) n ->
  let s' := mkDones (d_heap s) (d_calls s ++ [(i, err)]) in
  DoneInv s' T n /\ extends s s' /\ (err <> None -> failed s' i).
Proof.
  intros [H1 H2 H3] s'. split_and!.
  - split.
    + intros l Hl. apply H1. by right.
    + intros l r Hl. destruct (H2 l r Hl) as [-> Hi]. by rewrite cnt_cons_ne by done.
    + intros j. specialize (H3 j). unfold ncalls, nlive in *. simpl.
      rewrite map_app, cnt_app. destruct (decide (i = j)) as [->|Hne]; simpl.
      * rewrite !cnt_cons_eq in *. unfold cnt at 2; simpl. lia.
      * rewrite !cnt_cons_ne in * by congruence. unfold cnt at 2; simpl. lia.
  - split; [done|]. intros j [(e & He)|Hl]; [left|by right]. exists e. simpl. set_solver.
  - intros He. left. destruct err as [e|]; [|done]. exists e. simpl. set_solver.
Qed.

(** ** A counter that is called goes down *)
Section Counter.
Context (s : dones) (l : nat) (r : refCountDone) (err : option error) (T : list Done) (n i : nat).
Hypothesis HI : DoneInv s (RefCount l :: T) n.
Hypothesis Hl : d_heap s !! l = Some r.
Hypothesis Hi : rc_done r = Ext i.

Let r' := mkRefCountDone (rc_done r) (rc_refCount r - 1) (multierr_Append (rc_err r) err).
Let s' := mkDones (<[l := r']> (d_heap s)) (d_calls s).

Lemma counter_heap : (l < length (d_heap s))%nat /\ live i r /\ d_heap s' !! l = Some r'.
Proof.
  pose proof (lookup_lt_Some _ _ _ Hl). split; [done|].
  destruct (di_count _ _ _ HI l r Hl) as [Hc _]. rewrite cnt_cons_eq in Hc. split; [split; [done|lia]|].
  simpl. by rewrite list_lookup_insert_eq.
Qed.

Lemma counter_owns t j : owns s t j -> owns s' t j.
Proof.
  destruct counter_heap as (_ & _ & Hl'). intros [->|(k & q & -> & Hk & Hq)]; [by left|right].
  destruct (decide (k = l)) as [->|Hne].
  - exists l, r'. simpl. naive_solver.
  - exists k, q. simpl. by rewrite list_lookup_insert_ne.
Qed.

Lemma counter_count k q :
  d_heap s' !! k = Some q -> rc_refCount q = Z.of_nat (cnt (RefCount k) T) /\ exists j, rc_done q = Ext j.
Proof.
  simpl. intros Hk. apply list_lookup_insert_Some in Hk as [(-> & <- & _)|[Hne Hk]].
  - destruct (di_count _ _ _ HI k r Hl) as [Hc ?]. rewrite cnt_cons_eq in Hc. split; [simpl; lia|done].
  - destruct (di_count _ _ _ HI k q Hk) as [-> ?]. by rewrite cnt_cons_ne by congruence.
Qed.

Lemma counter_range k : RefCount k ∈ T -> (k < length (d_heap s'))%nat.
Proof. intros Hk. simpl. rewrite length_insert. apply (di_range _ _ _ HI). by right. Qed.

(** The callback below is due exactly when the counter reaches zero. *)
Lemma counter_once j :
  (ncalls s' j + cnt (Ext j) T + nlive s' j + (if decide (j = i /\ rc_refCount r' = 0%Z) then 1 else 0)
   = if decide (j < n)%nat then 1 else 0)%nat.
Proof.
  pose proof (di_once _ _ _ HI j) as Hj. pose proof (nlive_insert s l r r' j Hl) as Hn.
  fold s' in Hn. change (ncalls s' j) with (ncalls s j). rewrite cnt_cons_ne in Hj by done.
  destruct counter_heap as (_ & [Hd Hp] & _). simpl in *. destruct (decide (j = i)) as [->|Hne].
  - rewrite decide_True in Hn by done. destruct (decide (live i r')) as [ [_ Hq]|Hq].
    + rewrite decide_False by (simpl in Hq; lia). lia.
    + rewrite decide_True; [lia|]. split; [done|]. unfold live in Hq; simpl in Hq.
      assert (~ 0 < rc_refCount r - 1) by naive_solver. lia.
  - rewrite !decide_False in Hn by (intros [E _]; simpl in E; congruence).
    rewrite decide_False by naive_solver. lia.
Qed.

Lemma counter_failed j :
  failed s j \/ (err <> None /\ j = i) ->
  failed s' j \/ (j = i /\ rc_refCount r' = 0 /\ rc_err r' <> None).
Proof.
  destruct counter_heap as (_ & Hlive & Hl').
  assert (j = i -> rc_err r' <> None -> failed s' j \/ (j = i /\ rc_refCount r' = 0 /\ rc_err r' <> None)) as Hmine.
  { intros -> He. destruct (decide (rc_refCount r' = 0)); [by right|].
    left. right. exists l, r'. split_and!; [done| |done]. destruct Hlive. split; simpl in *; [done|lia]. }
  intros [ [Hj|(k & q & Hk & Hq & He)]|[He ->]].
  - left. by left.
  - destruct (decide (k = l)) as [->|Hne].
    + assert (q = r) as -> by congruence. apply Hmine; [destruct Hq; congruence|].
      simpl. rewrite multierr_Append_None. naive_solver.
    + left. right. exists k, q. split; [|done]. simpl. by rewrite list_lookup_insert_ne.
  - apply Hmine; [done|]. simpl. rewrite multierr_Append_None. naive_solver.
Qed.
End Counter.

(** Calling a callback that is due always returns, and spends its token. *)
Lemma OnDone_ok s t T n err :
  DoneInv s (t :: T) n ->
  exists s', OnDone t err s = Some s' /\ DoneInv s' T n /\ extends s s' /\
    (err <> None -> forall i, owns s t i -> failed s' i).
Proof.
  intros HI. destruct t as [i|l].
  { eexists. split; [done|]. destruct (call_ok s i err T n HI) as (H1 & H2 & H3).
    split; [done|]. split; [done|]. intros He j [ [= <-]|(? & ? & [=] & _)]. auto. }
  destruct (lookup_lt_is_Some_2 (d_heap s) l) as [r Hl]; [apply (di_range _ _ _ HI); left|].
  destruct (di_count _ _ _ HI l r Hl) as (_ & i & Hi).
  pose proof (counter_owns s l r err T n i HI Hl Hi) as Hown.
  pose proof (counter_count s l r err T n HI Hl) as Hcount.
  pose proof (counter_range s l r err T n HI) as Hrange.
  pose proof (counter_once s l r err T n i HI Hl Hi) as Honce.
  pose proof (counter_failed s l r err T n i HI Hl Hi) as Hfail.
  assert (Hmine : forall j, owns s (RefCount l) j -> j = i) by (intros j [ [=]|(?&?&[= <-]&?&?)]; congruence).
  unfold OnDone. cbn [onDone]. rewrite Hl. cbn [rc_refCount rc_done rc_err] in *. rewrite Hi in *.
  set (s1 := mkDones _ _) in *. destruct (Z.eqb_spec (rc_refCount r - 1) 0) as [H0|H0].
  - assert (HI1 : DoneInv s1 (Ext i :: T) n).
    { split.
      - intros k Hk. apply elem_of_cons in Hk as [ [=]|Hk]. by apply Hrange.
      - intros k q Hk. destruct (Hcount k q Hk) as [-> ?]. by rewrite cnt_cons_ne by done.
      - intros j. rewrite <- (Honce j). destruct (decide (j = i)) as [->|Hne].
        + rewrite cnt_cons_eq, decide_True by done. lia.
        + rewrite cnt_cons_ne, decide_False by naive_solver. lia. }
    eexists. split; [done|]. destruct (call_ok s1 i (multierr_Append (rc_err r) err) T n HI1) as (H1 & [H2 H2'] & H3).
    split; [done|]. split; [split; [by intros; apply H2, Hown|]|].
    + intros j Hj. destruct (Hfail j (or_introl Hj)) as [Hj'|(-> & _ & He)]; [by apply H2'|by apply H3].
    + intros He j Hj%Hmine. destruct (Hfail j) as [Hj'|(-> & _ & ?)]; [auto|by apply H2'|by apply H3].
  - exists s1. split; [done|]. split; [|split; [split; [done|]|]].
    + split; [done..|]. intros j. rewrite <- (Honce j), decide_False by naive_solver. lia.
    + intros j Hj. destruct (Hfail j (or_introl Hj)) as [Hj'|(_ & ? & _)]; done.
    + intros He j Hj%Hmine. destruct (Hfail j) as [Hj'|(_ & ? & _)]; auto; done.
Qed.

Lemma multiOnDone_ok mdc err T n s :
  DoneInv s (mdc ++ T) n ->
  exists s', multiOnDone mdc err s = Some s' /\ DoneInv s' T n /\ extends s s' /\
    (err <> None -> forall t i, t ∈ mdc -> owns s t i -> failed s' i).
Proof.
  revert s. induction mdc as [|t mdc IH]; intros s HI; simpl in *.
  - exists s. split; [done|]. split; [done|]. split; [done|]. intros _ t i Ht. set_solver.
  - destruct (OnDone_ok s t _ n err HI) as (s1 & -> & H1 & H2 & H3). simpl.
    destruct (IH s1 H1) as (s2 & -> & H4 & H5 & H6). exists s2. split; [done|]. split; [done|].
    split; [by etrans|]. intros He u i Hu Ho. apply elem_of_cons in Hu as [->|Hu].
    + apply H5. by apply H3.
    + apply (H6 He u i); [done|]. by apply H2.
Qed.

Lemma cnt_replicate `{EqDecision A} (x y : A) m : cnt x (replicate m y) = if decide (y = x) then m else 0%nat.
Proof.
  induction m as [|m IH]; simpl; [by case_decide|]. case_decide as E.
  - subst. by rewrite cnt_cons_eq, IH.
  - by rewrite cnt_cons_ne, IH.
Qed.

Lemma newRefCountDone_ok s i m T n :
  DoneInv s (Ext i :: T) n -> (0 < m)%nat ->
  let '(d, s') := newRefCountDone (Ext i) (Z.of_nat m) s in
  DoneInv s' (replicate m d ++ T) n /\ extends s s' /\ owns s' d i.
Proof.
  intros HI Hm. unfold newRefCountDone. set (l := length (d_heap s)).
  set (r := mkRefCountDone (Ext i) (Z.of_nat m) None).
  assert (Hfresh : cnt (RefCount l) T = 0%nat).
  { destruct (cnt (RefCount l) T) eqn:E; [done|].
    assert (l < l)%nat; [|lia]. apply (di_range _ _ _ HI). right. apply cnt_pos_inv. lia. }
  assert (Hold : forall k q, d_heap s !! k = Some q -> (d_heap s ++ [r]) !! k = Some q).
  { intros k q Hk. by apply lookup_app_l_Some. }
  split; [|split; [split|]].
  - split.
    + intros k Hk. simpl. rewrite length_app; simpl. apply elem_of_app in Hk as [Hk|Hk].
      * apply elem_of_replicate in Hk as [ [= ->] _]. fold l. lia.
      * assert (k < length (d_heap s))%nat; [|lia]. apply (di_range _ _ _ HI). by right.
    + intros k q Hk. simpl in Hk. rewrite cnt_app, cnt_replicate.
      apply lookup_app_Some in Hk as [Hk|[Hge Hk]].
      * pose proof (lookup_lt_Some _ _ _ Hk). rewrite decide_False by (unfold l; intros [= ?]; lia).
        destruct (di_count _ _ _ HI k q Hk) as [-> ?]. by rewrite cnt_cons_ne.
      * apply list_lookup_singleton_Some in Hk as [Hz <-]. assert (k = l) as -> by (unfold l; lia).
        rewrite decide_True, Hfresh by done. simpl. split; [lia|by exists i].
    + intros j. pose proof (di_once _ _ _ HI j) as Hj. unfold ncalls, nlive in *. simpl.
      rewrite filter_app, length_app, cnt_app, cnt_replicate, decide_False by done. rewrite filter_cons.
      destruct (decide (i = j)) as [->|Hne].
      * rewrite cnt_cons_eq in Hj. rewrite decide_True by (split; [done|simpl; lia]). simpl. lia.
      * rewrite cnt_cons_ne in Hj by congruence. rewrite decide_False by (intros [ [=] _]; done). simpl. lia.
  - intros t j [->|(k & q & -> & Hk & Hq)]; [by left|right]. exists k, q. eauto.
  - intros j [Hj|(k & q & Hk & Hq)]; [by left|right]. exists k, q. eauto.
  - right. exists l, r. split_and!; [done| |done]. simpl. rewrite lookup_app_r by done. by rewrite Nat.sub_diag.
Qed.

(** [shareDone] gives one token per output, and reports the error. *)
Lemma shareDone_ok {Req} (reqList : list Req) err i s T n d s' :
  DoneInv s (Ext i :: T) n -> reqList <> [] ->
  shareDone reqList err (Ext i) s = Some (d, s') ->
  DoneInv s' (replicate (length reqList) d ++ T) n /\ extends s s' /\ owns s' d i /\
  (err <> None -> failed s' i).
Proof.
  intros HI Hne. unfold shareDone. destruct reqList as [|r0 rs]; [done|]. clear Hne.
  set (m := length (r0 :: rs)). destruct err as [e|].
  - destruct (Z.ltb_spec 1 (Z.of_nat m + 1)) as [_|?]; [|simpl in m; lia].
    replace (Z.of_nat m + 1) with (Z.of_nat (S m)) by lia.
    pose proof (newRefCountDone_ok s i (S m) T n HI ltac:(lia)) as Hn.
    destruct (newRefCountDone _ _ _) as [d1 s1]. destruct Hn as (H1 & H2 & H3).
    destruct (OnDone_ok s1 d1 _ n (Some e) H1) as (s2 & -> & H4 & H5 & H6). intros [= <- <-].
    split; [done|]. split; [by etrans|]. split; [by apply H5|]. intros _. by apply H6.
  - rewrite Z.add_0_r. destruct (Z.ltb_spec 1 (Z.of_nat m)) as [_|Hle].
    + pose proof (newRefCountDone_ok s i m T n HI ltac:(simpl in m; lia)) as Hn.
      destruct (newRefCountDone _ _ _) as [d1 s1]. destruct Hn as (H1 & H2 & H3). by intros [= <- <-].
    + intros [= <- <-]. assert (m = 1%nat) as -> by (simpl in m; lia). simpl.
      split; [done|]. split; [done|]. split; [by left|done].
Qed.

(** ** The invariant of the batcher *)
Section Invariant.
Context {Ctx Link Req Item C : Type} `{ContextOps Ctx Link} `{Request Req} `{!BatchRequest Ctx Req}.
Context `{!BatchLaws Ctx Req Item}.
Context (cfg : BatchConfig) (mergeCtx : option (Ctx -> Ctx -> Ctx)).

Local Abbreviation itemsOf := (@items Ctx Req Item _ _ _).
Local Abbreviation validReq := (@valid Ctx Req Item _ _ _).
Local Abbreviation size := (Sizeof (bc_Sizer cfg)).

(** A request on its way, with the callbacks to call for it: in a pending call of
    [Consume], in a flush, or in a current batch. *)
Inductive hkind := Pend | Fly | Cur.
Record hold := mkHold { h_kind : hkind; h_req : Req; h_done : list Done }.

Definition tokens (H : list hold) : list Done := flat_map h_done H.
Definition hitems (H : list hold) : list Item := flat_map (fun h => itemsOf (h_req h)) H.
Definition pendSize (H : list hold) : Z :=
  sumZ (fun h => match h_kind h with Pend => size (h_req h) | _ => 0 end) H.
Definition total (offered : list Req) : Z := sumZ size offered.

Definition sentItems (sent : list (batch Ctx Req * option error)) : list Item :=
  flat_map (fun '(t, _) => itemsOf (b_req t)) sent.
Definition sentOk (sent : list (batch Ctx Req * option error)) : list Item :=
  flat_map (fun '(t, res) => match res with None => itemsOf (b_req t) | Some _ => [] end) sent.

Definition fits (r : Req) : Prop := MaxSize cfg = 0 \/ size r <= MaxSize cfg.

(** Where an item of request [i] is, or that its loss has been reported. *)
Definition located (s : dones) (H : list hold) sent (i : nat) (x : Item) : Prop :=
  x ∈ sentOk sent \/ failed s i \/
  exists h t, h ∈ H /\ x ∈ itemsOf (h_req h) /\ (h_kind h = Cur -> fits (h_req h)) /\
    t ∈ h_done h /\ owns s t i.

Definition nonEmpty (r : Req) : Prop := itemsOf r <> [].
Local Abbreviation Fits := (BatchFits Ctx Req Item).

Record Inv (offered : list Req) (s : dones) (H : list hold) (sent : list (batch Ctx Req * option error)) : Prop := {
  iv_done : DoneInv s (tokens H) (length offered);
  iv_valid h : h ∈ H -> validReq (h_req h);
  iv_pend h : h ∈ H -> h_kind h = Pend -> exists i, h_done h = [Ext i];
  iv_item i r x : offered !! i = Some r -> x ∈ itemsOf r -> located s H sent i x;
  iv_nodup : hitems H ++ sentItems sent ⊆+ flat_map itemsOf offered;
  iv_pending : pendSize H <= total offered;
  iv_current h : h ∈ H -> h_kind h = Cur -> size (h_req h) + pendSize H <= MinSize cfg + total offered;
  iv_limit : Fits -> Forall nonEmpty offered ->
    (forall h, h ∈ H -> nonEmpty (h_req h) /\ (h_kind h <> Pend -> fits (h_req h))) /\
    Forall (fun p => fits (b_req p.1)) sent;
}.

Lemma hitems_app H1 H2 : hitems (H1 ++ H2) = hitems H1 ++ hitems H2.
Proof. apply flat_map_app. Qed.
Lemma tokens_app H1 H2 : tokens (H1 ++ H2) = tokens H1 ++ tokens H2.
Proof. apply flat_map_app. Qed.
Lemma pendSize_app H1 H2 : pendSize (H1 ++ H2) = pendSize H1 + pendSize H2.
Proof. apply sumZ_app. Qed.

#[export] Instance flat_map_perm {A B} (f : A -> list B) : Proper ((≡ₚ) ==> (≡ₚ)) (flat_map f).
Proof. intros l k E. by apply Permutation_flat_map. Qed.

Lemma pendSize_perm H1 H2 : H1 ≡ₚ H2 -> pendSize H1 = pendSize H2.
Proof. apply sumZ_permutation. Qed.

Lemma located_perm s H1 H2 sent i x : H1 ≡ₚ H2 -> located s H1 sent i x -> located s H2 sent i x.
Proof.
  intros E [?|[?|(h & t & Hh & ?)]]; [by left|right; by left|right; right].
  exists h, t. split; [by rewrite <- E|done].
Qed.

Lemma Inv_perm off s H1 H2 sent : H1 ≡ₚ H2 -> Inv off s H1 sent -> Inv off s H2 sent.
Proof.
  intros E [I1 I2 I3 I4 I5 I6 I7 I8]. pose proof (pendSize_perm _ _ E) as Ep.
  assert (Hin : forall h, h ∈ H2 -> h ∈ H1) by (intros h; by rewrite E).
  split; [|by auto|by auto|..]; rewrite <- ?Ep; auto.
  - unfold tokens in *. by rewrite <- E.
  - intros i r x Hi Hx. eapply located_perm; eauto.
  - unfold hitems in *. by rewrite <- E.
  - intros Hf Hne. destruct (I8 Hf Hne) as [Ha Hb]. auto.
Qed.

Lemma pendSize_nonneg H1 : (forall h, h ∈ H1 -> validReq (h_req h)) -> 0 <= pendSize H1.
Proof.
  intros Hv. apply sumZ_nonneg. intros h Hh. destruct (h_kind h); [|lia..].
  by apply (Sizeof_nonneg (Ctx := Ctx)), Hv.
Qed.

(** Replacing some of the holds, [Hin], by [Hout] and [new] calls of [consumeFunc]. *)
Lemma Inv_replace off s s' Hin Hout R sent new :
  Inv off s (Hin ++ R) sent ->
  DoneInv s' (tokens Hout ++ tokens R) (length off) -> extends s s' ->
  (forall h, h ∈ Hout -> validReq (h_req h) /\ h_kind h <> Pend) ->
  (forall h t i x, h ∈ Hin -> x ∈ itemsOf (h_req h) -> (h_kind h = Cur -> fits (h_req h)) ->
     t ∈ h_done h -> owns s t i -> located s' Hout new i x) ->
  hitems Hout ++ sentItems new ⊆+ hitems Hin ->
  (forall h, h ∈ Hout -> h_kind h = Cur -> size (h_req h) < MinSize cfg \/
     exists h', h' ∈ Hin /\ h_kind h' = Cur /\ size (h_req h) <= size (h_req h') + pendSize Hin) ->
  (Fits -> Forall nonEmpty off ->
     (forall h, h ∈ Hin -> nonEmpty (h_req h) /\ (h_kind h <> Pend -> fits (h_req h))) ->
     (forall h, h ∈ Hout -> nonEmpty (h_req h) /\ fits (h_req h)) /\
     Forall (fun p => fits (b_req p.1)) new) ->
  Inv off s' (Hout ++ R) (sent ++ new).
Proof.
  intros [I1 I2 I3 I4 I5 I6 I7 I8] Hd He Hk Hl Hi Hs Hn.
  assert (Hp0 : pendSize Hout = 0).
  { unfold pendSize. rewrite (sumZ_ext _ (fun _ => 0)); [by rewrite sumZ_const|].
    intros h Hh. destruct (Hk h Hh) as [_ ?]. by destruct (h_kind h). }
  assert (HinV : forall h, h ∈ Hin -> validReq (h_req h)) by (intros; apply I2; set_solver).
  pose proof (pendSize_nonneg Hin HinV). rewrite pendSize_app in I6, I7.
  split; rewrite ?tokens_app, ?hitems_app, ?pendSize_app, ?Hp0, ?Z.add_0_l.
  - done.
  - intros h [Hh|Hh]%elem_of_app; [by apply Hk|apply I2; set_solver].
  - intros h [Hh|Hh]%elem_of_app; [by destruct (Hk h Hh)|apply I3; set_solver].
  - intros i r x Hr Hx. destruct (I4 i r x Hr Hx) as [?|[?|(h & t & Hh & Hxh & Hf & Ht & Ho)]].
    + left. unfold sentOk in *. rewrite flat_map_app. set_solver.
    + right; left. by apply He.
    + apply elem_of_app in Hh as [Hh|Hh].
      * destruct (Hl h t i x) as [?|[?|(h' & t' & Hh' & ?)]]; try done.
        -- left. unfold sentOk in *. rewrite flat_map_app. set_solver.
        -- right; by left.
        -- right; right. exists h', t'. split; [set_solver|done].
      * right; right. exists h, t. split_and!; try done; [set_solver|by apply He].
  - rewrite hitems_app in I5. etrans; [|exact I5]. unfold sentItems in *. rewrite flat_map_app.
    set (fm := flat_map (fun '(t, _) => itemsOf (b_req t))) in *.
    transitivity ((hitems Hout ++ fm new) ++ (hitems R ++ fm sent)).
    { apply Permutation_submseteq. solve_Permutation. }
    rewrite <- (app_assoc (hitems Hin)). by apply submseteq_app.
  - lia.
  - intros h [Hh|Hh]%elem_of_app Hc.
    + destruct (Hs h Hh Hc) as [?|(h' & Hh' & Hc' & ?)]; [lia|].
      specialize (I7 h' ltac:(set_solver) Hc'). lia.
    + specialize (I7 h ltac:(set_solver) Hc). lia.
  - intros Hf Hne. destruct (I8 Hf Hne) as [Ha Hb]. destruct (Hn Hf Hne) as [Hc Hd']; [intros; apply Ha; set_solver|].
    split; [|by apply Forall_app]. intros h [Hh|Hh]%elem_of_app; [|apply Ha; set_solver].
    destruct (Hc h Hh). auto.
Qed.

(** ** Consuming a request *)
Hypothesis Hcfg : BatchConfig_Validate cfg = None.
Hypothesis Hmax : MaxSize cfg < 2 ^ 63.

Definition pb_holds (qb : partitionBatcher Ctx Req) : list hold :=
  match pb_currentBatch qb with Some b => [mkHold Cur (b_req b) (b_done b)] | None => [] end.
Definition flyHold (t : batch Ctx Req) : hold := mkHold Fly (b_req t) (b_done t).

(** [hs] holds the requests [rs], each with the callbacks [ds]; those kept as the
    current batch are small. *)
Definition placed (ds : list Done) (rs : list Req) (hs : list hold) : Prop :=
  exists hs', hs ≡ₚ hs' /\ Forall2 (fun r h => h_req h = r /\ h_done h = ds /\ h_kind h <> Pend /\
    (h_kind h = Cur -> size r < MinSize cfg)) rs hs'.

Lemma fly_placed ctx d rs :
  placed [d] rs (map flyHold (map (fun r => mkBatch ctx r [d]) rs)).
Proof.
  eexists. split; [done|]. rewrite map_map. induction rs; simpl; constructor; [|done].
  simpl. naive_solver.
Qed.

Lemma resetTimer_currentBatch now (qb qb' : partitionBatcher Ctx Req) :
  resetTimer cfg now qb = Some qb' -> pb_currentBatch qb' = pb_currentBatch qb.
Proof. unfold resetTimer. intros E. repeat (case_match; simplify_eq; try done). Qed.

(** [keepLast] places its requests: the last one may become the current batch. *)
Lemma keepLast_placed now ctx rs d qb rs' qb' :
  keepLast cfg now ctx rs d qb = Some (rs', qb') ->
  (pb_holds qb = [] \/ rs = []) ->
  exists hs, map flyHold (map (fun r => mkBatch ctx r [d]) rs') ++ pb_holds qb' ≡ₚ hs ++ pb_holds qb /\
    placed [d] rs hs.
Proof.
  unfold keepLast. intros E Hqb. destruct (last rs) as [lastReq|] eqn:El.
  - apply last_Some in El as [init ->]. destruct Hqb as [Hqb|Hqb]; [|by destruct init].
    destruct (Z.ltb_spec (size lastReq) (MinSize cfg)) as [Hlt|Hge].
    + destruct (resetTimer _ _ _) as [qb1|] eqn:Er; simplify_eq/=.
      apply resetTimer_currentBatch in Er. unfold pb_holds at 1. rewrite Er; simpl.
      rewrite removelast_last, Hqb. eexists. rewrite app_nil_r. split; [done|].
      destruct (fly_placed ctx d init) as (hs & E1 & F1).
      exists (hs ++ [mkHold Cur lastReq [d]]). split; [by rewrite E1|].
      apply Forall2_app; [done|]. repeat constructor; naive_solver.
    + simplify_eq. eexists. split; [done|]. apply fly_placed.
  - simplify_eq. eexists. split; [done|]. apply fly_placed.
Qed.

Lemma placed_props ds rs hs :
  placed ds rs hs ->
  tokens hs ≡ₚ concat (replicate (length rs) ds) /\ hitems hs ≡ₚ concat (map itemsOf rs) /\
  (forall h, h ∈ hs -> h_req h ∈ rs /\ h_done h = ds /\ h_kind h <> Pend /\
     (h_kind h = Cur -> size (h_req h) < MinSize cfg)) /\
  (forall r, r ∈ rs -> exists h, h ∈ hs /\ h_req h = r).
Proof.
  intros (hs' & E & F). unfold tokens, hitems. split_and!.
  - rewrite E. clear E. induction F as [|r h rs hs' (<- & Hd & _)]; simpl; [done|by rewrite Hd, IHF].
  - rewrite E. clear E. induction F as [|r h rs hs' (<- & _)]; simpl; [done|by rewrite IHF].
  - intros h. rewrite E. clear E. induction F as [|r h' rs hs' (<- & ? & ? & ?)]; set_solver.
  - intros r. setoid_rewrite E. clear E. induction F as [|r' h' rs hs' (<- & ? & ? & ?)]; set_solver.
Qed.

Lemma small_fits r : size r < MinSize cfg -> fits r.
Proof.
  destruct (BatchConfig_Validate_ok _ Hcfg) as (_ & _ & _ & _ & [?|?]); unfold fits; [auto|lia].
Qed.

(** What is known when a request is consumed: [curs] is the hold of the current
    batch, if any. *)
Section Consume.
Context (off : list Req) (s : dones) (req : Req) (i : nat) (R : list hold).
Context (sent : list (batch Ctx Req * option error)).

Lemma owns_ext j : owns s (Ext i) j -> j = i.
Proof. intros [ [= ->]|(? & ? & [=] & _)]. done. Qed.

(** A request that leaves nothing to send: its callback is called. *)
Lemma consume_nothing s' err curs curs' :
  Inv off s ((mkHold Pend req [Ext i] :: curs) ++ R) sent ->
  OnDone (Ext i) err s = Some s' ->
  (err = None -> itemsOf req = []) ->
  (forall h, h ∈ curs -> h_kind h = Cur /\ (fits (h_req h) -> itemsOf (h_req h) = [])) ->
  tokens curs' = tokens curs -> (forall h, h ∈ curs' -> h_kind h = Cur /\ validReq (h_req h)) ->
  hitems curs' ⊆+ itemsOf req ++ hitems curs ->
  (forall h, h ∈ curs' -> exists h', h' ∈ curs /\ size (h_req h) <= size (h_req h') + size req) ->
  Inv off s' (curs' ++ R) sent.
Proof.
  intros HI Ho Hit Hc Ht Hv Hsub Hsz. rewrite <- (app_nil_r sent).
  destruct (OnDone_ok s (Ext i) (tokens curs ++ tokens R) (length off) err) as (s1 & E1 & HD & He & Hf).
  { pose proof (iv_done _ _ _ _ HI) as HD. by rewrite tokens_app in HD. }
  rewrite E1 in Ho. injection Ho as ->.
  pose proof (iv_valid _ _ _ _ HI) as HV.
  assert (Hp : pendSize (mkHold Pend req [Ext i] :: curs) = size req).
  { unfold pendSize; simpl. rewrite (sumZ_ext _ (fun _ => 0)).
    - rewrite sumZ_const. lia.
    - intros h Hh. by destruct (Hc h Hh) as [-> _]. }
  apply (Inv_replace _ s _ (mkHold Pend req [Ext i] :: curs)); try done.
  - by rewrite Ht.
  - intros h Hh. destruct (Hv h Hh) as [Hk ?]. by rewrite Hk.
  - intros h t j x Hh Hx Hfit Htk Hj. apply elem_of_cons in Hh as [->|Hh].
    + apply list_elem_of_singleton in Htk as ->. apply owns_ext in Hj as Ej. subst j.
      destruct err as [e|]; [right; left; by apply Hf|]. simpl in Hx. rewrite Hit in Hx by done. set_solver.
    + destruct (Hc h Hh) as [Hk Hn]. rewrite (Hn (Hfit Hk)) in Hx. set_solver.
  - rewrite app_nil_r. exact Hsub.
  - intros h Hh _. right. destruct (Hsz h Hh) as (h' & Hh' & Hle). exists h'.
    rewrite Hp. split; [by right|]. split; [by apply Hc|done].
  - intros _ Hne Hin. split; [|done]. intros h Hh. destruct (Hsz h Hh) as (h' & Hh' & _).
    destruct (Hin h') as [Hn Hfit]; [by right|]. destruct (Hc h' Hh') as [Hk Hemp].
    exfalso. apply Hn. apply Hemp, Hfit. by rewrite Hk.
Qed.

(** The outputs are in [hs], each with the callback [d]; one of them has also
    taken over what the current batch held. *)
Definition spread (d : Done) (outs : list Req) (curs hs : list hold) : Prop :=
  tokens hs ≡ₚ replicate (length outs) d ++ tokens curs /\
  hitems hs ≡ₚ concat (map itemsOf outs) /\
  (forall h, h ∈ hs -> h_req h ∈ outs /\ h_kind h <> Pend /\ (h_kind h = Cur -> size (h_req h) < MinSize cfg)) /\
  (forall o, o ∈ outs -> exists h, h ∈ hs /\ h_req h = o /\ d ∈ h_done h) /\
  (forall hc, hc ∈ curs -> exists h, h ∈ hs /\ h_done hc ⊆ h_done h /\
     (fits (h_req hc) -> forall x, x ∈ itemsOf (h_req hc) -> x ∈ itemsOf (h_req h))).

Lemma consume_outputs s' err d curs outs hs :
  Inv off s ((mkHold Pend req [Ext i] :: curs) ++ R) sent ->
  (forall h, h ∈ curs -> h_kind h = Cur) ->
  shareDone outs err (Ext i) s = Some (d, s') -> outs <> [] -> spread d outs curs hs ->
  Forall validReq outs -> (Fits -> 0 < MaxSize cfg -> Forall (fun o => size o <= MaxSize cfg) outs) ->
  concat (map itemsOf outs) ⊆+ itemsOf req ++ hitems curs ->
  (err = None -> forall x, x ∈ itemsOf req -> x ∈ concat (map itemsOf outs)) ->
  (Fits -> nonEmpty req -> Forall (fun h => nonEmpty (h_req h)) curs -> Forall nonEmpty outs) ->
  Inv off s' (hs ++ R) sent.
Proof.
  intros HI Hcur Hsh Hne (St & Si & Sk & So & Sc) Hv Hmx Hsub Hall Hnon. rewrite <- (app_nil_r sent).
  assert (HD : DoneInv s (Ext i :: (tokens curs ++ tokens R)) (length off)).
  { pose proof (iv_done _ _ _ _ HI) as HD. by rewrite tokens_app in HD. }
  destruct (shareDone_ok outs err i s _ _ d s' HD Hne Hsh) as (HD' & He & Ho & Hf).
  rewrite Forall_forall in Hv.
  apply (Inv_replace _ s _ (mkHold Pend req [Ext i] :: curs)); try done.
  - by rewrite St, <- app_assoc.
  - intros h Hh. destruct (Sk h Hh) as (? & ? & _). auto.
  - assert (Hfit : forall h, h ∈ hs -> h_kind h = Cur -> fits (h_req h)).
    { intros h Hh Hk. by apply small_fits, Sk. }
    intros h t j x Hh Hx Hhf Ht Hj. apply elem_of_cons in Hh as [->|Hh].
    + apply list_elem_of_singleton in Ht as ->. apply owns_ext in Hj as Ej. subst j.
      destruct err as [e|]; [right; left; by apply Hf|]. right; right.
      specialize (Hall eq_refl x Hx). apply list_elem_of_In, in_concat in Hall as (l & Hl & Hxl).
      apply in_map_iff in Hl as (o & <- & Ho'). apply list_elem_of_In in Ho', Hxl.
      destruct (So o Ho') as (h & Hh & <- & Hd). exists h, d. auto.
    + right; right. destruct (Sc h Hh) as (h' & Hh' & Hds & Hxs). exists h', t.
      split_and!; [done| |by apply Hfit|by apply Hds|by apply He]. apply Hxs; [|done]. by apply Hhf, Hcur.
  - rewrite app_nil_r, Si. exact Hsub.
  - intros h Hh Hk. left. by apply Sk.
  - intros HF Hn Hin. split; [|done]. intros h Hh. destruct (Sk h Hh) as (Hr & _ & _). split.
    + assert (Forall nonEmpty outs) as Hall'.
      { apply Hnon; [done|apply (Hin (mkHold Pend req [Ext i])); left|].
        apply Forall_forall. intros h' Hh'. apply Hin. by right. }
      by eapply Forall_forall in Hall'.
    + destruct (BatchConfig_Validate_ok _ Hcfg) as (_ & _ & _ & Hm0 & _).
      destruct (decide (MaxSize cfg = 0)) as [?|?]; [by left|right].
      specialize (Hmx HF ltac:(lia)). by eapply Forall_forall in Hmx.
Qed.
End Consume.

Lemma spread_None d outs hs : placed [d] outs hs -> spread d outs [] hs.
Proof.
  intros (Ht & Hi & Hk & Ho)%placed_props. unfold spread. simpl. rewrite app_nil_r. split_and!.
  - rewrite Ht. clear. induction outs; simpl; [done|by f_equiv].
  - done.
  - intros h Hh. destruct (Hk h Hh) as (? & _ & ? & ?). done.
  - intros o Hoo. destruct (Ho o Hoo) as (h & Hh & <-). exists h. destruct (Hk h Hh) as (_ & -> & _). set_solver.
  - set_solver.
Qed.

Lemma spread_Some d (b : batch Ctx Req) first rest k hs :
  k <> Pend -> (k = Cur -> size first < MinSize cfg) -> placed [d] rest hs ->
  (fits (b_req b) -> forall x, x ∈ itemsOf (b_req b) -> x ∈ itemsOf first) ->
  spread d (first :: rest) [mkHold Cur (b_req b) (b_done b)] (mkHold k first (b_done b ++ [d]) :: hs).
Proof.
  intros Hk Hc Hp Hx. destruct (spread_None _ _ _ Hp) as (Ht & Hi & Hk' & Ho & _). unfold spread.
  simpl in *. rewrite !app_nil_r in *. split_and!.
  - rewrite Ht. solve_Permutation.
  - by rewrite Hi.
  - intros h [->|Hh]%elem_of_cons; simpl; [set_solver|]. destruct (Hk' h Hh) as (? & ?). set_solver.
  - intros o [->|Hoo]%elem_of_cons.
    + eexists. split; [left|]. simpl. set_solver.
    + destruct (Ho o Hoo) as (h & Hh & ?). exists h. split; [by right|done].
  - intros hc ->%list_elem_of_singleton. eexists. split; [left|]. simpl. split; [set_solver|done].
Qed.

Lemma Inv_sizes off s req i (qb : partitionBatcher Ctx Req) R sent :
  MinSize cfg + total off < 2 ^ 63 ->
  Inv off s ((mkHold Pend req [Ext i] :: pb_holds qb) ++ R) sent ->
  validReq req /\ 0 <= size req /\ size req < 2 ^ 63 /\
  forall b, pb_currentBatch qb = Some b -> validReq (b_req b) /\ size (b_req b) + size req < 2 ^ 63.
Proof.
  intros Hsz HI. pose proof (iv_valid _ _ _ _ HI) as HV.
  destruct (BatchConfig_Validate_ok _ Hcfg) as (_ & _ & Hm0 & _).
  assert (Hr : validReq req) by (apply (HV (mkHold Pend req [Ext i])); left).
  assert (HR : 0 <= pendSize R) by (apply pendSize_nonneg; intros; apply HV; set_solver).
  assert (Hp : pendSize ((mkHold Pend req [Ext i] :: pb_holds qb) ++ R) = size req + pendSize R).
  { rewrite pendSize_app. unfold pb_holds, pendSize. destruct (pb_currentBatch qb); simpl; lia. }
  pose proof (iv_pending _ _ _ _ HI) as HP. rewrite Hp in HP.
  pose proof (Sizeof_nonneg (Ctx := Ctx) (bc_Sizer cfg) req Hr). split_and!; [done..|lia|].
  intros b Eb. assert (mkHold Cur (b_req b) (b_done b) ∈ (mkHold Pend req [Ext i] :: pb_holds qb) ++ R) as Hb.
  { unfold pb_holds. rewrite Eb. set_solver. }
  split; [by apply (HV _ Hb)|]. pose proof (iv_current _ _ _ _ HI _ Hb eq_refl) as HC.
  cbn [h_req] in HC. rewrite Hp in HC. lia.
Qed.

Section ConsumeInternal.
Context (now : Z) (ctx : Ctx) (req : Req) (i : nat) (qb qb' : partitionBatcher Ctx Req) (s s' : dones).
Context (fl : list (batch Ctx Req)) (act : bool) (off : list Req) (R : list hold).
Context (sent : list (batch Ctx Req * option error)).
Hypothesis Hsz : MinSize cfg + total off < 2 ^ 63.
Hypothesis HI : Inv off s ((mkHold Pend req [Ext i] :: pb_holds qb) ++ R) sent.
Hypothesis Hc : consumeInternal cfg mergeCtx now ctx req (Ext i) qb s = Some (qb', s', fl, act).

(** No current batch: the request is split on its own. *)
Lemma consume_fresh :
  pb_currentBatch qb = None -> Inv off s' ((map flyHold fl ++ pb_holds qb') ++ R) sent.
Proof.
  intros Eb. destruct (Inv_sizes _ _ _ _ _ _ _ Hsz HI) as (Hv & Hnn & Hlt & _).
  destruct (BatchConfig_Validate_ok _ Hcfg) as (Hszt & _ & Hmin & Hm0 & _).
  unfold consumeInternal in Hc. change (pb_currentBatch (set_lastDataTime now qb)) with (pb_currentBatch qb) in Hc.
  unfold pb_holds at 1 in HI. rewrite Eb in Hc, HI.
  destruct (MergeSplit _ _ _ _ _) as [ [outs err] self] eqn:Em.
  assert (MF : Fits -> (0 < MaxSize cfg -> Forall (fun o => size o <= MaxSize cfg) outs) /\ (nonEmpty req -> Forall nonEmpty outs)).
  { intros F. eapply ms_fits in Em; [exact Em|done|lia|done..|simpl; lia]. }
  eapply ms_valid in Em as (Mv & Mv' & Ms' & Msub & Mall & Mkeep); [|done|lia|done..|simpl; lia].
  cbn [from_option] in *. rewrite app_nil_r in Msub. destruct outs as [|first rest].
  - destruct (OnDone _ _ _) as [s1|] eqn:Eo; simplify_eq/=. unfold pb_holds; simpl. rewrite Eb.
    apply (consume_nothing off s req i R sent s' err [] []); [exact HI|exact Eo|..];
      try (intros h Hh; by apply not_elem_of_nil in Hh); [|done|apply submseteq_nil_l].
    intros ->. apply elem_of_nil_inv. intros x Hx. by apply (Mall eq_refl), not_elem_of_nil in Hx.
  - destruct (shareDone _ _ _ _) as [ [d s1]|] eqn:Esh; [|done].
    cbn [mbind option_bind] in Hc. destruct (keepLast _ _ _ _ _ _) as [ [rest' qb2]|] eqn:Ek; [|done]. simplify_eq/=.
    destruct (keepLast_placed _ _ _ _ _ _ _ Ek) as (hs & E1 & E2).
    { left. unfold pb_holds; simpl. by rewrite Eb. }
    unfold pb_holds in E1 at 2; simpl in E1. rewrite Eb, app_nil_r in E1.
    eapply Inv_perm; [by rewrite E1|].
    eapply (consume_outputs off s req i R sent _ err d []); [exact HI| |exact Esh|done|..]; try done.
    + intros h Hh. by apply not_elem_of_nil in Hh.
    + by apply spread_None.
    + intros F. apply (MF F).
    + unfold hitems; simpl. by rewrite app_nil_r.
    + intros F Hq _. by apply (MF F).
Qed.

(** A current batch: the request is merged into it. *)
Lemma consume_merge b :
  pb_currentBatch qb = Some b -> Inv off s' ((map flyHold fl ++ pb_holds qb') ++ R) sent.
Proof.
  intros Eb. destruct (Inv_sizes _ _ _ _ _ _ _ Hsz HI) as (Hv & Hnn & Hlt & Hcur).
  destruct (BatchConfig_Validate_ok _ Hcfg) as (Hszt & _ & Hmin & Hm0 & _).
  destruct (Hcur b Eb) as [Hvb Hsum].
  unfold consumeInternal in Hc. change (pb_currentBatch (set_lastDataTime now qb)) with (pb_currentBatch qb) in Hc.
  unfold pb_holds at 1 in HI. rewrite Eb in Hc, HI.
  destruct (MergeSplit _ _ _ _ _) as [ [outs err] self] eqn:Em.
  assert (MF : Fits -> (0 < MaxSize cfg -> Forall (fun o => size o <= MaxSize cfg) outs) /\ (nonEmpty (b_req b) -> Forall nonEmpty outs)).
  { intros F. eapply ms_fits in Em; [exact Em|done|lia|done..|simpl; lia]. }
  eapply ms_valid in Em as (Mv & Mv' & Ms' & Msub & Mall & Mkeep); [|done|lia|done..|simpl; lia].
  cbn [from_option] in *. destruct outs as [|first rest].
  - destruct (OnDone _ _ _) as [s1|] eqn:Eo; simplify_eq/=.
    apply (consume_nothing off s req i R sent s' err [mkHold Cur (b_req b) (b_done b)] [mkHold Cur self (b_done b)]);
      [exact HI|exact Eo|..]; unfold pb_holds; simpl.
    + intros ->. apply elem_of_nil_inv. intros x Hx. by apply (Mall eq_refl), not_elem_of_nil in Hx.
    + intros h ->%list_elem_of_singleton. split; [done|]. intros Hfit.
      destruct (Mkeep ltac:(done) Hfit) as [?|(? & ? & [=] & _)]. done.
    + done.
    + intros h ->%list_elem_of_singleton. done.
    + unfold hitems; simpl. rewrite !app_nil_r. by rewrite (Permutation_app_comm (itemsOf req)).
    + intros h ->%list_elem_of_singleton. eexists. split; [left|]. done.
  - destruct (shareDone _ _ _ _) as [ [d s1]|] eqn:Esh; [|done]. cbn [mbind option_bind b_req] in Hc.
    assert (s1 = s' /\ exists k hs, k <> Pend /\ (k = Cur -> size first < MinSize cfg) /\ placed [d] rest hs /\
      map flyHold fl ++ pb_holds qb' ≡ₚ mkHold k first (b_done b ++ [d]) :: hs)
      as (-> & k & hs & Hk & Hkc & Hp & Hperm).
    { destruct (_ || _) eqn:Eor; destruct (keepLast _ _ _ _ _ _) as [ [rest' qb2]|] eqn:Ek; simplify_eq/=;
        (split; [done|]).
      - destruct (keepLast_placed _ _ _ _ _ _ _ Ek) as (hs & E1 & E2); [by left|].
        exists Fly, hs. split_and!; [done..|]. rewrite E1. by rewrite app_nil_r.
      - apply orb_false_iff in Eor as [El Em]. zbool. destruct rest; [|simpl in El; lia].
        destruct (keepLast_placed _ _ _ _ _ _ _ Ek) as (hs & E1 & E2); [by right|].
        exists Cur, hs. split_and!; [done..|]. rewrite E1. unfold pb_holds; simpl. solve_Permutation. }
    eapply Inv_perm; [by rewrite Hperm|].
    eapply (consume_outputs off s req i R sent _ err d); [exact HI| |exact Esh|done|..]; try done.
    + intros h ->%list_elem_of_singleton. done.
    + apply spread_Some; try done. intros Hfit x Hx.
      destruct (Mkeep ltac:(done) Hfit) as [E|(? & ? & [= <- <-] & Hxx)]; [rewrite E in Hx; set_solver|auto].
    + intros F. apply (MF F).
    + unfold hitems; simpl. rewrite app_nil_r. rewrite Msub. by rewrite (Permutation_app_comm (itemsOf req)).
    + intros F Hq Hn. inversion Hn. by apply (MF F).
Qed.

Lemma consumeInternal_ok : Inv off s' ((map flyHold fl ++ pb_holds qb') ++ R) sent.
Proof.
  destruct (pb_currentBatch qb) as [b|] eqn:Eb; [by eapply consume_merge|by apply consume_fresh].
Qed.
End ConsumeInternal.

(** ** The other steps *)
Lemma Inv_flush off s r ds R sent :
  Inv off s (mkHold Cur r ds :: R) sent -> Inv off s (mkHold Fly r ds :: R) sent.
Proof.
  intros HI. rewrite <- (app_nil_r sent).
  apply (Inv_replace off s s [mkHold Cur r ds] [mkHold Fly r ds]); try done.
  - pose proof (iv_done _ _ _ _ HI) as HD. unfold tokens in *; simpl in *. by rewrite app_nil_r.
  - intros h ->%list_elem_of_singleton. split; [|done]. apply (iv_valid _ _ _ _ HI (mkHold Cur r ds)). left.
  - intros h t i x ->%list_elem_of_singleton Hx Hf Ht Ho. right; right. eexists _, t. split; [left|]. done.
  - unfold hitems, sentItems; simpl. by rewrite !app_nil_r.
  - by intros h ->%list_elem_of_singleton.
  - intros _ _ Hin. split; [|done]. intros h ->%list_elem_of_singleton.
    destruct (Hin (mkHold Cur r ds)) as [? Hf]; [left|]. split; [done|by apply Hf].
Qed.

Lemma Inv_send off s t res R sent s' :
  Inv off s (flyHold t :: R) sent -> multiOnDone (b_done t) res s = Some s' ->
  Inv off s' R (sent ++ [(t, res)]).
Proof.
  intros HI Ho. destruct (multiOnDone_ok (b_done t) res (tokens R) (length off) s) as (s1 & E & HD & He & Hf);
    [apply (iv_done _ _ _ _ HI)|]. rewrite E in Ho. injection Ho as ->.
  apply (Inv_replace off s s' [flyHold t] []); try done.
  - intros h Hh. by apply not_elem_of_nil in Hh.
  - intros h d i x ->%list_elem_of_singleton Hx _ Hd Ho. destruct res as [e|].
    + right; left. by apply (Hf ltac:(done) d).
    + left. unfold sentOk; simpl. by rewrite app_nil_r.
  - intros h Hh. by apply not_elem_of_nil in Hh.
  - intros _ _ Hin. destruct (Hin (flyHold t)) as [? Hfit]; [left|]. split.
    + intros h Hh. by apply not_elem_of_nil in Hh.
    + apply Forall_singleton. by apply Hfit.
Qed.

(** A new call of [Consume]. *)
Lemma Inv_offer off s req R sent :
  validReq req -> Inv off s R sent ->
  Inv (off ++ [req]) s (mkHold Pend req [Ext (length off)] :: R) sent.
Proof.
  intros Hv [ [D1 D2 D3] I2 I3 I4 I5 I6 I7 I8]. pose proof (Sizeof_nonneg (Ctx := Ctx) (bc_Sizer cfg) req Hv) as Hnn.
  assert (Ht : total (off ++ [req]) = total off + size req) by (unfold total; rewrite sumZ_app; simpl; lia).
  assert (Hp : pendSize (mkHold Pend req [Ext (length off)] :: R) = size req + pendSize R) by done.
  split; rewrite ?Hp, ?Ht; simpl.
  - split.
    + intros l [ [=]|Hl]%elem_of_cons. by apply D1.
    + intros l r Hl. rewrite cnt_cons_ne by done. by apply D2.
    + intros j. specialize (D3 j). rewrite length_app; simpl. destruct (decide (j = length off)) as [->|Hne].
      * rewrite cnt_cons_eq. rewrite decide_False in D3 by lia. rewrite decide_True by lia. lia.
      * rewrite cnt_cons_ne by congruence. rewrite D3. repeat case_decide; lia.
  - intros h [->|Hh]%elem_of_cons; auto.
  - intros h [->|Hh]%elem_of_cons Hk; [by eexists|auto].
  - intros i r x Hr Hx. apply lookup_app_Some in Hr as [Hr|[Hge Hr]].
    + destruct (I4 i r x Hr Hx) as [?|[?|(h & t & Hh & ?)]]; [by left|right; by left|right; right].
      exists h, t. split; [by right|done].
    + apply list_lookup_singleton_Some in Hr as [Hz <-]. right; right.
      eexists _, (Ext i). split; [left|]. simpl. split_and!; [done..| |by left].
      assert (i = length off) as -> by lia. left.
  - rewrite flat_map_app; simpl. rewrite app_nil_r, <- app_assoc, (Permutation_app_comm (flat_map _ off)).
    by apply submseteq_skips_l.
  - lia.
  - intros h [->|Hh]%elem_of_cons Hk; [done|]. specialize (I7 h Hh Hk). lia.
  - intros Hf [Hne Hr]%Forall_app. rewrite Forall_singleton in Hr. destruct (I8 Hf Hne) as [Ha Hb].
    split; [|done]. intros h [->|Hh]%elem_of_cons; [|by auto].
    split; [exact Hr|by intros Hk].
Qed.

(** ** Goroutines *)
Context `{LRU nat C} (GetKey : Ctx -> Req -> string).

Definition instr_holds (i : instr Ctx Req) : list hold :=
  match i with
  | ShardedConsume _ req done | MultiConsume _ req done | Consume _ _ req done => [mkHold Pend req [done]]
  | Flush _ t | ExecuteSend _ t | Send _ t => [flyHold t]
  | _ => []
  end.
Definition thread_holds : list (instr Ctx Req) -> list hold := flat_map instr_holds.
Definition pbs_holds : list (partitionBatcher Ctx Req) -> list hold := flat_map pb_holds.

Lemma flat_map_lookup {A B} (f : A -> list B) l p x :
  l !! p = Some x ->
  exists rest, flat_map f l ≡ₚ f x ++ rest /\ forall y, flat_map f (<[p := y]> l) ≡ₚ f y ++ rest.
Proof.
  intros Hp. exists (flat_map f (take p l) ++ flat_map f (drop (S p) l)). split.
  - rewrite <- (take_drop_middle _ _ _ Hp) at 1. rewrite flat_map_app; simpl. solve_Permutation.
  - intros y. rewrite (insert_take_drop _ _ _ (lookup_lt_Some _ _ _ Hp)), flat_map_app; simpl. solve_Permutation.
Qed.

(** Changing a partition but not its current batch. *)
Lemma pbs_holds_same l p qb qb' :
  l !! p = Some qb -> pb_currentBatch qb' = pb_currentBatch qb ->
  pbs_holds (<[p := qb']> l) ≡ₚ pbs_holds l.
Proof.
  intros Hp Hc. unfold pbs_holds. destruct (flat_map_lookup pb_holds l p qb Hp) as (rest & -> & ->).
  unfold pb_holds. by rewrite Hc.
Qed.

Lemma thread_holds_app k1 k2 : thread_holds (k1 ++ k2) = thread_holds k1 ++ thread_holds k2.
Proof. apply flat_map_app. Qed.
Lemma thread_holds_flush p fl : thread_holds (map (Flush p) fl) = map flyHold fl.
Proof. induction fl as [|t fl IH]; simpl; [done|]. by f_equal. Qed.
Lemma thread_holds_evict l : thread_holds (onEvict l) = [].
Proof. induction l; simpl; auto. Qed.

Lemma thread_holds_shutdown (l : list nat) :
  thread_holds (concat (map (fun p => [ShutdownInternal p; ShutdownGoDone]) l)) = [].
Proof. induction l; simpl; auto. Qed.

(** The holds of the instruction, of the rest of its goroutine, of the
    partitions and of everything else. *)
Definition WInv off (k : list (instr Ctx Req)) (w : world Ctx Req C) (R : list hold) : Prop :=
  Inv off (w_dones w) (thread_holds k ++ pbs_holds (w_pbs w) ++ R) (w_sent w).

(** An instruction that moves no request. *)
Lemma WInv_move off k w R k' w' :
  WInv off k w R -> w_dones w' = w_dones w -> w_sent w' = w_sent w ->
  thread_holds k' ≡ₚ thread_holds k -> pbs_holds (w_pbs w') ≡ₚ pbs_holds (w_pbs w) -> WInv off k' w' R.
Proof. unfold WInv. intros HI -> -> E1 E2. eapply Inv_perm; [|exact HI]. by rewrite E1, E2. Qed.

Lemma exec_Consume off p ctx req i k w R qb qb' s fl act :
  MinSize cfg + total off < 2 ^ 63 -> w_pbs w !! p = Some qb ->
  consumeInternal cfg mergeCtx (w_now w) ctx req (Ext i) qb (w_dones w) = Some (qb', s, fl, act) ->
  WInv off (Consume p ctx req (Ext i) :: k) w R ->
  WInv off (map (Flush p) fl ++ k) (set_dones s (set_pb p qb' w)) R.
Proof.
  intros Hsz Hp Hc HI. destruct (flat_map_lookup pb_holds _ _ _ Hp) as (rest & E1 & E2).
  unfold WInv in *; simpl. rewrite thread_holds_app, thread_holds_flush. unfold pbs_holds in *.
  eapply Inv_perm; [|eapply consumeInternal_ok; [exact Hsz| |exact Hc]].
  - rewrite E2. instantiate (1 := thread_holds k ++ rest ++ R). solve_Permutation.
  - eapply Inv_perm; [|exact HI]. simpl. rewrite E1. solve_Permutation.
Qed.

Lemma exec_FlushCurrent off p k w R qb qb' t :
  w_pbs w !! p = Some qb ->
  flushCurrentBatchOrRemovePartition cfg (w_now w) qb = Some (qb', DoFlush t) ->
  WInv off (FlushCurrent p :: k) w R -> WInv off (Flush p t :: k) (set_pb p qb' w) R.
Proof.
  intros Hp Hf HI. destruct (flat_map_lookup pb_holds _ _ _ Hp) as (rest & E1 & E2).
  unfold WInv in *; simpl in *. unfold pbs_holds in *.
  assert (pb_holds qb = [mkHold Cur (b_req t) (b_done t)] /\ pb_holds qb' = []) as [Eh Eh'].
  { unfold flushCurrentBatchOrRemovePartition in Hf. unfold pb_holds.
    destruct (pb_currentBatch qb); [|repeat (case_match; simplify_eq/=; try done);
      destruct (resetTimer _ _ _); simplify_eq/=].
    destruct (resetTimer _ _ _) eqn:Er; simplify_eq/=. apply resetTimer_currentBatch in Er. by rewrite Er. }
  eapply Inv_perm; [|apply Inv_flush; eapply Inv_perm; [|exact HI]].
  - instantiate (1 := thread_holds k ++ rest ++ R). rewrite E2, Eh'. simpl. solve_Permutation.
  - rewrite E1, Eh. solve_Permutation.
Qed.

Ltac moves :=
  rewrite ?app_nil_r; (eapply WInv_move; [eassumption|done|done| |]); simpl;
  rewrite ?thread_holds_app, ?thread_holds_evict; simpl;
  [try done|try (by eapply pbs_holds_same); try done].

Lemma exec_ok off c i k w R k' sp w' :
  MinSize cfg + total off < 2 ^ 63 -> WInv off (i :: k) w R ->
  exec cfg mergeCtx GetKey c i k w = Next k' sp w' -> WInv off (k' ++ concat sp) w' R.
Proof.
  intros Hsz HI He.
  destruct i; simpl in He; unfold with_pb in He;
    try (destruct (w_pbs w !! p) as [qb|] eqn:Ep; [|done]).
  - destruct (_ =? _)%nat; [done|]. simplify_eq. moves.
  - unfold getPartition in He. destruct (w_lock w); [done|].
    destruct (lru_Get _ _) as [ [p|] c1]; [simplify_eq; moves|].
    destruct (lru_Add _ _ _) as [c2 ev]. simplify_eq. moves.
    unfold pbs_holds. rewrite flat_map_app. simpl. by rewrite app_nil_r.
  - destruct (iv_pend _ _ _ _ HI (mkHold Pend req [done])) as [i [= ->]]; [simpl; set_solver|done|].
    destruct (consumeInternal _ _ _ _ _ _ _ _) as [ [ [ [qb' s] fl] act]|] eqn:Ec; simplify_eq.
    eapply exec_Consume in HI as HI'; [|done..].
    assert (forall X, WInv off (map (Flush p) fl ++ k) X R ->
      WInv off ((map (Flush p) fl ++ (if act then [] else [FlushCurrent p]) ++ k) ++ concat []) X R) as Hx.
    { intros X HX. eapply WInv_move; [exact HX|done..| |done]. simpl. rewrite !app_nil_r, !thread_holds_app.
      by destruct act. }
    by apply Hx.
  - simplify_eq. moves.
  - destruct (w_workers w); simplify_eq. moves. solve_Permutation.
  - destruct (multiOnDone _ _ _) as [s|] eqn:Eo; simplify_eq. rewrite app_nil_r.
    unfold WInv in *; simpl in *. by eapply Inv_send.
  - destruct (pb_stopWG qb); simplify_eq. moves.
  - simplify_eq. moves.
  - destruct (flushCurrentBatchOrRemovePartition _ _ _) as [ [qb' [t| |]]|] eqn:Ef; simplify_eq.
    + rewrite app_nil_r. by eapply exec_FlushCurrent.
    + moves. eapply pbs_holds_same; [done|]. unfold flushCurrentBatchOrRemovePartition in Ef.
      repeat (case_match; simplify_eq/=; try done); destruct (resetTimer _ _ _); simplify_eq/=.
    + moves. eapply pbs_holds_same; [done|]. unfold flushCurrentBatchOrRemovePartition in Ef.
      repeat (case_match; simplify_eq/=; try done); destruct (resetTimer _ _ _) eqn:Er; simplify_eq/=.
      apply resetTimer_currentBatch in Er. congruence.
  - destruct (pb_onEmpty qb); simplify_eq. moves.
  - destruct (w_lock w); simplify_eq. moves.
  - simplify_eq. moves.
  - destruct (lru_Remove _ _) as [c1 ev]. simplify_eq. moves.
  - unfold Start in He. destruct (_ <=? 0); simplify_eq; moves; by rewrite ?app_nil_r.
  - destruct (c_timer c); [destruct (pb_timer qb) as [ [dl|]|]; try done; destruct (_ <=? _); simplify_eq; moves|].
    destruct (pb_shutdownCh qb); simplify_eq. moves.
  - destruct (pb_active qb); simplify_eq; moves.
  - destruct (pb_shutdownCh qb); simplify_eq; moves.
  - destruct (pb_stopWG qb); simplify_eq; moves.
  - destruct (w_workers w); simplify_eq. moves. by rewrite app_nil_r.
  - simplify_eq. moves.
    by rewrite thread_holds_shutdown, app_nil_r.
  - destruct (w_shutdownWG w); simplify_eq; moves.
  - destruct (w_shutdownWG w); simplify_eq; moves.
  - destruct (lru_Purge _) as [c1 ev]. simplify_eq. moves.
Qed.

(** ** The whole system *)
Definition SysInv (s : system Ctx Req C) : Prop :=
  Inv (s_offered s) (w_dones (s_world s))
    (flat_map thread_holds (s_threads s) ++ pbs_holds (w_pbs (s_world s))) (w_sent (s_world s)).

(** The two batchers after Start. *)
Inductive started (now : Z) (empty : C) (maxWorkers : nat) : calls Ctx Req -> system Ctx Req C -> Prop :=
  | started_sharded shardCount shards :
      newShardedBatcher now shardCount = inl shards ->
      started now empty maxWorkers (shardedCalls (Z.to_nat shardCount)) (shardedSystem cfg now empty maxWorkers shards)
  | started_multi : started now empty maxWorkers multiCalls (multiSystem now empty maxWorkers).

Lemma started_api now empty mw api s0 :
  started now empty mw api s0 ->
  (forall ctx r d, instr_holds (call_Consume api ctx r d) = [mkHold Pend r [d]]) /\
  thread_holds (call_Shutdown api) = [].
Proof.
  destruct 1; simpl; (split; [done|]); [|done]. clear. induction (seq _ _); simpl; auto.
Qed.

Lemma flat_map_nil {A B} (f : A -> list B) l : (forall x, x ∈ l -> f x = []) -> flat_map f l = [].
Proof.
  induction l as [|x l IH]; simpl; [done|]. intros Hf. rewrite (Hf x) by left. apply IH. intros y Hy. apply Hf. by right.
Qed.

Lemma startSharded_holds now pbs pbs' threads :
  Forall (fun qb : partitionBatcher Ctx Req => pb_currentBatch qb = None) pbs ->
  startSharded cfg now pbs = (pbs', threads) ->
  pbs_holds pbs' = [] /\ flat_map thread_holds threads = [].
Proof.
  unfold startSharded. rewrite Forall_forall. intros Hn [= <- <-].
  assert (forall r, r ∈ imap (Start cfg now) pbs ->
    pb_holds r.1 = [] /\ forall k, k ∈ r.2 -> thread_holds k = []) as Hr.
  { intros r (k & qb & -> & Hqb)%elem_of_lookup_imap. apply list_elem_of_lookup_2 in Hqb. unfold Start, pb_holds.
    destruct (_ <=? 0); simpl; (split; [by rewrite Hn|]); [set_solver|]. by intros k' ->%list_elem_of_singleton. }
  split; apply flat_map_nil.
  - intros qb (r & -> & Hr')%list_elem_of_fmap. by apply Hr.
  - intros k Hk. apply list_elem_of_In, in_concat in Hk as (l & Hl & Hk).
    apply in_map_iff in Hl as (r & <- & Hr'). apply list_elem_of_In in Hr', Hk. by apply (Hr r).
Qed.

Lemma started_SysInv now empty mw api s0 : started now empty mw api s0 -> SysInv s0.
Proof.
  assert (Inv [] (mkDones [] []) [] []) as H0'.
  { split; simpl; try done; try (intros; set_solver).
    split; [set_solver|done|]. intros i. by rewrite decide_False by lia. }
  destruct 1 as [n shards Hs|]; [|done]. unfold newShardedBatcher in Hs. destruct (_ <=? 0); simplify_eq.
  unfold SysInv, shardedSystem. destruct (startSharded _ _ _) as [pbs threads] eqn:E.
  apply startSharded_holds in E as [E1 E2]; [|by apply Forall_replicate]. simpl. by rewrite E1, E2.
Qed.

Lemma sysStep_ok now empty mw api s0 e s s' :
  started now empty mw api s0 -> SysInv s -> sysStep cfg mergeCtx GetKey api e s = Some s' ->
  Forall validReq (s_offered s') -> MinSize cfg + total (s_offered s') < 2 ^ 63 -> SysInv s'.
Proof.
  intros [HA1 HA2]%started_api HI Hs Hv Hsz. destruct e as [t c|d|ctx req|]; simpl in Hs.
  - unfold stepThread in Hs. destruct (s_threads s !! t) as [ [|i k]|] eqn:Et; try done.
    destruct (exec _ _ _ _ _ _ _) as [| |k' sp w'] eqn:Ee; simplify_eq.
    destruct (flat_map_lookup thread_holds _ _ _ Et) as (rest & E1 & E2).
    assert (WInv (s_offered s) (i :: k) (s_world s) rest) as HW.
    { unfold SysInv in HI. eapply Inv_perm; [|exact HI]. rewrite E1. solve_Permutation. }
    eapply exec_ok in Ee; [|done|exact HW]. unfold SysInv, WInv in *; simpl in *.
    eapply Inv_perm; [|exact Ee]. rewrite thread_holds_app, flat_map_app, E2.
    assert (thread_holds (concat sp) = flat_map thread_holds sp) as ->.
    { clear. induction sp; simpl; [done|]. by rewrite thread_holds_app, IHsp. }
    solve_Permutation.
  - destruct (_ <? _); simplify_eq. exact HI.
  - simplify_eq. unfold SysInv in *; simpl in *. apply Forall_app in Hv as [_ Hv]. rewrite Forall_singleton in Hv.
    eapply Inv_perm; [|by apply Inv_offer]. rewrite flat_map_app; simpl. rewrite HA1, app_nil_r.
    simpl. solve_Permutation.
  - simplify_eq. unfold SysInv in *; simpl in *. rewrite flat_map_app; simpl. by rewrite HA2, !app_nil_r.
Qed.

Lemma sysStep_offered api e s s' :
  sysStep (C := C) cfg mergeCtx GetKey api e s = Some s' -> s_offered s `prefix_of` s_offered s'.
Proof.
  destruct e; simpl; intros Hs; repeat case_match; simplify_eq/=; try done. by apply prefix_app_r.
Qed.

Lemma sysRun_offered api es s s' :
  sysRun (C := C) cfg mergeCtx GetKey api es s = Some s' -> s_offered s `prefix_of` s_offered s'.
Proof.
  revert s. induction es as [|e es IH]; intros s; simpl; [by intros [= ->]|].
  destruct (sysStep _ _ _ _ _ _) as [s1|] eqn:E; [|done]. simpl. intros Hr.
  apply sysStep_offered in E. apply IH in Hr. by etrans.
Qed.

Lemma sysRun_ok now empty mw api s0 es s s' :
  started now empty mw api s0 -> SysInv s -> sysRun cfg mergeCtx GetKey api es s = Some s' ->
  Forall validReq (s_offered s') -> MinSize cfg + total (s_offered s') < 2 ^ 63 -> SysInv s'.
Proof.
  intros Hst. revert s. induction es as [|e es IH]; intros s HI; simpl; [by intros [= ->]|].
  destruct (sysStep _ _ _ _ _ _) as [s1|] eqn:E; [|done]. simpl. intros Hr Hv Hsz.
  destruct (sysRun_offered _ _ _ _ Hr) as [suf Hsuf].
  apply (IH s1); [|done..]. eapply sysStep_ok; [exact Hst|exact HI|exact E|..].
  - rewrite Hsuf in Hv. by apply Forall_app in Hv as [? _].
  - assert (total (s_offered s1) <= total (s_offered s')); [|lia].
    unfold total. rewrite Hsuf, sumZ_app. rewrite Hsuf in Hv. apply Forall_app in Hv as [_ Hv].
    assert (0 <= sumZ size suf); [|lia]. apply sumZ_nonneg. intros r Hr'.
    eapply Forall_forall in Hv; [|done]. by apply (Sizeof_nonneg (Ctx := Ctx)).
Qed.

(** Nothing is left to do: every goroutine has ended or is a timer waiting, and
    no partition has a current batch. *)
Definition idle (s : system Ctx Req C) : Prop :=
  (forall k, k ∈ s_threads s -> k = [] \/ exists p, k = [TimerLoop p]) /\
  (forall qb, qb ∈ w_pbs (s_world s) -> pb_currentBatch qb = None).

Lemma idle_holds s :
  idle s -> flat_map thread_holds (s_threads s) ++ pbs_holds (w_pbs (s_world s)) = [].
Proof.
  intros [Ht Hp]. unfold pbs_holds. rewrite !flat_map_nil; [done|..].
  - intros qb Hqb. unfold pb_holds. by rewrite Hp.
  - intros k Hk. by destruct (Ht k Hk) as [->|[p ->]].
Qed.

Lemma cnt_NoDup l : (forall i : nat, (cnt i l <= 1)%nat) -> NoDup l.
Proof.
  induction l as [|x l IH]; intros Hc; constructor.
  - intros Hx%cnt_pos. specialize (Hc x). rewrite cnt_cons_eq in Hc. lia.
  - apply IH. intros i. specialize (Hc i). destruct (decide (x = i)) as [->|]; [rewrite cnt_cons_eq in Hc; lia|].
    by rewrite cnt_cons_ne in Hc.
Qed.

Lemma SysInv_calls s :
  SysInv s ->
  NoDup (map fst (d_calls (w_dones (s_world s)))) /\
  (forall i, i ∈ map fst (d_calls (w_dones (s_world s))) -> (i < length (s_offered s))%nat) /\
  (idle s -> map fst (d_calls (w_dones (s_world s))) ≡ₚ seq 0 (length (s_offered s))).
Proof.
  intros HI. pose proof (di_once _ _ _ (iv_done _ _ _ _ HI)) as Honce. unfold ncalls in Honce.
  assert (Hnd : NoDup (map fst (d_calls (w_dones (s_world s))))).
  { apply cnt_NoDup. intros i. specialize (Honce i). case_decide; lia. }
  assert (Hin : forall i, i ∈ map fst (d_calls (w_dones (s_world s))) -> (i < length (s_offered s))%nat).
  { intros i Hi%cnt_pos. specialize (Honce i). case_decide; [done|lia]. }
  split_and!; [done..|]. intros Hidle. apply NoDup_Permutation; [done|apply NoDup_seq|]. intros i.
  rewrite elem_of_seq. split; [intros Hi%Hin; lia|]. intros [_ Hi]. apply cnt_pos_inv.
  specialize (Honce i). rewrite decide_True in Honce by lia. rewrite idle_holds in Honce by done. simpl in Honce.
  destruct (nlive _ i) eqn:En; [unfold cnt in Honce at 2; simpl in Honce; lia|exfalso].
  unfold nlive in En. destruct (filter _ _) as [|r l] eqn:Ef; [done|].
  assert (r ∈ filter (live i) (d_heap (w_dones (s_world s)))) as Hr by (rewrite Ef; left).
  apply list_elem_of_filter in Hr as [ [_ Hpos] [l' Hl]%list_elem_of_lookup].
  destruct (di_count _ _ _ (iv_done _ _ _ _ HI) l' r Hl) as [Hc _].
  rewrite idle_holds in Hc by done. unfold cnt in Hc; simpl in Hc. lia.
Qed.

Section Theorems.
Context (now : Z) (empty : C) (maxWorkers : nat) (api : calls Ctx Req) (s0 s : system Ctx Req C).
Context (es : list (event Ctx Req)).
Hypothesis Hstart : started now empty maxWorkers api s0.
Hypothesis Hrun : sysRun cfg mergeCtx GetKey api es s0 = Some s.
Hypothesis Hvalid : Forall validReq (s_offered s).
Hypothesis Hsize : MinSize cfg + total (s_offered s) < 2 ^ 63.

Lemma run_SysInv : SysInv s.
Proof. eapply sysRun_ok; try done. by eapply started_SysInv. Qed.

(** C7: In every execution of the batchers, the completion callback of a request
    given to Consume is called at most once, and never before the request is
    given; once nothing is left to do, the callback of every request has been
    called. *)
Theorem batcher_callbacks_once :
  NoDup (map fst (d_calls (w_dones (s_world s)))) /\
  (forall i, i ∈ map fst (d_calls (w_dones (s_world s))) -> (i < length (s_offered s))%nat) /\
  (idle s -> map fst (d_calls (w_dones (s_world s))) ≡ₚ seq 0 (length (s_offered s))).
Proof. apply SysInv_calls, run_SysInv. Qed.

(** C8: A completion callback called without an error never hides a loss: every
    item of its request was in a batch that consumeFunc accepted. *)
Theorem batcher_no_silent_loss i r x :
  (i, None) ∈ d_calls (w_dones (s_world s)) -> s_offered s !! i = Some r -> x ∈ itemsOf r ->
  x ∈ sentOk (w_sent (s_world s)).
Proof.
  intros Hi Hr Hx. pose proof run_SysInv as HI. pose proof (iv_done _ _ _ _ HI) as HD.
  pose proof (di_once _ _ _ HD i) as Honce. pose proof (lookup_lt_Some _ _ _ Hr).
  rewrite decide_True in Honce by lia. unfold ncalls in Honce.
  apply elem_of_Permutation in Hi as [rest Hperm].
  assert (Hc : cnt i (map fst (d_calls (w_dones (s_world s)))) = S (cnt i (map fst rest))).
  { rewrite Hperm. simpl. by rewrite cnt_cons_eq. }
  assert (Hnl : nlive (w_dones (s_world s)) i = 0%nat) by lia.
  assert (Hlive : forall l q, d_heap (w_dones (s_world s)) !! l = Some q -> ~ live i q).
  { intros l q Hl Hq. unfold nlive in Hnl. apply length_zero_iff_nil in Hnl.
    assert (q ∈ filter (live i) (d_heap (w_dones (s_world s)))) as Hf.
    { apply list_elem_of_filter. split; [done|]. by eapply list_elem_of_lookup_2. }
    rewrite Hnl in Hf. by apply not_elem_of_nil in Hf. }
  destruct (iv_item _ _ _ _ HI i r x Hr Hx) as [?|[ [ [e He]|(l & q & Hl & Hq & _)]|(h & t & Hh & _ & _ & Ht & Ho)]].
  - done.
  - rewrite Hperm in He. apply elem_of_cons in He as [ [=]|He].
    assert (i ∈ map fst rest) as Hi by (apply list_elem_of_fmap; by exists (i, Some e)).
    apply cnt_pos in Hi. lia.
  - by destruct (Hlive l q Hl).
  - assert (Htok : t ∈ tokens (flat_map thread_holds (s_threads s) ++ pbs_holds (w_pbs (s_world s)))).
    { apply list_elem_of_In, in_flat_map. exists h. split; by apply list_elem_of_In. }
    destruct Ho as [->|(l & q & -> & Hl & Hq)]; apply cnt_pos in Htok; [lia|].
    destruct (Hlive l q Hl). split; [done|]. destruct (di_count _ _ _ HD l q Hl) as [-> _]. lia.
Qed.

(** What is handed over is among what was offered. *)
Lemma sent_among_offered : sentItems (w_sent (s_world s)) ⊆+ flat_map itemsOf (s_offered s).
Proof. etrans; [|exact (iv_nodup _ _ _ _ run_SysInv)]. apply submseteq_inserts_l. done. Qed.

(** Batches fit the limit, for requests of which [MergeSplit] makes such. *)
Lemma sent_fits : Fits -> Forall nonEmpty (s_offered s) -> Forall (fun p => fits (b_req p.1)) (w_sent (s_world s)).
Proof. intros HF Hne. by apply (iv_limit _ _ _ _ run_SysInv). Qed.
End Theorems.
End Invariant.
