(* ===== verification/BatchSignals.v ===== *)
(** * Log and span requests as the batcher uses them

    [BatchLaws], the promise the batcher relies on, and [BatchFits], that what is
    split fits, discharged for the requests of logs_batch.go and traces_batch.go,
    with their size caches and both sizers; and what follows for the batches of
    logs and spans that are handed over. *)

From S2P Require Import Prelude Errors Sizers SignalSplit SplitProps Batcher BatcherProofs.
Local Open Scope Z_scope.

(** ** The receiver of a split *)
Section Receiver.
Context {Resource Scope Rec : Type}.
Context (resourceProto : Resource -> Z) (scopeProto : Scope -> Z) (recordProto : Rec -> Z).
Context (szt : SizerType) (sz : Sizer Resource Scope Rec) `{!SizerLaws sz}.
Hypothesis Hsz : sizer_for resourceProto scopeProto recordProto szt sz.
Context (fmt : string) (maxSize : Z).
Hypothesis HmaxSize : 0 < maxSize < 2 ^ 63.

Local Abbreviation req := (request Resource Scope Rec).
Local Abbreviation ok := (request_ok resourceProto scopeProto recordProto).

(** When nothing could be removed, the cached sizes are still right: with the
    items sizer something can always be removed. *)
Lemma stuck_ok (r : req) ld src :
  ok r -> DataSize sz (rq_data r) < 2 ^ 63 -> maxSize < DataSize sz (rq_data r) ->
  extractData sz (rq_data r) maxSize = (ld, 0, src) -> ok (mkRequest src (rq_sizes r)).
Proof.
  intros Hr Hb Hbig He. pose proof He as He'.
  apply extractData_ok in He as (Hk & Hs & Hrows & _); [|done|lia|done].
  pose proof (kept_of_length _ _ _ Hk) as Hlen. rewrite length_app in Hlen.
  assert (Hc : recordCount src = recordCount (rq_data r)) by (rewrite !recordCount_rows; lia).
  unfold request_ok in *; simpl. rewrite Hc. destruct Hsz; simpl in *.
  - apply extractData_count in He'; lia.
  - by rewrite Hs, Z.sub_0_r.
Qed.

Lemma splitLoop_left fuel (r : req) res dropped outs err lft :
  ok r -> DataSize sz (rq_data r) < 2 ^ 63 ->
  splitLoop sz szt fmt maxSize fuel r res dropped = Some (outs, err, lft) ->
  res `prefix_of` outs /\
  ok lft /\ DataSize sz (rq_data lft) <= DataSize sz (rq_data r) /\
  dataRows (rq_data lft) `sublist_of` dataRows (rq_data r).
Proof.
  revert r res dropped. induction fuel as [|fuel IH]; intros r res dropped Hr Hb He; [done|].
  simpl in He. destruct (size_ok _ _ _ _ _ Hsz r Hr) as (r' & E & Hd' & Hr' & Hcached). rewrite E in He.
  rewrite Hd' in He. destruct (Z.ltb_spec maxSize (DataSize sz (rq_data r))) as [Hbig|Hsmall].
  - destruct (extractData sz (rq_data r) maxSize) as [ [ld rem] src] eqn:Ee.
    pose proof Ee as Ee'. apply extractData_ok in Ee' as (Hk & Hs & Hrows & _); [|done|lia|done].
    assert (Hsub : dataRows src `sublist_of` dataRows (rq_data r)).
    { destruct Hk as [Hk _]. etrans; [|exact Hk]. by apply sublist_inserts_l. }
    destruct (Z.eqb_spec rem 0) as [->|Hrem].
    + simplify_eq/=. split; [done|]. split; [|split; [lia|done]].
      apply (stuck_ok r' ld src); by rewrite ?Hd'.
    + simpl in He. destruct (Hcached src) as (r'' & E'' & Hr''). rewrite E'' in He. simpl in He.
      unfold set_sizes in He. rewrite Hr'' in He.
      apply IH in He as (Hp & Hl & Hsz' & Hsub'); simpl in *.
      * split; [etrans; [|exact Hp]; case_match; [by apply prefix_app_r|done]|].
        pose proof (kept_of_length _ _ _ Hk) as Hlen. rewrite length_app in Hlen.
        split; [done|]. split; [lia|by etrans].
      * unfold request_ok; simpl. rewrite <- Hs, (sizer_for_dim _ _ _ szt sz _ Hsz). apply Update_ok.
      * pose proof (kept_of_length _ _ _ Hk) as Hlen. rewrite length_app in Hlen. lia.
  - simplify_eq. split; [case_match; [by apply prefix_app_r|done]|]. by rewrite Hd'.
Qed.

Lemma split_left (r : req) outs err lft :
  ok r -> DataSize sz (rq_data r) < 2 ^ 63 -> split sz szt fmt maxSize r = Some (outs, err, lft) ->
  ok lft /\ DataSize sz (rq_data lft) <= DataSize sz (rq_data r) /\
  dataRows (rq_data lft) `sublist_of` dataRows (rq_data r).
Proof.
  intros Hr Hb. unfold split. destruct (size_ok _ _ _ _ _ Hsz r Hr) as (r' & -> & Hd' & Hr' & _).
  destruct (_ <=? maxSize).
  - intros [= _ _ <-]. by rewrite Hd'.
  - rewrite <- Hd' in *. intros (_ & ? & ? & ?)%splitLoop_left; done.
Qed.

(** ** A part that fits is taken by the first extraction *)
Local Abbreviation δ := (fun x : ResourceData Resource Scope Rec => DeltaSize sz (ResourceSize sz x)).

Lemma dataStep_dest cap st x st' x' rm :
  dataStep sz cap st x = (st', x', rm) -> exists d, st'.2 = st.2 ++ d.
Proof.
  destruct st as [ [c r] dest]. unfold dataStep. intros E.
  repeat (case_match; simplify_eq/=; try (exists []; by rewrite app_nil_r)); by eexists.
Qed.

Lemma removeIf_dest cap l st st' l' :
  removeIf (dataStep sz cap) st l = (st', l') -> exists d, st'.2 = st.2 ++ d.
Proof.
  revert st l'. induction l as [|x l IH]; intros st l' E; simpl in E.
  - simplify_eq. exists []. by rewrite app_nil_r.
  - destruct (dataStep sz cap st x) as [ [s1 x'] rm] eqn:E1.
    destruct (removeIf _ s1 l) as [s2 l2] eqn:E2. simplify_eq.
    apply dataStep_dest in E1 as [d1 H1]. apply IH in E2 as [d2 H2]. exists (d1 ++ d2).
    by rewrite H2, H1, app_assoc.
Qed.

Lemma dataStep_whole cap c r dest x :
  c <> 0 -> δ x <= c -> dataStep sz cap (c, r, dest) x = ((c - δ x, r + δ x, dest ++ [x]), x, true).
Proof.
  cbv beta. intros Hc Hx. unfold dataStep. destruct (Z.eqb_spec c 0); [done|].
  by destruct (Z.ltb_spec c (DeltaSize sz (ResourceSize sz x))); [lia|].
Qed.

Lemma rows_le_delta (x : ResourceData Resource Scope Rec) : Z.of_nat (length (resourceRows x)) <= δ x.
Proof. cbv beta. pose proof (ResourceSize_rows sz x). pose proof (law_delta_ge (ResourceSize sz x)). lia. Qed.

Lemma count_le_delta (l : list (ResourceData Resource Scope Rec)) : Z.of_nat (length (dataRows l)) <= sumZ δ l.
Proof.
  induction l as [|y l IH]; [done|]. simpl. rewrite length_app. pose proof (rows_le_delta y). simpl in *. lia.
Qed.

Lemma removeIf_takes cap l1 l2 c r dest st' l' :
  sumZ δ l1 <= c -> removeIf (dataStep sz cap) (c, r, dest) (l1 ++ l2) = (st', l') ->
  forall t, t ∈ dataRows l1 -> t ∈ dataRows st'.2.
Proof.
  revert c r dest l'. induction l1 as [|x l1 IH]; intros c r dest l' Hs E t Ht; [by apply not_elem_of_nil in Ht|].
  pose proof (rows_le_delta x) as Hx.
  assert (0 <= sumZ δ l1) by (apply sumZ_nonneg; intros y _; pose proof (rows_le_delta y); lia).
  cbn [sumZ app removeIf] in *. destruct (decide (c = 0)) as [->|Hc].
  - assert (Hnil : dataRows (x :: l1) = []); [|by rewrite Hnil in Ht; apply not_elem_of_nil in Ht].
    apply length_zero_iff_nil. pose proof (count_le_delta (x :: l1)). simpl in *. lia.
  - rewrite dataStep_whole in E by (try done; lia).
    destruct (removeIf _ _ (l1 ++ l2)) as [s2 l2'] eqn:E2. simplify_eq.
    apply elem_of_app in Ht as [Ht|Ht].
    + apply removeIf_dest in E2 as [d Hd]. rewrite Hd. simpl. unfold dataRows.
      rewrite !flat_map_app. simpl. rewrite app_nil_r. set_solver.
    + eapply IH; [|exact E2|exact Ht]. lia.
Qed.

Lemma extractData_takes cap d1 d2 ld rem src :
  DataSize sz d1 <= cap -> extractData sz (d1 ++ d2) cap = (ld, rem, src) ->
  forall t, t ∈ dataRows d1 -> t ∈ dataRows ld.
Proof.
  unfold extractData. intros Hd. destruct (removeIf _ _ _) as [ [ [c' r'] dest] rest] eqn:E. intros [= <- _ _].
  refine (removeIf_takes cap d1 d2 _ _ _ (c', r', dest) rest _ E). rewrite !law_data in *. simpl. lia.
Qed.

(** A receiver that fits, with whatever was merged into it, is in the first
    output. *)
Lemma split_first (r : req) d1 d2 outs err lft :
  ok r -> DataSize sz (rq_data r) < 2 ^ 63 -> rq_data r = d1 ++ d2 -> DataSize sz d1 <= maxSize ->
  split sz szt fmt maxSize r = Some (outs, err, lft) ->
  dataRows d1 = [] \/ exists o outs', outs = o :: outs' /\ forall t, t ∈ dataRows d1 -> t ∈ dataRows (rq_data o).
Proof.
  intros Hr Hb Hd Hfit. unfold split. destruct (size_ok _ _ _ _ _ Hsz r Hr) as (r' & -> & Hd' & Hr' & _).
  destruct (Z.leb_spec (DataSize sz (rq_data r)) maxSize) as [Hle|Hgt].
  - intros [= <- _ _]. right. eexists _, []. split; [done|]. intros t Ht. rewrite Hd', Hd. unfold dataRows.
    rewrite flat_map_app. set_solver.
  - rewrite <- Hd' in *. clear Hd'. cbn [splitLoop].
    destruct (size_ok _ _ _ _ _ Hsz r' Hr') as (r1 & -> & Hd1 & Hr1 & Hcached). rewrite Hd1.
    destruct (Z.ltb_spec maxSize (DataSize sz (rq_data r'))); [|lia].
    destruct (extractData sz (rq_data r') maxSize) as [ [ld rem] src] eqn:Ee.
    intros E. destruct (dataRows d1) as [|t0 ts] eqn:Et; [by left|right].
    assert (Hin : forall t, t ∈ t0 :: ts -> t ∈ dataRows ld).
    { rewrite <- Et. eapply extractData_takes; [exact Hfit|]. by rewrite <- Hd. }
    pose proof Ee as Ee'. apply extractData_ok in Ee' as (Hk & Hs & Hrows & _); [|done|lia|lia].
    pose proof (kept_of_length _ _ _ Hk) as Hlen. rewrite length_app in Hlen.
    assert (Hpos : (0 < length (dataRows ld))%nat).
    { specialize (Hin t0 ltac:(left)). destruct (dataRows ld); [by apply not_elem_of_nil in Hin|simpl; lia]. }
    destruct (Z.eqb_spec rem 0) as [->|Hrem]; [lia|]. simpl in E.
    destruct (Hcached src) as (r'' & E'' & Hr''). rewrite E'' in E. simpl in E.
    unfold set_sizes in E. rewrite Hr'' in E. rewrite (recordCount_rows ld) in E.
    destruct (Z.ltb_spec 0 (Z.of_nat (length (dataRows ld)))); [|lia].
    apply splitLoop_left in E as ([outs' Hp] & _); simpl.
    + exists (newRequest ld), outs'. done.
    + unfold request_ok; simpl. rewrite <- Hs, (sizer_for_dim _ _ _ szt sz _ Hsz). apply Update_ok.
    + lia.
Qed.
End Receiver.

(** ** The instance *)
Section Instance.
Context {Ctx Resource Scope Rec : Type}.
Context (resourceProto : Resource -> Z) (scopeProto : Scope -> Z) (recordProto : Rec -> Z).
Hypothesis resourceProto_nonneg : forall r, 0 <= resourceProto r.
Hypothesis scopeProto_nonneg : forall s, 0 <= scopeProto s.
Hypothesis recordProto_nonneg : forall r, 0 <= recordProto r.
Context (fmt : string).

Local Abbreviation req := (request Resource Scope Rec).
Local Abbreviation ok := (request_ok resourceProto scopeProto recordProto).
Local Abbreviation bytesOf := (dataSizeProto resourceProto scopeProto recordProto).
Local Abbreviation sizerFor := (sizer_for resourceProto scopeProto recordProto).

(** [ItemsCount] and [BytesSize] of logs.go and traces.go. *)
Definition signalRequest : Request req := {|
  ItemsCount r := (SizeOf (rq_sizes r) SizerTypeItems (recordCount (rq_data r))).1;
  BytesSize r := (SizeOf (rq_sizes r) SizerTypeBytes (bytesOf (rq_data r))).1;
|}.

(** [MergeSplit] always has enough fuel ([MergeSplit_accounts]); the default is
    never used. *)
Definition signalBatch : @BatchRequest Ctx req signalRequest := {|
  MergeSplit _ r maxSize szt r2 :=
    default ([], None, r)
      (SignalSplit.MergeSplit resourceProto scopeProto recordProto fmt r maxSize szt (Some <$> r2));
|}.

Lemma ItemsCount_signal (r : req) : ok r -> @ItemsCount _ signalRequest r = recordCount (rq_data r).
Proof. intros Hr. exact (proj1 (SizeOf_ok _ SizerTypeItems _ _ Hr)). Qed.
Lemma BytesSize_signal (r : req) : ok r -> @BytesSize _ signalRequest r = bytesOf (rq_data r).
Proof. intros Hr. exact (proj1 (SizeOf_ok _ SizerTypeBytes _ _ Hr)). Qed.

Lemma Sizeof_signal szt sz (r : req) :
  sizerFor szt sz -> ok r -> @Sizeof _ signalRequest szt r = DataSize sz (rq_data r).
Proof.
  intros Hsz Hr. destruct Hsz; unfold Sizeof; simplify_eq/=; repeat case_decide; try done.
  - by apply ItemsCount_signal.
  - by apply BytesSize_signal.
Qed.

Lemma sizerFor_of szt :
  szt = SizerTypeItems \/ szt = SizerTypeBytes -> exists sz, sizerFor szt sz /\ SizerLaws sz.
Proof.
  intros [->| ->]; eexists; (split; [constructor|]); [apply CountSizer_laws|by apply BytesSizer_laws].
Qed.

Lemma Sizeof_signal_nonneg szt (r : req) : ok r -> 0 <= @Sizeof _ signalRequest szt r.
Proof.
  intros Hr. unfold Sizeof. pose proof (BytesSizer_laws _ _ _ resourceProto_nonneg scopeProto_nonneg recordProto_nonneg).
  case_decide; [|case_decide; [|lia]].
  - rewrite BytesSize_signal by done. exact (DataSize_nonneg (BytesSizer resourceProto scopeProto recordProto) (rq_data r)).
  - rewrite ItemsCount_signal by done. exact (DataSize_nonneg CountSizer (rq_data r)).
Qed.

(** What was merged, as one request. *)
Lemma signal_merged szt sz (r : req) r2 maxSize :
  sizerFor szt sz -> SizerLaws sz -> ok r -> from_option ok True r2 ->
  exists m, ok m /\ rq_data m = rq_data r ++ from_option rq_data [] r2 /\
    DataSize sz (rq_data m) = DataSize sz (rq_data r) + from_option (fun q => DataSize sz (rq_data q)) 0 r2 /\
    SignalSplit.MergeSplit resourceProto scopeProto recordProto fmt r maxSize szt (Some <$> r2) =
      if maxSize =? 0 then Some ([m], None, m) else split sz szt fmt maxSize m.
Proof.
  intros Hsz Hl Hr H2. destruct (Z.eqb_spec maxSize 0) as [->|Hm].
  - exists (from_option (fun q => mergeTo sz szt q r) r r2). destruct r2 as [q|]; simpl in *.
    + destruct (mergeTo_ok _ _ _ szt sz Hsz r q Hr H2) as [Hok ->].
      split; [done|]. split; [done|]. split; [rewrite !law_data; apply sumZ_app|]. by destruct Hsz.
    + rewrite app_nil_r, Z.add_0_r. split_and!; try done. by destruct Hsz.
  - destruct (MergeSplit_split resourceProto scopeProto recordProto fmt r r2 maxSize szt sz Hsz Hr H2 Hm)
      as (m & E & Hok & _ & Hs & Hd). by exists m.
Qed.

Local Abbreviation rows := (fun r : req => dataRows (rq_data r)).

Lemma rows_merged (m r : req) r2 :
  rq_data m = rq_data r ++ from_option rq_data [] r2 -> rows m = rows r ++ from_option rows [] r2.
Proof. cbv beta. intros ->. unfold dataRows. rewrite flat_map_app. by destruct r2. Qed.

(** What [split] of a merged request returns, as the laws ask for it. *)
Lemma split_laws szt sz (m : req) maxSize outs err lft :
  sizerFor szt sz -> SizerLaws sz -> ok m -> DataSize sz (rq_data m) < 2 ^ 63 -> 0 < maxSize < 2 ^ 63 ->
  split sz szt fmt maxSize m = Some (outs, err, lft) ->
  Forall (fun o => ok o /\ DataSize sz (rq_data o) <= maxSize) outs /\
  outRows outs ⊆+ rows m /\ (err = None -> outRows outs = rows m) /\
  (rows m <> [] -> Forall (fun o => rows o <> []) outs).
Proof.
  intros Hsz Hl Hm Hb Hmx Es.
  destruct (split_ok _ _ _ szt sz Hsz fmt maxSize ltac:(lia) m Hm Hb) as (outs' & rest & err' & lft' & E & Hg & Hk & Ha).
  rewrite Es in E. simplify_eq. destruct Hk as [Hk _]. split_and!.
  - destruct Hg as [Hg|(r' & -> & Hr' & Hd & Hle)].
    + eapply Forall_impl; [exact Hg|]. intros o (? & ? & _). done.
    + apply Forall_singleton. by rewrite Hd.
  - apply sublist_submseteq. etrans; [|exact Hk]. by apply sublist_inserts_r.
  - intros ->. destruct Ha as [(_ & Hlost & ->)|[ ([=] & _)|[=] ]]. rewrite app_nil_r in Hk.
    apply sublist_length_eq; [done|]. rewrite recordCount_rows in Hlost. lia.
  - intros Hne. destruct Hg as [Hg|(r' & -> & _ & Hd & _)].
    + eapply Forall_impl; [exact Hg|]. intros o (_ & _ & Hc). rewrite recordCount_rows in Hc. cbv beta.
      intros E0. rewrite E0 in Hc. simpl in Hc. lia.
    + apply Forall_singleton. by rewrite Hd.
Qed.

Lemma outRows_concat (outs : list req) : outRows outs = concat (map rows outs).
Proof. apply flat_map_concat_map. Qed.

Lemma signal_ms_valid (r : req) maxSize szt r2 outs err r' :
  (szt = SizerTypeItems \/ szt = SizerTypeBytes) -> 0 <= maxSize < 2 ^ 63 ->
  ok r -> from_option ok True r2 ->
  @Sizeof _ signalRequest szt r + from_option (@Sizeof _ signalRequest szt) 0 r2 < 2 ^ 63 ->
  default ([], None, r)
    (SignalSplit.MergeSplit resourceProto scopeProto recordProto fmt r maxSize szt (Some <$> r2)) = (outs, err, r') ->
  Forall ok outs /\ ok r' /\
  @Sizeof _ signalRequest szt r' <= @Sizeof _ signalRequest szt r + from_option (@Sizeof _ signalRequest szt) 0 r2 /\
  (0 < maxSize -> Forall (fun o => @Sizeof _ signalRequest szt o <= maxSize) outs) /\
  (match outs with [] => rows r' | _ => concat (map rows outs) end ⊆+ rows r ++ from_option rows [] r2) /\
  (err = None -> forall x, x ∈ from_option rows (rows r) r2 -> x ∈ concat (map rows outs)) /\
  (r2 <> None -> maxSize = 0 \/ @Sizeof _ signalRequest szt r <= maxSize ->
     rows r = [] \/ exists o outs', outs = o :: outs' /\ forall x, x ∈ rows r -> x ∈ rows o) /\
  (rows r <> [] -> Forall (fun o => rows o <> []) outs).
Proof.
  intros Hszt Hmx Hr H2. destruct (sizerFor_of szt Hszt) as (sz & Hsz & Hl).
  assert (H2' : from_option (@Sizeof _ signalRequest szt) 0 r2 = from_option (fun q => DataSize sz (rq_data q)) 0 r2).
  { destruct r2; [by apply (Sizeof_signal szt sz)|done]. }
  rewrite H2', (Sizeof_signal szt sz r) by done.
  destruct (signal_merged szt sz r r2 maxSize Hsz Hl Hr H2) as (m & Hm & Hd & Hs & ->). rewrite <- Hs. intros Hb.
  pose proof (rows_merged m r r2 Hd) as Hrows. cbv beta in Hrows.
  assert (Hnew : forall x, x ∈ from_option rows (rows r) r2 -> x ∈ rows m).
  { intros x Hx. cbv beta. rewrite Hrows. destruct r2; set_solver. }
  assert (Hne : rows r <> [] -> rows m <> []).
  { cbv beta. rewrite Hrows. destruct (dataRows (rq_data r)); done. }
  destruct (Z.eqb_spec maxSize 0) as [->|H0]; simpl.
  - intros [= <- <- <-]. simpl. rewrite (Sizeof_signal szt sz m) by done. rewrite app_nil_r, <- Hrows.
    split_and!; try done; try lia; [by apply Forall_singleton| |].
    + intros _ _. right. eexists _, _. split; [done|]. intros x Hx. rewrite Hrows. set_solver.
    + intros Hn. apply Forall_singleton. by apply Hne.
  - destruct (split sz szt fmt maxSize m) as [ [ [outs1 err1] lft1]|] eqn:Es; [|
      by destruct (split_ok _ _ _ szt sz Hsz fmt maxSize ltac:(lia) m Hm Hb) as (?&?&?&?&E&_); rewrite Es in E].
    simpl. intros [= -> -> ->].
    destruct (split_laws szt sz m maxSize outs err r') as (L1 & L2 & L3 & L4); try done; [lia|].
    destruct (split_left _ _ _ szt sz Hsz fmt maxSize ltac:(lia) m outs err r' Hm Hb Es) as (Hok & Hle & Hsub).
    rewrite (Sizeof_signal szt sz r') by done. rewrite <- Hrows, <- outRows_concat. split_and!; try done.
    + eapply Forall_impl; [exact L1|]. by intros o [? _].
    + intros _. eapply Forall_impl; [exact L1|]. intros o [Ho ?]. by rewrite (Sizeof_signal szt sz o).
    + destruct outs; [by apply sublist_submseteq|done].
    + intros He x Hx. rewrite (L3 He). by apply Hnew.
    + intros _ [?|Hfit]; [lia|].
      eapply split_first; [exact Hl|exact Hsz| |exact Hm|exact Hb|exact Hd|exact Hfit|exact Es]. lia.
    + intros Hn. apply L4. by apply Hne.
Qed.

#[local] Existing Instance signalRequest.
#[local] Existing Instance signalBatch.

Lemma signal_laws (ctx : Ctx) (r : req) maxSize szt r2 outs err r' :
  (szt = SizerTypeItems \/ szt = SizerTypeBytes) -> 0 <= maxSize < 2 ^ 63 -> ok r -> from_option ok True r2 ->
  Sizeof szt r + from_option (Sizeof szt) 0 r2 < 2 ^ 63 -> MergeSplit ctx r maxSize szt r2 = (outs, err, r') ->
  Forall ok outs /\ ok r' /\ Sizeof szt r' <= Sizeof szt r + from_option (Sizeof szt) 0 r2 /\
  (match outs with [] => rows r' | _ => concat (map rows outs) end ⊆+ rows r ++ from_option rows [] r2) /\
  (err = None -> forall x, x ∈ from_option rows (rows r) r2 -> x ∈ concat (map rows outs)) /\
  (r2 <> None -> maxSize = 0 \/ Sizeof szt r <= maxSize ->
     rows r = [] \/ exists o outs', outs = o :: outs' /\ forall x, x ∈ rows r -> x ∈ rows o).
Proof. intros H1 H2 H3 H4 H5 H6. by destruct (signal_ms_valid r maxSize szt r2 outs err r' H1 H2 H3 H4 H5 H6) as (? & ? & ? & _ & ? & ? & ? & _). Qed.

#[local] Instance signalLaws : BatchLaws Ctx req (Resource * string * (Scope * string * Rec)) :=
  {| items := rows; valid := ok; Sizeof_nonneg := Sizeof_signal_nonneg; ms_valid := signal_laws |}.

#[local] Instance signalFits : BatchFits Ctx req (Resource * string * (Scope * string * Rec)).
Proof. intros ctx r maxSize szt r2 outs err r' H1 H2 H3 H4 H5 H6. destruct (signal_ms_valid r maxSize szt r2 outs err r' H1 H2 H3 H4 H5 H6) as (_ & _ & _ & ? & _ & _ & _ & ?). done. Qed.

(** ** Batches of logs and spans *)
Section Batches.
Context {Link C : Type} `{ContextOps Ctx Link} `{LRU nat C}.

(** C10: Batching log or span requests never duplicates: the records handed to
    consumeFunc, over all calls, each with its scope and resource, are among the records
    given to Consume, counted with multiplicity.  And when no request is empty, every
    batch of logs or spans handed over fits max_size.  Batches of metrics and profiles
    may be larger, as their requests are not split to fit. *)
Theorem batcher_no_duplication cfg mergeCtx (GetKey : Ctx -> req -> string) now (empty : C) maxWorkers api s0 s es :
  BatchConfig_Validate cfg = None -> MaxSize cfg < 2 ^ 63 ->
  started cfg now empty maxWorkers api s0 -> sysRun cfg mergeCtx GetKey api es s0 = Some s ->
  Forall ok (s_offered s) -> MinSize cfg + sumZ (Sizeof (bc_Sizer cfg)) (s_offered s) < 2 ^ 63 ->
  flat_map (fun p => rows (b_req p.1)) (w_sent (s_world s)) ⊆+ flat_map rows (s_offered s) /\
  (Forall (fun r => rows r <> []) (s_offered s) ->
   Forall (fun p => MaxSize cfg = 0 \/ Sizeof (bc_Sizer cfg) (b_req p.1) <= MaxSize cfg) (w_sent (s_world s))).
Proof.
  intros Hcfg Hmax Hstart Hrun Hok Hsize. split.
  - pose proof (sent_among_offered cfg mergeCtx Hcfg Hmax GetKey now empty maxWorkers api s0 s es Hstart Hrun Hok Hsize) as Hs.
    unfold sentItems in Hs. erewrite flat_map_ext in Hs; [exact Hs|]. by intros [].
  - intros Hne. exact (sent_fits cfg mergeCtx Hcfg Hmax GetKey now empty maxWorkers api s0 s es Hstart Hrun Hok Hsize signalFits Hne).
Qed.
End Batches.
End Instance.
