(* ===== verification/BatcherFindings.v ===== *)
(** * Batching: concrete executions, and three that go wrong

    A cache that keeps its entries in order of use, log requests whose payloads
    are numbers, and a scheduler give concrete executions of the batchers.
    They are the witnesses of the theorems of [BatcherProofs], and show three
    ways the multi batcher gets stuck or crashes: an eviction that needs the
    worker it occupies, a shutdown that waits for a goroutine waiting for it,
    and a call of the removed [onEmpty] callback. *)

From S2P Require Import Prelude Errors Sizers SignalSplit SplitProps Batcher BatcherProofs BatchSignals.
Local Open Scope Z_scope.

(** ** A concrete environment *)

(** A context is the partition key of its request, without spans. *)
#[export] Instance stringContext : ContextOps string N := {|
  Background := "";
  SpanContextFromContext _ := None;
  ValueLinks _ := None;
  WithLinks c _ := c;
|}.

(** A cache of a given size, the least recently used entry first. *)
Record cache := mkCache { cache_size : nat; cache_entries : list (string * nat) }.

Definition cache_peek (key : string) (c : cache) : option nat :=
  snd <$> head (filter (fun e => e.1 = key) (cache_entries c)).
Definition cache_without (key : string) (c : cache) : list (string * nat) :=
  filter (fun e => e.1 <> key) (cache_entries c).

#[export] Instance cacheLRU : LRU nat cache := {|
  lru_Get key c :=
    match cache_peek key c with
    | Some p => (Some p, mkCache (cache_size c) (cache_without key c ++ [(key, p)]))
    | None => (None, c)
    end;
  lru_Add key p c :=
    let entries := cache_without key c ++ [(key, p)] in
    let over := (length entries - cache_size c)%nat in
    (mkCache (cache_size c) (drop over entries), take over entries);
  lru_Remove key c :=
    (mkCache (cache_size c) (cache_without key c), filter (fun e => e.1 = key) (cache_entries c));
  lru_Keys c := map fst (cache_entries c);
  lru_Peek key c := cache_peek key c;
  lru_Purge c := (mkCache (cache_size c) [], cache_entries c);
|}.

Local Abbreviation logs := (request N N N).
#[export] Instance logsRequest : Request logs := signalRequest Z.of_N Z.of_N Z.of_N.
#[export] Instance logsBatch : BatchRequest string logs := signalBatch Z.of_N Z.of_N Z.of_N logsDropped.
#[export] Instance logsLaws : BatchLaws string logs (N * string * (N * string * N)) :=
  signalLaws Z.of_N Z.of_N Z.of_N N2Z.is_nonneg N2Z.is_nonneg N2Z.is_nonneg logsDropped.

Definition exLogs (recs : list N) : logs := newRequest [mkResource 0%N "" [mkScope 0%N "" recs] []].
Definition exKey (ctx : string) (_ : logs) : string := ctx.

Definition exConfig (minSize maxSize : Z) : BatchConfig :=
  mkBatchConfig 100 SizerTypeItems minSize maxSize ["tenant"] 1 1000.

(** ** A scheduler: run the first goroutine that can go on, timers last *)
Section Scheduler.
Context (cfg : BatchConfig).

Local Abbreviation sys := (system string logs cache).
Local Abbreviation ev := (event string logs).

Definition isTimer (k : list (instr string logs)) : bool :=
  match k with TimerLoop _ :: _ => true | _ => false end.

Definition ready (res : option error) (timers : bool) (s : sys) (t : nat) : option ev :=
  match s_threads s !! t with
  | Some k =>
      if bool_decide (isTimer k = timers) then
        let try c := match stepThread cfg None exKey t c s with Next _ _ _ => Some (ERun t c) | _ => None end in
        match try (mkChoice res true) with Some e => Some e | None => try (mkChoice res false) end
      else None
  | None => None
  end.

Definition pick (res : option error) (timers : bool) (s : sys) : option ev :=
  head (omap (ready res timers s) (seq 0 (length (s_threads s)))).

(** At most [n] steps of the goroutines other than timers. *)
Fixpoint drain (api : calls string logs) (res : option error) (n : nat) (s : sys) : list ev * sys :=
  match n with
  | O => ([], s)
  | S n =>
      match pick res false s with
      | Some e =>
          match sysStep cfg None exKey api e s with
          | Some s' => let '(es, s'') := drain api res n s' in (e :: es, s'')
          | None => ([], s)
          end
      | None => ([], s)
      end
  end.

(** A script of events, the goroutines running as far as they can after each. *)
Fixpoint play (api : calls string logs) (script : list (ev * nat)) (s : sys) : list ev :=
  match script with
  | [] => []
  | (e, n) :: script =>
      match sysStep cfg None exKey api e s with
      | Some s' => let '(es, s'') := drain api None n s' in e :: es ++ play api script s''
      | None => []
      end
  end.
End Scheduler.

(** ** An eviction can use up the workers

    Nobody holds a worker but goroutines that are themselves waiting for one. *)
Section Exhausted.
Context {Ctx Link Req C : Type} `{ContextOps Ctx Link} `{Request Req} `{!BatchRequest Ctx Req} `{LRU nat C}.
Context (cfg : BatchConfig) (mergeCtx : option (Ctx -> Ctx -> Ctx)) (GetKey : Ctx -> Req -> string).

Definition harmless (i : instr Ctx Req) : Prop :=
  match i with Send _ _ | Release => False | _ => True end.
Definition waitsForWorker (k : list (instr Ctx Req)) : Prop :=
  match k with ExecuteSend _ _ :: _ | ExecuteShutdown _ :: _ => True | _ => False end.
Definition exhausted (s : system Ctx Req C) : Prop :=
  w_workers (s_world s) = 0%nat /\
  Forall (fun k => Forall harmless k \/ waitsForWorker k) (s_threads s).

Lemma onEvict_harmless l : Forall harmless (onEvict l).
Proof. apply Forall_forall. intros i (e & -> & _)%list_elem_of_fmap. done. Qed.
Lemma flush_harmless p fl : Forall harmless (map (Flush p) fl).
Proof. apply Forall_forall. intros i (e & -> & _)%list_elem_of_fmap. done. Qed.

Lemma exec_harmless c i k (w : world Ctx Req C) k' sp w' :
  w_workers w = 0%nat -> Forall harmless (i :: k) -> exec cfg mergeCtx GetKey c i k w = Next k' sp w' ->
  Forall harmless k' /\ Forall (Forall harmless) sp /\ w_workers w' = 0%nat /\ w_sent w' = w_sent w.
Proof.
  intros Hw [Hi Hk]%Forall_cons He.
  destruct i; simpl in He; unfold with_pb, getPartition, Start in He; rewrite ?Hw in He; try done;
    repeat (case_match; simplify_eq/=; try done); simplify_eq/=;
    split_and!; try done; repeat (apply Forall_app; split); try (apply onEvict_harmless);
    try (apply flush_harmless); repeat constructor; try done.
  apply Forall_forall. intros l (p & -> & _)%list_elem_of_fmap. by repeat constructor.
Qed.

(** Then nothing is exported any more. *)
Lemma exhausted_step (api : calls Ctx Req) e s s' :
  (forall ctx r d, harmless (call_Consume api ctx r d)) -> Forall harmless (call_Shutdown api) ->
  exhausted s -> sysStep cfg mergeCtx GetKey api e s = Some s' ->
  exhausted s' /\ w_sent (s_world s') = w_sent (s_world s).
Proof.
  intros HA1 HA2 [Hw Ht] Hs. destruct e as [t c|d|ctx req|]; simpl in Hs.
  - unfold stepThread in Hs. destruct (s_threads s !! t) as [ [|i k]|] eqn:Et; try done.
    destruct (exec _ _ _ _ _ _ _) as [| |k' sp w'] eqn:Ee; simplify_eq.
    assert (Forall harmless (i :: k)) as Hk.
    { eapply Forall_lookup_1 in Ht as [Hk|Hk]; [done| |done]. destruct i; try done; simpl in Ee; by rewrite Hw in Ee. }
    apply exec_harmless in Ee as (H1' & H2' & H3 & H4); [|done..]. split; [|done]. split; [done|]. simpl.
    apply Forall_app. split; [apply Forall_insert; auto|]. eapply Forall_impl; [exact H2'|auto].
  - destruct (_ <? _); simplify_eq. done.
  - simplify_eq. split; [|done]. split; [done|]. apply Forall_app. split; [done|].
    apply Forall_singleton. left. by apply Forall_singleton.
  - simplify_eq. split; [|done]. split; [done|]. apply Forall_app. split; [done|].
    apply Forall_singleton. by left.
Qed.

Lemma exhausted_run (api : calls Ctx Req) es s s' :
  (forall ctx r d, harmless (call_Consume api ctx r d)) -> Forall harmless (call_Shutdown api) ->
  exhausted s -> sysRun cfg mergeCtx GetKey api es s = Some s' -> w_sent (s_world s') = w_sent (s_world s).
Proof.
  intros HA1 HA2. revert s. induction es as [|e es IH]; intros s He; simpl; [by intros [= ->]|].
  destruct (sysStep _ _ _ _ _ _) as [s1|] eqn:E; [|done]. simpl. intros Hr.
  apply exhausted_step in E as [He' <-]; [|done..]. by apply IH.
Qed.
End Exhausted.

Definition exMulti (maxWorkers : nat) : system string logs cache := multiSystem 0 (mkCache 1 []) maxWorkers.

(** One worker, one partition in the cache: a record for "a", then one for "b". *)
Definition evictionScript : list (event string logs) :=
  play (exConfig 10 0) multiCalls
    [(EConsume "a" (exLogs [1%N]), 20%nat); (EConsume "b" (exLogs [2%N]), 20%nat)] (exMulti 1).

(** With one worker, evicting a partition that holds data from the cache stops
    the exporter for good: the eviction runs on the only worker and waits for a
    worker to flush the data.  From then on no execution exports anything. *)
Theorem eviction_stops_exports :
  BatchConfig_Validate (exConfig 10 0) = None /\
  exists s, sysRun (exConfig 10 0) None exKey multiCalls evictionScript (exMulti 1) = Some s /\
    length (s_offered s) = 2%nat /\
    forall es s', sysRun (exConfig 10 0) None exKey multiCalls es s = Some s' -> w_sent (s_world s') = [].
Proof.
  split; [done|].
  destruct (sysRun (exConfig 10 0) None exKey multiCalls evictionScript (exMulti 1)) as [s|] eqn:E;
    [|vm_compute in E; discriminate].
  vm_compute in E. injection E as <-. eexists. split; [reflexivity|]. split; [reflexivity|]. intros es s' Hr.
  apply exhausted_run in Hr; [done|done|by repeat constructor|].
  split; [done|]. repeat constructor; simpl; first [by left; repeat constructor | by right].
Qed.

(** ** A shutdown can wait for a goroutine that waits for it *)
Section Stuck.
Context {Ctx Link Req C : Type} `{ContextOps Ctx Link} `{Request Req} `{!BatchRequest Ctx Req} `{LRU nat C}.
Context (cfg : BatchConfig) (mergeCtx : option (Ctx -> Ctx -> Ctx)) (GetKey : Ctx -> Req -> string).

Definition stuckThread (w : world Ctx Req C) (k : list (instr Ctx Req)) : Prop :=
  match k with
  | [] | Lock :: _ | MultiConsume _ _ _ :: _ => True
  | ShutdownGoWait :: _ => w_shutdownWG w <> 0%nat
  | StopWGWait p :: _ => exists qb, w_pbs w !! p = Some qb /\ pb_stopWG qb <> 0%nat
  | _ => False
  end.
(** The lock is held and every goroutine waits for it or for another one. *)
Definition stuck (s : system Ctx Req C) : Prop :=
  w_lock (s_world s) = true /\ Forall (stuckThread (s_world s)) (s_threads s).

Lemma stuck_step e s s' :
  stuck s -> sysStep cfg mergeCtx GetKey multiCalls e s = Some s' ->
  stuck s' /\ s_threads s `prefix_of` s_threads s'.
Proof.
  intros [Hl Ht] Hs. destruct e as [t c|d|ctx req|]; simpl in Hs.
  - exfalso. unfold stepThread in Hs. destruct (s_threads s !! t) as [ [|i k]|] eqn:Et; try done.
    eapply Forall_lookup_1 in Ht; [|exact Et]. destruct i; try done; simpl in *; unfold getPartition, with_pb in Hs.
    + by rewrite Hl in Hs.
    + by rewrite Hl in Hs.
    + destruct Ht as (qb & Hp & Hn). rewrite Hp in Hs. by destruct (pb_stopWG qb).
    + by destruct (w_shutdownWG _).
  - destruct (_ <? _); simplify_eq. done.
  - simplify_eq. split; [split; [done|]|by apply prefix_app_r]. apply Forall_app. split; [done|by apply Forall_singleton].
  - simplify_eq. split; [split; [done|]|by apply prefix_app_r]. apply Forall_app. split; [done|by apply Forall_singleton].
Qed.

Lemma stuck_run es s s' :
  stuck s -> sysRun cfg mergeCtx GetKey multiCalls es s = Some s' -> s_threads s `prefix_of` s_threads s'.
Proof.
  revert s. induction es as [|e es IH]; intros s Hst; simpl; [by intros [= ->]|].
  destruct (sysStep _ _ _ _ _ _) as [s1|] eqn:E; [|done]. simpl. intros Hr.
  apply stuck_step in E as [Hs1 Hp]; [|done]. etrans; [exact Hp|]. by apply IH.
Qed.
End Stuck.

(** A record for "a" is exported on the timer; later the timer finds the partition
    idle and is about to remove it ([ERun 1]: goroutine 1 is the timer). *)
Definition idleScript : list (event string logs * nat) :=
  [(EConsume "a" (exLogs [1%N]), 20%nat);
   (ETick 150, 0%nat); (ERun 1 (mkChoice None true), 20%nat);
   (ETick 2000, 0%nat); (ERun 1 (mkChoice None true), 0%nat); (ERun 1 (mkChoice None true), 0%nat)].

Definition shutdownScript : list (event string logs) :=
  play (exConfig 10 0) multiCalls
    (idleScript ++
     [(ERun 1 (mkChoice None true), 0%nat);
      (EShutdown, 0%nat); (ERun 3 (mkChoice None true), 20%nat)]) (exMulti 1).

(** C35: The shutdown of the multi batcher can block for good: it holds the lock
    of the batcher while it waits for the timer goroutine of a partition, which
    waits for this lock to remove its idle partition.  In every continuation the
    shutdown call never gets past its wait. *)
Theorem shutdown_deadlock :
  BatchConfig_Validate (exConfig 10 0) = None /\
  exists s t, sysRun (exConfig 10 0) None exKey multiCalls shutdownScript (exMulti 1) = Some s /\
    s_threads s !! t = Some [ShutdownGoWait; PurgePartitions; Unlock] /\
    forall es s', sysRun (exConfig 10 0) None exKey multiCalls es s = Some s' ->
      s_threads s' !! t = Some [ShutdownGoWait; PurgePartitions; Unlock].
Proof.
  split; [done|].
  destruct (sysRun (exConfig 10 0) None exKey multiCalls shutdownScript (exMulti 1)) as [s|] eqn:E;
    [|vm_compute in E; discriminate].
  vm_compute in E. injection E as <-. eexists _, 3%nat. split; [reflexivity|]. split; [reflexivity|].
  intros es s' [suf Hr]%stuck_run; [by rewrite Hr|]. split; [done|].
  repeat constructor; simpl; try done; by eexists.
Qed.

Definition onEmptyScript : list (event string logs) :=
  play (exConfig 10 0) multiCalls
    (idleScript ++
     [(EShutdown, 0%nat); (ERun 3 (mkChoice None true), 0%nat); (ERun 3 (mkChoice None true), 0%nat);
      (ERun 4 (mkChoice None true), 0%nat)]) (exMulti 1).

(** A partition that is found idle calls its onEmpty callback after it has
    released its lock; when the batcher is shut down in between, the callback
    is nil by then and the call panics. *)
Theorem onEmpty_panics :
  BatchConfig_Validate (exConfig 10 0) = None /\
  exists s, sysRun (exConfig 10 0) None exKey multiCalls onEmptyScript (exMulti 1) = Some s /\
    s_threads s !! 1%nat = Some [OnEmpty 0; TimerLoop 0] /\
    forall c, stepThread (exConfig 10 0) None exKey 1 c s = Panic.
Proof.
  split; [done|].
  destruct (sysRun (exConfig 10 0) None exKey multiCalls onEmptyScript (exMulti 1)) as [s|] eqn:E;
    [|vm_compute in E; discriminate].
  vm_compute in E. injection E as <-. eexists. split; [reflexivity|]. by split.
Qed.

(** ** Witnesses

    A batcher over one shard, with batches of two or three items and two
    workers, is given a request of four records and one of one record, and is
    shut down. *)
Definition shardConfig : BatchConfig := exConfig 2 3.
Definition exSharded : system string logs cache :=
  shardedSystem shardConfig 0 (mkCache 1 []) 2 [newPartitionBatcher 0 None].
Definition shardScript : list (event string logs) :=
  play shardConfig (shardedCalls 1)
    [(EConsume "" (exLogs [1%N; 2%N; 3%N; 4%N]), 30%nat); (EConsume "" (exLogs [5%N]), 30%nat);
     (EConsume "" (exLogs [6%N]), 30%nat); (EShutdown, 5%nat); (ERun 0 (mkChoice None false), 30%nat)] exSharded.
Definition shardFinal : system string logs cache :=
  default exSharded (sysRun shardConfig None exKey (shardedCalls 1) shardScript exSharded).

Lemma shard_run :
  started (C := cache) shardConfig 0 (mkCache 1 []) 2 (shardedCalls 1) exSharded /\
  sysRun shardConfig None exKey (shardedCalls 1) shardScript exSharded = Some shardFinal /\
  Forall (valid (Ctx := string) (Item := N * string * (N * string * N))) (s_offered shardFinal) /\
  MinSize shardConfig + total shardConfig (s_offered shardFinal) < 2 ^ 63.
Proof.
  split_and!.
  - apply (started_sharded shardConfig 0 (mkCache 1 []) 2 1). done.
  - vm_compute. reflexivity.
  - vm_compute (s_offered shardFinal).
    repeat constructor; left; done.
  - vm_compute. reflexivity.
Qed.

Lemma batcher_callbacks_once_witness :
  idle (C := cache) shardFinal /\
  map fst (d_calls (w_dones (s_world shardFinal))) ≡ₚ seq 0 (length (s_offered shardFinal)).
Proof.
  destruct shard_run as (H1 & H2 & H3 & H4).
  assert (idle (C := cache) shardFinal) as Hidle.
  { split; [|vm_compute (w_pbs _); by intros qb ->%list_elem_of_singleton].
    intros k Hk. assert (Forall (fun k => k = []) (s_threads shardFinal)) as Hall by (vm_compute; repeat constructor).
    left. by eapply Forall_forall in Hall. }
  split; [done|].
  apply (batcher_callbacks_once (Item := N * string * (N * string * N)) shardConfig None
    ltac:(done) ltac:(done) exKey 0 (mkCache 1 []) 2 (shardedCalls 1) exSharded shardFinal shardScript H1 H2 H3 H4).
  done.
Defined.

(** Request 1 holds the record 5, which was merged with others. *)
Lemma batcher_no_silent_loss_witness :
  (1%nat, None) ∈ d_calls (w_dones (s_world shardFinal)) /\
  (0%N, "", (0%N, "", 5%N)) ∈ sentOk (Item := N * string * (N * string * N)) (w_sent (s_world shardFinal)).
Proof.
  destruct shard_run as (H1 & H2 & H3 & H4).
  assert ((1%nat, None) ∈ d_calls (w_dones (s_world shardFinal))) as Hc.
  { vm_compute (d_calls _). repeat (first [left | right]). }
  split; [done|].
  apply (batcher_no_silent_loss (Item := N * string * (N * string * N)) shardConfig None
    ltac:(done) ltac:(done) exKey 0 (mkCache 1 []) 2 (shardedCalls 1) exSharded shardFinal shardScript H1 H2 H3 H4
    1 (exLogs [5%N])); [done|reflexivity|].
  left.
Defined.

Lemma batcher_no_duplication_witness :
  (length (w_sent (s_world shardFinal)) > 1)%nat /\
  Forall (fun p => MaxSize shardConfig = 0 \/ Sizeof (bc_Sizer shardConfig) (b_req p.1) <= MaxSize shardConfig) (w_sent (s_world shardFinal)).
Proof.
  destruct shard_run as (H1 & H2 & H3 & H4). split; [vm_compute; lia|].
  apply (batcher_no_duplication Z.of_N Z.of_N Z.of_N N2Z.is_nonneg N2Z.is_nonneg N2Z.is_nonneg logsDropped shardConfig None exKey
    0 (mkCache 1 []) 2 (shardedCalls 1) exSharded shardFinal shardScript ltac:(done) ltac:(done) H1 H2 H3 H4).
  vm_compute (s_offered shardFinal). by repeat constructor.
Defined.

(** ** A batch that failed to merge is kept *)
Definition bytesConfig : BatchConfig := mkBatchConfig 100 SizerTypeBytes 10 20 [] 1 1000.
Definition keptSystem : system string logs cache :=
  shardedSystem bytesConfig 0 (mkCache 1 []) 2 [newPartitionBatcher 0 None].
Definition keptScript : list (event string logs) :=
  play bytesConfig (shardedCalls 1)
    [(EConsume "" (newRequest []), 30%nat); (EConsume "" (newRequest zeroRoom), 30%nat);
     (ETick 150, 0%nat); (ERun 0 (mkChoice None true), 30%nat)] keptSystem.

(** When merging a request into the current batch leaves nothing to send, the
    batch is not reset: it keeps the merged data.  A request without records
    followed by one that cannot be split makes the batcher report the second
    as failed, keep its records, and export them on the timer in a batch
    larger than max_size. *)
Theorem failed_merge_exported :
  BatchConfig_Validate bytesConfig = None /\
  exists s t e, sysRun bytesConfig None exKey (shardedCalls 1) keptScript keptSystem = Some s /\
    s_offered s = [newRequest []; newRequest zeroRoom] /\
    d_calls (w_dones (s_world s)) = [(1%nat, Some e); (0%nat, None)] /\
    w_sent (s_world s) = [(t, None)] /\ rq_data (b_req t) = zeroRoom /\
    MaxSize bytesConfig < Sizeof (bc_Sizer bytesConfig) (b_req t).
Proof.
  split; [done|].
  destruct (sysRun bytesConfig None exKey (shardedCalls 1) keptScript keptSystem) as [s|] eqn:E;
    [|vm_compute in E; discriminate].
  vm_compute in E. injection E as <-. eexists _, _, _. split; [reflexivity|]. split; [reflexivity|].
  split; [reflexivity|]. split; [reflexivity|]. split; [reflexivity|]. vm_compute. reflexivity.
Qed.
