(* ===== verification/BatcherLiveness.v ===== *)
(** * Batching over shards never gets stuck

    The batcher used without a partitioner (sharded_batcher.go over
    partition_batcher.go, with its worker pool and timers) never panics and
    never deadlocks, and a shutdown can always be completed with the callback
    of every request called. *)

From S2P Require Import Prelude Errors Sizers SignalSplit Batcher BatcherProofs BatchSignals BatcherFindings.
Local Open Scope Z_scope.

Section Liveness.
Context {Ctx Link Req Item C : Type} `{ContextOps Ctx Link} `{Request Req} `{!BatchRequest Ctx Req}.
Context `{!BatchLaws Ctx Req Item} `{LRU nat C}.
Context (cfg : BatchConfig) (mergeCtx : option (Ctx -> Ctx -> Ctx)) (GetKey : Ctx -> Req -> string).
Hypothesis Hcfg : BatchConfig_Validate cfg = None.
Hypothesis Hmax : MaxSize cfg < 2 ^ 63.

(** ** Operations never panic *)
Lemma resetTimer_some now (qb : partitionBatcher Ctx Req) :
  pb_timer qb <> None -> exists dl, resetTimer cfg now qb = Some (set_timer (Some (Some dl)) qb).
Proof.
  intros Ht. unfold resetTimer. destruct (BatchConfig_Validate_ok _ Hcfg) as (_ & Hf & _).
  destruct (Z.ltb_spec 0 (FlushTimeout cfg)); [|lia]. destruct (pb_timer qb); [by eexists|done].
Qed.

(** What an operation may do to a partition: new current batch, time and
    deadline; nothing else. *)
Definition sameShape (qb qb' : partitionBatcher Ctx Req) : Prop :=
  pb_timer qb' <> None /\ pb_shutdownCh qb' = pb_shutdownCh qb /\ pb_onEmpty qb' = pb_onEmpty qb /\
  pb_active qb' = pb_active qb /\ pb_stopWG qb' = pb_stopWG qb.

Lemma keepLast_some now ctx reqs d (qb : partitionBatcher Ctx Req) :
  pb_timer qb <> None -> exists reqs' qb', keepLast cfg now ctx reqs d qb = Some (reqs', qb') /\ sameShape qb qb'.
Proof.
  intros Ht. unfold keepLast. destruct (last reqs) as [l|]; [|by eexists _, qb].
  destruct (_ <? _); [|by eexists _, qb].
  destruct (resetTimer_some now (set_currentBatch (Some (mkBatch ctx l [d])) qb)) as [dl ->]; [done|].
  simpl. by eexists _, _.
Qed.

Lemma shareDone_some (reqs : list Req) err i s T n :
  DoneInv s (Ext i :: T) n -> reqs <> [] -> exists d s', shareDone reqs err (Ext i) s = Some (d, s').
Proof.
  intros HI Hne. unfold shareDone. destruct (_ <? _) eqn:E; [|by eexists _, _]. zbool.
  set (m := (length reqs + match err with Some _ => 1 | None => 0 end)%nat).
  replace (_ + _)%Z with (Z.of_nat m) by (destruct err; lia).
  pose proof (newRefCountDone_ok s i m T n HI) as Hn. destruct (newRefCountDone _ _ s) as [d s1].
  destruct Hn as (HI1 & _); [destruct reqs; simpl in *; [done|lia]|].
  destruct err as [e|]; [|by eexists _, _].
  destruct (OnDone_ok s1 d (replicate (m - 1) d ++ T) n (Some e)) as (s2 & -> & _); [|by eexists _, _].
  replace m with (S (m - 1)) in HI1 by lia. exact HI1.
Qed.

Lemma consumeInternal_some now ctx req i (qb : partitionBatcher Ctx Req) s T n :
  pb_timer qb <> None -> DoneInv s (Ext i :: T) n ->
  exists qb' s' fl, consumeInternal cfg mergeCtx now ctx req (Ext i) qb s = Some (qb', s', fl, pb_active qb) /\
    sameShape qb qb'.
Proof.
  intros Ht HI. unfold consumeInternal. cbn [pb_currentBatch set_lastDataTime pb_active].
  assert (Hone : forall err, exists s', OnDone (Ext i) err s = Some s').
  { intros err. destruct (OnDone_ok s (Ext i) T n err HI) as (s' & -> & _). by eexists. }
  destruct (pb_currentBatch qb) as [b|]; destruct (MergeSplit _ _ _ _ _) as [ [outs err] self]; destruct outs as [|o outs].
  - destruct (Hone err) as [s' ->]. simpl. by eexists _, _, _.
  - destruct (shareDone_some (o :: outs) err i s T n HI) as (d & s' & ->); [done|]. cbn [mbind option_bind].
    destruct (_ || _); match goal with |- context [keepLast cfg now ctx outs d ?q] =>
      destruct (keepLast_some now ctx outs d q) as (r & q' & -> & Hq); [done|] end;
      cbn [mbind option_bind]; eexists _, _, _; (split; [done|]); exact Hq.
  - destruct (Hone err) as [s' ->]. simpl. by eexists _, _, _.
  - destruct (shareDone_some (o :: outs) err i s T n HI) as (d & s' & ->); [done|]. cbn [mbind option_bind].
    destruct (keepLast_some now ctx (o :: outs) d (set_lastDataTime now qb)) as (r & q' & -> & Hq); [done|].
    cbn [mbind option_bind]. eexists _, _, _. split; [done|]. exact Hq.
Qed.

Lemma flushCurrent_some now (qb : partitionBatcher Ctx Req) :
  pb_timer qb <> None -> pb_onEmpty qb = None ->
  exists qb' a, flushCurrentBatchOrRemovePartition cfg now qb = Some (qb', a) /\ sameShape qb qb' /\
    pb_currentBatch qb' = None /\
    match a with DoFlush t => pb_currentBatch qb = Some t | DoNothing => pb_currentBatch qb = None | DoOnEmpty => False end.
Proof.
  intros Ht Ho. unfold flushCurrentBatchOrRemovePartition. destruct (pb_currentBatch qb) as [b|] eqn:Eb.
  - destruct (resetTimer_some now (set_currentBatch None (set_lastDataTime now qb))) as [dl ->]; [done|].
    simpl. by eexists _, _.
  - rewrite Ho. rewrite bool_decide_false by naive_solver. rewrite andb_false_r.
    destruct (pb_timer qb) eqn:Et; [|done]. destruct (resetTimer_some now qb) as [dl ->]; [by rewrite Et|].
    simpl. by eexists _, _.
Qed.

(** ** The goroutines of a sharded batcher *)
Local Abbreviation ins := (instr Ctx Req).
Local Abbreviation thread := (list (instr Ctx Req)).
Local Abbreviation sys := (system Ctx Req C).

Context (shardCount maxWorkers : nat).
Hypothesis Hshards : (0 < shardCount)%nat.
Hypothesis Hworkers : (0 < maxWorkers)%nat.

(** Instructions of the goroutines that call into the batcher. *)
Definition mainInstr (i : ins) : Prop :=
  match i with
  | ShardedConsume _ _ _ => True
  | Consume p _ _ _ | Flush p _ | FlushCurrent p | ShutdownInternal p | CloseShutdownCh p | StopWGWait p =>
      (p < shardCount)%nat
  | _ => False
  end.

(** The shapes of goroutines: callers, timers and workers. *)
Inductive threadForm : thread -> Prop :=
  | tf_main k : Forall mainInstr k -> threadForm k
  | tf_send p t k : (p < shardCount)%nat -> Forall mainInstr k -> threadForm (ExecuteSend p t :: k)
  | tf_timer p : (p < shardCount)%nat -> threadForm [TimerLoop p]
  | tf_timer_flush p : (p < shardCount)%nat -> threadForm [FlushCurrent p; TimerLoop p]
  | tf_timer_add p t : (p < shardCount)%nat -> threadForm [Flush p t; TimerLoop p]
  | tf_timer_send p t : (p < shardCount)%nat -> threadForm [ExecuteSend p t; TimerLoop p]
  | tf_timer_end p : (p < shardCount)%nat -> threadForm [StopWGDone p]
  | tf_worker p t : (p < shardCount)%nat -> threadForm [Send p t; StopWGDone p; Release]
  | tf_worker_done p : (p < shardCount)%nat -> threadForm [StopWGDone p; Release]
  | tf_worker_end : threadForm [Release].

(** Counting instructions over all goroutines. *)
Definition icount (f : ins -> nat) (ts : list thread) : nat := sum_list_with (sum_list_with f) ts.

Definition isRelease (i : ins) : nat := match i with Release => 1 | _ => 0 end.
Definition inWG (p : nat) (i : ins) : nat :=
  match i with
  | ExecuteSend q _ | StopWGDone q | TimerLoop q => if decide (q = p) then 1 else 0
  | _ => 0
  end.
Definition isClose (p : nat) (i : ins) : nat :=
  match i with CloseShutdownCh q => if decide (q = p) then 1 else 0 | _ => 0 end.

Lemma sum_list_with_insert {A} (f : A -> nat) l t x y :
  l !! t = Some x -> (sum_list_with f (<[t := y]> l) + f x = sum_list_with f l + f y)%nat.
Proof.
  intros Hl. rewrite (insert_take_drop _ _ _ (lookup_lt_Some _ _ _ Hl)).
  rewrite <- (take_drop_middle _ _ _ Hl) at 3. rewrite !sum_list_with_app. simpl. lia.
Qed.

Lemma icount_update f (ts : list thread) t k k' sp :
  ts !! t = Some k ->
  (icount f (<[t := k']> ts ++ sp) + sum_list_with f k = icount f ts + sum_list_with f k' + icount f sp)%nat.
Proof.
  intros Ht. unfold icount. rewrite sum_list_with_app.
  pose proof (sum_list_with_insert (sum_list_with f) ts t k k' Ht). lia.
Qed.

Lemma icount_pos f (ts : list thread) : (0 < icount f ts)%nat -> exists k i, k ∈ ts /\ i ∈ k /\ (0 < f i)%nat.
Proof.
  assert (forall l, (0 < sum_list_with f l)%nat -> exists i, i ∈ l /\ (0 < f i)%nat) as Hl.
  { induction l as [|x l IH]; simpl; [lia|]. intros Hp. destruct (decide (0 < f x)%nat) as [?|?].
    - exists x. split; [left|done].
    - destruct IH as (i & ? & ?); [lia|]. exists i. split; [by right|done]. }
  unfold icount. induction ts as [|k ts IH]; simpl; [lia|]. intros Hp.
  destruct (decide (0 < sum_list_with f k)%nat) as [Hk|?].
  - destruct (Hl k Hk) as (i & ? & ?). exists k, i. split; [left|done].
  - destruct IH as (k' & i & ? & ? & ?); [lia|]. exists k', i. split; [by right|done].
Qed.

(** The wait of a shutdown comes after the channel of the partition is closed. *)
Definition waitsClosed (pbs : list (partitionBatcher Ctx Req)) (k : thread) : Prop :=
  forall k1 p k2, k = k1 ++ StopWGWait p :: k2 ->
    CloseShutdownCh p ∈ k1 \/ exists qb, pbs !! p = Some qb /\ pb_shutdownCh qb = true.

Definition b2n (b : bool) : nat := if b then 1 else 0.

(** [down]: a shutdown has been called, which reaches every active partition. *)
Record ShInv (down : bool) (s : sys) : Prop := {
  sh_len : length (w_pbs (s_world s)) = shardCount;
  sh_form k : k ∈ s_threads s -> threadForm k;
  sh_pb p qb : w_pbs (s_world s) !! p = Some qb -> pb_timer qb <> None /\ pb_onEmpty qb = None;
  sh_workers : (w_workers (s_world s) + icount isRelease (s_threads s) = maxWorkers)%nat;
  sh_wg p qb : w_pbs (s_world s) !! p = Some qb -> pb_stopWG qb = icount (inWG p) (s_threads s);
  sh_close p qb : w_pbs (s_world s) !! p = Some qb ->
    (icount (isClose p) (s_threads s) + b2n (pb_shutdownCh qb) + b2n (pb_active qb) = 1)%nat;
  sh_wait k : k ∈ s_threads s -> waitsClosed (w_pbs (s_world s)) k;
  sh_flush p qb : w_pbs (s_world s) !! p = Some qb -> pb_active qb = false -> pb_currentBatch qb <> None ->
    exists k, k ∈ s_threads s /\ FlushCurrent p ∈ k;
  sh_down p qb : down = true -> w_pbs (s_world s) !! p = Some qb -> pb_active qb = true ->
    exists k, k ∈ s_threads s /\ ShutdownInternal p ∈ k;
}.

Definition onlyAt (q p : nat) (n : nat) : nat := if decide (q = p) then n else 0%nat.

Lemma waitsClosed_mono pbs p qb qb' k :
  pbs !! p = Some qb -> (pb_shutdownCh qb = true -> pb_shutdownCh qb' = true) ->
  waitsClosed pbs k -> waitsClosed (<[p := qb']> pbs) k.
Proof.
  intros Hp Hc Hw k1 q k2 E. destruct (Hw k1 q k2 E) as [?|(q0 & Hq & Hs)]; [by left|right].
  destruct (decide (q = p)) as [->|Hne].
  - exists qb'. rewrite list_lookup_insert_eq by (by eapply lookup_lt_Some). simplify_eq. auto.
  - exists q0. by rewrite list_lookup_insert_ne.
Qed.

Lemma waitsClosed_tail pbs i k : (forall p, i <> CloseShutdownCh p) -> waitsClosed pbs (i :: k) -> waitsClosed pbs k.
Proof.
  intros Hi Hw k1 p k2 ->. destruct (Hw (i :: k1) p k2 eq_refl) as [Hc|?]; [|by right].
  apply elem_of_cons in Hc as [Hc|?]; [by destruct (Hi p)|by left].
Qed.

Lemma waitsClosed_cons pbs i k : (forall p, i <> StopWGWait p) -> waitsClosed pbs k -> waitsClosed pbs (i :: k).
Proof.
  intros Hi Hw k1 p k2 E. destruct k1 as [|j k1]; simplify_eq/=; [by destruct (Hi p)|].
  destruct (Hw k1 p k2 eq_refl); [left; by right|by right].
Qed.

Lemma waitsClosed_app pbs k0 k :
  (forall p, StopWGWait p ∉ k0) -> waitsClosed pbs k -> waitsClosed pbs (k0 ++ k).
Proof.
  induction k0 as [|i k0 IH]; intros Hi Hw; [done|]. simpl. apply waitsClosed_cons.
  - intros p ->. apply (Hi p). left.
  - apply IH; [|done]. intros p Hp. apply (Hi p). by right.
Qed.

Lemma waitsClosed_none pbs k : (forall p, StopWGWait p ∉ k) -> waitsClosed pbs k.
Proof. intros Hn k1 p k2 ->. destruct (Hn p). set_solver. Qed.

Ltac no_wait :=
  apply waitsClosed_none; let q := fresh in let Hin := fresh in intros q Hin;
  repeat (apply elem_of_cons in Hin as [Hin|Hin]; [done|]); by apply not_elem_of_nil in Hin.

(** One goroutine takes a step that changes at most partition [p]. *)
Section Update.
Context (s : sys) (t : nat) (i : ins) (k k' : thread) (sp : list thread) (w' : world Ctx Req C).
Context (p : nat) (qb qb' : partitionBatcher Ctx Req) (down : bool).
Hypothesis HI : ShInv down s.
Hypothesis Ht : s_threads s !! t = Some (i :: k).
Hypothesis Hp : w_pbs (s_world s) !! p = Some qb.
Hypothesis Hp' : w_pbs w' = <[p := qb']> (w_pbs (s_world s)).

Lemma elem_of_update x : x ∈ <[t := k']> (s_threads s) ++ sp -> x ∈ s_threads s \/ x = k' \/ x ∈ sp.
Proof.
  intros [Hx|Hx]%elem_of_app; [|auto]. apply list_elem_of_lookup in Hx as [j Hj].
  apply list_lookup_insert_Some in Hj as [(_ & -> & _)|[_ Hj]]; [auto|left]. by eapply list_elem_of_lookup_2.
Qed.

Lemma elem_of_updated x : x ∈ s_threads s -> x = i :: k \/ x ∈ <[t := k']> (s_threads s) ++ sp.
Proof.
  intros [j Hj]%list_elem_of_lookup. destruct (decide (j = t)) as [->|Hne]; [left; congruence|right].
  apply elem_of_app. left. apply (list_elem_of_lookup_2 _ j). by rewrite list_lookup_insert_ne.
Qed.

Lemma k'_updated : k' ∈ <[t := k']> (s_threads s) ++ sp.
Proof.
  apply elem_of_app. left. apply (list_elem_of_lookup_2 _ t).
  apply list_lookup_insert_eq. by eapply lookup_lt_Some.
Qed.

Lemma ShInv_update off :
  threadForm k' -> (forall x, x ∈ sp -> threadForm x) ->
  pb_timer qb' <> None -> pb_onEmpty qb' = None ->
  (w_workers w' + sum_list_with isRelease k' + icount isRelease sp
   = w_workers (s_world s) + sum_list_with isRelease (i :: k))%nat ->
  (forall q, sum_list_with (inWG q) k' + icount (inWG q) sp + onlyAt q p (pb_stopWG qb)
   = sum_list_with (inWG q) (i :: k) + onlyAt q p (pb_stopWG qb'))%nat ->
  (forall q, sum_list_with (isClose q) k' + icount (isClose q) sp +
     onlyAt q p (b2n (pb_shutdownCh qb') + b2n (pb_active qb'))
   = sum_list_with (isClose q) (i :: k) + onlyAt q p (b2n (pb_shutdownCh qb) + b2n (pb_active qb)))%nat ->
  (pb_shutdownCh qb = true -> pb_shutdownCh qb' = true) ->
  waitsClosed (w_pbs w') k' -> (forall x, x ∈ sp -> waitsClosed (w_pbs w') x) ->
  (forall q, FlushCurrent q ∈ i :: k -> FlushCurrent q ∈ k' \/ (q = p /\ pb_currentBatch qb' = None)) ->
  (pb_active qb' = false -> pb_currentBatch qb' <> None ->
     FlushCurrent p ∈ k' \/ (pb_active qb = false /\ pb_currentBatch qb <> None)) ->
  (forall q, ShutdownInternal q ∈ i :: k -> ShutdownInternal q ∈ k' \/ (q = p /\ pb_active qb' = false)) ->
  (pb_active qb' = true -> pb_active qb = true) ->
  ShInv down (mkSystem w' (<[t := k']> (s_threads s) ++ sp) off).
Proof.
  intros Hf Hfs Htm Hoe Hw Hwg Hcl Hmono Hwc Hwcs Hfl Hfl' Hdn Hact'.
  assert (Hlk : forall q qq, w_pbs w' !! q = Some qq ->
    (q = p /\ qq = qb') \/ (q <> p /\ w_pbs (s_world s) !! q = Some qq)).
  { intros q qq Hq. rewrite Hp' in Hq. apply list_lookup_insert_Some in Hq as [(-> & -> & _)|[? ?]]; auto. }
  destruct HI as [I1 I2 I3 I4 I5 I6 I7 I8 I9]. split; simpl.
  - by rewrite Hp', length_insert.
  - intros x [?|[->|?]]%elem_of_update; auto.
  - intros q qq [ [-> ->]|[_ Hq]]%Hlk; [done|by eapply I3].
  - pose proof (icount_update isRelease _ _ _ k' sp Ht). lia.
  - intros q qq Hq%Hlk. pose proof (icount_update (inWG q) _ _ _ k' sp Ht) as Hu. specialize (Hwg q).
    unfold onlyAt in Hwg. destruct Hq as [ [-> ->]|[Hne Hq]].
    + rewrite !decide_True in Hwg by done. specialize (I5 p qb Hp). lia.
    + rewrite !decide_False in Hwg by done. specialize (I5 q qq Hq). lia.
  - intros q qq Hq%Hlk. pose proof (icount_update (isClose q) _ _ _ k' sp Ht) as Hu. specialize (Hcl q).
    unfold onlyAt in Hcl. destruct Hq as [ [-> ->]|[Hne Hq]].
    + rewrite !decide_True in Hcl by done. specialize (I6 p qb Hp). lia.
    + rewrite !decide_False in Hcl by done. specialize (I6 q qq Hq). lia.
  - intros x [Hx|[->|Hx]]%elem_of_update; [|done|auto]. rewrite Hp'. eapply waitsClosed_mono; eauto.
  - intros q qq Hq Hact Hcur.
    assert (Hold : (exists x, x ∈ s_threads s /\ FlushCurrent q ∈ x) -> (q = p -> pb_currentBatch qb' <> None) ->
      exists x, x ∈ <[t := k']> (s_threads s) ++ sp /\ FlushCurrent q ∈ x).
    { intros (x & Hx & Hin) Hqp. apply elem_of_updated in Hx as [->|Hx]; [|by exists x].
      destruct (Hfl q Hin) as [?|[-> ?]]; [|by destruct Hqp]. exists k'. split; [apply k'_updated|done]. }
    apply Hlk in Hq as [ [-> ->]|[Hne Hq]]; [|apply Hold; [by eapply I8|done]].
    destruct (Hfl' Hact Hcur) as [?|[? ?]]; [exists k'; split; [apply k'_updated|done]|].
    apply Hold; [by eapply I8|done].
  - intros q qq Hd Hq Hact. apply Hlk in Hq.
    assert (exists x, x ∈ s_threads s /\ ShutdownInternal q ∈ x) as (x & Hx & Hin).
    { destruct Hq as [ [-> ->]|[_ Hq]]; [eapply I9|eapply I9]; eauto. }
    apply elem_of_updated in Hx as [->|Hx]; [|by exists x]. destruct (Hdn q Hin) as [?|[-> Hf']].
    + exists k'. split; [apply k'_updated|done].
    + destruct Hq as [ [_ ->]|[? _]]; [congruence|done].
Qed.
End Update.

(** ** A measure that every step except the firing of a timer decreases *)
Definition consumes (i : ins) : nat :=
  match i with ShardedConsume _ _ _ => 2 | Consume _ _ _ _ => 1 | _ => 0 end.
Definition weight (i : ins) : nat :=
  match i with
  | ShutdownInternal _ => 9
  | FlushCurrent _ => 6
  | Flush _ _ => 5
  | ExecuteSend _ _ => 4
  | TimerLoop _ => 2
  | Send _ _ | StopWGDone _ | Release | CloseShutdownCh _ | StopWGWait _ => 1
  | _ => 0
  end.
Definition smaller (k0 k' : thread) (sp : list thread) : Prop :=
  let c := (sum_list_with consumes k' + icount consumes sp)%nat in
  (c < sum_list_with consumes k0)%nat \/
  (c = sum_list_with consumes k0 /\
   (sum_list_with weight k' + icount weight sp < sum_list_with weight k0)%nat).

(** What a goroutine of a sharded batcher may do: it never panics, and when it
    goes on the invariant is kept. *)
Definition goodOutcome (down : bool) (s : sys) (t : nat) (c : choice) (i : ins) (k : thread) (o : outcome Ctx Req C) : Prop :=
  match o with
  | Panic => False
  | Blocked =>
      match i with
      | ExecuteSend _ _ => w_workers (s_world s) = 0%nat
      | StopWGWait p => exists qb, w_pbs (s_world s) !! p = Some qb /\ pb_stopWG qb <> 0%nat
      | TimerLoop p => c_timer c = true \/ exists qb, w_pbs (s_world s) !! p = Some qb /\ pb_shutdownCh qb = false
      | _ => False
      end
  | Next k' sp w' =>
      ShInv down (mkSystem w' (<[t := k']> (s_threads s) ++ sp) (s_offered s)) /\
      ((exists p, i = TimerLoop p /\ c_timer c = true) \/ smaller (i :: k) k' sp)
  end.

Lemma sum_flush f p (fl : list (batch Ctx Req)) :
  (forall t, f (Flush p t) = 0%nat) -> sum_list_with f (map (Flush p) fl) = 0%nat.
Proof. intros Hf. induction fl; simpl; rewrite ?Hf; auto. Qed.

Ltac counts :=
  unfold onlyAt, b2n, icount; simpl; intros; repeat case_decide; subst; simpl in *; try lia.

(** How the shapes unfold. *)
Lemma form_main i k :
  match i with
  | ShardedConsume _ _ _ | Consume _ _ _ _ | ShutdownInternal _ | CloseShutdownCh _ | StopWGWait _ => True
  | _ => False
  end -> threadForm (i :: k) -> mainInstr i /\ Forall mainInstr k.
Proof. intros Hi Hf. inversion Hf as [? Hm| | | | | | | | |]; subst; try done. by inversion Hm. Qed.

Lemma form_Flush p t k : threadForm (Flush p t :: k) -> (p < shardCount)%nat /\ threadForm (ExecuteSend p t :: k).
Proof.
  intros Hf. inversion Hf as [? Hm| | | | | | | | |]; subst; [inversion Hm; subst|]; (split; [done|by constructor]).
Qed.
Lemma form_ExecuteSend p t k : threadForm (ExecuteSend p t :: k) -> (p < shardCount)%nat /\ threadForm k.
Proof.
  intros Hf. inversion Hf as [? Hm|? ? ? ? Hm| | | | | | | |]; subst.
  - by inversion Hm.
  - split; [done|by constructor].
  - split; [done|by constructor].
Qed.
Lemma form_FlushCurrent p k :
  threadForm (FlushCurrent p :: k) ->
  (p < shardCount)%nat /\ threadForm k /\ forall t, threadForm (Flush p t :: k).
Proof.
  intros Hf. inversion Hf as [? Hm| | | | | | | | |]; subst.
  - inversion Hm; subst. split; [done|]. split; [by constructor|]. intros t. constructor. by constructor.
  - split; [done|]. split; intros; by constructor.
Qed.
Lemma form_TimerLoop p k : threadForm (TimerLoop p :: k) -> (p < shardCount)%nat /\ k = [].
Proof. intros Hf. inversion Hf as [? Hm| | | | | | | | |]; subst; [by inversion Hm|done]. Qed.
Lemma form_Send p t k : threadForm (Send p t :: k) -> (p < shardCount)%nat /\ k = [StopWGDone p; Release].
Proof. intros Hf. inversion Hf as [? Hm| | | | | | | | |]; subst; [by inversion Hm|done]. Qed.
Lemma form_StopWGDone p k : threadForm (StopWGDone p :: k) -> (p < shardCount)%nat /\ (k = [] \/ k = [Release]).
Proof. intros Hf. inversion Hf as [? Hm| | | | | | | | |]; subst; [by inversion Hm|auto..]. Qed.
Lemma form_Release k : threadForm (Release :: k) -> k = [].
Proof. intros Hf. inversion Hf as [? Hm| | | | | | | | |]; subst; [by inversion Hm|done]. Qed.
Lemma form_cases i k : threadForm (i :: k) ->
  match i with
  | ShardedConsume _ _ _ | Consume _ _ _ _ | Flush _ _ | ExecuteSend _ _ | Send _ _ | StopWGDone _ | Release
  | FlushCurrent _ | TimerLoop _ | ShutdownInternal _ | CloseShutdownCh _ | StopWGWait _ => True
  | _ => False
  end.
Proof. intros Hf. inversion Hf as [? Hm| | | | | | | | |]; subst; try done. inversion Hm; subst. by destruct i. Qed.

Section Step.
Context (down : bool) (s : sys) (t : nat) (c : choice) (i : ins) (k : thread).
Hypothesis HI : ShInv down s.
Hypothesis Ht : s_threads s !! t = Some (i :: k).

Lemma step_form : threadForm (i :: k).
Proof. apply (sh_form _ _ HI). by eapply list_elem_of_lookup_2. Qed.

Lemma step_waits : waitsClosed (w_pbs (s_world s)) (i :: k).
Proof. apply (sh_wait _ _ HI). by eapply list_elem_of_lookup_2. Qed.

Lemma shard_lookup p : (p < shardCount)%nat -> exists qb, w_pbs (s_world s) !! p = Some qb.
Proof. intros Hp. apply lookup_lt_is_Some_2. by rewrite (sh_len _ _ HI). Qed.

Local Abbreviation good := (goodOutcome down s t c i k (exec cfg mergeCtx GetKey c i k (s_world s))).

(** An instruction that is kept in the rest of the goroutine. *)
Ltac keeps :=
  let q := fresh in let Hin := fresh in
  intros q Hin; apply elem_of_cons in Hin as [Hin|Hin];
  [first [done | injection Hin as ->; right; done]
  |left; first [exact Hin | rewrite ?elem_of_app, ?elem_of_cons; by auto 6]].

(** The partition [p] of the instruction, before and after. *)
Ltac update p qb qb' Hq :=
  eapply (ShInv_update _ _ _ _ _ _ _ p qb qb' down HI Ht Hq); try done; try (by counts); try keeps;
  try (intros ? Hnil; by apply not_elem_of_nil in Hnil); try (simpl; symmetry; by apply list_insert_id); try (by auto).

Ltac start p :=
  let qb := fresh "qb" in
  destruct (shard_lookup p) as [qb Hq]; [done|]; destruct (sh_pb _ _ HI _ _ Hq) as [Htm Hoe];
  simpl; unfold with_pb; rewrite ?Hq.

Lemma step_ShardedConsume ctx req d : i = ShardedConsume ctx req d -> good.
Proof.
  intros Ei. pose proof step_form as Hf. pose proof step_waits as Hw. rewrite Ei in *. simpl. rewrite (sh_len _ _ HI).
  destruct (Nat.eqb_spec shardCount 0); [lia|]. split; [|right; left; simpl; lia].
  set (p := Z.to_nat _). assert (Hp : (p < shardCount)%nat).
  { unfold p. pose proof (Z.mod_pos_bound (u64 (u64 (w_next (s_world s) + 1) - 1)) (Z.of_nat shardCount)). lia. }
  apply form_main in Hf as [_ Hk]; [|done]. start p. update p qb qb Hq.
  - apply tf_main. by constructor.
  - simpl. apply waitsClosed_cons; [done|]. eapply waitsClosed_tail; [|exact Hw]; done.
Qed.

Lemma step_Flush p tk : i = Flush p tk -> good.
Proof.
  intros Ei. pose proof step_form as Hf. pose proof step_waits as Hw. rewrite Ei in *.
  apply form_Flush in Hf as [Hp Hf]. start p. split; [|right; right; simpl; lia].
  update p qb (set_stopWG (S (pb_stopWG qb)) qb) Hq.
  - simpl. apply waitsClosed_cons; [done|]. apply (waitsClosed_mono _ _ qb); [done..|]. eapply waitsClosed_tail; [|exact Hw]; done.
Qed.

Lemma step_ExecuteSend p tk : i = ExecuteSend p tk -> good.
Proof.
  intros Ei. pose proof step_form as Hf. pose proof step_waits as Hw. rewrite Ei in *.
  apply form_ExecuteSend in Hf as [Hp Hf]. start p.
  destruct (w_workers (s_world s)) as [|n] eqn:Ew; [done|]. split; [|right; right; simpl; lia].
  update p qb qb Hq.
  - intros x ->%list_elem_of_singleton. by constructor.
  - simpl. eapply waitsClosed_tail; [|exact Hw]; done.
  - intros x ->%list_elem_of_singleton. no_wait.
Qed.

Lemma step_StopWGDone p : i = StopWGDone p -> good.
Proof.
  intros Ei. pose proof step_form as Hf. pose proof step_waits as Hw. rewrite Ei in *.
  apply form_StopWGDone in Hf as [Hp Hf]. start p.
  pose proof (sh_wg _ _ HI _ _ Hq) as Hwg. pose proof (icount_update (inWG p) _ _ _ [] [] Ht) as Hu.
  unfold icount in Hu at 3. simpl in Hu. rewrite decide_True in Hu by done.
  destruct (pb_stopWG qb) as [|n] eqn:En; [lia|]. split; [|right; right; simpl; lia].
  update p qb (set_stopWG n qb) Hq.
  - destruct Hf as [->| ->]; [by apply tf_main|apply tf_worker_end].
  - destruct Hf as [->| ->]; no_wait.
Qed.

Lemma step_Release : i = Release -> good.
Proof.
  intros Ei. pose proof step_form as Hf. rewrite Ei in *. apply form_Release in Hf as ->.
  start 0%nat. split; [|right; right; simpl; lia]. update 0%nat qb qb Hq.
  - by apply tf_main.
  - no_wait.
Qed.

Lemma step_FlushCurrent p : i = FlushCurrent p -> good.
Proof.
  intros Ei. pose proof step_form as Hf. pose proof step_waits as Hw. rewrite Ei in *.
  apply form_FlushCurrent in Hf as (Hp & Hf & Hf'). start p.
  destruct (flushCurrent_some (w_now (s_world s)) qb Htm Hoe) as (qb' & a & -> & (Q1 & Q2 & Q3 & Q4 & Q5) & Hcur & Ha).
  apply waitsClosed_tail in Hw; [|done]. destruct a as [tk| |]; [|done|].
  - split; [|right; right; simpl; lia]. update p qb qb' Hq; try congruence.
    + rewrite Q2, Q4. counts.
    + simpl. apply waitsClosed_cons; [done|]. apply (waitsClosed_mono _ _ qb); [done|by rewrite Q2|done].
  - split; [|right; right; simpl; lia]. update p qb qb' Hq; try congruence.
    + rewrite Q2, Q4. counts.
    + simpl. apply (waitsClosed_mono _ _ qb); [done|by rewrite Q2|done].
Qed.

Lemma step_TimerLoop p : i = TimerLoop p -> good.
Proof.
  intros Ei. pose proof step_form as Hf. rewrite Ei in *. apply form_TimerLoop in Hf as [Hp ->]. start p.
  destruct (c_timer c) eqn:Ec.
  - destruct (pb_timer qb) as [ [dl|]|] eqn:Et; simpl; try (by left).
    destruct (_ <=? _); [|by left]. split; [|left; by exists p].
    update p qb (set_timer (Some None) qb) Hq; [by apply tf_timer_flush|no_wait].
  - destruct (pb_shutdownCh qb) eqn:Es; [|right; by exists qb]. split; [|right; right; simpl; lia].
    update p qb qb Hq; [by apply tf_timer_end|no_wait].
Qed.

Lemma step_ShutdownInternal p : i = ShutdownInternal p -> good.
Proof.
  intros Ei. pose proof step_form as Hf. pose proof step_waits as Hw. rewrite Ei in *.
  apply form_main in Hf as [Hp Hk]; [|done]. apply waitsClosed_tail in Hw; [|done]. start p.
  destruct (pb_active qb) eqn:Ea; (split; [|right; right; simpl; lia]).
  - update p qb (set_inactive qb) Hq.
    + apply tf_main. by repeat constructor.
    + rewrite Ea. counts.
    + simpl. apply (waitsClosed_mono _ p qb (set_inactive qb)) in Hw; [|done..].
      intros [|x1 [|x2 [|x3 k1]]] q k2 Eq; simplify_eq/=.
      * left. left.
      * destruct (Hw k1 q k2 eq_refl) as [?|?]; [left|by right]. do 3 right. done.
    + intros _ _. left. right. left.
  - update p qb qb Hq; by apply tf_main.
Qed.

Lemma step_CloseShutdownCh p : i = CloseShutdownCh p -> good.
Proof.
  intros Ei. pose proof step_form as Hf. pose proof step_waits as Hw. rewrite Ei in *.
  apply form_main in Hf as [Hp Hk]; [|done]. start p.
  pose proof (sh_close _ _ HI _ _ Hq) as Hcl. pose proof (icount_update (isClose p) _ _ _ [] [] Ht) as Hu.
  unfold icount in Hu at 3. simpl in Hu. rewrite decide_True in Hu by done.
  destruct (pb_shutdownCh qb) eqn:Es; [simpl in Hcl; lia|]. split; [|right; right; simpl; lia].
  update p qb (set_shutdownCh true qb) Hq.
  - by apply tf_main.
  - rewrite Es. counts.
  - simpl. intros k1 q k2 ->. destruct (decide (q = p)) as [->|Hne].
    + right. eexists. rewrite list_lookup_insert_eq by (by eapply lookup_lt_Some). done.
    + destruct (Hw (CloseShutdownCh p :: k1) q k2 eq_refl) as [Hc|(q0 & Hq0 & ?)].
      * apply elem_of_cons in Hc as [ [=]|?]; [done|by left].
      * right. exists q0. by rewrite list_lookup_insert_ne.
Qed.

Lemma step_StopWGWait p : i = StopWGWait p -> good.
Proof.
  intros Ei. pose proof step_form as Hf. pose proof step_waits as Hw. rewrite Ei in *.
  apply form_main in Hf as [Hp Hk]; [|done]. apply waitsClosed_tail in Hw; [|done]. start p.
  destruct (pb_stopWG qb) eqn:En; [|exists qb; split; [done|by rewrite En]].
  split; [|right; right; simpl; lia]. update p qb qb Hq; by apply tf_main.
Qed.

Hypothesis HS : SysInv cfg s.

(** The callbacks the instruction holds are due. *)
Lemma step_tokens : exists T, DoneInv (w_dones (s_world s)) (tokens (instr_holds i) ++ T) (length (s_offered s)).
Proof.
  destruct (flat_map_lookup thread_holds _ _ _ Ht) as (rest & E & _).
  pose proof (iv_done _ _ _ _ _ HS) as HD.
  exists (tokens (thread_holds k ++ rest ++ pbs_holds (w_pbs (s_world s)))). rewrite <- tokens_app.
  eapply DoneInv_proper; [|done|exact HD]. unfold tokens. apply Permutation_flat_map. rewrite E. simpl.
  solve_Permutation.
Qed.

Lemma step_Consume p ctx req d : i = Consume p ctx req d -> good.
Proof.
  intros Ei. pose proof step_form as Hf. pose proof step_waits as Hw. pose proof step_tokens as [T HD].
  assert (exists j, d = Ext j) as [j ->].
  { destruct (iv_pend _ _ _ _ _ HS (mkHold Pend req [d])) as [j [= Hj]]; [|done|by exists j].
    apply elem_of_app. left. apply list_elem_of_In, in_flat_map. exists (i :: k).
    split; [apply list_elem_of_In; by eapply list_elem_of_lookup_2|]. rewrite Ei. left. done. }
  rewrite Ei in *. apply form_main in Hf as [Hp Hk]; [|done]. apply waitsClosed_tail in Hw; [|done]. start p.
  destruct (consumeInternal_some (w_now (s_world s)) ctx req j qb (w_dones (s_world s)) T _ Htm HD)
    as (qb' & s' & fl & -> & (Q1 & Q2 & Q3 & Q4 & Q5)).
  assert (Hsum : forall f, (forall t, f (Flush p t) = 0%nat) -> f (FlushCurrent p) = 0%nat ->
    sum_list_with f (map (Flush p) fl ++ (if pb_active qb then [] else [FlushCurrent p]) ++ k) = sum_list_with f k).
  { intros f Hf1 Hf2. rewrite !sum_list_with_app, sum_flush by done. destruct (pb_active qb); simpl; lia. }
  split; [|right; left; unfold icount; rewrite Hsum by done; simpl; lia].
  update p qb qb' Hq; try congruence.
  - apply tf_main. apply Forall_app. split; [apply Forall_map, Forall_true; done|].
    apply Forall_app. split; [|done]. destruct (pb_active qb); by repeat constructor.
  - rewrite Hsum by done. counts.
  - intros q. rewrite Hsum, Q5 by done. counts.
  - intros q. rewrite Hsum, Q2, Q4 by done. counts.
  - simpl. apply (waitsClosed_mono _ _ qb); [done|by rewrite Q2|]. rewrite app_assoc. apply waitsClosed_app; [|done].
    intros q [Hq'|Hq']%elem_of_app; [by apply list_elem_of_fmap in Hq' as (? & [=] & _)|].
    destruct (pb_active qb); [by apply not_elem_of_nil in Hq'|by apply list_elem_of_singleton in Hq'].
  - intros Ha _. rewrite Q4 in Ha. rewrite Ha. left. set_solver.
Qed.

Lemma step_Send p tk : i = Send p tk -> good.
Proof.
  intros Ei. pose proof step_form as Hf. pose proof step_tokens as [T HD]. rewrite Ei in *.
  apply form_Send in Hf as [Hp ->]. start p. unfold tokens in HD. simpl in HD. rewrite app_nil_r in HD.
  destruct (multiOnDone_ok (b_done tk) (c_result c) T _ _ HD) as (s' & -> & _).
  split; [|right; right; simpl; lia]. update p qb qb Hq.
  - by apply tf_worker_done.
  - no_wait.
Qed.

(** Every goroutine of a sharded batcher behaves. *)
Lemma step_good : good.
Proof.
  pose proof (form_cases _ _ step_form) as Hi.
  assert (exists j, i = j) as [j Ej] by eauto. rewrite Ej in Hi. destruct j; try done.
  - by eapply step_ShardedConsume.
  - by eapply step_Consume.
  - by eapply step_Flush.
  - by eapply step_ExecuteSend.
  - by eapply step_Send.
  - by eapply step_StopWGDone.
  - by eapply step_Release.
  - by eapply step_FlushCurrent.
  - by eapply step_TimerLoop.
  - by eapply step_ShutdownInternal.
  - by eapply step_CloseShutdownCh.
  - by eapply step_StopWGWait.
Qed.
End Step.

(** ** Progress *)
Definition quiet (s : sys) : Prop :=
  forall k, k ∈ s_threads s -> k = [] \/
    exists p qb, k = [TimerLoop p] /\ w_pbs (s_world s) !! p = Some qb /\ pb_shutdownCh qb = false.

Definition go : choice := mkChoice None false.
Definition canStep (s : sys) (t : nat) : Prop :=
  match stepThread cfg mergeCtx GetKey t go s with Next _ _ _ => True | _ => False end.
#[local] Instance canStep_dec s t : Decision (canStep s t).
Proof. unfold canStep. destruct (stepThread _ _ _ _ _ _); apply _. Defined.

Section Progress.
Context (down : bool) (s : sys).
Hypothesis HI : ShInv down s.
Hypothesis HS : SysInv cfg s.
Hypothesis Hno : forall t, ~ canStep s t.

(** A goroutine that cannot go on is blocked where it may be. *)
Lemma blocked_at i k :
  i :: k ∈ s_threads s ->
  match i with
  | ExecuteSend _ _ => w_workers (s_world s) = 0%nat
  | StopWGWait p => exists qb, w_pbs (s_world s) !! p = Some qb /\ pb_stopWG qb <> 0%nat
  | TimerLoop p => exists qb, w_pbs (s_world s) !! p = Some qb /\ pb_shutdownCh qb = false
  | _ => False
  end.
Proof.
  intros [t Ht]%list_elem_of_lookup. pose proof (step_good down s t go i k HI Ht HS) as Hg.
  specialize (Hno t). unfold canStep, stepThread in Hno. rewrite Ht in Hno.
  destruct (exec _ _ _ _ _ _ _); [|done|by destruct Hno]. destruct i; try done.
  by destruct Hg.
Qed.

Lemma no_worker : w_workers (s_world s) <> 0%nat.
Proof.
  intros Hw. pose proof (sh_workers _ _ HI) as Hr. destruct (icount_pos isRelease (s_threads s)) as (k & i & Hk & Hi & Hp); [lia|].
  pose proof (sh_form _ _ HI k Hk) as Hf. destruct k as [|j k]; [by apply not_elem_of_nil in Hi|].
  pose proof (blocked_at j k Hk) as Hb.
  assert (Hmain : forall l, Forall mainInstr l -> i ∈ l -> False).
  { intros l Hl Hin. eapply Forall_forall in Hl; [|exact Hin]. destruct i; simpl in *; try lia; done. }
  inversion Hf; subst; try done; eauto.
  - apply elem_of_cons in Hi as [->|Hi]; [simpl in Hp; lia|by eauto].
  - repeat (apply elem_of_cons in Hi as [->|Hi]; [simpl in Hp; lia|]). by apply not_elem_of_nil in Hi.
  - repeat (apply elem_of_cons in Hi as [->|Hi]; [simpl in Hp; lia|]). by apply not_elem_of_nil in Hi.
Qed.

Lemma blocked_quiet : quiet s.
Proof.
  intros [|i k] Hk; [by left|]. right. pose proof (blocked_at i k Hk) as Hb. pose proof (sh_form _ _ HI _ Hk) as Hf.
  pose proof no_worker as Hnw. destruct i; try done.
  - apply form_TimerLoop in Hf as [_ ->]. destruct Hb as (qb & ? & ?). by exists p, qb.
  - exfalso. destruct Hb as (qb & Hq & Hwg). rewrite (sh_wg _ _ HI _ _ Hq) in Hwg.
    destruct (icount_pos (inWG p) (s_threads s)) as (k' & i' & Hk' & Hi' & Hpos); [lia|].
    destruct k' as [|j k']; [by apply not_elem_of_nil in Hi'|].
    pose proof (blocked_at j k' Hk') as Hb'. pose proof (sh_form _ _ HI _ Hk') as Hf'. destruct j; try done.
    + apply form_TimerLoop in Hf' as [_ ->]. apply list_elem_of_singleton in Hi' as ->. simpl in Hpos.
      destruct (decide (p0 = p)) as [->|]; [|lia]. destruct Hb' as (qb' & Hq' & Hs'). simplify_eq.
      destruct (sh_wait _ _ HI _ Hk [] p k eq_refl) as [Hn|(qb2 & ? & ?)]; [by apply not_elem_of_nil in Hn|congruence].
    + apply form_main in Hf' as [_ Hm]; [|done]. apply elem_of_cons in Hi' as [->|Hi']; [simpl in Hpos; lia|].
      eapply Forall_forall in Hm; [|exact Hi']. destruct i'; simpl in *; try lia; done.
Qed.
End Progress.

(** ** Draining *)
Local Abbreviation api := (shardedCalls (Ctx := Ctx) (Req := Req) shardCount).

(** The state after [EShutdown] or a new call: a goroutine more. *)
Lemma ShInv_spawn down down' s k off :
  ShInv down s -> Forall mainInstr k ->
  sum_list_with isRelease k = 0%nat -> (forall p, sum_list_with (inWG p) k = 0%nat) ->
  (forall p, sum_list_with (isClose p) k = 0%nat) -> (forall p, StopWGWait p ∉ k) ->
  (down' = true -> down = true \/ forall p, (p < shardCount)%nat -> ShutdownInternal p ∈ k) ->
  ShInv down' (mkSystem (s_world s) (s_threads s ++ [k]) off).
Proof.
  intros [I1 I2 I3 I4 I5 I6 I7 I8 I9] Hk Hr Hw Hc Hs Hd.
  assert (Hcnt : forall f, sum_list_with f k = 0%nat -> icount f (s_threads s ++ [k]) = icount f (s_threads s)).
  { intros f Hf. unfold icount. rewrite sum_list_with_app. simpl. lia. }
  split; simpl; try done.
  - intros x [?|Hx]%elem_of_app; [auto|]. apply list_elem_of_singleton in Hx as ->. by apply tf_main.
  - by rewrite Hcnt.
  - intros p qb Hp. rewrite Hcnt by done. by apply I5.
  - intros p qb Hp. rewrite Hcnt by done. by apply I6.
  - intros x [?|Hx]%elem_of_app; [auto|]. apply list_elem_of_singleton in Hx as ->. by apply waitsClosed_none.
  - intros p qb Hp Ha Hn. destruct (I8 p qb Hp Ha Hn) as (x & ? & ?). exists x. rewrite elem_of_app. auto.
  - intros p qb Hdn Hp Ha. destruct (Hd Hdn) as [Hd'|Hall].
    + destruct (I9 p qb Hd' Hp Ha) as (x & ? & ?). exists x. rewrite elem_of_app. auto.
    + exists k. rewrite elem_of_app, list_elem_of_singleton. split; [auto|]. apply Hall.
      rewrite <- I1. by eapply lookup_lt_Some.
Qed.

Lemma ShInv_EShutdown down s :
  ShInv down s -> ShInv true (mkSystem (s_world s) (s_threads s ++ [call_Shutdown api]) (s_offered s)).
Proof.
  intros HI. assert (Hz : forall f : ins -> nat, (forall p, f (ShutdownInternal p) = 0%nat) ->
    sum_list_with f (map ShutdownInternal (seq 0 shardCount)) = 0%nat).
  { intros f Hf. induction (seq 0 shardCount); simpl; rewrite ?Hf; auto. }
  eapply ShInv_spawn; [exact HI|..]; simpl; try (by intros; apply Hz); try (by apply Hz).
  - apply Forall_map, Forall_forall. intros p Hp%elem_of_seq. simpl. lia.
  - intros p (q & [=] & _)%list_elem_of_fmap.
  - intros _. right. intros p Hp. apply list_elem_of_fmap. exists p. split; [done|]. apply elem_of_seq. lia.
Qed.

Lemma ShInv_mono s : ShInv true s -> ShInv false s.
Proof. intros [? ? ? ? ? ? ? ? ?]. by split. Qed.

Lemma ShInv_step e s s' :
  ShInv false s -> SysInv cfg s -> sysStep cfg mergeCtx GetKey api e s = Some s' -> ShInv false s'.
Proof.
  intros HI HS Hs. destruct e as [t c|d|ctx req|]; simpl in Hs.
  - unfold stepThread in Hs. destruct (s_threads s !! t) as [ [|i k]|] eqn:Et; try done.
    pose proof (step_good false s t c i k HI Et HS) as Hg. destruct (exec _ _ _ _ _ _ _); simplify_eq. apply Hg.
  - destruct (_ <? _); simplify_eq. by destruct HI.
  - simplify_eq. eapply ShInv_spawn; [exact HI|..]; try done; [by repeat constructor|].
    intros p [=]%list_elem_of_singleton.
  - simplify_eq. by eapply ShInv_mono, ShInv_EShutdown.
Qed.

Lemma smaller_icount (ts : list thread) t k0 k' sp :
  ts !! t = Some k0 -> smaller k0 k' sp ->
  let ts' := <[t := k']> ts ++ sp in
  (icount consumes ts' < icount consumes ts)%nat \/
  (icount consumes ts' = icount consumes ts /\ (icount weight ts' < icount weight ts)%nat).
Proof.
  intros Ht Hs. pose proof (icount_update consumes _ _ _ k' sp Ht). pose proof (icount_update weight _ _ _ k' sp Ht).
  destruct Hs as [?|[? ?]]; simpl; lia.
Qed.

Context (now : Z) (empty : C) (s0 : sys).
Hypothesis Hstart : started cfg now empty maxWorkers api s0.

Lemma drains down n m s :
  icount consumes (s_threads s) = n -> icount weight (s_threads s) = m ->
  ShInv down s -> SysInv cfg s -> Forall (valid (Ctx := Ctx)) (s_offered s) ->
  MinSize cfg + total cfg (s_offered s) < 2 ^ 63 ->
  exists es s', sysRun cfg mergeCtx GetKey api es s = Some s' /\ ShInv down s' /\ SysInv cfg s' /\ quiet s' /\
    s_offered s' = s_offered s.
Proof.
  revert m s. induction n as [n IHn] using lt_wf_ind. intros m. induction m as [m IHm] using lt_wf_ind.
  intros s Hn Hm HI HS Hv Hb. destruct (decide (Exists (canStep s) (seq 0 (length (s_threads s))))) as [He|He].
  - apply Exists_exists in He as (t & _ & Ht). unfold canStep, stepThread in Ht.
    destruct (s_threads s !! t) as [ [|i k]|] eqn:Et; try done.
    pose proof (step_good down s t go i k HI Et HS) as Hg.
    destruct (exec cfg mergeCtx GetKey go i k (s_world s)) as [| |k' sp w'] eqn:Ee; try done.
    destruct Hg as [HI' [(p & _ & [=])|Hsm]]. pose proof (smaller_icount _ _ _ _ _ Et Hsm) as Hlt.
    set (s1 := mkSystem w' (<[t := k']> (s_threads s) ++ sp) (s_offered s)) in *.
    assert (Hstep : sysStep cfg mergeCtx GetKey api (ERun t go) s = Some s1).
    { simpl. unfold stepThread. by rewrite Et, Ee. }
    assert (HS1 : SysInv cfg s1) by (eapply sysStep_ok; [done|done|exact Hstart|done|exact Hstep|done..]).
    assert (exists es s', sysRun cfg mergeCtx GetKey api es s1 = Some s' /\ ShInv down s' /\ SysInv cfg s' /\
      quiet s' /\ s_offered s' = s_offered s1) as (es & s' & Hr & Hrest).
    { destruct Hlt as [Hlt|[Heq Hlt]]; [eapply IHn|eapply IHm]; try done; simpl; lia. }
    exists (ERun t go :: es), s'. split; [|done]. cbn [sysRun]. rewrite Hstep. exact Hr.
  - exists [], s. split_and!; try done. eapply blocked_quiet; [done|done|]. intros t Ht. apply He.
    apply Exists_exists. exists t. split; [|done]. apply elem_of_seq. split; [lia|]. simpl.
    unfold canStep, stepThread in Ht. destruct (s_threads s !! t) eqn:Et; [by eapply lookup_lt_Some|done].
Qed.

(** Once a shutdown has been called and nothing can go on, all is done. *)
Lemma quiet_down s : ShInv true s -> quiet s -> (forall k, k ∈ s_threads s -> k = []) /\ idle s.
Proof.
  intros HI Hq.
  assert (Hnot : forall i k, k ∈ s_threads s -> i ∈ k -> exists p, i = TimerLoop p).
  { intros i k Hk Hi. destruct (Hq k Hk) as [->|(p & qb & -> & _)]; [by apply not_elem_of_nil in Hi|].
    apply list_elem_of_singleton in Hi as ->. by exists p. }
  assert (Hact : forall p qb, w_pbs (s_world s) !! p = Some qb -> pb_active qb = false).
  { intros p qb Hp. destruct (pb_active qb) eqn:Ea; [|done].
    destruct (sh_down _ _ HI p qb eq_refl Hp Ea) as (k & Hk & Hi). by destruct (Hnot _ k Hk Hi). }
  assert (Hnil : forall k, k ∈ s_threads s -> k = []).
  { intros k Hk. destruct (Hq k Hk) as [->|(p & qb & -> & Hp & Hs)]; [done|exfalso].
    pose proof (sh_close _ _ HI p qb Hp) as Hc. rewrite Hs, (Hact p qb Hp) in Hc. simpl in Hc.
    destruct (icount_pos (isClose p) (s_threads s)) as (k & i & Hk' & Hi & Hpos); [lia|].
    destruct (Hnot i k Hk' Hi) as [q ->]. simpl in Hpos. lia. }
  split; [done|]. split; [intros k Hk; left; auto|]. intros qb [p Hp]%list_elem_of_lookup.
  destruct (pb_currentBatch qb) eqn:Ec; [|done]. exfalso.
  destruct (sh_flush _ _ HI p qb Hp (Hact p qb Hp)) as (k & Hk & Hi); [by rewrite Ec|].
  rewrite (Hnil k Hk) in Hi. by apply not_elem_of_nil in Hi.
Qed.

(** ** The started batcher *)
Lemma startSharded_eq :
  startSharded cfg now (replicate shardCount (newPartitionBatcher (Ctx := Ctx) (Req := Req) now None)) =
  (replicate shardCount (mkPB None (Some (Some (now + FlushTimeout cfg))) false None now true 1),
   map (fun p => [TimerLoop p]) (seq 0 shardCount)).
Proof.
  destruct (BatchConfig_Validate_ok _ Hcfg) as (_ & Hf & _). unfold startSharded.
  assert (Hs : forall p, Start cfg now p (newPartitionBatcher (Ctx := Ctx) (Req := Req) now None) =
    (mkPB None (Some (Some (now + FlushTimeout cfg))) false None now true 1, [[TimerLoop p]])).
  { intros p. unfold Start. by destruct (Z.leb_spec (FlushTimeout cfg) 0); [lia|]. }
  assert (Hi : imap (Start cfg now) (replicate shardCount (newPartitionBatcher (Ctx := Ctx) (Req := Req) now None)) =
    map (fun p => (mkPB None (Some (Some (now + FlushTimeout cfg))) false None now true 1, [[TimerLoop p]])) (seq 0 shardCount)).
  { apply list_eq. intros j. rewrite list_lookup_imap, list_lookup_fmap. destruct (decide (j < shardCount)%nat).
    - rewrite lookup_replicate_2, lookup_seq_lt by done. simpl. by rewrite Hs.
    - rewrite (proj1 (lookup_replicate_None _ _ _)), lookup_seq_ge by lia. done. }
  rewrite Hi. f_equal.
  - rewrite map_map. simpl. apply list_eq. intros j. rewrite list_lookup_fmap. destruct (decide (j < shardCount)%nat).
    + by rewrite lookup_replicate_2, lookup_seq_lt by done.
    + by rewrite (proj1 (lookup_replicate_None _ _ _)), lookup_seq_ge by lia.
  - rewrite map_map. simpl. clear. induction (seq 0 shardCount); simpl; [done|]. by f_equal.
Qed.

Lemma icount_timers f n m :
  icount f (map (fun p => [TimerLoop p]) (seq n m)) = sum_list_with (fun p => f (TimerLoop p)) (seq n m).
Proof. unfold icount. revert n. induction m as [|m IH]; intros n; simpl; [done|]. rewrite IH. lia. Qed.

Lemma sum_at p n m :
  sum_list_with (fun q => if decide (q = p) then 1 else 0)%nat (seq n m)
  = if decide (n <= p < n + m)%nat then 1%nat else 0%nat.
Proof.
  revert n. induction m as [|m IH]; intros n; simpl; [case_decide; lia|]. rewrite IH. repeat case_decide; lia.
Qed.

Lemma started_ShInv :
  ShInv false (shardedSystem cfg now empty maxWorkers (replicate shardCount (newPartitionBatcher now None))).
Proof.
  unfold shardedSystem. rewrite startSharded_eq.
  assert (Hth : forall k, k ∈ map (fun p => [@TimerLoop Ctx Req p]) (seq 0 shardCount) ->
    exists p, k = [TimerLoop p] /\ (p < shardCount)%nat).
  { intros k (p & -> & Hp%elem_of_seq)%list_elem_of_fmap. exists p. split; [done|lia]. }
  split; simpl; rewrite ?icount_timers; try done.
  - apply length_replicate.
  - intros k (p & -> & Hp)%Hth. by apply tf_timer.
  - intros p qb [-> _]%lookup_replicate_1. done.
  - assert (Hz : forall l, sum_list_with (fun p => isRelease (TimerLoop p)) l = 0%nat) by (induction l; done).
    rewrite Hz. lia.
  - intros p qb [-> Hp]%lookup_replicate_1. simpl. rewrite icount_timers. simpl. rewrite sum_at, decide_True; [done|lia].
  - intros p qb [-> Hp]%lookup_replicate_1. simpl. rewrite icount_timers. simpl.
    assert (Hz : forall l : list nat, sum_list_with (fun _ => 0%nat) l = 0%nat) by (induction l; done). by rewrite Hz.
  - intros k (p & -> & Hp)%Hth. no_wait.
  - intros p qb [-> _]%lookup_replicate_1. done.
Qed.

Lemma ShInv_run es s s' :
  ShInv false s -> SysInv cfg s -> sysRun cfg mergeCtx GetKey api es s = Some s' ->
  Forall (valid (Ctx := Ctx)) (s_offered s') -> MinSize cfg + total cfg (s_offered s') < 2 ^ 63 ->
  ShInv false s' /\ SysInv cfg s'.
Proof.
  revert s. induction es as [|e es IH]; intros s HI HS; [by intros [= ->]|]. cbn [sysRun].
  destruct (sysStep _ _ _ _ _ _) as [s1|] eqn:E; [|done]. cbn [mbind option_bind]. intros Hr Hv Hb.
  apply (IH s1); try done; [by eapply ShInv_step|].
  eapply (sysRun_ok cfg mergeCtx Hcfg Hmax GetKey _ _ _ _ _ [e]); [exact Hstart|exact HS|cbn [sysRun]; by rewrite E|..].
  - destruct (sysRun_offered _ _ _ _ _ _ _ Hr) as [suf Hsuf]. rewrite Hsuf in Hv. by apply Forall_app in Hv as [? _].
  - destruct (sysRun_offered _ _ _ _ _ _ _ Hr) as [suf Hsuf]. rewrite Hsuf in Hv, Hb. apply Forall_app in Hv as [_ Hv].
    unfold total in *. rewrite sumZ_app in Hb. assert (0 <= sumZ (Sizeof (bc_Sizer cfg)) suf); [|lia].
    apply sumZ_nonneg. intros r Hr'. eapply Forall_forall in Hv; [|done]. by apply (Sizeof_nonneg (Ctx := Ctx)).
Qed.
End Liveness.

Section Shutdown.
Context {Ctx Link Req Item C : Type} `{ContextOps Ctx Link} `{Request Req} `{!BatchRequest Ctx Req}.
Context `{!BatchLaws Ctx Req Item} `{LRU nat C}.

(** C9: The batcher over shards never panics and never deadlocks.  After any
    execution, a shutdown can be run to its end: every goroutine, the timers
    and the shutdown call included, ends, and the completion callback of every
    request given to Consume has then been called exactly once. *)
Theorem sharded_shutdown_completes cfg mergeCtx GetKey (now : Z) (empty : C) maxWorkers shardCount shards
    (es : list (event Ctx Req)) s :
  BatchConfig_Validate cfg = None -> MaxSize cfg < 2 ^ 63 -> (0 < maxWorkers)%nat ->
  newShardedBatcher now shardCount = inl shards ->
  sysRun cfg mergeCtx GetKey (shardedCalls (Z.to_nat shardCount)) es
    (shardedSystem cfg now empty maxWorkers shards) = Some s ->
  Forall (valid (Ctx := Ctx) (Item := Item)) (s_offered s) -> MinSize cfg + total cfg (s_offered s) < 2 ^ 63 ->
  (forall t c, stepThread cfg mergeCtx GetKey t c s <> Panic) /\
  exists es' s', sysRun cfg mergeCtx GetKey (shardedCalls (Z.to_nat shardCount)) (EShutdown :: es') s = Some s' /\
    s_offered s' = s_offered s /\ (forall k, k ∈ s_threads s' -> k = []) /\
    map fst (d_calls (w_dones (s_world s'))) ≡ₚ seq 0 (length (s_offered s)).
Proof.
  intros Hcfg Hmax Hw Hnew Hrun Hv Hb.
  pose proof (started_sharded cfg now empty maxWorkers shardCount shards Hnew) as Hst.
  unfold newShardedBatcher in Hnew. destruct (Z.leb_spec shardCount 0); simplify_eq.
  assert (Hn : (0 < Z.to_nat shardCount)%nat) by lia.
  assert (ShInv (Z.to_nat shardCount) maxWorkers false s /\ SysInv cfg s) as [HI HS].
  { eapply ShInv_run; [exact Hcfg|exact Hmax|exact Hn|exact Hw|exact Hst| | |exact Hrun|done|done].
    - by apply started_ShInv.
    - by eapply started_SysInv. }
  split.
  - intros t c. unfold stepThread. destruct (s_threads s !! t) as [ [|i k]|] eqn:Et; try done.
    pose proof (step_good cfg mergeCtx GetKey Hcfg Hmax _ maxWorkers Hn Hw false s t c i k HI Et HS) as Hg.
    by destruct (exec _ _ _ _ _ _ _).
  - pose proof (ShInv_EShutdown cfg Hcfg Hmax _ maxWorkers Hn Hw _ s HI) as HI1.
    set (s1 := mkSystem _ _ _) in HI1.
    assert (Hstep : sysStep cfg mergeCtx GetKey (shardedCalls (Z.to_nat shardCount)) EShutdown s = Some s1) by done.
    assert (HS1 : SysInv cfg s1) by (eapply sysStep_ok; [done|done|exact Hst|exact HS|exact Hstep|done..]).
    destruct (drains cfg mergeCtx GetKey Hcfg Hmax _ maxWorkers Hn Hw now empty _ Hst true _ _ s1 eq_refl eq_refl HI1 HS1)
      as (es' & s' & Hr & HI' & HS' & Hq & Hoff); [done..|].
    exists es', s'. destruct (quiet_down _ maxWorkers Hn Hw s' HI' Hq) as [Hnil Hidle].
    split; [cbn [sysRun]; rewrite Hstep; exact Hr|]. split; [done|]. split; [done|].
    change (s_offered s) with (s_offered s1). rewrite <- Hoff.
    by apply (SysInv_calls cfg _ HS').
Qed.
End Shutdown.

(** The requests of [BatcherFindings], before the shutdown. *)
Lemma sharded_shutdown_completes_witness :
  exists s, sysRun shardConfig None exKey (shardedCalls 1)
      [EConsume "" (exLogs [1%N; 2%N; 3%N; 4%N]); ERun 1 (mkChoice None true)] exSharded = Some s /\
    exists es' s', sysRun shardConfig None exKey (shardedCalls 1) (EShutdown :: es') s = Some s' /\
      map fst (d_calls (w_dones (s_world s'))) ≡ₚ [0%nat].
Proof.
  destruct (sysRun shardConfig None exKey (shardedCalls 1)
    [EConsume "" (exLogs [1%N; 2%N; 3%N; 4%N]); ERun 1 (mkChoice None true)] exSharded) as [s|] eqn:E;
    [|vm_compute in E; discriminate].
  exists s. split; [done|]. assert (s_offered s = [exLogs [1%N; 2%N; 3%N; 4%N]]) as Ho.
  { vm_compute in E. by injection E as <-. }
  destruct (sharded_shutdown_completes (Item := N * string * (N * string * N)) shardConfig None exKey 0 (mkCache 1 []) 2 1
    [newPartitionBatcher 0 None]
    [EConsume "" (exLogs [1%N; 2%N; 3%N; 4%N]); ERun 1 (mkChoice None true)] s) as (_ & es' & s' & Hr & _ & _ & Hp).
  - done.
  - done.
  - lia.
  - done.
  - exact E.
  - rewrite Ho. repeat constructor; left; done.
  - rewrite Ho. vm_compute. reflexivity.
  - exists es', s'. split; [exact Hr|]. rewrite Ho in Hp. exact Hp.
Defined.
