(* ===== verification/ComponentStatus.v ===== *)
(** * Component status (component/componentstatus, service/internal/status)

    Status events, the finite state machine that validates them and the reporter
    that keeps one machine per component instance and notifies its watcher.

    An instance is known by the address of its [InstanceID], a [Z].  The two
    callbacks of the reporter are recorded in the order they were called. *)

From S2P Require Import Prelude Errors.
Local Open Scope Z_scope.

(** ** componentstatus/status.go *)
Inductive Status :=
  | StatusNone | StatusStarting | StatusOK | StatusRecoverableError | StatusPermanentError
  | StatusFatalError | StatusStopping | StatusStopped.

#[export] Instance Status_eq_dec : EqDecision Status.
Proof. solve_decision. Defined.

Definition Status_String (s : Status) : string :=
  match s with
  | StatusStarting => "StatusStarting"
  | StatusOK => "StatusOK"
  | StatusRecoverableError => "StatusRecoverableError"
  | StatusPermanentError => "StatusPermanentError"
  | StatusFatalError => "StatusFatalError"
  | StatusStopping => "StatusStopping"
  | StatusStopped => "StatusStopped"
  | StatusNone => "StatusNone"
  end.

Record Event := mkEvent {
  ev_attributes : list (string * string);
  ev_status : Status;
  ev_err : option error;
  ev_timestamp : Z;
}.

Definition NewEvent (now : Z) (st : Status) (opts : list (Event -> Event)) : Event :=
  foldl (fun event applyOption => applyOption event) (mkEvent [] st None now) opts.

Definition WithAttributes (attributes : list (string * string)) : Event -> Event :=
  fun e => mkEvent attributes (ev_status e) (ev_err e) (ev_timestamp e).
Definition WithError (err : option error) : Event -> Event :=
  fun e => mkEvent (ev_attributes e) (ev_status e) err (ev_timestamp e).

Definition NewRecoverableErrorEvent (now : Z) (err : error) : Event :=
  NewEvent now StatusRecoverableError [WithError (Some err)].
Definition NewPermanentErrorEvent (now : Z) (err : error) : Event :=
  NewEvent now StatusPermanentError [WithError (Some err)].
Definition NewFatalErrorEvent (now : Z) (err : error) : Event :=
  NewEvent now StatusFatalError [WithError (Some err)].

Definition StatusIsError (s : Status) : bool :=
  bool_decide (s = StatusRecoverableError) || bool_decide (s = StatusPermanentError) ||
  bool_decide (s = StatusFatalError).

(** ** service/internal/status/status.go *)

(** The table of [newFSM]. *)
Definition transitions (s : Status) : list Status :=
  match s with
  | StatusNone => [StatusStarting]
  | StatusStarting => [StatusOK; StatusRecoverableError; StatusPermanentError; StatusFatalError; StatusStopping]
  | StatusOK => [StatusOK; StatusRecoverableError; StatusPermanentError; StatusFatalError; StatusStopping]
  | StatusRecoverableError => [StatusRecoverableError; StatusOK; StatusPermanentError; StatusFatalError; StatusStopping]
  | StatusPermanentError => [StatusStopping]
  | StatusFatalError => []
  | StatusStopping => [StatusRecoverableError; StatusPermanentError; StatusFatalError; StatusStopped]
  | StatusStopped => []
  end.

(** A machine; [owner] is the instance its [onTransition] closure reports for. *)
Record fsm := mkFsm { current : Event; owner : Z }.

Definition newFSM (now : Z) (id : Z) : fsm := mkFsm (NewEvent now StatusNone []) id.

Definition errInvalidStateTransition : error := New "invalid state transition".

(** The machine afterwards, or the error. *)
Definition transition (m : fsm) (ev : Event) : fsm + error :=
  if decide (ev_status ev ∈ transitions (ev_status (current m))) then inl (mkFsm ev (owner m))
  else inr (Wrapf "cannot transition from %s to %s: %w"
              [ArgS (Status_String (ev_status (current m))); ArgS (Status_String (ev_status ev))]
              errInvalidStateTransition).

Record reporter := mkReporter {
  fsmMap : gmap Z fsm;
  onStatusChange : list (Z * Event);
  onInvalidTransition : list error;
}.

Definition NewReporter : reporter := mkReporter ∅ [] [].

(** The machine of an instance, made on its first report. *)
Definition componentFSM (r : reporter) (now id : Z) : fsm * reporter :=
  match fsmMap r !! id with
  | Some m => (m, r)
  | None => let m := newFSM now id in
            (m, mkReporter (<[id := m]> (fsmMap r)) (onStatusChange r) (onInvalidTransition r))
  end.

(** [m.transition(ev)] for the machine [m] of [id], with the callbacks. *)
Definition reportTransition (r : reporter) (id : Z) (m : fsm) (ev : Event) : reporter :=
  match transition m ev with
  | inl m' => mkReporter (<[id := m']> (fsmMap r)) (onStatusChange r ++ [(owner m', ev)]) (onInvalidTransition r)
  | inr err => mkReporter (fsmMap r) (onStatusChange r) (onInvalidTransition r ++ [err])
  end.

Definition ReportStatus (r : reporter) (now id : Z) (ev : Event) : reporter :=
  let '(m, r) := componentFSM r now id in reportTransition r id m ev.

Definition ReportOKIfStarting (r : reporter) (now id : Z) : reporter :=
  let '(m, r) := componentFSM r now id in
  if decide (ev_status (current m) = StatusStarting) then reportTransition r id m (NewEvent now StatusOK [])
  else r.

(** ** Histories

    The calls the reporter serialises, whoever made them. *)
Inductive call :=
  | CReport (id : Z) (ev : Event)
  | COKIfStarting (id : Z).

Definition callOf (c : call) : Z := match c with CReport id _ => id | COKIfStarting id => id end.

Definition serve (r : reporter) (c : Z * call) : reporter :=
  match c with
  | (now, CReport id ev) => ReportStatus r now id ev
  | (now, COKIfStarting id) => ReportOKIfStarting r now id
  end.

Definition serveAll (r : reporter) (cs : list (Z * call)) : reporter := foldl serve r cs.

Definition statusOf (r : reporter) (id : Z) : Status :=
  match fsmMap r !! id with Some m => ev_status (current m) | None => StatusNone end.

Definition eventsOf (r : reporter) (id : Z) : list Event :=
  map snd (filter (fun p => p.1 = id) (onStatusChange r)).

(** *** The specification: what one component goes through, on its own *)
Fixpoint lifecycle (s : Status) (cs : list (Z * call)) : list Event * Status :=
  match cs with
  | [] => ([], s)
  | (now, c) :: cs =>
      let ev := match c with CReport _ ev => ev | COKIfStarting _ => NewEvent now StatusOK [] end in
      let asked := match c with CReport _ _ => true | COKIfStarting _ => bool_decide (s = StatusStarting) end in
      if decide (asked = true /\ ev_status ev ∈ transitions s) then
        let '(evs, s') := lifecycle (ev_status ev) cs in (ev :: evs, s')
      else lifecycle s cs
  end.

(** A sequence of statuses that follows the table. *)
Fixpoint path (s : Status) (ss : list Status) : Prop :=
  match ss with
  | [] => True
  | s' :: ss => s' ∈ transitions s /\ path s' ss
  end.

(** ** Proofs *)
Definition Owned (r : reporter) : Prop := forall id m, fsmMap r !! id = Some m -> owner m = id.

Lemma NewReporter_owned : Owned NewReporter.
Proof. intros id m H. simpl in H. by rewrite lookup_empty in H. Qed.

(** What a call does to the machine of its instance. *)
Lemma reportTransition_spec r id m ev :
  owner m = id -> fsmMap r !! id = Some m ->
  let r' := reportTransition r id m ev in
  if decide (ev_status ev ∈ transitions (ev_status (current m)))
  then fsmMap r' = <[id := mkFsm ev id]> (fsmMap r) /\ onStatusChange r' = onStatusChange r ++ [(id, ev)]
  else fsmMap r' = fsmMap r /\ onStatusChange r' = onStatusChange r.
Proof.
  intros Ho Hm. unfold reportTransition, transition. destruct (decide _); simpl; [by rewrite Ho|done].
Qed.

Lemma componentFSM_spec r now id :
  Owned r ->
  let '(m, r') := componentFSM r now id in
  owner m = id /\ fsmMap r' !! id = Some m /\ ev_status (current m) = statusOf r id /\
  onStatusChange r' = onStatusChange r /\ Owned r' /\ (forall j, j <> id -> fsmMap r' !! j = fsmMap r !! j).
Proof.
  intros Ho. unfold componentFSM, statusOf. destruct (fsmMap r !! id) as [m|] eqn:E.
  - split_and!; try done. by apply Ho.
  - simpl. split_and!; try done.
    + by rewrite lookup_insert_eq.
    + intros j m. simpl. rewrite lookup_insert. case_decide; [intros; by simplify_eq/=|apply Ho].
    + intros j Hj. by rewrite lookup_insert_ne.
Qed.

(** One served call: the event it asks for, if it is taken. *)
Definition taken (s : Status) (c : Z * call) : option Event :=
  let ev := match c.2 with CReport _ ev => ev | COKIfStarting _ => NewEvent c.1 StatusOK [] end in
  let asked := match c.2 with CReport _ _ => true | COKIfStarting _ => bool_decide (s = StatusStarting) end in
  if decide (asked = true /\ ev_status ev ∈ transitions s) then Some ev else None.

Lemma lifecycle_cons s c cs :
  lifecycle s (c :: cs) =
    match taken s c with
    | Some ev => let '(evs, s') := lifecycle (ev_status ev) cs in (ev :: evs, s')
    | None => lifecycle s cs
    end.
Proof. destruct c as [now [id ev|id]]; unfold taken; cbn [lifecycle fst snd]; by destruct (decide _). Qed.

Lemma serve_spec r c :
  Owned r ->
  let id := callOf c.2 in
  let r' := serve r c in
  Owned r' /\
  match taken (statusOf r id) c with
  | Some ev => statusOf r' id = ev_status ev /\ onStatusChange r' = onStatusChange r ++ [(id, ev)]
  | None => statusOf r' id = statusOf r id /\ onStatusChange r' = onStatusChange r
  end /\
  (forall j, j <> id -> statusOf r' j = statusOf r j).
Proof.
  intros Ho. destruct c as [now c]. cbn [fst snd]. set (id := callOf c).
  pose proof (componentFSM_spec r now id Ho) as H.
  destruct (componentFSM r now id) as [m r1] eqn:E1. destruct H as (Hm & Hl & Hs & Hc & Ho1 & Hother).
  assert (Hrep : forall ev, let r' := reportTransition r1 id m ev in
    Owned r' /\
    (if decide (ev_status ev ∈ transitions (statusOf r id))
     then statusOf r' id = ev_status ev /\ onStatusChange r' = onStatusChange r ++ [(id, ev)]
     else statusOf r' id = statusOf r id /\ onStatusChange r' = onStatusChange r) /\
    (forall j, j <> id -> statusOf r' j = statusOf r j)).
  { intros ev r'. pose proof (reportTransition_spec r1 id m ev Hm Hl) as Hr. fold r' in Hr. rewrite Hs in Hr.
    destruct (decide _) as [Hin|Hin]; destruct Hr as [Hf Hn]; rewrite Hn, Hc.
    - split_and!; [|unfold statusOf at 1; by rewrite Hf, lookup_insert_eq|done|].
      + intros j mj. rewrite Hf, lookup_insert. case_decide; [intros; by simplify_eq/=|apply Ho1].
      + intros j Hj. unfold statusOf. by rewrite Hf, lookup_insert_ne, Hother.
    - split_and!; [intros j mj; rewrite Hf; apply Ho1| |done|].
      + unfold statusOf at 1. by rewrite Hf, Hl.
      + intros j Hj. unfold statusOf. by rewrite Hf, Hother. }
  unfold taken. cbn [fst snd]. destruct c as [id' ev|id']; cbn [callOf] in id; subst id; simpl serve.
  - unfold ReportStatus. rewrite E1. destruct (Hrep ev) as (H1 & H2 & H3). split; [done|]. split; [|done].
    repeat case_decide; naive_solver.
  - unfold ReportOKIfStarting. rewrite E1, Hs. case_bool_decide as Hst; case_decide; try done.
    + destruct (Hrep (NewEvent now StatusOK [])) as (H1 & H2 & H3). split; [done|]. split; [|done].
      repeat case_decide; naive_solver.
    + split; [done|]. split; [case_decide; [naive_solver|]|].
      * split; [|done]. unfold statusOf at 1. by rewrite Hl.
      * intros j Hj. unfold statusOf. by rewrite Hother.
Qed.

(** The calls about one instance. *)
Definition callsOf (id : Z) (cs : list (Z * call)) : list (Z * call) := filter (fun c => callOf c.2 = id) cs.

Lemma serveAll_refines id cs r :
  Owned r ->
  eventsOf (serveAll r cs) id = eventsOf r id ++ (lifecycle (statusOf r id) (callsOf id cs)).1 /\
  statusOf (serveAll r cs) id = (lifecycle (statusOf r id) (callsOf id cs)).2.
Proof.
  revert r. induction cs as [|c cs IH]; intros r Ho; [simpl; by rewrite app_nil_r|].
  destruct (serve_spec r c Ho) as (Ho' & Hs & Hother). cbn [serveAll foldl]. fold (serveAll (serve r c) cs).
  destruct (IH _ Ho') as [IH1 IH2]. rewrite IH1, IH2. unfold callsOf. rewrite filter_cons.
  case_decide as Hc.
  - subst id. rewrite lifecycle_cons. destruct (taken (statusOf r (callOf c.2)) c) as [ev|]; destruct Hs as [-> Hn].
    + destruct (lifecycle (ev_status ev) _) as [evs s']. unfold eventsOf. rewrite Hn, filter_app, map_app.
      rewrite filter_cons, filter_nil. simpl. rewrite decide_True by done. simpl. by rewrite <- app_assoc.
    + unfold eventsOf. by rewrite Hn.
  - rewrite Hother by done. split; [|done]. f_equal. unfold eventsOf.
    destruct (taken _ c); destruct Hs as [_ ->]; [|done].
    rewrite filter_app, filter_cons, filter_nil. simpl. rewrite decide_False by done. by rewrite app_nil_r.
Qed.

(** ** What a lifecycle is *)
Lemma taken_valid s c ev : taken s c = Some ev -> ev_status ev ∈ transitions s.
Proof. unfold taken. case_decide; naive_solver. Qed.

Lemma lifecycle_path s cs : path s (map ev_status (lifecycle s cs).1).
Proof.
  revert s. induction cs as [|c cs IH]; intros s; [done|]. rewrite lifecycle_cons.
  destruct (taken s c) as [ev|] eqn:E; [|apply IH]. specialize (IH (ev_status ev)).
  destruct (lifecycle (ev_status ev) cs). simpl. split; [by eapply taken_valid|exact IH].
Qed.

Lemma lifecycle_last s cs : (lifecycle s cs).2 = default s (last (map ev_status (lifecycle s cs).1)).
Proof.
  revert s. induction cs as [|c cs IH]; intros s; [done|]. rewrite lifecycle_cons.
  destruct (taken s c) as [ev|] eqn:E; [|apply IH]. specialize (IH (ev_status ev)).
  destruct (lifecycle (ev_status ev) cs) as [evs s']. simpl in *. rewrite last_cons, IH.
  by destruct (last (map ev_status evs)).
Qed.

Lemma path_app s a b : path s (a ++ b) <-> path s a /\ path (default s (last a)) b.
Proof.
  revert s. induction a as [|x a IH]; intros s; simpl; [naive_solver|].
  rewrite IH, last_cons. destruct (last a); simpl; naive_solver.
Qed.

Lemma no_start_transition s : s <> StatusNone -> StatusStarting ∉ transitions s.
Proof. destruct s; simpl; set_solver. Qed.

Lemma transitions_not_none s s' : s' ∈ transitions s -> s' <> StatusNone.
Proof. destruct s; simpl; set_solver. Qed.

Lemma path_no_start s ss : s <> StatusNone -> path s ss -> StatusStarting ∉ ss.
Proof.
  revert s. induction ss as [|x ss IH]; intros s Hs; [set_solver|]. intros [Hx Hp].
  apply not_elem_of_cons. split; [intros <-; by eapply no_start_transition|].
  eapply IH; [|done]. by eapply transitions_not_none.
Qed.

