(* ===== verification/ServiceGraph.v ===== *)
(** * Starting and stopping the service (service/internal/graph, service/extensions)

    [Graph.StartAll] and [Graph.ShutdownAll] over the nodes of the pipeline graph,
    and [Extensions.Start] and [Extensions.Shutdown].

    The topological sort is the library's; what a component does when it is
    started or stopped is given by a [behaviour]: the reports that reach the
    reporter meanwhile, from this or any other component, and the error it
    returns.  [log] records the calls to the components in order. *)

From S2P Require Import Prelude Errors ComponentStatus.
Local Open Scope Z_scope.

(** ** The graph *)
Inductive nodeType := receiverNode | processorNode | exporterNode | connectorNode | capabilitiesNode | fanOutNode.

#[export] Instance nodeType_eq_dec : EqDecision nodeType.
Proof. solve_decision. Defined.

(** [built]: the embedded component is not nil. *)
Record node := mkNode { nodeID : Z; nodeTy : nodeType; built : bool }.

#[export] Instance node_eq_dec : EqDecision node.
Proof. solve_decision. Defined.

(** [node.(component.Component)]: the type of the node embeds a component. *)
Definition isComponent (n : node) : bool :=
  match nodeTy n with capabilitiesNode | fanOutNode => false | _ => true end.

(** [builtComponent(node) != nil]. *)
Definition builtComponent (n : node) : bool := isComponent n && built n.

(** An instance: its address, and what it points to. *)
Record InstanceID := mkInstanceID { addr : Z; componentID : string; kindName : string }.

Record Graph := mkGraph {
  g_nodes : list node;
  g_edges : list (Z * Z);
  instanceIDs : gmap Z InstanceID;
}.

(** A missing entry of the map is the nil pointer. *)
Definition instanceOf (g : Graph) (id : Z) : Z :=
  match instanceIDs g !! id with Some i => addr i | None => 0 end.

(** The comparison of the sort in [StartAll]. *)
Definition startCompare (n1 n2 : node) : comparison :=
  match bool_decide (nodeTy n1 = receiverNode), bool_decide (nodeTy n2 = receiverNode) with
  | true, false => Lt
  | false, true => Gt
  | _, _ => nodeID n1 ?= nodeID n2
  end.

(** The order [slices.SortFunc] gives for it; node IDs are distinct. *)
Fixpoint insertNode (n : node) (ns : list node) : list node :=
  match ns with
  | [] => [n]
  | m :: ns => match startCompare n m with Gt => m :: insertNode n ns | _ => n :: m :: ns end
  end.
Definition startOrder (ns : list node) : list node := foldr insertNode [] ns.

(** gonum's graph/topo, and what it documents: the result has every node once,
    the source of an edge before its target. *)
Class Topo := {
  SortStabilized : (list node -> list node) -> Graph -> list node + error;
  Sort : Graph -> list node + error;
}.

Definition position (l : list node) (id : Z) : option nat :=
  fst <$> list_find (fun n => nodeID n = id) l.

Definition edgeOk (l : list node) (e : Z * Z) : bool :=
  match position l e.1, position l e.2 with
  | Some i, Some j => (i <? j)%nat
  | _, _ => false
  end.

Definition topological (g : Graph) (l : list node) : Prop :=
  l ≡ₚ g_nodes g /\ Forall (fun e => edgeOk l e = true) (g_edges g).

Class TopoLaws `{Topo} := {
  SortStabilized_topological : forall order g l, SortStabilized order g = inl l -> topological g l;
  Sort_topological : forall g l, Sort g = inl l -> topological g l;
}.

(** ** Starting and stopping *)
Record behaviour := mkBehaviour {
  before : list (Z * call);
  during : list (Z * call);
  result : option error;
}.

Definition quiet (err : option error) : behaviour := mkBehaviour [] [] err.

Inductive outcome :=
  | Returned (r : reporter) (log : list (Z * option error)) (err : option error)
  | Panicked (r : reporter) (log : list (Z * option error)).

Section Loops.
(** What the components do, and the time of each report about them. *)
Context (acts : Z -> behaviour) (clock : Z -> Status -> Z).

Definition reportFor (r : reporter) (g : Graph) (id : Z) (st : Status) (opts : list (Event -> Event)) : reporter :=
  ReportStatus r (clock id st) (instanceOf g id) (NewEvent (clock id st) st opts).

Fixpoint startLoop (g : Graph) (ns : list node) (r : reporter) (log : list (Z * option error)) : outcome :=
  match ns with
  | [] => Returned r log None
  | n :: ns =>
      if isComponent n then
        let id := nodeID n in
        let r := serveAll r (before (acts id)) in
        let r := reportFor r g id StatusStarting [] in
        if built n then
          let r := serveAll r (during (acts id)) in
          let log := log ++ [(id, result (acts id))] in
          match result (acts id) with
          | Some compErr =>
              let r := reportFor r g id StatusPermanentError [WithError (Some compErr)] in
              match instanceIDs g !! id with
              | Some i => Returned r log (Some (Wrapf "failed to start %q %s: %w" [ArgS (componentID i); ArgS (kindName i)] compErr))
              | None => Panicked r log
              end
          | None => startLoop g ns (ReportOKIfStarting r (clock id StatusOK) (instanceOf g id)) log
          end
        else Panicked r log
      else startLoop g ns r log
  end.

Definition StartAll `{Topo} (g : Graph) (hostIsNil : bool) (r : reporter) : outcome :=
  if hostIsNil then Returned r [] (Some (New "host cannot be nil"))
  else
    match SortStabilized startOrder g with
    | inr err => Returned r [] (Some err)
    | inl nodes => startLoop g (rev nodes) r []
    end.

Fixpoint shutdownLoop (g : Graph) (ns : list node) (r : reporter) (log : list (Z * option error)) (errs : option error)
    : reporter * list (Z * option error) * option error :=
  match ns with
  | [] => (r, log, errs)
  | n :: ns =>
      if builtComponent n then
        let id := nodeID n in
        let r := serveAll r (before (acts id)) in
        let r := reportFor r g id StatusStopping [] in
        let r := serveAll r (during (acts id)) in
        let log := log ++ [(id, result (acts id))] in
        match result (acts id) with
        | Some compErr =>
            shutdownLoop g ns (reportFor r g id StatusPermanentError [WithError (Some compErr)]) log
              (multierr_Append errs (Some compErr))
        | None => shutdownLoop g ns (reportFor r g id StatusStopped []) log errs
        end
      else shutdownLoop g ns r log errs
  end.

Definition ShutdownAll `{Topo} (g : Graph) (r : reporter) : reporter * list (Z * option error) * option error :=
  match Sort g with
  | inr err => (r, [], Some err)
  | inl nodes => shutdownLoop g nodes r [] None
  end.
End Loops.

(** ** service/extensions

    An extension is known by the address of its instance. *)
Section Extensions.
Context (acts : Z -> behaviour) (clock : Z -> Status -> Z).

Definition reportExt (r : reporter) (id : Z) (st : Status) (opts : list (Event -> Event)) : reporter :=
  ReportStatus r (clock id st) id (NewEvent (clock id st) st opts).

Fixpoint extStart (extensionIDs : list Z) (r : reporter) (log : list (Z * option error))
    : reporter * list (Z * option error) * option error :=
  match extensionIDs with
  | [] => (r, log, None)
  | id :: ids =>
      let r := serveAll r (before (acts id)) in
      let r := reportExt r id StatusStarting [] in
      let r := serveAll r (during (acts id)) in
      let log := log ++ [(id, result (acts id))] in
      match result (acts id) with
      | Some err => (reportExt r id StatusPermanentError [WithError (Some err)], log, Some err)
      | None => extStart ids (ReportOKIfStarting r (clock id StatusOK) id) log
      end
  end.

Fixpoint extShutdownLoop (ids : list Z) (r : reporter) (log : list (Z * option error)) (errs : option error)
    : reporter * list (Z * option error) * option error :=
  match ids with
  | [] => (r, log, errs)
  | id :: ids =>
      let r := serveAll r (before (acts id)) in
      let r := reportExt r id StatusStopping [] in
      let r := serveAll r (during (acts id)) in
      let log := log ++ [(id, result (acts id))] in
      match result (acts id) with
      | Some err =>
          extShutdownLoop ids (reportExt r id StatusPermanentError [WithError (Some err)]) log (multierr_Append errs (Some err))
      | None => extShutdownLoop ids (reportExt r id StatusStopped []) log errs
      end
  end.

Definition extShutdown (extensionIDs : list Z) (r : reporter) : reporter * list (Z * option error) * option error :=
  extShutdownLoop (rev extensionIDs) r [] None.
End Extensions.

(** ** One element before another in a list *)
Definition precedes {A} (l : list A) (x y : A) : Prop := exists a b c, l = a ++ x :: b ++ y :: c.

Lemma precedes_lookup {A} (l : list A) x y i j : l !! i = Some x -> l !! j = Some y -> (i < j)%nat -> precedes l x y.
Proof.
  intros Hi Hj Hlt. apply list_elem_of_split_length in Hi as (a & l2 & -> & ->).
  rewrite lookup_app_r in Hj by lia. destruct (j - length a)%nat as [|k] eqn:E; [lia|].
  simpl in Hj. apply list_elem_of_split_length in Hj as (b & c & -> & _). by exists a, b, c.
Qed.

Lemma precedes_rev {A} (l : list A) x y : precedes l x y -> precedes (rev l) y x.
Proof.
  intros (a & b & c & ->). exists (rev c), (rev b), (rev a).
  rewrite rev_app_distr. simpl. rewrite rev_app_distr. simpl. by rewrite <- !app_assoc.
Qed.

Lemma precedes_filter {A} (P : A -> Prop) `{forall x, Decision (P x)} l x y :
  P x -> P y -> precedes l x y -> precedes (filter P l) x y.
Proof.
  intros Hx Hy (a & b & c & ->). exists (filter P a), (filter P b), (filter P c).
  rewrite filter_app, filter_cons_True, filter_app, filter_cons_True by done. done.
Qed.

Lemma precedes_map {A B} (f : A -> B) l x y : precedes l x y -> precedes (map f l) (f x) (f y).
Proof. intros (a & b & c & ->). exists (map f a), (map f b), (map f c). by rewrite map_app, map_cons, map_app. Qed.

(** In a prefix that reaches [y] there is [x], earlier. *)
Lemma precedes_prefix {A} (l called rest : list A) x y k :
  NoDup l -> l = called ++ rest -> precedes l x y -> called !! k = Some y -> exists j, (j < k)%nat /\ called !! j = Some x.
Proof.
  intros Hnd -> (a & b & c & E) Hk.
  assert (Hy : (called ++ rest) !! k = Some y) by by apply lookup_app_l_Some.
  assert (Hk' : k = (length a + S (length b))%nat).
  { eapply NoDup_lookup; [exact Hnd|exact Hy|]. rewrite E, lookup_app_r by lia.
    replace (length a + S (length b) - length a)%nat with (S (length b)) by lia. simpl.
    by rewrite lookup_app_r, Nat.sub_diag by lia. }
  exists (length a). split; [lia|]. pose proof (lookup_lt_Some _ _ _ Hk).
  rewrite <- (lookup_app_l called rest) by lia. rewrite E, lookup_app_r, Nat.sub_diag by lia. done.
Qed.

(** ** Topological orders *)
Definition edge (g : Graph) (u v : Z) : Prop := (u, v) ∈ g_edges g.

(** gonum refuses two nodes with the same ID. *)
Definition distinctIDs (g : Graph) : Prop := NoDup (map nodeID (g_nodes g)).

Lemma position_Some l id i : position l id = Some i -> map nodeID l !! i = Some id.
Proof.
  unfold position. intros H. apply fmap_Some in H as ([i' n] & Hf & ->).
  apply list_find_Some in Hf as (Hl & Hid & _). simpl. rewrite list_lookup_fmap, Hl. simpl. by rewrite Hid.
Qed.

Lemma topological_tc g l u v :
  topological g l -> distinctIDs g -> tc (edge g) u v -> precedes (map nodeID l) u v.
Proof.
  intros [Hp He] Hd Htc.
  assert (Hnd : NoDup (map nodeID l)) by (unfold distinctIDs in Hd; by rewrite Hp).
  assert (exists i j, map nodeID l !! i = Some u /\ map nodeID l !! j = Some v /\ (i < j)%nat) as (i & j & Hi & Hj & Hlt).
  { assert (Hone : forall x y, edge g x y -> exists i j, map nodeID l !! i = Some x /\ map nodeID l !! j = Some y /\ (i < j)%nat).
    { intros x y Hxy. rewrite Forall_forall in He. specialize (He _ Hxy). unfold edgeOk in He. simpl in He.
      destruct (position l x) as [i|] eqn:Ei, (position l y) as [j|] eqn:Ej; try done. zbool.
      exists i, j. split_and!; [by apply position_Some..|lia]. }
    induction Htc as [x y Hxy|x y z Hxy _ (i2 & j2 & H1 & H2 & H3)]; [by apply Hone|].
    destruct (Hone _ _ Hxy) as (i1 & j1 & ? & Hj1 & ?). pose proof (NoDup_lookup _ _ _ _ Hnd Hj1 H1).
    exists i1, j2. split_and!; [done..|lia]. }
  by eapply precedes_lookup.
Qed.

(** The IDs of the nodes that satisfy a test. *)
Definition idsOf (p : node -> bool) (ns : list node) : list Z := map nodeID (filter (fun n => p n = true) ns).

Lemma idsOf_cons p n ns : idsOf p (n :: ns) = if p n then nodeID n :: idsOf p ns else idsOf p ns.
Proof. unfold idsOf. rewrite filter_cons. by case_decide; destruct (p n). Qed.

Lemma idsOf_subset p ns id : id ∈ idsOf p ns -> id ∈ map nodeID ns.
Proof.
  unfold idsOf. intros (n & -> & Hn)%list_elem_of_fmap. apply list_elem_of_filter in Hn as [_ Hn].
  by apply list_elem_of_fmap_2.
Qed.

Lemma idsOf_NoDup p g l : l ≡ₚ g_nodes g -> distinctIDs g -> NoDup (idsOf p l).
Proof.
  intros Hp Hd. unfold distinctIDs in Hd. rewrite <- Hp in Hd. clear Hp g.
  induction l as [|n l IH]; [constructor|]. apply NoDup_cons in Hd as [Hn Hd].
  rewrite idsOf_cons. destruct (p n); [|by apply IH].
  apply NoDup_cons. split; [|by apply IH]. intros H. by apply Hn, (idsOf_subset p).
Qed.

Lemma node_of_id g l i n : l ≡ₚ g_nodes g -> distinctIDs g -> n ∈ g_nodes g ->
  map nodeID l !! i = Some (nodeID n) -> l !! i = Some n.
Proof.
  intros Hp Hd Hn Hi. unfold distinctIDs in Hd. rewrite <- Hp in Hn, Hd. clear Hp.
  apply list_elem_of_lookup in Hn as [j Hj].
  assert (map nodeID l !! j = Some (nodeID n)) as Hj' by (rewrite list_lookup_fmap, Hj; done).
  by rewrite (NoDup_lookup _ _ _ _ Hd Hi Hj').
Qed.

Lemma precedes_nodes g l nu nv :
  l ≡ₚ g_nodes g -> distinctIDs g -> nu ∈ g_nodes g -> nv ∈ g_nodes g ->
  precedes (map nodeID l) (nodeID nu) (nodeID nv) -> precedes l nu nv.
Proof.
  intros Hp Hd Hu Hv (a & b & c & E).
  apply (precedes_lookup l nu nv (length a) (length a + S (length b))); [..|lia]; (eapply node_of_id; [done..|]);
    rewrite E.
  - by rewrite lookup_app_r, Nat.sub_diag by lia.
  - rewrite lookup_app_r by lia. replace (length a + S (length b) - length a)%nat with (S (length b)) by lia. simpl.
    by rewrite lookup_app_r, Nat.sub_diag by lia.
Qed.

Lemma topological_idsOf p g l nu nv :
  topological g l -> distinctIDs g -> nu ∈ g_nodes g -> nv ∈ g_nodes g -> p nu = true -> p nv = true ->
  tc (edge g) (nodeID nu) (nodeID nv) ->
  precedes (idsOf p l) (nodeID nu) (nodeID nv) /\ precedes (idsOf p (rev l)) (nodeID nv) (nodeID nu).
Proof.
  intros Ht Hd Hu Hv Pu Pv Htc.
  assert (Hpre : precedes l nu nv) by (eapply precedes_nodes; [apply Ht|done..|by eapply topological_tc]).
  split; apply (precedes_map nodeID); apply (precedes_filter (fun n => p n = true)); try done. by apply precedes_rev.
Qed.

(** ** The loops *)
Section LoopProofs.
Context (acts : Z -> behaviour) (clock : Z -> Status -> Z).

(** What a loop logs for the components it called. *)
Definition entries (ids : list Z) : list (Z * option error) := map (fun id => (id, result (acts id))) ids.

Definition outLog (o : outcome) : list (Z * option error) :=
  match o with Returned _ log _ => log | Panicked _ log => log end.

(** The components called, of those to be called, and how the loop ended. *)
Definition startEnd (g : Graph) (ns : list node) (called rest : list Z) (o : outcome) : Prop :=
  match o with
  | Returned _ _ None => rest = [] /\ Forall (fun id => result (acts id) = None) called
  | Returned _ _ (Some e) => exists pre u err args, called = pre ++ [u] /\
      Forall (fun id => result (acts id) = None) pre /\ result (acts u) = Some err /\
      e = Wrapf "failed to start %q %s: %w" args err
  | Panicked _ _ => exists n, n ∈ ns /\ isComponent n = true /\ (built n = false \/ instanceIDs g !! nodeID n = None)
  end.

Lemma startLoop_spec g ns r log :
  exists called rest, idsOf isComponent ns = called ++ rest /\
    outLog (startLoop acts clock g ns r log) = log ++ entries called /\
    (forall i u, called !! i = Some u -> (S i < length called)%nat -> result (acts u) = None) /\
    startEnd g ns called rest (startLoop acts clock g ns r log).
Proof.
  revert r log. induction ns as [|n ns IH]; intros r log.
  { exists [], []. simpl. rewrite app_nil_r. by split_and!. }
  cbn [startLoop]. rewrite idsOf_cons. destruct (isComponent n) eqn:Ec; [destruct (built n) eqn:Eb|].
  - destruct (result (acts (nodeID n))) as [err|] eqn:Er.
    + exists [nodeID n], (idsOf isComponent ns). split_and!; [done|unfold entries; simpl; rewrite Er; by destruct (instanceIDs g !! _)|simpl; intros; lia|].
      destruct (instanceIDs g !! nodeID n) as [i|] eqn:Ei; [by eexists [], _, _, _|].
      exists n. split; [left|]. by split; [|right].
    + edestruct IH as (called & rest & E & Hl & Hok & Hend). exists (nodeID n :: called), rest.
      split_and!; [by rewrite E|rewrite Hl; unfold entries; simpl; rewrite Er; by rewrite <- app_assoc|..].
      * intros [|i] u Hu Hlt; simplify_eq/=; [done|]. apply (Hok i); [done|lia].
      * destruct (startLoop _ _ _ _ _ _) as [? ? [e|]|]; simpl in *.
        -- destruct Hend as (pre & u & err & args & -> & Hpre & ? & ?). exists (nodeID n :: pre), u, err, args.
           by split_and!; [|constructor|..].
        -- destruct Hend as [-> ?]. by split; [|constructor].
        -- destruct Hend as (m & Hm & ?). exists m. split; [by right|done].
  - exists [], (nodeID n :: idsOf isComponent ns). simpl. rewrite app_nil_r. split_and!; [done..|].
    exists n. split; [left|]. by split; [|left].
  - edestruct IH as (called & rest & E & Hl & Hok & Hend). exists called, rest. split_and!; [done..|].
    destruct (startLoop _ _ _ _ _ _) as [? ? [e|]|]; simpl in *; [done..|].
    destruct Hend as (m & Hm & ?). exists m. split; [by right|done].
Qed.

(** The errors that were collected, in order. *)
Definition collected (errs : option error) : list error := match errs with Some e => multierr_list e | None => [] end.

Definition errorsOf (log : list (Z * option error)) : list error := concat (map (fun x => collected x.2) log).

Lemma collected_Append a b : collected (multierr_Append a b) = collected a ++ collected b.
Proof. destruct a, b; simpl; [done|by rewrite app_nil_r|done..]. Qed.

Lemma errorsOf_app l1 l2 : errorsOf (l1 ++ l2) = errorsOf l1 ++ errorsOf l2.
Proof. unfold errorsOf. by rewrite map_app, concat_app. Qed.

Lemma shutdownLoop_spec g ns r log errs :
  let '(_, log', errs') := shutdownLoop acts clock g ns r log errs in
  log' = log ++ entries (idsOf builtComponent ns) /\
  collected errs' = collected errs ++ errorsOf (entries (idsOf builtComponent ns)).
Proof.
  revert r log errs. induction ns as [|n ns IH]; intros r log errs.
  { simpl. unfold errorsOf. simpl. by rewrite !app_nil_r. }
  cbn [shutdownLoop]. rewrite idsOf_cons. destruct (builtComponent n); [|apply IH].
  destruct (result (acts (nodeID n))) as [err|] eqn:Er;
    match goal with |- context [shutdownLoop _ _ _ _ ?r ?l ?e] => pose proof (IH r l e) as H; destruct (shutdownLoop _ _ _ _ r l e) as [ [? ?] ?] end;
    destruct H as [-> ->]; unfold entries; simpl; rewrite Er, <- app_assoc; (split; [done|]).
  - rewrite collected_Append, <- app_assoc. done.
  - done.
Qed.

(** C38: Components are started downstream first.  [StartAll] starts no component
    twice, and when it starts one, every component the data then flows to has
    been started before, without an error.  It returns nil exactly after all
    components of the graph have been started without an error; the first
    error stops it and is wrapped.  It panics only on a component that was
    never built or has no instance. *)
Theorem start_order `{TopoLaws} g r :
  distinctIDs g ->
  let o := StartAll acts clock g false r in
  let log := outLog o in
  NoDup (map fst log) /\
  (forall k u v res, log !! k = Some (nodeID u, res) -> u ∈ g_nodes g -> v ∈ g_nodes g -> isComponent u = true ->
    isComponent v = true -> tc (edge g) (nodeID u) (nodeID v) ->
    exists j, (j < k)%nat /\ log !! j = Some (nodeID v, None)) /\
  match o with
  | Returned _ _ None => map fst log ≡ₚ idsOf isComponent (g_nodes g) /\ Forall (fun x => x.2 = None) log
  | Returned _ _ (Some e) => SortStabilized startOrder g = inr e /\ log = [] \/
      exists pre u err args, log = pre ++ [(u, Some err)] /\ Forall (fun x => x.2 = None) pre /\
        e = Wrapf "failed to start %q %s: %w" args err
  | Panicked _ _ => exists n, n ∈ g_nodes g /\ isComponent n = true /\
      (built n = false \/ instanceIDs g !! nodeID n = None)
  end.
Proof.
  intros Hd o log. subst log o. unfold StartAll.
  destruct (SortStabilized startOrder g) as [l|e] eqn:Es.
  2:{ split_and!; [constructor|done|by left]. }
  apply SortStabilized_topological in Es as Ht. pose proof Ht as [Hp _].
  assert (Hpr : rev l ≡ₚ g_nodes g) by (rewrite <- Hp; symmetry; apply Permutation_rev).
  destruct (startLoop_spec g (rev l) r []) as (called & rest & E & Hl & Hok & Hend).
  simpl in Hl. rewrite Hl.
  assert (Hmf : map fst (entries called) = called) by (unfold entries; rewrite map_map; apply map_id).
  assert (Hnd : NoDup (called ++ rest)) by (rewrite <- E; by eapply idsOf_NoDup).
  assert (Hen : forall pre, Forall (fun id => result (acts id) = None) pre -> Forall (fun x => x.2 = None) (entries pre)).
  { intros pre. unfold entries. rewrite Forall_map. done. }
  split_and!; [rewrite Hmf; by apply NoDup_app in Hnd as [? _]|..].
  - intros k u v res Hk Hu Hv Pu Pv Htc.
    destruct (topological_idsOf isComponent g l u v Ht Hd Hu Hv Pu Pv Htc) as [_ Hpre]. rewrite E in Hpre.
    assert (Hck : called !! k = Some (nodeID u)) by (rewrite <- Hmf, list_lookup_fmap, Hk; done).
    destruct (precedes_prefix _ called rest _ _ k Hnd eq_refl Hpre Hck) as (j & Hj & Hcj).
    exists j. split; [done|]. unfold entries. rewrite list_lookup_fmap, Hcj. simpl.
    rewrite (Hok j) by (done || apply lookup_lt_Some in Hck; lia). done.
  - destruct (startLoop _ _ _ _ _ _) as [? ? [e|]|]; simpl in *.
    + right. destruct Hend as (pre & u & err & args & -> & Hpre & Hr & ->). exists (entries pre), u, err, args.
      split_and!; [|by apply Hen|done]. unfold entries. rewrite map_app. simpl. by rewrite Hr.
    + destruct Hend as [-> Hall]. split; [|by apply Hen]. rewrite Hmf. rewrite app_nil_r in E. rewrite <- E.
      unfold idsOf. by rewrite Hpr.
    + destruct Hend as (n & Hn & ?). exists n. split; [by rewrite <- Hpr|done].
Qed.

(** C39: [ShutdownAll] asks every component that was built to shut down, exactly
    once, and never a component before those that send data to it; an error
    stops nothing, and the errors returned are all of those the components
    gave, in order. *)
Theorem shutdown_order `{TopoLaws} g r nodes :
  distinctIDs g -> Sort g = inl nodes ->
  let '(_, log, errs) := ShutdownAll acts clock g r in
  map fst log ≡ₚ idsOf builtComponent (g_nodes g) /\ NoDup (map fst log) /\
  (forall u v, u ∈ g_nodes g -> v ∈ g_nodes g -> builtComponent u = true -> builtComponent v = true ->
    tc (edge g) (nodeID u) (nodeID v) -> precedes (map fst log) (nodeID u) (nodeID v)) /\
  Forall (fun x => x.2 = result (acts x.1)) log /\
  collected errs = errorsOf log.
Proof.
  intros Hd Es. unfold ShutdownAll. rewrite Es. apply Sort_topological in Es as Ht. pose proof Ht as [Hp _].
  pose proof (shutdownLoop_spec g nodes r [] None) as Hs. destruct (shutdownLoop _ _ _ _ _ _ _) as [ [r' log] errs].
  destruct Hs as [-> ->]. simpl.
  assert (Hmf : map fst (entries (idsOf builtComponent nodes)) = idsOf builtComponent nodes)
    by (unfold entries; rewrite map_map; apply map_id).
  rewrite !Hmf. split_and!; [unfold idsOf; by rewrite Hp|by eapply idsOf_NoDup|..].
  - intros u v Hu Hv Pu Pv Htc. by apply (topological_idsOf builtComponent g nodes u v).
  - unfold entries. rewrite Forall_map. by apply Forall_true.
  - done.
Qed.
End LoopProofs.

(** ** The statuses the service reports on its own *)
Section Statuses.
Context (starts stops : Z -> behaviour) (clock : Z -> Status -> Z).

(** What one component adds to the calls the reporter serves. *)
Definition startCallsOf (g : Graph) (n : node) : list (Z * call) :=
  let id := nodeID n in
  if isComponent n then
    before (starts id) ++
    (clock id StatusStarting, CReport (instanceOf g id) (NewEvent (clock id StatusStarting) StatusStarting [])) ::
    during (starts id) ++ [(clock id StatusOK, COKIfStarting (instanceOf g id))]
  else [].

Definition stopReport (g : Graph) (id : Z) : Z * call :=
  match result (stops id) with
  | Some err => (clock id StatusPermanentError, CReport (instanceOf g id) (NewPermanentErrorEvent (clock id StatusPermanentError) err))
  | None => (clock id StatusStopped, CReport (instanceOf g id) (NewEvent (clock id StatusStopped) StatusStopped []))
  end.

Definition stopCallsOf (g : Graph) (n : node) : list (Z * call) :=
  let id := nodeID n in
  if builtComponent n then
    before (stops id) ++
    (clock id StatusStopping, CReport (instanceOf g id) (NewEvent (clock id StatusStopping) StatusStopping [])) ::
    during (stops id) ++ [stopReport g id]
  else [].

Lemma serveAll_app r a b : serveAll r (a ++ b) = serveAll (serveAll r a) b.
Proof. apply foldl_app. Qed.

Lemma startLoop_calls g ns r log r' log' :
  startLoop starts clock g ns r log = Returned r' log' None -> r' = serveAll r (concat (map (startCallsOf g) ns)).
Proof.
  revert r log. induction ns as [|n ns IH]; intros r log; simpl; [by intros [= -> ->]|].
  unfold startCallsOf at 1. destruct (isComponent n); [|by apply IH].
  destruct (built n); [|done]. destruct (result _); [by destruct (instanceIDs g !! _)|].
  intros E. apply IH in E. rewrite E, !serveAll_app. simpl. by rewrite !serveAll_app.
Qed.

Lemma shutdownLoop_calls g ns r log errs :
  (shutdownLoop stops clock g ns r log errs).1.1 = serveAll r (concat (map (stopCallsOf g) ns)).
Proof.
  revert r log errs. induction ns as [|n ns IH]; intros r log errs; simpl; [done|].
  unfold stopCallsOf at 1. destruct (builtComponent n); [|apply IH].
  rewrite !serveAll_app. simpl. rewrite !serveAll_app. simpl. unfold stopReport.
  destruct (result _); by rewrite IH.
Qed.

Lemma callsOf_app i a b : callsOf i (a ++ b) = callsOf i a ++ callsOf i b.
Proof. apply filter_app. Qed.

Lemma callsOf_cons_ne i c cs : callOf c.2 <> i -> callsOf i (c :: cs) = callsOf i cs.
Proof. intros. unfold callsOf. by rewrite filter_cons_False. Qed.

Lemma callsOf_cons_eq i c cs : callOf c.2 = i -> callsOf i (c :: cs) = c :: callsOf i cs.
Proof. intros. unfold callsOf. by rewrite filter_cons_True. Qed.

Lemma callOf_stopReport g id : callOf (stopReport g id).2 = instanceOf g id.
Proof. unfold stopReport. by destruct (result _). Qed.

(** The component [i] makes no report itself. *)
Context (g : Graph) (i : Z).
Hypothesis silent : forall id, callsOf i (before (starts id)) = [] /\ callsOf i (during (starts id)) = [] /\
  callsOf i (before (stops id)) = [] /\ callsOf i (during (stops id)) = [].

Lemma other_calls ns :
  Forall (fun m => isComponent m = true -> instanceOf g (nodeID m) <> i) ns ->
  callsOf i (concat (map (startCallsOf g) ns)) = [] /\ callsOf i (concat (map (stopCallsOf g) ns)) = [].
Proof.
  induction 1 as [|m ns Hm _ [IH1 IH2]]; [done|]. simpl. rewrite !callsOf_app, IH1, IH2, !app_nil_r.
  destruct (silent (nodeID m)) as (S1 & S2 & S3 & S4). unfold startCallsOf, stopCallsOf, builtComponent.
  destruct (isComponent m); [|done]. specialize (Hm eq_refl). split; [|destruct (built m); [simpl|done]];
    rewrite callsOf_app, callsOf_cons_ne, callsOf_app, callsOf_cons_ne by (by rewrite ?callOf_stopReport);
    by rewrite ?S1, ?S2, ?S3, ?S4.
Qed.

Lemma own_calls a n b :
  isComponent n = true -> built n = true -> instanceOf g (nodeID n) = i ->
  Forall (fun m => isComponent m = true -> instanceOf g (nodeID m) <> i) (a ++ b) ->
  let id := nodeID n in
  callsOf i (concat (map (startCallsOf g) (a ++ n :: b))) =
    [(clock id StatusStarting, CReport i (NewEvent (clock id StatusStarting) StatusStarting []));
     (clock id StatusOK, COKIfStarting i)] /\
  callsOf i (concat (map (stopCallsOf g) (a ++ n :: b))) =
    [(clock id StatusStopping, CReport i (NewEvent (clock id StatusStopping) StatusStopping [])); stopReport g id].
Proof.
  intros Hc Hb Hi Hother id. apply Forall_app in Hother as [Ha Hbb].
  destruct (other_calls a Ha) as [A1 A2], (other_calls b Hbb) as [B1 B2].
  destruct (silent id) as (S1 & S2 & S3 & S4).
  rewrite !map_app, !concat_app, !map_cons, !concat_cons, !callsOf_app, A1, A2, B1, B2, !app_nil_r, !app_nil_l.
  unfold startCallsOf, stopCallsOf, builtComponent. rewrite Hc, Hb. simpl. fold id. unfold id in Hi. fold id in Hi.
  rewrite !callsOf_app, !callsOf_cons_eq, !callsOf_app, !callsOf_cons_eq, S1, S2, S3, S4, Hi
    by (by rewrite ?callOf_stopReport).
  done.
Qed.
End Statuses.

(** No two components share an instance. *)
Definition distinctInstances (g : Graph) : Prop :=
  forall m n, m ∈ g_nodes g -> n ∈ g_nodes g -> isComponent m = true -> isComponent n = true ->
    instanceOf g (nodeID m) = instanceOf g (nodeID n) -> nodeID m = nodeID n.

Lemma instance_split g l n :
  l ≡ₚ g_nodes g -> distinctIDs g -> distinctInstances g -> n ∈ g_nodes g -> isComponent n = true ->
  exists a b, l = a ++ n :: b /\
    Forall (fun m => isComponent m = true -> instanceOf g (nodeID m) <> instanceOf g (nodeID n)) (a ++ b).
Proof.
  intros Hp Hd Hi Hn Hc. assert (Hl : n ∈ l) by by rewrite Hp. apply list_elem_of_split in Hl as (a & b & ->).
  exists a, b. split; [done|]. apply Forall_forall. intros m Hm Hcm Heq.
  assert (Hmg : m ∈ g_nodes g) by (rewrite <- Hp; set_solver).
  specialize (Hi m n Hmg Hn Hcm Hc Heq). unfold distinctIDs in Hd. rewrite <- Hp in Hd.
  rewrite map_app, map_cons in Hd. apply NoDup_app in Hd as (_ & Hd1 & Hd2). apply NoDup_cons in Hd2 as [Hd2 _].
  assert (Hin : forall l, m ∈ l -> nodeID n ∈ map nodeID l) by (intros l' H'; rewrite <- Hi; by apply list_elem_of_fmap_2).
  apply elem_of_app in Hm as [Hm|Hm]; [apply (Hd1 (nodeID n)); [by apply Hin|left]|by apply Hd2, Hin].
Qed.

(** A component that reports nothing itself, whatever the others report,
    gets a Starting and an OK event when the graph is started, and a Stopping
    event and then Stopped, or PermanentError if its Shutdown failed, when it
    is shut down; and no other. *)
Theorem automated_status `{TopoLaws} starts stops clock g r log n nodes :
  distinctIDs g -> distinctInstances g -> n ∈ g_nodes g -> isComponent n = true -> built n = true ->
  (forall id, callsOf (instanceOf g (nodeID n)) (before (starts id) ++ during (starts id) ++ before (stops id) ++ during (stops id)) = []) ->
  StartAll starts clock g false NewReporter = Returned r log None -> Sort g = inl nodes ->
  let i := instanceOf g (nodeID n) in
  map ev_status (eventsOf r i) = [StatusStarting; StatusOK] /\
  map ev_status (eventsOf (ShutdownAll stops clock g r).1.1 i) =
    [StatusStarting; StatusOK; StatusStopping;
     match result (stops (nodeID n)) with Some _ => StatusPermanentError | None => StatusStopped end].
Proof.
  intros Hd Hi Hn Hc Hb Hs Hst Hso i.
  assert (silent : forall id, callsOf i (before (starts id)) = [] /\ callsOf i (during (starts id)) = [] /\
    callsOf i (before (stops id)) = [] /\ callsOf i (during (stops id)) = []).
  { intros id. specialize (Hs id). rewrite !callsOf_app in Hs.
    apply app_nil in Hs as [? [? [? ?]%app_nil]%app_nil]. done. }
  unfold StartAll in Hst. destruct (SortStabilized startOrder g) as [l|] eqn:Es; [|done].
  apply SortStabilized_topological in Es as [Hp _]. apply Sort_topological in Hso as Hso'. destruct Hso' as [Hp2 _].
  assert (Hpr : rev l ≡ₚ g_nodes g) by (rewrite <- Hp; symmetry; apply Permutation_rev).
  apply startLoop_calls in Hst. unfold ShutdownAll. rewrite Hso, (shutdownLoop_calls stops clock g), Hst, <- serveAll_app.
  destruct (instance_split g _ n Hpr Hd Hi Hn Hc) as (a & b & -> & Hab).
  destruct (instance_split g _ n Hp2 Hd Hi Hn Hc) as (a2 & b2 & -> & Hab2).
  destruct (own_calls starts stops clock g i silent a n b Hc Hb eq_refl Hab) as [C1 _].
  destruct (own_calls starts stops clock g i silent a2 n b2 Hc Hb eq_refl Hab2) as [_ C2].
  destruct (serveAll_refines i (concat (map (startCallsOf starts clock g) (a ++ n :: b))) NewReporter NewReporter_owned) as [R1 _].
  destruct (serveAll_refines i (concat (map (startCallsOf starts clock g) (a ++ n :: b)) ++
    concat (map (stopCallsOf stops clock g) (a2 ++ n :: b2))) NewReporter NewReporter_owned) as [R2 _].
  rewrite R1, R2, callsOf_app, C1, C2. unfold stopReport. destruct (result _); vm_compute; done.
Qed.

(** ** Extensions *)
Section ExtensionProofs.
Context (acts : Z -> behaviour) (clock : Z -> Status -> Z).

Lemma extStart_spec ids r log :
  let '(_, log', err) := extStart acts clock ids r log in
  exists called rest, ids = called ++ rest /\ log' = log ++ entries acts called /\
  match err with
  | None => rest = [] /\ Forall (fun id => result (acts id) = None) called
  | Some e => exists pre u, called = pre ++ [u] /\ Forall (fun id => result (acts id) = None) pre /\ result (acts u) = Some e
  end.
Proof.
  revert r log. induction ids as [|id ids IH]; intros r log; simpl.
  { exists [], []. unfold entries. simpl. rewrite app_nil_r. by split_and!. }
  destruct (result (acts id)) as [err|] eqn:Er.
  - exists [id], ids. unfold entries. simpl. rewrite Er. split_and!; [done..|]. by exists [], id.
  - match goal with |- context [extStart _ _ ids ?r ?l] => pose proof (IH r l) as H; destruct (extStart _ _ ids r l) as [ [? log'] e] end.
    destruct H as (called & rest & -> & -> & H). exists (id :: called), rest.
    split_and!; [done|unfold entries; simpl; by rewrite Er, <- app_assoc|].
    destruct e as [e|]; [destruct H as (pre & u & -> & ? & ?); exists (id :: pre), u; split_and!; [done|by constructor|done]|].
    destruct H as [-> ?]. by split; [|constructor].
Qed.

Lemma extShutdownLoop_spec ids r log errs :
  let '(_, log', errs') := extShutdownLoop acts clock ids r log errs in
  log' = log ++ entries acts ids /\ collected errs' = collected errs ++ errorsOf (entries acts ids).
Proof.
  revert r log errs. induction ids as [|id ids IH]; intros r log errs; simpl.
  { unfold errorsOf. simpl. by rewrite !app_nil_r. }
  destruct (result (acts id)) as [err|] eqn:Er;
    match goal with |- context [extShutdownLoop _ _ ids ?r ?l ?e] => pose proof (IH r l e) as H; destruct (extShutdownLoop _ _ ids r l e) as [ [? ?] ?] end;
    destruct H as [-> ->]; unfold entries; simpl; rewrite ?Er, <- app_assoc; (split; [done|]); rewrite ?collected_Append, <- ?app_assoc; done.
Qed.

(** Extensions are started in their order until one fails, whose error is
    returned, and all of them are shut down in the reverse order, whatever
    errors they give, which are all returned. *)
Theorem extensions_order ids r r2 :
  (let '(_, log, err) := extStart acts clock ids r [] in
   exists called rest, ids = called ++ rest /\ log = entries acts called /\
   match err with
   | None => rest = [] /\ Forall (fun id => result (acts id) = None) called
   | Some e => exists pre u, called = pre ++ [u] /\ Forall (fun id => result (acts id) = None) pre /\ result (acts u) = Some e
   end) /\
  (let '(_, log, errs) := extShutdown acts clock ids r2 in
   map fst log = rev ids /\ Forall (fun x => x.2 = result (acts x.1)) log /\ collected errs = errorsOf log).
Proof.
  split; [apply (extStart_spec ids r [])|]. unfold extShutdown.
  pose proof (extShutdownLoop_spec (rev ids) r2 [] None) as H.
  destruct (extShutdownLoop _ _ _ _ _ _) as [ [? log] errs]. destruct H as [-> ->]. simpl. unfold entries.
  split_and!; [rewrite map_map; apply map_id|rewrite Forall_map; by apply Forall_true|done].
Qed.
End ExtensionProofs.

(** ** A concrete sort and graph

    Repeatedly take the first node without a predecessor among the rest; the
    result is checked. *)
Section Examples.
Definition sourceOf (es : list (Z * Z)) (ns : list node) (n : node) : bool :=
  forallb (fun m => negb (bool_decide ((nodeID m, nodeID n) ∈ es))) ns.

Fixpoint takeSources (fuel : nat) (es : list (Z * Z)) (ns : list node) : list node :=
  match fuel with
  | O => []
  | S fuel =>
      match filter (fun n => sourceOf es ns n = true) ns with
      | [] => []
      | n :: _ => n :: takeSources fuel es (filter (fun m => m <> n) ns)
      end
  end.

Definition checked (g : Graph) (l : list node) : list node + error :=
  if decide (l ≡ₚ g_nodes g) then
    if decide (Forall (fun e => edgeOk l e = true) (g_edges g)) then inl l else inr (New "unorderable")
  else inr (New "unorderable").

#[local] Instance kahn : Topo := {
  SortStabilized order g := checked g (takeSources (length (g_nodes g)) (g_edges g) (order (g_nodes g)));
  Sort g := checked g (takeSources (length (g_nodes g)) (g_edges g) (g_nodes g));
}.

Lemma checked_topological g l l' : checked g l = inl l' -> topological g l'.
Proof. unfold checked. intros H. repeat case_decide; simplify_eq. by split. Qed.

#[local] Instance kahnLaws : TopoLaws.
Proof. split; [intros order g l H|intros g l H]; exact (checked_topological g _ l H). Qed.

(** receiver 1 -> capabilities 2 -> processor 3 -> fan-out 4 -> exporters 5 and 6. *)
Definition exGraph : Graph :=
  mkGraph
    [mkNode 5 exporterNode true; mkNode 1 receiverNode true; mkNode 2 capabilitiesNode false;
     mkNode 3 processorNode true; mkNode 4 fanOutNode false; mkNode 6 exporterNode true]
    [(1, 2); (2, 3); (3, 4); (4, 5); (4, 6)]
    (list_to_map [(1, mkInstanceID 101 "otlp" "receiver"); (3, mkInstanceID 103 "batch" "processor");
                  (5, mkInstanceID 105 "otlp" "exporter"); (6, mkInstanceID 106 "debug" "exporter")]).

Definition exClock (id : Z) (st : Status) : Z := id.
Definition allOk (id : Z) : behaviour := quiet None.

(** The processor fails to start; the exporter 6 reports on its own. *)
Definition failing3 (id : Z) : behaviour :=
  if decide (id = 3) then quiet (Some (New "no memory"))
  else if decide (id = 6) then mkBehaviour [] [(7, CReport 106 (NewRecoverableErrorEvent 7 (New "retrying")))] None
  else quiet None.

Lemma exGraph_distinctIDs : distinctIDs exGraph.
Proof. apply (bool_decide_unpack (NoDup (map nodeID (g_nodes exGraph)))). by vm_compute. Qed.

Lemma exGraph_distinctInstances : distinctInstances exGraph.
Proof.
  assert (H : Forall (fun m => Forall (fun n => isComponent m = true -> isComponent n = true ->
    instanceOf exGraph (nodeID m) = instanceOf exGraph (nodeID n) -> nodeID m = nodeID n) (g_nodes exGraph)) (g_nodes exGraph))
    by (repeat constructor; vm_compute; done).
  intros m n Hm Hn. rewrite Forall_forall in H. specialize (H m Hm). rewrite Forall_forall in H. by apply H.
Qed.

Definition exNode (id : Z) (ty : nodeType) : node := mkNode id ty true.

Lemma start_order_witness :
  distinctIDs exGraph /\
  map fst (outLog (StartAll failing3 exClock exGraph false NewReporter)) = [6; 5; 3] /\
  exists j, (j < 2)%nat /\ outLog (StartAll failing3 exClock exGraph false NewReporter) !! j = Some (6, None).
Proof.
  split; [exact exGraph_distinctIDs|]. split; [by vm_compute|].
  destruct (start_order failing3 exClock exGraph NewReporter exGraph_distinctIDs) as (_ & Hord & _).
  apply (Hord 2%nat (exNode 3 processorNode) (exNode 6 exporterNode) (Some (New "no memory"))).
  - by vm_compute.
  - apply list_elem_of_lookup. by exists 3%nat.
  - apply list_elem_of_lookup. by exists 5%nat.
  - done.
  - done.
  - eapply tc_l; [|apply tc_once]; unfold edge; apply list_elem_of_lookup; [by exists 2%nat|by exists 4%nat].
Defined.

(** The processor and an exporter fail to stop. *)
Definition failing36 (id : Z) : behaviour :=
  if decide (id = 3) then quiet (Some (New "flush failed"))
  else if decide (id = 6) then quiet (Some (New "still busy")) else quiet None.

Lemma shutdown_order_witness :
  exists nodes, Sort exGraph = inl nodes /\
    collected (ShutdownAll failing36 exClock exGraph NewReporter).2 = [New "flush failed"; New "still busy"] /\
    precedes (map fst (ShutdownAll failing36 exClock exGraph NewReporter).1.2) 1 6.
Proof.
  destruct (Sort exGraph) as [nodes|] eqn:Es; [|by vm_compute in Es].
  exists nodes. split; [done|].
  pose proof (shutdown_order failing36 exClock exGraph NewReporter nodes exGraph_distinctIDs Es) as H.
  split; [by vm_compute|].
  destruct (ShutdownAll failing36 exClock exGraph NewReporter) as [ [r log] errs]. destruct H as (_ & _ & Hord & _).
  apply (Hord (exNode 1 receiverNode) (exNode 6 exporterNode)); [..|done|done|].
  - apply list_elem_of_lookup. by exists 1%nat.
  - apply list_elem_of_lookup. by exists 5%nat.
  - apply tc_l with 2; [|apply tc_l with 3; [|apply tc_l with 4; [|apply tc_once] ] ];
      unfold edge; apply list_elem_of_lookup; [by exists 0%nat|by exists 1%nat|by exists 2%nat|by exists 4%nat].
Defined.

(** The exporter 6 reports on its own when it starts. *)
Definition chatty6 (id : Z) : behaviour :=
  if decide (id = 6) then mkBehaviour [] [(7, CReport 106 (NewRecoverableErrorEvent 7 (New "retrying")))] None
  else quiet None.

Lemma automated_status_witness :
  exists r log, StartAll chatty6 exClock exGraph false NewReporter = Returned r log None /\
    map ev_status (eventsOf (ShutdownAll failing36 exClock exGraph r).1.1 103) =
      [StatusStarting; StatusOK; StatusStopping; StatusPermanentError].
Proof.
  destruct (StartAll chatty6 exClock exGraph false NewReporter) as [r log err|] eqn:E; [|by vm_compute in E].
  assert (err = None) as -> by (vm_compute in E; by injection E).
  destruct (Sort exGraph) as [nodes|] eqn:Es; [|by vm_compute in Es].
  exists r, log. split; [done|].
  apply (automated_status chatty6 failing36 exClock exGraph r log (exNode 3 processorNode) nodes
    exGraph_distinctIDs exGraph_distinctInstances).
  - apply list_elem_of_lookup. by exists 3%nat.
  - done.
  - done.
  - intros id. unfold chatty6, failing36. by repeat case_decide.
  - exact E.
  - exact Es.
Defined.

(** ** What the table does not allow *)

(** The receiver reports a recoverable error while it shuts down. *)
Definition recovering1 (id : Z) : behaviour :=
  if decide (id = 1) then mkBehaviour [] [(8, CReport 101 (NewRecoverableErrorEvent 8 (New "peer gone")))] None
  else quiet None.

(** A component that reports a recoverable error during its Shutdown, which
    the table allows, is never reported as stopped: its Shutdown returns nil,
    the Stopped event is refused, and its last status is RecoverableError. *)
Theorem stopped_not_reported :
  exists r log, StartAll allOk exClock exGraph false NewReporter = Returned r log None /\
    let '(r', log', errs) := ShutdownAll recovering1 exClock exGraph r in
    errs = None /\ (1, None) ∈ log' /\ statusOf r' 101 = StatusRecoverableError /\
    StatusStopped ∉ map ev_status (eventsOf r' 101) /\ length (onInvalidTransition r') = 1%nat.
Proof.
  destruct (StartAll allOk exClock exGraph false NewReporter) as [r log err|] eqn:E; [|by vm_compute in E].
  exists r, log. vm_compute in E. injection E as <- <- <-. split; [done|].
  destruct (ShutdownAll _ _ _ _) as [ [r' log'] errs] eqn:Es. vm_compute in Es. injection Es as <- <- <-.
  split; [done|]. split; [apply list_elem_of_lookup; by exists 0%nat|]. split; [done|]. split; [|done].
  apply (bool_decide_unpack _). by vm_compute.
Qed.

(** Only two statuses can be reported again. *)
Lemma repeated_status s :
  s ∈ transitions s <-> s = StatusOK \/ s = StatusRecoverableError.
Proof. destruct s; simpl; set_solver. Qed.
End Examples.
