(* ===== verification/MemoryLimiter.v ===== *)
(** * Memory limiter (internal/memorylimiter, processor/memorylimiterprocessor)

    The limits computed from the configuration, the periodic check with its forced
    garbage collections and their backoff, the goroutine started and stopped by
    the components that share the limiter, and the processor that refuses data.

    A check is a function of what it reads from its environment: the allocated
    memory, the clock, and what a forced collection leaves.  [GetMemoryFn], a
    variable of the package, is an argument.  Times are in nanoseconds. *)

From Stdlib Require Import SpecFloat.
From S2P Require Import Prelude Errors ComponentStatus.
Local Open Scope Z_scope.

(** ** config.go *)
Record Config := mkConfig {
  CheckInterval : Z;
  MinGCIntervalWhenSoftLimited : Z;
  MinGCIntervalWhenHardLimited : Z;
  MaxGCIntervalWhenSoftLimited : Z;
  MaxGCIntervalWhenHardLimited : Z;
  GarbageCollector : bool;
  MemoryLimitMiB : Z;
  MemorySpikeLimitMiB : Z;
  MemoryLimitPercentage : Z;
  MemorySpikePercentage : Z;
}.

Definition NewDefaultConfig : Config :=
  mkConfig 0 10000000000 0 30000000000 30000000000 true 0 0 0 0.

Definition Config_Validate (cfg : Config) : option error :=
  if CheckInterval cfg <=? 0 then
    Some (New "'check_interval' must be greater than zero")
  else if MinGCIntervalWhenSoftLimited cfg <? MinGCIntervalWhenHardLimited cfg then
    Some (New "'min_gc_interval_when_soft_limited' should be larger than 'min_gc_interval_when_hard_limited'")
  else if MaxGCIntervalWhenSoftLimited cfg <? 0 then
    Some (New "'max_gc_interval_when_soft_limited' must be non-negative")
  else if MaxGCIntervalWhenHardLimited cfg <? 0 then
    Some (New "'max_gc_interval_when_hard_limited' must be non-negative")
  else if (0 <? MaxGCIntervalWhenSoftLimited cfg) && (MaxGCIntervalWhenSoftLimited cfg <? MinGCIntervalWhenSoftLimited cfg) then
    Some (New "'max_gc_interval_when_soft_limited' must be greater than or equal to 'min_gc_interval_when_soft_limited' (or 0 to disable)")
  else if (0 <? MaxGCIntervalWhenHardLimited cfg) && (MaxGCIntervalWhenHardLimited cfg <? MinGCIntervalWhenHardLimited cfg) then
    Some (New "'max_gc_interval_when_hard_limited' must be greater than or equal to 'min_gc_interval_when_hard_limited' (or 0 to disable)")
  else if (0 <? MaxGCIntervalWhenSoftLimited cfg) && (0 <? MaxGCIntervalWhenHardLimited cfg) &&
      (MaxGCIntervalWhenSoftLimited cfg <? MaxGCIntervalWhenHardLimited cfg) then
    Some (New "'max_gc_interval_when_soft_limited' should be larger than or equal to 'max_gc_interval_when_hard_limited' (when both are set)")
  else if (MemoryLimitMiB cfg =? 0) && (MemoryLimitPercentage cfg =? 0) then
    Some (New "'limit_mib' or 'limit_percentage' must be greater than zero")
  else if (100 <? MemoryLimitPercentage cfg) || (100 <? MemorySpikePercentage cfg) then
    Some (New "'limit_percentage' and 'spike_limit_percentage' must be greater than zero and less than or equal to hundred")
  else if (0 <? MemoryLimitMiB cfg) && (MemoryLimitMiB cfg <=? MemorySpikeLimitMiB cfg) then
    Some (New "'spike_limit_mib' must be smaller than 'limit_mib'")
  else if (0 <? MemoryLimitPercentage cfg) && (MemoryLimitPercentage cfg <=? MemorySpikePercentage cfg) then
    Some (New "'spike_limit_percentage' must be smaller than 'limit_percentage'")
  else None.

(** ** memorylimiter.go *)
Definition mibBytes : Z := 1024 * 1024.
Definition gcEffectivenessThreshold : Z := 5.
Definition ErrDataRefused : error := New "data refused due to high memory usage".

Record memUsageChecker := mkChecker { memAllocLimit : Z; memSpikeLimit : Z }.

Definition aboveSoftLimit (d : memUsageChecker) (alloc : Z) : bool :=
  u64 (memAllocLimit d - memSpikeLimit d) <=? alloc.
Definition aboveHardLimit (d : memUsageChecker) (alloc : Z) : bool := memAllocLimit d <=? alloc.

Definition newFixedMemUsageChecker (memAllocLimit memSpikeLimit : Z) : memUsageChecker :=
  let memSpikeLimit := if memSpikeLimit =? 0 then memAllocLimit / 5 else memSpikeLimit in
  mkChecker memAllocLimit memSpikeLimit.

Definition newPercentageMemUsageChecker (totalMemory percentageLimit percentageSpike : Z) : memUsageChecker :=
  newFixedMemUsageChecker (u64 (percentageLimit * totalMemory) / 100) (u64 (percentageSpike * totalMemory) / 100).

Definition getMemUsageChecker (cfg : Config) (GetMemoryFn : Z + error) : memUsageChecker + error :=
  let memAllocLimit := u64 (MemoryLimitMiB cfg * mibBytes) in
  let memSpikeLimit := u64 (MemorySpikeLimitMiB cfg * mibBytes) in
  if negb (MemoryLimitMiB cfg =? 0) then inl (newFixedMemUsageChecker memAllocLimit memSpikeLimit)
  else
    match GetMemoryFn with
    | inr err => inr (Wrapf "failed to get total memory, use fixed memory settings (limit_mib): %w" [] err)
    | inl totalMemory =>
        inl (newPercentageMemUsageChecker totalMemory (MemoryLimitPercentage cfg) (MemorySpikePercentage cfg))
    end.

(** [ticker] says whether the ticker still ticks, [closed] what became of the
    channel, [checking] whether the goroutine of [Start] runs.  [host] is the one given
    to the last [Start]; hosts are numbered. *)
Record MemoryLimiter := mkLimiter {
  usageChecker : memUsageChecker;
  memCheckWait : Z;
  mustRefuse : bool;
  ticker : bool;
  minSoft : Z;
  minHard : Z;
  maxSoft : Z;
  maxHard : Z;
  lastGCDone : Z;
  gcDisabled : bool;
  currentSoftGCInterval : Z;
  currentHardGCInterval : Z;
  lastStats : Z;
  refCounter : Z;
  closed : option bool;
  checking : nat;
  host : option nat;
}.

Definition NewMemoryLimiter (cfg : Config) (GetMemoryFn : Z + error) (now : Z) : MemoryLimiter + error :=
  match getMemUsageChecker cfg GetMemoryFn with
  | inr err => inr err
  | inl usageChecker =>
      inl (mkLimiter usageChecker (CheckInterval cfg) false true
             (MinGCIntervalWhenSoftLimited cfg) (MinGCIntervalWhenHardLimited cfg)
             (MaxGCIntervalWhenSoftLimited cfg) (MaxGCIntervalWhenHardLimited cfg)
             now (negb (GarbageCollector cfg)) 0 0 0 0 None 0 None)
  end.

(** [time.Duration(float64(d) * 0.95)]: the conversion and the product round to
    the nearest double, the second conversion truncates. *)
Definition float95 : spec_float := S754_finite false 8556839292003942 (-53).

Definition scale95 (d : Z) : Z :=
  match SFmul 53 1024 (binary_normalize 53 1024 d 0 false) float95 with
  | S754_finite s m e =>
      let v := if 0 <=? e then Z.pos m * 2 ^ e else Z.pos m / 2 ^ (- e) in
      if s then - v else v
  | _ => 0
  end.

Definition nextBackoffInterval (ml : MemoryLimiter) (current configMin configMax : Z) : Z :=
  if configMax =? 0 then configMin
  else
    let minInterval := Z.max configMin (scale95 (memCheckWait ml)) in
    let maxInterval := Z.max configMax configMin in
    Z.min (i64 (Z.max current minInterval * 2)) maxInterval.

(** The fields the check writes. *)
Definition setBackoff (ml : MemoryLimiter) (soft hard stats : Z) : MemoryLimiter :=
  mkLimiter (usageChecker ml) (memCheckWait ml) (mustRefuse ml) (ticker ml) (minSoft ml) (minHard ml) (maxSoft ml)
    (maxHard ml) (lastGCDone ml) (gcDisabled ml) soft hard stats (refCounter ml) (closed ml) (checking ml) (host ml).
Definition setRefuse (ml : MemoryLimiter) (b : bool) : MemoryLimiter :=
  mkLimiter (usageChecker ml) (memCheckWait ml) b (ticker ml) (minSoft ml) (minHard ml) (maxSoft ml) (maxHard ml)
    (lastGCDone ml) (gcDisabled ml) (currentSoftGCInterval ml) (currentHardGCInterval ml) (lastStats ml)
    (refCounter ml) (closed ml) (checking ml) (host ml).
Definition setGCDone (ml : MemoryLimiter) (t : Z) : MemoryLimiter :=
  mkLimiter (usageChecker ml) (memCheckWait ml) (mustRefuse ml) (ticker ml) (minSoft ml) (minHard ml) (maxSoft ml)
    (maxHard ml) t (gcDisabled ml) (currentSoftGCInterval ml) (currentHardGCInterval ml) (lastStats ml)
    (refCounter ml) (closed ml) (checking ml) (host ml).

Definition gcEffective (ml : MemoryLimiter) (alloc : Z) : bool :=
  negb (aboveSoftLimit (usageChecker ml) alloc) ||
  (alloc <=? u64 (lastStats ml * (100 - gcEffectivenessThreshold)) / 100).

Definition checkLimitAndBackoff (ml : MemoryLimiter) (alloc : Z) (didGC : bool) : bool * MemoryLimiter :=
  let above := aboveSoftLimit (usageChecker ml) alloc in
  if gcEffective ml alloc then (above, setBackoff ml 0 0 alloc)
  else if negb didGC then (above, setBackoff ml (currentSoftGCInterval ml) (currentHardGCInterval ml) alloc)
  else
    (above, setBackoff ml
       (nextBackoffInterval ml (currentSoftGCInterval ml) (minSoft ml) (maxSoft ml))
       (nextBackoffInterval ml (currentHardGCInterval ml) (minHard ml) (maxHard ml)) alloc).

(** What a check reads: the memory, the time at which it tests whether to force
    a collection, and the time and the memory when the collection is done. *)
Record tick := mkTick { tk_alloc : Z; tk_now : Z; tk_gcDone : Z; tk_allocAfter : Z }.

(** Whether a collection is due, above the hard or only the soft limit. *)
Definition gcDue (ml : MemoryLimiter) (tk : tick) : bool :=
  let gateInterval :=
    if aboveHardLimit (usageChecker ml) (tk_alloc tk) then Z.max (minHard ml) (currentHardGCInterval ml)
    else Z.max (minSoft ml) (currentSoftGCInterval ml) in
  negb (gcDisabled ml) && (gateInterval <? tk_now tk - lastGCDone ml).

(** The limiter afterwards, the status events reported, and whether a collection
    was forced. *)
Definition CheckMemLimits (ml : MemoryLimiter) (tk : tick) : MemoryLimiter * list Event * bool :=
  let '(above, ml) := checkLimitAndBackoff ml (tk_alloc tk) false in
  if negb above then
    (setRefuse ml false, if mustRefuse ml then [NewEvent (tk_now tk) StatusOK []] else [], false)
  else
    let due := gcDue ml tk in
    let '(above, ml) :=
      if due then checkLimitAndBackoff (setGCDone ml (tk_gcDone tk)) (tk_allocAfter tk) true else (above, ml) in
    let refusing := if negb (mustRefuse ml) && above then [NewRecoverableErrorEvent (tk_now tk) ErrDataRefused] else [] in
    let back := if negb above then [NewEvent (tk_now tk) StatusOK []] else [] in
    (setRefuse ml above, refusing ++ back, due).

(** *** Start and Shutdown

    Both hold [refCounterLock], so they are atomic to each other; the goroutine
    does not take it.  [Start] writes [host] before it takes the lock, and the order of
    two such writes is that of the calls here.  [None] is the panic of closing a channel that is nil or
    closed already.  [Shutdown] waits for the goroutine, which sees the closed
    channel after the check it may be in. *)
Definition setLife (ml : MemoryLimiter) (tick : bool) (refs : Z) (ch : option bool) (n : nat) (h : option nat) : MemoryLimiter :=
  mkLimiter (usageChecker ml) (memCheckWait ml) (mustRefuse ml) tick (minSoft ml) (minHard ml) (maxSoft ml)
    (maxHard ml) (lastGCDone ml) (gcDisabled ml) (currentSoftGCInterval ml) (currentHardGCInterval ml) (lastStats ml)
    refs ch n h.

Definition LStart (h : nat) (ml : MemoryLimiter) : MemoryLimiter :=
  let refs := refCounter ml + 1 in
  if refs =? 1 then setLife ml (ticker ml) refs (Some false) (S (checking ml)) (Some h)
  else setLife ml (ticker ml) refs (closed ml) (checking ml) (Some h).

Definition LShutdown (ml : MemoryLimiter) : option MemoryLimiter :=
  if refCounter ml =? 0 then Some ml
  else if refCounter ml =? 1 then
    match closed ml with
    | Some false => Some (setLife ml false (refCounter ml - 1) (Some true) 0 (host ml))
    | _ => None
    end
  else Some (setLife ml (ticker ml) (refCounter ml - 1) (closed ml) (checking ml) (host ml)).

(** What can happen to a limiter; a tick is received by each goroutine that runs, and
    what it reports goes to the host of that moment. *)
Inductive levent := EvStart (h : nat) | EvShutdown | EvTick (tk : tick).

(** An event and the host it is reported to. *)
Definition report : Type := option nat * Event.

Inductive lstep : MemoryLimiter * list report -> levent -> MemoryLimiter * list report -> Prop :=
  | step_start ml evs h : lstep (ml, evs) (EvStart h) (LStart h ml, evs)
  | step_shutdown ml evs ml' : LShutdown ml = Some ml' -> lstep (ml, evs) EvShutdown (ml', evs)
  | step_tick ml evs tk ml' evs' gc :
      (0 < checking ml)%nat -> ticker ml = true -> CheckMemLimits ml tk = (ml', evs', gc) ->
      lstep (ml, evs) (EvTick tk) (ml', evs ++ map (pair (host ml)) evs').

Inductive lruns : MemoryLimiter * list report -> list levent -> MemoryLimiter * list report -> Prop :=
  | lruns_nil s : lruns s [] s
  | lruns_snoc s l s' e s'' : lruns s l s' -> lstep s' e s'' -> lruns s (l ++ [e]) s''.

(** ** processor/memorylimiterprocessor *)
Inductive Signal := SignalTraces | SignalMetrics | SignalLogs | SignalProfiles.

(** A measurement added to a counter: the signal, whether it was accepted, and
    how much.  The counters know no profiles. *)
Definition accepted (num : Z) (signal : Signal) : list (Signal * bool * Z) :=
  match signal with SignalProfiles => [] | _ => [(signal, true, num)] end.
Definition refused (num : Z) (signal : Signal) : list (Signal * bool * Z) :=
  match signal with SignalProfiles => [] | _ => [(signal, false, num)] end.

(** [processTraces], [processMetrics], [processLogs] and [processProfiles], which
    differ in the signal and in what they count. *)
Definition process {D} (count : D -> Z) (signal : Signal) (ml : MemoryLimiter) (data : D)
    : list (Signal * bool * Z) * (D * option error) :=
  if mustRefuse ml then (refused (count data) signal, (data, Some ErrDataRefused))
  else (accepted (count data) signal, (data, None)).

(** ** The limits *)
Definition is_u32 (z : Z) : Prop := 0 <= z < 2 ^ 32.

Lemma fixed_limits alloc spike :
  0 <= alloc < 2 ^ 64 -> 0 <= spike -> spike < alloc \/ spike = 0 \/ spike = alloc ->
  let c := newFixedMemUsageChecker alloc spike in
  memAllocLimit c = alloc /\ 0 <= alloc - memSpikeLimit c <= alloc /\
  (0 < alloc -> spike < alloc -> 0 < alloc - memSpikeLimit c).
Proof.
  intros Ha Hs Hlt c. subst c. unfold newFixedMemUsageChecker. simpl.
  destruct (Z.eqb_spec spike 0); [|split_and!; lia].
  pose proof (Z.div_mod alloc 5 ltac:(lia)). pose proof (Z.mod_pos_bound alloc 5 ltac:(lia)).
  split_and!; lia.
Qed.

Lemma checker_tests c :
  0 <= memAllocLimit c - memSpikeLimit c <= memAllocLimit c -> memAllocLimit c < 2 ^ 64 ->
  (forall alloc, aboveSoftLimit c alloc = true <-> memAllocLimit c - memSpikeLimit c <= alloc) /\
  (forall alloc, aboveHardLimit c alloc = true -> aboveSoftLimit c alloc = true).
Proof.
  intros H1 H2. assert (E : u64 (memAllocLimit c - memSpikeLimit c) = memAllocLimit c - memSpikeLimit c)
    by (apply u64_id; unfold is_u64; lia).
  unfold aboveSoftLimit, aboveHardLimit. rewrite E. split; intros; rewrite ?Z.leb_le in *; lia.
Qed.

(** With a configuration that passes validation and a total memory below
    2^64/100 bytes, the limits are as configured and nothing wraps around: the
    hard limit is limit_mib, or limit_percentage of the total memory; the soft
    limit is the hard limit less the spike limit, at most the hard limit, and
    positive for fixed limits; what is above the hard limit is above the soft
    one. *)
Theorem limits_sound cfg total c :
  Config_Validate cfg = None ->
  Forall is_u32 [MemoryLimitMiB cfg; MemorySpikeLimitMiB cfg; MemoryLimitPercentage cfg; MemorySpikePercentage cfg] ->
  0 <= total -> 100 * total < 2 ^ 64 -> getMemUsageChecker cfg (inl total) = inl c ->
  let soft := memAllocLimit c - memSpikeLimit c in
  memAllocLimit c = (if MemoryLimitMiB cfg =? 0 then MemoryLimitPercentage cfg * total / 100 else MemoryLimitMiB cfg * mibBytes) /\
  0 <= soft <= memAllocLimit c /\ (0 < MemoryLimitMiB cfg -> 0 < soft) /\
  (forall alloc, aboveSoftLimit c alloc = true <-> soft <= alloc) /\
  (forall alloc, aboveHardLimit c alloc = true -> aboveSoftLimit c alloc = true).
Proof.
  intros Hv Hu Ht Ht2 E soft. repeat (apply Forall_cons in Hu as [? Hu]). unfold is_u32 in *.
  assert (Hlim : (MemoryLimitMiB cfg = 0 -> 0 < MemoryLimitPercentage cfg) /\ MemoryLimitPercentage cfg <= 100 /\
    MemorySpikePercentage cfg <= 100 /\ (0 < MemoryLimitMiB cfg -> MemorySpikeLimitMiB cfg < MemoryLimitMiB cfg) /\
    (0 < MemoryLimitPercentage cfg -> MemorySpikePercentage cfg < MemoryLimitPercentage cfg)).
  { unfold Config_Validate in Hv. do 7 (break_match_in Hv; [done|]).
    repeat (break_match_in Hv; [done|]).
    repeat match goal with H : _ && _ = false |- _ => apply andb_false_iff in H end. zbool.
    rewrite ?Z.eqb_neq, ?Z.ltb_ge, ?Z.leb_gt in *. lia. }
  destruct Hlim as (L1 & L2 & L3 & L4 & L5). unfold getMemUsageChecker in E.
  destruct (Z.eqb_spec (MemoryLimitMiB cfg) 0) as [Hz|Hz]; simpl in E; injection E as <-; subst soft.
  - unfold newPercentageMemUsageChecker in *. rewrite !u64_id in * by (unfold is_u64; nia).
    set (a := MemoryLimitPercentage cfg * total / 100) in *. set (s := MemorySpikePercentage cfg * total / 100) in *.
    assert (0 <= a < 2 ^ 64) by (subst a; split; [apply Z.div_pos; nia|apply Z.div_lt_upper_bound; nia]).
    assert (0 <= s) by (subst s; apply Z.div_pos; nia).
    assert (s <= a) by (subst a s; apply Z.div_le_mono; nia).
    destruct (fixed_limits a s) as (F1 & F2 & F3); [done|done|lia|]. rewrite F1 in *.
    destruct (checker_tests (newFixedMemUsageChecker a s)) as [T1 T2]; [by rewrite F1|rewrite F1; lia|].
    rewrite F1 in *. split_and!; [done|lia|lia|lia|exact T1|exact T2].
  - unfold mibBytes in *. rewrite !u64_id in * by (unfold is_u64; lia).
    set (a := MemoryLimitMiB cfg * (1024 * 1024)) in *. set (s := MemorySpikeLimitMiB cfg * (1024 * 1024)) in *.
    destruct (fixed_limits a s) as (F1 & F2 & F3); [subst a; lia|subst s; lia|subst a s; lia|].
    destruct (checker_tests (newFixedMemUsageChecker a s)) as [T1 T2]; [by rewrite F1|rewrite F1; subst a; lia|].
    rewrite F1 in *. split_and!; [done|lia|lia|intros; apply F3; subst a s; lia|exact T1|exact T2].
Qed.

(** ** One check *)

(** What the check never changes. *)
Definition sameSettings (ml ml' : MemoryLimiter) : Prop :=
  usageChecker ml' = usageChecker ml /\ memCheckWait ml' = memCheckWait ml /\ gcDisabled ml' = gcDisabled ml /\
  minSoft ml' = minSoft ml /\ minHard ml' = minHard ml /\ maxSoft ml' = maxSoft ml /\ maxHard ml' = maxHard ml.

Definition sameLife (ml ml' : MemoryLimiter) : Prop :=
  ticker ml' = ticker ml /\ refCounter ml' = refCounter ml /\ closed ml' = closed ml /\ checking ml' = checking ml /\ host ml' = host ml.

Lemma checkLimitAndBackoff_spec ml alloc didGC above ml' :
  checkLimitAndBackoff ml alloc didGC = (above, ml') ->
  above = aboveSoftLimit (usageChecker ml) alloc /\ sameSettings ml ml' /\ sameLife ml ml' /\
  mustRefuse ml' = mustRefuse ml /\ lastStats ml' = alloc /\ lastGCDone ml' = lastGCDone ml /\
  (gcEffective ml alloc = false ->
    currentSoftGCInterval ml' = (if didGC then nextBackoffInterval ml (currentSoftGCInterval ml) (minSoft ml) (maxSoft ml) else currentSoftGCInterval ml) /\
    currentHardGCInterval ml' = (if didGC then nextBackoffInterval ml (currentHardGCInterval ml) (minHard ml) (maxHard ml) else currentHardGCInterval ml)).
Proof.
  unfold checkLimitAndBackoff. intros E. destruct (gcEffective ml alloc), didGC; simpl in E; injection E as <- <-;
    unfold sameSettings, sameLife; simpl; by split_and!.
Qed.

(** The reports that go with a decision. *)
Definition reported (was now : bool) (evs : list Event) : Prop :=
  match evs with
  | [] => was = now
  | [e] => if now then was = false /\ ev_status e = StatusRecoverableError /\ ev_err e = Some ErrDataRefused
           else ev_status e = StatusOK
  | _ => False
  end.

Lemma CheckMemLimits_spec ml tk ml' evs gc :
  CheckMemLimits ml tk = (ml', evs, gc) ->
  mustRefuse ml' = aboveSoftLimit (usageChecker ml) (if gc then tk_allocAfter tk else tk_alloc tk) /\
  sameSettings ml ml' /\ sameLife ml ml' /\ reported (mustRefuse ml) (mustRefuse ml') evs /\
  (gc = true -> aboveSoftLimit (usageChecker ml) (tk_alloc tk) = true /\ gcDisabled ml = false).
Proof.
  unfold CheckMemLimits. destruct (checkLimitAndBackoff ml (tk_alloc tk) false) as [above ml1] eqn:E1.
  apply checkLimitAndBackoff_spec in E1 as (-> & S1 & L1 & R1 & _ & _ & _).
  destruct (aboveSoftLimit (usageChecker ml) (tk_alloc tk)) eqn:Ea; simpl.
  - destruct (gcDue ml1 tk) eqn:Eg.
    + destruct (checkLimitAndBackoff (setGCDone ml1 (tk_gcDone tk)) (tk_allocAfter tk) true) as [above ml2] eqn:E2.
      apply checkLimitAndBackoff_spec in E2 as (-> & S2 & L2 & R2 & _ & _ & _). intros [= <- <- <-].
      unfold sameSettings, sameLife in *; simpl in *. destruct_and!. rewrite R2, R1.
      repeat match goal with H : _ ml2 = _ |- _ => rewrite H in * end.
      repeat match goal with H : _ ml1 = _ |- _ => rewrite H in * end.
      split_and!; try done.
      * destruct (mustRefuse ml), (aboveSoftLimit (usageChecker ml) (tk_allocAfter tk)); simpl; by try split_and!.
      * intros _. split; [done|]. unfold gcDue in Eg. apply andb_true_iff in Eg as [Eg _]. apply negb_true_iff in Eg. congruence.
    + intros [= <- <- <-]. unfold sameSettings, sameLife in *; simpl in *. destruct_and!. rewrite R1.
      split_and!; try done. by destruct (mustRefuse ml).
  - intros [= <- <- <-]. unfold sameSettings, sameLife in *; simpl in *. destruct_and!. rewrite R1.
    split_and!; try done. by destruct (mustRefuse ml).
Qed.

(** ** Runs *)
Definition lastStatus (evs : list report) : option Status := (fun r => ev_status r.2) <$> last evs.

(** At most one goroutine checks, exactly while some component has the limiter
    started, and the last status reported says whether data is refused. *)
Record LInv (s : MemoryLimiter * list report) : Prop := {
  li_refs : 0 <= refCounter s.1;
  li_checking : checking s.1 = if 0 <? refCounter s.1 then 1%nat else 0%nat;
  li_closed : 0 < refCounter s.1 -> closed s.1 = Some false;
  li_status : mustRefuse s.1 = true <-> lastStatus s.2 = Some StatusRecoverableError;
}.

Lemma reported_last h was now evs evs' :
  (was = true <-> lastStatus evs = Some StatusRecoverableError) -> reported was now evs' ->
  (now = true <-> lastStatus (evs ++ map (pair h) evs') = Some StatusRecoverableError).
Proof.
  intros Hi Hr. destruct evs' as [|e [|? ?]]; [simpl in Hr |- *; rewrite app_nil_r; by subst|unfold lastStatus; cbn [map]; rewrite last_snoc|done].
  simpl in *. destruct now; [destruct Hr as (_ & -> & _); naive_solver|rewrite Hr; naive_solver].
Qed.

Lemma lstep_inv s e s' : LInv s -> lstep s e s' -> LInv s'.
Proof.
  intros [I1 I2 I3 I4] Hs. destruct Hs as [ml evs h|ml evs ml' E|ml evs tk ml' evs' gc Hc Ht E]; simpl in *.
  - unfold LStart. destruct (Z.eqb_spec (refCounter ml + 1) 1) as [H|H]; split; simpl; try done; try lia.
    + destruct (Z.ltb_spec 0 (refCounter ml)), (Z.ltb_spec 0 (refCounter ml + 1)); lia.
    + destruct (Z.ltb_spec 0 (refCounter ml)), (Z.ltb_spec 0 (refCounter ml + 1)); lia.
    + intros _. apply I3. lia.
  - unfold LShutdown in E. destruct (Z.eqb_spec (refCounter ml) 0) as [H|H]; [by injection E as <-|].
    destruct (Z.eqb_spec (refCounter ml) 1) as [H1|H1].
    + rewrite I3 in E by lia. injection E as <-. split; simpl; try done; try lia.
      destruct (Z.ltb_spec 0 (refCounter ml - 1)); lia.
    + injection E as <-. split; simpl; try done; try lia.
      * destruct (Z.ltb_spec 0 (refCounter ml)), (Z.ltb_spec 0 (refCounter ml - 1)); lia.
      * intros _. apply I3. lia.
  - apply CheckMemLimits_spec in E as (_ & _ & (_ & L2 & L3 & L4 & _) & Hr & _). split; simpl; rewrite ?L2, ?L3, ?L4; try done.
    by eapply reported_last.
Qed.

Lemma lruns_inv s l s' : LInv s -> lruns s l s' -> LInv s'.
Proof. intros Hi Hr. induction Hr; [done|]. by eapply lstep_inv; [apply IHHr|]. Qed.

Lemma lruns_settings s l s' : lruns s l s' -> sameSettings s.1 s'.1.
Proof.
  induction 1 as [s|s l s' e s'' _ IH Hs]; [done|]. assert (H : sameSettings s'.1 s''.1).
  { destruct Hs as [ml evs h|ml evs ml' E|ml evs tk ml' evs' gc Hc Ht E]; simpl.
    - unfold LStart. by destruct (_ =? _).
    - unfold LShutdown in E. repeat break_match_in E; by simplify_eq.
    - by apply CheckMemLimits_spec in E as (_ & ? & _). }
  unfold sameSettings in *. destruct_and!. split_and!; congruence.
Qed.

Lemma NewMemoryLimiter_inv cfg mem now ml : NewMemoryLimiter cfg mem now = inl ml -> LInv (ml, []).
Proof.
  unfold NewMemoryLimiter. destruct (getMemUsageChecker cfg mem); [|done]. intros [= <-].
  split; simpl; try done; try lia.
Qed.

(** *** Who is told *)
Definition startedBy (l : list levent) : list nat := omap (fun e => match e with EvStart h => Some h | _ => None end) l.

(** The host is that of the last start, and every report went to one that was given. *)
Definition HInv (l : list levent) (s : MemoryLimiter * list report) : Prop :=
  host s.1 = last (startedBy l) /\ (0 < refCounter s.1 -> startedBy l <> []) /\
  Forall (fun r => exists h, r.1 = Some h /\ h ∈ startedBy l) s.2.

Lemma startedBy_snoc l e : startedBy (l ++ [e]) = startedBy l ++ match e with EvStart h => [h] | _ => [] end.
Proof. unfold startedBy. rewrite omap_app. by destruct e. Qed.

Lemma lstep_hosts l s e s' : LInv s -> HInv l s -> lstep s e s' -> HInv (l ++ [e]) s'.
Proof.
  intros [I1 I2 _ _] (H1 & H2 & H3) Hs. unfold HInv. rewrite startedBy_snoc.
  destruct Hs as [ml evs h|ml evs ml' E|ml evs tk ml' evs' gc Hc Ht E]; simpl in *; rewrite ?app_nil_r.
  - rewrite last_snoc. split_and!; [unfold LStart; by destruct (_ =? _)|by destruct (startedBy l)|].
    eapply Forall_impl; [exact H3|]. intros x (h' & E & Hin). exists h'. split; [done|]. apply elem_of_app. by left.
  - unfold LShutdown in E. repeat break_match_in E; simplify_eq; simpl; split_and!; try done; intros; apply H2; lia.
  - apply CheckMemLimits_spec in E as (_ & _ & (_ & L2 & _ & _ & L5) & _ & _). rewrite L5, L2. split_and!; [done..|].
    assert (Hpos : 0 < refCounter ml) by (destruct (Z.ltb_spec 0 (refCounter ml)); lia).
    destruct (last (startedBy l)) as [h|] eqn:El; [|by apply last_None in El; apply H2 in Hpos].
    apply Forall_app. split; [done|]. apply Forall_map, Forall_forall. intros e _. exists h. split; [done|].
    apply last_Some in El as [l' ->]. apply elem_of_app. right. by left.
Qed.

Lemma lruns_hosts s l s' : LInv s -> HInv [] s -> lruns s l s' -> HInv l s'.
Proof. intros Hi Hh Hr. induction Hr as [|s l s' e s'' Hr IH Hs]; [done|]. eapply lstep_hosts; [by eapply lruns_inv|by apply IH|done]. Qed.

Lemma NewMemoryLimiter_hosts cfg mem now ml : NewMemoryLimiter cfg mem now = inl ml -> HInv [] (ml, []).
Proof. unfold NewMemoryLimiter. destruct (getMemUsageChecker cfg mem); [|done]. intros [= <-]. split_and!; simpl; [done|lia|constructor]. Qed.

(** C40: However the components that share a limiter start it, shut it down and
    however its checks go: shutting down never panics, at most one goroutine
    checks, exactly while the limiter is started, the last status reported is a
    recoverable error exactly when data is refused, and then every processor
    refuses its data unchanged.  The host of the last start is the one that will be
    told, and every report went to a host that some start gave.  Each check refuses data exactly if the memory
    it read last, after a collection if it forced one, is above the soft
    limit; it forces one only above that limit. *)
Theorem limiter_refuses cfg mem now ml0 l ml evs :
  NewMemoryLimiter cfg mem now = inl ml0 -> lruns (ml0, []) l (ml, evs) ->
  LShutdown ml <> None /\
  checking ml = (if 0 <? refCounter ml then 1%nat else 0%nat) /\
  (mustRefuse ml = true <-> lastStatus evs = Some StatusRecoverableError) /\
  (forall D count signal (data : D), (process count signal ml data).2 = (data, if mustRefuse ml then Some ErrDataRefused else None)) /\
  (forall tk ml' evs' gc, CheckMemLimits ml tk = (ml', evs', gc) ->
    mustRefuse ml' = aboveSoftLimit (usageChecker ml0) (if gc then tk_allocAfter tk else tk_alloc tk) /\
    (gc = true -> aboveSoftLimit (usageChecker ml0) (tk_alloc tk) = true /\ gcDisabled ml0 = false) /\
    reported (mustRefuse ml) (mustRefuse ml') evs') /\
  host ml = last (startedBy l) /\
  Forall (fun r => exists h, r.1 = Some h /\ h ∈ startedBy l) evs.
Proof.
  intros Hn Hr. destruct (lruns_hosts _ _ _ (NewMemoryLimiter_inv _ _ _ _ Hn) (NewMemoryLimiter_hosts _ _ _ _ Hn) Hr) as (HH & _ & HF). pose proof (NewMemoryLimiter_inv _ _ _ _ Hn) as Hi0.
  destruct (lruns_inv _ _ _ Hi0 Hr) as [I1 I2 I3 I4]. pose proof (lruns_settings _ _ _ Hr) as (S1 & _ & S3 & _).
  simpl in *. split_and!; [|done|exact I4|..|exact HH|exact HF].
  - unfold LShutdown. destruct (Z.eqb_spec (refCounter ml) 0); [done|]. destruct (Z.eqb_spec (refCounter ml) 1); [|done].
    by rewrite I3 by lia.
  - intros D count signal data. unfold process. by destruct (mustRefuse ml).
  - intros tk ml' evs' gc E. apply CheckMemLimits_spec in E as (E1 & _ & _ & E2 & E3). rewrite <- S1, <- S3. done.
Qed.

(** ** The backoff of forced collections *)

(** The checks of a list of ticks, and how many collections they forced. *)
Fixpoint checks (ml : MemoryLimiter) (tks : list tick) : MemoryLimiter * nat :=
  match tks with
  | [] => (ml, 0%nat)
  | tk :: tks =>
      let '(ml, _, gc) := CheckMemLimits ml tk in
      let '(ml, k) := checks ml tks in
      (ml, if gc then S k else k)
  end.

(** Memory stays high: no reading is below the soft limit or 5% below the one
    before it, with or without a collection. *)
Fixpoint stalled (ml : MemoryLimiter) (tks : list tick) : Prop :=
  match tks with
  | [] => True
  | tk :: tks =>
      gcEffective ml (tk_alloc tk) = false /\
      let '(ml', _, gc) := CheckMemLimits ml tk in
      (gc = true -> gcEffective (checkLimitAndBackoff ml (tk_alloc tk) false).2 (tk_allocAfter tk) = false) /\
      stalled ml' tks
  end.

(** The interval of a path after [k] collections that freed too little. *)
Definition backoffOf (wait configMin configMax : Z) (k : nat) : Z :=
  match k with
  | O => 0
  | _ => if configMax =? 0 then configMin
         else Z.min (Z.max configMin (scale95 wait) * 2 ^ Z.of_nat k) (Z.max configMax configMin)
  end.

(** Intervals far enough from the overflow of a duration (146 years). *)
Definition sane (wait configMin configMax : Z) : Prop :=
  0 <= configMin < 2 ^ 62 /\ 0 <= configMax < 2 ^ 62 /\ scale95 wait < 2 ^ 62.

Lemma nextBackoffInterval_spec ml configMin configMax k :
  sane (memCheckWait ml) configMin configMax ->
  nextBackoffInterval ml (backoffOf (memCheckWait ml) configMin configMax k) configMin configMax =
    backoffOf (memCheckWait ml) configMin configMax (S k).
Proof.
  intros ((? & ?) & (? & ?) & ?). unfold nextBackoffInterval, backoffOf. destruct (configMax =? 0); [done|].
  set (base := Z.max configMin (scale95 (memCheckWait ml))). set (cap := Z.max configMax configMin).
  assert (Hb : 0 <= base < 2 ^ 62) by lia. assert (Hc : 0 <= cap < 2 ^ 62) by lia.
  destruct k as [|k].
  - rewrite i64_id by (unfold is_i64; lia). f_equal. lia.
  - rewrite (Nat2Z.inj_succ (S k)), Z.pow_succ_r by lia. set (p := 2 ^ Z.of_nat (S k)).
    assert (Hp : 2 <= p) by (subst p; rewrite Nat2Z.inj_succ, Z.pow_succ_r by lia; pose proof (Z.pow_pos_nonneg 2 (Z.of_nat k)); lia).
    assert (base <= base * p) by nia. rewrite i64_id by (unfold is_i64; lia). lia.
Qed.

(** One stalled check. *)
Lemma stalled_check ml tk ml' evs gc :
  CheckMemLimits ml tk = (ml', evs, gc) -> gcEffective ml (tk_alloc tk) = false ->
  (gc = true -> gcEffective (checkLimitAndBackoff ml (tk_alloc tk) false).2 (tk_allocAfter tk) = false) ->
  gc = gcDue ml tk /\ sameSettings ml ml' /\
  currentSoftGCInterval ml' = (if gc then nextBackoffInterval ml (currentSoftGCInterval ml) (minSoft ml) (maxSoft ml) else currentSoftGCInterval ml) /\
  currentHardGCInterval ml' = (if gc then nextBackoffInterval ml (currentHardGCInterval ml) (minHard ml) (maxHard ml) else currentHardGCInterval ml) /\
  lastGCDone ml' = if gc then tk_gcDone tk else lastGCDone ml.
Proof.
  intros E Hne Hne2. pose proof E as Hsp. apply CheckMemLimits_spec in Hsp as (_ & Hset & _). unfold CheckMemLimits in E.
  destruct (checkLimitAndBackoff ml (tk_alloc tk) false) as [above ml1] eqn:E1.
  assert (Eml : ml1 = setBackoff ml (currentSoftGCInterval ml) (currentHardGCInterval ml) (tk_alloc tk))
    by (unfold checkLimitAndBackoff in E1; rewrite Hne in E1; simpl in E1; congruence).
  assert (above = true) as ->.
  { unfold checkLimitAndBackoff in E1. rewrite Hne in E1. simpl in E1. injection E1 as <- _.
    unfold gcEffective in Hne. destruct (aboveSoftLimit (usageChecker ml) (tk_alloc tk)); done. }
  simpl in E, Hne2. replace (gcDue ml1 tk) with (gcDue ml tk) in E by (by subst ml1).
  destruct (gcDue ml tk).
  - destruct (checkLimitAndBackoff (setGCDone ml1 _) _ true) as [above2 ml2] eqn:E2. injection E as <- _ <-.
    apply checkLimitAndBackoff_spec in E2 as (_ & _ & _ & _ & _ & Hl & Hi). specialize (Hne2 eq_refl).
    assert (Hne3 : gcEffective (setGCDone ml1 (tk_gcDone tk)) (tk_allocAfter tk) = false) by (exact Hne2).
    destruct (Hi Hne3) as [Hi1 Hi2]. subst ml1. split_and!; done.
  - injection E as <- _ <-. subst ml1. split_and!; done.
Qed.

(** What a stalled run keeps: the intervals are those of [k] collections. *)
Definition backedOff (ml0 ml : MemoryLimiter) (k : nat) : Prop :=
  sameSettings ml0 ml /\
  currentSoftGCInterval ml = backoffOf (memCheckWait ml0) (minSoft ml0) (maxSoft ml0) k /\
  currentHardGCInterval ml = backoffOf (memCheckWait ml0) (minHard ml0) (maxHard ml0) k.

Section Backoff.
Context (ml0 : MemoryLimiter).
Hypothesis sane_soft : sane (memCheckWait ml0) (minSoft ml0) (maxSoft ml0).
Hypothesis sane_hard : sane (memCheckWait ml0) (minHard ml0) (maxHard ml0).

Lemma stalled_backedOff ml k tks tk :
  backedOff ml0 ml k -> stalled ml (tks ++ [tk]) ->
  backedOff ml0 (checks ml tks).1 (k + (checks ml tks).2)%nat /\ stalled (checks ml tks).1 [tk].
Proof.
  revert ml k. induction tks as [|t tks IH]; intros ml k Hb Hst; [simpl in *; by rewrite Nat.add_0_r|].
  cbn [app stalled checks] in *. destruct (CheckMemLimits ml t) as [ [ml' evs] gc] eqn:E.
  destruct Hst as (Hne & Hne2 & Hst). destruct (stalled_check _ _ _ _ _ E Hne Hne2) as (_ & Hs & Hc1 & Hc2 & _).
  assert (Hb' : backedOff ml0 ml' (if gc then S k else k)).
  { destruct Hb as (Hset & B1 & B2). unfold sameSettings in *. destruct_and!. split; [split_and!; congruence|].
    destruct gc; rewrite Hc1, Hc2, B1, B2; [|done].
    repeat match goal with H : _ ml = _ |- _ => rewrite H end.
    replace (memCheckWait ml0) with (memCheckWait ml) by done.
    rewrite !nextBackoffInterval_spec by (replace (memCheckWait ml) with (memCheckWait ml0) by done; done). done. }
  destruct (IH _ _ Hb' Hst) as [IH1 IH2]. destruct (checks ml' tks) as [mlf kf]. simpl in *.
  split; [|done]. destruct gc; [|done]. by rewrite Nat.add_succ_r.
Qed.
End Backoff.

(** While memory stays high and collections free too little, collections
    become rarer: after [k] of them, the next is forced exactly when more than
    the larger of the configured minimum and the backoff of the path (hard or
    soft) has passed since the last one.  The backoff after [k] is 2^k times
    the larger of the minimum and 95% of the check interval, up to the
    configured maximum, or just the minimum when the maximum is 0. *)
Theorem gc_backoff ml tks tk :
  sane (memCheckWait ml) (minSoft ml) (maxSoft ml) -> sane (memCheckWait ml) (minHard ml) (maxHard ml) ->
  currentSoftGCInterval ml = 0 -> currentHardGCInterval ml = 0 -> stalled ml (tks ++ [tk]) ->
  let '(ml', k) := checks ml tks in
  let wait := memCheckWait ml in
  let gate := if aboveHardLimit (usageChecker ml) (tk_alloc tk)
              then Z.max (minHard ml) (backoffOf wait (minHard ml) (maxHard ml) k)
              else Z.max (minSoft ml) (backoffOf wait (minSoft ml) (maxSoft ml) k) in
  (CheckMemLimits ml' tk).2 = negb (gcDisabled ml) && (gate <? tk_now tk - lastGCDone ml').
Proof.
  intros Hs Hh H1 H2 Hst.
  destruct (stalled_backedOff ml Hs Hh ml 0 tks tk) as [Hb Hst']; [by split_and!|done|].
  destruct (checks ml tks) as [ml' k]. simpl in *. destruct Hb as (Hset & B1 & B2).
  destruct (CheckMemLimits ml' tk) as [ [ml'' evs] gc] eqn:E. destruct Hst' as (Hne & Hne2 & _).
  destruct (stalled_check _ _ _ _ _ E Hne Hne2) as (-> & _). simpl. unfold gcDue. rewrite B1, B2.
  destruct Hset as (-> & _ & -> & -> & -> & _). done.
Qed.

(** ** A concrete limiter: 100 MiB, checked every second *)
Section Examples.
Definition sec : Z := 1000000000.
Definition exConfig : Config := mkConfig sec (10 * sec) 0 (30 * sec) (30 * sec) true 100 20 0 0.
Definition exLimiter : MemoryLimiter :=
  mkLimiter (mkChecker (100 * mibBytes) (20 * mibBytes)) sec false true (10 * sec) 0 (30 * sec) (30 * sec)
    0 false 0 0 0 0 None 0 None.
Definition mib (n : Z) : Z := n * mibBytes.

Lemma exLimiter_new : NewMemoryLimiter exConfig (inr (New "no cgroup")) 0 = inl exLimiter.
Proof. by vm_compute. Qed.

Definition exPercent : Config := mkConfig sec (10 * sec) 0 0 0 true 0 0 80 0.

Lemma limits_sound_witness :
  exists c, getMemUsageChecker exPercent (inl (16 * 1024 * mibBytes)) = inl c /\
    0 <= memAllocLimit c - memSpikeLimit c <= memAllocLimit c.
Proof.
  exists (mkChecker 13743895347 2748779069). split; [by vm_compute|].
  apply (limits_sound exPercent (16 * 1024 * mibBytes) (mkChecker 13743895347 2748779069)).
  - by vm_compute.
  - repeat constructor; by vm_compute.
  - by vm_compute.
  - by vm_compute.
  - by vm_compute.
Defined.

(** Two components start it; a check finds 90 MiB, and 85 after a collection. *)
Definition highTick : tick := mkTick (mib 90) (11 * sec) (12 * sec) (mib 85).

Lemma limiter_refuses_witness :
  exists ml evs, lruns (exLimiter, []) [EvStart 1; EvStart 2; EvTick highTick; EvShutdown] (ml, evs) /\
    mustRefuse ml = true /\ lastStatus evs = Some StatusRecoverableError /\ checking ml = 1%nat.
Proof.
  destruct (CheckMemLimits (LStart 2 (LStart 1 exLimiter)) highTick) as [ [ml1 evs] gc] eqn:E. set (reps := map (pair (Some 2%nat)) evs).
  destruct (LShutdown ml1) as [ml|] eqn:Es; [|exfalso; vm_compute in E; injection E as <- _ _; by vm_compute in Es].
  assert (Hr : lruns (exLimiter, []) [EvStart 1; EvStart 2; EvTick highTick; EvShutdown] (ml, reps)).
  { apply (lruns_snoc _ [EvStart 1; EvStart 2; EvTick highTick] (ml1, reps)); [|by constructor].
    apply (lruns_snoc _ [EvStart 1; EvStart 2] (LStart 2 (LStart 1 exLimiter), [])).
    - apply (lruns_snoc _ [EvStart 1] (LStart 1 exLimiter, [])); [|constructor].
      apply (lruns_snoc _ [] (exLimiter, [])); constructor.
    - apply (step_tick (LStart 2 (LStart 1 exLimiter)) [] highTick ml1 evs gc); [vm_compute; lia|done|done]. }
  exists ml, reps. split; [done|].
  destruct (limiter_refuses exConfig (inr (New "no cgroup")) 0 exLimiter _ ml reps exLimiter_new Hr) as (_ & Hc & Hm & _).
  assert (Hml : mustRefuse ml = true /\ refCounter ml = 1)
    by (vm_compute in E; injection E as <- _ _; vm_compute in Es; by injection Es as <-).
  destruct Hml as [Hml Hrc]. split; [done|]. split; [by apply Hm|]. by rewrite Hc, Hrc.
Defined.

(** Two processors share the limiter.  The first is told that data is refused; the second
    starts, memory goes down, and only the second is told that all is well: the status of
    the first stays a recoverable error. *)
Definition lowTick : tick := mkTick (mib 10) (13 * sec) (13 * sec) (mib 10).

Theorem recovery_told_to_another :
  exists ml, lruns (exLimiter, []) [EvStart 1; EvTick highTick; EvStart 2; EvTick lowTick]
    (ml, [(Some 1%nat, NewRecoverableErrorEvent (11 * sec) ErrDataRefused); (Some 2%nat, NewEvent (13 * sec) StatusOK [])]) /\
  mustRefuse ml = false /\ refCounter ml = 2.
Proof.
  set (ml1 := (CheckMemLimits (LStart 1 exLimiter) highTick).1.1). set (ml2 := (CheckMemLimits (LStart 2 ml1) lowTick).1.1).
  exists ml2. split; [|by vm_compute].
  eapply (lruns_snoc _ [EvStart 1; EvTick highTick; EvStart 2] (LStart 2 ml1, _)).
  - eapply (lruns_snoc _ [EvStart 1; EvTick highTick] (ml1, _)); [|constructor].
    eapply (lruns_snoc _ [EvStart 1] (LStart 1 exLimiter, [])).
    + apply (lruns_snoc _ [] (exLimiter, [])); constructor.
    + apply (step_tick _ [] highTick _ [NewRecoverableErrorEvent (11 * sec) ErrDataRefused] true); [vm_compute; lia|done|by vm_compute].
  - apply (step_tick (LStart 2 ml1) [(Some 1%nat, NewRecoverableErrorEvent (11 * sec) ErrDataRefused)] lowTick ml2
      [NewEvent (13 * sec) StatusOK []] false); [vm_compute; lia|by vm_compute|by vm_compute].
Qed.

(** Memory stays at 120 MiB: collections at 1, 3 and 7 seconds. *)
Definition stuck (t : Z) : tick := mkTick (mib 120) (t * sec + 1) (t * sec + 1) (mib 120).

Lemma stuck_stalled : stalled exLimiter (map stuck [1; 2; 3; 4; 5; 6] ++ [stuck 7]).
Proof. vm_compute. split_and!; done. Qed.

Lemma gc_backoff_witness :
  exists ml k, checks exLimiter (map stuck [1; 2; 3; 4; 5; 6]) = (ml, k) /\ k = 2%nat /\
    backoffOf sec 0 (30 * sec) k = 3800000000 /\
    (CheckMemLimits ml (stuck 7)).2 = (3800000000 <? tk_now (stuck 7) - lastGCDone ml).
Proof.
  pose proof (gc_backoff exLimiter (map stuck [1; 2; 3; 4; 5; 6]) (stuck 7)
    ltac:(by vm_compute) ltac:(by vm_compute) eq_refl eq_refl stuck_stalled) as H.
  destruct (checks exLimiter (map stuck [1; 2; 3; 4; 5; 6])) as [ml k] eqn:E.
  exists ml, k. split; [reflexivity|].
  assert (Hk : k = 2%nat) by (vm_compute in E; by injection E as _ <-).
  split; [exact Hk|]. rewrite Hk in *. split; [by vm_compute|]. exact H.
Defined.
End Examples.
