(* ===== verification/Fanout.v ===== *)
(** * Fan-out of a pipeline (internal/fanoutconsumer)

    The consumer that hands the same data to several consumers: logs.go, and
    traces.go, metrics.go and profiles.go, which are the same code.

    A [plog.Logs] is a pointer: the data lives in a heap, and what matters is which
    consumers are given the same object, and which of them may change it.  A
    consumer is a function on the heap; [Lawful] is what the consumer interface
    asks of it. *)

From S2P Require Import Prelude Errors.

Section Fanout.
Context {D : Type}.

(** The contents of a [Logs] and its read-only state. *)
Record object := mkObject { obj_data : D; obj_readOnly : bool }.
Abbreviation heap := (gmap nat object).

Record consumer := mkConsumer {
  MutatesData : bool;
  Consume : nat -> heap -> heap * option error;
}.

(** What was handed to whom, in which state, and the answer. *)
Record delivery := mkDelivery { dl_to : consumer; dl_object : nat; dl_state : option object; dl_err : option error }.

(** ** NewLogs and Capabilities *)
Inductive fanout :=
  | Unwrapped (c : consumer)
  | logsConsumer (mutable readonly : list consumer).

Definition addConsumer (f : list consumer * list consumer) (c : consumer) : list consumer * list consumer :=
  let '(mutable, readonly) := f in
  if MutatesData c then (mutable ++ [c], readonly) else (mutable, readonly ++ [c]).

Definition NewLogs (lcs : list consumer) : fanout :=
  let wrapped := let '(mutable, readonly) := foldl addConsumer ([], []) lcs in logsConsumer mutable readonly in
  match lcs with
  | [c] => if negb (MutatesData c) then Unwrapped c else wrapped
  | _ => wrapped
  end.

Definition Capabilities (f : fanout) : bool :=
  match f with
  | Unwrapped c => MutatesData c
  | logsConsumer mutable readonly => (0 <? length mutable)%nat && (length readonly =? 0)%nat
  end.

(** ** ConsumeLogs

    The state is the heap, the deliveries so far and the errors so far; [None] is
    the access to an object that does not exist. *)
Definition state : Type := heap * list delivery * option error.

Definition send (c : consumer) (l : nat) (s : state) : state :=
  let '(h, log, errs) := s in
  let '(h', err) := Consume c l h in
  (h', log ++ [mkDelivery c l (h !! l) err], multierr_Append errs err).

(** [NewLogs] and [CopyTo]: a new object, not read-only. *)
Definition cloneLogs (ld : nat) (s : state) : option (nat * state) :=
  let '(h, log, errs) := s in
  o ← h !! ld;
  let l := fresh (dom h) in
  Some (l, (<[l := mkObject (obj_data o) false]> h, log, errs)).

Definition sendClone (ld : nat) (c : consumer) (s : state) : option state :=
  '(l, s) ← cloneLogs ld s; Some (send c l s).

Definition IsReadOnly (ld : nat) (s : state) : option bool := o ← s.1.1 !! ld; Some (obj_readOnly o).

Definition MarkReadOnly (ld : nat) (s : state) : state :=
  let '(h, log, errs) := s in (alter (fun o => mkObject (obj_data o) true) ld h, log, errs).

Fixpoint sendClones (ld : nat) (cs : list consumer) (s : state) : option state :=
  match cs with
  | [] => Some s
  | c :: cs => s ← sendClone ld c s; sendClones ld cs s
  end.

Definition sendMutable (ld : nat) (mutable readonly : list consumer) (s : state) : option state :=
  match last mutable with
  | None => Some s
  | Some lastConsumer =>
      s ← sendClones ld (removelast mutable) s;
      ro ← IsReadOnly ld s;
      if (length readonly =? 0)%nat && negb ro then Some (send lastConsumer ld s) else sendClone ld lastConsumer s
  end.

Definition sendReadOnly (ld : nat) (readonly : list consumer) (s : state) : option state :=
  ro ← IsReadOnly ld s;
  let s := if (1 <? length readonly)%nat && negb ro then MarkReadOnly ld s else s in
  Some (foldl (fun s c => send c ld s) s readonly).

Definition ConsumeLogs (f : fanout) (ld : nat) (h : heap) : option state :=
  match f with
  | Unwrapped c => Some (send c ld (h, [], None))
  | logsConsumer mutable readonly =>
      s ← sendMutable ld mutable readonly (h, [], None);
      sendReadOnly ld readonly s
  end.

(** The fan-out is a consumer of the pipeline in front of it. *)
Definition asConsumer (f : fanout) : consumer :=
  mkConsumer (Capabilities f) (fun l h => match ConsumeLogs f l h with Some (h', _, errs) => (h', errs) | None => (h, None) end).

(** ** What consumers may do

    A consumer changes no object but the one it is given, and the data of that one
    only when it declares so; it may mark it read-only, and nothing unmarks it.
    Objects are not freed. *)
Definition Keeps (o o' : object) : Prop := obj_data o' = obj_data o /\ (obj_readOnly o = true -> obj_readOnly o' = true).

Record Frame (ld : nat) (h h' : heap) : Prop := {
  fr_grows : dom h ⊆ dom h';
  fr_same : forall l, l ∈ dom h -> l <> ld -> h' !! l = h !! l;
}.

Definition Lawful (c : consumer) : Prop :=
  forall l h o, h !! l = Some o -> let h' := (Consume c l h).1 in
    Frame l h h' /\ (MutatesData c = false -> exists o', h' !! l = Some o' /\ Keeps o o').

Definition joinErrs (ds : list delivery) (errs : option error) : option error :=
  foldl (fun errs d => multierr_Append errs (dl_err d)) errs ds.

Lemma Keeps_refl o : Keeps o o.
Proof. by split. Qed.

Lemma Keeps_trans o1 o2 o3 : Keeps o1 o2 -> Keeps o2 o3 -> Keeps o1 o3.
Proof. intros [E1 R1] [E2 R2]. split; [congruence|auto]. Qed.

Lemma Frame_refl ld h : Frame ld h h.
Proof. by split. Qed.

Lemma Frame_trans ld h1 h2 h3 : Frame ld h1 h2 -> Frame ld h2 h3 -> Frame ld h1 h3.
Proof. intros [G1 S1] [G2 S2]. split; [set_solver|]. intros l Hl Hn. rewrite S2, S1; [done..|set_solver|done]. Qed.

Lemma Frame_present ld h h' : Frame ld h h' -> ld ∈ dom h -> is_Some (h' !! ld).
Proof. intros [G _] Hl. by apply elem_of_dom, G. Qed.

Lemma present ld (h : heap) o : h !! ld = Some o -> ld ∈ dom h.
Proof. intros Ho. apply elem_of_dom. eauto. Qed.

(** ** The clones *)

(** [ds] are deliveries of copies of [o], to [cs] in order, each of an object that
    did not exist in [h]; what existed is as it was. *)
Record Cloned (o : object) (cs : list consumer) (ds : list delivery) (h h' : heap) : Prop := {
  cl_to : map dl_to ds = cs;
  cl_state : Forall (fun d => dl_state d = Some (mkObject (obj_data o) false)) ds;
  cl_new : Forall (fun d => dl_object d ∉ dom h /\ dl_object d ∈ dom h') ds;
  cl_distinct : NoDup (map dl_object ds);
  cl_grows : dom h ⊆ dom h';
  cl_same : forall l, l ∈ dom h -> h' !! l = h !! l;
}.

Lemma Cloned_nil o h : Cloned o [] [] h h.
Proof. split; [done|constructor..|done|done]. Qed.

Lemma Cloned_original o cs ds h h' ld : Cloned o cs ds h h' -> h !! ld = Some o -> h' !! ld = Some o.
Proof. intros C Ho. by rewrite (cl_same _ _ _ _ _ C) by by eapply present. Qed.

Lemma Cloned_apart o cs ds h h' ld : Cloned o cs ds h h' -> h !! ld = Some o -> Forall (fun d => dl_object d <> ld) ds.
Proof. intros C Ho. eapply Forall_impl; [apply (cl_new _ _ _ _ _ C)|]. intros d [Hd _] E. apply Hd. rewrite E. by eapply present. Qed.

Lemma Cloned_frame o cs ds h h' ld : Cloned o cs ds h h' -> Frame ld h h'.
Proof. intros C. split; [apply C|]. intros l Hl _. by apply C. Qed.

Lemma sendClone_spec ld c h log errs o : Lawful c -> h !! ld = Some o ->
  exists h' d, sendClone ld c (h, log, errs) = Some (h', log ++ [d], multierr_Append errs (dl_err d)) /\ Cloned o [c] [d] h h'.
Proof.
  intros Hc Ho. unfold sendClone, cloneLogs. rewrite Ho. cbn [mbind option_bind]. set (l := fresh (dom h)).
  assert (Hl : l ∉ dom h) by apply is_fresh. unfold send. set (h1 := <[l := mkObject (obj_data o) false]> h).
  assert (Hl1 : h1 !! l = Some (mkObject (obj_data o) false)) by apply lookup_insert_eq.
  destruct (Hc l h1 _ Hl1) as [ [Hdom Hsame] _]. destruct (Consume c l h1) as [h' err] eqn:E. cbn [fst] in *.
  assert (Hdom1 : dom h1 = {[l]} ∪ dom h) by apply dom_insert_L.
  eexists h', (mkDelivery c l (h1 !! l) err). split; [done|]. split.
  - done.
  - by apply Forall_singleton.
  - apply Forall_singleton. split; [done|]. set_solver.
  - apply NoDup_singleton.
  - set_solver.
  - intros l' Hl'. rewrite Hsame; [|set_solver..]. apply lookup_insert_ne. set_solver.
Qed.

Lemma Cloned_app o cs1 cs2 ds1 ds2 h h1 h2 : Cloned o cs1 ds1 h h1 -> Cloned o cs2 ds2 h1 h2 -> Cloned o (cs1 ++ cs2) (ds1 ++ ds2) h h2.
Proof.
  intros [T1 S1 N1 D1 G1 F1] [T2 S2 N2 D2 G2 F2]. split.
  - rewrite map_app. congruence.
  - by apply Forall_app_2.
  - apply Forall_app_2; (eapply Forall_impl; [eassumption|]); set_solver.
  - rewrite map_app. apply NoDup_app. split_and!; [done| |done]. intros x Hx Hx2.
    rewrite Forall_forall in N1, N2. apply list_elem_of_fmap in Hx as (d & -> & Hd), Hx2 as (d2 & E & Hd2).
    pose proof (N1 d Hd). pose proof (N2 d2 Hd2). rewrite E in *. set_solver.
  - set_solver.
  - intros l Hl. rewrite F2, F1; [done..|set_solver].
Qed.

Lemma sendClones_spec ld cs h log errs o : Forall Lawful cs -> h !! ld = Some o ->
  exists h' ds, sendClones ld cs (h, log, errs) = Some (h', log ++ ds, joinErrs ds errs) /\ Cloned o cs ds h h'.
Proof.
  intros Hcs. revert h log errs. induction Hcs as [|c cs Hc Hcs IH]; intros h log errs Ho; cbn [sendClones].
  - exists h, []. rewrite app_nil_r. split; [done|apply Cloned_nil].
  - destruct (sendClone_spec ld c h log errs o Hc Ho) as (h1 & d & -> & C1). cbn [mbind option_bind].
    destruct (IH h1 (log ++ [d]) (multierr_Append errs (dl_err d))) as (h2 & ds & -> & C2); [by eapply Cloned_original|].
    exists h2, (d :: ds). split; [by rewrite <- app_assoc|]. exact (Cloned_app o [c] cs [d] ds h h1 h2 C1 C2).
Qed.

(** ** The two phases *)

(** Deliveries to consumers that may change the data: of objects of their own, not
    read-only; the last one is the original only when nobody else is given it. *)
Record Owned (o : object) (ld : nat) (ms rs : list consumer) (ds : list delivery) (h h' : heap) : Prop := {
  ow_to : map dl_to ds = ms;
  ow_state : Forall (fun d => dl_state d = Some (mkObject (obj_data o) false)) ds;
  ow_distinct : NoDup (map dl_object ds);
  ow_original : (rs <> [] \/ ms = [] \/ obj_readOnly o = true) -> Forall (fun d => dl_object d <> ld) ds /\ h' !! ld = Some o;
  ow_frame : Frame ld h h';
}.

Lemma Cloned_owned o ld ms rs ds h h' : h !! ld = Some o -> Cloned o ms ds h h' -> Owned o ld ms rs ds h h'.
Proof.
  intros Ho C. split; [apply C..| |by eapply Cloned_frame]. intros _. split; [by eapply Cloned_apart|by eapply Cloned_original].
Qed.

(** The original goes to the last of them, after the clones. *)
Lemma Owned_last o ld ms c ds h h1 err : Lawful c -> h !! ld = Some o -> obj_readOnly o = false -> Cloned o ms ds h h1 ->
  Owned o ld (ms ++ [c]) [] (ds ++ [mkDelivery c ld (h1 !! ld) err]) h (Consume c ld h1).1.
Proof.
  intros Hc Ho Hw C. pose proof (Cloned_original _ _ _ _ _ _ C Ho) as Ho1. split.
  - rewrite map_app. by rewrite (cl_to _ _ _ _ _ C).
  - apply Forall_app_2; [apply C|]. apply Forall_singleton. cbn [dl_state]. rewrite Ho1. destruct o; simpl in *; congruence.
  - rewrite map_app. apply NoDup_app. split_and!; [apply C| |apply NoDup_singleton]. intros x Hx Hx2.
    apply list_elem_of_singleton in Hx2 as ->. apply list_elem_of_fmap in Hx as (d & E & Hd).
    pose proof (Cloned_apart _ _ _ _ _ _ C Ho) as Ha. rewrite Forall_forall in Ha. by apply (Ha d Hd).
  - intros [?|[?|?]]; [done|by destruct ms|congruence].
  - eapply Frame_trans; [by eapply Cloned_frame|]. apply (Hc ld h1 o Ho1).
Qed.

Lemma sendMutable_spec ld ms rs h errs o : Forall Lawful ms -> h !! ld = Some o ->
  exists h' ds, sendMutable ld ms rs (h, [], errs) = Some (h', ds, joinErrs ds errs) /\ Owned o ld ms rs ds h h'.
Proof.
  intros Hms Ho. unfold sendMutable. destruct (last ms) as [c|] eqn:Elast.
  - apply last_Some in Elast as [ms0 ->]. apply Forall_app in Hms as [Hms0 Hc]. rewrite Forall_singleton in Hc.
    rewrite removelast_app by done. simpl (removelast [c]). rewrite app_nil_r.
    destruct (sendClones_spec ld ms0 h [] errs o Hms0 Ho) as (h1 & ds & -> & C1). cbn [mbind option_bind app].
    pose proof (Cloned_original _ _ _ _ _ _ C1 Ho) as Ho1. unfold IsReadOnly. cbn [fst]. rewrite Ho1. cbn [mbind option_bind].
    destruct ((length rs =? 0)%nat && negb (obj_readOnly o)) eqn:Eo.
    + apply andb_true_iff in Eo as [Er%Nat.eqb_eq%nil_length_inv Ew%negb_true_iff]. subst rs.
      pose proof (fun err => Owned_last o ld ms0 c ds h h1 err Hc Ho Ew C1) as Hown. unfold send.
      destruct (Consume c ld h1) as [h' err]. exists h', (ds ++ [mkDelivery c ld (h1 !! ld) err]).
      split; [unfold joinErrs; by rewrite foldl_snoc|apply Hown].
    + destruct (sendClone_spec ld c h1 ds (joinErrs ds errs) o Hc Ho1) as (h2 & d & -> & C2).
      exists h2, (ds ++ [d]). split; [unfold joinErrs; by rewrite foldl_snoc|].
      apply Cloned_owned; [done|by eapply Cloned_app].
  - apply last_None in Elast as ->. exists h, []. split; [done|]. apply Cloned_owned; [done|apply Cloned_nil].
Qed.

(** Deliveries of the original itself, with its data, marked read-only if there are
    several. *)
Record Shared (o : object) (ld : nat) (several : bool) (rs : list consumer) (ds : list delivery) (h h' : heap) : Prop := {
  sh_to : map dl_to ds = rs;
  sh_state : Forall (fun d => dl_object d = ld /\ exists o', dl_state d = Some o' /\ Keeps o o' /\ (several = true -> obj_readOnly o' = true)) ds;
  sh_frame : Frame ld h h';
  sh_original : exists o', h' !! ld = Some o' /\ Keeps o o';
}.

Lemma sendAll_spec ld several o rs : Forall (fun c => Lawful c /\ MutatesData c = false) rs ->
  forall h log errs o1, h !! ld = Some o1 -> Keeps o o1 -> (several = true -> obj_readOnly o1 = true) ->
  exists h' ds, foldl (fun s c => send c ld s) (h, log, errs) rs = (h', log ++ ds, joinErrs ds errs) /\ Shared o ld several rs ds h h'.
Proof.
  induction 1 as [|c rs [Hc Hm] Hrs IH]; intros h log errs o1 Ho1 K1 Hro; cbn [foldl].
  - exists h, []. rewrite app_nil_r. split; [done|]. split; [done|constructor|apply Frame_refl|eauto].
  - destruct (Hc ld h o1 Ho1) as [Hf Hk]. destruct (Hk Hm) as (o2 & Ho2 & K2). unfold send at 2.
    destruct (Consume c ld h) as [h2 err]. cbn [fst] in *.
    destruct (IH h2 (log ++ [mkDelivery c ld (h !! ld) err]) (multierr_Append errs err) o2 Ho2) as (h3 & ds & -> & [T S F O]);
      [by eapply Keeps_trans|intros; by apply K2, Hro|].
    exists h3, (mkDelivery c ld (h !! ld) err :: ds). rewrite <- app_assoc. split; [done|]. split; [by rewrite <- T| |by eapply Frame_trans|done].
    constructor; [|done]. rewrite Ho1. eauto.
Qed.

Lemma sendReadOnly_spec ld rs h log errs o : Forall (fun c => Lawful c /\ MutatesData c = false) rs -> h !! ld = Some o ->
  exists h' ds, sendReadOnly ld rs (h, log, errs) = Some (h', log ++ ds, joinErrs ds errs) /\
    Shared o ld (1 <? length rs)%nat rs ds h h'.
Proof.
  intros Hrs Ho. unfold sendReadOnly, IsReadOnly. cbn [fst]. rewrite Ho. cbn [mbind option_bind].
  destruct ((1 <? length rs)%nat && negb (obj_readOnly o)) eqn:E.
  - unfold MarkReadOnly. set (h1 := alter _ ld h). assert (Ho1 : h1 !! ld = Some (mkObject (obj_data o) true)).
    { transitivity ((fun o => mkObject (obj_data o) true) <$> h !! ld); [apply lookup_alter_eq|by rewrite Ho]. }
    destruct (sendAll_spec ld (1 <? length rs)%nat o rs Hrs h1 log errs _ Ho1) as (h' & ds & -> & [T S F O]); [by split|done|].
    exists h', ds. split; [done|]. split; [done..| |done]. eapply Frame_trans; [|exact F]. split.
    + unfold h1. by rewrite dom_alter_L.
    + intros l _ Hl. by apply lookup_alter_ne.
  - destruct (sendAll_spec ld (1 <? length rs)%nat o rs Hrs h log errs o Ho) as (h' & ds & -> & S); [apply Keeps_refl| |eauto].
    intros Hl. rewrite Hl in E. by destruct (obj_readOnly o).
Qed.

(** ** The whole fan-out *)

Lemma NewLogs_split cs : foldl addConsumer ([], []) cs = (filter (fun c => MutatesData c = true) cs, filter (fun c => MutatesData c = false) cs).
Proof.
  assert (H : forall m r, foldl addConsumer (m, r) cs = (m ++ filter (fun c => MutatesData c = true) cs, r ++ filter (fun c => MutatesData c = false) cs)).
  { induction cs as [|c cs IH]; intros m r; cbn [foldl addConsumer]; [by rewrite !app_nil_r|].
    rewrite !filter_cons. destruct (MutatesData c) eqn:E; rewrite IH; case_decide; try done; case_decide; try done; by rewrite <- app_assoc. }
  apply H.
Qed.

Lemma filter_parts cs : filter (fun c => MutatesData c = true) cs ++ filter (fun c => MutatesData c = false) cs ≡ₚ cs.
Proof.
  induction cs as [|c cs IH]; [done|]. rewrite !filter_cons. destruct (MutatesData c) eqn:E; case_decide; try done; case_decide; try done.
  - simpl. by rewrite IH.
  - rewrite <- Permutation_middle. by rewrite IH.
Qed.

(** What a call of the fan-out did. *)
Record Delivered (cs : list consumer) (o : object) (ld : nat) (own shared : list delivery) (h h' : heap) : Prop := {
  dv_everybody : map dl_to (own ++ shared) ≡ₚ cs;
  dv_own : Forall (fun d => MutatesData (dl_to d) = true /\ dl_state d = Some (mkObject (obj_data o) false)) own;
  dv_own_distinct : NoDup (map dl_object own);
  dv_shared : Forall (fun d => MutatesData (dl_to d) = false /\ dl_object d = ld /\ exists o', dl_state d = Some o' /\ Keeps o o' /\
    ((1 < length shared)%nat -> obj_readOnly o' = true)) shared;
  dv_apart : Forall (fun d => dl_object d ∉ map dl_object shared) own;
  dv_original : Capabilities (NewLogs cs) = false \/ obj_readOnly o = true -> exists o', h' !! ld = Some o' /\ Keeps o o';
  dv_frame : Frame ld h h';
}.

(** One call of the fan-out, with the two phases put together. *)
Lemma phases_delivered cs o ld own shared h h1 h' :
  let ms := filter (fun c => MutatesData c = true) cs in let rs := filter (fun c => MutatesData c = false) cs in
  Capabilities (NewLogs cs) = (0 <? length ms)%nat && (length rs =? 0)%nat ->
  Owned o ld ms rs own h h1 ->
  (rs <> [] \/ ms = [] \/ obj_readOnly o = true -> Shared o ld (1 <? length rs)%nat rs shared h1 h') ->
  (rs = [] -> shared = [] /\ h' = h1) ->
  Delivered cs o ld own shared h h'.
Proof.
  intros ms rs Hcap [T S Di O F] Hsh Hnil.
  assert (Hto : map dl_to shared = rs) by (destruct (decide (rs = [])) as [E|E]; [by destruct (Hnil E) as [-> _]; rewrite E|apply Hsh; auto]).
  assert (Hlen : length shared = length rs) by (by rewrite <- Hto, length_map).
  assert (Hkind : forall b (ds : list delivery), map dl_to ds = filter (fun c => MutatesData c = b) cs -> Forall (fun d => MutatesData (dl_to d) = b) ds).
  { intros b ds E. apply Forall_forall. intros d Hd. assert (Hin : dl_to d ∈ map dl_to ds) by by apply list_elem_of_fmap_2.
    rewrite E in Hin. by apply list_elem_of_filter in Hin as [? _]. }
  split.
  - rewrite map_app, T, Hto. apply filter_parts.
  - apply Forall_and. split; [by apply Hkind|done].
  - done.
  - apply Forall_and. split; [by apply Hkind|]. destruct (decide (rs = [])) as [E|E]; [destruct (Hnil E) as [-> _]; constructor|].
    eapply Forall_impl; [apply (sh_state _ _ _ _ _ _ _ (Hsh (or_introl E)))|]. intros d (? & o' & ? & ? & Hs). split; [done|].
    exists o'. split_and!; [done..|]. intros Hl. apply Hs, Nat.ltb_lt. lia.
  - destruct (decide (rs = [])) as [E|E]; [destruct (Hnil E) as [-> _]; apply Forall_forall; intros; apply not_elem_of_nil|].
    eapply Forall_impl; [apply (O (or_introl E))|]. intros d Hd Hin. apply list_elem_of_fmap in Hin as (d' & Ed & Hd').
    pose proof (sh_state _ _ _ _ _ _ _ (Hsh (or_introl E))) as HF. rewrite Forall_forall in HF. destruct (HF d' Hd') as [? _]. congruence.
  - intros Hc. apply Hsh. destruct Hc as [Hc|Hc]; [|auto]. rewrite Hcap in Hc. destruct ms; [auto|]. destruct rs; [done|by left].
  - destruct (decide (rs = [])) as [E|E]; [by destruct (Hnil E) as [_ ->]|].
    eapply Frame_trans; [exact F|apply (sh_frame _ _ _ _ _ _ _ (Hsh (or_introl E)))].
Qed.

Lemma wrapped_spec cs ld h o : Forall Lawful cs -> h !! ld = Some o ->
  let ms := filter (fun c => MutatesData c = true) cs in let rs := filter (fun c => MutatesData c = false) cs in
  Capabilities (NewLogs cs) = Capabilities (logsConsumer ms rs) ->
  exists h' own shared, ConsumeLogs (logsConsumer ms rs) ld h = Some (h', own ++ shared, joinErrs (own ++ shared) None) /\
    Delivered cs o ld own shared h h'.
Proof.
  intros Hcs Ho ms rs Hcap. cbn [ConsumeLogs].
  rewrite Forall_forall in Hcs.
  assert (Hms : Forall Lawful ms) by (apply Forall_forall; intros c Hc; apply list_elem_of_filter in Hc as [_ Hc]; auto).
  assert (Hrs : Forall (fun c => Lawful c /\ MutatesData c = false) rs).
  { apply Forall_forall. intros c Hc. apply list_elem_of_filter in Hc as [Hm Hc]. auto. }
  destruct (sendMutable_spec ld ms rs h None o Hms Ho) as (h1 & own & -> & Hown). cbn [mbind option_bind].
  destruct (Frame_present _ _ _ (ow_frame _ _ _ _ _ _ _ Hown) (present _ _ _ Ho)) as [o1 Ho1].
  destruct (sendReadOnly_spec ld rs h1 own (joinErrs own None) o1 Hrs Ho1) as (h' & shared & E & Hsh).
  exists h', own, shared. rewrite E. split; [unfold joinErrs; by rewrite foldl_app|].
  eapply phases_delivered; [exact Hcap|exact Hown| |].
  - intros Hc. destruct (ow_original _ _ _ _ _ _ _ Hown Hc) as [_ Ho2]. rewrite Ho2 in Ho1. by injection Ho1 as ->.
  - intros Hn. fold rs in Hn. clear Hown Hsh Hcap. unfold sendReadOnly, IsReadOnly in E. cbn [fst] in E. rewrite Ho1 in E. rewrite Hn in E.
    cbn in E. injection E as -> E _. split; [|done]. by destruct shared; [|apply (f_equal length) in E; rewrite length_app in E; simpl in E; lia].
Qed.

(** A fan-out over consumers that keep the rules hands the data to every one of
    them once. *)
Lemma fanout_delivered cs ld h o : Forall Lawful cs -> h !! ld = Some o ->
  exists h' own shared, ConsumeLogs (NewLogs cs) ld h = Some (h', own ++ shared, joinErrs (own ++ shared) None) /\
    Delivered cs o ld own shared h h'.
Proof.
  intros Hcs Ho. pose proof (wrapped_spec cs ld h o Hcs Ho) as Hw. cbv zeta in Hw.
  unfold NewLogs in *. rewrite !NewLogs_split in *. destruct cs as [|c [|c2 cs]]; [by apply Hw| |by apply Hw].
  destruct (MutatesData c) eqn:Em; cbn [negb] in *; [by apply Hw|].
  rewrite Forall_singleton in Hcs. destruct (Hcs ld h o Ho) as [Hf Hk]. cbn [ConsumeLogs]. unfold send.
  destruct (Consume c ld h) as [h' err] eqn:E. cbn [fst] in *. exists h', [], [mkDelivery c ld (h !! ld) err]. split; [done|]. split.
  - done.
  - constructor.
  - constructor.
  - apply Forall_singleton. split_and!; [done..|]. exists o. split_and!; [done|apply Keeps_refl|simpl; lia].
  - constructor.
  - auto.
  - done.
Qed.

(** C27: a fan-out over consumers that keep the rules of the consumer interface keeps
    them itself, so that fan-outs nest; and each call hands the data, as it was when
    the call came in, to every consumer exactly once.  A consumer that changes data
    is given an object that is not read-only and that no other consumer is given.
    The others share the original, marked read-only if they are several.  If the
    fan-out declares that it does not change data, or the original was read-only,
    the original's data is afterwards what it was.  The errors of all consumers are
    reported. *)
Theorem fanout_isolation cs : Forall Lawful cs ->
  Lawful (asConsumer (NewLogs cs)) /\
  forall ld h o, h !! ld = Some o ->
  exists h' own shared,
    ConsumeLogs (NewLogs cs) ld h = Some (h', own ++ shared, joinErrs (own ++ shared) None) /\
    Delivered cs o ld own shared h h'.
Proof.
  intros Hcs. split; [|intros; by apply fanout_delivered].
  intros l h o Ho. destruct (fanout_delivered cs l h o Hcs Ho) as (h' & own & shared & E & Hd).
  cbn [asConsumer Consume MutatesData]. rewrite E. cbn [fst]. split; [apply Hd|]. intros Hc. apply Hd. by left.
Qed.
End Fanout.

(** ** Four consumers, two of which change the data *)
Definition adder (k : Z) : @consumer Z := mkConsumer true (fun l h => (alter (fun o => mkObject (obj_data o + k)%Z (obj_readOnly o)) l h, None)).
Definition refuser (msg : string) : @consumer Z := mkConsumer false (fun _ h => (h, Some (New msg))).
Definition sampleConsumers : list (@consumer Z) := [refuser "first"; adder 1%Z; refuser "second"; adder 2%Z].

Lemma adder_lawful k : Lawful (adder k).
Proof.
  intros l h o Ho. cbn. split; [|done]. split; [by rewrite dom_alter_L|]. intros l' _ Hn. by apply lookup_alter_ne.
Qed.

Lemma refuser_lawful msg : Lawful (refuser msg).
Proof. intros l h o Ho. cbn. split; [apply Frame_refl|]. intros _. exists o. split; [done|apply Keeps_refl]. Qed.

Lemma fanout_isolation_witness :
  (exists h', (fun s => (s.1.1, map dl_object s.1.2, map dl_state s.1.2)) <$> ConsumeLogs (NewLogs sampleConsumers) 0%nat {[0%nat := mkObject 5%Z false]}
    = Some (h', [1%nat; 2%nat; 0%nat; 0%nat],
        [Some (mkObject 5%Z false); Some (mkObject 5%Z false); Some (mkObject 5%Z true); Some (mkObject 5%Z true)]) /\
    map_to_list h' ≡ₚ [(0%nat, mkObject 5%Z true); (1%nat, mkObject 6%Z false); (2%nat, mkObject 7%Z false)]) /\
  Lawful (asConsumer (NewLogs sampleConsumers)).
Proof.
  split.
  - eexists. split; [vm_compute; reflexivity|]. vm_compute. solve_Permutation.
  - apply (fanout_isolation sampleConsumers). repeat first [apply Forall_cons_2|apply adder_lawful|apply refuser_lawful|apply Forall_nil_2].
Defined.
