(* ===== verification/PipelineGraph.v ===== *)
(** * The graph of the pipelines (service/internal/graph/graph.go)

    The nodes and edges that [Build] makes out of the configured pipelines:
    [createNodes] and [createEdges].

    Go identifies a node by a hash of its attributes, here it is identified by the
    attributes.  The order in which Go ranges over a map is left open: the pipelines come
    as a list in any order, and [range] is any order of the other maps.  The library of
    graphs is an interface with what it documents as laws. *)

From stdpp Require Import gmap strings.
From S2P Require Import Prelude Errors.

(** ** Identifiers *)
Inductive Signal := SignalTraces | SignalMetrics | SignalLogs | SignalProfiles.

#[export] Instance Signal_eq_dec : EqDecision Signal.
Proof. solve_decision. Defined.
#[export] Instance Signal_countable : Countable Signal.
Proof.
  refine (inj_countable'
    (fun s => match s with SignalTraces => 1 | SignalMetrics => 2 | SignalLogs => 3 | SignalProfiles => 4 end%positive)
    (fun p => match p with 1 => SignalTraces | 2 => SignalMetrics | 3 => SignalLogs | _ => SignalProfiles end%positive) _).
  by intros [].
Defined.

(** Type and name; signal and name. *)
Abbreviation ID := (string * string)%type.
Abbreviation pipelineID := (Signal * string)%type.

Definition idString (id : ID) : string := if decide (id.2 = "") then id.1 else id.1 ++ "/" ++ id.2.

Definition signalString (s : Signal) : string :=
  match s with SignalTraces => "traces" | SignalMetrics => "metrics" | SignalLogs => "logs" | SignalProfiles => "profiles" end.

Definition pipelineString (id : pipelineID) : string := if decide (id.2 = "") then signalString id.1 else signalString id.1 ++ "/" ++ id.2.

(** ** Nodes, with the attributes that identify them (attribute.go) *)
Inductive node :=
  | receiverNode (pipelineType : Signal) (id : ID)
  | processorNode (pid : pipelineID) (id : ID)
  | exporterNode (pipelineType : Signal) (id : ID)
  | connectorNode (exprPipelineType rcvrPipelineType : Signal) (id : ID)
  | capabilitiesNode (pid : pipelineID)
  | fanOutNode (pid : pipelineID).

#[export] Instance node_eq_dec : EqDecision node.
Proof. solve_decision. Defined.
#[export] Instance node_countable : Countable node.
Proof.
  refine (inj_countable'
    (fun n => match n with
     | receiverNode s id => inl (inl (s, id)) | processorNode p id => inl (inr (inl (p, id))) | exporterNode s id => inl (inr (inr (s, id)))
     | connectorNode e r id => inr (inl (e, r, id)) | capabilitiesNode p => inr (inr (inl p)) | fanOutNode p => inr (inr (inr p)) end)
    (fun x => match x with
     | inl (inl (s, id)) => receiverNode s id | inl (inr (inl (p, id))) => processorNode p id | inl (inr (inr (s, id))) => exporterNode s id
     | inr (inl (e, r, id)) => connectorNode e r id | inr (inr (inl p)) => capabilitiesNode p | inr (inr (inr p)) => fanOutNode p end) _).
  by intros [].
Defined.

(** ** gonum's simple.DirectedGraph and topo

    [None] is a panic.  The laws are stated with the sets of nodes and edges. *)
Class DirectedGraph (G : Type) := {
  NewDirectedGraph : G;
  HasNode : node -> G -> bool;
  AddNode : node -> G -> option G;
  SetEdge : node -> node -> G -> option G;
  RemoveNode : node -> G -> G;
  From : node -> G -> list node;
  Sort : G -> list node + error;
  (** whether [errors.As] finds a [topo.Unorderable] in an error *)
  Unorderable : error -> bool;
  DirectedCyclesIn : G -> list (list node);
  nodesOf : G -> gset node;
  edgesOf : G -> gset (node * node);
}.

(** What holds of the edge relation of a graph. *)
Definition edge `{DirectedGraph G} (g : G) : relation node := fun u v => (u, v) ∈ edgesOf g.

Class DirectedGraphLaws (G : Type) `{DirectedGraph G} : Prop := {
  New_nodes : nodesOf NewDirectedGraph = ∅;
  New_edges : edgesOf NewDirectedGraph = ∅;
  HasNode_spec n g : HasNode n g = bool_decide (n ∈ nodesOf g);
  AddNode_new n g : n ∉ nodesOf g -> exists g', AddNode n g = Some g' /\ nodesOf g' = {[n]} ∪ nodesOf g /\ edgesOf g' = edgesOf g;
  AddNode_old n g : n ∈ nodesOf g -> AddNode n g = None;
  SetEdge_spec u v g : u <> v -> exists g', SetEdge u v g = Some g' /\ nodesOf g' = {[u; v]} ∪ nodesOf g /\ edgesOf g' = {[(u, v)]} ∪ edgesOf g;
  SetEdge_self u g : SetEdge u u g = None;
  RemoveNode_nodes n g : nodesOf (RemoveNode n g) = nodesOf g ∖ {[n]};
  RemoveNode_edges n g u v : (u, v) ∈ edgesOf (RemoveNode n g) <-> (u, v) ∈ edgesOf g /\ u <> n /\ v <> n;
  edges_nodes g u v : (u, v) ∈ edgesOf g -> u ∈ nodesOf g /\ v ∈ nodesOf g;
  From_spec n g : NoDup (From n g) /\ forall m, m ∈ From n g <-> (n, m) ∈ edgesOf g;
  Sort_sorted g l : Sort g = inl l -> NoDup l /\ (forall n, n ∈ l <-> n ∈ nodesOf g) /\
    forall u v, (u, v) ∈ edgesOf g -> exists a b c, l = a ++ u :: b ++ v :: c;
  Sort_cyclic g err : Sort g = inr err -> exists n, tc (edge g) n n;
  Cycles_are_cycles g c : c ∈ DirectedCyclesIn g -> exists n l, c = n :: l ++ [n] /\ forall u v, (exists a b, c = a ++ u :: v :: b) -> edge g u v;
}.

(** ** Configuration and factories *)
Record PipelineConfig := mkPipelineConfig { Receivers : list ID; Processors : list ID; Exporters : list ID }.

(** service/pipelines/config.go. *)
Fixpoint duplicateProcessor (procSet : list ID) (refs : list ID) : option error :=
  match refs with
  | [] => None
  | ref :: refs =>
      if decide (ref ∈ procSet) then Some (Errorf "references processor %q multiple times" [ArgS (idString ref)])
      else duplicateProcessor (ref :: procSet) refs
  end.

Definition PipelineConfig_Validate (cfg : PipelineConfig) : option error :=
  match Receivers cfg, Exporters cfg with
  | [], _ => Some (New "must have at least one receiver")
  | _, [] => Some (New "must have at least one exporter")
  | _, _ => duplicateProcessor [] (Processors cfg)
  end.

(** A connector.Factory: whether it is also an xconnector.Factory, and its stability
    levels, 0 being undefined. *)
Record Factory := mkFactory { isXFactory : bool; Stability : Signal -> Signal -> Z }.

Record Settings := mkSettings {
  PipelineConfigs : list (pipelineID * PipelineConfig);
  IsConfigured : ID -> bool;
  ConnectorFactory : string -> option Factory;
}.

Definition connectorStability (f : Factory) (expType recType : Signal) : Z :=
  match expType, recType with
  | SignalProfiles, _ | _, SignalProfiles => if isXFactory f then Stability f expType recType else 0
  | _, _ => Stability f expType recType
  end.

(** ** The graph *)
Inductive Kind := KindReceiver | KindProcessor | KindExporter | KindConnector.

#[export] Instance Kind_eq_dec : EqDecision Kind.
Proof. solve_decision. Defined.

(** The pipelines are encoded as a sorted text without duplicates, here as their set. *)
Record InstanceID := mkInstanceID { componentID : ID; kind : Kind; pipelineIDs : gset pipelineID }.

Definition NewInstanceID (id : ID) (k : Kind) (pids : list pipelineID) : InstanceID := mkInstanceID id k (list_to_set pids).
Definition WithPipelines (i : InstanceID) (pids : list pipelineID) : InstanceID :=
  mkInstanceID (componentID i) (kind i) (list_to_set pids ∪ pipelineIDs i).

(** The capabilities and fan-out nodes of a pipeline are those of its ID. *)
Record pipelineNodes := mkPipelineNodes { receivers : gset node; processors : list node; exporters : gset node }.

Record Graph (G : Type) := mkGraph {
  componentGraph : G;
  pipelines : gmap pipelineID pipelineNodes;
  instanceIDs : gmap node InstanceID;
}.
Arguments mkGraph {_} _ _ _.
Arguments componentGraph {_} _.
Arguments pipelines {_} _.
Arguments instanceIDs {_} _.

(** Results: a value, an error, a panic. *)
Inductive outcome (A : Type) := Ok (x : A) | Err (e : error) | Panic.
Arguments Ok {_} _.
Arguments Err {_} _.
Arguments Panic {_}.

Definition bind {A B} (x : outcome A) (f : A -> outcome B) : outcome B :=
  match x with Ok x => f x | Err e => Err e | Panic => Panic end.

Definition orPanic {A} (x : option A) : outcome A := match x with Some x => Ok x | None => Panic end.

(** A loop over a list that may end early. *)
Fixpoint foreach {A S} (f : A -> S -> outcome S) (l : list A) (s : S) : outcome S :=
  match l with [] => Ok s | x :: l => bind (f x s) (foreach f l) end.

(** The order in which a map is ranged over. *)
Class Range := { range : forall {A : Type}, list A -> list A }.
Class RangeLaws `{Range} : Prop := { range_perm A (l : list A) : range l ≡ₚ l }.

Section Create.
Context {G : Type} `{DirectedGraph G}.
Implicit Types (g : Graph G).

Definition setGraph (cg : G) g : Graph G := mkGraph cg (pipelines g) (instanceIDs g).
Definition setInstance (n : node) (i : InstanceID) g : Graph G := mkGraph (componentGraph g) (pipelines g) (<[n := i]> (instanceIDs g)).

(** Writing through the pointer [g.pipelines[pid]]. *)
Definition updatePipe (pid : pipelineID) (f : pipelineNodes -> pipelineNodes) g : outcome (Graph G) :=
  match pipelines g !! pid with
  | Some pn => Ok (mkGraph (componentGraph g) (<[pid := f pn]> (pipelines g)) (instanceIDs g))
  | None => Panic
  end.

Definition addReceiver (n : node) (pn : pipelineNodes) : pipelineNodes := mkPipelineNodes ({[n]} ∪ receivers pn) (processors pn) (exporters pn).
Definition addProcessor (n : node) (pn : pipelineNodes) : pipelineNodes := mkPipelineNodes (receivers pn) (processors pn ++ [n]) (exporters pn).
Definition addExporter (n : node) (pn : pipelineNodes) : pipelineNodes := mkPipelineNodes (receivers pn) (processors pn) ({[n]} ∪ exporters pn).

(** A node that several pipelines share: it is made once, then its instance is extended.
    The nil instance of a node that is there without one would panic. *)
Definition createShared (n : node) (id : ID) (k : Kind) (pids : list pipelineID) g : outcome (Graph G) :=
  if HasNode n (componentGraph g) then
    match instanceIDs g !! n with
    | Some i => Ok (setInstance n (WithPipelines i pids) g)
    | None => Panic
    end
  else bind (orPanic (AddNode n (componentGraph g))) (fun cg => Ok (setInstance n (NewInstanceID id k pids) (setGraph cg g))).

Definition createReceiver (pid : pipelineID) (recvID : ID) g : outcome (Graph G) :=
  createShared (receiverNode pid.1 recvID) recvID KindReceiver [pid] g.

Definition createProcessor (pid : pipelineID) (procID : ID) g : outcome (Graph G) :=
  let procNode := processorNode pid procID in
  bind (orPanic (AddNode procNode (componentGraph g))) (fun cg => Ok (setInstance procNode (NewInstanceID procID KindProcessor [pid]) (setGraph cg g))).

Definition createExporter (pid : pipelineID) (exprID : ID) g : outcome (Graph G) :=
  createShared (exporterNode pid.1 exprID) exprID KindExporter [pid] g.

Definition createConnector (exprPipelineID rcvrPipelineID : pipelineID) (connID : ID) g : outcome (Graph G) :=
  createShared (connectorNode exprPipelineID.1 rcvrPipelineID.1 connID) connID KindConnector [exprPipelineID; rcvrPipelineID] g.

(** ** createNodes

    The connectors found, in the order they were found in, and where they are used. *)
Record uses := mkUses {
  connectors : list ID;
  connectorsAsExporter : gmap ID (list pipelineID);
  connectorsAsReceiver : gmap ID (list pipelineID);
}.

Definition usesOf (m : gmap ID (list pipelineID)) (id : ID) : list pipelineID := default [] (m !! id).
Definition addUse (id : ID) (pid : pipelineID) (m : gmap ID (list pipelineID)) := <[id := usesOf m id ++ [pid]]> m.
Definition addConnector (id : ID) (ids : list ID) : list ID := if decide (id ∈ ids) then ids else ids ++ [id].

Context (set : Settings).

Definition receiverLoop (pid : pipelineID) (recvID : ID) (st : Graph G * uses) : outcome (Graph G * uses) :=
  let '(g, u) := st in
  if IsConfigured set recvID then
    Ok (g, mkUses (addConnector recvID (connectors u)) (connectorsAsExporter u) (addUse recvID pid (connectorsAsReceiver u)))
  else
    bind (createReceiver pid recvID g) (fun g => bind (updatePipe pid (addReceiver (receiverNode pid.1 recvID)) g) (fun g => Ok (g, u))).

Definition processorLoop (pid : pipelineID) (procID : ID) g : outcome (Graph G) :=
  bind (createProcessor pid procID g) (updatePipe pid (addProcessor (processorNode pid procID))).

Definition exporterLoop (pid : pipelineID) (exprID : ID) (st : Graph G * uses) : outcome (Graph G * uses) :=
  let '(g, u) := st in
  if IsConfigured set exprID then
    Ok (g, mkUses (addConnector exprID (connectors u)) (addUse exprID pid (connectorsAsExporter u)) (connectorsAsReceiver u))
  else
    bind (createExporter pid exprID g) (fun g => bind (updatePipe pid (addExporter (exporterNode pid.1 exprID)) g) (fun g => Ok (g, u))).

Definition pipelineLoop (pc : pipelineID * PipelineConfig) (st : Graph G * uses) : outcome (Graph G * uses) :=
  let '(pid, pipelineCfg) := pc in
  bind (foreach (receiverLoop pid) (Receivers pipelineCfg) st) (fun '(g, u) =>
  bind (foreach (processorLoop pid) (Processors pipelineCfg) g) (fun g =>
  foreach (exporterLoop pid) (Exporters pipelineCfg) (g, u))).

Definition formatPipelineNamesWithSignal (pids : list pipelineID) (s : Signal) : list string :=
  map pipelineString (filter (fun pid => pid.1 = s) pids).

(** The keys of the maps [expTypes] and [recTypes], and whether the value of a key is set:
    some key of the other map is supported with it. *)
Definition signalsOf (pids : list pipelineID) : list Signal := remove_dups (map fst pids).

Definition supported (f : Factory) (expType recType : Signal) : bool := negb (connectorStability f expType recType =? 0)%Z.

Context `{Range}.

Definition checkConnector (connID : ID) (f : Factory) (asExporter asReceiver : list pipelineID) : option error :=
  let expTypes := range (signalsOf asExporter) in
  let recTypes := range (signalsOf asReceiver) in
  match List.find (fun e => negb (existsb (fun r => supported f e r) recTypes)) expTypes with
  | Some e => Some (Errorf "connector %q used as exporter in %v pipeline but not used in any supported receiver pipeline"
                [ArgS (idString connID); ArgL (formatPipelineNamesWithSignal asExporter e)])
  | None =>
      match List.find (fun r => negb (existsb (fun e => supported f e r) expTypes)) recTypes with
      | Some r => Some (Errorf "connector %q used as receiver in %v pipeline but not used in any supported exporter pipeline"
                    [ArgS (idString connID); ArgL (formatPipelineNamesWithSignal asReceiver r)])
      | None => None
      end
  end.

Definition connectPair (connID : ID) (f : Factory) (eID rID : pipelineID) g : outcome (Graph G) :=
  if (connectorStability f eID.1 rID.1 =? 0)%Z then Ok g
  else
    let connNode := connectorNode eID.1 rID.1 connID in
    bind (createConnector eID rID connID g) (fun g =>
    bind (updatePipe eID (addExporter connNode) g) (updatePipe rID (addReceiver connNode))).

Definition connectorLoop (u : uses) (connID : ID) g : outcome (Graph G) :=
  match ConnectorFactory set connID.1 with
  | None => Err (Errorf "connector factory not available for: %q" [ArgS connID.1])
  | Some f =>
      let asExporter := usesOf (connectorsAsExporter u) connID in
      let asReceiver := usesOf (connectorsAsReceiver u) connID in
      match checkConnector connID f asExporter asReceiver with
      | Some e => Err e
      | None => foreach (fun eID => foreach (connectPair connID f eID) asReceiver) asExporter g
      end
  end.

Definition createNodes g : outcome (Graph G) :=
  bind (foreach pipelineLoop (PipelineConfigs set) (g, mkUses [] ∅ ∅)) (fun '(g, u) =>
  foreach (connectorLoop u) (range (connectors u)) g).

(** ** createEdges *)
Definition setEdge (u v : node) g : outcome (Graph G) := bind (orPanic (SetEdge u v (componentGraph g))) (fun cg => Ok (setGraph cg g)).

(** Chaining the processors from [from] to the fan-out node. *)
Fixpoint chain (from : node) (procs : list node) (last : node) g : outcome (Graph G) :=
  match procs with
  | [] => setEdge from last g
  | to :: procs => bind (setEdge from to g) (chain to procs last)
  end.

Definition pipelineEdges (pp : pipelineID * pipelineNodes) g : outcome (Graph G) :=
  let '(pid, pg) := pp in
  bind (foreach (fun receiver => setEdge receiver (capabilitiesNode pid)) (range (elements (receivers pg))) g) (fun g =>
  bind (chain (capabilitiesNode pid) (processors pg) (fanOutNode pid) g) (fun g =>
  foreach (fun exporter => setEdge (fanOutNode pid) exporter) (range (elements (exporters pg))) g)).

Definition createEdges g : outcome (Graph G) := foreach pipelineEdges (range (map_to_list (pipelines g))) g.

(** The graph before its components are built. *)
Definition emptyGraph : Graph G :=
  mkGraph NewDirectedGraph (list_to_map (map (fun pc => (pc.1, mkPipelineNodes ∅ [] ∅)) (PipelineConfigs set))) ∅.

Definition layout : outcome (Graph G) := bind (createNodes emptyGraph) createEdges.
End Create.
