(* ===== verification/PipelineGraphProofs.v ===== *)
(** * What the graph of the pipelines looks like

    The nodes are made by a sequence of declarations, one for each mention of a component
    in a pipeline and each supported pair of uses of a connector.  The graph is determined
    by the declarations, and so by the configuration. *)

From stdpp Require Import gmap strings.
From S2P Require Import Prelude Errors PipelineGraph.

(** ** Declarations *)
Inductive decl :=
  | DReceiver (pid : pipelineID) (id : ID)
  | DProcessor (pid : pipelineID) (id : ID)
  | DExporter (pid : pipelineID) (id : ID)
  | DConnector (eID rID : pipelineID) (id : ID).

#[export] Instance decl_eq_dec : EqDecision decl.
Proof. solve_decision. Defined.

Definition declNode (d : decl) : node :=
  match d with
  | DReceiver pid id => receiverNode pid.1 id
  | DProcessor pid id => processorNode pid id
  | DExporter pid id => exporterNode pid.1 id
  | DConnector e r id => connectorNode e.1 r.1 id
  end.

Definition declPids (d : decl) : list pipelineID :=
  match d with DReceiver pid _ | DProcessor pid _ | DExporter pid _ => [pid] | DConnector e r _ => [e; r] end.

Definition declKind (d : decl) : Kind :=
  match d with DReceiver _ _ => KindReceiver | DProcessor _ _ => KindProcessor | DExporter _ _ => KindExporter | DConnector _ _ _ => KindConnector end.

Definition declID (d : decl) : ID :=
  match d with DReceiver _ id | DProcessor _ id | DExporter _ id | DConnector _ _ id => id end.

(** The pipeline in which the node is among the receivers, the processors, the exporters. *)
Definition declReceives (pid : pipelineID) (d : decl) : Prop :=
  match d with DReceiver p _ => p = pid | DConnector _ r _ => r = pid | _ => False end.
Definition declProcesses (pid : pipelineID) (d : decl) : Prop := match d with DProcessor p _ => p = pid | _ => False end.
Definition declExports (pid : pipelineID) (d : decl) : Prop :=
  match d with DExporter p _ => p = pid | DConnector e _ _ => e = pid | _ => False end.

#[export] Instance declReceives_dec pid d : Decision (declReceives pid d).
Proof. destruct d; cbn; apply _. Defined.
#[export] Instance declProcesses_dec pid d : Decision (declProcesses pid d).
Proof. destruct d; cbn; apply _. Defined.
#[export] Instance declExports_dec pid d : Decision (declExports pid d).
Proof. destruct d; cbn; apply _. Defined.

(** What declarations amount to. *)
Definition pipeOf (ds : list decl) (pid : pipelineID) : pipelineNodes :=
  mkPipelineNodes (list_to_set (map declNode (filter (declReceives pid) ds))) (map declNode (filter (declProcesses pid) ds))
    (list_to_set (map declNode (filter (declExports pid) ds))).

Definition instanceOf (ds : list decl) (n : node) : option InstanceID :=
  match filter (fun d => declNode d = n) ds with
  | [] => None
  | d :: _ => Some (mkInstanceID (declID d) (declKind d) (list_to_set (flat_map declPids (filter (fun d => declNode d = n) ds))))
  end.

Lemma declNode_same d d' : declNode d = declNode d' -> declID d = declID d' /\ declKind d = declKind d'.
Proof. destruct d, d'; intros [=]; cbn; by subst. Qed.

Lemma declNode_processor d pid id : declNode d = processorNode pid id -> d = DProcessor pid id.
Proof. destruct d; intros [=]; by subst. Qed.

Lemma instanceOf_snoc ds d n : instanceOf (ds ++ [d]) n =
  if decide (declNode d = n) then
    Some (match instanceOf ds n with Some i => WithPipelines i (declPids d) | None => NewInstanceID (declID d) (declKind d) (declPids d) end)
  else instanceOf ds n.
Proof.
  unfold instanceOf. rewrite filter_app. case_decide as Hn.
  - rewrite filter_cons_True, filter_nil by done. destruct (filter _ ds) as [|d0 l] eqn:E.
    + cbn [app flat_map]. unfold NewInstanceID. by rewrite app_nil_r.
    + assert (H0 : declNode d0 = n) by (apply (list_elem_of_filter (fun d => declNode d = n) ds); rewrite E; left).
      cbn [app]. unfold WithPipelines. cbn [componentID kind pipelineIDs]. do 2 f_equal. change (d0 :: l ++ [d]) with ((d0 :: l) ++ [d]).
      rewrite flat_map_app. cbn [flat_map app]. rewrite app_nil_r, !list_to_set_app_L. set_solver.
  - rewrite filter_cons_False, filter_nil, app_nil_r by done. done.
Qed.

Lemma instanceOf_is_Some ds n : is_Some (instanceOf ds n) <-> n ∈ map declNode ds.
Proof.
  unfold instanceOf. rewrite list_elem_of_fmap. split.
  - destruct (filter _ ds) as [|d l] eqn:E; [by intros []|]. intros _. exists d.
    assert (Hd : d ∈ filter (fun d => declNode d = n) ds) by (rewrite E; left). apply list_elem_of_filter in Hd. naive_solver.
  - intros (d & -> & Hd). destruct (filter _ ds) eqn:E; [|done].
    assert (Hf : d ∈ filter (fun d' => declNode d' = declNode d) ds) by by apply list_elem_of_filter. rewrite E in Hf. set_solver.
Qed.

Lemma list_filter_empty {A} (P : A -> Prop) `{forall x, Decision (P x)} l : (forall x, x ∈ l -> ~ P x) -> filter P l = [].
Proof. intros Hn. apply elem_of_nil_inv. intros x [Hp Hx]%list_elem_of_filter. by apply (Hn x). Qed.

Section Shape.
Context {G : Type} `{DirectedGraphLaws G}.
Implicit Types (g : Graph G) (ds : list decl).

(** The graph the declarations [ds] make, for the pipelines [pids]. *)
Definition Shape (pids : list pipelineID) ds g : Prop :=
  nodesOf (componentGraph g) = list_to_set (map declNode ds) /\ edgesOf (componentGraph g) = ∅ /\
  (forall n, instanceIDs g !! n = instanceOf ds n) /\
  (forall pid, pipelines g !! pid = if decide (pid ∈ pids) then Some (pipeOf ds pid) else None).

Definition declare (d : decl) g : outcome (Graph G) :=
  match d with
  | DReceiver pid id => bind (createReceiver pid id g) (updatePipe pid (addReceiver (receiverNode pid.1 id)))
  | DProcessor pid id => processorLoop pid id g
  | DExporter pid id => bind (createExporter pid id g) (updatePipe pid (addExporter (exporterNode pid.1 id)))
  | DConnector e r id => let n := connectorNode e.1 r.1 id in
      bind (createConnector e r id g) (fun g => bind (updatePipe e (addExporter n) g) (updatePipe r (addReceiver n)))
  end.

(** Creating the node and its instance. *)
Definition Created (pids : list pipelineID) ds (d : decl) g g' : Prop :=
  nodesOf (componentGraph g') = list_to_set (map declNode (ds ++ [d])) /\ edgesOf (componentGraph g') = ∅ /\
  (forall n, instanceIDs g' !! n = instanceOf (ds ++ [d]) n) /\ pipelines g' = pipelines g.

Lemma instance_inserted ds d g i : (forall n, instanceIDs g !! n = instanceOf ds n) ->
  i = match instanceOf ds (declNode d) with Some i => WithPipelines i (declPids d) | None => NewInstanceID (declID d) (declKind d) (declPids d) end ->
  forall n, <[declNode d := i]> (instanceIDs g) !! n = instanceOf (ds ++ [d]) n.
Proof.
  intros Hi -> n. rewrite instanceOf_snoc. case_decide as Hn; [subst n; by rewrite lookup_insert_eq|by rewrite lookup_insert_ne].
Qed.

Lemma nodes_snoc ds d : list_to_set (map declNode (ds ++ [d])) =@{gset node} {[declNode d]} ∪ list_to_set (map declNode ds).
Proof. rewrite map_app, list_to_set_app_L. set_solver. Qed.

Lemma instanceOf_new ds d : declNode d ∉ (list_to_set (map declNode ds) : gset node) -> instanceOf ds (declNode d) = None.
Proof. intros Hn. apply eq_None_not_Some. rewrite instanceOf_is_Some. set_solver. Qed.

Lemma add_created pids ds d g : Shape pids ds g -> declNode d ∉ nodesOf (componentGraph g) ->
  exists g', bind (orPanic (AddNode (declNode d) (componentGraph g)))
    (fun cg => Ok (setInstance (declNode d) (NewInstanceID (declID d) (declKind d) (declPids d)) (setGraph cg g))) = Ok g' /\ Created pids ds d g g'.
Proof.
  intros (Hn & He & Hi & Hp) Hnew. destruct (AddNode_new (declNode d) (componentGraph g) Hnew) as (cg & -> & Hcn & Hce). eexists. split; [reflexivity|].
  unfold Created. cbn. rewrite Hcn, Hce, nodes_snoc, Hn. split_and!; [done|done| |done]. apply instance_inserted; [done|].
  rewrite instanceOf_new by by rewrite <- Hn. done.
Qed.

Lemma createShared_created pids ds d g : Shape pids ds g ->
  exists g', createShared (declNode d) (declID d) (declKind d) (declPids d) g = Ok g' /\ Created pids ds d g g'.
Proof.
  intros Hg. pose proof Hg as (Hn & He & Hi & Hp). unfold createShared. rewrite HasNode_spec. case_bool_decide as Hin; [|by eapply add_created].
  assert (Hs : is_Some (instanceOf ds (declNode d))) by (apply instanceOf_is_Some; rewrite Hn in Hin; set_solver).
  destruct Hs as [i Ei]. rewrite Hi, Ei. eexists. split; [reflexivity|]. unfold Created. cbn. rewrite nodes_snoc, Hn.
  split_and!; [set_solver|done| |done]. apply instance_inserted; [done|]. by rewrite Ei.
Qed.

(** Attaching the node to its pipelines. *)
Lemma pipeOf_snoc ds d pid : pipeOf (ds ++ [d]) pid =
  (if decide (declReceives pid d) then addReceiver (declNode d) else id)
    ((if decide (declProcesses pid d) then addProcessor (declNode d) else id)
       ((if decide (declExports pid d) then addExporter (declNode d) else id) (pipeOf ds pid))).
Proof.
  unfold pipeOf. rewrite !filter_app, !map_app, !list_to_set_app_L. rewrite !filter_cons, !filter_nil.
  repeat case_decide; unfold addReceiver, addProcessor, addExporter; cbn; rewrite ?app_nil_r; f_equal; set_solver.
Qed.

Lemma updatePipe_ok (pids : list pipelineID) (pipe : pipelineID -> pipelineNodes) pid f g : pid ∈ pids ->
  (forall p, pipelines g !! p = if decide (p ∈ pids) then Some (pipe p) else None) ->
  exists g', updatePipe pid f g = Ok g' /\ componentGraph g' = componentGraph g /\ instanceIDs g' = instanceIDs g /\
    forall p, pipelines g' !! p = if decide (p ∈ pids) then Some ((if decide (p = pid) then f else id) (pipe p)) else None.
Proof.
  intros Hin Hp. unfold updatePipe. rewrite Hp, decide_True by done. eexists. split; [reflexivity|]. cbn. split_and!; [done|done|].
  intros p. destruct (decide (p = pid)) as [->|Ep]; [by rewrite lookup_insert_eq, decide_True|by rewrite lookup_insert_ne, Hp].
Qed.

Lemma create_created pids ds d g : Shape pids ds g -> (declKind d = KindProcessor -> d ∉ ds) ->
  exists g', match d with DProcessor pid id => createProcessor pid id g | _ => createShared (declNode d) (declID d) (declKind d) (declPids d) g end = Ok g' /\
    Created pids ds d g g'.
Proof.
  intros Hg Hnew. destruct d; try by eapply createShared_created. eapply (add_created pids ds (DProcessor pid id)); [done|]. destruct Hg as (-> & _).
  rewrite elem_of_list_to_set, list_elem_of_fmap. intros (d & E & Hd). symmetry in E. apply declNode_processor in E. subst. by apply Hnew.
Qed.

Lemma attached pids ds d g1 g' : nodesOf (componentGraph g1) = list_to_set (map declNode (ds ++ [d])) -> edgesOf (componentGraph g1) = ∅ ->
  (forall n, instanceIDs g1 !! n = instanceOf (ds ++ [d]) n) -> componentGraph g' = componentGraph g1 -> instanceIDs g' = instanceIDs g1 ->
  (forall pid, pipelines g' !! pid = if decide (pid ∈ pids) then Some (pipeOf (ds ++ [d]) pid) else None) -> Shape pids (ds ++ [d]) g'.
Proof. intros Hn He Hi Hc Hi' Hp. unfold Shape. by rewrite Hc, Hi'. Qed.

Lemma declare_ok pids ds d g : Shape pids ds g -> Forall (fun p => p ∈ pids) (declPids d) -> (declKind d = KindProcessor -> d ∉ ds) ->
  exists g', declare d g = Ok g' /\ Shape pids (ds ++ [d]) g'.
Proof.
  intros Hg Hpids Hnew. destruct (create_created pids ds d g Hg Hnew) as (g1 & E1 & Hn1 & He1 & Hi1 & Hp1).
  destruct Hg as (_ & _ & _ & Hp). rewrite <- Hp1 in Hp.
  destruct d as [pid id|pid id|pid id|e r id]; cbn [declPids] in Hpids; rewrite !Forall_cons in Hpids.
  4: {
    destruct Hpids as (He & Hr & _). cbn in E1 |- *. unfold createConnector. rewrite E1. cbn [bind].
    destruct (updatePipe_ok pids _ e (addExporter (connectorNode e.1 r.1 id)) g1 He Hp) as (g2 & -> & Hc2 & Hi2 & Hp2). cbn [bind].
    destruct (updatePipe_ok pids _ r (addReceiver (connectorNode e.1 r.1 id)) g2 Hr Hp2) as (g3 & -> & Hc3 & Hi3 & Hp3).
    exists g3. split; [done|]. eapply attached; [done..|congruence|congruence|]. intros pid. rewrite Hp3, pipeOf_snoc. cbn. by repeat case_decide; subst. }
  all: destruct Hpids as (Hin & _); cbn in E1 |- *; unfold createReceiver, createExporter, processorLoop; rewrite E1; cbn [bind];
    match goal with Hin : _ ∈ ?ps, Hp : forall _, _ |- context [updatePipe ?p ?f ?g1] => destruct (updatePipe_ok ps _ p f g1 Hin Hp) as (g2 & -> & Hc2 & Hi2 & Hp2) end;
    exists g2; (split; [done|]); eapply attached; [done..|congruence|congruence|]; intros p; rewrite Hp2, pipeOf_snoc; cbn; by repeat case_decide; subst.
Qed.

Lemma declares_ok pids ds ds' g : Shape pids ds g -> Forall (fun d => Forall (fun p => p ∈ pids) (declPids d)) ds' ->
  (forall d, d ∈ ds' -> declKind d = KindProcessor -> d ∉ ds) -> NoDup (filter (fun d => declKind d = KindProcessor) ds') ->
  exists g', foreach declare ds' g = Ok g' /\ Shape pids (ds ++ ds') g'.
Proof.
  revert ds g. induction ds' as [|d ds' IH]; intros ds g Hg Hpids Hnew Hnd.
  - exists g. by rewrite app_nil_r.
  - apply Forall_cons in Hpids as [Hd Hpids]. cbn [foreach]. destruct (declare_ok pids ds d g Hg Hd) as (g1 & -> & Hg1); [apply Hnew; left|]. cbn [bind].
    destruct (IH (ds ++ [d]) g1) as (g2 & -> & Hg2); [done|done| |by rewrite filter_cons in Hnd; case_decide; [apply NoDup_cons in Hnd|]; naive_solver|].
    + intros d' Hd' Hk. rewrite elem_of_app, list_elem_of_singleton. intros [Hin| ->]; [by apply (Hnew d'); [right|..]|].
      rewrite filter_cons, decide_True in Hnd by done. apply NoDup_cons in Hnd as [Hnd _]. apply Hnd. by apply list_elem_of_filter.
    + exists g2. by rewrite <- app_assoc in Hg2.
Qed.
End Shape.

(** ** The declarations of a configuration *)
Section Config.
Context (set : Settings).

Definition isConnector (id : ID) : Prop := IsConfigured set id = true.
#[local] Instance isConnector_dec id : Decision (isConnector id) := decide (IsConfigured set id = true).

Definition pipelineDecls (pc : pipelineID * PipelineConfig) : list decl :=
  map (DReceiver pc.1) (filter (fun id => ~ isConnector id) (Receivers pc.2)) ++ map (DProcessor pc.1) (Processors pc.2) ++
  map (DExporter pc.1) (filter (fun id => ~ isConnector id) (Exporters pc.2)).

(** The uses of a connector, once for each mention. *)
Definition exporterUses (cfgs : list (pipelineID * PipelineConfig)) (c : ID) : list pipelineID :=
  flat_map (fun pc => map (fun _ => pc.1) (filter (fun id => id = c /\ isConnector id) (Exporters pc.2))) cfgs.
Definition receiverUses (cfgs : list (pipelineID * PipelineConfig)) (c : ID) : list pipelineID :=
  flat_map (fun pc => map (fun _ => pc.1) (filter (fun id => id = c /\ isConnector id) (Receivers pc.2))) cfgs.

(** What the first loop knows of the connectors. *)
Definition UsesOk (ex re : ID -> list pipelineID) (u : uses) : Prop :=
  NoDup (connectors u) /\ (forall c, c ∈ connectors u <-> ex c ++ re c <> []) /\
  (forall c, usesOf (connectorsAsExporter u) c = ex c) /\ (forall c, usesOf (connectorsAsReceiver u) c = re c).

Definition useReceiver (pid : pipelineID) (id : ID) (u : uses) : uses :=
  mkUses (addConnector id (connectors u)) (connectorsAsExporter u) (addUse id pid (connectorsAsReceiver u)).
Definition useExporter (pid : pipelineID) (id : ID) (u : uses) : uses :=
  mkUses (addConnector id (connectors u)) (addUse id pid (connectorsAsExporter u)) (connectorsAsReceiver u).

Lemma addConnector_spec id ids : NoDup ids -> NoDup (addConnector id ids) /\ forall c, c ∈ addConnector id ids <-> c = id \/ c ∈ ids.
Proof.
  intros Hnd. unfold addConnector. case_decide as Hin; [naive_solver|]. split; [|set_solver].
  apply NoDup_app. split_and!; [done|set_solver|apply NoDup_singleton].
Qed.

Lemma usesOf_addUse id pid m c : usesOf (addUse id pid m) c = usesOf m c ++ (if decide (id = c) then [pid] else []).
Proof.
  unfold addUse, usesOf at 1. case_decide as Hc; [subst; by rewrite lookup_insert_eq|]. rewrite lookup_insert_ne by done. by rewrite app_nil_r.
Qed.

Lemma useReceiver_ok ex re u pid id : UsesOk ex re u -> UsesOk ex (fun c => re c ++ if decide (id = c) then [pid] else []) (useReceiver pid id u).
Proof.
  intros (Hnd & Hc & He & Hr). destruct (addConnector_spec id (connectors u) Hnd) as [Hnd' Hc']. unfold UsesOk, useReceiver. cbn. split_and!; [done| |done|].
  - intros c. rewrite Hc', Hc. case_decide as E; [|rewrite app_nil_r; naive_solver]. split; [|naive_solver]. intros _ Hnil. destruct (ex c), (re c); done.
  - intros c. by rewrite usesOf_addUse, Hr.
Qed.

Lemma useExporter_ok ex re u pid id : UsesOk ex re u -> UsesOk (fun c => ex c ++ if decide (id = c) then [pid] else []) re (useExporter pid id u).
Proof.
  intros (Hnd & Hc & He & Hr). destruct (addConnector_spec id (connectors u) Hnd) as [Hnd' Hc']. unfold UsesOk, useExporter. cbn. split_and!; [done| | |done].
  - intros c. rewrite Hc', Hc. case_decide as E; [|rewrite app_nil_r; naive_solver]. split; [|naive_solver]. intros _ Hnil. destruct (ex c); done.
  - intros c. by rewrite usesOf_addUse, He.
Qed.

Lemma UsesOk_ext ex re ex' re' u : (forall c, ex c = ex' c) -> (forall c, re c = re' c) -> UsesOk ex re u -> UsesOk ex' re' u.
Proof. intros He Hr (Hnd & Hc & He' & Hr'). unfold UsesOk. split_and!; [done|..]; intros c; rewrite <- ?He, <- ?Hr; done. Qed.

Lemma duplicateProcessor_none procSet refs : duplicateProcessor procSet refs = None <-> NoDup refs /\ Forall (fun r => r ∉ procSet) refs.
Proof.
  revert procSet. induction refs as [|r refs IH]; intros procSet; cbn [duplicateProcessor].
  - split; [|done]. intros _. split; [apply NoDup_nil_2|done].
  - rewrite NoDup_cons, Forall_cons. case_decide; [naive_solver|]. rewrite IH, !Forall_forall. set_solver.
Qed.

(** What the pipelines of a service are: a map, each of them validated. *)
Definition ValidConfig : Prop :=
  NoDup (map fst (PipelineConfigs set)) /\ Forall (fun pc => PipelineConfig_Validate pc.2 = None) (PipelineConfigs set).

Lemma valid_processors : ValidConfig -> Forall (fun pc => NoDup (Processors pc.2)) (PipelineConfigs set).
Proof.
  intros [_ Hv]. eapply Forall_impl; [exact Hv|]. intros [pid cfg]. unfold PipelineConfig_Validate. cbn. repeat case_match; try done. by intros []%duplicateProcessor_none.
Qed.

Context {G : Type} `{DirectedGraphLaws G}.
Implicit Types (g : Graph G).

Lemma receivers_loop pids pid rs ds g ex re u : pid ∈ pids -> Shape pids ds g -> UsesOk ex re u -> exists g' u',
  foreach (receiverLoop set pid) rs (g, u) = Ok (g', u') /\ Shape pids (ds ++ map (DReceiver pid) (filter (fun id => ~ isConnector id) rs)) g' /\
  UsesOk ex (fun c => re c ++ map (fun _ => pid) (filter (fun id => id = c /\ isConnector id) rs)) u'.
Proof.
  intros Hpid. revert ds g re u. induction rs as [|r rs IH]; intros ds g re u Hg Hu.
  - exists g, u. rewrite app_nil_r. split_and!; [done|done|]. eapply UsesOk_ext, Hu; intros; cbn; by rewrite ?app_nil_r.
  - cbn [foreach]. unfold receiverLoop at 1. destruct (IsConfigured set r) eqn:Er.
    + cbn [bind]. destruct (IH ds g _ _ Hg (useReceiver_ok _ _ u pid r Hu)) as (g' & u' & E & Hg' & Hu'). exists g', u'. split; [exact E|].
      rewrite filter_cons_False by (intros Hn; by apply Hn). split; [done|]. eapply UsesOk_ext, Hu'; intros c; [done|]. cbv beta. rewrite <- app_assoc, filter_cons.
      f_equal. repeat case_decide; naive_solver.
    + assert (Hn : ~ isConnector r) by (unfold isConnector; congruence).
      destruct (declare_ok pids ds (DReceiver pid r) g Hg) as (g1 & E1 & Hg1); [by apply Forall_singleton|done|].
      cbn [declare] in E1. destruct (createReceiver pid r g) as [g0| |]; cbn [bind] in E1 |- *; try done. rewrite E1. cbn [bind].
      destruct (IH _ g1 re u Hg1 Hu) as (g' & u' & -> & Hg' & Hu'). exists g', u'. split; [done|]. rewrite filter_cons_True by done. cbn [map].
      rewrite <- app_assoc in Hg'. split; [done|]. eapply UsesOk_ext, Hu'; intros c; [done|]. by rewrite filter_cons_False by naive_solver.
Qed.

Lemma exporters_loop pids pid es ds g ex re u : pid ∈ pids -> Shape pids ds g -> UsesOk ex re u -> exists g' u',
  foreach (exporterLoop set pid) es (g, u) = Ok (g', u') /\ Shape pids (ds ++ map (DExporter pid) (filter (fun id => ~ isConnector id) es)) g' /\
  UsesOk (fun c => ex c ++ map (fun _ => pid) (filter (fun id => id = c /\ isConnector id) es)) re u'.
Proof.
  intros Hpid. revert ds g ex u. induction es as [|r es IH]; intros ds g ex u Hg Hu.
  - exists g, u. rewrite app_nil_r. split_and!; [done|done|]. eapply UsesOk_ext, Hu; intros; cbn; by rewrite ?app_nil_r.
  - cbn [foreach]. unfold exporterLoop at 1. destruct (IsConfigured set r) eqn:Er.
    + cbn [bind]. destruct (IH ds g _ _ Hg (useExporter_ok _ _ u pid r Hu)) as (g' & u' & E & Hg' & Hu'). exists g', u'. split; [exact E|].
      rewrite filter_cons_False by (intros Hn; by apply Hn). split; [done|]. eapply UsesOk_ext, Hu'; intros c; [|done]. cbv beta. rewrite <- app_assoc, filter_cons.
      f_equal. repeat case_decide; naive_solver.
    + assert (Hn : ~ isConnector r) by (unfold isConnector; congruence).
      destruct (declare_ok pids ds (DExporter pid r) g Hg) as (g1 & E1 & Hg1); [by apply Forall_singleton|done|].
      cbn [declare] in E1. destruct (createExporter pid r g) as [g0| |]; cbn [bind] in E1 |- *; try done. rewrite E1. cbn [bind].
      destruct (IH _ g1 ex u Hg1 Hu) as (g' & u' & -> & Hg' & Hu'). exists g', u'. split; [done|]. rewrite filter_cons_True by done. cbn [map].
      rewrite <- app_assoc in Hg'. split; [done|]. eapply UsesOk_ext, Hu'; intros c; [|done]. by rewrite filter_cons_False by naive_solver.
Qed.

Lemma foreach_map {A B S} (h : A -> B) (f : B -> S -> outcome S) l (st : S) : foreach f (map h l) st = foreach (fun x => f (h x)) l st.
Proof. revert st. induction l as [|x l IH]; intros st; cbn; [done|]. destruct (f (h x) st); cbn; auto. Qed.

Lemma processors_loop pids pid ps ds g : pid ∈ pids -> Shape pids ds g -> NoDup ps -> (forall id, DProcessor pid id ∉ ds) ->
  exists g', foreach (processorLoop pid) ps g = Ok g' /\ Shape pids (ds ++ map (DProcessor pid) ps) g'.
Proof.
  intros Hpid Hg Hnd Hnew. destruct (declares_ok pids ds (map (DProcessor pid) ps) g Hg) as (g' & E & Hg').
  - apply Forall_map, Forall_true. intros id. by apply Forall_singleton.
  - intros d (id & -> & _)%list_elem_of_fmap _. apply Hnew.
  - apply NoDup_filter, NoDup_fmap_2; [by intros ?? [=]|done].
  - exists g'. by rewrite foreach_map in E.
Qed.

Lemma pipelines_loop pids cfgs ds g ex re u : Forall (fun pc => pc.1 ∈ pids /\ NoDup (Processors pc.2)) cfgs -> NoDup (map fst cfgs) ->
  (forall pc id, pc ∈ cfgs -> DProcessor pc.1 id ∉ ds) -> Shape pids ds g -> UsesOk ex re u -> exists g' u',
  foreach (pipelineLoop set) cfgs (g, u) = Ok (g', u') /\ Shape pids (ds ++ flat_map pipelineDecls cfgs) g' /\
  UsesOk (fun c => ex c ++ exporterUses cfgs c) (fun c => re c ++ receiverUses cfgs c) u'.
Proof.
  revert ds g ex re u. induction cfgs as [|[pid cfg] cfgs IH]; intros ds g ex re u Hf Hnd Hnew Hg Hu.
  - exists g, u. rewrite app_nil_r. split_and!; [done|done|]. eapply UsesOk_ext, Hu; intros; cbn; by rewrite ?app_nil_r.
  - apply Forall_cons in Hf as [ [Hpid Hps] Hf]. cbn in Hpid, Hps, Hnd. apply NoDup_cons in Hnd as [Hni Hnd]. cbn [foreach pipelineLoop].
    destruct (receivers_loop pids pid (Receivers cfg) ds g ex re u Hpid Hg Hu) as (g1 & u1 & -> & Hg1 & Hu1). cbn [bind].
    destruct (processors_loop pids pid (Processors cfg) _ g1 Hpid Hg1 Hps) as (g2 & -> & Hg2).
    { intros id. rewrite elem_of_app. intros [Hin|(x & [=] & _)%list_elem_of_fmap]. by apply (Hnew (pid, cfg) id (list_elem_of_here _ _)). }
    cbn [bind]. destruct (exporters_loop pids pid (Exporters cfg) _ g2 _ _ u1 Hpid Hg2 Hu1) as (g3 & u3 & -> & Hg3 & Hu3). cbn [bind].
    rewrite <- !app_assoc in Hg3. edestruct IH as (g4 & u4 & E4 & Hg4 & Hu4); [exact Hf|exact Hnd| |exact Hg3|exact Hu3|].
    + intros pc id Hpc. assert (pc.1 <> pid) by (intros <-; apply Hni, list_elem_of_fmap; eauto).
      rewrite !elem_of_app, !list_elem_of_fmap. intros [Hin|[ (?&[=]&_)|[ (?&[=]&_)|(?&[=]&_)] ] ]; [|congruence]. by apply (Hnew pc id (list_elem_of_further _ _ _ Hpc)).
    + exists g4, u4. split; [done|]. cbn [flat_map]. unfold pipelineDecls at 1. cbn [fst snd]. repeat rewrite <- app_assoc in Hg4. repeat rewrite <- app_assoc. split; [done|].
      eapply UsesOk_ext, Hu4; intros c; cbn; by rewrite <- app_assoc.
Qed.

(** ** Connectors *)
Definition connectorDecls (c : ID) (f : Factory) (ex re : list pipelineID) : list decl :=
  flat_map (fun e => map (fun r => DConnector e r c) (filter (fun r => supported f e.1 r.1 = true) re)) ex.

(** Every use of the connector has a supported one on the other side. *)
Definition Usable (f : Factory) (ex re : list pipelineID) : Prop :=
  Forall (fun e => Exists (fun r => supported f e.1 r.1 = true) re) ex /\ Forall (fun r => Exists (fun e => supported f e.1 r.1 = true) ex) re.

Lemma find_none_forall {A} (p : A -> bool) l : List.find p l = None <-> Forall (fun x => p x = false) l.
Proof.
  induction l as [|x l IH]; cbn; [done|]. rewrite Forall_cons. destruct (p x) eqn:E; [|naive_solver]. split; [done|]. naive_solver.
Qed.

Context `{RangeLaws}.

Lemma elem_of_signals s pids : s ∈ range (signalsOf pids) <-> exists p, p ∈ pids /\ p.1 = s.
Proof. rewrite range_perm. unfold signalsOf. rewrite elem_of_remove_dups, list_elem_of_fmap. naive_solver. Qed.

Lemma existsb_signals (p : Signal -> bool) pids : existsb p (range (signalsOf pids)) = true <-> Exists (fun q => p q.1 = true) pids.
Proof.
  rewrite existsb_exists, Exists_exists. setoid_rewrite <- list_elem_of_In. setoid_rewrite elem_of_signals. naive_solver.
Qed.

Lemma unsupported_none (p : Signal -> Signal -> bool) pids qids :
  List.find (fun e => negb (existsb (p e) (range (signalsOf qids)))) (range (signalsOf pids)) = None <->
  Forall (fun e => Exists (fun r => p e.1 r.1 = true) qids) pids.
Proof.
  rewrite find_none_forall, !Forall_forall. setoid_rewrite negb_false_iff. setoid_rewrite existsb_signals. setoid_rewrite elem_of_signals. naive_solver.
Qed.

Lemma checkConnector_none c f ex re : checkConnector c f ex re = None <-> Usable f ex re.
Proof.
  unfold checkConnector, Usable. rewrite <- (unsupported_none (supported f)), <- (unsupported_none (fun r e => supported f e r)).
  destruct (List.find _ _); [naive_solver|]. destruct (List.find _ _); naive_solver.
Qed.

Lemma foreach_ext {A S} (f f' : A -> S -> outcome S) l (st : S) : (forall x st, f x st = f' x st) -> foreach f l st = foreach f' l st.
Proof. intros Hf. revert st. induction l as [|x l IH]; intros st; cbn; [done|]. rewrite Hf. destruct (f' x st); cbn; auto. Qed.

Lemma foreach_app {A S} (f : A -> S -> outcome S) l l' (st : S) : foreach f (l ++ l') st = bind (foreach f l st) (foreach f l').
Proof. revert st. induction l as [|x l IH]; intros st; cbn; [done|]. destruct (f x st); cbn; auto. Qed.

Lemma foreach_flat_map {A B S} (h : A -> list B) (f : B -> S -> outcome S) l (st : S) : foreach f (flat_map h l) st = foreach (fun x => foreach f (h x)) l st.
Proof.
  revert st. induction l as [|x l IH]; intros st; cbn; [done|]. rewrite foreach_app. destruct (foreach f (h x) st); cbn; auto.
Qed.

Lemma connect_declares c f ex re g :
  foreach (fun eID => foreach (connectPair c f eID) re) ex g = foreach declare (connectorDecls c f ex re) g.
Proof.
  unfold connectorDecls. rewrite foreach_flat_map. apply foreach_ext. clear g. intros e g. rewrite foreach_map. revert g. induction re as [|r re IH]; intros g; [done|].
  rewrite filter_cons. cbn [foreach]. unfold connectPair at 1. assert (Es : supported f e.1 r.1 = negb (connectorStability f e.1 r.1 =? 0)%Z) by done.
  destruct (connectorStability f e.1 r.1 =? 0)%Z; cbn [negb] in Es; rewrite Es; cbn [bind].
  - rewrite decide_False by done. apply IH.
  - rewrite decide_True by done. cbn [foreach declare]. destruct (bind (createConnector e r c g) _) as [g1| |]; cbn [bind]; [apply IH|done|done].
Qed.

Lemma connectorDecls_pids c f ex re d : d ∈ connectorDecls c f ex re <-> exists e r, d = DConnector e r c /\ e ∈ ex /\ r ∈ re /\ supported f e.1 r.1 = true.
Proof.
  unfold connectorDecls. rewrite list_elem_of_In, in_flat_map. setoid_rewrite <- list_elem_of_In. setoid_rewrite list_elem_of_fmap. setoid_rewrite list_elem_of_filter.
  naive_solver.
Qed.

(** Whether a connector can be set up, and the declarations it makes. *)
Definition connectorOk (ex re : ID -> list pipelineID) (c : ID) : Prop :=
  exists f, ConnectorFactory set c.1 = Some f /\ Usable f (ex c) (re c).
Definition connectorsDecls (ex re : ID -> list pipelineID) (conns : list ID) : list decl :=
  flat_map (fun c => match ConnectorFactory set c.1 with Some f => connectorDecls c f (ex c) (re c) | None => [] end) conns.

Lemma connectors_loop pids u ex re conns ds g : UsesOk ex re u -> (forall c p, p ∈ ex c \/ p ∈ re c -> p ∈ pids) -> Shape pids ds g ->
  (Forall (connectorOk ex re) conns /\ exists g', foreach (connectorLoop set u) conns g = Ok g' /\ Shape pids (ds ++ connectorsDecls ex re conns) g') \/
  (~ Forall (connectorOk ex re) conns /\ exists e, foreach (connectorLoop set u) conns g = Err e).
Proof.
  intros Hu Hpids. revert ds g. induction conns as [|c conns IH]; intros ds g Hg.
  - left. split; [done|]. exists g. by rewrite app_nil_r.
  - destruct Hu as (_ & _ & He & Hr). cbn [foreach connectorsDecls flat_map]. unfold connectorLoop at 1 3. rewrite Forall_cons, He, Hr. unfold connectorOk at 1 3.
    destruct (ConnectorFactory set c.1) as [f|]; [|right; split; [naive_solver|by eexists] ].
    destruct (checkConnector c f (ex c) (re c)) as [e|] eqn:Ec; [right; split; [|by eexists] |].
    { intros [ (f' & [= <-] & HU) _]. apply (checkConnector_none c) in HU. congruence. }
    rewrite connect_declares. destruct (declares_ok pids ds (connectorDecls c f (ex c) (re c)) g Hg) as (g1 & -> & Hg1).
    + apply Forall_forall. intros d (e & r & -> & He' & Hr' & _)%connectorDecls_pids. cbn. rewrite !Forall_cons, Forall_nil. split_and!; eauto.
    + intros d (e & r & -> & _)%connectorDecls_pids. done.
    + rewrite list_filter_empty; [apply NoDup_nil_2|]. by intros d (e & r & -> & _)%connectorDecls_pids.
    + cbn [bind]. apply (checkConnector_none c) in Ec. destruct (IH _ g1 Hg1) as [ [HF (g2 & E2 & Hg2)]|[HF HE] ].
      * left. split; [naive_solver|]. exists g2. split; [done|]. by rewrite <- app_assoc in Hg2.
      * right. split; [naive_solver|done].
Qed.

(** ** createNodes *)
Abbreviation cfgs := (PipelineConfigs set).
Definition pids : list pipelineID := map fst cfgs.
Definition configDecls (conns : list ID) : list decl := flat_map pipelineDecls cfgs ++ connectorsDecls (exporterUses cfgs) (receiverUses cfgs) conns.

Definition connectorUsed (c : ID) : Prop := exporterUses cfgs c ++ receiverUses cfgs c <> [].

(** Every connector that is used can be set up. *)
Definition ConnectorsOk : Prop := forall c, connectorUsed c -> connectorOk (exporterUses cfgs) (receiverUses cfgs) c.

Lemma emptyGraph_shape : Shape (G := G) pids [] (emptyGraph set).
Proof.
  unfold Shape, emptyGraph. cbn [componentGraph instanceIDs pipelines]. rewrite New_nodes, New_edges. split_and!; [done|done|done|]. intros pid.
  unfold pids. induction cfgs as [|[p c] l IH]; cbn [map fst].
  - rewrite list_to_map_nil, lookup_empty, decide_False by set_solver. done.
  - rewrite list_to_map_cons. destruct (decide (p = pid)) as [->|Hn].
    + rewrite lookup_insert_eq, decide_True by set_solver. done.
    + rewrite lookup_insert_ne, IH by done. destruct (decide (pid ∈ map fst l)); [rewrite decide_True by set_solver|rewrite decide_False by set_solver]; done.
Qed.

Lemma elem_of_exporterUses pid c : pid ∈ exporterUses cfgs c <-> isConnector c /\ exists cfg, (pid, cfg) ∈ cfgs /\ c ∈ Exporters cfg.
Proof.
  unfold exporterUses. rewrite list_elem_of_In, in_flat_map. setoid_rewrite <- list_elem_of_In. setoid_rewrite list_elem_of_fmap. setoid_rewrite list_elem_of_filter.
  split; [intros ([p cfg] & Hpc & id & -> & [-> ?] & ?); cbn in *; eauto|]. intros (Hc & cfg & Hin & Hex). exists (pid, cfg). eauto 10.
Qed.

Lemma elem_of_receiverUses pid c : pid ∈ receiverUses cfgs c <-> isConnector c /\ exists cfg, (pid, cfg) ∈ cfgs /\ c ∈ Receivers cfg.
Proof.
  unfold receiverUses. rewrite list_elem_of_In, in_flat_map. setoid_rewrite <- list_elem_of_In. setoid_rewrite list_elem_of_fmap. setoid_rewrite list_elem_of_filter.
  split; [intros ([p cfg] & Hpc & id & -> & [-> ?] & ?); cbn in *; eauto|]. intros (Hc & cfg & Hin & Hex). exists (pid, cfg). eauto 10.
Qed.

Lemma createNodes_spec : ValidConfig ->
  (ConnectorsOk /\ exists g conns, createNodes set (emptyGraph set) = Ok g /\ (forall c, c ∈ conns <-> connectorUsed c) /\ Shape pids (configDecls conns) g) \/
  (~ ConnectorsOk /\ exists e, createNodes (G := G) set (emptyGraph set) = Err e).
Proof.
  intros Hv. pose proof (valid_processors Hv) as Hp. destruct Hv as [Hnd _]. unfold createNodes.
  destruct (pipelines_loop pids cfgs [] (emptyGraph set) (fun _ => []) (fun _ => []) (mkUses [] ∅ ∅)) as (g1 & u1 & -> & Hg1 & Hu1).
  - apply Forall_forall. intros pc Hpc. rewrite Forall_forall in Hp. split; [apply list_elem_of_fmap; eauto|by apply Hp].
  - done.
  - set_solver.
  - apply emptyGraph_shape.
  - unfold UsesOk. cbn. split_and!; [apply NoDup_nil_2|set_solver|done|done].
  - cbn [bind]. cbn [app] in Hg1, Hu1.
    assert (Hcs : forall c, c ∈ range (connectors u1) <-> connectorUsed c) by (intros c; rewrite range_perm; apply Hu1).
    assert (Hall : Forall (connectorOk (exporterUses cfgs) (receiverUses cfgs)) (range (connectors u1)) <-> ConnectorsOk).
    { rewrite Forall_forall. unfold ConnectorsOk. by setoid_rewrite Hcs. }
    assert (Hps : forall c p, p ∈ exporterUses cfgs c \/ p ∈ receiverUses cfgs c -> p ∈ pids).
    { intros c p [Hin|Hin]; [apply elem_of_exporterUses in Hin as (_ & cfg & Hin & _)|apply elem_of_receiverUses in Hin as (_ & cfg & Hin & _)];
        apply list_elem_of_fmap; by exists (p, cfg). }
    destruct (connectors_loop pids u1 _ _ (range (connectors u1)) _ g1 Hu1 Hps Hg1) as [ [HF (g2 & E2 & Hg2)]|[HF HE] ].
    + left. split; [by apply Hall|]. exists g2, (range (connectors u1)). split_and!; done.
    + right. split; [by rewrite <- Hall|done].
Qed.
End Config.
