(* ===== verification/PipelineFlow.v ===== *)
(** * Where the data of a configuration flows

    The edges that [createEdges] draws, in terms of the configuration; when a
    configuration can be laid out; and when the graph has a cycle. *)

From stdpp Require Import gmap strings.
From S2P Require Import Prelude Errors PipelineGraph PipelineGraphProofs.

Lemma list_filter_all {A} (P : A -> Prop) `{forall x, Decision (P x)} (l : list A) : (forall x, x ∈ l -> P x) -> filter P l = l.
Proof.
  induction l as [|x l IH]; intros Hp; [done|]. rewrite filter_cons_True by (apply Hp; left). f_equal. apply IH. intros y Hy. apply Hp. by right.
Qed.

Lemma NoDup_fst_inj {A B} (l : list (A * B)) x y1 y2 : NoDup (map fst l) -> (x, y1) ∈ l -> (x, y2) ∈ l -> y1 = y2.
Proof.
  induction l as [|[a b] l IH]; [set_solver|]. cbn [map fst]. intros [Hn Hnd]%NoDup_cons H1 H2.
  assert (Hx : forall y, (x, y) ∈ l -> x <> a) by (intros y Hy ->; apply Hn, list_elem_of_fmap; by exists (a, y)).
  rewrite elem_of_cons in H1, H2. destruct H1 as [H1|H1], H2 as [H2|H2]; simplify_eq; [done|by destruct (Hx y2)|by destruct (Hx y1)|by apply IH].
Qed.

Lemma NoDup_split {A} (a a' : list A) x b b' : NoDup (a ++ x :: b) -> a ++ x :: b = a' ++ x :: b' -> b = b'.
Proof.
  revert a'. induction a as [|y a IH]; intros a' Hnd E.
  - destruct a' as [|z a']; cbn in E; [by simplify_eq|]. injection E; intros; subst. cbn in Hnd. apply NoDup_cons in Hnd as [Hn _]. set_solver.
  - cbn in Hnd, E. apply NoDup_cons in Hnd as [Hn Hnd]. destruct a' as [|z a']; cbn in E; injection E; intros; subst; [set_solver|by eapply IH].
Qed.

(** ** Cycles of a relation *)
Section Cycles.
Context {A : Type} (R : relation A).

Lemma tc_cycle_some x : tc R x x -> exists y, R x y /\ tc R y y.
Proof.
  intros Hx. assert (exists y, R x y /\ rtc R y x) as (y & Hy & Hr) by (inversion Hx; subst; eauto using rtc_refl, tc_rtc). exists y. split; [done|].
  eapply tc_rtc_l; [done|by apply tc_once].
Qed.

Lemma tc_cycle_succ x y : tc R x x -> (forall z, R x z -> z = y) -> tc R y y.
Proof. intros (z & Hz & Hc)%tc_cycle_some Hu. by rewrite <- (Hu z Hz). Qed.
End Cycles.

(** ** Drawing edges *)
Section Edges.
Context {G : Type} `{DirectedGraphLaws G} `{RangeLaws}.
Implicit Types (g : Graph G).

Definition endpoints (es : list (node * node)) : gset node := list_to_set (flat_map (fun e => [e.1; e.2]) es).

(** [g'] is [g] with the edges [es]. *)
Definition Drawn g (es : list (node * node)) g' : Prop :=
  nodesOf (componentGraph g') = nodesOf (componentGraph g) ∪ endpoints es /\
  edgesOf (componentGraph g') = edgesOf (componentGraph g) ∪ list_to_set es /\
  pipelines g' = pipelines g /\ instanceIDs g' = instanceIDs g.

Lemma draw_ok es g : Forall (fun e => e.1 <> e.2) es ->
  exists g', foreach (fun e => setEdge e.1 e.2) es g = Ok g' /\ Drawn g es g'.
Proof.
  revert g. induction es as [|[u v] es IH]; intros g Hne.
  - exists g. unfold Drawn, endpoints. cbn. split_and!; try done; set_solver.
  - apply Forall_cons in Hne as [Huv Hne]. cbn in Huv. cbn [foreach fst snd]. unfold setEdge at 1.
    destruct (SetEdge_spec u v (componentGraph g) Huv) as (cg & -> & Hn & He). cbn [orPanic bind].
    destruct (IH (setGraph cg g) Hne) as (g' & -> & Hn' & He' & Hp' & Hi'). exists g'. split; [done|]. unfold Drawn, endpoints in *.
    cbn [componentGraph setGraph pipelines instanceIDs flat_map app fst snd list_to_set] in *. rewrite Hn', He', Hn, He.
    split_and!; [|by rewrite (union_comm_L {[(u, v)]}), <- union_assoc_L|done|done].
    by rewrite (union_comm_L _ (nodesOf (componentGraph g))), <- !union_assoc_L.
Qed.

Fixpoint chainEdges (from : node) (procs : list node) (last : node) : list (node * node) :=
  match procs with [] => [(from, last)] | to :: procs => (from, to) :: chainEdges to procs last end.

Lemma chain_draws from procs last g : chain from procs last g = foreach (fun e => setEdge e.1 e.2) (chainEdges from procs last) g.
Proof.
  revert from g. induction procs as [|p procs IH]; intros from g; cbn [chain chainEdges foreach fst snd].
  - by destruct (setEdge from last g).
  - destruct (setEdge from p g); cbn; auto.
Qed.

(** Two nodes in a row. *)
Definition adjacent (l : list node) (u v : node) : Prop := exists a b, l = a ++ u :: v :: b.

Lemma adjacent_cons x l u v : adjacent (x :: l) u v <-> (u = x /\ head l = Some v) \/ adjacent l u v.
Proof.
  split.
  - intros ([|y a] & b & E); cbn in E; simplify_eq; [by left|right; by exists a, b].
  - intros [ [-> Hh]|(a & b & ->)]; [|by exists (x :: a), b]. destruct l as [|y l]; [done|]. cbn in Hh. simplify_eq. by exists [], l.
Qed.

Lemma elem_of_chainEdges from procs last u v : (u, v) ∈ chainEdges from procs last <-> adjacent (from :: procs ++ [last]) u v.
Proof.
  revert from. induction procs as [|p procs IH]; intros from; cbn [chainEdges app].
  - rewrite list_elem_of_singleton, !adjacent_cons. cbn. split; [intros [= -> ->]; by left|]. intros [ [-> [= ->] ]|[ [_ [=] ]|(a & b & E)] ]; [done|]. by destruct a.
  - rewrite elem_of_cons, IH, (adjacent_cons from). cbn. naive_solver.
Qed.

Lemma chainEdges_ne from procs last : NoDup (from :: procs) -> last ∉ from :: procs -> Forall (fun e => e.1 <> e.2) (chainEdges from procs last).
Proof.
  revert from. induction procs as [|p procs IH]; intros from Hnd Hl; cbn [chainEdges].
  - apply Forall_singleton. cbn. set_solver.
  - apply NoDup_cons in Hnd as [Hn Hnd]. apply Forall_cons. cbn. split; [set_solver|]. apply IH; [done|set_solver].
Qed.

(** The edges of one pipeline. *)
Definition pipeEdges (pp : pipelineID * pipelineNodes) : list (node * node) :=
  map (fun r => (r, capabilitiesNode pp.1)) (range (elements (receivers pp.2))) ++
  chainEdges (capabilitiesNode pp.1) (processors pp.2) (fanOutNode pp.1) ++
  map (fun x => (fanOutNode pp.1, x)) (range (elements (exporters pp.2))).

Lemma pipelineEdges_draws pp g : pipelineEdges pp g = foreach (fun e => setEdge e.1 e.2) (pipeEdges pp) g.
Proof.
  destruct pp as [pid pg]. unfold pipelineEdges, pipeEdges. cbn [fst snd]. rewrite !foreach_app, foreach_map. cbn [fst snd].
  destruct (foreach (fun receiver => setEdge receiver (capabilitiesNode pid)) _ g) as [g1| |]; cbn [bind]; [|done|done].
  rewrite chain_draws, foreach_app. destruct (foreach _ (chainEdges _ _ _) g1) as [g2| |]; cbn [bind]; [|done|done]. by rewrite foreach_map.
Qed.

Lemma createEdges_draws g : createEdges g = foreach (fun e => setEdge e.1 e.2) (flat_map pipeEdges (range (map_to_list (pipelines g)))) g.
Proof. unfold createEdges. rewrite foreach_flat_map. apply foreach_ext. intros pp g'. apply pipelineEdges_draws. Qed.

(** The edges of the pipelines of a graph. *)
Definition EdgeOf (ps : gmap pipelineID pipelineNodes) (u v : node) : Prop :=
  exists pid pn, ps !! pid = Some pn /\
  ((u ∈ receivers pn /\ v = capabilitiesNode pid) \/ adjacent (capabilitiesNode pid :: processors pn ++ [fanOutNode pid]) u v \/
   (u = fanOutNode pid /\ v ∈ exporters pn)).

Lemma elem_of_pipeEdges pid pn u v : (u, v) ∈ pipeEdges (pid, pn) <->
  (u ∈ receivers pn /\ v = capabilitiesNode pid) \/ adjacent (capabilitiesNode pid :: processors pn ++ [fanOutNode pid]) u v \/
   (u = fanOutNode pid /\ v ∈ exporters pn).
Proof.
  unfold pipeEdges. cbn [fst snd]. rewrite !elem_of_app, elem_of_chainEdges, !list_elem_of_fmap. setoid_rewrite range_perm. setoid_rewrite elem_of_elements.
  naive_solver.
Qed.

Lemma elem_of_edges ps u v : (u, v) ∈ flat_map pipeEdges (range (map_to_list ps)) <-> EdgeOf ps u v.
Proof.
  rewrite list_elem_of_In, in_flat_map. setoid_rewrite <- list_elem_of_In. setoid_rewrite range_perm. unfold EdgeOf. split.
  - intros ([pid pn] & Hin & He). apply elem_of_map_to_list in Hin. apply elem_of_pipeEdges in He. eauto.
  - intros (pid & pn & Hin & He). exists (pid, pn). by rewrite elem_of_map_to_list, elem_of_pipeEdges.
Qed.
End Edges.

(** ** The configuration *)
Section Flow.
Context (set : Settings).
Local Abbreviation cfgs := (PipelineConfigs set).
Local Abbreviation conn := (isConnector set).

Definition RecvIn (pid : pipelineID) (id : ID) : Prop := exists cfg, (pid, cfg) ∈ cfgs /\ id ∈ Receivers cfg.
Definition ExpIn (pid : pipelineID) (id : ID) : Prop := exists cfg, (pid, cfg) ∈ cfgs /\ id ∈ Exporters cfg.
Definition ProcIn (pid : pipelineID) (id : ID) : Prop := exists cfg, (pid, cfg) ∈ cfgs /\ id ∈ Processors cfg.

(** The connector [c] takes data from the pipeline [e] to the pipeline [r]. *)
Definition Link (c : ID) (e r : pipelineID) : Prop :=
  conn c /\ ExpIn e c /\ RecvIn r c /\ exists f, ConnectorFactory set c.1 = Some f /\ supported f e.1 r.1 = true.

(** The node is one of the receivers, or one of the exporters, of the pipeline. *)
Definition RecvNode (pid : pipelineID) (n : node) : Prop :=
  match n with
  | receiverNode s id => s = pid.1 /\ RecvIn pid id /\ ~ conn id
  | connectorNode s t c => t = pid.1 /\ exists e, e.1 = s /\ Link c e pid
  | _ => False
  end.
Definition ExpNode (pid : pipelineID) (n : node) : Prop :=
  match n with
  | exporterNode s id => s = pid.1 /\ ExpIn pid id /\ ~ conn id
  | connectorNode s t c => s = pid.1 /\ exists r, r.1 = t /\ Link c pid r
  | _ => False
  end.

(** Data flows from receivers to the capabilities node, through the processors in order,
    to the fan-out node and the exporters. *)
Inductive Flow : node -> node -> Prop :=
  | flow_receive pid n : RecvNode pid n -> Flow n (capabilitiesNode pid)
  | flow_process pid cfg u v : (pid, cfg) ∈ cfgs ->
      adjacent (capabilitiesNode pid :: map (processorNode pid) (Processors cfg) ++ [fanOutNode pid]) u v -> Flow u v
  | flow_export pid n : ExpNode pid n -> Flow (fanOutNode pid) n.

(** The pipelines a node belongs to as a component. *)
Definition UsedIn (n : node) (pid : pipelineID) : Prop :=
  RecvNode pid n \/ ExpNode pid n \/ (exists id, n = processorNode pid id /\ ProcIn pid id).

(** What declarations there are. *)
Definition Declared (d : decl) : Prop :=
  match d with
  | DReceiver pid id => RecvIn pid id /\ ~ conn id
  | DProcessor pid id => ProcIn pid id
  | DExporter pid id => ExpIn pid id /\ ~ conn id
  | DConnector e r c => Link c e r
  end.

Lemma elem_of_pipelineDecls d : d ∈ flat_map (pipelineDecls set) cfgs <-> declKind d <> KindConnector /\ Declared d.
Proof.
  rewrite list_elem_of_In, in_flat_map. setoid_rewrite <- list_elem_of_In. unfold pipelineDecls.
  setoid_rewrite elem_of_app. setoid_rewrite elem_of_app. setoid_rewrite list_elem_of_fmap. setoid_rewrite list_elem_of_filter. split.
  - intros ([pid cfg] & Hin & Hd). cbn in Hd. unfold Declared, RecvIn, ExpIn, ProcIn.
    destruct Hd as [(id & -> & ? & ?)|[(id & -> & ?)|(id & -> & ? & ?)] ]; cbn; (split; [done|]); eauto.
  - destruct d as [pid id|pid id|pid id|e r c]; cbn; intros [Hk Hd]; [| | |done].
    + destruct Hd as ((cfg & Hin & Hr) & Hc). exists (pid, cfg). split; [done|]. left. eauto.
    + destruct Hd as (cfg & Hin & Hr). exists (pid, cfg). split; [done|]. right; left. eauto.
    + destruct Hd as ((cfg & Hin & Hr) & Hc). exists (pid, cfg). split; [done|]. right; right. eauto.
Qed.

Lemma elem_of_connectorsDecls conns d : (forall c, c ∈ conns <-> connectorUsed set c) ->
  d ∈ connectorsDecls set (exporterUses set cfgs) (receiverUses set cfgs) conns <-> declKind d = KindConnector /\ Declared d.
Proof.
  intros Hc. unfold connectorsDecls. rewrite list_elem_of_In, in_flat_map. setoid_rewrite <- list_elem_of_In. split.
  - intros (c & _ & Hd). destruct (ConnectorFactory set c.1) as [f|] eqn:Ef; [|set_solver].
    apply connectorDecls_pids in Hd as (e & r & -> & (Hcc & He)%elem_of_exporterUses & (_ & Hr)%elem_of_receiverUses & Hs). split; [done|].
    split_and!; [done|done|done|]. eauto.
  - destruct d as [pid id|pid id|pid id|e r c]; cbn; intros [Hk Hd]; [done..|]. destruct Hd as (Hcc & He & Hr & f & Ef & Hs).
    assert (He' : e ∈ exporterUses set cfgs c) by by apply elem_of_exporterUses. exists c. split.
    + apply Hc. unfold connectorUsed. intros E. apply app_eq_nil in E as [E _]. rewrite E in He'. set_solver.
    + rewrite Ef. apply connectorDecls_pids. exists e, r. split_and!; [done|done|by apply elem_of_receiverUses|done].
Qed.

Lemma elem_of_configDecls conns d : (forall c, c ∈ conns <-> connectorUsed set c) -> d ∈ configDecls set conns <-> Declared d.
Proof.
  intros Hc. unfold configDecls. rewrite elem_of_app, elem_of_pipelineDecls, elem_of_connectorsDecls by done. destruct (decide (declKind d = KindConnector)); naive_solver.
Qed.

Section Declarations.
Context (ds : list decl) (Hds : forall d, d ∈ ds <-> Declared d).

Lemma pipeOf_receivers pid n : n ∈ receivers (pipeOf ds pid) <-> RecvNode pid n.
Proof.
  cbn. rewrite elem_of_list_to_set, list_elem_of_fmap. setoid_rewrite list_elem_of_filter. setoid_rewrite Hds. split.
  - intros ([p id|p id|p id|e r c] & -> & Hr & Hd); cbn in *; subst; try done. eauto.
  - destruct n as [s id|p id|s id|s t c|p|p]; cbn; try done.
    + intros (-> & Hd). by exists (DReceiver pid id).
    + intros (-> & e & <- & HL). by exists (DConnector e pid c).
Qed.

Lemma pipeOf_exporters pid n : n ∈ exporters (pipeOf ds pid) <-> ExpNode pid n.
Proof.
  cbn. rewrite elem_of_list_to_set, list_elem_of_fmap. setoid_rewrite list_elem_of_filter. setoid_rewrite Hds. split.
  - intros ([p id|p id|p id|e r c] & -> & Hr & Hd); cbn in *; subst; try done. eauto.
  - destruct n as [s id|p id|s id|s t c|p|p]; cbn; try done.
    + intros (-> & Hd). by exists (DExporter pid id).
    + intros (-> & r & <- & HL). by exists (DConnector pid r c).
Qed.

Lemma declared_used n : (exists d, d ∈ ds /\ declNode d = n) <-> exists pid, UsedIn n pid.
Proof.
  setoid_rewrite Hds. unfold UsedIn. split.
  - intros ([p id|p id|p id|e r c] & Hd & <-); cbn in *; [exists p; left|exists p; right; right|exists p; right; left|exists e; right; left]; eauto.
  - intros (pid & [Hr|[He|(id & -> & Hp)] ]); [| |by exists (DProcessor pid id)].
    + destruct n as [s id|p id|s id|s t c|p|p]; cbn in Hr; try done; [destruct Hr as (-> & Hr); by exists (DReceiver pid id)|].
      destruct Hr as (-> & e & <- & HL). by exists (DConnector e pid c).
    + destruct n as [s id|p id|s id|s t c|p|p]; cbn in He; try done; [destruct He as (-> & He); by exists (DExporter pid id)|].
      destruct He as (-> & r & <- & HL). by exists (DConnector pid r c).
Qed.

Lemma declared_pids n pid : (exists d, d ∈ ds /\ declNode d = n /\ pid ∈ declPids d) <-> UsedIn n pid.
Proof.
  setoid_rewrite Hds. unfold UsedIn. split.
  - intros ([p id|p id|p id|e r c] & Hd & <- & Hp); cbn in *.
    + assert (pid = p) as -> by set_solver. by left.
    + assert (pid = p) as -> by set_solver. right; right. eauto.
    + assert (pid = p) as -> by set_solver. by right; left.
    + assert (pid = e \/ pid = r) as [->| ->] by set_solver; [right; left|left]; eauto.
  - intros [Hr|[He|(id & -> & Hp)] ]; [| |exists (DProcessor pid id); set_solver].
    + destruct n as [s id|p id|s id|s t c|p|p]; cbn in Hr; try done; [destruct Hr as (-> & Hr); exists (DReceiver pid id); set_solver|].
      destruct Hr as (-> & e & <- & HL). exists (DConnector e pid c). set_solver.
    + destruct n as [s id|p id|s id|s t c|p|p]; cbn in He; try done; [destruct He as (-> & He); exists (DExporter pid id); set_solver|].
      destruct He as (-> & r & <- & HL). exists (DConnector pid r c). set_solver.
Qed.
End Declarations.

Lemma filter_processes p (cfg : PipelineConfig) pid :
  filter (declProcesses pid) (pipelineDecls set (p, cfg)) = if decide (p = pid) then map (DProcessor pid) (Processors cfg) else [].
Proof.
  unfold pipelineDecls. cbn [fst snd]. rewrite !filter_app.
  rewrite (list_filter_empty _ (map (DReceiver p) _)) by (intros d (id & -> & _)%list_elem_of_fmap []).
  rewrite (list_filter_empty _ (map (DExporter p) _)) by (intros d (id & -> & _)%list_elem_of_fmap []).
  rewrite app_nil_r. cbn [app]. case_decide as Hp; [subst; apply list_filter_all; by intros d (id & -> & _)%list_elem_of_fmap|].
  apply list_filter_empty. intros d (id & -> & _)%list_elem_of_fmap. done.
Qed.

Lemma pipeOf_processors conns pid cfg : ValidConfig set -> (forall c, c ∈ conns <-> connectorUsed set c) -> (pid, cfg) ∈ cfgs ->
  processors (pipeOf (configDecls set conns) pid) = map (processorNode pid) (Processors cfg).
Proof.
  intros [Hnd _] Hc Hin. cbn. unfold configDecls. rewrite filter_app, (list_filter_empty _ (connectorsDecls _ _ _ _)), app_nil_r.
  2: { intros d [Hk _]%elem_of_connectorsDecls; [|done]. destruct d; try done. by intros []. }
  assert (E : filter (declProcesses pid) (flat_map (pipelineDecls set) cfgs) = map (DProcessor pid) (Processors cfg)); [|rewrite E, map_map; done].
  clear Hc conns. induction cfgs as [|[p c] l IH]; [set_solver|]. cbn [map fst flat_map] in *. apply NoDup_cons in Hnd as [Hn Hnd].
  rewrite filter_app, filter_processes. apply elem_of_cons in Hin as [ [= <- <-]|Hin].
  - rewrite decide_True, list_filter_empty, app_nil_r; [done| |done]. intros d Hd. rewrite list_elem_of_In, in_flat_map in Hd. destruct Hd as ([p' c'] & Hin' & Hd).
    apply list_elem_of_In in Hin'. apply list_elem_of_In in Hd. assert (pid <> p') by (intros ->; apply Hn, list_elem_of_fmap; by exists (p', c')).
    intros Hp. assert (Hf : d ∈ filter (declProcesses pid) (pipelineDecls set (p', c'))) by by apply list_elem_of_filter.
    rewrite filter_processes, decide_False in Hf by done. set_solver.
  - rewrite decide_False, IH by (done || (intros ->; apply Hn, list_elem_of_fmap; by exists (pid, cfg))). done.
Qed.

(** ** Cycles of the data flow *)

(** Some connector takes data from one pipeline to the other. *)
Definition Feeds (p q : pipelineID) : Prop := exists c, Link c p q.

Lemma Link_via c e e' r : Link c e r -> ExpIn e' c -> e'.1 = e.1 -> Link c e' r.
Proof. intros (Hc & _ & Hr & f & Ef & Hs) He E. split_and!; [done|done|done|]. exists f. by rewrite E. Qed.

Definition chainOf (pid : pipelineID) (cfg : PipelineConfig) : list node := capabilitiesNode pid :: map (processorNode pid) (Processors cfg) ++ [fanOutNode pid].

Lemma chain_NoDup pid cfg : NoDup (Processors cfg) -> NoDup (chainOf pid cfg).
Proof.
  intros Hnd. unfold chainOf. rewrite NoDup_cons, NoDup_app, elem_of_app, list_elem_of_fmap. split_and!.
  - intros [(? & [=] & _)|?]. set_solver.
  - apply NoDup_fmap_2; [by intros ?? [=]|done].
  - intros n (id & -> & _)%list_elem_of_fmap. set_solver.
  - apply NoDup_singleton.
Qed.

(** What lies on the way through the pipeline [p]. *)
Definition InTail (p : pipelineID) (v : node) : Prop := v = fanOutNode p \/ exists id, v = processorNode p id.

Lemma adjacent_tail pid cfg u v : adjacent (capabilitiesNode pid :: map (processorNode pid) (Processors cfg) ++ [fanOutNode pid]) u v ->
  (u = capabilitiesNode pid \/ exists id, u = processorNode pid id) /\ InTail pid v.
Proof.
  intros Ha. assert (Hv : v ∈ map (processorNode pid) (Processors cfg) ++ [fanOutNode pid] /\ u ∈ capabilitiesNode pid :: map (processorNode pid) (Processors cfg)).
  { destruct Ha as (a & b & E). destruct (exists_last (l := v :: b)) as (b' & z & Eb); [done|]. rewrite Eb in E. split.
    - destruct a as [|x a]; cbn in E; injection E as _ ->; [rewrite <- Eb; left|]. rewrite <- Eb. set_solver.
    - change (u :: b' ++ [z]) with ([u] ++ b' ++ [z]) in E. rewrite app_comm_cons, !app_assoc in E. apply app_inj_tail in E as [-> _]. set_solver. }
  destruct Hv as [Hv Hu]. rewrite elem_of_app, list_elem_of_fmap, list_elem_of_singleton in Hv. rewrite elem_of_cons, list_elem_of_fmap in Hu.
  unfold InTail. naive_solver.
Qed.

(** The nodes that data of the capabilities node of [p] may reach. *)
Definition Reach (p : pipelineID) (v : node) : Prop :=
  InTail p v \/ (exists q, rtc Feeds p q /\ ExpNode q v) \/ (exists q, tc Feeds p q /\ (v = capabilitiesNode q \/ InTail q v)).

Lemma inside_step p v w : v = capabilitiesNode p \/ InTail p v -> Flow v w -> InTail p w \/ ExpNode p w.
Proof.
  intros Hv HF. inversion HF as [pid n Hr|pid cfg u' v' Hin Ha|pid n He]; subst.
  - destruct Hv as [->|[->|[id ->] ] ]; done.
  - apply adjacent_tail in Ha as [Hu Hw]. left. destruct Hu as [->|[id ->] ], Hv as [Hv|[Hv|[id' Hv] ] ]; by simplify_eq.
  - right. destruct Hv as [Hv|[Hv|[id' Hv] ] ]; by simplify_eq.
Qed.

Lemma export_step q v w : ExpNode q v -> Flow v w -> exists r, Feeds q r /\ w = capabilitiesNode r.
Proof.
  intros He HF. destruct v as [s id|p id|s id|s t c|p|p]; cbn in He; try done.
  - inversion HF as [pid n Hr|pid cfg u' v' Hin Ha|pid n He']; subst; [done|]. apply adjacent_tail in Ha as [ [?|[??] ] _]; done.
  - inversion HF as [pid n Hr|pid cfg u' v' Hin Ha|pid n He']; subst; [|by apply adjacent_tail in Ha as [ [?|[??] ] _] ].
    destruct Hr as (-> & e & Ee & HL). destruct He as (-> & r & Er & HL'). exists pid. split; [|done]. exists c. eapply Link_via; [done|apply HL'|done].
Qed.

Lemma reach_step p v w : Reach p v -> Flow v w -> Reach p w.
Proof.
  intros [Hv|[(q & Hq & Hv)|(q & Hq & Hv)] ] HF.
  - destruct (inside_step p v w (or_intror Hv) HF) as [?|?]; [by left|]. right; left. exists p. split; [apply rtc_refl|done].
  - destruct (export_step q v w Hv HF) as (r & Hr & ->). right; right. exists r. split; [by eapply tc_rtc_l, tc_once|by left].
  - destruct (inside_step q v w Hv HF) as [?|?]; right; [right; by eauto|left]. exists q. split; [by apply tc_rtc|done].
Qed.

Lemma reach_tc p v : tc Flow (capabilitiesNode p) v -> Reach p v.
Proof.
  intros Ht. assert (exists x, Flow (capabilitiesNode p) x /\ rtc Flow x v) as (x & Hx & Hr) by (inversion Ht; subst; eauto using rtc_refl, tc_rtc).
  assert (Hp : Reach p x).
  { destruct (inside_step p _ x (or_introl eq_refl) Hx) as [?|?]; [by left|]. right; left. exists p. split; [apply rtc_refl|done]. }
  clear Ht Hx. induction Hr as [|x y z Hxy Hr IH]; [done|]. apply IH. by eapply reach_step.
Qed.

Lemma cap_cycle_feeds p : tc Flow (capabilitiesNode p) (capabilitiesNode p) -> tc Feeds p p.
Proof.
  intros [Hv|[(q & Hq & Hv)|(q & Hq & Hv)] ]%reach_tc; [by destruct Hv as [|[] ]|done|]. destruct Hv as [ [= ->]|[|[] ] ]; done.
Qed.

(** A node of the chain but the last has one successor. *)
Lemma chain_succ pid cfg a u v b : ValidConfig set -> (pid, cfg) ∈ cfgs -> chainOf pid cfg = a ++ u :: v :: b -> forall w, Flow u w -> w = v.
Proof.
  intros Hv Hin E w HF. pose proof (valid_processors set Hv) as Hnd. rewrite Forall_forall in Hnd. pose proof (chain_NoDup pid cfg (Hnd _ Hin)) as HN.
  assert (Hu : u = capabilitiesNode pid \/ exists id, u = processorNode pid id) by (apply (adjacent_tail pid cfg u v); by exists a, b).
  inversion HF as [p n Hr|p cfg' u' v' Hin' Ha|p n He]; subst; [by destruct Hu as [->|[? ->] ]| |by destruct Hu as [|[] ] ].
  assert (p = pid) as -> by (apply adjacent_tail in Ha as [ [->|[? ->] ] _]; destruct Hu as [Hu|[? Hu] ]; congruence).
  assert (cfg' = cfg) as -> by (destruct Hv as [HN' _]; by eapply NoDup_fst_inj).
  destruct Ha as (a' & b' & E'). fold (chainOf pid cfg) in E'. rewrite E in E'.
  rewrite E in HN. by injection (NoDup_split a a' u (v :: b) (w :: b') HN E').
Qed.

Lemma chain_cycle pid cfg a u b : ValidConfig set -> (pid, cfg) ∈ cfgs -> chainOf pid cfg = a ++ u :: b -> tc Flow u u -> tc Flow (fanOutNode pid) (fanOutNode pid).
Proof.
  intros Hv Hin. revert a u. induction b as [|v b IH]; intros a u E Hc.
  - unfold chainOf in E. rewrite app_comm_cons in E. by apply app_inj_tail in E as [_ <-].
  - apply (IH (a ++ [u]) v); [by rewrite <- app_assoc|]. eapply tc_cycle_succ; [done|]. by eapply chain_succ.
Qed.

Lemma export_cycle q v : ExpNode q v -> tc Flow v v -> exists p, tc Flow (capabilitiesNode p) (capabilitiesNode p).
Proof. intros He (w & HF & Hc)%tc_cycle_some. destruct (export_step q v w He HF) as (r & _ & ->). eauto. Qed.

Lemma cycle_cap u : ValidConfig set -> tc Flow u u -> exists p, tc Flow (capabilitiesNode p) (capabilitiesNode p).
Proof.
  intros Hv Hc. assert (HF : exists v, Flow u v) by (apply tc_cycle_some in Hc as (v & ? & _); eauto). destruct HF as [v HF].
  assert (Hfan : forall pid, tc Flow (fanOutNode pid) (fanOutNode pid) -> exists p, tc Flow (capabilitiesNode p) (capabilitiesNode p)).
  { intros pid (w & Hw & Hcw)%tc_cycle_some. inversion Hw as [p n Hr|p cfg u' v' Hin Ha|p n He]; subst; [eauto| |by eapply export_cycle].
    by apply adjacent_tail in Ha as [ [|[] ] _]. }
  inversion HF as [p n Hr|p cfg u' v' Hin Ha|p n He]; subst; [|destruct Ha as (a & b & E); eapply Hfan, chain_cycle; done|by eapply Hfan].
  apply tc_cycle_some in Hc as (w & Hw & Hc). inversion Hw as [p' n' Hr'|p' cfg u' v' Hin Ha|p' n' He]; subst; [eauto| |done].
  apply adjacent_tail in Ha as [ [->|[? ->] ] _]; done.
Qed.

Lemma chain_path pid cfg a u l v b : (pid, cfg) ∈ cfgs -> chainOf pid cfg = a ++ u :: l ++ v :: b -> tc Flow u v.
Proof.
  intros Hin. revert a u. induction l as [|x l IH]; intros a u E; cbn in E.
  - apply tc_once. eapply flow_process; [done|]. by exists a, b.
  - apply (tc_l _ u x); [|apply (IH (a ++ [u])); by rewrite <- app_assoc]. eapply flow_process; [done|]. by exists a, (l ++ v :: b).
Qed.

Lemma cap_path pid cfg v : (pid, cfg) ∈ cfgs -> v ∈ map (processorNode pid) (Processors cfg) ++ [fanOutNode pid] -> tc Flow (capabilitiesNode pid) v.
Proof. intros Hin (l & b & E)%list_elem_of_split. apply (chain_path pid cfg [] _ l v b Hin). unfold chainOf. by rewrite E. Qed.

Lemma feeds_path p q : Feeds p q -> tc Flow (capabilitiesNode p) (capabilitiesNode q).
Proof.
  intros (c & HL). pose proof HL as (_ & (cfg & Hin & _) & _). eapply tc_transitive; [by eapply cap_path; [|apply elem_of_app; right; left]|].
  eapply tc_l; [apply (flow_export p (connectorNode p.1 q.1 c)); cbn; eauto|]. apply tc_once, flow_receive. cbn. eauto.
Qed.

(** The data flow has a cycle exactly when connectors lead from a pipeline back to it. *)
Lemma flow_cycle : ValidConfig set -> (exists n, tc Flow n n) <-> exists p, tc Feeds p p.
Proof.
  intros Hv. split.
  - intros [n [p Hp]%cycle_cap]; [|done]. exists p. by apply cap_cycle_feeds.
  - intros [p Hp]. exists (capabilitiesNode p). assert (Hgen : forall x y, tc Feeds x y -> tc Flow (capabilitiesNode x) (capabilitiesNode y)); [|by apply Hgen].
    induction 1 as [x y Hxy|x y z Hxy _ IH]; [by apply feeds_path|]. eapply tc_transitive; [by apply feeds_path|done].
Qed.

(** ** The graph of the configuration *)
Definition nodeID (n : node) : option (ID * Kind) :=
  match n with
  | receiverNode _ id => Some (id, KindReceiver)
  | processorNode _ id => Some (id, KindProcessor)
  | exporterNode _ id => Some (id, KindExporter)
  | connectorNode _ _ id => Some (id, KindConnector)
  | _ => None
  end.

Definition IsNode (n : node) : Prop := (exists pid, UsedIn n pid) \/ exists pid, pid ∈ pids set /\ (n = capabilitiesNode pid \/ n = fanOutNode pid).

Lemma elem_of_endpoints es n : n ∈ endpoints es <-> exists u v, (u, v) ∈ es /\ (n = u \/ n = v).
Proof.
  unfold endpoints. rewrite elem_of_list_to_set, list_elem_of_In, in_flat_map. setoid_rewrite <- list_elem_of_In. split.
  - intros ([u v] & Hin & Hn). exists u, v. cbn in Hn. set_solver.
  - intros (u & v & Hin & Hn). exists (u, v). cbn. set_solver.
Qed.

Lemma pid_in pid cfg : (pid, cfg) ∈ cfgs -> pid ∈ pids set.
Proof. intros Hin. apply list_elem_of_fmap. by exists (pid, cfg). Qed.

Lemma node_pid pid n : RecvNode pid n \/ ExpNode pid n -> pid ∈ pids set.
Proof.
  intros [Hn|Hn]; destruct n; cbn in Hn; try done; destruct Hn as [_ Hn]; unfold Link, RecvIn, ExpIn in Hn; destruct_and?;
    repeat match goal with H : exists _, _ |- _ => destruct H | H : _ /\ _ |- _ => destruct H end; by eapply pid_in.
Qed.

Lemma flow_nodes u v : Flow u v -> IsNode u /\ IsNode v.
Proof.
  unfold IsNode. intros [pid n Hr|pid cfg u' v' Hin (a & b & E)|pid n He].
  - split; [left; exists pid; by left|]. right. exists pid. split; [by eapply node_pid; left|by left].
  - assert (Hall : forall n, n ∈ capabilitiesNode pid :: map (processorNode pid) (Processors cfg) ++ [fanOutNode pid] ->
      (exists pid, UsedIn n pid) \/ exists pid, pid ∈ pids set /\ (n = capabilitiesNode pid \/ n = fanOutNode pid)).
    { intros n. rewrite elem_of_cons, elem_of_app, list_elem_of_fmap, list_elem_of_singleton. pose proof (pid_in pid cfg Hin).
      intros [->|[(id & -> & Hid)| ->] ]; [right; eauto| |right; eauto]. left. exists pid. right; right. exists id. split; [done|by exists cfg]. }
    split; apply Hall; rewrite E; set_solver.
  - split; [|left; exists pid; by right; left]. right. exists pid. split; [by eapply node_pid; right|by right].
Qed.

Lemma pipe_ends pid : pid ∈ pids set -> (exists v, Flow (capabilitiesNode pid) v) /\ exists u, Flow u (fanOutNode pid).
Proof.
  intros ([p cfg] & -> & Hin)%list_elem_of_fmap. cbn. split.
  - destruct (map (processorNode p) (Processors cfg) ++ [fanOutNode p]) as [|v l] eqn:E; [by destruct (map _ _)|].
    exists v. eapply flow_process; [done|]. rewrite E. by exists [], l.
  - destruct (exists_last (l := capabilitiesNode p :: map (processorNode p) (Processors cfg))) as (a & u & E); [done|].
    exists u. eapply flow_process; [done|]. exists a, []. rewrite app_comm_cons, E, <- app_assoc. done.
Qed.

Lemma node_endpoint n : IsNode n <-> (exists pid, UsedIn n pid) \/ exists u v, Flow u v /\ (n = u \/ n = v).
Proof.
  split.
  - intros [Hu|(pid & Hin & Hn)]; [by left|right]. destruct (pipe_ends pid Hin) as [[v Hv] [u Hu] ]. destruct Hn as [->| ->]; eauto.
  - intros [Hu|(u & v & HF & Hn)]; [by left|]. apply flow_nodes in HF as [Hu Hv]. by destruct Hn as [->| ->].
Qed.

Context {G : Type} `{DirectedGraphLaws G} `{RangeLaws}.
Implicit Types (g : Graph G).

Record LaidOut g : Prop := {
  laid_nodes n : n ∈ nodesOf (componentGraph g) <-> (exists pid, UsedIn n pid) \/ exists pid, pid ∈ pids set /\ (n = capabilitiesNode pid \/ n = fanOutNode pid);
  laid_edges u v : (u, v) ∈ edgesOf (componentGraph g) <-> Flow u v;
  laid_pipe pid cfg : (pid, cfg) ∈ cfgs -> exists pn, pipelines g !! pid = Some pn /\ (forall n, n ∈ receivers pn <-> RecvNode pid n) /\
    processors pn = map (processorNode pid) (Processors cfg) /\ (forall n, n ∈ exporters pn <-> ExpNode pid n);
  laid_pids pid : is_Some (pipelines g !! pid) <-> pid ∈ pids set;
  laid_instance n i : instanceIDs g !! n = Some i <->
    (exists pid, UsedIn n pid) /\ nodeID n = Some (componentID i, kind i) /\ forall pid, pid ∈ pipelineIDs i <-> UsedIn n pid;
}.

Lemma instanceOf_spec ds n i : instanceOf ds n = Some i <->
  (exists d, d ∈ ds /\ declNode d = n) /\ nodeID n = Some (componentID i, kind i) /\
  forall pid, pid ∈ pipelineIDs i <-> exists d, d ∈ ds /\ declNode d = n /\ pid ∈ declPids d.
Proof.
  unfold instanceOf. destruct (filter (fun d => declNode d = n) ds) as [|d l] eqn:E.
  - split; [done|]. intros ((d & Hd & Hn) & _). exfalso.
    assert (Hf : d ∈ filter (fun d => declNode d = n) ds) by by apply list_elem_of_filter. rewrite E in Hf. set_solver.
  - assert (Hd : declNode d = n /\ d ∈ ds) by (apply (list_elem_of_filter (fun d => declNode d = n)); rewrite E; left).
    assert (Hn : nodeID n = Some (declID d, declKind d)) by (destruct Hd as [<- _]; by destruct d).
    assert (Hps : forall pid, pid ∈ (list_to_set (flat_map declPids (d :: l)) : gset pipelineID) <-> exists d, d ∈ ds /\ declNode d = n /\ pid ∈ declPids d).
    { intros pid. rewrite elem_of_list_to_set, list_elem_of_In, in_flat_map, <- E. setoid_rewrite <- list_elem_of_In.
      setoid_rewrite list_elem_of_filter. naive_solver. }
    split.
    + intros [= <-]. split_and!; [naive_solver|done|done].
    + intros (_ & Hn' & Hp). destruct i as [ci ki pi]. cbn in *. rewrite Hn in Hn'. simplify_eq. do 2 f_equal. apply set_eq. intros pid. by rewrite Hps, Hp.
Qed.

Lemma instanceOf_used ds n i : (forall d, d ∈ ds <-> Declared d) -> instanceOf ds n = Some i <->
  (exists pid, UsedIn n pid) /\ nodeID n = Some (componentID i, kind i) /\ forall pid, pid ∈ pipelineIDs i <-> UsedIn n pid.
Proof. intros Hds. rewrite instanceOf_spec, (declared_used ds Hds). by setoid_rewrite (declared_pids ds Hds). Qed.

Lemma edges_flow g conns : ValidConfig set -> (forall c, c ∈ conns <-> connectorUsed set c) -> Shape (pids set) (configDecls set conns) g ->
  forall u v, EdgeOf (pipelines g) u v <-> Flow u v.
Proof.
  intros Hv Hc (_ & _ & _ & Hp) u v. pose proof (fun d => elem_of_configDecls conns d Hc) as Hds. unfold EdgeOf. split.
  - intros (pid & pn & Hpn & HE). rewrite Hp in Hpn. case_decide as Hin; [|done]. simplify_eq. apply list_elem_of_fmap in Hin as ([p cfg] & -> & Hin). cbn [fst] in *.
    rewrite (pipeOf_receivers _ Hds), (pipeOf_exporters _ Hds), (pipeOf_processors conns p cfg Hv Hc Hin) in HE.
    destruct HE as [ [Hr ->]|[Ha|[-> He] ] ]; [by apply flow_receive|by eapply flow_process|by apply flow_export].
  - assert (Hpid : forall pid cfg, (pid, cfg) ∈ cfgs -> pipelines g !! pid = Some (pipeOf (configDecls set conns) pid)).
    { intros pid cfg Hin. rewrite Hp, decide_True; [done|]. apply list_elem_of_fmap. by exists (pid, cfg). }
    intros [pid n Hr|pid cfg u' v' Hin Ha|pid n He].
    + assert (exists cfg, (pid, cfg) ∈ cfgs) as [cfg Hin] by (destruct n; cbn in Hr; try done; destruct Hr as [_ Hr]; unfold Link, RecvIn in Hr; naive_solver).
      exists pid, (pipeOf (configDecls set conns) pid). split; [by eapply Hpid|]. left. by rewrite (pipeOf_receivers _ Hds).
    + exists pid, (pipeOf (configDecls set conns) pid). split; [by eapply Hpid|]. right; left. by rewrite (pipeOf_processors conns pid cfg).
    + assert (exists cfg, (pid, cfg) ∈ cfgs) as [cfg Hin] by (destruct n; cbn in He; try done; destruct He as [_ He]; unfold Link, ExpIn in He; naive_solver).
      exists pid, (pipeOf (configDecls set conns) pid). split; [by eapply Hpid|]. right; right. by rewrite (pipeOf_exporters _ Hds).
Qed.

(** The pairs of nodes that are drawn are distinct. *)
Lemma edges_distinct g conns : ValidConfig set -> (forall c, c ∈ conns <-> connectorUsed set c) -> Shape (pids set) (configDecls set conns) g ->
  Forall (fun e => e.1 <> e.2) (flat_map pipeEdges (range (map_to_list (pipelines g)))).
Proof.
  intros Hv Hc Hg. apply Forall_forall. intros [u v]. rewrite elem_of_edges, (edges_flow g conns Hv Hc Hg). cbn.
  pose proof (valid_processors set Hv) as Hnd. rewrite Forall_forall in Hnd. intros HF <-.
  inversion HF as [pid n Hr|pid cfg u' v' Hin (a & b & E)|pid n He]; subst; [done| |done].
  specialize (Hnd _ Hin). cbn in Hnd. apply (chain_NoDup pid) in Hnd as HN.
  unfold chainOf in HN. rewrite E, NoDup_app, !NoDup_cons in HN. set_solver.
Qed.

Lemma layout_spec : ValidConfig set ->
  (ConnectorsOk set /\ exists g, layout set = Ok g /\ LaidOut g) \/ (~ ConnectorsOk set /\ exists e, layout (G := G) set = Err e).
Proof.
  intros Hv. unfold layout. destruct (createNodes_spec set Hv) as [ [Hok (g & conns & -> & Hc & Hg)]|[Hok (e & ->)] ]; [left|right; split; [done|by exists e] ].
  split; [done|]. cbn [bind]. rewrite createEdges_draws. destruct (draw_ok _ g (edges_distinct g conns Hv Hc Hg)) as (g' & -> & Hn' & He' & Hp' & Hi').
  exists g'. split; [done|]. pose proof (fun d => elem_of_configDecls conns d Hc) as Hds. pose proof (edges_flow g conns Hv Hc Hg) as Hflow.
  pose proof Hg as (Hn & He & Hi & Hp).
  assert (Hedges : forall u v, (u, v) ∈ edgesOf (componentGraph g') <-> Flow u v).
  { intros u v. rewrite He', He, union_empty_l_L, elem_of_list_to_set, elem_of_edges. apply Hflow. }
  assert (Hpid : forall pid cfg, (pid, cfg) ∈ cfgs -> pipelines g' !! pid = Some (pipeOf (configDecls set conns) pid)).
  { intros pid cfg Hin. rewrite Hp', Hp, decide_True; [done|]. apply list_elem_of_fmap. by exists (pid, cfg). }
  split.
  - intros n. change (n ∈ nodesOf (componentGraph g') <-> IsNode n). rewrite node_endpoint, <- (declared_used _ Hds).
    rewrite Hn', Hn, elem_of_union, elem_of_list_to_set, list_elem_of_fmap, elem_of_endpoints. setoid_rewrite elem_of_edges. setoid_rewrite Hflow. naive_solver.
  - done.
  - intros pid cfg Hin. eexists. split; [by eapply Hpid|]. split_and!; [apply (pipeOf_receivers _ Hds)|by apply (pipeOf_processors conns)|apply (pipeOf_exporters _ Hds)].
  - intros pid. rewrite Hp', Hp. case_decide; split; done.
  - intros n i. rewrite Hi', Hi. by apply instanceOf_used.
Qed.
End Flow.
