(* ===== verification/PipelineBuild.v ===== *)
(** * Building the components of the pipelines (service/internal/graph)

    [buildComponents] creates the components from the last to the first, each with the
    consumers it sends to, and works out which pipelines may change the data they are
    given.  A consumer is the node it belongs to and its capability. *)

From stdpp Require Import gmap strings.
From S2P Require Import Prelude Errors PipelineGraph.

Record consumer := mkConsumer { c_node : node; MutatesData : bool }.

(** The capability of a fan-out: of two or more consumers the data is cloned unless all of
    them change it. *)
Definition fanoutCap (nexts : list consumer) : bool := existsb MutatesData nexts && negb (existsb (fun c => negb (MutatesData c)) nexts).

Definition aggregateCap (base : bool) (nexts : list consumer) : bool := foldl (fun cap next => cap || MutatesData next) base nexts.

(** The errors of the [buildComponent]s. *)
Definition buildErr (n : node) (err : error) : error :=
  match n with
  | receiverNode s id => Wrapf "failed to create %q receiver for data type %q: %w" [ArgS (idString id); ArgS (signalString s)] err
  | processorNode pid id => Wrapf "failed to create %q processor, in pipeline %q: %w" [ArgS (idString id); ArgS (pipelineString pid)] err
  | exporterNode s id => Wrapf "failed to create %q exporter for data type %q: %w" [ArgS (idString id); ArgS (signalString s)] err
  | _ => err
  end.

(** The details of a cycle that are reported. *)
Definition quoted (s : string) : string := String (Ascii.ascii_of_nat 34) (s ++ String (Ascii.ascii_of_nat 34) "").

Definition cycleDetail (n : node) : option string :=
  match n with
  | processorNode pid id => Some ("processor " ++ quoted (idString id) ++ " in pipeline " ++ quoted (pipelineString pid))%string
  | connectorNode s t id => Some ("connector " ++ quoted (idString id) ++ " (" ++ signalString s ++ " to " ++ signalString t ++ ")")%string
  | _ => None
  end.

Definition isConnectorNode (n : node) : Prop := match n with connectorNode _ _ _ => True | _ => False end.
#[export] Instance isConnectorNode_dec n : Decision (isConnectorNode n).
Proof. destruct n; cbn; apply _. Defined.

(** The cycle from its first connector on. *)
Definition rotate (cycle : list node) : list node :=
  match list_find isConnectorNode cycle with
  | Some (i, _) => drop i cycle ++ take i cycle
  | None => cycle
  end.

(** [None]: the index of an empty slice. *)
Definition cycleErr (unorderable : bool) (err : error) (cycles : list (list node)) : option error :=
  if negb unorderable then Some err
  else match cycles with
  | (n :: ns) :: _ =>
      let cycle := rotate (removelast (n :: ns)) in
      match cycle with
      | [] => None
      | c :: _ => Some (Errorf "cycle detected: %s" [ArgS (String.concat " -> " (omap cycleDetail (cycle ++ [c])))])
      end
  | _ => Some err
  end.

Section Build.
Context {G : Type} `{DirectedGraph G} `{Range}.

(** The factories: what creating the component of a node with its consumers gives, the
    capability of the component or an error. *)
Context (create : node -> list consumer -> bool + error).

(** What has been built: the consumer of each node, and the components created so far with
    the consumers they were given. *)
Record building := mkBuilding { consumers : gmap node consumer; created : list (node * list consumer) }.

(** A node that is not built has a nil consumer, and asserting its type panics. *)
Definition nextConsumers (cg : G) (b : building) (n : node) : outcome (list consumer) :=
  orPanic (mapM (fun m => consumers b !! m) (From n cg)).

Definition firstOf (nexts : list consumer) : outcome consumer := orPanic (head nexts).

Definition setConsumer (n : node) (cap : bool) (b : building) : building := mkBuilding (<[n := mkConsumer n cap]> (consumers b)) (created b).

Definition createWith (n : node) (nexts : list consumer) (cap : bool -> option bool) (b : building) : outcome building :=
  match create n nexts with
  | inl own =>
      let b := mkBuilding (consumers b) (created b ++ [(n, nexts)]) in
      Ok (match cap own with Some c => setConsumer n c b | None => b end)
  | inr err => Err (buildErr n err)
  end.

Definition buildNode (g : Graph G) (n : node) (b : building) : outcome building :=
  let cg := componentGraph g in
  match n with
  | receiverNode _ _ => bind (nextConsumers cg b n) (fun nexts => createWith n nexts (fun _ => None) b)
  | processorNode _ _ => bind (nextConsumers cg b n) (fun nexts => bind (firstOf nexts) (fun next => createWith n [next] Some b))
  | exporterNode _ _ => createWith n [] Some b
  | connectorNode s t _ =>
      bind (nextConsumers cg b n) (fun nexts =>
      createWith n nexts (fun own => Some (if decide (s = t) then aggregateCap own nexts else own)) b)
  | capabilitiesNode pid =>
      match pipelines g !! pid with
      | None => Panic
      | Some pn =>
          bind (orPanic (consumers b !! fanOutNode pid)) (fun fan =>
          bind (orPanic (mapM (fun p => consumers b !! p) (processors pn))) (fun procs =>
          bind (nextConsumers cg b n) (fun nexts => bind (firstOf nexts) (fun _ =>
          Ok (setConsumer n (aggregateCap (MutatesData fan) procs) b)))))
      end
  | fanOutNode _ => bind (nextConsumers cg b n) (fun nexts => Ok (setConsumer n (fanoutCap nexts) b))
  end.

Definition buildComponents (g : Graph G) : outcome building :=
  match Sort (componentGraph g) with
  | inr err => bind (orPanic (cycleErr (Unorderable (G := G) err) err (DirectedCyclesIn (componentGraph g)))) Err
  | inl nodes => foreach (buildNode g) (reverse nodes) (mkBuilding ∅ [])
  end.

Definition Build (set : Settings) : outcome (Graph G * building) :=
  bind (layout set) (fun g => bind (buildComponents g) (fun b => Ok (g, b))).
End Build.
