(* ===== verification/PipelineBuildProofs.v ===== *)
(** * What building the components guarantees

    Building never meets a component that is not there yet: every component is created
    once, with the consumers of exactly the nodes its data flows to. *)

From stdpp Require Import gmap strings.
From S2P Require Import Prelude Errors PipelineGraph PipelineGraphProofs PipelineFlow PipelineBuild.

Definition isReceiver (n : node) : Prop := match n with receiverNode _ _ => True | _ => False end.
Definition isComponent (n : node) : Prop := match n with capabilitiesNode _ | fanOutNode _ => False | _ => True end.

#[export] Instance isComponent_dec n : Decision (isComponent n).
Proof. destruct n; cbn; apply _. Defined.

Lemma aggregateCap_or base nexts : aggregateCap base nexts = base || existsb MutatesData nexts.
Proof.
  unfold aggregateCap. revert base. induction nexts as [|c l IH]; intros base; cbn; [by rewrite orb_false_r|]. by rewrite IH, orb_assoc.
Qed.

Lemma fanoutCap_all nexts : fanoutCap nexts = true <-> nexts <> [] /\ Forall (fun c => MutatesData c = true) nexts.
Proof.
  unfold fanoutCap. rewrite andb_true_iff, negb_true_iff, existsb_exists. setoid_rewrite <- list_elem_of_In. split.
  - intros [(c & Hc & _) Hn]. split; [by intros ->; apply elem_of_nil in Hc|]. apply Forall_forall. intros x Hx.
    destruct (MutatesData x) eqn:E; [done|]. exfalso. apply not_true_iff_false in Hn. apply Hn, existsb_exists. exists x. by rewrite <- list_elem_of_In, E.
  - intros [Hn HF]. rewrite Forall_forall in HF. split.
    + destruct nexts as [|c l]; [done|]. exists c. split; [left|apply HF; left].
    + apply not_true_iff_false. rewrite existsb_exists. intros (x & Hx & E). rewrite <- list_elem_of_In in Hx. by rewrite (HF x Hx) in E.
Qed.

Lemma mapM_map {A B C} (f : B -> option C) (h : A -> B) l : mapM f (map h l) = mapM (fun x => f (h x)) l.
Proof. induction l as [|x l IH]; [done|]. cbn in *. by rewrite IH. Qed.

Section Build.
Context {G : Type} `{DirectedGraphLaws G} (create : node -> list consumer -> bool + error).
Context (set : Settings) (Hv : ValidConfig set) (g : Graph G) (HL : LaidOut set g).
Local Abbreviation cg := (componentGraph g).
Implicit Types (st : building).

(** The consumers of the nodes that the data of [n] flows to. *)
Definition Nexts st (n : node) (nexts : list consumer) : Prop := Forall2 (fun m c => consumers st !! m = Some c) (From n cg) nexts.

(** A node that is built. *)
Definition NodeBuilt st (n : node) : Prop :=
  match n with
  | receiverNode _ _ => exists nexts own, (n, nexts) ∈ created st /\ Nexts st n nexts /\ create n nexts = inl own
  | processorNode _ _ => exists next own, (n, [next]) ∈ created st /\ Nexts st n [next] /\ create n [next] = inl own /\ consumers st !! n = Some (mkConsumer n own)
  | exporterNode _ _ => exists own, (n, []) ∈ created st /\ create n [] = inl own /\ consumers st !! n = Some (mkConsumer n own)
  | connectorNode s t _ => exists nexts own, (n, nexts) ∈ created st /\ Nexts st n nexts /\ create n nexts = inl own /\
      consumers st !! n = Some (mkConsumer n (own || bool_decide (s = t) && existsb MutatesData nexts))
  | capabilitiesNode pid => exists cfg fan procs, (pid, cfg) ∈ PipelineConfigs set /\ consumers st !! fanOutNode pid = Some fan /\
      Forall2 (fun id c => consumers st !! processorNode pid id = Some c) (Processors cfg) procs /\
      consumers st !! n = Some (mkConsumer n (MutatesData fan || existsb MutatesData procs))
  | fanOutNode _ => exists nexts, Nexts st n nexts /\ consumers st !! n = Some (mkConsumer n (fanoutCap nexts))
  end.

(** The nodes [dn] are built and no other. *)
Definition Wired (dn : list node) st : Prop :=
  Forall (NodeBuilt st) dn /\ (forall n, is_Some (consumers st !! n) -> n ∈ dn) /\
  NoDup (created st).*1 /\ (forall n, n ∈ (created st).*1 <-> n ∈ dn /\ isComponent n).

(** Building more keeps what is built. *)
Definition Extends st st' : Prop := consumers st ⊆ consumers st' /\ created st ⊆ created st'.

Lemma Nexts_extends st st' n nexts : Extends st st' -> Nexts st n nexts -> Nexts st' n nexts.
Proof. intros [Hc _] HF. eapply Forall2_impl; [exact HF|]. intros m c Hm. exact (lookup_weaken _ _ _ _ Hm Hc). Qed.

Lemma NodeBuilt_extends st st' n : Extends st st' -> NodeBuilt st n -> NodeBuilt st' n.
Proof.
  intros He. pose proof He as [Hc Hl]. assert (Hw : forall n x, consumers st !! n = Some x -> consumers st' !! n = Some x) by (intros; by eapply lookup_weaken).
  destruct n; cbn; intros Hn; repeat match goal with H : exists _, _ |- _ => destruct H | H : _ /\ _ |- _ => destruct H end.
  all: eauto 12 using Nexts_extends.
  exists x, x0, x1. split_and!; [done|by apply Hw| |by apply Hw]. eapply Forall2_impl; [done|]. intros id c ?. by apply Hw.
Qed.

Lemma NodeBuilt_consumer st n : NodeBuilt st n -> ~ isReceiver n -> is_Some (consumers st !! n).
Proof. destruct n; cbn; intros Hn Hr; [done|..]; naive_solver. Qed.

Lemma flow_not_receiver n m : Flow set n m -> ~ isReceiver m.
Proof.
  intros [pid n' Hr|pid cfg u v Hin Ha|pid n' He]; [by intros []| |destruct n'; try done; by intros [] ].
  apply adjacent_tail in Ha as [_ [->|[id ->] ] ]; by intros [].
Qed.

Lemma elem_of_From n m : m ∈ From n cg <-> Flow set n m.
Proof. rewrite (proj2 (From_spec n cg)). apply HL. Qed.

Lemma lookups_ok {A} dn st (f : A -> node) (l : list A) : Wired dn st -> Forall (fun x => f x ∈ dn /\ ~ isReceiver (f x)) l ->
  exists cs, mapM (fun x => consumers st !! f x) l = Some cs /\ Forall2 (fun x c => consumers st !! f x = Some c) l cs.
Proof.
  intros (HF & _) Hl. assert (Hs : is_Some (mapM (fun x => consumers st !! f x) l)).
  { apply mapM_is_Some_2. eapply Forall_impl; [exact Hl|]. intros x [Hx Hr]. rewrite Forall_forall in HF. by eapply NodeBuilt_consumer; [apply HF|]. }
  destruct Hs as [cs Hcs]. exists cs. split; [done|]. by apply mapM_Some_1.
Qed.

Lemma nextConsumers_ok dn st n : Wired dn st -> (forall m, Flow set n m -> m ∈ dn) -> exists nexts, nextConsumers cg st n = Ok nexts /\ Nexts st n nexts.
Proof.
  intros HW Hm. destruct (lookups_ok dn st (fun m => m) (From n cg) HW) as (cs & E & HF).
  - apply Forall_forall. intros m Hin%elem_of_From. split; [by apply Hm|by eapply flow_not_receiver].
  - exists cs. unfold nextConsumers. by rewrite E.
Qed.

(** What one step adds. *)
Definition Adds n st st' : Prop :=
  Extends st st' /\ (forall m, is_Some (consumers st' !! m) -> m = n \/ is_Some (consumers st !! m)) /\
  exists new, created st' = created st ++ new /\ new.*1 = (if decide (isComponent n) then [n] else []).

Lemma Wired_adds dn n st st' : Wired dn st -> n ∉ dn -> Adds n st st' -> NodeBuilt st' n -> Wired (n :: dn) st'.
Proof.
  intros (HF & Hc & Hnd & Hcr) Hn (He & Hc' & new & Enew & Hnew) Hb. unfold Wired. rewrite Enew, fmap_app, Hnew. split_and!.
  - apply Forall_cons. split; [done|]. eapply Forall_impl; [exact HF|]. intros m. by apply NodeBuilt_extends.
  - intros m [->|Hm]%Hc'; [left|right; by apply Hc].
  - apply NoDup_app. split_and!; [done| |case_decide; [apply NoDup_singleton|apply NoDup_nil_2] ]. intros x Hx%Hcr. case_decide; set_solver.
  - intros m. rewrite elem_of_app, Hcr, elem_of_cons. case_decide as Hk; [rewrite list_elem_of_singleton|rewrite elem_of_nil]; naive_solver.
Qed.

Lemma setConsumer_adds n cap st : consumers st !! n = None -> ~ isComponent n -> Adds n st (setConsumer n cap st).
Proof.
  intros Hn Hk. unfold Adds, Extends, setConsumer. cbn. split_and!; [by apply insert_subseteq|done| |exists []; by rewrite app_nil_r, decide_False].
  intros m Hm. destruct (decide (m = n)); [by left|right]. by rewrite lookup_insert_ne in Hm.
Qed.

(** Creating a component: an error of the factory, or the component and its consumer. *)
Lemma createWith_ok n nexts cap st : consumers st !! n = None -> isComponent n ->
  (exists err, create n nexts = inr err /\ createWith create n nexts cap st = Err (buildErr n err)) \/
  (exists own st', create n nexts = inl own /\ createWith create n nexts cap st = Ok st' /\ Adds n st st' /\ (n, nexts) ∈ created st' /\
     forall c, cap own = Some c -> consumers st' !! n = Some (mkConsumer n c)).
Proof.
  intros Hn Hk. unfold createWith. destruct (create n nexts) as [own|err]; [right|left; by exists err]. eexists own, _. split; [done|]. split; [reflexivity|].
  unfold Adds, Extends. destruct (cap own) as [c|]; cbn.
  - split_and!; [by apply insert_subseteq|set_solver| |exists [(n, nexts)]; by rewrite decide_True|set_solver|intros c' [= ->]; by rewrite lookup_insert_eq].
    intros m Hm. destruct (decide (m = n)); [by left|right]. by rewrite lookup_insert_ne in Hm.
  - split_and!; [done|set_solver|naive_solver|exists [(n, nexts)]; by rewrite decide_True|set_solver|done].
Qed.

Lemma From_single n v : (forall m, Flow set n m <-> m = v) -> From n cg = [v].
Proof.
  intros Hm. pose proof (proj1 (From_spec n cg)) as Hnd. assert (Hin : forall m, m ∈ From n cg <-> m = v) by (intros; by rewrite elem_of_From).
  destruct (From n cg) as [|x [|y l] ].
  - exfalso. by apply (elem_of_nil v), Hin.
  - f_equal. apply Hin. left.
  - apply NoDup_cons in Hnd as [Hn _]. assert (x = v) by (apply Hin; left). assert (y = v) by (apply Hin; right; left). subst. set_solver.
Qed.

Lemma processor_next pid id : IsNode set (processorNode pid id) -> exists v, From (processorNode pid id) cg = [v].
Proof.
  intros [(p & [Hn|[Hn|(id' & [= -> ->] & cfg & Hin & Hid)] ])|(p & _ & [?|?])]; try done.
  assert (Hsplit : exists a v b, chainOf p cfg = a ++ processorNode p id' :: v :: b).
  { apply list_elem_of_split in Hid as (a & b & E). unfold chainOf. rewrite E, map_app. cbn [map]. rewrite <- app_assoc. cbn [app].
    destruct (map (processorNode p) b ++ [fanOutNode p]) as [|v l] eqn:El; [by destruct (map (processorNode p) b)|]. exists (capabilitiesNode p :: map (processorNode p) a), v, l. done. }
  destruct Hsplit as (a & v & b & E). exists v. apply From_single. intros m. split; [by eapply (chain_succ set)|].
  intros ->. eapply flow_process; [done|]. by exists a, b.
Qed.

Lemma unbuilt dn n st : Wired dn st -> n ∉ dn -> consumers st !! n = None.
Proof. intros (_ & Hc & _) Hn. apply eq_None_not_Some. intros Hs. by apply Hn, Hc. Qed.

Lemma component_built dn n nexts cap st : Wired dn st -> n ∉ dn -> isComponent n ->
  (forall own st', create n nexts = inl own -> Extends st st' -> (n, nexts) ∈ created st' ->
     (forall c, cap own = Some c -> consumers st' !! n = Some (mkConsumer n c)) -> NodeBuilt st' n) ->
  (exists st', createWith create n nexts cap st = Ok st' /\ Wired (n :: dn) st') \/
  (exists nexts' err, create n nexts' = inr err /\ createWith create n nexts cap st = Err (buildErr n err)).
Proof.
  intros HW Hn Hk Hb. destruct (createWith_ok n nexts cap st (unbuilt dn n st HW Hn) Hk) as [(err & Ec & ->)|(own & st' & Ec & -> & Ha & Hc & Hs)]; [right; by eauto|left].
  exists st'. split; [done|]. apply (Wired_adds dn _ st); [done..|]. apply (Hb own); try done. apply Ha.
Qed.

Lemma capabilities_built dn pid st : Wired dn st -> capabilitiesNode pid ∉ dn -> IsNode set (capabilitiesNode pid) ->
  (forall m, tc (Flow set) (capabilitiesNode pid) m -> m ∈ dn) ->
  exists st', buildNode create g (capabilitiesNode pid) st = Ok st' /\ Wired (capabilitiesNode pid :: dn) st'.
Proof.
  intros HW Hn HN Hsucc. assert (exists cfg, (pid, cfg) ∈ PipelineConfigs set) as [cfg Hin].
  { destruct HN as [(p & [ []|[ []|(id & [=] & _)] ])|(p & Hp & [ [= <-]|[=] ])]. apply list_elem_of_fmap in Hp as ([p cfg] & -> & Hp). by exists cfg. }
  destruct (laid_pipe set g HL pid cfg Hin) as (pn & Epn & _ & Eprocs & _). cbn [buildNode]. rewrite Epn, Eprocs.
  destruct (lookups_ok dn st (fun x => x) [fanOutNode pid] HW) as (fans & _ & Hfan).
  { apply Forall_singleton. split; [apply Hsucc; eapply cap_path; [done|]; apply elem_of_app; right; left|by intros [] ]. }
  apply Forall2_cons_inv_l in Hfan as (fan & l & Efan & _ & _). rewrite Efan. cbn [orPanic bind].
  destruct (lookups_ok dn st (processorNode pid) (Processors cfg) HW) as (procs & Epr & Hprocs).
  { apply Forall_forall. intros id Hid. split; [|by intros [] ]. apply Hsucc. eapply cap_path; [done|]. apply elem_of_app. left. apply list_elem_of_fmap. eauto. }
  rewrite mapM_map, Epr. cbn [orPanic bind].
  destruct (nextConsumers_ok dn st (capabilitiesNode pid) HW) as (nexts & -> & Hnexts); [intros m Hm; by apply Hsucc, tc_once|]. cbn [bind].
  destruct nexts as [|next nexts]; cbn [firstOf head orPanic bind].
  { exfalso. apply Forall2_nil_inv_r in Hnexts. destruct (pipe_ends set pid) as [ [v Hflow] _]; [by eapply pid_in|]. apply elem_of_From in Hflow. rewrite Hnexts in Hflow. set_solver. }
  eexists. split; [reflexivity|]. assert (Ha : Adds (capabilitiesNode pid) st (setConsumer (capabilitiesNode pid) (aggregateCap (MutatesData fan) procs) st)).
  { apply setConsumer_adds; [by eapply unbuilt|by intros [] ]. }
  apply (Wired_adds dn _ st); [done..|]. exists cfg, fan, procs. assert (Hw := fun n x Hx => lookup_weaken _ _ n x Hx (proj1 (proj1 Ha))).
  split_and!; [done|by apply Hw|eapply Forall2_impl; [exact Hprocs|]; intros id c Hc; by apply Hw|]. cbn. by rewrite lookup_insert_eq, aggregateCap_or.
Qed.

Lemma buildNode_ok dn n st : Wired dn st -> n ∉ dn -> IsNode set n -> (forall m, tc (Flow set) n m -> m ∈ dn) ->
  (exists st', buildNode create g n st = Ok st' /\ Wired (n :: dn) st') \/
  (exists nexts err, create n nexts = inr err /\ buildNode create g n st = Err (buildErr n err)).
Proof.
  intros HW Hn HN Hsucc. destruct (nextConsumers_ok dn st n HW) as (nexts & En & Hnexts); [intros m Hm; by apply Hsucc, tc_once|].
  destruct n as [s id|pid id|s id|s t id|pid|pid]; [..|by left; apply capabilities_built|]; cbn [buildNode]; rewrite ?En; cbn [bind].
  - apply component_built; [done..|]. intros own st' Ec He Hc _. exists nexts, own. split_and!; [done|by eapply Nexts_extends|done].
  - destruct (processor_next pid id HN) as (v & Ev). pose proof Hnexts as Hx. unfold Nexts in Hx. rewrite Ev in Hx.
    apply Forall2_cons_inv_l in Hx as (next & l & _ & ->%Forall2_nil_inv_l & ->). cbn [firstOf head orPanic bind].
    apply component_built; [done..|]. intros own st' Ec He Hc Hs. exists next, own. split_and!; [done|by eapply Nexts_extends|done|by apply Hs].
  - apply component_built; [done..|]. intros own st' Ec He Hc Hs. exists own. split_and!; [done|done|by apply Hs].
  - apply component_built; [done..|]. intros own st' Ec He Hc Hs. exists nexts, own. split_and!; [done|by eapply Nexts_extends|done|].
    rewrite (Hs _ eq_refl). do 2 f_equal. case_bool_decide; [rewrite decide_True, aggregateCap_or by done|rewrite decide_False by done; cbn; rewrite orb_false_r]; done.
  - left. eexists. split; [done|]. assert (Ha : Adds (fanOutNode pid) st (setConsumer (fanOutNode pid) (fanoutCap nexts) st)).
    { apply setConsumer_adds; [by eapply unbuilt|by intros [] ]. }
    apply (Wired_adds dn _ st); [done..|]. exists nexts. cbn. split; [|by rewrite lookup_insert_eq]. eapply Nexts_extends; [apply Ha|done].
Qed.

(** Building in the reverse of a topological order. *)
Lemma buildAll_ok l dn st : (exists dn', Sort cg = inl (dn' ++ dn) /\ reverse dn' = l) -> Wired dn st ->
  (exists st' all, foreach (buildNode create g) l st = Ok st' /\ Sort cg = inl all /\ Wired all st') \/
  (exists n nexts err, create n nexts = inr err /\ foreach (buildNode create g) l st = Err (buildErr n err)).
Proof.
  revert dn st. induction l as [|n l IH]; intros dn st (dn' & ES & El) HW.
  - left. exists st, dn. apply (f_equal reverse) in El. rewrite reverse_involutive in El. subst dn'. done.
  - assert (dn' = reverse l ++ [n]) as -> by (apply (f_equal reverse) in El; rewrite reverse_involutive, reverse_cons in El; done).
    rewrite <- app_assoc in ES. cbn in ES. destruct (Sort_sorted _ _ ES) as (Hnd & Hall & Hord).
    assert (Hedge : forall u m, u ∈ n :: dn -> Flow set u m -> m ∈ dn).
    { intros u m Hu HF. destruct (Hord u m) as (a & b & c & E); [by apply HL|].
      destruct (list_elem_of_split _ _ Hu) as (s1 & s2 & Es). rewrite Es, app_assoc in E, Hnd.
      assert (Em : m ∈ s2) by (rewrite (NoDup_split _ _ _ _ _ Hnd E); set_solver).
      destruct s1 as [|y s1]; injection Es as -> ->; set_solver. }
    assert (Hreach : forall u m, tc (Flow set) u m -> u ∈ n :: dn -> m ∈ dn).
    { induction 1 as [u m Hum|u x m Hux Hxm IHm]; intros Hu; [by eapply Hedge|]. apply IHm. right. by eapply Hedge. }
    cbn [foreach]. destruct (buildNode_ok dn n st HW) as [(st' & -> & HW')|(nexts & err & Ec & ->)].
    + apply NoDup_app in Hnd as (_ & _ & Hnd). by apply NoDup_cons in Hnd as [Hn _].
    + apply (laid_nodes set g HL), Hall. set_solver.
    + intros m Hm. apply (Hreach n m Hm). left.
    + cbn [bind]. apply (IH (n :: dn) st'); [|done]. exists (reverse l). by rewrite reverse_involutive.
    + right. eauto.
Qed.

Lemma Wired_nil : Wired [] (mkBuilding ∅ []).
Proof.
  unfold Wired. cbn. split_and!; [done| |apply NoDup_nil_2|set_solver]. intros n. rewrite lookup_empty. by intros [].
Qed.

Lemma buildComponents_ok nodes : Sort cg = inl nodes ->
  (exists st, buildComponents create g = Ok st /\ Wired nodes st) \/
  (exists n nexts err, create n nexts = inr err /\ buildComponents create g = Err (buildErr n err)).
Proof.
  intros ES. unfold buildComponents. rewrite ES.
  destruct (buildAll_ok (reverse nodes) [] (mkBuilding ∅ [])) as [(st & all & -> & ES' & HW)|(n & nexts & err & Ec & ->)].
  - exists nodes. by rewrite app_nil_r.
  - apply Wired_nil.
  - left. exists st. rewrite ES in ES'. by simplify_eq.
  - right. eauto.
Qed.
End Build.
