(* ===== verification/DirectedGraphs.v ===== *)
(** * A directed graph that satisfies the interface

    Sets of nodes and edges, and a topological sort by removing sources, to run the model
    of the pipeline graph on concrete configurations. *)

From stdpp Require Import gmap strings.
From S2P Require Import Prelude Errors PipelineGraph PipelineGraphProofs PipelineFlow.

(** Nodes without edges may be among the first component only. *)
Definition simpleGraph : Type := gset node * gset (node * node).

Definition simpleNodes (g : simpleGraph) : gset node := g.1 ∪ (set_map fst g.2 ∪ set_map snd g.2).

(** ** Sorting *)
Section Sort.
Context (E : gset (node * node)).

Definition hasPred (S : gset node) (n : node) : Prop := Exists (fun m => (m, n) ∈ E) (elements S).

Definition sources (S : gset node) : list node := filter (fun n => ~ hasPred S n) (elements S).

Fixpoint removeSources (fuel : nat) (S : gset node) : option (list node) :=
  if decide (S = ∅) then Some []
  else match fuel, sources S with
  | Datatypes.S fuel, n :: _ => cons n <$> removeSources fuel (S ∖ {[n]})
  | _, _ => None
  end.

Lemma hasPred_spec S n : hasPred S n <-> exists m, m ∈ S /\ (m, n) ∈ E.
Proof. unfold hasPred. rewrite Exists_exists. by setoid_rewrite elem_of_elements. Qed.

Lemma sources_spec S n : n ∈ sources S <-> n ∈ S /\ ~ hasPred S n.
Proof. unfold sources. rewrite list_elem_of_filter, elem_of_elements. naive_solver. Qed.

Lemma removeSources_sorted fuel S l : removeSources fuel S = Some l ->
  NoDup l /\ (forall n, n ∈ l <-> n ∈ S) /\ forall u v, (u, v) ∈ E -> u ∈ S -> v ∈ S -> exists a b c, l = a ++ u :: b ++ v :: c.
Proof.
  revert S l. induction fuel as [|fuel IH]; intros S l; cbn [removeSources]; case_decide as HS; try done.
  1, 2: intros [= <-]; subst S; split_and!; [apply NoDup_nil_2|set_solver|set_solver].
  destruct (sources S) as [|n ns] eqn:En; [done|]. assert (Hn : n ∈ S /\ ~ hasPred S n) by (apply sources_spec; rewrite En; left).
  destruct Hn as [Hn Hp]. rewrite hasPred_spec in Hp. destruct (removeSources fuel _) as [l'|] eqn:El; cbn; [|done]. intros [= <-].
  destruct (IH _ _ El) as (Hnd & Hall & Hord). split_and!.
  - apply NoDup_cons. split; [rewrite Hall; set_solver|done].
  - intros m. rewrite elem_of_cons, Hall. destruct (decide (m = n)); set_solver.
  - intros u v Huv Hu Hv. assert (v <> n) by (intros ->; eauto). destruct (decide (u = n)) as [->|Hun].
    + assert (Hvl : v ∈ l') by (apply Hall; set_solver). apply list_elem_of_split in Hvl as (b & c & ->). by exists [], b, c.
    + destruct (Hord u v) as (a & b & c & ->); [done|set_solver|set_solver|]. by exists (n :: a), b, c.
Qed.

Lemma removeSources_stuck fuel S : (size S <= fuel)%nat -> removeSources fuel S = None -> exists S', S' ≢ ∅ /\ forall n, n ∈ S' -> hasPred S' n.
Proof.
  revert S. induction fuel as [|fuel IH]; intros S Hsz; cbn [removeSources]; case_decide as HS; try done.
  - intros _. exfalso. apply HS, leibniz_equiv, size_empty_inv. lia.
  - destruct (sources S) as [|n ns] eqn:En; intros Hr.
    + exists S. split; [by intros ?%leibniz_equiv|]. intros n Hn. destruct (decide (hasPred S n)); [done|].
      assert (Hs : n ∈ sources S) by by apply sources_spec. rewrite En in Hs. set_solver.
    + assert (Hn : n ∈ S) by (apply sources_spec; rewrite En; left). apply (IH (S ∖ {[n]})); [|by destruct (removeSources fuel _)].
      rewrite size_difference, size_singleton by set_solver. lia.
Qed.

(** Walking backwards in a set without sources. *)
Lemma walk_back S k : S ≢ ∅ -> (forall n, n ∈ S -> hasPred S n) -> exists n l, length l = k /\ Forall (fun m => m ∈ S) (n :: l) /\
  forall u v, adjacent (n :: l) u v -> (u, v) ∈ E.
Proof.
  intros [n0 Hn0]%set_choose Hp. induction k as [|k (n & l & Hlen & HF & Hadj)].
  - exists n0, []. split_and!; [done|by apply Forall_singleton|]. intros u v ([|? [|] ] & b & [=]).
  - pose proof HF as [Hn _]%Forall_cons. apply Hp, hasPred_spec in Hn as (m & Hm & Hmn). exists m, (n :: l). split_and!; [cbn; lia|by apply Forall_cons|].
    intros u v [ [-> [= <-] ]|Ha]%adjacent_cons; auto.
Qed.

Lemma path_tc l u v b : (forall x y, adjacent (u :: l ++ v :: b) x y -> (x, y) ∈ E) -> tc (fun x y => (x, y) ∈ E) u v.
Proof.
  revert u. induction l as [|x l IH]; intros u Hadj.
  - apply tc_once, Hadj. by exists [], b.
  - apply (tc_l _ u x); [apply Hadj; by exists [], (l ++ v :: b)|]. apply IH. intros y z Ha. apply Hadj, adjacent_cons. by right.
Qed.

Lemma no_sources_cycle S : S ≢ ∅ -> (forall n, n ∈ S -> hasPred S n) -> exists n, tc (fun x y => (x, y) ∈ E) n n.
Proof.
  intros HS Hp. destruct (walk_back S (size S) HS Hp) as (n & l & Hlen & HF & Hadj). destruct (decide (NoDup (n :: l))) as [Hnd|Hnd].
  - exfalso. assert (Hsub : list_to_set (n :: l) ⊆ S) by (intros x Hx%elem_of_list_to_set; rewrite Forall_forall in HF; auto).
    apply subseteq_size in Hsub. rewrite size_list_to_set in Hsub by done. cbn in Hsub. lia.
  - assert (Hdup : exists a x b c, n :: l = a ++ x :: b ++ x :: c).
    { clear -Hnd. induction (n :: l) as [|y k IH]; [by destruct Hnd; apply NoDup_nil_2|]. destruct (decide (y ∈ k)) as [Hy|Hy].
      - apply list_elem_of_split in Hy as (b & c & ->). by exists [], y, b, c.
      - destruct IH as (a & x & b & c & ->); [intros ?; by apply Hnd, NoDup_cons|]. by exists (y :: a), x, b, c. }
    destruct Hdup as (a & x & b & c & Ed). exists x. apply (path_tc b x x c). intros y z (a' & b' & Ea). apply Hadj. exists (a ++ a'), b'. by rewrite Ed, Ea, app_assoc.
Qed.
End Sort.

(** ** The operations *)
#[export] Instance simple_graph : DirectedGraph simpleGraph := {|
  NewDirectedGraph := (∅, ∅);
  HasNode n g := bool_decide (n ∈ simpleNodes g);
  AddNode n g := if decide (n ∈ simpleNodes g) then None else Some ({[n]} ∪ g.1, g.2);
  SetEdge u v g := if decide (u = v) then None else Some (g.1, {[(u, v)]} ∪ g.2);
  RemoveNode n g := (simpleNodes g ∖ {[n]}, filter (fun e => e.1 <> n /\ e.2 <> n) g.2);
  From n g := elements (set_map (D := gset node) snd (filter (fun e : node * node => e.1 = n) g.2));
  Sort g := match removeSources g.2 (size (simpleNodes g)) (simpleNodes g) with Some l => inl l | None => inr (New "topo: no topological ordering") end;
  Unorderable _ := true;
  DirectedCyclesIn _ := [];
  nodesOf := simpleNodes;
  edgesOf g := g.2;
|}.

Lemma elem_of_simpleNodes n (g : simpleGraph) : n ∈ simpleNodes g <-> n ∈ g.1 \/ exists u v, (u, v) ∈ g.2 /\ (n = u \/ n = v).
Proof.
  unfold simpleNodes. rewrite !elem_of_union, !elem_of_map. split.
  - intros [?|[([u v] & -> & ?)|([u v] & -> & ?)] ]; [by left|right|right]; eauto.
  - intros [?|(u & v & Hin & [->| ->])]; [by left|right; left; by exists (u, v)|right; right; by exists (u, v)].
Qed.

#[export] Instance simple_graph_laws : DirectedGraphLaws simpleGraph.
Proof.
  split; cbn.
  - unfold simpleNodes. cbn. rewrite !set_map_empty. set_solver.
  - done.
  - done.
  - intros n g Hn. rewrite decide_False by done. eexists. split; [done|]. split; [|done]. unfold simpleNodes. cbn. set_solver.
  - intros n g Hn. by rewrite decide_True.
  - intros u v g Huv. rewrite decide_False by done. eexists. split; [done|]. split; [|done]. apply set_eq. intros n.
    rewrite elem_of_union, !elem_of_simpleNodes, elem_of_union, !elem_of_singleton. cbn. setoid_rewrite elem_of_union. setoid_rewrite elem_of_singleton. naive_solver.
  - intros u g. by rewrite decide_True.
  - intros n g. apply set_eq. intros m. rewrite elem_of_difference, !elem_of_simpleNodes, elem_of_singleton. cbn. setoid_rewrite elem_of_filter.
    rewrite elem_of_difference, elem_of_simpleNodes, elem_of_singleton. cbn. naive_solver.
  - intros n g u v. rewrite elem_of_filter. cbn. naive_solver.
  - intros g u v Huv. rewrite !elem_of_simpleNodes. split; right; exists u, v; auto.
  - intros n g. split; [apply NoDup_elements|]. intros m. rewrite elem_of_elements, elem_of_map. setoid_rewrite elem_of_filter. split.
    + intros ([u v] & -> & <- & Hin). done.
    + intros Hin. by exists (n, m).
  - intros g l. destruct (removeSources _ _ _) as [l'|] eqn:El; [|done]. intros [= ->]. apply removeSources_sorted in El as (Hnd & Hall & Hord).
    split_and!; [done|done|]. intros u v Huv. apply Hord; [done|..]; apply elem_of_simpleNodes; right; exists u, v; auto.
  - intros g err. destruct (removeSources _ _ _) as [l'|] eqn:El; [done|]. intros _.
    apply removeSources_stuck in El as (S & HS & Hp); [|done]. by apply (no_sources_cycle _ S).
  - intros g c Hc. set_solver.
Qed.

(** Maps ranged over in the order of their lists. *)
#[export] Instance in_order : Range := {| range A l := l |}.
#[export] Instance in_order_laws : RangeLaws.
Proof. by split. Qed.
