(* ===== verification/PartialReload.v ===== *)
(** * Reloading receivers (otelcol/config_diff.go, [Graph.UpdateReceivers])

    When only receivers changed in a new configuration, the running graph is updated in
    place: receivers that are gone or changed are shut down and removed, new and changed
    ones are created and started, everything else keeps running. *)

From stdpp Require Import gmap strings.
From S2P Require Import Prelude Errors PipelineGraph PipelineBuild.

(** ** What changed (config_diff.go)

    The hashes are of sections of the configuration and of the receivers in it. *)
Record configFingerprint := mkFingerprint {
  nonReceiverHash : Z;
  receiverHashes : gmap ID Z;
  fp_extensions : list ID;
  fp_pipelines : gmap pipelineID PipelineConfig;
}.

Definition filterIDs (ids : list ID) (pred : ID -> bool) : list ID := filter (fun id => pred id = true) ids.

Definition samePipeline (isConnector : ID -> bool) (oldPipe curPipe : PipelineConfig) : bool :=
  bool_decide (Processors oldPipe = Processors curPipe) && bool_decide (Exporters oldPipe = Exporters curPipe) &&
  bool_decide (filterIDs (Receivers oldPipe) isConnector = filterIDs (Receivers curPipe) isConnector).

Definition receiversOnlyChanged (old cur : configFingerprint) (isConnector : ID -> bool) : bool :=
  if negb (nonReceiverHash old =? nonReceiverHash cur)%Z then false
  else if negb (bool_decide (fp_extensions old = fp_extensions cur)) then false
  else if negb (size (fp_pipelines old) =? size (fp_pipelines cur))%nat then false
  else forallb (fun '(pid, oldPipe) => match fp_pipelines cur !! pid with Some curPipe => samePipeline isConnector oldPipe curPipe | None => false end)
         (map_to_list (fp_pipelines old)).

Definition changedReceivers (old cur : configFingerprint) (id : ID) : bool :=
  match receiverHashes cur !! id, receiverHashes old !! id with
  | Some curHash, Some oldHash => negb (oldHash =? curHash)%Z
  | _, _ => false
  end.

(** ** UpdateReceivers *)
Inductive event :=
  | Stopping (n : node)
  | Shutdown (n : node) (err : option error)
  | Stopped (n : node)
  | PermanentError (n : node) (err : error)
  | Create (n : node) (nexts : list consumer)
  | Starting (n : node)
  | Start (n : node) (err : option error)
  | OKIfStarting (n : node).

Inductive status := Fine | Failed (err : error) | Panicked.

Section Update.
Context {G : Type} `{DirectedGraph G} `{Range}.

(** What the receivers do, and the consumers of the nodes that keep running.  [create] is
    the builder made of the new configurations and factories, which need not be the one
    the graph was built with.  That it is also installed on the host, for components that
    ask for a factory, is left out. *)
Context (shutdown : node -> option error) (create : node -> list consumer -> bool + error) (start : node -> option error).
Context (consumers : gmap node consumer).

(** The graph and the calls so far. *)
Record reload := mkReload { r_graph : Graph G; r_log : list event }.
Implicit Types (st : reload).

Definition andThen (x : reload * status) (f : reload -> reload * status) : reload * status :=
  match x with (st, Fine) => f st | _ => x end.

Fixpoint each {A} (f : A -> reload -> reload * status) (l : list A) st : reload * status :=
  match l with [] => (st, Fine) | x :: l => andThen (f x st) (each f l) end.

Definition log (es : list event) st : reload := mkReload (r_graph st) (r_log st ++ es).

(** Running an operation of the graph. *)
Definition onGraph (f : Graph G -> outcome (Graph G)) st : reload * status :=
  match f (r_graph st) with
  | Ok g => (mkReload g (r_log st), Fine)
  | Err e => (st, Failed e)
  | Panic => (st, Panicked)
  end.

Definition receiverID (n : node) : ID := match n with receiverNode _ id => id | _ => ("", "")%string end.
Definition isReceiverNode (n : node) : Prop := match n with receiverNode _ _ => True | _ => False end.
#[export] Instance isReceiverNode_dec n : Decision (isReceiverNode n).
Proof. destruct n; cbn; apply _. Defined.

(** Phase 1. *)
Definition currentReceivers (g : Graph G) : gset node :=
  list_to_set (flat_map (fun pp => filter isReceiverNode (elements (receivers pp.2))) (map_to_list (pipelines g))).
Definition currentPipelines (g : Graph G) (n : node) : gset pipelineID :=
  list_to_set (map fst (filter (fun pp => n ∈ receivers pp.2) (map_to_list (pipelines g)))).

Context (set : Settings).

(** Phase 2. *)
Definition desired : list (node * pipelineID) :=
  flat_map (fun pc => map (fun recvID => (receiverNode pc.1.1 recvID, pc.1)) (filter (fun id => IsConfigured set id = false) (Receivers pc.2))) (PipelineConfigs set).
Definition desiredReceivers : gset node := list_to_set (map fst desired).
Definition desiredPipelines (n : node) : gset pipelineID := list_to_set (map snd (filter (fun np => np.1 = n) desired)).

Context (changed : ID -> bool).

(** Phase 3. *)
Definition toRemove (g : Graph G) : gset node := currentReceivers g ∖ desiredReceivers.
Definition toRebuild (g : Graph G) : gset node :=
  filter (fun n => n ∈ desiredReceivers /\ (currentPipelines g n <> desiredPipelines n \/ changed (receiverID n) = true)) (currentReceivers g).
Definition toAdd (g : Graph G) : gset node := desiredReceivers ∖ currentReceivers g.

(** Phase 4. *)
Definition shutdownReceiverNode (n : node) st : reload * status :=
  let st := log [Stopping n; Shutdown n (shutdown n)] st in
  match shutdown n with
  | Some err => (log [PermanentError n err] st, Failed (Wrapf "failed to shutdown receiver %q: %w" [ArgS (idString (receiverID n))] err))
  | None => (log [Stopped n] st, Fine)
  end.

(** Phase 5. *)
Definition removeNode (n : node) (g : Graph G) : Graph G :=
  mkGraph (RemoveNode n (componentGraph g)) (pipelines g) (delete n (instanceIDs g)).
Definition dropReceivers (X : gset node) (pn : pipelineNodes) : pipelineNodes :=
  mkPipelineNodes (filter (fun n => ~ (isReceiverNode n /\ n ∈ X)) (receivers pn)) (processors pn) (exporters pn).
Definition removeNodes (rm rb : gset node) (g : Graph G) : Graph G :=
  let g := foldr removeNode g (range (elements rm)) in
  let g := foldr removeNode g (range (elements rb)) in
  mkGraph (componentGraph g) (dropReceivers (rm ∪ rb) <$> pipelines g) (instanceIDs g).

(** Phase 6. *)
Definition recreate (Y : gset node) (pid : pipelineID) (recvID : ID) (g : Graph G) : outcome (Graph G) :=
  let n := receiverNode pid.1 recvID in
  if IsConfigured set recvID then Ok g
  else if decide (n ∈ Y) then bind (createReceiver pid recvID g) (updatePipe pid (addReceiver n))
  else Ok g.

(** Phase 7: the receivers of a pipeline that are among the new ones. *)
Definition newReceivers (Y : gset node) (pn : pipelineNodes) : list node :=
  filter (fun n => isReceiverNode n /\ n ∈ Y) (range (elements (receivers pn))).

(** Phase 8. *)
Definition buildReceiver (n : node) (sb : reload * gset node) : (reload * gset node) * status :=
  let '(st, built) := sb in
  if decide (n ∈ built) then ((st, built), Fine)
  else
    match mapM (fun m => consumers !! m) (From n (componentGraph (r_graph st))) with
    | None => ((st, {[n]} ∪ built), Panicked)
    | Some nexts =>
        match create n nexts with
        | inl _ => ((log [Create n nexts] st, {[n]} ∪ built), Fine)
        | inr err => ((st, {[n]} ∪ built), Failed (Wrapf "failed to build receiver %q: %w" [ArgS (idString (receiverID n))] (buildErr n err)))
        end
    end.

Fixpoint buildReceivers (ns : list node) (sb : reload * gset node) : (reload * gset node) * status :=
  match ns with
  | [] => (sb, Fine)
  | n :: ns => match buildReceiver n sb with (sb, Fine) => buildReceivers ns sb | r => r end
  end.

(** Phase 9. *)
Definition startReceiver (n : node) st : reload * status :=
  let st := log [Starting n; Start n (start n)] st in
  match start n with
  | Some err => (log [PermanentError n err] st, Failed (Wrapf "failed to start receiver %q: %w" [ArgS (idString (receiverID n))] err))
  | None => (log [OKIfStarting n] st, Fine)
  end.

Definition UpdateReceivers (hostIsNil : bool) (g : Graph G) : reload * status :=
  let st := mkReload g [] in
  if hostIsNil then (st, Failed (New "host cannot be nil"))
  else
    let rm := toRemove g in
    let rb := toRebuild g in
    let add := toAdd g in
    if bool_decide (rm = ∅ /\ rb = ∅ /\ add = ∅) then (st, Fine)
    else
      andThen (each shutdownReceiverNode (range (elements rm)) st) (fun st =>
      andThen (each shutdownReceiverNode (range (elements rb)) st) (fun st =>
      andThen (onGraph (fun g => Ok (removeNodes rm rb g)) st) (fun st =>
      andThen (each (fun pc => each (fun recvID => onGraph (recreate (add ∪ rb) pc.1 recvID)) (Receivers pc.2)) (PipelineConfigs set) st) (fun st =>
      andThen (each (fun pp => each (fun n => onGraph (setEdge n (capabilitiesNode pp.1))) (newReceivers (add ∪ rb) pp.2))
                 (range (map_to_list (pipelines (r_graph st)))) st) (fun st =>
      let '((st, built), r) :=
        buildReceivers (flat_map (fun pp => newReceivers (add ∪ rb) pp.2) (range (map_to_list (pipelines (r_graph st))))) (st, ∅) in
      andThen (st, r) (each startReceiver (range (elements built)))))))).
End Update.
