(* ===== verification/PartialReloadProofs.v ===== *)
(** * What reloading receivers guarantees

    A reload that succeeds leaves the graph that a fresh build of the new configuration
    would lay out; it shuts down and starts exactly the receivers that changed. *)

From stdpp Require Import gmap strings.
From S2P Require Import Prelude Errors PipelineGraph PipelineGraphProofs PipelineFlow PipelineBuild PipelineBuildProofs PartialReload.

(** ** Configurations that differ in receivers only *)
Record ReceiversOnly (old new : Settings) : Prop := {
  ro_conn id : IsConfigured old id = IsConfigured new id;
  ro_factory t : ConnectorFactory old t = ConnectorFactory new t;
  ro_old pid cfg : (pid, cfg) ∈ PipelineConfigs old -> exists cfg', (pid, cfg') ∈ PipelineConfigs new /\ samePipeline (IsConfigured new) cfg cfg' = true;
  ro_new pid cfg' : (pid, cfg') ∈ PipelineConfigs new -> exists cfg, (pid, cfg) ∈ PipelineConfigs old /\ samePipeline (IsConfigured new) cfg cfg' = true;
}.

Lemma samePipeline_true conn cfg cfg' : samePipeline conn cfg cfg' = true <->
  Processors cfg = Processors cfg' /\ Exporters cfg = Exporters cfg' /\ filterIDs (Receivers cfg) conn = filterIDs (Receivers cfg') conn.
Proof. unfold samePipeline. rewrite !andb_true_iff, !bool_decide_eq_true. tauto. Qed.

Lemma elem_of_configs (l : list (pipelineID * PipelineConfig)) pid cfg : NoDup (map fst l) -> (pid, cfg) ∈ l <-> (list_to_map l : gmap pipelineID PipelineConfig) !! pid = Some cfg.
Proof. intros Hnd. apply (elem_of_list_to_map l pid cfg Hnd). Qed.

(** The check of the fingerprints says so. *)
Lemma receiversOnlyChanged_sound old new ofp nfp : NoDup (map fst (PipelineConfigs old)) -> NoDup (map fst (PipelineConfigs new)) ->
  (forall id, IsConfigured old id = IsConfigured new id) -> (forall t, ConnectorFactory old t = ConnectorFactory new t) ->
  fp_pipelines ofp = list_to_map (PipelineConfigs old) -> fp_pipelines nfp = list_to_map (PipelineConfigs new) ->
  receiversOnlyChanged ofp nfp (IsConfigured new) = true -> ReceiversOnly old new.
Proof.
  intros Ho Hn Hc Hf Eo En. unfold receiversOnlyChanged. rewrite Eo, En. repeat case_match; try done. intros HF.
  assert (Hall : forall pid cfg, (pid, cfg) ∈ PipelineConfigs old -> exists cfg', (pid, cfg') ∈ PipelineConfigs new /\ samePipeline (IsConfigured new) cfg cfg' = true).
  { intros pid cfg Hin. rewrite forallb_forall in HF. specialize (HF (pid, cfg)). rewrite <- list_elem_of_In, elem_of_map_to_list, <- elem_of_configs in HF by done.
    specialize (HF Hin). cbn in HF. destruct (_ !! pid) as [cfg'|] eqn:E; [|done]. exists cfg'. by rewrite elem_of_configs. }
  split; [done|done|done|]. intros pid cfg' Hin.
  assert (Hdom : dom (list_to_map (PipelineConfigs old) : gmap pipelineID PipelineConfig) = dom (list_to_map (PipelineConfigs new) : gmap pipelineID PipelineConfig)).
  { apply set_subseteq_size_eq; [|rewrite !size_dom; match goal with E : negb _ = false |- _ => apply negb_false_iff, Nat.eqb_eq in E; rewrite E; lia end].
    intros p. rewrite !elem_of_dom. intros [cfg E]. apply elem_of_configs in E; [|done]. apply Hall in E as (c & E & _). exists c. by apply elem_of_configs. }
  assert (Hp : pid ∈ dom (list_to_map (PipelineConfigs old) : gmap pipelineID PipelineConfig)) by (rewrite Hdom, elem_of_dom; exists cfg'; by apply elem_of_configs).
  apply elem_of_dom in Hp as [cfg E]. apply elem_of_configs in E; [|done]. exists cfg. split; [done|]. destruct (Hall pid cfg E) as (c & Ec & Hs).
  by rewrite (NoDup_fst_inj _ pid cfg' c Hn Hin Ec).
Qed.

Section Same.
Context (old new : Settings) (HR : ReceiversOnly old new).

Lemma same_pids pid : pid ∈ pids old <-> pid ∈ pids new.
Proof.
  unfold pids. rewrite !list_elem_of_fmap. split.
  - intros ([p cfg] & -> & Hin). destruct (ro_old _ _ HR p cfg Hin) as (cfg' & Hin' & _). by exists (p, cfg').
  - intros ([p cfg] & -> & Hin). destruct (ro_new _ _ HR p cfg Hin) as (cfg' & Hin' & _). by exists (p, cfg').
Qed.

Lemma same_processors pid id : ProcIn old pid id <-> ProcIn new pid id.
Proof.
  split; intros (cfg & Hin & Hid).
  - destruct (ro_old _ _ HR pid cfg Hin) as (cfg' & Hin' & (E & _)%samePipeline_true). exists cfg'. by rewrite <- E.
  - destruct (ro_new _ _ HR pid cfg Hin) as (cfg' & Hin' & (E & _)%samePipeline_true). exists cfg'. by rewrite E.
Qed.

Lemma same_exporters pid id : ExpIn old pid id <-> ExpIn new pid id.
Proof.
  split; intros (cfg & Hin & Hid).
  - destruct (ro_old _ _ HR pid cfg Hin) as (cfg' & Hin' & (_ & E & _)%samePipeline_true). exists cfg'. by rewrite <- E.
  - destruct (ro_new _ _ HR pid cfg Hin) as (cfg' & Hin' & (_ & E & _)%samePipeline_true). exists cfg'. by rewrite E.
Qed.

Lemma same_connectors pid id : isConnector new id -> RecvIn old pid id <-> RecvIn new pid id.
Proof.
  intros Hc. split; intros (cfg & Hin & Hid).
  - destruct (ro_old _ _ HR pid cfg Hin) as (cfg' & Hin' & (_ & _ & E)%samePipeline_true). exists cfg'. split; [done|].
    assert (Hf : id ∈ filterIDs (Receivers cfg) (IsConfigured new)) by by apply list_elem_of_filter. rewrite E in Hf. by apply list_elem_of_filter in Hf as [_ ?].
  - destruct (ro_new _ _ HR pid cfg Hin) as (cfg' & Hin' & (_ & _ & E)%samePipeline_true). exists cfg'. split; [done|].
    assert (Hf : id ∈ filterIDs (Receivers cfg) (IsConfigured new)) by by apply list_elem_of_filter. rewrite <- E in Hf. by apply list_elem_of_filter in Hf as [_ ?].
Qed.

Lemma same_isConnector id : isConnector old id <-> isConnector new id.
Proof. unfold isConnector. by rewrite (ro_conn _ _ HR). Qed.

Lemma same_Link c e r : Link old c e r <-> Link new c e r.
Proof.
  unfold Link. rewrite same_isConnector, same_exporters. setoid_rewrite (ro_factory _ _ HR). split; intros (Hc & He & Hr & Hf); (split_and!; [done|done|by apply same_connectors|done]).
Qed.

Lemma same_ExpNode pid n : ExpNode old pid n <-> ExpNode new pid n.
Proof. destruct n; cbn; rewrite ?same_exporters, ?same_isConnector; try done. by setoid_rewrite same_Link. Qed.

Lemma same_RecvNode pid n : ~ isReceiverNode n -> RecvNode old pid n <-> RecvNode new pid n.
Proof. destruct n; cbn; intros Hn; try done. by setoid_rewrite same_Link. Qed.

Lemma same_UsedIn n pid : ~ isReceiverNode n -> UsedIn old n pid <-> UsedIn new n pid.
Proof. intros Hn. unfold UsedIn. rewrite same_RecvNode, same_ExpNode by done. by setoid_rewrite same_processors. Qed.
End Same.

(** ** The receivers before and after *)
Section Receivers.
Context {G : Type} `{DirectedGraphLaws G} (old new : Settings) (g : Graph G) (HL : LaidOut old g) (changed : ID -> bool).

Lemma pipe_receivers pid pn n : pipelines g !! pid = Some pn -> n ∈ receivers pn <-> RecvNode old pid n.
Proof.
  intros Hp. assert (Hin : pid ∈ pids old) by (apply (laid_pids old g HL); eauto). apply list_elem_of_fmap in Hin as ([p cfg] & -> & Hin).
  destruct (laid_pipe old g HL p cfg Hin) as (pn' & Hp' & Hr & _). cbn in Hp. rewrite Hp in Hp'. simplify_eq. apply Hr.
Qed.

Lemma RecvNode_pipe pid n : RecvNode old pid n -> exists pn, pipelines g !! pid = Some pn.
Proof. intros Hr. destruct (proj2 (laid_pids old g HL pid)) as [pn Hp]; [eapply node_pid; by left|eauto]. Qed.

Lemma elem_of_currentReceivers n : n ∈ currentReceivers g <-> isReceiverNode n /\ exists pid, RecvNode old pid n.
Proof.
  unfold currentReceivers. rewrite elem_of_list_to_set, list_elem_of_In, in_flat_map. setoid_rewrite <- list_elem_of_In. setoid_rewrite list_elem_of_filter.
  setoid_rewrite elem_of_elements. split.
  - intros ([pid pn] & Hp%elem_of_map_to_list & Hn & Hr). split; [done|]. exists pid. by apply (pipe_receivers pid pn).
  - intros (Hn & pid & Hr). destruct (RecvNode_pipe pid n Hr) as [pn Hp]. exists (pid, pn). rewrite elem_of_map_to_list. split_and!; [done|done|]. by eapply pipe_receivers.
Qed.

Lemma elem_of_currentPipelines n pid : pid ∈ currentPipelines g n <-> RecvNode old pid n.
Proof.
  unfold currentPipelines. rewrite elem_of_list_to_set, list_elem_of_fmap. setoid_rewrite list_elem_of_filter. split.
  - intros ([p pn] & -> & Hn & Hp%elem_of_map_to_list). by apply (pipe_receivers p pn).
  - intros Hr. destruct (RecvNode_pipe pid n Hr) as [pn Hp]. exists (pid, pn). rewrite elem_of_map_to_list. split_and!; [done| |done]. by eapply pipe_receivers.
Qed.

Lemma elem_of_desired n pid : (n, pid) ∈ desired new <-> isReceiverNode n /\ RecvNode new pid n.
Proof.
  unfold desired. rewrite list_elem_of_In, in_flat_map. setoid_rewrite <- list_elem_of_In. setoid_rewrite list_elem_of_fmap. setoid_rewrite list_elem_of_filter. split.
  - intros ([p cfg] & Hin & id & [= -> ->] & Hc & Hid). cbn in *. split; [done|]. unfold isConnector. split_and!; [done|by exists cfg|by rewrite Hc].
  - intros [Hn Hr]. destruct n as [s id| | | | |]; try done. destruct Hr as (-> & (cfg & Hin & Hid) & Hc). exists (pid, cfg). split; [done|]. exists id.
    split_and!; [done|by apply not_true_iff_false|done].
Qed.

Lemma elem_of_desiredReceivers n : n ∈ desiredReceivers new <-> isReceiverNode n /\ exists pid, RecvNode new pid n.
Proof.
  unfold desiredReceivers. rewrite elem_of_list_to_set, list_elem_of_fmap. split.
  - intros ([m pid] & -> & [Hn Hr]%elem_of_desired). cbn. eauto.
  - intros (Hn & pid & Hr). exists (n, pid). by rewrite elem_of_desired.
Qed.

Lemma elem_of_desiredPipelines n pid : pid ∈ desiredPipelines new n <-> isReceiverNode n /\ RecvNode new pid n.
Proof.
  unfold desiredPipelines. rewrite elem_of_list_to_set, list_elem_of_fmap. setoid_rewrite list_elem_of_filter. split.
  - intros ([m p] & -> & Hm & Hd%elem_of_desired). cbn in *. by subst m.
  - intros Hd. exists (n, pid). by rewrite elem_of_desired.
Qed.

(** Those that go, and those that come. *)
Definition gone : gset node := toRemove new g ∪ toRebuild new changed g.
Definition fresh : gset node := toAdd new g ∪ toRebuild new changed g.

Lemma gone_receivers n : n ∈ gone -> isReceiverNode n /\ exists pid, RecvNode old pid n.
Proof. unfold gone, toRemove, toRebuild. rewrite elem_of_union, elem_of_difference, elem_of_filter. intros Hn. apply elem_of_currentReceivers. tauto. Qed.

Lemma fresh_receivers n : n ∈ fresh -> isReceiverNode n /\ exists pid, RecvNode new pid n.
Proof. unfold fresh, toAdd, toRebuild. rewrite elem_of_union, elem_of_difference, elem_of_filter. intros Hn. apply elem_of_desiredReceivers. tauto. Qed.

Lemma fresh_not_kept n pid : n ∈ fresh -> RecvNode old pid n -> n ∈ gone.
Proof.
  intros Hf Hr. pose proof (fresh_receivers n Hf) as [Hn _]. unfold fresh, gone, toAdd in *. rewrite elem_of_union, elem_of_difference in Hf.
  destruct Hf as [ [_ Hf]|Hf]; [|set_solver]. destruct Hf. apply elem_of_currentReceivers. eauto.
Qed.

Lemma kept_same n pid : isReceiverNode n -> n ∉ gone -> n ∉ fresh -> RecvNode old pid n <-> RecvNode new pid n.
Proof.
  intros Hn Hg Hf. unfold gone, fresh, toRemove, toAdd, toRebuild in Hg, Hf. rewrite elem_of_union, elem_of_difference, elem_of_filter in Hg, Hf.
  destruct (decide (n ∈ currentReceivers g)) as [Hc|Hc], (decide (n ∈ desiredReceivers new)) as [Hd|Hd]; [|tauto|tauto|].
  - assert (E : currentPipelines g n = desiredPipelines new n) by (apply dec_stable; tauto).
    rewrite <- elem_of_currentPipelines, E, elem_of_desiredPipelines. tauto.
  - rewrite elem_of_currentReceivers in Hc. rewrite elem_of_desiredReceivers in Hd. naive_solver.
Qed.

Lemma receiver_split n pid : isReceiverNode n -> RecvNode new pid n <-> (RecvNode old pid n /\ n ∉ gone) \/ (RecvNode new pid n /\ n ∈ fresh).
Proof.
  intros Hn. split.
  - intros Hr. destruct (decide (n ∈ fresh)) as [Hf|Hf]; [by right|left]. assert (Hg : n ∉ gone); [|split; [by apply kept_same|done] ].
    intros Hg. unfold gone, toRemove in Hg. rewrite elem_of_union, elem_of_difference in Hg. destruct Hg as [ [_ Hg]|Hg]; [|set_solver]. destruct Hg. apply elem_of_desiredReceivers. eauto.
  - intros [ [Hr Hg]|[Hr _] ]; [|done]. apply kept_same; [done|done| |done]. intros Hf. by eapply Hg, fresh_not_kept.
Qed.
End Receivers.

(** ** The phases that change the graph *)
Section Phases.
Context {G : Type} `{DirectedGraphLaws G} `{RangeLaws}.
Implicit Types (g : Graph G) (ds : list decl).

Lemma removeNode_all l g : let g' := foldr removeNode g l in
  nodesOf (componentGraph g') = nodesOf (componentGraph g) ∖ list_to_set l /\
  (forall u v, (u, v) ∈ edgesOf (componentGraph g') <-> (u, v) ∈ edgesOf (componentGraph g) /\ u ∉ l /\ v ∉ l) /\
  pipelines g' = pipelines g /\ forall n, instanceIDs g' !! n = if decide (n ∈ l) then None else instanceIDs g !! n.
Proof.
  induction l as [|x l (Hn & He & Hp & Hi)]; cbn [foldr].
  - cbn. split_and!; [set_solver|set_solver|done|intros n; by rewrite decide_False by set_solver].
  - cbn [removeNode componentGraph pipelines instanceIDs]. rewrite RemoveNode_nodes, Hn. split_and!.
    + rewrite list_to_set_cons. set_solver.
    + intros u v. rewrite RemoveNode_edges, He. set_solver.
    + done.
    + intros n. destruct (decide (n = x)) as [->|Hx]; [by rewrite lookup_delete_eq, decide_True by set_solver|].
      rewrite lookup_delete_ne, Hi by done. destruct (decide (n ∈ l)); [by rewrite decide_True by set_solver|by rewrite decide_False by set_solver].
Qed.

Lemma removeNodes_spec rm rb g : let g' := removeNodes rm rb g in
  nodesOf (componentGraph g') = nodesOf (componentGraph g) ∖ (rm ∪ rb) /\
  (forall u v, (u, v) ∈ edgesOf (componentGraph g') <-> (u, v) ∈ edgesOf (componentGraph g) /\ u ∉ rm ∪ rb /\ v ∉ rm ∪ rb) /\
  (forall pid, pipelines g' !! pid = dropReceivers (rm ∪ rb) <$> pipelines g !! pid) /\
  forall n, instanceIDs g' !! n = if decide (n ∈ rm ∪ rb) then None else instanceIDs g !! n.
Proof.
  cbn zeta. unfold removeNodes. cbn [componentGraph pipelines instanceIDs].
  destruct (removeNode_all (range (elements rm)) g) as (Hn1 & He1 & Hp1 & Hi1).
  destruct (removeNode_all (range (elements rb)) (foldr removeNode g (range (elements rm)))) as (Hn2 & He2 & Hp2 & Hi2).
  assert (Hr : forall (X : gset node) n, n ∈ range (elements X) <-> n ∈ X) by (intros X n; by rewrite range_perm, elem_of_elements).
  split_and!.
  - apply set_eq. intros n. rewrite Hn2, Hn1, !elem_of_difference, !elem_of_list_to_set, !Hr. set_solver.
  - intros u v. rewrite He2, He1, !Hr. set_solver.
  - intros pid. by rewrite lookup_fmap, Hp2, Hp1.
  - intros n. rewrite Hi2, Hi1. pose proof (Hr rm n). pose proof (Hr rb n). pose proof (elem_of_union rm rb n).
    repeat case_decide; try done; exfalso; tauto.
Qed.

(** Receivers declared in a graph that does not have them. *)
Definition withReceivers ds (pid : pipelineID) (pn : pipelineNodes) : pipelineNodes :=
  mkPipelineNodes (list_to_set (map declNode (filter (declReceives pid) ds)) ∪ receivers pn) (processors pn) (exporters pn).

Definition Redeclared g0 ds g : Prop :=
  nodesOf (componentGraph g) = list_to_set (map declNode ds) ∪ nodesOf (componentGraph g0) /\
  edgesOf (componentGraph g) = edgesOf (componentGraph g0) /\
  (forall n, instanceIDs g !! n = match instanceOf ds n with Some i => Some i | None => instanceIDs g0 !! n end) /\
  (forall pid, pipelines g !! pid = withReceivers ds pid <$> pipelines g0 !! pid).

Lemma redeclare_instance g0 ds d g i : (forall n, instanceIDs g !! n = match instanceOf ds n with Some i => Some i | None => instanceIDs g0 !! n end) ->
  i = match instanceOf ds (declNode d) with Some i => WithPipelines i (declPids d) | None => NewInstanceID (declID d) (declKind d) (declPids d) end ->
  forall n, <[declNode d := i]> (instanceIDs g) !! n = match instanceOf (ds ++ [d]) n with Some i => Some i | None => instanceIDs g0 !! n end.
Proof.
  intros Hi -> n. rewrite instanceOf_snoc. case_decide as Hn; [subst n; by rewrite lookup_insert_eq|by rewrite lookup_insert_ne].
Qed.

Lemma withReceivers_snoc g0 ds pid id g pn : pipelines g0 !! pid = Some pn -> (forall p, pipelines g !! p = withReceivers ds p <$> pipelines g0 !! p) ->
  forall p, <[pid := addReceiver (receiverNode pid.1 id) (withReceivers ds pid pn)]> (pipelines g) !! p = withReceivers (ds ++ [DReceiver pid id]) p <$> pipelines g0 !! p.
Proof.
  intros Hpn Hp p. unfold withReceivers. destruct (decide (p = pid)) as [->|Hne].
  - rewrite lookup_insert_eq, Hpn. cbn [fmap option_fmap option_map]. do 2 f_equal. unfold addReceiver. cbn [receivers processors exporters]. f_equal.
    rewrite filter_app, filter_cons_True, filter_nil, map_app, list_to_set_app_L by done. cbn [map declNode list_to_set]. set_solver.
  - rewrite lookup_insert_ne, Hp by done. unfold withReceivers. rewrite filter_app, filter_cons_False, filter_nil, app_nil_r by (cbn; congruence). done.
Qed.

Lemma redeclare_ok g0 ds pid id g : let d := DReceiver pid id in
  declNode d ∉ nodesOf (componentGraph g0) -> is_Some (pipelines g0 !! pid) -> Redeclared g0 ds g ->
  exists g', declare d g = Ok g' /\ Redeclared g0 (ds ++ [d]) g'.
Proof.
  intros d Hnew [pn Hpn] (Hn & He & Hi & Hp). unfold d. cbn [declare]. unfold createReceiver, createShared. rewrite HasNode_spec.
  change (receiverNode pid.1 id) with (declNode d). case_bool_decide as Hin.
  - assert (Hs : is_Some (instanceOf ds (declNode d))) by (apply instanceOf_is_Some; rewrite Hn in Hin; set_solver). destruct Hs as [i Ei].
    rewrite Hi, Ei. cbn [bind]. unfold updatePipe. cbn [setInstance pipelines]. rewrite Hp, Hpn. cbn. eexists. split; [reflexivity|].
    unfold Redeclared. cbn [componentGraph instanceIDs pipelines setInstance setGraph]. split_and!; [rewrite Hn, nodes_snoc; set_solver|done|apply (redeclare_instance g0 ds d g); [done|by rewrite Ei]|].
    by apply withReceivers_snoc.
  - destruct (AddNode_new (declNode d) (componentGraph g) Hin) as (cg & -> & Hcn & Hce). cbn [orPanic bind]. unfold updatePipe. cbn [setInstance setGraph pipelines].
    rewrite Hp, Hpn. cbn. eexists. split; [reflexivity|]. unfold Redeclared. cbn [componentGraph instanceIDs pipelines setInstance setGraph].
    split_and!; [rewrite Hcn, Hn, nodes_snoc; set_solver|by rewrite Hce|apply (redeclare_instance g0 ds d g); [done|]|].
    + rewrite instanceOf_new; [done|]. rewrite Hn in Hin. set_solver.
    + by apply withReceivers_snoc.
Qed.

Lemma redeclares_ok g0 ds ds' g : Forall (fun d => declNode d ∉ nodesOf (componentGraph g0) /\ exists pid id, d = DReceiver pid id /\ is_Some (pipelines g0 !! pid)) ds' ->
  Redeclared g0 ds g -> exists g', foreach declare ds' g = Ok g' /\ Redeclared g0 (ds ++ ds') g'.
Proof.
  revert ds g. induction ds' as [|d ds' IH]; intros ds g Hds Hg.
  - exists g. by rewrite app_nil_r.
  - apply Forall_cons in Hds as [ [Hd (pid & id & -> & Hp)] Hds]. cbn [foreach]. destruct (redeclare_ok g0 ds pid id g Hd Hp Hg) as (g1 & -> & Hg1). cbn [bind].
    destruct (IH _ g1 Hds Hg1) as (g2 & -> & Hg2). exists g2. by rewrite <- app_assoc in Hg2.
Qed.

Lemma Redeclared_nil g : Redeclared g [] g.
Proof.
  unfold Redeclared. cbn. split_and!; [set_solver|done|done|]. intros pid. destruct (pipelines g !! pid) as [ [r p x]|]; cbn; [|done]. unfold withReceivers. cbn.
  do 2 f_equal. set_solver.
Qed.

(** Phase 6. *)
Definition freshDecls (new : Settings) (Y : gset node) : list decl :=
  flat_map (fun pc => map (DReceiver pc.1) (filter (fun id => IsConfigured new id = false /\ receiverNode pc.1.1 id ∈ Y) (Receivers pc.2))) (PipelineConfigs new).

Lemma recreate_declares new Y pid rs g : foreach (recreate new Y pid) rs g =
  foreach declare (map (DReceiver pid) (filter (fun id => IsConfigured new id = false /\ receiverNode pid.1 id ∈ Y) rs)) g.
Proof.
  revert g. induction rs as [|id rs IH]; intros g; [done|]. rewrite filter_cons. cbn [foreach]. unfold recreate at 1. destruct (IsConfigured new id) eqn:Ec.
  - rewrite decide_False by naive_solver. apply IH.
  - destruct (decide (receiverNode pid.1 id ∈ Y)) as [Hy|Hy]; [rewrite (decide_True _ _ (conj eq_refl Hy))|rewrite decide_False by naive_solver; apply IH].
    cbn [map foreach declare]. destruct (bind (createReceiver pid id g) _); cbn [bind]; auto.
Qed.

Lemma recreates_declare new Y g : foreach (fun pc => foreach (recreate new Y pc.1) (Receivers pc.2)) (PipelineConfigs new) g = foreach declare (freshDecls new Y) g.
Proof. unfold freshDecls. rewrite foreach_flat_map. apply foreach_ext. intros pc g'. apply recreate_declares. Qed.

Lemma elem_of_freshDecls new Y d : d ∈ freshDecls new Y <-> declNode d ∈ Y /\ exists pid id, d = DReceiver pid id /\ RecvIn new pid id /\ ~ isConnector new id.
Proof.
  unfold freshDecls. rewrite list_elem_of_In, in_flat_map. setoid_rewrite <- list_elem_of_In. setoid_rewrite list_elem_of_fmap. setoid_rewrite list_elem_of_filter. split.
  - intros ([pid cfg] & Hin & id & -> & [Hc Hy] & Hid). cbn in *. split; [done|]. exists pid, id. split_and!; [done|by exists cfg|]. unfold isConnector. by rewrite Hc.
  - intros (Hy & pid & id & -> & (cfg & Hin & Hid) & Hc). exists (pid, cfg). split; [done|]. exists id. split_and!; try done. by apply not_true_iff_false.
Qed.

(** Phase 7. *)
Definition freshEdges (Y : gset node) (ps : gmap pipelineID pipelineNodes) : list (node * node) :=
  flat_map (fun pp => map (fun n => (n, capabilitiesNode pp.1)) (newReceivers Y pp.2)) (range (map_to_list ps)).

Lemma rewire_draws Y ps g : foreach (fun pp => foreach (fun n => setEdge n (capabilitiesNode pp.1)) (newReceivers Y pp.2)) (range (map_to_list ps)) g =
  foreach (fun e => setEdge e.1 e.2) (freshEdges Y ps) g.
Proof. unfold freshEdges. rewrite foreach_flat_map. apply foreach_ext. intros pp g'. by rewrite foreach_map. Qed.

Lemma elem_of_newReceivers Y pn n : n ∈ newReceivers Y pn <-> isReceiverNode n /\ n ∈ Y /\ n ∈ receivers pn.
Proof. unfold newReceivers. rewrite list_elem_of_filter, range_perm, elem_of_elements. tauto. Qed.

Lemma elem_of_freshEdges Y ps u v : (u, v) ∈ freshEdges Y ps <->
  exists pid pn, ps !! pid = Some pn /\ isReceiverNode u /\ u ∈ Y /\ u ∈ receivers pn /\ v = capabilitiesNode pid.
Proof.
  unfold freshEdges. rewrite list_elem_of_In, in_flat_map. setoid_rewrite <- list_elem_of_In. setoid_rewrite range_perm. setoid_rewrite list_elem_of_fmap.
  setoid_rewrite elem_of_newReceivers. split.
  - intros ([pid pn] & Hp%elem_of_map_to_list & n & [= -> ->] & Hn). exists pid, pn. naive_solver.
  - intros (pid & pn & Hp & Hn & Hy & Hr & ->). exists (pid, pn). rewrite elem_of_map_to_list. eauto 10.
Qed.
End Phases.

(** ** The updated graph *)
Section Updated.
Context {G : Type} `{DirectedGraphLaws G} `{RangeLaws} (old new : Settings) (HR : ReceiversOnly old new).
Context (g : Graph G) (HL : LaidOut old g) (changed : ID -> bool).
Local Abbreviation X := (gone new g changed).
Local Abbreviation Y := (fresh new g changed).
Local Abbreviation g5 := (removeNodes (toRemove new g) (toRebuild new changed g) g).

Lemma receiver_node set n : isReceiverNode n -> IsNode set n <-> exists pid, RecvNode set pid n.
Proof.
  intros Hn. unfold IsNode, UsedIn. destruct n; try done. cbn. split; [|intros (pid & Hr); left; exists pid; by left]. intros [(pid & [?|[ []|(id' & [=] & _)] ])|(pid & _ & [ [=]|[=] ])]. eauto.
Qed.

Lemma other_node n : ~ isReceiverNode n -> IsNode old n <-> IsNode new n.
Proof. intros Hn. unfold IsNode. setoid_rewrite (same_UsedIn old new HR n _ Hn). by setoid_rewrite (same_pids old new HR). Qed.

Lemma receiver_flow set u v : isReceiverNode u -> Flow set u v <-> exists pid, RecvNode set pid u /\ v = capabilitiesNode pid.
Proof.
  intros Hu. split; [|intros (pid & Hr & ->); by apply flow_receive]. intros HF. inversion HF as [pid n Hr|pid cfg u' v' Hin Ha|pid n He]; subst; [eauto| |done].
  apply adjacent_tail in Ha as [ [->|[? ->] ] _]; done.
Qed.

Lemma other_flow u v : ~ isReceiverNode u -> Flow old u v <-> Flow new u v.
Proof.
  intros Hu. split; intros HF; inversion HF as [pid n Hr|pid cfg u' v' Hin Ha|pid n He]; subst.
  - apply flow_receive. by apply (same_RecvNode old new HR).
  - destruct (ro_old _ _ HR pid cfg Hin) as (cfg' & Hin' & (E & _)%samePipeline_true). rewrite E in Ha. by eapply flow_process.
  - apply flow_export. by apply (same_ExpNode old new HR).
  - apply flow_receive. by apply (same_RecvNode old new HR).
  - destruct (ro_new _ _ HR pid cfg Hin) as (cfg' & Hin' & (E & _)%samePipeline_true). rewrite <- E in Ha. by eapply flow_process.
  - apply flow_export. by apply (same_ExpNode old new HR).
Qed.

Lemma fresh_decl pid n : isReceiverNode n -> (exists d, d ∈ freshDecls new Y /\ declNode d = n /\ pid ∈ declPids d) <-> RecvNode new pid n /\ n ∈ Y.
Proof.
  intros Hn. setoid_rewrite elem_of_freshDecls. split.
  - intros (d & (Hy & p & id & -> & Hr & Hc) & <- & Hp). cbn in *. assert (pid = p) as -> by set_solver. done.
  - intros [Hr Hy]. destruct n as [s id| | | | |]; try done. destruct Hr as (-> & Hr & Hc). exists (DReceiver pid id). split; [|set_solver]. split; [done|]. eauto.
Qed.

Lemma fresh_unknown d : d ∈ freshDecls new Y -> declNode d ∉ nodesOf (componentGraph g5) /\ exists pid id, d = DReceiver pid id /\ is_Some (pipelines g5 !! pid).
Proof.
  intros (Hy & pid & id & -> & Hr & Hc)%elem_of_freshDecls. destruct (removeNodes_spec (toRemove new g) (toRebuild new changed g) g) as (Hn5 & _ & Hp5 & _). split.
  - rewrite Hn5. intros [Hin Hx]%elem_of_difference. apply (laid_nodes old g HL) in Hin. change (IsNode old (declNode (DReceiver pid id))) in Hin.
    apply receiver_node in Hin as [p Hp]; [|done]. by eapply Hx, (fresh_not_kept old new g HL changed).
  - exists pid, id. split; [done|]. rewrite Hp5. apply fmap_is_Some, (laid_pids old g HL), (same_pids old new HR). destruct Hr as (cfg & Hin & _). by eapply pid_in.
Qed.

Context (g6 : Graph G) (H6 : Redeclared g5 (freshDecls new Y) g6).

Lemma receivers6 pid pn n : pipelines g6 !! pid = Some pn -> n ∈ receivers pn <-> RecvNode new pid n.
Proof.
  destruct H6 as (_ & _ & _ & Hp). destruct (removeNodes_spec (toRemove new g) (toRebuild new changed g) g) as (_ & _ & Hp5 & _).
  rewrite Hp, Hp5. intros E. destruct (pipelines g !! pid) as [pn0|] eqn:E0; cbn in E; [|done]. injection E as <-. cbn.
  rewrite elem_of_union, elem_of_list_to_set, list_elem_of_fmap, elem_of_filter, (pipe_receivers old g HL pid pn0 n E0).
  assert (Hd : (exists d, n = declNode d /\ d ∈ filter (declReceives pid) (freshDecls new Y)) <-> isReceiverNode n /\ RecvNode new pid n /\ n ∈ Y).
  { setoid_rewrite list_elem_of_filter. split.
    - intros (d & -> & Hr & Hin). pose proof Hin as (_ & p & id & -> & _)%elem_of_freshDecls. cbn in Hr. subst p. split; [done|]. apply (fresh_decl pid); [done|]. exists (DReceiver pid id). set_solver.
    - intros (Hn & Hr). apply fresh_decl in Hr as (d & Hin & <- & Hp'); [|done]. exists d. pose proof Hin as (_ & p & id & -> & _)%elem_of_freshDecls. cbn in *. set_solver. }
  rewrite Hd. destruct (decide (isReceiverNode n)) as [Hn|Hn].
  - rewrite (receiver_split old new g HL changed n pid Hn). unfold gone. naive_solver.
  - rewrite <- (same_RecvNode old new HR pid n Hn). naive_solver.
Qed.

Lemma nodes6 n : n ∈ nodesOf (componentGraph g6) <-> IsNode new n.
Proof.
  destruct H6 as (-> & _). destruct (removeNodes_spec (toRemove new g) (toRebuild new changed g) g) as (-> & _).
  rewrite elem_of_union, elem_of_list_to_set, list_elem_of_fmap, elem_of_difference. assert (Hin : n ∈ nodesOf (componentGraph g) <-> IsNode old n) by apply (laid_nodes old g HL).
  rewrite Hin. destruct (decide (isReceiverNode n)) as [Hn|Hn].
  - rewrite !receiver_node by done. split.
    + intros [(d & -> & Hd)|[ [pid Hr] Hx] ].
      * pose proof Hd as (_ & pid & id & -> & _)%elem_of_freshDecls. exists pid. apply (fresh_decl pid); [done|]. exists (DReceiver pid id). set_solver.
      * exists pid. apply (receiver_split old new g HL changed); [done|by left].
    + intros [pid Hr]. apply (receiver_split old new g HL changed) in Hr as [ [Hr Hx]|Hr]; [right; eauto|left|done].
      apply fresh_decl in Hr as (d & Hd & <- & _); [|done]. eauto.
  - rewrite (other_node n Hn). split.
    + intros [(d & -> & (_ & pid & id & -> & _)%elem_of_freshDecls)|[? _] ]; [by destruct Hn|done].
    + intros HN. right. split; [done|]. by intros [? _]%(gone_receivers old new g HL changed).
Qed.

Lemma edges7 u v : (u, v) ∈ edgesOf (componentGraph g6) ∪ list_to_set (freshEdges Y (pipelines g6)) <-> Flow new u v.
Proof.
  pose proof H6 as (_ & -> & _ & Hp). destruct (removeNodes_spec (toRemove new g) (toRebuild new changed g) g) as (_ & He & Hp5 & _).
  rewrite elem_of_union, He, elem_of_list_to_set, elem_of_freshEdges. rewrite (laid_edges old g HL). fold X.
  destruct (decide (isReceiverNode u)) as [Hu|Hu].
  - rewrite !receiver_flow by done. split.
    + intros [((pid & Hr & ->) & Hx & _)|(pid & pn & Hpn & _ & Hy & Hr & ->)]; exists pid; (split; [|done]).
      * apply (receiver_split old new g HL changed); [done|by left].
      * by apply (receivers6 pid pn u Hpn).
    + intros (pid & Hr & ->). pose proof Hr as Hr'. apply (receiver_split old new g HL changed) in Hr' as [ [Hr' Hx]|[_ Hy] ]; [left|right|done].
      * split; [eauto|]. split; [done|]. by intros [ [] _]%(gone_receivers old new g HL changed).
      * assert (Hs : is_Some (pipelines g6 !! pid)).
        { rewrite Hp, Hp5, !fmap_is_Some. apply (laid_pids old g HL), (same_pids old new HR). eapply node_pid. by left. }
        destruct Hs as [pn Hpn]. exists pid, pn. split_and!; [done|done|done|by apply (receivers6 pid pn u Hpn)|done].
  - rewrite (other_flow u v Hu). split; [naive_solver|]. intros HF. left. split; [done|]. split; [by intros [? _]%(gone_receivers old new g HL changed)|].
    intros [Hv _]%(gone_receivers old new g HL changed). apply flow_not_receiver in HF. by destruct v.
Qed.

Lemma receiver_used set n pid : isReceiverNode n -> UsedIn set n pid <-> RecvNode set pid n.
Proof. intros Hn. unfold UsedIn. destruct n; try done. cbn. split; [intros [?|[ []|(? & [=] & _)] ]; done|by left]. Qed.

Lemma instance6 n i : instanceIDs g6 !! n = Some i <->
  (exists pid, UsedIn new n pid) /\ nodeID n = Some (componentID i, kind i) /\ forall pid, pid ∈ pipelineIDs i <-> UsedIn new n pid.
Proof.
  pose proof H6 as (_ & _ & Hi & _). destruct (removeNodes_spec (toRemove new g) (toRebuild new changed g) g) as (_ & _ & _ & Hi5). rewrite Hi.
  assert (Hfresh : (exists d, d ∈ freshDecls new Y /\ declNode d = n) -> isReceiverNode n) by (intros (d & (_ & pid & id & -> & _)%elem_of_freshDecls & <-); done).
  destruct (decide (n ∈ Y)) as [Hy|Hy].
  - pose proof (fresh_receivers new g changed n Hy) as [Hn [pid Hr] ].
    assert (Hs : is_Some (instanceOf (freshDecls new Y) n)).
    { apply instanceOf_is_Some, list_elem_of_fmap. apply (conj Hr) in Hy. apply (fresh_decl pid n Hn) in Hy as (d & Hd & <- & _). eauto. }
    destruct Hs as [j Ej]. rewrite Ej, <- Ej, instanceOf_spec. setoid_rewrite (receiver_used new n _ Hn). setoid_rewrite (fresh_decl _ n Hn).
    apply (conj Hr) in Hy as Hd. apply (fresh_decl pid n Hn) in Hd as (d & Hd & Hdn & _). naive_solver.
  - assert (Enone : instanceOf (freshDecls new Y) n = None).
    { apply eq_None_not_Some. rewrite instanceOf_is_Some, list_elem_of_fmap. intros (d & -> & (Hy' & _)%elem_of_freshDecls). done. }
    rewrite Enone, Hi5. fold X. destruct (decide (n ∈ X)) as [Hx|Hx].
    + split; [done|]. intros ((pid & Hu) & _). exfalso. pose proof (gone_receivers old new g HL changed n Hx) as [Hn _].
      apply receiver_used in Hu; [|done]. apply (receiver_split old new g HL changed) in Hu as [ [_ ?]|[_ ?] ]; done.
    + rewrite (laid_instance old g HL). assert (Hu : forall pid, UsedIn old n pid <-> UsedIn new n pid); [|by setoid_rewrite Hu].
      intros pid. destruct (decide (isReceiverNode n)) as [Hn|Hn]; [|by apply same_UsedIn]. rewrite !receiver_used by done. by apply (kept_same old new g HL changed).
Qed.

Lemma updated_laid g7 : Drawn g6 (freshEdges Y (pipelines g6)) g7 -> LaidOut new g7.
Proof.
  intros (Hn & He & Hp & Hi). pose proof H6 as (_ & _ & _ & Hp6). destruct (removeNodes_spec (toRemove new g) (toRebuild new changed g) g) as (_ & _ & Hp5 & _).
  assert (Hedges : forall u v, (u, v) ∈ edgesOf (componentGraph g7) <-> Flow new u v) by (intros u v; rewrite He; apply edges7).
  split.
  - intros n. change (n ∈ nodesOf (componentGraph g7) <-> IsNode new n). rewrite Hn, elem_of_union, nodes6, elem_of_endpoints. split; [|by left].
    intros [?|(u & v & Huv & Huvn)]; [done|]. assert (HF : Flow new u v) by (apply edges7; set_solver). apply flow_nodes in HF as [Hu Hv]. by destruct Huvn as [->| ->].
  - done.
  - intros pid cfg Hin. destruct (ro_new _ _ HR pid cfg Hin) as (cfg0 & Hin0 & (E & _)%samePipeline_true).
    destruct (laid_pipe old g HL pid cfg0 Hin0) as (pn & Hpn & Hr & Hpr & Hex). rewrite Hp, Hp6, Hp5, Hpn. cbn. eexists. split; [reflexivity|].
    assert (E6 : pipelines g6 !! pid = Some (withReceivers (freshDecls new Y) pid (dropReceivers X pn))) by by rewrite Hp6, Hp5, Hpn.
    split; [intros n; apply (receivers6 pid _ n E6)|]. cbn. split; [by rewrite Hpr, E|]. intros n. by rewrite Hex, (same_ExpNode old new HR).
  - intros pid. rewrite Hp, Hp6, Hp5, !fmap_is_Some, (laid_pids old g HL). apply (same_pids old new HR).
  - intros n i. rewrite Hi. apply instance6.
Qed.
End Updated.
