(* ===== verification/PartialReloadRun.v ===== *)
(** * A reload of receivers from beginning to end

    The calls [UpdateReceivers] makes, in order, and the graph it leaves; the theorems about
    the graph of the pipelines. *)

From stdpp Require Import gmap strings.
From S2P Require Import Prelude Errors PipelineGraph PipelineGraphProofs PipelineFlow PipelineBuild PipelineBuildProofs DirectedGraphs PartialReload PartialReloadProofs.

(** ** A run of [UpdateReceivers] *)
Section Run.
Context {G : Type} `{DirectedGraphLaws G} `{RangeLaws}.
Context (shutdown : node -> option error) (create : node -> list consumer -> bool + error) (start : node -> option error).
Context (consumers : gmap node consumer) (X Y : gset node).
Implicit Types (st : reload (G := G)).

Definition eventNode (e : event) : node :=
  match e with
  | Stopping n | Shutdown n _ | Stopped n | PermanentError n _ | Create n _ | Starting n | Start n _ | OKIfStarting n => n
  end.

Definition stopEvents (n : node) : list event := [Stopping n; Shutdown n None; Stopped n].
Definition startEvents (n : node) : list event := [Starting n; Start n None; OKIfStarting n].
Definition nextsOf (cg : G) (n : node) : list consumer := default [] (mapM (fun m => consumers !! m) (From n cg)).

(** Someone failed: a receiver that goes when it was shut down, or one that comes when it
    was created or started. *)
Definition Blame : Prop :=
  (exists n, n ∈ X /\ shutdown n <> None) \/ (exists n nexts err, n ∈ Y /\ create n nexts = inr err) \/ exists n, n ∈ Y /\ start n <> None.

Definition Touched st : Prop := Forall (fun e => eventNode e ∈ X ∪ Y) (r_log st).

(** A stage of the run: it goes on with [P], or it failed. *)
Definition Stage (P : reload -> Prop) (x : reload * status) : Prop :=
  match x with
  | (st, Fine) => P st /\ Touched st
  | (st, Failed _) => Blame /\ Touched st
  | (_, Panicked) => False
  end.

Lemma andThen_stage P Q x f : Stage P x -> (forall st, P st -> Touched st -> Stage Q (f st)) -> Stage Q (andThen x f).
Proof. destruct x as [st [| |] ]; cbn; naive_solver. Qed.

Lemma Touched_log es st : Touched st -> Forall (fun e => eventNode e ∈ X ∪ Y) es -> Touched (log es st).
Proof. intros Ht Hes. unfold Touched, log. cbn. by apply Forall_app. Qed.

Lemma shutdown_stage l st : Touched st -> Forall (fun n => n ∈ X) l ->
  Stage (fun st' => r_graph st' = r_graph st /\ r_log st' = r_log st ++ flat_map stopEvents l) (each (shutdownReceiverNode shutdown) l st).
Proof.
  revert st. induction l as [|n l IH]; intros st Ht Hl; cbn [each].
  - cbn. by rewrite app_nil_r.
  - apply Forall_cons in Hl as [Hn Hl]. assert (Hin : n ∈ X ∪ Y) by set_solver. unfold shutdownReceiverNode at 1. destruct (shutdown n) as [err|] eqn:E; cbn [andThen].
    + cbn. split; [left; exists n; split; [done|congruence]|]. apply Touched_log; [apply Touched_log; [done|]|]; repeat constructor; done.
    + set (st1 := log [Stopped n] (log [Stopping n; Shutdown n None] st)).
      assert (Ht1 : Touched st1) by (apply Touched_log; [apply Touched_log; [done|]|]; repeat constructor; done).
      specialize (IH st1 Ht1 Hl). destruct (each _ l st1) as [st2 [| |] ]; cbn in *; [|done|done]. destruct IH as [ [Hg Hlog] ?].
      split; [|done]. rewrite Hg, Hlog. by rewrite <- !app_assoc.
Qed.

Lemma start_stage l st : Touched st -> Forall (fun n => n ∈ Y) l ->
  Stage (fun st' => r_graph st' = r_graph st /\ r_log st' = r_log st ++ flat_map startEvents l) (each (startReceiver start) l st).
Proof.
  revert st. induction l as [|n l IH]; intros st Ht Hl; cbn [each].
  - cbn. by rewrite app_nil_r.
  - apply Forall_cons in Hl as [Hn Hl]. assert (Hin : n ∈ X ∪ Y) by set_solver. unfold startReceiver at 1. destruct (start n) as [err|] eqn:E; cbn [andThen].
    + cbn. split; [right; right; exists n; split; [done|congruence]|]. apply Touched_log; [apply Touched_log; [done|]|]; repeat constructor; done.
    + set (st1 := log [OKIfStarting n] (log [Starting n; Start n None] st)).
      assert (Ht1 : Touched st1) by (apply Touched_log; [apply Touched_log; [done|]|]; repeat constructor; done).
      specialize (IH st1 Ht1 Hl). destruct (each _ l st1) as [st2 [| |] ]; cbn in *; [|done|done]. destruct IH as [ [Hg Hlog] ?].
      split; [|done]. rewrite Hg, Hlog. by rewrite <- !app_assoc.
Qed.

(** Operations of the graph that do not fail. *)
Lemma each_onGraph {A} (f : A -> Graph G -> outcome (Graph G)) l st g' : foreach f l (r_graph st) = Ok g' ->
  each (fun x => onGraph (f x)) l st = (mkReload g' (r_log st), Fine).
Proof.
  revert st. induction l as [|x l IH]; intros st; cbn [foreach each].
  - intros [= <-]. by destruct st.
  - unfold onGraph at 1. destruct (f x (r_graph st)) as [g1| |]; cbn [bind andThen]; [|done|done]. intros Hf. by rewrite (IH (mkReload g1 (r_log st)) Hf).
Qed.

Lemma each_onGraph2 {A B} (h : A -> list B) (f : A -> B -> Graph G -> outcome (Graph G)) l st g' : foreach (fun x => foreach (f x) (h x)) l (r_graph st) = Ok g' ->
  each (fun x => each (fun y => onGraph (f x y)) (h x)) l st = (mkReload g' (r_log st), Fine).
Proof.
  revert st. induction l as [|x l IH]; intros st; cbn [foreach each].
  - intros [= <-]. by destruct st.
  - destruct (foreach (f x) (h x) (r_graph st)) as [g1| |] eqn:E; cbn [bind]; [|done|done]. rewrite (each_onGraph (f x) (h x) st g1 E). cbn [andThen].
    intros Hf. by rewrite (IH (mkReload g1 (r_log st)) Hf).
Qed.

(** Creating the components: each once. *)
Lemma build_stage ns st l : Touched st -> NoDup l -> Forall (fun n => n ∈ Y /\ is_Some (mapM (fun m => consumers !! m) (From n (componentGraph (r_graph st))))) ns ->
  match buildReceivers create consumers ns (st, list_to_set l) with
  | ((st', built), Fine) => exists l', r_graph st' = r_graph st /\ Touched st' /\ built = list_to_set (l ++ l') /\ NoDup (l ++ l') /\ (forall n, n ∈ l ++ l' <-> n ∈ l \/ n ∈ ns) /\
      r_log st' = r_log st ++ map (fun n => Create n (nextsOf (componentGraph (r_graph st)) n)) l'
  | ((st', _), Failed _) => Blame /\ Touched st'
  | (_, Panicked) => False
  end.
Proof.
  revert st l. induction ns as [|n ns IH]; intros st l Ht Hnd Hns; cbn [buildReceivers].
  - exists []. rewrite !app_nil_r. split_and!; try done. set_solver.
  - apply Forall_cons in Hns as [ [Hn Hm] Hns]. unfold buildReceiver at 1. case_decide as Hin.
    + apply elem_of_list_to_set in Hin. specialize (IH st l Ht Hnd Hns). destruct (buildReceivers create consumers ns (st, list_to_set l)) as [ [st' b] [| |] ]; [|done|done].
      destruct IH as (l' & ? & ? & ? & ? & Hel & ?). exists l'. split_and!; try done. intros m. rewrite Hel, elem_of_cons. set_solver.
    + destruct Hm as [nexts En]. rewrite En. destruct (create n nexts) as [own|err] eqn:Ec; [|split; [right; left; eauto|done] ].
      rewrite elem_of_list_to_set in Hin. assert (Hnd' : NoDup (l ++ [n])) by (apply NoDup_app; split_and!; [done|set_solver|apply NoDup_singleton]).
      assert (Ht' : Touched (log [Create n nexts] st)) by (apply Touched_log; [done|]; apply Forall_singleton; set_solver).
      specialize (IH (log [Create n nexts] st) (l ++ [n]) Ht' Hnd' Hns). replace (list_to_set (l ++ [n])) with ({[n]} ∪ list_to_set l : gset node) in IH by (rewrite list_to_set_app_L; set_solver).
      destruct (buildReceivers create consumers ns _) as [ [st' b] [| |] ]; [|done|done].
      destruct IH as (l' & Hg & ? & Hb & Hnd2 & Hel & Hlog). exists (n :: l'). rewrite <- app_assoc in Hb, Hnd2, Hel. split_and!; try done.
      * intros m. rewrite Hel, elem_of_cons. set_solver.
      * rewrite Hlog. cbn. rewrite <- app_assoc. cbn. unfold nextsOf at 2. by rewrite En.
Qed.
End Run.

Section Update.
Context {G : Type} `{DirectedGraphLaws G} `{RangeLaws}.
Context (shutdown : node -> option error) (create : node -> list consumer -> bool + error) (start : node -> option error) (consumers : gmap node consumer).
Context (old new : Settings) (HR : ReceiversOnly old new) (g : Graph G) (HL : LaidOut old g) (changed : ID -> bool).
Context (Hcons : forall pid, pid ∈ pids old -> is_Some (consumers !! capabilitiesNode pid)).
Local Abbreviation X := (gone new g changed).
Local Abbreviation Y := (fresh new g changed).
Local Abbreviation rm := (toRemove new g).
Local Abbreviation rb := (toRebuild new changed g).

(** What a reload that succeeds has done. *)
Definition Reloaded (st : reload) : Prop :=
  LaidOut new (r_graph st) /\ exists l1 l2 l3, l1 ≡ₚ elements X /\ l2 ≡ₚ elements Y /\ l3 ≡ₚ elements Y /\
  r_log st = flat_map stopEvents l1 ++ map (fun n => Create n (nextsOf consumers (componentGraph (r_graph st)) n)) l2 ++ flat_map startEvents l3.

Lemma gone_perm : range (elements rm) ++ range (elements rb) ≡ₚ elements X.
Proof.
  rewrite !range_perm. unfold gone. rewrite elements_disj_union; [done|]. unfold toRemove, toRebuild. intros n [_ Hr]%elem_of_difference [ [Hd _] _]%elem_of_filter. done.
Qed.

(** The graph of the sixth and seventh phase. *)
Lemma phase6 : exists g6, foreach (fun pc => foreach (recreate new Y pc.1) (Receivers pc.2)) (PipelineConfigs new) (removeNodes rm rb g) = Ok g6 /\
  Redeclared (removeNodes rm rb g) (freshDecls new Y) g6.
Proof.
  rewrite recreates_declare. apply (redeclares_ok _ []); [|apply Redeclared_nil]. apply Forall_forall. intros d Hd. by apply (fresh_unknown old new HR g HL changed).
Qed.

Lemma phase7 g6 : exists g7, foreach (fun pp => foreach (fun n => setEdge n (capabilitiesNode pp.1)) (newReceivers Y pp.2)) (range (map_to_list (pipelines g6))) g6 = Ok g7 /\
  Drawn g6 (freshEdges Y (pipelines g6)) g7.
Proof.
  rewrite rewire_draws. apply draw_ok. apply Forall_forall. intros [u v] (pid & pn & _ & Hu & _ & _ & ->)%elem_of_freshEdges. cbn. by intros ->.
Qed.

(** The receivers that are created, and their consumers. *)
Lemma new_receivers g6 (g7 : Graph G) n : Redeclared (removeNodes rm rb g) (freshDecls new Y) g6 -> pipelines g7 = pipelines g6 ->
  n ∈ flat_map (fun pp => newReceivers Y pp.2) (range (map_to_list (pipelines g7))) <-> n ∈ Y.
Proof.
  intros H6 ->. rewrite list_elem_of_In, in_flat_map. setoid_rewrite <- list_elem_of_In. setoid_rewrite range_perm. setoid_rewrite elem_of_newReceivers. split; [naive_solver|].
  intros Hy. destruct (fresh_receivers new g changed n Hy) as [Hn [pid Hr] ]. assert (Hs : is_Some (pipelines g6 !! pid)).
  { destruct H6 as (_ & _ & _ & Hp). destruct (removeNodes_spec rm rb g) as (_ & _ & Hp5 & _). rewrite Hp, Hp5, !fmap_is_Some.
    apply (laid_pids old g HL), (same_pids old new HR). eapply node_pid. by left. }
  destruct Hs as [pn Hpn]. exists (pid, pn). rewrite elem_of_map_to_list. split_and!; [done|done|done|]. by apply (receivers6 old new HR g HL changed g6 H6 pid pn n Hpn).
Qed.

Lemma receiver_nexts g7 n : LaidOut new g7 -> isReceiverNode n -> is_Some (mapM (fun m => consumers !! m) (From n (componentGraph g7))).
Proof.
  intros HL7 Hn. apply mapM_is_Some_2, Forall_forall. intros m Hm. apply (elem_of_From new g7 HL7), receiver_flow in Hm as (pid & Hr & ->); [|done].
  apply Hcons, (same_pids old new HR). eapply node_pid. by left.
Qed.

(** Nothing to do. *)
Lemma dropReceivers_empty pn : dropReceivers ∅ pn = pn.
Proof. destruct pn as [r p x]. unfold dropReceivers. cbn. f_equal. apply set_eq. intros n. rewrite elem_of_filter. pose proof (not_elem_of_empty (C := gset node) n). tauto. Qed.

Lemma withReceivers_nil pid pn : withReceivers [] pid pn = pn.
Proof. destruct pn as [r p x]. unfold withReceivers. cbn. by rewrite union_empty_l_L. Qed.

Lemma unchanged_laid : X = ∅ -> Y = ∅ -> LaidOut new g.
Proof.
  intros HX HY. destruct (removeNodes_spec rm rb g) as (Hn5 & He5 & Hp5 & Hi5). fold X in Hn5, He5, Hp5, Hi5. rewrite HX in Hn5, He5, Hp5, Hi5.
  assert (Hno : forall n : node, n ∉ (∅ : gset node)) by (intros n; apply not_elem_of_empty).
  assert (Hdecl : freshDecls new Y = []) by (apply elem_of_nil_inv; intros d [Hd _]%elem_of_freshDecls; rewrite HY in Hd; by eapply Hno).
  assert (He : freshEdges Y (pipelines g) = []).
  { apply elem_of_nil_inv. intros [u v] (_ & _ & _ & _ & Hu & _)%elem_of_freshEdges. rewrite HY in Hu. by eapply Hno. }
  apply (updated_laid old new HR g HL changed g).
  - rewrite Hdecl. unfold Redeclared. rewrite Hn5, difference_empty_L. cbn [map list_to_set]. rewrite union_empty_l_L. split_and!; [done| | |].
    + apply set_eq. intros [u v]. rewrite He5. split; [intros ?; by split_and!|by intros [] ].
    + intros n. rewrite Hi5, decide_False by done. done.
    + intros pid. rewrite Hp5. destruct (pipelines g !! pid); cbn; [|done]. by rewrite dropReceivers_empty, withReceivers_nil.
  - rewrite He. unfold Drawn, endpoints. cbn [flat_map list_to_set]. by rewrite !union_empty_r_L.
Qed.

Local Abbreviation stage := (Stage (G := G) shutdown create start X Y).

(** The phases that build and start. *)
Lemma finish_stage g6 g7 logs st : Redeclared (removeNodes rm rb g) (freshDecls new Y) g6 -> Drawn g6 (freshEdges Y (pipelines g6)) g7 ->
  r_graph st = g7 -> r_log st = flat_map stopEvents logs -> logs ≡ₚ elements X -> Touched X Y st ->
  stage Reloaded (let '((st, built), r) := buildReceivers create consumers (flat_map (fun pp => newReceivers Y pp.2) (range (map_to_list (pipelines (r_graph st))))) (st, ∅) in
    andThen (st, r) (each (startReceiver start) (range (elements built)))).
Proof.
  intros H6 H7 Hg Hlog Hperm Ht. pose proof (updated_laid old new HR g HL changed g6 H6 g7 H7) as HL7. destruct H7 as (_ & _ & Hp7 & _). rewrite Hg.
  set (ns := flat_map _ _). assert (Hns : forall n, n ∈ ns <-> n ∈ Y) by (intros n; by apply (new_receivers g6 g7)).
  assert (HF : Forall (fun n => n ∈ Y /\ is_Some (mapM (fun m => consumers !! m) (From n (componentGraph (r_graph st))))) ns).
  { apply Forall_forall. intros n Hn%Hns. split; [done|]. rewrite Hg. apply receiver_nexts; [done|by apply (fresh_receivers new g changed)]. }
  pose proof (build_stage shutdown create start consumers X Y ns st [] Ht NoDup_nil_2 HF) as HB. cbn [list_to_set app] in HB. rewrite Hg in HB.
  destruct (buildReceivers create consumers ns (st, ∅)) as [ [st' built] [|err|] ]; [|done|done]. destruct HB as (l & Hg' & Ht' & -> & Hnd & Hel & Hlog').
  assert (Hl : l ≡ₚ elements Y).
  { apply NoDup_Permutation; [done|apply NoDup_elements|]. intros n. rewrite elem_of_elements, Hel, Hns. pose proof (elem_of_nil n). tauto. }
  assert (Hs : range (elements (list_to_set l : gset node)) ≡ₚ elements Y) by (rewrite range_perm, elements_list_to_set by done; done).
  apply (andThen_stage shutdown create start X Y (fun st2 => r_graph st2 = g7 /\ r_log st2 = r_log st ++ map (fun n => Create n (nextsOf consumers (componentGraph g7) n)) l)); [done|].
  - intros st2 [Hg2 Hlog2] Ht2. pose proof (start_stage shutdown create start X Y (range (elements (list_to_set l : gset node))) st2 Ht2) as HS.
    assert (HY : Forall (fun n => n ∈ Y) (range (elements (list_to_set l : gset node)))) by (apply Forall_forall; intros n; by rewrite Hs, elem_of_elements).
    specialize (HS HY). destruct (each _ _ st2) as [st3 [|err|] ]; cbn in HS |- *; [|done|done]. destruct HS as [ [Hg3 Hlog3] Ht3]. split; [|done].
    split; [by rewrite Hg3, Hg2|]. exists logs, l, (range (elements (list_to_set l : gset node))). split_and!; [done|done|done|].
    rewrite Hlog3, Hlog2, Hlog, Hg3, Hg2. by rewrite <- app_assoc.
Qed.

Lemma update_stage : stage Reloaded (UpdateReceivers shutdown create start consumers new changed false g).
Proof.
  unfold UpdateReceivers. case_bool_decide as Hsame.
  - destruct Hsame as (E1 & E2 & E3). assert (HX : X = ∅) by (unfold gone; by rewrite E1, E2, union_empty_l_L). assert (HY : Y = ∅) by (unfold fresh; by rewrite E3, E2, union_empty_l_L).
    split; [|by apply Forall_nil]. split; [by apply unchanged_laid|]. exists [], [], []. by rewrite HX, HY, elements_empty.
  - eapply andThen_stage; [apply shutdown_stage; [by apply Forall_nil|]|].
    { apply Forall_forall. intros n. rewrite range_perm, elem_of_elements. intros Hn. apply elem_of_union. by left. }
    intros st1 [Hg1 Hlog1] Ht1. eapply andThen_stage; [apply shutdown_stage; [done|]|].
    { apply Forall_forall. intros n. rewrite range_perm, elem_of_elements. intros Hn. apply elem_of_union. by right. }
    intros st2 [Hg2 Hlog2] Ht2. cbn [r_graph r_log app] in Hg1, Hlog1. rewrite Hg1 in Hg2. rewrite Hlog1, <- flat_map_app in Hlog2. unfold onGraph at 1. cbn [andThen]. rewrite Hg2.
    destruct phase6 as (g6 & E6 & H6). fold Y. rewrite (each_onGraph2 (fun pc => Receivers pc.2) (fun pc => recreate new Y pc.1) _ (mkReload (removeNodes rm rb g) (r_log st2)) g6 E6).
    cbn [andThen r_graph r_log]. destruct (phase7 g6) as (g7 & E7 & H7).
    rewrite (each_onGraph2 (fun pp => newReceivers Y pp.2) (fun pp n => setEdge n (capabilitiesNode pp.1)) _ (mkReload g6 (r_log st2)) g7 E7). cbn [andThen].
    by eapply (finish_stage g6 g7 _ (mkReload g7 (r_log st2)) H6 H7 eq_refl Hlog2 gone_perm).
Qed.
End Update.
