(* ===== verification/PipelineTheorems.v ===== *)
(** * The pipelines of a service: what is guaranteed

    The layout of the graph, the refusal of cycles, the wiring of the components, and the
    reload of receivers, with a service of two pipelines to run them on. *)

From stdpp Require Import gmap strings.
From S2P Require Import Prelude Errors PipelineGraph PipelineGraphProofs PipelineFlow PipelineBuild PipelineBuildProofs DirectedGraphs PartialReload PartialReloadProofs PartialReloadRun.

Section Unique.
Context {G : Type} `{DirectedGraphLaws G}.
Implicit Types (g : Graph G).

(** Two graphs with the same nodes, edges, pipelines and instances. *)
Definition SameGraph g g' : Prop :=
  nodesOf (componentGraph g) = nodesOf (componentGraph g') /\ edgesOf (componentGraph g) = edgesOf (componentGraph g') /\
  pipelines g = pipelines g' /\ instanceIDs g = instanceIDs g'.

Lemma LaidOut_unique set g g' : LaidOut set g -> LaidOut set g' -> SameGraph g g'.
Proof.
  intros HL HL'. unfold SameGraph. split_and!.
  - apply set_eq. intros n. by rewrite (laid_nodes set g HL), (laid_nodes set g' HL').
  - apply set_eq. intros [u v]. by rewrite (laid_edges set g HL), (laid_edges set g' HL').
  - apply map_eq. intros pid. destruct (decide (pid ∈ pids set)) as [Hp|Hp].
    + apply list_elem_of_fmap in Hp as ([p cfg] & -> & Hin). destruct (laid_pipe set g HL p cfg Hin) as ([r ps x] & E & Hr & Hps & Hx).
      destruct (laid_pipe set g' HL' p cfg Hin) as ([r' ps' x'] & E' & Hr' & Hps' & Hx'). cbn in *. rewrite E, E'. do 2 f_equal.
      * apply set_eq. intros n. by rewrite Hr, Hr'.
      * congruence.
      * apply set_eq. intros n. by rewrite Hx, Hx'.
    + rewrite <- (laid_pids set g HL) in Hp. pose proof (laid_pids set g HL pid) as H1. rewrite <- (laid_pids set g' HL') in H1.
      destruct (pipelines g !! pid), (pipelines g' !! pid); naive_solver.
  - apply map_eq. intros n. apply option_eq. intros i. by rewrite (laid_instance set g HL), (laid_instance set g' HL').
Qed.
End Unique.

(** Whether the connectors can be set up, in terms of where they are mentioned. *)
Lemma ConnectorsOk_iff set : ConnectorsOk set <->
  forall c, isConnector set c -> (exists pid, ExpIn set pid c \/ RecvIn set pid c) -> exists f, ConnectorFactory set c.1 = Some f /\
    (forall e, ExpIn set e c -> exists r, RecvIn set r c /\ supported f e.1 r.1 = true) /\
    (forall r, RecvIn set r c -> exists e, ExpIn set e c /\ supported f e.1 r.1 = true).
Proof.
  assert (Hex : forall pid c, pid ∈ exporterUses set (PipelineConfigs set) c <-> isConnector set c /\ ExpIn set pid c) by (intros; apply elem_of_exporterUses).
  assert (Hre : forall pid c, pid ∈ receiverUses set (PipelineConfigs set) c <-> isConnector set c /\ RecvIn set pid c) by (intros; apply elem_of_receiverUses).
  assert (Hused : forall c, connectorUsed set c <-> isConnector set c /\ exists pid, ExpIn set pid c \/ RecvIn set pid c).
  { intros c. unfold connectorUsed. split.
    - intros Hn. destruct (exporterUses set (PipelineConfigs set) c ++ receiverUses set (PipelineConfigs set) c) as [|p l] eqn:E; [done|].
      assert (Hp : p ∈ exporterUses set (PipelineConfigs set) c ++ receiverUses set (PipelineConfigs set) c) by (rewrite E; left). rewrite elem_of_app, Hex, Hre in Hp. naive_solver.
    - intros (Hc & pid & Hp) E. apply app_eq_nil in E as [E1 E2]. destruct Hp as [Hp|Hp].
      + assert (Hin : pid ∈ exporterUses set (PipelineConfigs set) c) by by apply Hex. rewrite E1 in Hin. by apply elem_of_nil in Hin.
      + assert (Hin : pid ∈ receiverUses set (PipelineConfigs set) c) by by apply Hre. rewrite E2 in Hin. by apply elem_of_nil in Hin. }
  unfold ConnectorsOk, connectorOk, Usable. split.
  - intros Hall c Hc Hu. destruct (Hall c (proj2 (Hused c) (conj Hc Hu))) as (f & Ef & H1 & H2). rewrite Forall_forall in H1, H2. exists f. split_and!; [done|..].
    + intros e He. specialize (H1 e (proj2 (Hex e c) (conj Hc He))). apply Exists_exists in H1 as (r & [_ Hr]%Hre & Hs). eauto.
    + intros r Hr. specialize (H2 r (proj2 (Hre r c) (conj Hc Hr))). apply Exists_exists in H2 as (e & [_ He]%Hex & Hs). eauto.
  - intros Hall c [Hc Hu]%Hused. destruct (Hall c Hc Hu) as (f & Ef & H1 & H2). exists f. rewrite !Forall_forall. split_and!; [done|..].
    + intros e [_ He]%Hex. destruct (H1 e He) as (r & Hr & Hs). apply Exists_exists. exists r. by rewrite Hre.
    + intros r [_ Hr]%Hre. destruct (H2 r Hr) as (e & He & Hs). apply Exists_exists. exists e. by rewrite Hex.
Qed.

Lemma ConnectorsOk_same old new : ReceiversOnly old new -> ConnectorsOk old -> ConnectorsOk new.
Proof.
  intros HR. rewrite !ConnectorsOk_iff. intros Hall c Hc Hu. assert (Hre : forall pid, RecvIn old pid c <-> RecvIn new pid c) by (intros; by apply same_connectors).
  assert (Hex : forall pid, ExpIn old pid c <-> ExpIn new pid c) by (intros; by apply same_exporters). specialize (Hall c). rewrite (same_isConnector old new HR) in Hall.
  setoid_rewrite Hre in Hall. setoid_rewrite Hex in Hall. setoid_rewrite (ro_factory old new HR) in Hall. by apply Hall.
Qed.

(** ** Layout *)

(** Every use of a connector has a supported use on the other side. *)
Definition ConnectorsUsable (set : Settings) : Prop :=
  forall c, isConnector set c -> (exists pid, ExpIn set pid c \/ RecvIn set pid c) -> exists f, ConnectorFactory set c.1 = Some f /\
    (forall e, ExpIn set e c -> exists r, RecvIn set r c /\ supported f e.1 r.1 = true) /\
    (forall r, RecvIn set r c -> exists e, ExpIn set e c /\ supported f e.1 r.1 = true).

(** C24: Laying out validated pipelines never panics, whatever the order of the maps.  It
    succeeds exactly when every mention of a connector as exporter or receiver has a
    supported mention on the other side; then the graph has a node for each receiver and
    exporter per signal, each processor per pipeline and each supported pair of uses of a
    connector, with the edges of the data flow of the configuration and no other, and the
    instance of a node knows exactly the pipelines it is used in. *)
Theorem pipeline_layout {G} `{DirectedGraphLaws G} `{RangeLaws} set : ValidConfig set ->
  (ConnectorsUsable set /\ exists g, layout (G := G) set = Ok g /\ LaidOut set g) \/
  (~ ConnectorsUsable set /\ exists e, layout (G := G) set = Err e).
Proof. intros Hv. unfold ConnectorsUsable. rewrite <- ConnectorsOk_iff. by apply layout_spec. Qed.

(** Spans are counted by a connector: two pipelines. *)
Definition exampleSettings (recvs : list ID) : Settings :=
  mkSettings
    [((SignalTraces, ""), mkPipelineConfig recvs [("batch", "")] [("count", ""); ("debug", "")]);
     ((SignalMetrics, ""), mkPipelineConfig [("count", "")] [] [("debug", "")])]
    (fun id => bool_decide (id = ("count", "")%string))
    (fun t => if decide (t = "count") then Some (mkFactory false (fun e r => if decide (e = SignalTraces /\ r = SignalMetrics) then 3 else 0)%Z) else None).

Lemma exampleSettings_valid recvs : recvs <> [] -> ValidConfig (exampleSettings recvs).
Proof.
  intros Hr. split.
  - apply (bool_decide_eq_true_1 _). reflexivity.
  - apply Forall_cons. split; [destruct recvs; [done|reflexivity]|]. apply Forall_singleton. reflexivity.
Qed.

Lemma pipeline_layout_witness : exists g : Graph simpleGraph, layout (exampleSettings [("otlp", "")]) = Ok g /\
  (fanOutNode (SignalTraces, ""), connectorNode SignalTraces SignalMetrics ("count", "")) ∈ edgesOf (componentGraph g).
Proof.
  destruct (pipeline_layout (G := simpleGraph) (exampleSettings [("otlp", "")]) (exampleSettings_valid [("otlp", "")]%string ltac:(discriminate))) as [(_ & g & E & HL)|[_ [e E] ] ].
  - exists g. split; [exact E|]. apply (laid_edges _ _ HL), flow_export. cbn. split; [reflexivity|]. exists (SignalMetrics, "")%string. split; [reflexivity|].
    split; [reflexivity|]. split; [eexists; split; [left|left]|]. split; [eexists; split; [right; left|left]|]. eexists. split; reflexivity.
  - exfalso. assert (Hok : match layout (G := simpleGraph) (exampleSettings [("otlp", "")]) with Ok _ => true | _ => false end = true) by (vm_compute; reflexivity).
    rewrite E in Hok. discriminate Hok.
Defined.

(** ** Building *)
Lemma tc_impl {A} (R S : relation A) x y : (forall u v, R u v -> S u v) -> tc R x y -> tc S x y.
Proof. intros Hi. induction 1 as [u v Huv|u w v Huw _ IH]; [apply tc_once; auto|eapply tc_l; eauto]. Qed.

(** A list with the edges in order shows that there is no cycle. *)
Lemma sorted_acyclic (R : relation node) l x : NoDup l -> (forall u v, R u v -> exists a b c, l = a ++ u :: b ++ v :: c) -> ~ tc R x x.
Proof.
  intros Hnd Hord Hc. assert (Hgen : forall u v, tc R u v -> exists a b c, l = a ++ u :: b ++ v :: c).
  { induction 1 as [u v Huv|u w v Huw _ (a & b & c & E)]; [by apply Hord|]. destruct (Hord u w Huw) as (a' & b' & c' & E').
    assert (Ec : c' = b ++ v :: c).
    { change (u :: b' ++ w :: c') with ((u :: b') ++ w :: c') in E'. rewrite app_assoc in E'. eapply NoDup_split; [by rewrite <- E'|by rewrite <- E', E]. }
    exists a', (b' ++ w :: b), c. rewrite E', Ec, <- !app_assoc. done. }
  destruct (Hgen x x Hc) as (a & b & c & E). rewrite E in Hnd. apply NoDup_app in Hnd as (_ & _ & Hnd). apply NoDup_cons in Hnd as [Hn _]. apply Hn. apply elem_of_app. right. left.
Qed.

Lemma rotate_nonempty c : c <> [] -> rotate c <> [].
Proof.
  intros Hc. unfold rotate. destruct (list_find isConnectorNode c) as [ [i n]|]; [|done]. intros E. apply (f_equal length) in E. rewrite length_app, length_drop, length_take in E.
  destruct c; [done|]. cbn in E. lia.
Qed.

Lemma cycleErr_some {G} `{DirectedGraphLaws G} (cg : G) unorderable err : is_Some (cycleErr unorderable err (DirectedCyclesIn cg)).
Proof.
  unfold cycleErr. destruct unorderable; [|done]. cbn [negb]. destruct (DirectedCyclesIn cg) as [|[|n ns] cs] eqn:E; [done|done|]. destruct (Cycles_are_cycles cg (n :: ns)) as (m & l & Em & _); [rewrite E; left|].
  rewrite Em. change (m :: l ++ [m]) with ((m :: l) ++ [m]). rewrite removelast_last. pose proof (rotate_nonempty (m :: l) ltac:(done)). by destruct (rotate (m :: l)).
Qed.

Lemma build_spec {G} `{DirectedGraphLaws G} `{RangeLaws} create set (g : Graph G) : ValidConfig set -> layout set = Ok g ->
  ((exists p, tc (Feeds set) p p) /\ exists e, buildComponents create g = Err e) \/
  ((~ exists p, tc (Feeds set) p p) /\ exists nodes, (forall n, n ∈ nodes <-> IsNode set n) /\
     ((exists st, buildComponents create g = Ok st /\ Wired create set g nodes st) \/
      (exists n nexts err, create n nexts = inr err /\ buildComponents create g = Err (buildErr n err)))).
Proof.
  intros Hv E. assert (HL : LaidOut set g) by (destruct (layout_spec (G := G) set Hv) as [(_ & g' & E' & HL)|(_ & e & E')]; rewrite E in E'; by simplify_eq).
  assert (Hedge : forall u v, edge (componentGraph g) u v <-> Flow set u v) by apply (laid_edges set g HL). rewrite <- (flow_cycle set Hv).
  destruct (Sort (componentGraph g)) as [nodes|err] eqn:ES.
  - right. destruct (Sort_sorted _ _ ES) as (Hnd & Hall & Hord). split.
    + intros [n Hc]. apply (sorted_acyclic (Flow set) nodes n Hnd); [|done]. intros u v Huv. by apply Hord, Hedge.
    + exists nodes. split; [intros n; rewrite Hall; apply (laid_nodes set g HL)|]. by apply buildComponents_ok.
  - left. destruct (Sort_cyclic _ _ ES) as [n Hc]. split; [exists n; eapply tc_impl; [|exact Hc]; intros u v; apply Hedge|].
    unfold buildComponents. rewrite ES. destruct (cycleErr_some (componentGraph g) (Unorderable (G := G) err) err) as [e ->]. by exists e.
Qed.

(** C25: When the connectors lead from some pipeline back to it, building the components is
    refused with an error.  Otherwise, building them panics for no choice of the factories:
    either a factory returned an error, which is the result, or every component is created
    exactly once, with the consumers of exactly the nodes its data flows to; a pipeline then
    tells that it changes its data if one of its processors does, or if it has exporters
    and all of them do, a connector between pipelines of one signal counting as changing
    when a pipeline behind it does. *)
Theorem pipeline_build {G} `{DirectedGraphLaws G} `{RangeLaws} create set (g : Graph G) : ValidConfig set -> layout set = Ok g ->
  ((exists p, tc (Feeds set) p p) /\ exists e, buildComponents create g = Err e) \/
  ((~ exists p, tc (Feeds set) p p) /\ exists nodes, (forall n, n ∈ nodes <-> IsNode set n) /\
     ((exists st, buildComponents create g = Ok st /\ Wired create set g nodes st) \/
      (exists n nexts err, create n nexts = inr err /\ buildComponents create g = Err (buildErr n err)))).
Proof. apply build_spec. Qed.

Definition exampleCreate (n : node) (nexts : list consumer) : bool + error := inl (match n with processorNode _ _ => true | _ => false end).

Lemma pipeline_build_witness : exists (g : Graph simpleGraph) st, layout (exampleSettings [("otlp", "")]) = Ok g /\ buildComponents exampleCreate g = Ok st /\
  MutatesData <$> (consumers st !! capabilitiesNode (SignalTraces, ""%string)) = Some true /\ NoDup (created st).*1.
Proof.
  assert (Hc : match layout (G := simpleGraph) (exampleSettings [("otlp", "")]%string) with
    | Ok g => match buildComponents exampleCreate g with Ok st => MutatesData <$> (consumers st !! capabilitiesNode (SignalTraces, ""%string)) | _ => None end
    | _ => None end = Some true) by (vm_compute; reflexivity).
  destruct (layout (G := simpleGraph) (exampleSettings [("otlp", "")]%string)) as [g|e|] eqn:E; [|discriminate Hc..]. exists g.
  destruct (pipeline_build exampleCreate (exampleSettings [("otlp", "")]%string) g (exampleSettings_valid [("otlp", "")]%string ltac:(discriminate)) E)
    as [(_ & e & He)|(_ & nodes & _ & [(st & Est & HW)|(n & nexts & err & Hn & _)])].
  - rewrite He in Hc. discriminate Hc.
  - exists st. rewrite Est in Hc. split; [reflexivity|]. split; [exact Est|]. split; [exact Hc|]. apply HW.
  - discriminate Hn.
Defined.

(** ** Reloading receivers *)
Lemma untouched old new {G} `{DirectedGraphLaws G} (g : Graph G) changed n : LaidOut old g -> isReceiverNode n -> changed (receiverID n) = false ->
  (forall pid, RecvNode old pid n <-> RecvNode new pid n) -> n ∉ gone new g changed /\ n ∉ fresh new g changed.
Proof.
  intros HL Hn Hc Hs. unfold gone, fresh, toRemove, toAdd, toRebuild. rewrite !elem_of_union, !elem_of_difference, !elem_of_filter.
  rewrite (elem_of_currentReceivers old g HL), elem_of_desiredReceivers. setoid_rewrite Hs.
  assert (E : currentPipelines g n = desiredPipelines new n) by (apply set_eq; intros pid; rewrite (elem_of_currentPipelines old g HL), elem_of_desiredPipelines, Hs; tauto).
  rewrite E, Hc. naive_solver.
Qed.

(** C26: When the fingerprints say that only receivers changed, a reload of the receivers of
    the running graph, which was built with any factories, does not panic, whatever the
    factories with the new configuration do.  If it succeeds, the graph is the one that a fresh
    layout of the new configuration makes, and the calls were, in this order: the shutdown
    of each receiver that goes, the creation of each that comes with the consumers of its
    pipelines, and their start, each exactly once.  If it fails, one of these calls failed.
    In either case receivers with the same configuration and pipelines were not touched. *)
Theorem receiver_reload {G} `{DirectedGraphLaws G} `{RangeLaws} createdBy shutdown create start old new (g : Graph G) b nodes ofp nfp :
  ValidConfig old -> ValidConfig new -> layout old = Ok g -> Wired createdBy old g nodes b -> (forall n, IsNode old n -> n ∈ nodes) ->
  (forall id, IsConfigured old id = IsConfigured new id) -> (forall t, ConnectorFactory old t = ConnectorFactory new t) ->
  fp_pipelines ofp = list_to_map (PipelineConfigs old) -> fp_pipelines nfp = list_to_map (PipelineConfigs new) ->
  receiversOnlyChanged ofp nfp (IsConfigured new) = true ->
  let changed := changedReceivers ofp nfp in
  let X := gone new g changed in
  let Y := fresh new g changed in
  let '(st, r) := UpdateReceivers shutdown create start (consumers b) new changed false g in
  match r with
  | Fine => (exists g', layout new = Ok g' /\ SameGraph (r_graph st) g') /\
      exists l1 l2 l3, l1 ≡ₚ elements X /\ l2 ≡ₚ elements Y /\ l3 ≡ₚ elements Y /\
      r_log st = flat_map stopEvents l1 ++ map (fun n => Create n (nextsOf (consumers b) (componentGraph (r_graph st)) n)) l2 ++ flat_map startEvents l3
  | Failed _ => Blame shutdown create start X Y
  | Panicked => False
  end /\
  forall n, isReceiverNode n -> changed (receiverID n) = false -> (forall pid, RecvNode old pid n <-> RecvNode new pid n) -> n ∉ map eventNode (r_log st).
Proof.
  intros Hvo Hvn Eo HW Hnodes Hconn Hfac Efo Efn Hro changed X Y.
  assert (HR : ReceiversOnly old new) by (eapply (receiversOnlyChanged_sound old new ofp nfp); [apply Hvo|apply Hvn|done..]).
  destruct (layout_spec (G := G) old Hvo) as [(Hok & g' & E' & HL)|(_ & e & E')]; rewrite Eo in E'; [|done]. injection E' as <-.
  assert (Hcons : forall pid, pid ∈ pids old -> is_Some (consumers b !! capabilitiesNode pid)).
  { intros pid Hp. destruct HW as (HF & _). rewrite Forall_forall in HF. apply (NodeBuilt_consumer createdBy old g); [|by intros [] ]. apply HF, Hnodes. right. eauto. }
  pose proof (update_stage shutdown create start (consumers b) old new HR g HL changed Hcons) as HS. fold X Y in HS.
  destruct (UpdateReceivers shutdown create start (consumers b) new changed false g) as [st r].
  assert (Hkeep : Touched X Y st -> forall n, isReceiverNode n -> changed (receiverID n) = false -> (forall pid, RecvNode old pid n <-> RecvNode new pid n) -> n ∉ map eventNode (r_log st)).
  { intros Ht n Hn Hc Hs (ev & -> & Hev)%list_elem_of_fmap. unfold Touched in Ht. rewrite Forall_forall in Ht. specialize (Ht ev Hev).
    destruct (untouched old new g changed _ HL Hn Hc Hs) as [H1' H2']. apply elem_of_union in Ht as [?|?]; done. }
  destruct r as [|err|]; [|by destruct HS; split; [|apply Hkeep]|done]. destruct HS as [ [HLn (l1 & l2 & l3 & Hcalls)] Ht]. split; [|by apply Hkeep]. split; [|by exists l1, l2, l3].
  destruct (layout_spec (G := G) new Hvn) as [(_ & g' & E' & HL')|(Hn & _)]; [|by destruct Hn; eapply ConnectorsOk_same]. exists g'. split; [done|]. by eapply LaidOut_unique.
Qed.

Definition exampleFingerprint (recvs : list ID) : configFingerprint := mkFingerprint 0 ∅ [] (list_to_map (PipelineConfigs (exampleSettings recvs))).

Lemma receiver_reload_witness : exists (g : Graph simpleGraph) b st, layout (exampleSettings [("otlp", "")]) = Ok g /\
  UpdateReceivers (fun _ => None) exampleCreate (fun _ => None) (consumers b) (exampleSettings [("zipkin", "")]) 
    (changedReceivers (exampleFingerprint [("otlp", "")]) (exampleFingerprint [("zipkin", "")])) false g = (st, Fine) /\
  exists g', layout (exampleSettings [("zipkin", "")]) = Ok g' /\ SameGraph (r_graph st) g'.
Proof.
  pose proof (exampleSettings_valid [("otlp", "")]%string ltac:(discriminate)) as Hvo. pose proof (exampleSettings_valid [("zipkin", "")]%string ltac:(discriminate)) as Hvn.
  assert (Hc : match layout (G := simpleGraph) (exampleSettings [("otlp", "")]%string) with
    | Ok g => match buildComponents exampleCreate g with Ok st => true | _ => false end | _ => false end = true) by (vm_compute; reflexivity).
  destruct (layout (G := simpleGraph) (exampleSettings [("otlp", "")]%string)) as [g|e|] eqn:E; [|discriminate Hc..]. exists g.
  destruct (build_spec exampleCreate (exampleSettings [("otlp", "")]%string) g Hvo E) as [(_ & e & He)|(_ & nodes & Hnodes & [(b & Eb & HW)|(n & nexts & err & Hn & _)])];
    [rewrite He in Hc; discriminate Hc| |discriminate Hn].
  assert (Hro : receiversOnlyChanged (exampleFingerprint [("otlp", "")]%string) (exampleFingerprint [("zipkin", "")]%string) (IsConfigured (exampleSettings [("zipkin", "")]%string)) = true)
    by (vm_compute; reflexivity).
  pose proof (receiver_reload exampleCreate (fun _ => None) exampleCreate (fun _ => None) (exampleSettings [("otlp", "")]%string) (exampleSettings [("zipkin", "")]%string) g b nodes
    (exampleFingerprint [("otlp", "")]%string) (exampleFingerprint [("zipkin", "")]%string) Hvo Hvn E HW (fun n => proj2 (Hnodes n)) (fun _ => eq_refl) (fun _ => eq_refl) eq_refl eq_refl Hro) as HT.
  exists b. cbv zeta in HT. destruct (UpdateReceivers _ _ _ _ _ _ _ _) as [st r]. exists st. destruct HT as [HT _]. split; [reflexivity|]. destruct r as [|err|].
  - split; [reflexivity|]. exact (proj1 HT).
  - exfalso. destruct HT as [(n & _ & Hn)|[(n & nexts & err' & _ & Hn)|(n & _ & Hn)] ]; [by apply Hn|discriminate Hn|by apply Hn].
  - destruct HT.
Defined.
