(* ===== verification/Confmap.v ===== *)
(** * Configuration resolver (confmap/expand.go, resolver.go, provider.go)

    The configuration is a tree of values in which strings may refer to values of
    providers, as in [${env:HOST}].  [findURI], [expandURI] and [expandValue] replace
    the references, [expandValueRecursively] repeats that, [escapeDollarSigns] turns
    [$$] into [$] at the end, and [Resolve] and [Shutdown] retrieve and close.

    Providers and converters are arguments.  A provider may answer each call
    differently: [Retrieve] is given the number of the call.  The store of the merged
    configuration (a third-party package behind internal/conf.go) is an argument too. *)

From S2P Require Import Prelude Errors.
From Stdlib Require Import Ascii.

(** ** Strings (package strings) *)
Definition str := list ascii.
Definition lit (s : string) : str := String.list_ascii_of_string s.
Definition text (s : str) : string := String.string_of_list_ascii s.

Fixpoint HasPrefix (s prefix : str) {struct prefix} : bool :=
  match prefix, s with
  | [], _ => true
  | p :: prefix, c :: s => bool_decide (p = c) && HasPrefix s prefix
  | _ :: _, [] => false
  end.

Fixpoint Index (s sub : str) : option nat :=
  if HasPrefix s sub then Some 0%nat else match s with [] => None | _ :: s => S <$> Index s sub end.

Fixpoint LastIndex (s sub : str) : option nat :=
  match s with
  | [] => if HasPrefix s sub then Some 0%nat else None
  | _ :: s' => match LastIndex s' sub with Some k => Some (S k) | None => if HasPrefix s sub then Some 0%nat else None end
  end.

Definition Contains (s sub : str) : bool := bool_decide (is_Some (Index s sub)).

(** [skip] counts the bytes of an occurrence of [old] still to leave out. *)
Fixpoint replaceFrom (old new : str) (skip : nat) (s : str) : str :=
  match s with
  | [] => []
  | c :: s' =>
      match skip with
      | S k => replaceFrom old new k s'
      | O => if HasPrefix s old then new ++ replaceFrom old new (length old - 1) s' else c :: replaceFrom old new 0 s'
      end
  end.
Definition ReplaceAll (s old new : str) : str := replaceFrom old new 0 s.

(** ** Values *)
Inductive scalar := SNil | SInt (n : Z) | SFloat (bits : Z) | SBool (b : bool) | STime (ns : Z).

(** A map is its entries in the order in which a loop over it visits them. *)
Inductive value :=
  | VScalar (s : scalar)
  | VString (s : str)
  | ExpandedValue (Value : value) (Original : str)
  | VSlice (vs : list value)
  | VMap (kvs : list (str * value)).

(** ** Locations *)
Record location := mkLocation { scheme : str; opaqueValue : str }.

Definition asString (c : location) : str := scheme c ++ lit ":" ++ opaqueValue c.

Definition inRange (lo hi c : ascii) : bool := (nat_of_ascii lo <=? nat_of_ascii c)%nat && (nat_of_ascii c <=? nat_of_ascii hi)%nat.
Definition isLetter (c : ascii) : bool := inRange "A" "Z" c || inRange "a" "z" c.
Definition isSchemeChar (c : ascii) : bool :=
  isLetter c || inRange "0" "9" c || bool_decide (c = "+"%char) || bool_decide (c = "."%char) || bool_decide (c = "-"%char).

(** A whole string against [schemePattern]. *)
Definition isScheme (s : str) : bool :=
  match s with
  | c :: d :: s => isLetter c && forallb isSchemeChar (d :: s)
  | _ => false
  end.

(** The first colon ends the scheme, whose characters exclude it. *)
Definition newLocation (uri : str) : error + location :=
  let invalid := inl (Errorf "invalid uri: %q" [ArgS (text uri)]) in
  match Index uri (lit ":") with
  | Some i => if isScheme (take i uri) then inr (mkLocation (take i uri) (drop (S i) uri)) else invalid
  | None => invalid
  end.

(** ** Retrieved values (provider.go) *)
Record Retrieved := mkRetrieved {
  rawConf : value;
  errorHint : option error;
  closeFunc : option (option error);
  stringRepresentation : option str;
}.

(** [stringRepresentation] is there when [isSetString]; [closeFunc] is the error the
    function returns. *)
Definition AsString (r : Retrieved) : error + str :=
  match stringRepresentation r with
  | Some s => inr s
  | None =>
      match rawConf r with
      | VString s => inr s
      | _ => inl (Errorf "retrieved value does not have unambiguous string representation: %v" [])
      end
  end.

Definition Close (r : Retrieved) : option error := default None (closeFunc r).

Record Provider := mkProvider {
  Scheme : str;
  Retrieve : nat -> str -> error + Retrieved;
  ProviderShutdown : option error;
}.

(** ** Effects

    The resolver keeps what was retrieved until it closes it; a failure keeps what was
    done before.  Of the channel of [Watch] it matters whether it is closed: closing it
    again panics.  The log is for the theorems. *)
Inductive event := Opened (call : nat) | Closed (call : nat).

Record rstate := mkRState { rs_calls : nat; rs_closers : list (nat * Retrieved); rs_log : list event; rs_watcherClosed : bool }.

Definition M (A : Type) : Type := rstate -> rstate * (error + A).

#[export] Instance M_ret : MRet M := fun A a st => (st, inr a).
#[export] Instance M_bind : MBind M := fun A B f m st => match m st with (st, inr a) => f a st | (st, inl e) => (st, inl e) end.
Definition throw {A} (e : error) : M A := fun st => (st, inl e).
Definition lift {A} (r : error + A) : M A := fun st => (st, r).
(** The error of [m], if any, as a value. *)
Definition attempt {A} (m : M A) : M (error + A) := fun st => let '(st, r) := m st in (st, inr r).

Section Resolver.
(** The merged configuration: internal/conf.go over a third-party package. *)
Context {Conf : Type} (NewConf : Conf) (NewFromStringMap : list (str * value) -> Conf) (Merge : Conf -> Conf -> error + Conf)
  (AllKeys : Conf -> list str) (UnsanitizedGet : Conf -> str -> value).

Record Resolver := mkResolver {
  uris : list location;
  providers : list (str * Provider);
  defaultScheme : str;
  converters : list (Conf -> error + Conf);
}.

Definition lookupProvider (s : str) (ps : list (str * Provider)) : option Provider := snd <$> List.find (fun p => bool_decide (p.1 = s)) ps.

Definition AsConf (r : Retrieved) : error + Conf :=
  match rawConf r with
  | VScalar SNil => inr NewConf
  | VMap m => inr (NewFromStringMap m)
  | _ => match errorHint r with
         | Some e => inl (Wrapf "retrieved value (type=%T) cannot be used as a Conf: %w" [] e)
         | None => inl (Errorf "retrieved value (type=%T) cannot be used as a Conf" [])
         end
  end.

(** ** Expansion (expand.go) *)
Section Expand.
Context (mr : Resolver).

(** A call of a provider, and its result added to the closers by the caller. *)
Definition retrieveValue (uri : location) : M Retrieved :=
  match lookupProvider (scheme uri) (providers mr) with
  | None => throw (Errorf "scheme %q is not supported for uri %q" [ArgS (text (scheme uri)); ArgS (text (asString uri))])
  | Some p => fun st =>
      let n := rs_calls st in
      match Retrieve p n (asString uri) with
      | inl e => (mkRState (S n) (rs_closers st) (rs_log st) (rs_watcherClosed st), inl e)
      | inr ret => (mkRState (S n) (rs_closers st ++ [(n, ret)]) (rs_log st ++ [Opened n]) (rs_watcherClosed st), inr ret)
      end
  end.

(** The number of [$] right before a position, given what is before it backwards. *)
Fixpoint countDollars (before : str) : nat :=
  match before with
  | c :: before => if bool_decide (c = "$"%char) then S (countDollars before) else 0
  | [] => 0
  end.

(** Each call goes on with less than it was given. *)
Fixpoint findURI (fuel : nat) (input : str) : str :=
  match fuel, Index input (lit "}") with
  | S fuel, Some closeIndex =>
      let remaining := drop (S closeIndex) input in
      let next := if Contains remaining (lit "}") then findURI fuel remaining else [] in
      match LastIndex (take (S closeIndex) input) (lit "${") with
      | None => next
      | Some openIndex =>
          let uri := drop openIndex (take (S closeIndex) input) in
          if bool_decide (defaultScheme mr = []) && negb (Contains uri (lit ":")) then next
          else if Nat.odd (countDollars (rev (take openIndex input))) then next
          else uri
      end
  | _, _ => []
  end.

Definition expandURI (input : str) : M Retrieved :=
  let uri := take (length input - 3) (drop 2 input) in
  let uri := if Contains uri (lit ":") then uri else defaultScheme mr ++ lit ":" ++ uri in
  lURI ← lift (newLocation uri);
  if Contains (opaqueValue lURI) (lit "$") then
    throw (Errorf "the uri %q contains unsupported characters ('$')" [ArgS (text (asString lURI))])
  else retrieveValue lURI.

Definition findAndExpandURI (input : str) : M (value * bool) :=
  let uri := findURI (length input) input in
  if bool_decide (uri = []) then mret (VString input, false)
  else if bool_decide (uri = input) then
    ret ← expandURI input;
    match AsString ret with
    | inr asStr => mret (ExpandedValue (rawConf ret) asStr, true)
    | inl _ => mret (rawConf ret, true)
    end
  else
    expanded ← expandURI uri;
    match AsString expanded with
    | inr repl => mret (VString (ReplaceAll input uri repl), true)
    | inl e => throw (Wrapf "expanding %v: %w" [ArgS (text uri)] e)
    end.

Definition expandString (v : str) : M (value * bool) :=
  if negb (Contains v (lit "${")) || negb (Contains v (lit "}")) then mret (VString v, false) else findAndExpandURI v.

(** The loops over slices and maps. *)
Definition expandAll (f : value -> M (value * bool)) : list value -> M (list value * bool) :=
  fix go vs :=
    match vs with
    | [] => mret ([], false)
    | v :: vs => '(v, changed) ← f v; '(vs, nchanged) ← go vs; mret (v :: vs, changed || nchanged)
    end.

Definition expandEntries (f : value -> M (value * bool)) : list (str * value) -> M (list (str * value) * bool) :=
  fix go kvs :=
    match kvs with
    | [] => mret ([], false)
    | (k, v) :: kvs => '(v, changed) ← f v; '(kvs, nchanged) ← go kvs; mret ((k, v) :: kvs, changed || nchanged)
    end.

Fixpoint expandValue (v : value) : M (value * bool) :=
  match v with
  | ExpandedValue val original =>
      '(expanded, changed) ← expandValue val;
      match expanded with
      | ExpandedValue _ _ | VString _ => mret (expanded, changed)
      | _ =>
          r ← attempt (expandString original);
          match r with
          | inr (VString originalExpanded, originalChanged) => mret (ExpandedValue expanded originalExpanded, changed || originalChanged)
          | _ => mret (expanded, changed)
          end
      end
  | VString s => expandString s
  | VSlice vs => '(vs, changed) ← expandAll expandValue vs; mret (VSlice vs, changed)
  | VMap kvs => '(kvs, changed) ← expandEntries expandValue kvs; mret (VMap kvs, changed)
  | VScalar _ => mret (v, false)
  end.

Definition errTooManyRecursiveExpansions : error := New "too many recursive expansions".

Fixpoint expandRounds (n : nat) (v : value) : M value :=
  match n with
  | O => throw errTooManyRecursiveExpansions
  | S n => '(val, changed) ← expandValue v; if negb changed then mret val else expandRounds n val
  end.
Definition expandValueRecursively (v : value) : M value := expandRounds 1000 v.
End Expand.

(** ** Resolve and Shutdown (resolver.go) *)
Fixpoint escapeDollarSigns (v : value) : value :=
  match v with
  | VString s => VString (ReplaceAll s (lit "$$") (lit "$"))
  | ExpandedValue val original => ExpandedValue (escapeDollarSigns val) (ReplaceAll original (lit "$$") (lit "$"))
  | VSlice vs => VSlice (map escapeDollarSigns vs)
  | VMap kvs => VMap (map (fun '(k, v) => (k, escapeDollarSigns v)) kvs)
  | VScalar s => VScalar s
  end.

(** Every closer is called, and their errors are collected. *)
Definition closeIfNeeded : M (option error) := fun st =>
  (mkRState (rs_calls st) [] (rs_log st ++ map (fun c => Closed c.1) (rs_closers st)) (rs_watcherClosed st),
   inr (foldl (fun err c => multierr_Append err (Close c.2)) None (rs_closers st))).

Fixpoint retrieveAll (mr : Resolver) (us : list location) (retMap : Conf) : M Conf :=
  match us with
  | [] => mret retMap
  | uri :: us =>
      r ← attempt (retrieveValue mr uri);
      match r with
      | inl e => throw (Wrapf "cannot retrieve the configuration: %w" [] e)
      | inr ret => retCfgMap ← lift (AsConf ret); retMap ← lift (Merge retMap retCfgMap); retrieveAll mr us retMap
      end
  end.

Fixpoint expandKeys (mr : Resolver) (retMap : Conf) (ks : list str) : M (list (str * value)) :=
  match ks with
  | [] => mret []
  | k :: ks =>
      val ← expandValueRecursively mr (UnsanitizedGet retMap k);
      cfgMap ← expandKeys mr retMap ks;
      mret ((k, escapeDollarSigns val) :: cfgMap)
  end.

Fixpoint convertAll (cs : list (Conf -> error + Conf)) (c : Conf) : error + Conf :=
  match cs with
  | [] => inr c
  | conv :: cs => match conv c with inr c => convertAll cs c | inl e => inl (Wrapf "cannot convert the confmap.Conf: %w" [] e) end
  end.

Definition Resolve (mr : Resolver) : M Conf :=
  err ← closeIfNeeded;
  match err with
  | Some e => throw (Wrapf "cannot close previous watch: %w" [] e)
  | None =>
      retMap ← retrieveAll mr (uris mr) NewConf;
      cfgMap ← expandKeys mr retMap (AllKeys retMap);
      lift (convertAll (converters mr) (NewFromStringMap cfgMap))
  end.

Inductive returned := Returns (errs : option error) | Panics.

Definition closeWatcher (errs : option error) : M returned := fun st =>
  if rs_watcherClosed st then (st, inr Panics)
  else (mkRState (rs_calls st) (rs_closers st) (rs_log st) true, inr (Returns errs)).

Definition Shutdown (mr : Resolver) : M returned :=
  errs ← closeIfNeeded;
  closeWatcher (foldl (fun errs p => multierr_Append errs (ProviderShutdown p.2)) errs (providers mr)).

(** The pattern anywhere in the string: [MatchString] does not anchor it. *)
Fixpoint matchesScheme (s : str) : bool :=
  match s with
  | c :: s' => (isLetter c && match s' with d :: _ => isSchemeChar d | [] => false end) || matchesScheme s'
  | [] => false
  end.

(** [^[A-z]:]. *)
Definition isDriverLetter (uri : str) : bool :=
  match uri with c :: d :: _ => inRange "A" "z" c && bool_decide (d = ":"%char) | _ => false end.

(** The providers and converters are those the factories create. *)
Record ResolverSettings := mkResolverSettings {
  URIs : list str;
  Providers : list Provider;
  DefaultScheme : str;
  Converters : list (Conf -> error + Conf);
}.

Fixpoint addProviders (ps : list Provider) (acc : list (str * Provider)) : error + list (str * Provider) :=
  match ps with
  | [] => inr acc
  | p :: ps =>
      if negb (matchesScheme (Scheme p)) then inl (Errorf "invalid 'confmap.Provider' scheme %q" [ArgS (text (Scheme p))])
      else match lookupProvider (Scheme p) acc with
           | Some _ => inl (Errorf "duplicate 'confmap.Provider' scheme %q" [ArgS (text (Scheme p))])
           | None => addProviders ps (acc ++ [(Scheme p, p)])
           end
  end.

Fixpoint parseURIs (ps : list (str * Provider)) (us : list str) : error + list location :=
  match us with
  | [] => inr []
  | uri :: us =>
      let here :=
        if isDriverLetter uri || negb (Contains uri (lit ":")) then inr (mkLocation (lit "file") uri)
        else match newLocation uri with
             | inl e => inl e
             | inr lURI =>
                 match lookupProvider (scheme lURI) ps with
                 | None => inl (Errorf "unsupported scheme on URI %q" [ArgS (text uri)])
                 | Some _ => inr lURI
                 end
             end in
      match here with
      | inl e => inl e
      | inr l => match parseURIs ps us with inr ls => inr (l :: ls) | inl e => inl e end
      end
  end.

Definition NewResolver (set : ResolverSettings) : error + Resolver :=
  if (length (URIs set) =? 0)%nat then inl (New "invalid 'confmap.ResolverSettings' configuration: no URIs")
  else if (length (Providers set) =? 0)%nat then inl (New "invalid 'confmap.ResolverSettings' configuration: no Providers")
  else match addProviders (Providers set) [] with
  | inl e => inl e
  | inr ps =>
      if negb (bool_decide (DefaultScheme set = [])) && bool_decide (lookupProvider (DefaultScheme set) ps = None) then
        inl (New "invalid 'confmap.ResolverSettings' configuration: DefaultScheme not found in providers list")
      else match parseURIs ps (URIs set) with
      | inl e => inl e
      | inr us => inr (mkResolver us ps (DefaultScheme set) (Converters set))
      end
  end.
End Resolver.
