(* ===== verification/ConfmapProofs.v ===== *)
(** * What the configuration resolver retrieves is closed

    Each operation of the resolver either adds what it retrieves to what is to be
    closed, or closes all of it; [resolver_closes] is about any sequence of calls. *)

From S2P Require Import Prelude Errors Confmap.
From Stdlib Require Import Ascii.

(** ** The scan for references ends *)
Lemma findURI_fuel {Conf} (mr : @Resolver Conf) n m input : (length input <= n)%nat -> (length input <= m)%nat -> findURI mr n input = findURI mr m input.
Proof.
  revert m input. induction n as [|n IH]; intros m input Hn Hm.
  - destruct input; [|simpl in Hn; lia]. by destruct m.
  - destruct m as [|m]; [destruct input; [done|simpl in Hm; lia]|]. cbn [findURI]. destruct (Index input (lit "}")) as [i|] eqn:Ei; [|done].
    destruct input as [|c input]; [done|]. cbn [length] in *. by rewrite (IH m) by (rewrite length_drop; cbn [length]; lia).
Qed.

(** ** Retrieved values are closed *)

(** The values that were retrieved are added to those to close, in order, and nothing
    else. *)
Definition Adds (st st' : rstate) : Prop :=
  exists new, rs_closers st' = rs_closers st ++ new /\ rs_log st' = rs_log st ++ map (fun c => Opened c.1) new /\
    (rs_calls st <= rs_calls st')%nat /\ NoDup (map fst new) /\ Forall (fun n => rs_calls st <= n < rs_calls st')%nat (map fst new).

(** [m] does that, and leaves the channel of [Watch] as it is. *)
Definition Tracks {A} (m : M A) : Prop := forall st, Adds st (m st).1 /\ rs_watcherClosed (m st).1 = rs_watcherClosed st.

Lemma Adds_refl st : Adds st st.
Proof. exists []. rewrite !app_nil_r. split_and!; [done..|constructor|constructor]. Qed.

Lemma Adds_trans st1 st2 st3 : Adds st1 st2 -> Adds st2 st3 -> Adds st1 st3.
Proof.
  intros (n1 & C1 & L1 & K1 & D1 & F1) (n2 & C2 & L2 & K2 & D2 & F2). exists (n1 ++ n2).
  rewrite !map_app, C2, C1, L2, L1, <- !app_assoc. split_and!; [done..|lia| |].
  - apply NoDup_app. split_and!; [done| |done]. intros x H1 H2. rewrite Forall_forall in F1, F2.
    specialize (F1 x H1). specialize (F2 x H2). lia.
  - apply Forall_app_2; (eapply Forall_impl; [eassumption|]); simpl; lia.
Qed.

Lemma Tracks_ret {A} (a : A) : Tracks (mret a).
Proof. intros st. split; [apply Adds_refl|done]. Qed.

Lemma Tracks_lift {A} (r : error + A) : Tracks (lift r).
Proof. intros st. split; [apply Adds_refl|done]. Qed.

Lemma Tracks_throw {A} e : Tracks (throw (A := A) e).
Proof. intros st. split; [apply Adds_refl|done]. Qed.

Lemma Tracks_attempt {A} (m : M A) : Tracks m -> Tracks (attempt m).
Proof. intros Hm st. unfold attempt. specialize (Hm st). by destruct (m st). Qed.

Lemma Tracks_bind {A B} (f : A -> M B) (m : M A) : Tracks m -> (forall a, Tracks (f a)) -> Tracks (m ≫= f).
Proof.
  intros Hm Hf st. unfold mbind, M_bind. specialize (Hm st). destruct (m st) as [st1 [e|a] ]; cbn [fst] in *; [done|].
  destruct Hm as [Ha Hw], (Hf a st1) as [Ha' Hw']. split; [by eapply Adds_trans|congruence].
Qed.

Create HintDb tracks.
#[export] Hint Resolve Tracks_ret Tracks_lift Tracks_throw Tracks_attempt : tracks.

(** Follow the tests and binds of a definition. *)
Ltac tracks :=
  repeat first
    [ solve [auto with tracks]
    | apply Tracks_bind
    | match goal with |- forall _, _ => intros ? | |- Tracks (match ?x with _ => _ end) => destruct x end ].

Section Closers.
Context {Conf : Type} (NewConf : Conf) (NewFromStringMap : list (str * value) -> Conf) (Merge : Conf -> Conf -> error + Conf)
  (AllKeys : Conf -> list str) (UnsanitizedGet : Conf -> str -> value).
Implicit Types mr : @Resolver Conf.

Lemma retrieveValue_tracks mr uri : Tracks (retrieveValue mr uri).
Proof.
  unfold retrieveValue. destruct (lookupProvider _ _) as [p|]; [|auto with tracks]. intros st.
  destruct (Retrieve p _ _) as [e|ret]; (split; [|done]); cbn [fst].
  - exists []. rewrite !app_nil_r. split_and!; simpl; [done|done|lia|constructor..].
  - eexists [(_, ret)]. split_and!; simpl; [done|done|lia|apply NoDup_singleton|apply Forall_singleton; lia].
Qed.
#[local] Hint Resolve retrieveValue_tracks : tracks.

Lemma expandString_tracks mr s : Tracks (expandString mr s).
Proof. unfold expandString, findAndExpandURI, expandURI. tracks. Qed.
#[local] Hint Resolve expandString_tracks : tracks.

Lemma expandValue_tracks mr : forall v, Tracks (expandValue mr v).
Proof.
  fix IH 1. intros [s|s|v o|vs|kvs]; cbn [expandValue].
  - tracks.
  - tracks.
  - apply Tracks_bind; [apply IH|]. tracks.
  - apply Tracks_bind; [|tracks]. induction vs as [|v vs IHvs]; cbn [expandAll]; [tracks|].
    apply Tracks_bind; [apply IH|]. intros [? ?]. apply Tracks_bind; [apply IHvs|]. tracks.
  - apply Tracks_bind; [|tracks]. induction kvs as [|[k v] kvs IHkvs]; cbn [expandEntries]; [tracks|].
    apply Tracks_bind; [apply IH|]. intros [? ?]. apply Tracks_bind; [apply IHkvs|]. tracks.
Qed.
#[local] Hint Resolve expandValue_tracks : tracks.

Lemma expandRounds_tracks mr n v : Tracks (expandRounds mr n v).
Proof. revert v. induction n as [|n IH]; intros v; cbn [expandRounds]; [tracks|]. tracks. Qed.

Lemma retrieveAll_tracks mr us c : Tracks (retrieveAll NewConf NewFromStringMap Merge mr us c).
Proof. revert c. induction us as [|u us IH]; intros c; cbn [retrieveAll]; tracks. Qed.

Lemma expandKeys_tracks mr c ks : Tracks (expandKeys UnsanitizedGet mr c ks).
Proof.
  induction ks as [|k ks IH]; cbn [expandKeys]; [tracks|]. apply Tracks_bind; [apply expandRounds_tracks|]. tracks.
Qed.
#[local] Hint Resolve retrieveAll_tracks expandKeys_tracks : tracks.

Definition ids (st : rstate) : list nat := map fst (rs_closers st).

(** Closes what is open, then opens what it retrieves. *)
Definition Reopens (st st' : rstate) : Prop :=
  rs_log st' = rs_log st ++ map Closed (ids st) ++ map Opened (ids st') /\ (rs_calls st <= rs_calls st')%nat /\
  NoDup (ids st') /\ Forall (fun n => rs_calls st <= n < rs_calls st')%nat (ids st').

Lemma close_then_tracks {A} (k : option error -> M A) st : (forall err st, Adds st (k err st).1) -> Reopens st ((closeIfNeeded ≫= k) st).1.
Proof.
  intros Hk. set (err := foldl (fun err c => multierr_Append err (Close c.2)) None (rs_closers st)).
  set (st1 := mkRState (rs_calls st) [] (rs_log st ++ map (fun c => Closed c.1) (rs_closers st)) (rs_watcherClosed st)).
  change ((closeIfNeeded ≫= k) st) with (k err st1). destruct (Hk err st1) as (new & C & L & K & D & F).
  unfold Reopens, ids. cbn [rs_closers st1 app] in C. rewrite C, L. split_and!; [|done..].
  unfold st1. cbn [rs_log]. by rewrite <- app_assoc, !map_map.
Qed.

Lemma close_then_watcher {A} (k : option error -> M A) st : (forall err, Tracks (k err)) -> rs_watcherClosed ((closeIfNeeded ≫= k) st).1 = rs_watcherClosed st.
Proof.
  intros Hk. set (err := foldl (fun err c => multierr_Append err (Close c.2)) None (rs_closers st)).
  set (st1 := mkRState (rs_calls st) [] (rs_log st ++ map (fun c => Closed c.1) (rs_closers st)) (rs_watcherClosed st)).
  change ((closeIfNeeded ≫= k) st) with (k err st1). apply (Hk err st1).
Qed.

(** ** Any sequence of calls *)
Inductive op := OpResolve | OpShutdown.
#[local] Instance op_eq_dec : EqDecision op.
Proof. solve_decision. Defined.

Definition exec mr (st : rstate) (o : op) : rstate :=
  match o with
  | OpResolve => (Resolve NewConf NewFromStringMap Merge AllKeys UnsanitizedGet mr st).1
  | OpShutdown => (Shutdown mr st).1
  end.

Definition opened (log : list event) : list nat := omap (fun e => match e with Opened n => Some n | Closed _ => None end) log.
Definition closed (log : list event) : list nat := omap (fun e => match e with Closed n => Some n | Opened _ => None end) log.

Lemma exec_reopens mr st o : Reopens st (exec mr st o).
Proof.
  destruct o; apply close_then_tracks; intros err st'.
  - destruct err; [apply Adds_refl|]. assert (HT : forall A (m : M A), Tracks m -> Adds st' (m st').1) by (intros A m Hm; apply Hm). apply HT. tracks.
  - unfold closeWatcher. destruct (rs_watcherClosed st'); [apply Adds_refl|apply (Adds_refl st')].
Qed.

(** Only [Shutdown] closes the channel of [Watch]. *)
Lemma exec_watcher mr st o : rs_watcherClosed (exec mr st o) = rs_watcherClosed st || match o with OpShutdown => true | OpResolve => false end.
Proof.
  destruct o; cbn [exec].
  - rewrite orb_false_r. apply close_then_watcher. tracks.
  - unfold Shutdown, mbind, M_bind. cbn [closeIfNeeded]. unfold closeWatcher. cbn [rs_watcherClosed]. by destruct (rs_watcherClosed st).
Qed.

Lemma watcher_closed mr ops st : rs_watcherClosed (foldl (exec mr) st ops) = rs_watcherClosed st || bool_decide (OpShutdown ∈ ops).
Proof.
  revert st. induction ops as [|o ops IH]; intros st; cbn [foldl]; [by rewrite orb_false_r|]. rewrite IH, exec_watcher, <- orb_assoc. f_equal.
  destruct o; [apply bool_decide_ext; set_solver|]. symmetry. apply bool_decide_eq_true_2. left.
Qed.

Lemma opened_closed_maps l : opened (map Closed l) = [] /\ opened (map Opened l) = l /\ closed (map Closed l) = l /\ closed (map Opened l) = [].
Proof. unfold opened, closed. induction l as [|n l (I1 & I2 & I3 & I4)]; cbn; [done|]. rewrite I1, I2, I3, I4. done. Qed.

Definition Balanced (st : rstate) : Prop :=
  opened (rs_log st) = closed (rs_log st) ++ ids st /\ NoDup (opened (rs_log st)) /\
  Forall (fun n => n < rs_calls st)%nat (opened (rs_log st)).

Lemma Reopens_balanced st st' : Reopens st st' -> Balanced st -> Balanced st'.
Proof.
  intros (L & K & D & F) (B & N & U). unfold Balanced. rewrite L.
  assert (Eo : opened (rs_log st ++ map Closed (ids st) ++ map Opened (ids st')) = opened (rs_log st) ++ ids st').
  { unfold opened. rewrite !omap_app. fold (opened (map Closed (ids st))) (opened (map Opened (ids st'))).
    destruct (opened_closed_maps (ids st)) as (-> & _ & _ & _). by destruct (opened_closed_maps (ids st')) as (_ & -> & _ & _). }
  assert (Ec : closed (rs_log st ++ map Closed (ids st) ++ map Opened (ids st')) = closed (rs_log st) ++ ids st).
  { unfold closed. rewrite !omap_app. fold (closed (map Closed (ids st))) (closed (map Opened (ids st'))).
    destruct (opened_closed_maps (ids st)) as (_ & _ & -> & _). destruct (opened_closed_maps (ids st')) as (_ & _ & _ & ->). by rewrite app_nil_r. }
  rewrite Eo, Ec, <- B. rewrite Forall_forall in U, F. split_and!; [done| |].
  - apply NoDup_app. split_and!; [done| |done]. intros x Hx Hx'. specialize (U x Hx). specialize (F x Hx'). lia.
  - apply Forall_forall. intros x [Hx|Hx]%elem_of_app; [specialize (U x Hx)|specialize (F x Hx)]; lia.
Qed.

Lemma shutdown_ids mr st : ids (exec mr st OpShutdown) = [].
Proof. cbn [exec]. unfold Shutdown, mbind, M_bind. cbn [closeIfNeeded]. unfold closeWatcher. cbn [rs_watcherClosed]. by destruct (rs_watcherClosed st). Qed.

Lemma shutdown_panics mr ops : (Shutdown mr (foldl (exec mr) (mkRState 0 [] [] false) ops)).2 = inr Panics <-> OpShutdown ∈ ops.
Proof.
  unfold Shutdown, mbind, M_bind. cbn [closeIfNeeded]. unfold closeWatcher. cbn [rs_watcherClosed]. rewrite watcher_closed. cbn [rs_watcherClosed orb].
  destruct (bool_decide_reflect (OpShutdown ∈ ops)); done.
Qed.

(** C28: over any sequence of [Resolve] and [Shutdown] calls, whatever the providers,
    the store and the converters answer, also when a call fails half-way: each call
    first closes all that is open and then retrieves; values are closed in the order
    in which they were retrieved, none twice; and after a [Shutdown] all that was ever
    retrieved is closed.  A [Shutdown] after another one still closes what is open, and
    then panics, as it closes the channel of [Watch] again; the first one does not. *)
Theorem resolver_closes mr ops : let st := foldl (exec mr) (mkRState 0 [] [] false) ops in
  opened (rs_log st) = closed (rs_log st) ++ ids st /\ NoDup (opened (rs_log st)) /\
  (last ops = Some OpShutdown -> opened (rs_log st) = closed (rs_log st)) /\
  (forall o, rs_log (exec mr st o) = rs_log st ++ map Closed (ids st) ++ map Opened (ids (exec mr st o))) /\
  ((Shutdown mr st).2 = inr Panics <-> OpShutdown ∈ ops).
Proof.
  cbv zeta. set (st := foldl _ _ _). assert (HB : Balanced st).
  { unfold st. clear st. induction ops as [|o ops IH] using rev_ind.
    - split_and!; [done|constructor|constructor].
    - rewrite foldl_snoc. eapply Reopens_balanced; [apply exec_reopens|done]. }
  split_and!; [apply HB|apply HB| |intros o; apply (exec_reopens mr st o)|apply shutdown_panics..].
  intros Hl. apply last_Some in Hl as [ops' ->]. unfold st in *. rewrite foldl_snoc in *. destruct HB as [-> _].
  by rewrite shutdown_ids, app_nil_r.
Qed.
End Closers.
