(* ===== verification/ConfmapTemplates.v ===== *)
(** * What references in a string are replaced by

    A string of the configuration as a sequence of text, escapes and references, and
    what the resolver makes of it: each reference is replaced by the text the provider
    answers, wherever the escape [$$] stands, as long as no reference is also written
    escaped in the same string.  The examples at the end show what happens then. *)

From S2P Require Import Prelude Errors Confmap.
From Stdlib Require Import Ascii.

(** ** Strings *)
Lemma HasPrefix_spec s p : HasPrefix s p = true <-> exists k, s = p ++ k.
Proof.
  revert s. induction p as [|c p IH]; intros s; [split; [by exists s|by destruct s]|].
  destruct s as [|d s]; cbn [HasPrefix]; [split; [done|by intros [k ?] ]|].
  rewrite andb_true_iff, bool_decide_eq_true, IH. split.
  - intros [-> [k ->] ]. by exists k.
  - intros [k [= -> ->] ]. split; [done|by exists k].
Qed.

Lemma HasPrefix_app p s : HasPrefix (p ++ s) p = true.
Proof. apply HasPrefix_spec. by exists s. Qed.

Lemma Index_char_app A c B : c ∉ A -> Index (A ++ c :: B) [c] = Some (length A).
Proof.
  induction A as [|d A IH]; intros Hc; cbn [app Index HasPrefix length].
  - by rewrite bool_decide_true.
  - apply not_elem_of_cons in Hc as [Hd Hc]. rewrite bool_decide_false by done. cbn [andb]. by rewrite IH.
Qed.

Lemma Index_char_None s c : c ∉ s -> Index s [c] = None.
Proof.
  induction s as [|d s IH]; intros Hc; [done|]. apply not_elem_of_cons in Hc as [Hd Hc]. cbn [Index HasPrefix].
  rewrite bool_decide_false by done. cbn [andb]. by rewrite IH.
Qed.

Lemma Contains_char s c : Contains s [c] = bool_decide (c ∈ s).
Proof.
  unfold Contains. destruct (decide (c ∈ s)) as [Hc|Hc].
  - rewrite !bool_decide_true; [done..|]. destruct (list_elem_of_split_l s c Hc) as (A & B & -> & HA). rewrite Index_char_app; eauto.
  - rewrite Index_char_None, !bool_decide_false by done. done.
Qed.

Lemma Index_app_Some A s sub : is_Some (Index s sub) -> is_Some (Index (A ++ s) sub).
Proof.
  induction A as [|d A IH]; intros H; [done|]. cbn [app Index]. destruct (HasPrefix _ _); [eauto|]. destruct (IH H) as [k ->]. eauto.
Qed.

Lemma Contains_middle A sub B : Contains (A ++ sub ++ B) sub = true.
Proof.
  apply bool_decide_true. apply Index_app_Some. unfold Index. destruct (sub ++ B) eqn:E; rewrite <- E, HasPrefix_app; eauto.
Qed.

Lemma LastIndex_app A s sub k : LastIndex s sub = Some k -> LastIndex (A ++ s) sub = Some (length A + k)%nat.
Proof. intros H. induction A as [|d A IH]; cbn [app LastIndex length]; [done|]. by rewrite IH. Qed.

Lemma LastIndex_open_None s : "{"%char ∉ s -> LastIndex s (lit "${") = None.
Proof.
  induction s as [|c s IH]; intros H; [done|]. apply not_elem_of_cons in H as [Hc Hs]. cbn [LastIndex]. rewrite IH by done.
  destruct (HasPrefix (c :: s) (lit "${")) eqn:E; [|done]. apply HasPrefix_spec in E as [k E]. cbn in E. simplify_eq. set_solver.
Qed.

Lemma LastIndex_open A B : "{"%char ∉ B -> LastIndex (A ++ lit "${" ++ B) (lit "${") = Some (length A).
Proof.
  intros H. rewrite (LastIndex_app A _ _ 0%nat), Nat.add_0_r; [done|].
  assert (E : LastIndex ("{"%char :: B) (lit "${") = None).
  { cbn [LastIndex]. rewrite LastIndex_open_None by done. destruct (HasPrefix _ _) eqn:E; [|done]. by apply HasPrefix_spec in E as [k E]. }
  transitivity (match LastIndex ("{"%char :: B) (lit "${") with Some k => Some (S k) | None => if HasPrefix (lit "${" ++ B) (lit "${") then Some 0%nat else None end).
  - done.
  - by rewrite E, HasPrefix_app.
Qed.

(** ** Replacing *)
Lemma replaceFrom_skip old new A s : replaceFrom old new (length A) (A ++ s) = replaceFrom old new 0 s.
Proof. induction A as [|c A IH]; [by destruct s|]. cbn. apply IH. Qed.

Lemma replaceFrom_hit old new s : old <> [] -> replaceFrom old new 0 (old ++ s) = new ++ replaceFrom old new 0 s.
Proof.
  intros Hold. pose proof (HasPrefix_app old s) as HP. destruct old as [|c old]; [done|]. cbn [replaceFrom app] in *. rewrite HP.
  f_equal. cbn [length]. rewrite Nat.sub_succ, Nat.sub_0_r. apply replaceFrom_skip.
Qed.

Lemma replaceFrom_miss old new c s : HasPrefix (c :: s) old = false -> replaceFrom old new 0 (c :: s) = c :: replaceFrom old new 0 s.
Proof. intros H. cbn [replaceFrom]. by rewrite H. Qed.

Lemma replaceFrom_plain d old new A s : Forall (fun c => c <> d) A -> replaceFrom (d :: old) new 0 (A ++ s) = A ++ replaceFrom (d :: old) new 0 s.
Proof.
  induction 1 as [|c A Hc HA IH]; [done|]. cbn [app]. rewrite replaceFrom_miss; [by rewrite IH|]. cbn [HasPrefix]. by rewrite bool_decide_false.
Qed.

Lemma ReplaceAll_none s d old new : Forall (fun c => c <> d) s -> ReplaceAll s (d :: old) new = s.
Proof. intros H. unfold ReplaceAll. rewrite <- (app_nil_r s) at 1. rewrite replaceFrom_plain by done. cbn. apply app_nil_r. Qed.

(** ** Templates *)
Inductive seg :=
  | Text (t : str)
  | Esc
  | EscRef (b : str)
  | Ref (b : str).

Definition ref (b : str) : str := lit "${" ++ b ++ lit "}".

Definition renderSeg (s : seg) : str :=
  match s with Text t => t | Esc => lit "$$" | EscRef b => "$"%char :: ref b | Ref b => ref b end.
Definition render (T : list seg) : str := concat (map renderSeg T).

Definition Plain (s : str) : Prop := Forall (fun c => c <> "$"%char /\ c <> "{"%char) s.
Definition Body (b : str) : Prop := Plain b /\ "}"%char ∉ b.

Definition SegOk (s : seg) : Prop :=
  match s with Text t => Plain t | Esc => True | EscRef b | Ref b => Body b end.

Definition refs (T : list seg) : list str := omap (fun s => match s with Ref b => Some b | _ => None end) T.
Definition escaped (T : list seg) : list str := omap (fun s => match s with EscRef b => Some b | _ => None end) T.

Lemma render_app T1 T2 : render (T1 ++ T2) = render T1 ++ render T2.
Proof. unfold render. by rewrite map_app, concat_app. Qed.

Lemma render_cons s T : render (s :: T) = renderSeg s ++ render T.
Proof. done. Qed.

Lemma Plain_no_open t : Plain t -> "{"%char ∉ t.
Proof. unfold Plain. rewrite Forall_forall. intros H Hin. by apply (H _ Hin). Qed.

Lemma Plain_no_dollar t : Plain t -> Forall (fun c => c <> "$"%char) t.
Proof. intros H. eapply Forall_impl; [exact H|]. by intros c [? ?]. Qed.

Lemma refs_elem T b : b ∈ refs T -> Ref b ∈ T.
Proof. intros (s & Hs & E)%list_elem_of_omap. by destruct s; simplify_eq. Qed.

Lemma refs_close T b : b ∈ refs T -> "}"%char ∈ render T.
Proof.
  intros (T1 & T2 & ->)%refs_elem%list_elem_of_split.
  rewrite render_app, render_cons. unfold renderSeg, ref. set_solver.
Qed.

(** Text and escapes: no reference, and the dollar signs at the end are paired. *)
Definition Quiet (P : list seg) : Prop := Forall (fun s => match s with Text t => Plain t | Esc => True | _ => False end) P.

Lemma Quiet_no_open P : Quiet P -> "{"%char ∉ render P.
Proof.
  induction 1 as [|s P Hs HP IH]; [apply not_elem_of_nil|]. rewrite render_cons. apply not_elem_of_app. split; [|done].
  destruct s; try done; [by apply Plain_no_open|]. cbn. set_solver.
Qed.

Lemma Quiet_dollars P : Quiet P -> Nat.even (countDollars (rev (render P))) = true.
Proof.
  induction P as [|s P IH] using rev_ind; intros H; [done|]. apply Forall_app in H as [HP Hs]. rewrite Forall_singleton in Hs.
  rewrite render_app, rev_app_distr. unfold render at 1. cbn [map concat]. rewrite app_nil_r. destruct s as [t| | |]; try done; cbn [renderSeg].
  - destruct t as [|c t _] using rev_ind; [by apply IH|]. rewrite rev_app_distr. cbn [rev app countDollars].
    apply Forall_app in Hs as [_ Hc]. rewrite Forall_singleton in Hc. by rewrite bool_decide_false by apply Hc.
  - cbn. by apply IH.
Qed.

Lemma countDollars_snoc A : countDollars (rev (A ++ ["$"%char])) = S (countDollars (rev A)).
Proof. by rewrite rev_app_distr. Qed.

Lemma Quiet_refs P : Quiet P -> refs P = [].
Proof. induction 1 as [|s P Hs HP IH]; [done|]. unfold refs. cbn. fold (refs P). by destruct s. Qed.

(** The first closing bracket of a template. *)
Inductive FirstClose (T : list seg) : Prop :=
  | NoClose : "}"%char ∉ render T -> refs T = [] -> FirstClose T
  | InText P t1 t2 R : T = P ++ Text (t1 ++ "}"%char :: t2) :: R -> Quiet P -> "}"%char ∉ render P ++ t1 -> Plain t1 -> Plain t2 -> FirstClose T
  | InEscRef P b R : T = P ++ EscRef b :: R -> Quiet P -> "}"%char ∉ render P -> Body b -> FirstClose T
  | InRef P b R : T = P ++ Ref b :: R -> Quiet P -> "}"%char ∉ render P -> Body b -> FirstClose T.

Lemma first_close T : Forall SegOk T -> FirstClose T.
Proof.
  induction 1 as [|s T Hs HT IH]; [apply NoClose; [apply not_elem_of_nil|done]|].
  assert (Hquiet : (match s with Text t => Plain t | Esc => True | _ => False end) -> "}"%char ∉ renderSeg s -> FirstClose (s :: T)).
  { intros Hq Hn. destruct IH as [Hno Hr|P t1 t2 R -> HP HnP H1 H2|P b R -> HP HnP Hb|P b R -> HP HnP Hb].
    - apply NoClose; [rewrite render_cons; set_solver|]. unfold refs in *. cbn. by destruct s.
    - apply (InText _ (s :: P) t1 t2 R); [done|by constructor| |done..]. rewrite render_cons. set_solver.
    - apply (InEscRef _ (s :: P) b R); [done|by constructor| |done]. rewrite render_cons. set_solver.
    - apply (InRef _ (s :: P) b R); [done|by constructor| |done]. rewrite render_cons. set_solver. }
  destruct s as [t| |b|b]; cbn in Hs.
  - destruct (decide ("}"%char ∈ t)) as [Hc|Hc]; [|by apply Hquiet]. destruct (list_elem_of_split_l t _ Hc) as (t1 & t2 & -> & Hn).
    apply Forall_app in Hs as [H1 H2]. apply Forall_cons in H2 as [_ H2]. apply (InText _ [] t1 t2 T); [done|constructor|done..].
  - apply Hquiet; [done|]. cbn. set_solver.
  - by apply (InEscRef _ [] b T); [|constructor|apply not_elem_of_nil|].
  - by apply (InRef _ [] b T); [|constructor|apply not_elem_of_nil|].
Qed.

(** ** findURI *)
Section Templates.
Context {Conf : Type} (mr : @Resolver Conf).

Definition next (n : nat) (rest : str) : str := if Contains rest (lit "}") then findURI mr n rest else [].

Lemma take_drop_close A B : take (S (length A)) (A ++ "}"%char :: B) = A ++ ["}"%char] /\ drop (S (length A)) (A ++ "}"%char :: B) = B.
Proof.
  change ("}"%char :: B) with (["}"%char] ++ B). rewrite (app_assoc A). split.
  - apply take_app_length'. rewrite length_app. simpl. lia.
  - apply drop_app_length'. rewrite length_app. simpl. lia.
Qed.

Lemma findURI_text n A rest : "}"%char ∉ A -> "{"%char ∉ A -> findURI mr (S n) (A ++ "}"%char :: rest) = next n rest.
Proof.
  intros HA HO. cbn [findURI]. change (lit "}") with ["}"%char]. rewrite Index_char_app by done.
  destruct (take_drop_close A rest) as [-> ->]. by rewrite LastIndex_open_None by set_solver.
Qed.

Lemma findURI_open n A b rest : "}"%char ∉ A -> Body b ->
  findURI mr (S n) (A ++ ref b ++ rest) =
    if bool_decide (defaultScheme mr = []) && negb (Contains (ref b) (lit ":")) then next n rest
    else if Nat.odd (countDollars (rev A)) then next n rest else ref b.
Proof.
  intros HA [HP Hb]. set (B := A ++ lit "${" ++ b).
  assert (E : A ++ ref b ++ rest = B ++ "}"%char :: rest) by (unfold B, ref; by rewrite <- !app_assoc).
  assert (E2 : B ++ ["}"%char] = A ++ lit "${" ++ (b ++ lit "}")) by (unfold B; by rewrite <- !app_assoc).
  assert (HB : "}"%char ∉ B). { unfold B. apply not_elem_of_app. split; [done|]. cbn. set_solver. }
  rewrite E. cbn [findURI]. change (lit "}") with ["}"%char]. rewrite Index_char_app by done.
  destruct (take_drop_close B rest) as [-> ->]. rewrite E2, LastIndex_open.
  2:{ apply not_elem_of_app. split; [by apply Plain_no_open|cbn; set_solver]. }
  rewrite drop_app_length. change (lit "${" ++ b ++ lit "}") with (ref b).
  assert (take (length A) (B ++ "}"%char :: rest) = A) as -> by (unfold B; by rewrite <- !app_assoc, take_app_length). done.
Qed.

Definition RefOk (b : str) : Prop := defaultScheme mr <> [] \/ ":"%char ∈ b.

Lemma scheme_test b : RefOk b -> bool_decide (defaultScheme mr = []) && negb (Contains (ref b) (lit ":")) = false.
Proof.
  intros [H|H]; [by rewrite bool_decide_false|]. apply andb_false_iff. right. apply negb_false_iff.
  change (lit ":") with [":"%char]. rewrite Contains_char. apply bool_decide_true. unfold ref. set_solver.
Qed.

Lemma refs_app T1 T2 : refs (T1 ++ T2) = refs T1 ++ refs T2.
Proof. apply omap_app. Qed.

Definition firstRef (T : list seg) : str := match refs T with b :: _ => ref b | [] => [] end.

(** The scan finds the first reference that is not escaped. *)
Lemma findURI_template n T : (length (render T) <= n)%nat -> Forall SegOk T -> Forall RefOk (refs T) -> findURI mr n (render T) = firstRef T.
Proof.
  revert T. induction n as [n IH] using lt_wf_ind. intros T Hn HT HR.
  assert (Hnext : forall m T', (m < n)%nat -> (length (render T') <= m)%nat -> Forall SegOk T' -> Forall RefOk (refs T') -> next m (render T') = firstRef T').
  { intros m T' Hm Hl HT' HR'. unfold next. change (lit "}") with ["}"%char]. rewrite Contains_char. case_bool_decide as Hc; [by apply IH|].
    unfold firstRef. destruct (refs T') as [|b l] eqn:E; [done|]. exfalso. apply Hc, (refs_close T' b). rewrite E. left. }
  destruct (first_close T HT) as [Hno Hr|P t1 t2 R -> HP HnP H1 H2|P b R -> HP HnP Hb|P b R -> HP HnP Hb].
  - unfold firstRef. rewrite Hr. destruct n; [done|]. cbn [findURI]. change (lit "}") with ["}"%char]. by rewrite Index_char_None.
  - apply Forall_app in HT as [_ HT]. apply Forall_cons in HT as [_ HT]. rewrite refs_app, (Quiet_refs P HP) in HR. cbn in HR.
    assert (E : render (P ++ Text (t1 ++ "}"%char :: t2) :: R) = (render P ++ t1) ++ "}"%char :: render (Text t2 :: R))
      by (rewrite render_app, !render_cons; cbn [renderSeg]; by rewrite <- !app_assoc).
    rewrite E in *. rewrite length_app in Hn. cbn [length] in Hn. destruct n as [|m]; [lia|].
    rewrite findURI_text; [|done|apply not_elem_of_app; split; [by apply Quiet_no_open|by apply Plain_no_open] ].
    rewrite Hnext; [|lia|lia|by constructor|done]. unfold firstRef. by rewrite refs_app, (Quiet_refs P HP).
  - apply Forall_app in HT as [_ HT]. apply Forall_cons in HT as [_ HT]. rewrite refs_app, (Quiet_refs P HP) in HR. cbn in HR.
    assert (E : render (P ++ EscRef b :: R) = (render P ++ ["$"%char]) ++ ref b ++ render R)
      by (rewrite render_app, render_cons, <- (app_assoc (render P)); done).
    rewrite E in *. rewrite !length_app in Hn. cbn [length] in Hn. destruct n as [|m]; [lia|].
    rewrite findURI_open; [|set_solver|done]. rewrite countDollars_snoc, Nat.odd_succ, (Quiet_dollars P HP). rewrite (Hnext m R) by (done || lia). rewrite Tauto.if_same.
    unfold firstRef. by rewrite refs_app, (Quiet_refs P HP).
  - rewrite refs_app, (Quiet_refs P HP) in HR. cbn in HR. apply Forall_cons in HR as [HRb _].
    rewrite render_app, render_cons in *. cbn [renderSeg] in *. rewrite !length_app in Hn.
    assert (0 < length (ref b))%nat by (unfold ref; rewrite length_app; cbn; lia). destruct n as [|m]; [lia|].
    rewrite findURI_open, scheme_test by done. unfold Nat.odd. rewrite (Quiet_dollars P HP). cbn [negb].
    unfold firstRef. by rewrite refs_app, (Quiet_refs P HP).
Qed.

(** ** ReplaceAll *)
Definition substRef (b v : str) (T : list seg) : list seg := map (fun s => match s with Ref b' => if bool_decide (b' = b) then Text v else s | _ => s end) T.

Lemma close_unique b b' k k' : "}"%char ∉ b -> "}"%char ∉ b' -> b ++ "}"%char :: k = b' ++ "}"%char :: k' -> b = b'.
Proof.
  intros Hb Hb' E. assert (length b = length b') as El.
  { apply (f_equal (fun s => Index s ["}"%char])) in E. rewrite !Index_char_app in E by done. by injection E. }
  by apply app_inj_1 in E as [? _].
Qed.

Lemma ref_prefix b b' rest : Body b -> Body b' -> b' <> b -> HasPrefix (ref b' ++ rest) (ref b) = false.
Proof.
  intros [_ Hb] [_ Hb'] Hne. apply not_true_is_false. intros [k E]%HasPrefix_spec. unfold ref in E. rewrite <- !app_assoc in E.
  apply app_inv_head in E. apply Hne. by apply (close_unique b' b rest k).
Qed.

Lemma render_head T r : Forall SegOk T -> render T <> "{"%char :: r.
Proof.
  induction 1 as [|s T Hs HT IH]; [done|]. rewrite render_cons. destruct s as [t| | |]; try done. cbn [renderSeg]. destruct t as [|c t]; [done|].
  apply Forall_cons in Hs as [ [_ ?] _]. cbn. congruence.
Qed.

Lemma replace_keeps_ref b b' v rest : Body b -> Body b' -> b' <> b ->
  replaceFrom (ref b) v 0 (ref b' ++ rest) = ref b' ++ replaceFrom (ref b) v 0 rest.
Proof.
  intros Hb Hb' Hne. pose proof (ref_prefix b b' rest Hb Hb' Hne) as HP.
  assert (E : ref b' = "$"%char :: ("{"%char :: b' ++ ["}"%char])) by done. rewrite E in *. cbn [app] in *. rewrite replaceFrom_miss by done.
  f_equal. change (ref b) with ("$"%char :: ("{"%char :: b ++ ["}"%char])).
  apply (replaceFrom_plain "$"%char _ v ("{"%char :: b' ++ ["}"%char]) rest).
  apply Forall_cons_2; [done|]. apply Forall_app_2; [apply Plain_no_dollar, Hb'|by apply Forall_singleton].
Qed.

Lemma escape_miss b v s : (forall r, s <> "{"%char :: r) -> replaceFrom (ref b) v 0 ("$"%char :: s) = "$"%char :: replaceFrom (ref b) v 0 s.
Proof. intros H. apply replaceFrom_miss. apply not_true_is_false. intros [k E]%HasPrefix_spec. unfold ref in E. cbn in E. injection E as E. by apply (H _ E). Qed.

Lemma ReplaceAll_template b v T : Body b -> Forall SegOk T -> b ∉ escaped T -> ReplaceAll (render T) (ref b) v = render (substRef b v T).
Proof.
  intros Hb. unfold ReplaceAll. induction 1 as [|s T Hs HT IH]; intros Hn; [done|]. cbn [substRef map]. rewrite !render_cons.
  assert (HnT : b ∉ escaped T) by (unfold escaped in *; cbn in Hn; destruct s; set_solver). specialize (IH HnT).
  fold (substRef b v T). destruct s as [t| |b'|b']; cbn [renderSeg].
  - change (ref b) with ("$"%char :: ("{"%char :: b ++ ["}"%char])) in *. rewrite replaceFrom_plain by by apply Plain_no_dollar. by rewrite IH.
  - change (lit "$$" ++ render T) with ("$"%char :: "$"%char :: render T). rewrite escape_miss by done.
    rewrite escape_miss by (intros r; by apply render_head). by rewrite IH.
  - cbn [app]. rewrite escape_miss by done. assert (b' <> b) by (intros ->; apply Hn; left). by rewrite replace_keeps_ref, IH.
  - case_bool_decide as Hd; [subst b'; by rewrite replaceFrom_hit, IH|]. by rewrite replace_keeps_ref, IH.
Qed.

Lemma substRef_ok b v T : Plain v -> Forall SegOk T -> Forall SegOk (substRef b v T).
Proof. intros Hv HT. unfold substRef. apply Forall_fmap. eapply Forall_impl; [exact HT|]. intros [| | |b'] Hs; try done. cbn. by case_bool_decide. Qed.

Lemma substRef_escaped b v T : escaped (substRef b v T) = escaped T.
Proof. unfold escaped, substRef. induction T as [|s T IH]; [done|]. cbn. destruct s as [| | |b']; try (by rewrite IH). cbn. case_bool_decide; by rewrite IH. Qed.

Lemma refs_cons s T : refs (s :: T) = match s with Ref b => b :: refs T | _ => refs T end.
Proof. by destruct s. Qed.

Lemma substRef_refs b v T : refs (substRef b v T) = filter (fun b' => b' <> b) (refs T).
Proof.
  unfold substRef. induction T as [|s T IH]; [done|]. cbn [map]. rewrite !refs_cons. destruct s as [| | |b']; try done.
  rewrite filter_cons. case_bool_decide; case_decide; try done. by rewrite IH.
Qed.

(** ** Rounds of expansion *)

(** What the providers answer for each reference, and its text. *)
Context (ans : str -> Retrieved) (val : str -> str).

Record Known (b : str) : Prop := {
  kn_ref : RefOk b;
  kn_answer : exists loc p, newLocation (if Contains b (lit ":") then b else defaultScheme mr ++ lit ":" ++ b) = inr loc /\
    Contains (opaqueValue loc) (lit "$") = false /\ lookupProvider (scheme loc) (providers mr) = Some p /\
    forall n, Retrieve p n (asString loc) = inr (ans b);
  kn_text : AsString (ans b) = inr (val b);
  kn_plain : Plain (val b);
  kn_raw : rawConf (ans b) = VString (val b) \/ exists s, rawConf (ans b) = VScalar s;
}.

Definition meanSeg (s : seg) : str := match s with Text t => t | Esc => lit "$" | EscRef b => ref b | Ref b => val b end.
Definition meaning (T : list seg) : str := concat (map meanSeg T).

Lemma expandURI_known b st : Known b -> exists st', expandURI mr (ref b) st = (st', inr (ans b)).
Proof.
  intros [_ (loc & p & El & Ed & Ep & Er) _ _ _]. unfold expandURI. cbv zeta.
  assert (take (length (ref b) - 3) (drop 2 (ref b)) = b) as ->.
  { change (drop 2 (ref b)) with (b ++ lit "}"). apply take_app_length'. unfold ref. rewrite !length_app. cbn. lia. }
  unfold mbind, M_bind, lift. destruct (newLocation _) as [e|loc'] eqn:E; rewrite El in E; simplify_eq. rewrite Ed. unfold retrieveValue. rewrite Ep, Er. eauto.
Qed.

Lemma Contains_ref T b : b ∈ refs T -> Contains (render T) (lit "${") = true.
Proof.
  intros (T1 & T2 & ->)%refs_elem%list_elem_of_split.
  rewrite render_app, render_cons. cbn [renderSeg]. unfold ref. rewrite <- app_assoc. apply Contains_middle.
Qed.

Lemma expandString_none T st : Forall SegOk T -> refs T = [] -> expandString mr (render T) st = (st, inr (VString (render T), false)).
Proof.
  intros HT Hr. unfold expandString. destruct (negb _ || negb _); [done|]. unfold findAndExpandURI.
  assert (HR : Forall RefOk (refs T)) by (rewrite Hr; constructor). rewrite findURI_template by done. unfold firstRef. by rewrite Hr.
Qed.

Lemma expandString_plain s st : Plain s -> expandString mr s st = (st, inr (VString s, false)).
Proof.
  intros Hs. pose proof (expandString_none [Text s] st) as H. rewrite render_cons in H. cbn [renderSeg] in H. rewrite app_nil_r in H.
  apply H; [by apply Forall_singleton|done].
Qed.

Lemma expandString_ref T b l st : Forall SegOk T -> refs T = b :: l -> Forall Known (refs T) -> b ∉ escaped T ->
  exists st', expandString mr (render T) st =
    (st', inr (if bool_decide (ref b = render T) then ExpandedValue (rawConf (ans b)) (val b) else VString (render (substRef b (val b) T)), true)).
Proof.
  intros HT Hr HK Hesc. assert (Hb : b ∈ refs T) by (rewrite Hr; left).
  assert (HB : Body b) by (rewrite Forall_forall in HT; apply (HT _ (refs_elem T b Hb))). unfold expandString. rewrite (Contains_ref T b Hb).
  change (lit "}") with ["}"%char]. rewrite Contains_char, bool_decide_true by by eapply refs_close. cbn [negb orb]. unfold findAndExpandURI.
  assert (HR : Forall RefOk (refs T)) by (eapply Forall_impl; [exact HK|]; intros ? K; apply K).
  rewrite findURI_template by done. unfold firstRef. rewrite Hr in *. apply Forall_cons in HK as [K _].
  destruct (expandURI_known b st K) as [st' Eu]. exists st'. rewrite (bool_decide_false (ref b = [])) by done.
  case_bool_decide as Ew; unfold mbind, M_bind.
  - rewrite <- Ew, Eu, (kn_text b K). done.
  - rewrite Eu, (kn_text b K). by rewrite ReplaceAll_template.
Qed.

Lemma meaning_subst b T : meaning (substRef b (val b) T) = meaning T.
Proof.
  unfold meaning, substRef. induction T as [|s T IH]; [done|]. cbn. rewrite IH. destruct s as [| | |b']; try done.
  case_bool_decide; by subst.
Qed.

(** Without references left, taking the escapes away gives the meaning. *)
Lemma escape_meaning T : Forall SegOk T -> refs T = [] -> ReplaceAll (render T) (lit "$$") (lit "$") = meaning T.
Proof.
  unfold ReplaceAll, meaning. induction 1 as [|s T Hs HT IH]; [done|]. rewrite refs_cons, render_cons. cbn [map concat].
  destruct s as [t| |b|b]; intros Hr; cbn [renderSeg meanSeg]; [..|done].
  - change (lit "$$") with ["$"%char; "$"%char] in *. rewrite replaceFrom_plain by by apply Plain_no_dollar. by rewrite IH.
  - rewrite replaceFrom_hit by done. by rewrite IH.
  - transitivity (replaceFrom (lit "$$") (lit "$") 0 (lit "$$" ++ ("{"%char :: b ++ ["}"%char]) ++ render T)); [done|].
    rewrite replaceFrom_hit by done. change (lit "$$") with ["$"%char; "$"%char] in *. rewrite replaceFrom_plain; [by rewrite IH|].
    apply Forall_cons_2; [done|]. apply Forall_app_2; [apply Plain_no_dollar, Hs|by apply Forall_singleton].
Qed.

Lemma escape_plain s : Plain s -> ReplaceAll s (lit "$$") (lit "$") = s.
Proof. intros Hs. by apply ReplaceAll_none, Plain_no_dollar. Qed.

(** A template that is nothing but one reference. *)
Lemma whole_meaning T b : b ∈ refs T -> ref b = render T -> meaning T = val b.
Proof.
  intros (T1 & T2 & ->)%refs_elem%list_elem_of_split E. rewrite render_app, render_cons in E. cbn [renderSeg] in E.
  assert (Hnil : render T1 = [] /\ render T2 = []).
  { apply (f_equal length) in E. rewrite !length_app in E. split; apply nil_length_inv; lia. }
  assert (Hm : forall T, render T = [] -> meaning T = []).
  { clear. intros T. unfold meaning. induction T as [|s T IH]; [done|]. rewrite render_cons. intros [Hs HT]%app_nil. cbn. rewrite (IH HT).
    destruct s; try done. cbn in *. by subst. }
  unfold meaning in *. rewrite map_app, concat_app. cbn [map concat meanSeg]. rewrite (Hm T1), (Hm T2) by apply Hnil. apply app_nil_r.
Qed.

(** The text with the references replaced; or, if the rest is empty, a value of another
    type with its text. *)
Definition Final (T : list seg) (v : value) : Prop :=
  v = VString (meaning T) \/
  exists b s, b ∈ refs T /\ rawConf (ans b) = VScalar s /\ val b = meaning T /\ v = ExpandedValue (VScalar s) (val b).

Lemma whole_rounds n b st : Known b -> exists st' v,
  expandRounds mr (S n) (ExpandedValue (rawConf (ans b)) (val b)) st = (st', inr v) /\
  escapeDollarSigns v = match rawConf (ans b) with VScalar s => ExpandedValue (VScalar s) (val b) | _ => VString (val b) end.
Proof.
  intros [_ _ _ Hp [E|[s E] ] ]; rewrite E; cbn [expandRounds expandValue]; unfold mbind, M_bind, attempt, mret, M_ret;
    rewrite expandString_plain by done; (eexists st, _; split; [done|]); cbn [escapeDollarSigns]; by rewrite escape_plain.
Qed.

Lemma template_rounds n T st : Forall SegOk T -> Forall Known (refs T) -> (forall b, b ∈ refs T -> b ∉ escaped T) -> (length (refs T) < n)%nat ->
  exists st' v, expandRounds mr n (VString (render T)) st = (st', inr v) /\ Final T (escapeDollarSigns v).
Proof.
  revert T st. induction n as [|n IH]; intros T st HT HK Hesc Hn; [lia|]. cbn [expandRounds expandValue]. unfold mbind, M_bind.
  destruct (refs T) as [|b l] eqn:Hr.
  - rewrite expandString_none by done. exists st, (VString (render T)). split; [done|]. left. cbn. by rewrite escape_meaning.
  - rewrite <- Hr in HK, Hesc. assert (Hb : b ∈ refs T) by (rewrite Hr; left). assert (K : Known b) by by apply (proj1 (Forall_forall _ _) HK).
    destruct (expandString_ref T b l st HT Hr HK (Hesc b Hb)) as [st' ->]. cbn [negb]. case_bool_decide as Ew.
    + destruct n as [|n]; [simpl in Hn; lia|]. destruct (whole_rounds n b st' K) as (st2 & v & -> & Ev). exists st2, v. split; [done|].
      rewrite Ev. pose proof (whole_meaning T b Hb Ew) as Em. destruct (kn_raw b K) as [E|[s E] ]; rewrite E; [left; by rewrite Em|right; eauto 6].
    + assert (Hl : (length (refs (substRef b (val b) T)) < n)%nat).
      { rewrite substRef_refs, Hr, filter_cons. case_decide; [done|]. pose proof (length_filter (fun b' => b' <> b) l). simpl in Hn. lia. }
      assert (Hsub : forall b', b' ∈ refs (substRef b (val b) T) -> b' ∈ refs T) by (intros b'; rewrite substRef_refs; by intros [_ ?]%list_elem_of_filter).
      destruct (IH (substRef b (val b) T) st') as (st2 & v & -> & HF); [apply substRef_ok; [apply K|done]| | |done|].
      * apply Forall_forall. intros b' Hb'. by apply (proj1 (Forall_forall _ _) HK), Hsub.
      * intros b' Hb'. rewrite substRef_escaped. by apply Hesc, Hsub.
      * exists st2, v. split; [done|]. unfold Final in *. rewrite meaning_subst in HF. naive_solver.
Qed.

(** C29: a string of fewer than a thousand references to known plain values, text and
    escapes, none of whose references is also written escaped, is expanded, without
    an error, to its meaning: text as it is, [$$] as [$], an escaped reference as the
    reference itself, and a reference as the text of the provider's answer.  A string
    that is one reference to a value of another type becomes that value, with its text
    kept for string fields. *)
Theorem references_replaced T st : Forall SegOk T -> Forall Known (refs T) -> (forall b, b ∈ refs T -> b ∉ escaped T) -> (length (refs T) < 1000)%nat ->
  (exists st' v, expandValueRecursively mr (VString (render T)) st = (st', inr v) /\ Final T (escapeDollarSigns v)) /\
  forall b s, T = [Ref b] -> rawConf (ans b) = VScalar s ->
    exists st' v, expandValueRecursively mr (VString (render T)) st = (st', inr v) /\ escapeDollarSigns v = ExpandedValue (VScalar s) (val b).
Proof.
  intros HT HK Hesc Hn. split; [by apply template_rounds|]. intros b s -> E. apply Forall_cons in HK as [K _].
  assert (Ew : ref b = render [Ref b]) by by rewrite render_cons, app_nil_r.
  destruct (expandString_ref [Ref b] b [] st HT eq_refl ltac:(by apply Forall_singleton) (Hesc b ltac:(left))) as [st' E1].
  rewrite bool_decide_true in E1 by done. destruct (whole_rounds 998 b st' K) as (st2 & v & E2 & Ev). exists st2, v. rewrite E in Ev. split; [|done].
  rewrite <- E2. unfold expandValueRecursively. change 1000%nat with (S 999). generalize 999%nat. intros n. cbn [expandRounds expandValue].
  unfold mbind at 1, M_bind at 1. by rewrite E1.
Qed.
End Templates.

(** ** An environment with a host, a port and a variable that refers to itself *)
Definition envAnswer (b : str) : Retrieved :=
  if bool_decide (b = lit "PORT") then mkRetrieved (VScalar (SInt 4317)) None None (Some (lit "4317"))
  else if bool_decide (b = lit "LOOP") then mkRetrieved (VString (lit "${LOOP}")) None None (Some (lit "${LOOP}"))
  else mkRetrieved (VString (lit "localhost")) None None (Some (lit "localhost")).

Definition envText (b : str) : str := if bool_decide (b = lit "PORT") then lit "4317" else lit "localhost".

Definition envProvider : Provider := mkProvider (lit "env") (fun _ uri => inr (envAnswer (drop 4 uri))) None.
Definition envResolver : @Resolver unit := mkResolver [] [(lit "env", envProvider)] (lit "env") [].
Definition emptyState : rstate := mkRState 0 [] [] false.

Definition sampleTemplate : list seg :=
  [Text (lit "http://"); Ref (lit "HOST"); Text (lit ":"); Ref (lit "PORT"); Text (lit "/"); Esc; EscRef (lit "USER"); Ref (lit "HOST")].

Lemma env_known b : b = lit "HOST" \/ b = lit "PORT" -> Known envResolver envAnswer envText b.
Proof.
  intros [-> | ->]; (split; [by left|eexists _, envProvider; split_and!; reflexivity|reflexivity|by repeat (constructor; [done|])|]); [by left|by right; eexists].
Qed.

Lemma references_replaced_witness :
  text (render sampleTemplate) = "http://${HOST}:${PORT}/$$$${USER}${HOST}"%string /\
  exists st' v, expandValueRecursively envResolver (VString (render sampleTemplate)) emptyState = (st', inr v) /\
    Final envAnswer envText sampleTemplate (escapeDollarSigns v) /\
    escapeDollarSigns v = VString (lit "http://localhost:4317/$${USER}localhost").
Proof.
  split; [reflexivity|].
  destruct (references_replaced envResolver envAnswer envText sampleTemplate emptyState) as [ (st' & v & E & HF) _].
  - repeat constructor; try done; vm_compute; set_solver.
  - repeat (apply Forall_cons_2; [apply env_known; auto|]). apply Forall_nil_2.
  - intros b Hb. vm_compute in Hb |- *. set_solver.
  - vm_compute. lia.
  - exists st', v. split_and!; [done|done|]. vm_compute in E. injection E as <- <-. reflexivity.
Defined.

(** ** Where the escape is lost

    [ReplaceAll] also replaces the reference inside its escaped form: the same variable
    written once escaped and once not. *)
Theorem escaped_reference_replaced : exists st' v,
  expandValueRecursively envResolver (VString (lit "$${HOST} is ${HOST}")) emptyState = (st', inr v) /\
  escapeDollarSigns v = VString (lit "$localhost is localhost").
Proof. eexists _, _. split; [vm_compute; reflexivity|reflexivity]. Qed.

(** A variable that refers to itself is given up after a thousand rounds. *)
Theorem self_reference_refused :
  (expandValueRecursively envResolver (VString (lit "${LOOP}")) emptyState).2 = inl errTooManyRecursiveExpansions.
Proof. vm_compute. reflexivity. Qed.

(** ** Schemes *)

(** Every location that is parsed has a scheme of the documented form. *)
Lemma newLocation_scheme uri loc : newLocation uri = inr loc -> isScheme (scheme loc) = true /\ asString loc = uri.
Proof.
  unfold newLocation. destruct (Index uri (lit ":")) as [i|] eqn:Ei; [|done]. destruct (isScheme (take i uri)) eqn:Es; [|done].
  intros [= <-]. cbn [scheme]. split; [done|]. unfold asString. cbn [scheme opaqueValue]. clear Es.
  revert i Ei. induction uri as [|c uri IH]; intros i Ei; [done|]. cbn [Index] in Ei. destruct (HasPrefix (c :: uri) (lit ":")) eqn:E.
  - injection Ei as <-. apply HasPrefix_spec in E as [k [= -> ->] ]. cbn. by rewrite drop_0.
  - apply fmap_Some in Ei as (j & Ej & ->). cbn. f_equal. by apply IH.
Qed.

(** The pattern for the schemes of providers is not anchored: a provider is accepted
    with a scheme that no location can have. *)
Theorem scheme_pattern_not_anchored (p : Provider) : Scheme p = lit "1: env" ->
  (exists mr : @Resolver unit, NewResolver (mkResolverSettings [lit "conf.yaml"] [p] [] []) = inr mr /\ map fst (providers mr) = [lit "1: env"]) /\
  forall uri loc, newLocation uri = inr loc -> scheme loc <> lit "1: env".
Proof.
  intros Hs. split.
  - unfold NewResolver. cbn [URIs Providers DefaultScheme length Nat.eqb addProviders]. rewrite Hs. eexists. split; reflexivity.
  - intros uri loc [Hl _]%newLocation_scheme E. rewrite E in Hl. done.
Qed.
