(* ===== verification/RecordUpdate.v ===== *)
(** * Record update

    [m <| field := v |>] is the record [m] with one field changed, as an
    assignment to a field of a Go struct.  A record type lists its constructor and
    fields once, in an instance of [Settable]. *)

From S2P Require Import Prelude.

Definition reader_pure {R A} (x : A) : R -> A := fun _ => x.
Definition reader_ap {R A B} (f : R -> A -> B) (x : R -> A) : R -> B := fun r => f r (x r).

(** [rebuild] takes every field of its argument and builds the record again. *)
Class Settable (R : Type) := {
  rebuild : R -> R;
  rebuild_id : forall r, rebuild r = r;
}.

Notation "'settable!' mk < f1 ; .. ; fn >" :=
  {| rebuild := reader_ap .. (reader_ap (reader_pure mk) f1) .. fn; rebuild_id := ltac:(by intros []) |}
  (at level 0, mk at level 10, f1, fn at level 9, only parsing).

Class Setter {R T : Type} (field : R -> T) := setWith : (T -> T) -> R -> R.
#[global] Arguments setWith {_ _} _ {_} _ _ /.

(** The setter of a field: [rebuild] with the field replaced. *)
Ltac find_setter :=
  lazymatch goal with
  | |- @Setter ?R ?T ?field =>
      let eta := eval hnf in (@rebuild R _) in
      lazymatch eval pattern field in eta with
      | ?abstracted _ => exact (fun f : T -> T => abstracted (fun r => f (field r)))
      end
  end.
#[global] Hint Extern 1 (Setter _) => find_setter : typeclass_instances.

Notation "x <| field := v |>" := (setWith field (fun _ => v) x) (at level 12, left associativity, field at level 9, format "x  <| field  :=  v |>") : otel_scope.
