(* ===== verification/ProtoWire.v ===== *)
(** * Protobuf wire format (pdata/internal/proto)

    [Sov], [EncodeVarint] and the [Consume] functions, on which the generated
    [SizeProto], [MarshalProto] and [UnmarshalProto] methods of OTLP are built.

    A byte is a [Z], a slice of bytes a list.  A call ends with a value, with an
    error, or with a panic (an index or a slice out of range); [OutOfFuel] marks
    a loop that did not end within its fuel and is shown not to occur.

    Marshaling writes a buffer from its end; its operations take and give the
    buffer and the position. *)

From S2P Require Import Prelude Errors Sizers.
Local Open Scope Z_scope.

(** ** Results *)
Inductive res (A : Type) :=
  | Ok (a : A)
  | Err (e : error)
  | Panic
  | OutOfFuel.
Arguments Ok {A} _.
Arguments Err {A} _.
Arguments Panic {A}.
Arguments OutOfFuel {A}.

Definition rbind {A B} (r : res A) (f : A -> res B) : res B :=
  match r with Ok a => f a | Err e => Err e | Panic => Panic | OutOfFuel => OutOfFuel end.

Notation "'let*' x ':=' r 'in' k" := (rbind r (fun x => k))
  (at level 200, x pattern, r at level 100, k at level 200, right associativity) : otel_scope.
Local Open Scope otel_scope.

(** ** Slices *)
Definition len {A} (l : list A) : Z := Z.of_nat (length l).

Definition is_byte (b : Z) : Prop := 0 <= b < 256.
Definition bytes (l : list Z) : Prop := Forall is_byte l.

(** [buf[from:to]]. *)
Definition slice (buf : list Z) (from to : Z) : res (list Z) :=
  if (0 <=? from) && (from <=? to) && (to <=? len buf)
  then Ok (take (Z.to_nat (to - from)) (drop (Z.to_nat from) buf))
  else Panic.

(** [buf[pos]] and [buf[pos] = b]. *)
Definition getByte (buf : list Z) (pos : Z) : res Z :=
  if 0 <=? pos then match buf !! Z.to_nat pos with Some b => Ok b | None => Panic end else Panic.
Definition putByte (buf : list Z) (pos b : Z) : res (list Z) :=
  if (0 <=? pos) && (pos <? len buf) then Ok (<[Z.to_nat pos := b]> buf) else Panic.

(** [copy(buf[pos:], s)]. *)
Definition copyAt (buf : list Z) (pos : Z) (s : list Z) : res (list Z) :=
  if (0 <=? pos) && (pos <=? len buf) then
    let n := Nat.min (length s) (length buf - Z.to_nat pos) in
    Ok (take (Z.to_nat pos) buf ++ take n s ++ drop (Z.to_nat pos + n) buf)
  else Panic.

(** [binary.LittleEndian]: [n] bytes of [v], and back. *)
Fixpoint leBytes (n : nat) (v : Z) : list Z :=
  match n with
  | O => []
  | S n => v mod 256 :: leBytes n (v / 256)
  end.
Fixpoint leValue (l : list Z) : Z :=
  match l with
  | [] => 0
  | b :: l => b + 256 * leValue l
  end.

(** [PutUint64] and [PutUint32] on [buf[pos:]], which must hold the bytes. *)
Definition putUint (n : nat) (buf : list Z) (pos v : Z) : res (list Z) :=
  if (0 <=? pos) && (pos + Z.of_nat n <=? len buf) then copyAt buf pos (leBytes n v) else Panic.

(** ** Integers of 32 bits *)
Definition u32 (z : Z) : Z := z mod 2 ^ 32.
Definition i32 (z : Z) : Z := (z + 2 ^ 31) mod 2 ^ 32 - 2 ^ 31.
Definition is_u32 (z : Z) : Prop := 0 <= z < 2 ^ 32.
Definition is_i32 (z : Z) : Prop := - 2 ^ 31 <= z < 2 ^ 31.

(** ** size.go and marshal.go *)
#[local] Abbreviation Sov := sov.

(** [(x << 1) ^ uint64(int64(x) >> 63)]. *)
Definition Soz (x : Z) : Z := Sov (Z.lxor (u64 (Z.shiftl x 1)) (u64 (Z.shiftr (i64 x) 63))).

Fixpoint encodeVarintLoop (fuel : nat) (buf : list Z) (offset v : Z) : res (list Z) :=
  match fuel with
  | O => OutOfFuel
  | S fuel =>
      if 2 ^ 7 <=? v then
        let* buf := putByte buf offset (Z.lor (Z.land v 127) 128) in
        encodeVarintLoop fuel buf (offset + 1) (Z.shiftr v 7)
      else putByte buf offset v
  end.

(** The buffer afterwards and the position of the first byte; an integer of 64
    bits takes at most ten rounds. *)
Definition EncodeVarint (buf : list Z) (offset v : Z) : res (list Z * Z) :=
  let offset := offset - Sov v in
  let* buf := encodeVarintLoop 10 buf offset v in
  Ok (buf, offset).

(** ** unmarshal.go *)
Definition WireTypeVarint : Z := 0.
Definition WireTypeI64 : Z := 1.
Definition WireTypeLen : Z := 2.
Definition WireTypeStartGroup : Z := 3.
Definition WireTypeEndGroup : Z := 4.
Definition WireTypeI32 : Z := 5.

Definition RecursionLimit : nat := 100.

Definition ErrInvalidLength : error := New "proto: negative length found during unmarshaling".
Definition ErrIntOverflow : error := New "proto: integer overflow".
Definition ErrRecursionDepth : error := New "proto: exceeded max recursion depth".
Definition ErrUnexpectedEndOfGroup : error := New "proto: unexpected end of group".
Definition ErrUnexpectedEOF : error := New "unexpected EOF".

Fixpoint consumeVarintLoop (fuel : nat) (buf : list Z) (pos shift num : Z) : res (Z * Z) :=
  match fuel with
  | O => OutOfFuel
  | S fuel =>
      if 64 <=? shift then Err ErrIntOverflow
      else if len buf <=? pos then Err ErrUnexpectedEOF
      else
        let* b := getByte buf pos in
        let pos := pos + 1 in
        let num := Z.lor num (u64 (Z.shiftl (Z.land b 127) shift)) in
        if b <? 128 then Ok (num, pos) else consumeVarintLoop fuel buf pos (shift + 7) num
  end.

(** The shift passes 64 in the eleventh round. *)
Definition ConsumeVarint (buf : list Z) (pos : Z) : res (Z * Z) := consumeVarintLoop 11 buf pos 0 0.

Definition ConsumeI64 (buf : list Z) (pos : Z) : res (Z * Z) :=
  let pos := i64 (pos + 8) in
  if (pos <? 0) || (len buf <? pos) then Err ErrUnexpectedEOF
  else let* b := slice buf (pos - 8) pos in Ok (leValue b, pos).

Definition ConsumeI32 (buf : list Z) (pos : Z) : res (Z * Z) :=
  let pos := i64 (pos + 4) in
  if (pos <? 0) || (len buf <? pos) then Err ErrUnexpectedEOF
  else let* b := slice buf (pos - 4) pos in Ok (leValue b, pos).

Definition ConsumeLen (buf : list Z) (pos : Z) : res (Z * Z) :=
  let* (num, pos) := ConsumeVarint buf pos in
  let length := i64 num in
  if length <? 0 then Err ErrInvalidLength
  else
    let pos := i64 (pos + length) in
    if (pos <? 0) || (len buf <? pos) then Err ErrUnexpectedEOF else Ok (length, pos).

Definition ConsumeTag (buf : list Z) (pos : Z) : res (Z * Z * Z) :=
  let* (tag, pos) := ConsumeVarint buf pos in
  let fieldNum := i32 (Z.shiftr tag 3) in
  let wireType := Z.land tag 7 in
  if fieldNum <=? 0 then
    Err (Errorf "proto: Link: illegal field=%d (tag=%d, pos=%d)" [ArgZ fieldNum; ArgZ tag; ArgZ pos])
  else Ok (fieldNum, wireType, pos).

(** Each round of the loop but the last consumes a tag. *)
Fixpoint consumeUnknownLoop (fuel : nat) (buf : list Z) (pos wireType depth : Z) : res Z :=
  match fuel with
  | O => OutOfFuel
  | S fuel =>
      if len buf <=? pos then Err ErrUnexpectedEOF
      else if wireType =? WireTypeVarint then let* (_, pos) := ConsumeVarint buf pos in Ok pos
      else if wireType =? WireTypeI64 then let* (_, pos) := ConsumeI64 buf pos in Ok pos
      else if wireType =? WireTypeLen then let* (_, pos) := ConsumeLen buf pos in Ok pos
      else if wireType =? WireTypeI32 then let* (_, pos) := ConsumeI32 buf pos in Ok pos
      else if wireType =? WireTypeStartGroup then
        let* (_, wireType, pos) := ConsumeTag buf pos in
        consumeUnknownLoop fuel buf pos wireType (depth + 1)
      else if wireType =? WireTypeEndGroup then
        if depth =? 0 then Err ErrUnexpectedEndOfGroup
        else
          let depth := depth - 1 in
          if depth =? 0 then Ok pos
          else
            let* (_, wireType, pos) := ConsumeTag buf pos in
            consumeUnknownLoop fuel buf pos wireType depth
      else Err (Errorf "proto: illegal wireType %d" [ArgZ wireType])
  end.

Definition ConsumeUnknown (buf : list Z) (pos wireType : Z) : res Z :=
  consumeUnknownLoop (S (length buf)) buf pos wireType 0.
