(* ===== verification/ProtoWireProofs.v ===== *)
(** * Proofs about the wire format

    The bytes of a varint, that [EncodeVarint] writes exactly them in the room
    [Sov] computes, that [ConsumeVarint] reads them back, and that no [Consume]
    function panics or runs away on any input. *)

From S2P Require Import Prelude Errors Sizers ProtoWire.
Local Open Scope Z_scope.
Local Open Scope otel_scope.

(** ** Lists *)
Lemma len_nonneg {A} (l : list A) : 0 <= len l.
Proof. unfold len. lia. Qed.

Lemma len_app {A} (a b : list A) : len (a ++ b) = len a + len b.
Proof. unfold len. rewrite length_app. lia. Qed.

Lemma len_cons {A} (x : A) l : len (x :: l) = 1 + len l.
Proof. unfold len. simpl. lia. Qed.

Lemma to_nat_len {A} (l : list A) : Z.to_nat (len l) = length l.
Proof. unfold len. lia. Qed.

#[export] Hint Resolve len_nonneg : otel.
#[export] Hint Rewrite @len_app @len_cons @to_nat_len : otel_len.

Lemma bytes_app a b : bytes (a ++ b) <-> bytes a /\ bytes b.
Proof. apply Forall_app. Qed.

Lemma slice_app pre mid post : slice (pre ++ mid ++ post) (len pre) (len pre + len mid) = Ok mid.
Proof.
  unfold slice. rewrite !len_app. pose proof (len_nonneg pre). pose proof (len_nonneg mid). pose proof (len_nonneg post).
  replace ((0 <=? len pre) && (len pre <=? len pre + len mid) && (len pre + len mid <=? len pre + (len mid + len post))) with true
    by (symmetry; rewrite !andb_true_iff, !Z.leb_le; lia).
  replace (len pre + len mid - len pre) with (len mid) by lia.
  by rewrite !to_nat_len, drop_app_length, take_app_length.
Qed.

Lemma slice_ok buf from to : 0 <= from <= to -> to <= len buf ->
  exists s, slice buf from to = Ok s /\ len s = to - from /\ (bytes buf -> bytes s).
Proof.
  intros H1 H2. unfold slice. replace ((0 <=? from) && (from <=? to) && (to <=? len buf)) with true
    by (symmetry; rewrite !andb_true_iff, !Z.leb_le; lia).
  eexists. split; [reflexivity|]. split.
  - unfold len in *. rewrite length_take, length_drop. lia.
  - intros Hb. by apply Forall_take, Forall_drop.
Qed.

Lemma getByte_app pre b post : getByte (pre ++ b :: post) (len pre) = Ok b.
Proof.
  unfold getByte. pose proof (len_nonneg pre). destruct (Z.leb_spec 0 (len pre)); [|lia].
  by rewrite to_nat_len, lookup_app_r, Nat.sub_diag by lia.
Qed.

Lemma getByte_ok buf pos : 0 <= pos < len buf -> exists b, getByte buf pos = Ok b /\ (bytes buf -> is_byte b).
Proof.
  intros H. unfold getByte. destruct (Z.leb_spec 0 pos); [|lia].
  destruct (lookup_lt_is_Some_2 buf (Z.to_nat pos)) as [b Hb]; [unfold len in H; lia|].
  exists b. rewrite Hb. split; [done|]. intros Hall. unfold bytes in Hall. rewrite Forall_forall in Hall.
  apply Hall. by apply list_elem_of_lookup_2 in Hb.
Qed.

Lemma putByte_app pre x post b : putByte (pre ++ x :: post) (len pre) b = Ok (pre ++ b :: post).
Proof.
  unfold putByte. rewrite len_app, len_cons. pose proof (len_nonneg pre). pose proof (len_nonneg post).
  replace ((0 <=? len pre) && (len pre <? len pre + (1 + len post))) with true
    by (symmetry; rewrite andb_true_iff, Z.leb_le, Z.ltb_lt; lia).
  rewrite to_nat_len, insert_app_r_alt, Nat.sub_diag by lia. done.
Qed.

Lemma copyAt_app pre mid post s : length mid = length s -> copyAt (pre ++ mid ++ post) (len pre) s = Ok (pre ++ s ++ post).
Proof.
  intros Hl. unfold copyAt. rewrite len_app. pose proof (len_nonneg pre). pose proof (len_nonneg (mid ++ post)).
  replace ((0 <=? len pre) && (len pre <=? len pre + len (mid ++ post))) with true
    by (symmetry; rewrite andb_true_iff, !Z.leb_le; lia).
  rewrite to_nat_len, take_app_length, !length_app.
  replace (Nat.min (length s) (length pre + (length mid + length post) - length pre)) with (length mid) by lia.
  rewrite <- drop_drop, drop_app_length, drop_app_length. by rewrite take_ge by lia.
Qed.

(** The last [k] elements of the room before the position. *)
Lemma split_room {A} (pre : list A) k :
  0 <= k <= len pre -> exists a b, pre = a ++ b /\ len a = len pre - k /\ len b = k /\ take (Z.to_nat (len pre - k)) pre = a.
Proof.
  intros H. exists (take (Z.to_nat (len pre - k)) pre), (drop (Z.to_nat (len pre - k)) pre).
  rewrite take_drop. unfold len in *. rewrite length_take, length_drop. split_and!; [done|lia..|done].
Qed.

(** ** Little-endian integers *)
Lemma length_leBytes n v : length (leBytes n v) = n.
Proof. revert v. induction n; intros; simpl; auto. Qed.

Lemma leBytes_bytes n v : bytes (leBytes n v).
Proof. revert v. induction n; intros; constructor; [apply Z.mod_pos_bound; lia|apply IHn]. Qed.

Lemma leValue_leBytes n v : 0 <= v < 2 ^ (8 * Z.of_nat n) -> leValue (leBytes n v) = v.
Proof.
  revert v. induction n as [|n IH]; intros v Hv; [simpl in *; lia|]. cbn [leBytes leValue].
  rewrite IH; [pose proof (Z.div_mod v 256 ltac:(lia)); lia|].
  replace (8 * Z.of_nat (S n)) with (8 * Z.of_nat n + 8) in Hv by lia. rewrite Z.pow_add_r in Hv by lia.
  split; [apply Z.div_pos; lia|apply Z.div_lt_upper_bound; lia].
Qed.

Lemma leValue_range l : bytes l -> 0 <= leValue l < 2 ^ (8 * len l).
Proof.
  induction 1 as [|b l Hb _ IH]; [done|]. rewrite len_cons. cbn [leValue]. unfold is_byte in Hb.
  replace (8 * (1 + len l)) with (8 + 8 * len l) by lia. rewrite Z.pow_add_r by (pose proof (len_nonneg l); lia). lia.
Qed.

(** ** Varints *)
Fixpoint varintBytes (n : nat) (v : Z) : list Z :=
  match n with
  | O => []
  | S n => if 2 ^ 7 <=? v then Z.lor (Z.land v 127) 128 :: varintBytes n (Z.shiftr v 7) else [v]
  end.
Definition varint (v : Z) : list Z := varintBytes 10 v.

Lemma shiftr7 v : Z.shiftr v 7 = v / 128.
Proof. by rewrite Z.shiftr_div_pow2 by lia. Qed.

Lemma land127 v : Z.land v 127 = v mod 128.
Proof. change 127 with (Z.ones 7). by rewrite Z.land_ones by lia. Qed.

Lemma lor128 v : 0 <= v < 128 -> Z.lor v 128 = v + 128.
Proof.
  intros H. symmetry. apply Z.add_nocarry_lor. apply Z.bits_inj'. intros n Hn. rewrite Z.land_spec, Z.bits_0.
  change 128 with (2 ^ 7). rewrite Z.pow2_bits_eqb by lia. destruct (Z.eqb_spec 7 n) as [<-|]; [|apply andb_false_r].
  rewrite andb_true_r. apply Z.bits_above_log2; [lia|]. destruct (decide (v = 0)) as [->|]; [done|].
  apply Z.log2_lt_pow2; lia.
Qed.

Lemma sov_small v : 0 <= v < 128 -> sov v = 1.
Proof.
  intros H. unfold sov, Len64. rewrite Z.log2_lor by lia.
  assert (Z.lor v 1 <> 0) by (rewrite lor_1; lia). destruct (Z.eqb_spec (Z.lor v 1) 0); [done|].
  assert (0 <= Z.log2 v <= 6).
  { split; [apply Z.log2_nonneg|]. destruct (decide (v = 0)) as [->|]; [simpl; lia|].
    assert (Z.log2 v < 7) by (apply Z.log2_lt_pow2; lia). lia. }
  change (Z.log2 1) with 0. replace (Z.max (Z.log2 v) 0) with (Z.log2 v) by lia.
  symmetry. apply Z.div_unique with (Z.log2 v); lia.
Qed.

Lemma sov_step v : 128 <= v -> sov v = 1 + sov (v / 128).
Proof.
  intros H. unfold sov, Len64. assert (Hp : 0 <= v / 128) by (apply Z.div_pos; lia).
  destruct (Z.eqb_spec (Z.lor v 1) 0) as [E|_]; [rewrite lor_1 in E; pose proof (Z.div_pos v 2); lia|].
  destruct (Z.eqb_spec (Z.lor (v / 128) 1) 0) as [E|_]; [rewrite lor_1 in E; pose proof (Z.div_pos (v / 128) 2); lia|].
  rewrite !Z.log2_lor by lia. change (Z.log2 1) with 0. rewrite <- shiftr7, Z.log2_shiftr by lia.
  assert (7 <= Z.log2 v) by (change 7 with (Z.log2 128); by apply Z.log2_le_mono).
  replace (Z.max (Z.log2 v) 0 + 1 + 6) with (Z.max (Z.max 0 (Z.log2 v - 7)) 0 + 1 + 6 + 1 * 7) by lia.
  rewrite Z.div_add by lia. lia.
Qed.

Lemma len_varintBytes n v : 0 <= v < 2 ^ (7 * Z.of_nat n) -> (0 < n)%nat -> len (varintBytes n v) = sov v.
Proof.
  revert v. induction n as [|n IH]; intros v Hv Hn; [lia|]. cbn [varintBytes]. change (2 ^ 7) with 128.
  destruct (Z.leb_spec 128 v) as [Hge|Hlt]; [|rewrite sov_small by lia; done].
  replace (7 * Z.of_nat (S n)) with (7 * Z.of_nat n + 7) in Hv by lia. rewrite Z.pow_add_r in Hv by lia.
  rewrite len_cons, shiftr7, IH, (sov_step v); [done|lia| |destruct n; simpl in *; lia].
  split; [apply Z.div_pos; lia|apply Z.div_lt_upper_bound; lia].
Qed.

Lemma len_varint v : is_u64 v -> len (varint v) = sov v.
Proof. unfold is_u64. intros H. apply len_varintBytes; [simpl; lia|lia]. Qed.

Lemma varintBytes_bytes n v : 0 <= v -> bytes (varintBytes n v).
Proof.
  revert v. induction n as [|n IH]; intros v Hv; [constructor|]. cbn [varintBytes]. change (2 ^ 7) with 128.
  destruct (Z.leb_spec 128 v); [|repeat constructor; unfold is_byte; lia].
  rewrite land127, shiftr7. pose proof (Z.mod_pos_bound v 128 ltac:(lia)). rewrite lor128 by lia.
  constructor; [unfold is_byte; lia|]. apply IH, Z.div_pos; lia.
Qed.

Lemma varintBytes_ne n v : (0 < n)%nat -> varintBytes n v <> [].
Proof. destruct n; [lia|]. cbn [varintBytes]. by destruct (_ <=? _). Qed.

(** *** Writing *)
Lemma encodeVarintLoop_app n v pre mid post :
  0 <= v < 2 ^ (7 * Z.of_nat n) -> (0 < n)%nat -> length mid = length (varintBytes n v) ->
  encodeVarintLoop n (pre ++ mid ++ post) (len pre) v = Ok (pre ++ varintBytes n v ++ post).
Proof.
  revert v pre mid. induction n as [|n IH]; intros v pre mid Hv Hn Hl; [lia|].
  cbn [encodeVarintLoop varintBytes] in *. change (2 ^ 7) with 128 in *.
  destruct (Z.leb_spec 128 v) as [Hge|Hlt]; destruct mid as [|x mid]; try done; simpl in Hl; injection Hl as Hl; cbn [app].
  - rewrite putByte_app. cbn [rbind].
    replace (7 * Z.of_nat (S n)) with (7 * Z.of_nat n + 7) in Hv by lia. rewrite Z.pow_add_r in Hv by lia.
    set (b := Z.lor (Z.land v 127) 128).
    replace (len pre + 1) with (len (pre ++ [b])) by (rewrite len_app; done).
    replace (pre ++ b :: mid ++ post) with ((pre ++ [b]) ++ mid ++ post) by (by rewrite <- app_assoc).
    rewrite IH; [by rewrite <- app_assoc|..|done].
    + rewrite shiftr7. split; [apply Z.div_pos; lia|apply Z.div_lt_upper_bound; lia].
    + destruct n; [simpl in *; lia|lia].
  - destruct mid; [|done]. by rewrite putByte_app.
Qed.

Lemma EncodeVarint_app v pre room post :
  is_u64 v -> len room = sov v ->
  EncodeVarint (pre ++ room ++ post) (len pre + len room) v = Ok (pre ++ varint v ++ post, len pre).
Proof.
  intros Hv Hr. unfold EncodeVarint. replace (len pre + len room - sov v) with (len pre) by lia.
  rewrite encodeVarintLoop_app; [done|unfold is_u64 in Hv; simpl; lia|lia|].
  pose proof (len_varint v Hv). unfold len, varint in *. lia.
Qed.

(** *** Reading *)
Lemma lor_shiftl a x s : 0 <= s -> 0 <= a < 2 ^ s -> 0 <= x -> Z.lor a (Z.shiftl x s) = a + x * 2 ^ s.
Proof.
  intros Hs Ha Hx. rewrite Z.shiftl_mul_pow2 by lia. symmetry. apply Z.add_nocarry_lor. apply Z.bits_inj'. intros n Hn.
  rewrite Z.land_spec, Z.bits_0. destruct (Z.ltb_spec n s).
  - rewrite Z.mul_pow2_bits_low by lia. apply andb_false_r.
  - destruct (decide (a = 0)) as [->|]; [by rewrite Z.bits_0|].
    assert (Z.log2 a < s) by (apply Z.log2_lt_pow2; lia). by rewrite (Z.bits_above_log2 a) by lia.
Qed.

Lemma consumeVarintLoop_app n v pre post shift num :
  0 <= v < 2 ^ (7 * Z.of_nat n) -> (0 < n)%nat -> 0 <= shift -> shift + 7 * Z.of_nat n <= 70 ->
  0 <= num < 2 ^ shift -> v * 2 ^ shift < 2 ^ 64 ->
  consumeVarintLoop (S n) (pre ++ varintBytes n v ++ post) (len pre) shift num =
    Ok (num + v * 2 ^ shift, len pre + len (varintBytes n v)).
Proof.
  revert v pre shift num. induction n as [|n IH]; intros v pre shift num Hv Hn Hs Hsn Hnum Hfit; [lia|].
  remember (S n) as fuel eqn:Ef. cbn [consumeVarintLoop]. subst fuel. cbn [varintBytes]. change (2 ^ 7) with 128.
  destruct (Z.leb_spec 64 shift); [lia|].
  replace (7 * Z.of_nat (S n)) with (7 * Z.of_nat n + 7) in * by lia. rewrite Z.pow_add_r in Hv by lia. change (2 ^ 7) with 128 in Hv.
  assert (H2s : 0 < 2 ^ shift) by (apply Z.pow_pos_nonneg; lia).
  assert (Hone : forall b rest, 0 <= b mod 128 -> (b mod 128) * 2 ^ shift < 2 ^ 64 ->
    (if len (pre ++ (b :: rest) ++ post) <=? len pre then Err ErrUnexpectedEOF
     else rbind (getByte (pre ++ (b :: rest) ++ post) (len pre)) (fun b0 =>
       if b0 <? 128 then Ok (Z.lor num (u64 (Z.shiftl (Z.land b0 127) shift)), len pre + 1)
       else consumeVarintLoop (S n) (pre ++ (b :: rest) ++ post) (len pre + 1) (shift + 7)
              (Z.lor num (u64 (Z.shiftl (Z.land b0 127) shift))))) =
    (if b <? 128 then Ok (num + (b mod 128) * 2 ^ shift, len pre + 1)
     else consumeVarintLoop (S n) ((pre ++ [b]) ++ rest ++ post) (len (pre ++ [b])) (shift + 7)
            (num + (b mod 128) * 2 ^ shift))).
  { intros b rest Hb0 Hb. rewrite len_app, len_app, len_cons. pose proof (len_nonneg rest). pose proof (len_nonneg post).
    destruct (Z.leb_spec (len pre + (1 + len rest + len post)) (len pre)); [lia|]. cbn [app].
    rewrite getByte_app. cbn [rbind].
    rewrite u64_id by (unfold is_u64; rewrite Z.shiftl_mul_pow2, land127 by lia; lia).
    rewrite lor_shiftl, land127 by (rewrite ?land127; lia).
    destruct (b <? 128); [done|]. rewrite len_app. by rewrite <- app_assoc. }
  destruct (Z.leb_spec 128 v) as [Hge|Hlt].
  - pose proof (Z.mod_pos_bound v 128 ltac:(lia)). pose proof (Z.div_mod v 128 ltac:(lia)).
    assert (0 <= v / 128) by (apply Z.div_pos; lia).
    assert (Hb : Z.lor (Z.land v 127) 128 = v mod 128 + 128) by (rewrite land127; apply lor128; lia).
    assert (Hbm : (v mod 128 + 128) mod 128 = v mod 128)
      by (rewrite <- (Z.mul_1_l 128) at 2; rewrite Z.mod_add by lia; apply Z.mod_mod; lia).
    rewrite Hb. rewrite Hone by (rewrite Hbm; nia). rewrite Hbm.
    destruct (Z.ltb_spec (v mod 128 + 128) 128); [lia|]. rewrite shiftr7.
    rewrite IH.
    + rewrite len_app, !len_cons. change (len (@nil Z)) with 0.
      f_equal. f_equal; [rewrite Z.pow_add_r by lia; change (2 ^ 7) with 128; nia|lia].
    + split; [lia|]. apply Z.div_lt_upper_bound; lia.
    + destruct n; [simpl in *; lia|lia].
    + lia.
    + lia.
    + rewrite Z.pow_add_r by lia. change (2 ^ 7) with 128. nia.
    + rewrite Z.pow_add_r by lia. change (2 ^ 7) with 128. nia.
  - assert (Hm : v mod 128 = v) by (apply Z.mod_small; lia).
    change ([v] ++ post) with ((v :: []) ++ post). rewrite Hone by (rewrite Hm; lia). rewrite Hm.
    destruct (Z.ltb_spec v 128); [done|lia].
Qed.

Lemma ConsumeVarint_app pre v post : is_u64 v ->
  ConsumeVarint (pre ++ varint v ++ post) (len pre) = Ok (v, len pre + len (varint v)).
Proof.
  unfold is_u64, ConsumeVarint, varint. intros Hv.
  rewrite (consumeVarintLoop_app 10) by (simpl; lia). f_equal. f_equal. lia.
Qed.

(** ** Any input

    A result that is no panic, ends, and has [Q] when it is a value. *)
Definition Safe {A} (Q : A -> Prop) (r : res A) : Prop :=
  match r with Ok a => Q a | Err _ => True | Panic | OutOfFuel => False end.

Lemma Safe_bind {A B} (P : A -> Prop) (Q : B -> Prop) r f :
  Safe P r -> (forall a, P a -> Safe Q (f a)) -> Safe Q (rbind r f).
Proof. destruct r; simpl; auto. Qed.

Lemma Safe_impl {A} (P Q : A -> Prop) r : Safe P r -> (forall a, P a -> Q a) -> Safe Q r.
Proof. destruct r; simpl; auto. Qed.

(** Lengths of slices are Go [int]s. *)
Definition fits (buf : list Z) : Prop := len buf < 2 ^ 63.

Lemma lor_u64 a b : is_u64 a -> is_u64 b -> is_u64 (Z.lor a b).
Proof.
  unfold is_u64. intros [Ha1 Ha2] [Hb1 Hb2]. split; [by apply Z.lor_nonneg|].
  destruct (decide (Z.lor a b = 0)) as [->|]; [lia|].
  assert (0 <= Z.lor a b) by by apply Z.lor_nonneg.
  apply Z.log2_lt_pow2; [lia|]. rewrite Z.log2_lor by lia.
  assert (Hlog : forall x, 0 <= x < 2 ^ 64 -> Z.log2 x < 64).
  { intros x Hx. destruct (decide (x = 0)) as [->|]; [done|]. apply Z.log2_lt_pow2; lia. }
  pose proof (Hlog a ltac:(lia)). pose proof (Hlog b ltac:(lia)). lia.
Qed.

Lemma consumeVarintLoop_safe fuel buf pos shift num :
  0 <= pos -> 64 <= shift + 7 * (Z.of_nat fuel - 1) -> (0 < fuel)%nat -> is_u64 num ->
  Safe (fun '(v, p) => pos < p <= len buf /\ is_u64 v) (consumeVarintLoop fuel buf pos shift num).
Proof.
  revert pos shift num. induction fuel as [|fuel IH]; intros pos shift num Hp Hs Hf Hn; [lia|]. cbn [consumeVarintLoop].
  destruct (Z.leb_spec 64 shift); [done|]. destruct (Z.leb_spec (len buf) pos); [done|].
  destruct (getByte_ok buf pos) as (b & Eb & _); [lia|]. rewrite Eb. cbn [rbind].
  assert (Hn' : is_u64 (Z.lor num (u64 (Z.shiftl (Z.land b 127) shift)))) by (apply lor_u64; [done|apply u64_range]).
  destruct (b <? 128); [split; [lia|done]|].
  eapply Safe_impl; [apply IH; [lia| |lia|done]|]; [lia|]. intros [v p] [? ?]. split; [lia|done].
Qed.

Lemma ConsumeVarint_safe buf pos : 0 <= pos ->
  Safe (fun '(v, p) => pos < p <= len buf /\ is_u64 v) (ConsumeVarint buf pos).
Proof. intros. apply consumeVarintLoop_safe; [done|simpl; lia|lia|unfold is_u64; lia]. Qed.

Lemma i64_neg z : 2 ^ 63 <= z < 2 ^ 64 -> i64 z = z - 2 ^ 64.
Proof.
  intros H. unfold i64. replace (z + 2 ^ 63) with (z - 2 ^ 63 + 1 * 2 ^ 64) by lia.
  rewrite Z.mod_add, Z.mod_small by lia. lia.
Qed.

Lemma consume_fixed_safe buf pos n :
  0 <= pos <= len buf -> fits buf -> 0 < n < 2 ^ 62 ->
  Safe (fun '(v, p) => pos < p <= len buf /\ True)
    (let p := i64 (pos + n) in
     if (p <? 0) || (len buf <? p) then Err ErrUnexpectedEOF else let* b := slice buf (p - n) p in Ok (leValue b, p)).
Proof.
  unfold fits. intros Hp Hf Hn. cbv zeta. destruct (decide (pos + n < 2 ^ 63)) as [Hlt|Hge].
  - rewrite i64_id by (unfold is_i64; lia). destruct (Z.ltb_spec (pos + n) 0); [lia|]. destruct (Z.ltb_spec (len buf) (pos + n)); [done|].
    simpl. destruct (slice_ok buf (pos + n - n) (pos + n)) as (s & -> & _); [lia..|]. simpl. lia.
  - rewrite i64_neg by lia. destruct (Z.ltb_spec (pos + n - 2 ^ 64) 0); [done|lia].
Qed.

Lemma ConsumeI64_safe buf pos : 0 <= pos <= len buf -> fits buf ->
  Safe (fun '(_, p) => pos < p <= len buf /\ True) (ConsumeI64 buf pos).
Proof. intros. by apply (consume_fixed_safe buf pos 8). Qed.

Lemma ConsumeI32_safe buf pos : 0 <= pos <= len buf -> fits buf ->
  Safe (fun '(_, p) => pos < p <= len buf /\ True) (ConsumeI32 buf pos).
Proof. intros. by apply (consume_fixed_safe buf pos 4). Qed.

Lemma ConsumeLen_safe buf pos : 0 <= pos <= len buf -> fits buf ->
  Safe (fun '(n, p) => 0 <= n /\ pos < p - n /\ p <= len buf) (ConsumeLen buf pos).
Proof.
  unfold fits. intros Hp Hf. unfold ConsumeLen. eapply Safe_bind; [apply ConsumeVarint_safe; lia|].
  intros [v p] [Hp1 Hv]. cbv beta iota zeta. destruct (Z.ltb_spec (i64 v) 0); [done|].
  pose proof (i64_range v) as [_ Hi]. destruct (decide (p + i64 v < 2 ^ 63)) as [Hlt|Hge].
  - rewrite (i64_id (p + i64 v)) by (unfold is_i64; lia). destruct (Z.ltb_spec (p + i64 v) 0); [lia|].
    destruct (Z.ltb_spec (len buf) (p + i64 v)); [done|]. simpl. lia.
  - rewrite (i64_neg (p + i64 v)) by lia. destruct (Z.ltb_spec (p + i64 v - 2 ^ 64) 0); [done|lia].
Qed.

Lemma ConsumeTag_safe buf pos : 0 <= pos ->
  Safe (fun '(fn, wt, p) => 0 < fn /\ 0 <= wt < 8 /\ pos < p <= len buf) (ConsumeTag buf pos).
Proof.
  intros Hp. unfold ConsumeTag. eapply Safe_bind; [by apply ConsumeVarint_safe|]. intros [tag p] [Hp1 _].
  cbv beta iota zeta. destruct (Z.leb_spec (i32 (Z.shiftr tag 3)) 0); [done|]. simpl.
  change 7 with (Z.ones 3). rewrite Z.land_ones by lia. pose proof (Z.mod_pos_bound tag (2 ^ 3) ltac:(lia)). lia.
Qed.

Lemma consumeUnknownLoop_safe fuel buf pos wireType depth :
  0 <= pos <= len buf -> fits buf -> len buf - pos < Z.of_nat fuel ->
  Safe (fun p => pos <= p <= len buf) (consumeUnknownLoop fuel buf pos wireType depth).
Proof.
  revert pos wireType depth. induction fuel as [|fuel IH]; intros pos wireType depth Hp Hf Hm; [lia|].
  cbn [consumeUnknownLoop]. destruct (Z.leb_spec (len buf) pos); [done|].
  assert (Hgroup : forall d, Safe (fun p => pos <= p <= len buf)
    (let* (_, wt, p) := ConsumeTag buf pos in consumeUnknownLoop fuel buf p wt d)).
  { intros d. eapply Safe_bind; [apply ConsumeTag_safe; lia|]. intros [ [fn wt] p] (_ & _ & ?).
    eapply Safe_impl; [apply IH; [lia|done|lia]|]. intros. simpl in *. lia. }
  repeat match goal with |- context [if ?b then _ else _] => destruct b end; try done; try apply Hgroup.
  - eapply Safe_bind; [apply ConsumeVarint_safe; lia|]. intros [v p] [? _]. simpl. lia.
  - eapply Safe_bind; [apply ConsumeI64_safe; [lia|done]|]. intros [v p] [? _]. simpl. lia.
  - eapply Safe_bind; [apply ConsumeLen_safe; [lia|done]|]. intros [v p] (? & ? & ?). simpl. lia.
  - eapply Safe_bind; [apply ConsumeI32_safe; [lia|done]|]. intros [v p] [? _]. simpl. lia.
  - simpl. lia.
Qed.

Lemma ConsumeUnknown_safe buf pos wireType : 0 <= pos <= len buf -> fits buf ->
  Safe (fun p => pos <= p <= len buf) (ConsumeUnknown buf pos wireType).
Proof. intros Hp Hf. apply consumeUnknownLoop_safe; [done|done|]. unfold len in *. lia. Qed.
