(* ===== verification/ProtoFields.v ===== *)
(** * Fields of protobuf messages

    The generated methods of pdata/internal repeat a few snippets for each field;
    here is one definition per snippet (to size, write and read a field of a
    kind), the loop of [UnmarshalProto], and what each does to the bytes.

    [W] is a piece of [MarshalProto]: it takes the buffer and [pos], and gives
    both back.  [Writes w out] says that it puts [out] before [pos]. *)

From S2P Require Import Prelude Errors Sizers ProtoWire ProtoWireProofs.
Local Open Scope Z_scope.
Local Open Scope otel_scope.

Create HintDb proto discriminated.

(** ** SizeProto

    [n += tag + proto.Sov(uint64(l)) + l]. *)
Definition sizeLen (tag l : Z) : Z := tag + sov l + l.

(** The loops over repeated fields. *)
Definition sizeRepeated {A} (size : A -> Z) (l : list A) : Z := foldr (fun x n => size x + n) 0 l.

(** ** MarshalProto *)
Definition W : Type := list Z * Z -> res (list Z * Z).

Definition wSkip : W := Ok.
Definition wSeq (w1 w2 : W) : W := fun s => let* s := w1 s in w2 s.
Notation "w1 >;> w2" := (wSeq w1 w2) (at level 61, left associativity) : otel_scope.
Definition wWhen (b : bool) (w : W) : W := if b then w else wSkip.

(** [pos--; buf[pos] = b]. *)
Definition wByte (b : Z) : W := fun '(buf, pos) => let* buf := putByte buf (pos - 1) b in Ok (buf, pos - 1).

(** [pos = proto.EncodeVarint(buf, pos, v)]. *)
Definition wVarint (v : Z) : W := fun '(buf, pos) => EncodeVarint buf pos v.

(** [pos -= len(s); copy(buf[pos:], s)]. *)
Definition wCopy (s : list Z) : W := fun '(buf, pos) => let* buf := copyAt buf (pos - len s) s in Ok (buf, pos - len s).

(** [pos -= n; binary.LittleEndian.PutUint(buf[pos:], v)]. *)
Definition wFixed (n : nat) (v : Z) : W :=
  fun '(buf, pos) => let* buf := putUint n buf (pos - Z.of_nat n) v in Ok (buf, pos - Z.of_nat n).

(** [l = m.MarshalProto(buf[:pos]); pos -= l], which writes in the same array. *)
Definition wInner (marshal : list Z -> res (Z * list Z)) : W :=
  fun '(buf, pos) =>
    let* pre := slice buf 0 pos in
    let* (l, pre) := marshal pre in
    let buf := pre ++ drop (Z.to_nat pos) buf in
    let pos := pos - l in
    EncodeVarint buf pos (u64 l).

(** The whole snippets, with the write of the tag: strings and bytes, messages,
    integers, fixed integers; and the loops, from the last element. *)
Definition wLen (tag : W) (s : list Z) : W := wCopy s >;> wVarint (len s) >;> tag.
Definition wMsg (tag : W) (marshal : list Z -> res (Z * list Z)) : W := wInner marshal >;> tag.
Definition wInt (tag : W) (v : Z) : W := wVarint (u64 v) >;> tag.
Definition wI64 (tag : W) (v : Z) : W := wFixed 8 v >;> tag.
Definition wI32 (tag : W) (v : Z) : W := wFixed 4 v >;> tag.
Fixpoint wRepeated {A} (w : A -> W) (l : list A) : W :=
  match l with
  | [] => wSkip
  | x :: l => wRepeated w l >;> w x
  end.

(** [pos := len(buf); ...; return len(buf) - pos]; the buffer is given too. *)
Definition runW (w : W) (buf : list Z) : res (Z * list Z) :=
  let* (buf', pos) := w (buf, len buf) in Ok (len buf - pos, buf').

(** ** UnmarshalProto *)
Definition wrongWireType (name : string) (wireType : Z) : error :=
  Errorf (String.append "proto: wrong wireType = %d for field " name) [ArgZ wireType].

Definition readLen (name : string) (wireType : Z) (buf : list Z) (pos : Z) : res (list Z * Z) :=
  if wireType =? WireTypeLen then
    let* (length, pos) := ConsumeLen buf pos in
    let* b := slice buf (pos - length) pos in
    Ok (b, pos)
  else Err (wrongWireType name wireType).

Definition readVarint (name : string) (wireType : Z) (buf : list Z) (pos : Z) : res (Z * Z) :=
  if wireType =? WireTypeVarint then ConsumeVarint buf pos else Err (wrongWireType name wireType).
Definition readI64 (name : string) (wireType : Z) (buf : list Z) (pos : Z) : res (Z * Z) :=
  if wireType =? WireTypeI64 then ConsumeI64 buf pos else Err (wrongWireType name wireType).
Definition readI32 (name : string) (wireType : Z) (buf : list Z) (pos : Z) : res (Z * Z) :=
  if wireType =? WireTypeI32 then ConsumeI32 buf pos else Err (wrongWireType name wireType).

(** The default case: the field is skipped. *)
Definition skipField {M} (wireType : Z) (buf : list Z) (pos : Z) (m : M) : res (M * Z) :=
  let* pos := ConsumeUnknown buf pos wireType in Ok (m, pos).

(** The loop; [step] is the switch of the message.  Each round reads a tag. *)
Section Loop.
Context {M : Type} (step : Z -> Z -> list Z -> Z -> M -> res (M * Z)).

Fixpoint fieldLoop (fuel : nat) (buf : list Z) (pos : Z) (m : M) : res M :=
  if pos <? len buf then
    match fuel with
    | O => OutOfFuel
    | S fuel =>
        let* (fieldNum, wireType, pos) := ConsumeTag buf pos in
        let* (m, pos) := step fieldNum wireType buf pos m in
        fieldLoop fuel buf pos m
    end
  else Ok m.

Definition unmarshalFields (buf : list Z) (m : M) : res M := fieldLoop (length buf) buf 0 m.
End Loop.

(** ** The bytes of a field *)
Definition tag (fn wt : Z) : list Z := varint (fn * 8 + wt).
Definition fLen (fn : Z) (s : list Z) : list Z := tag fn 2 ++ varint (len s) ++ s.
Definition fInt (fn v : Z) : list Z := tag fn 0 ++ varint (u64 v).
Definition fI64 (fn v : Z) : list Z := tag fn 1 ++ leBytes 8 v.
Definition fI32 (fn v : Z) : list Z := tag fn 5 ++ leBytes 4 v.
Definition fWhen (b : bool) (f : list Z) : list Z := if b then f else [].
Definition fRepeated {A} (f : A -> list Z) (l : list A) : list Z := concat (map f l).

(** ** Writing *)
Definition Writes (w : W) (out : list Z) : Prop :=
  forall pre room post, len room = len out ->
    w (pre ++ room ++ post, len pre + len room) = Ok (pre ++ out ++ post, len pre).

Definition Marshals (f : list Z -> res (Z * list Z)) (out : list Z) : Prop :=
  forall pre room, len room = len out -> f (pre ++ room) = Ok (len out, pre ++ out).

Lemma len_0 {A} (l : list A) : len l = 0 -> l = [].
Proof. unfold len. destruct l; [done|simpl; lia]. Qed.

Lemma split_len {A} (room : list A) n m :
  0 <= n -> 0 <= m -> len room = n + m -> exists a b, room = a ++ b /\ len a = n /\ len b = m.
Proof.
  intros Hn Hm H. destruct (split_room room m) as (a & b & -> & Ha & Hb & _); [lia|].
  exists a, b. split_and!; [done|lia|done].
Qed.

Lemma Writes_skip : Writes wSkip [].
Proof. intros pre room post H. apply len_0 in H as ->. unfold wSkip. change (len (@nil Z)) with 0. by rewrite Z.add_0_r. Qed.

Lemma Writes_seq w1 w2 o1 o2 : Writes w1 o1 -> Writes w2 o2 -> Writes (w1 >;> w2) (o2 ++ o1).
Proof.
  intros H1 H2 pre room post Hr. rewrite len_app in Hr.
  destruct (split_len room (len o2) (len o1)) as (r2 & r1 & -> & L2 & L1); [apply len_nonneg..|done|].
  unfold wSeq. rewrite <- app_assoc. rewrite len_app, Z.add_assoc, <- len_app, (app_assoc pre).
  rewrite H1 by done. cbn [rbind]. rewrite <- app_assoc, len_app, H2 by done. by rewrite <- app_assoc.
Qed.

Lemma Writes_byte b : Writes (wByte b) [b].
Proof.
  intros pre room post Hr. change (len [b]) with 1 in Hr. destruct room as [|x [|? ?] ]; rewrite ?len_cons in Hr.
  - done.
  - unfold wByte. change (len [x]) with 1. replace (len pre + 1 - 1) with (len pre) by lia. cbn [app].
    rewrite putByte_app. done.
  - pose proof (len_nonneg l). lia.
Qed.

Lemma Writes_varint v : is_u64 v -> Writes (wVarint v) (varint v).
Proof. intros Hv pre room post Hr. unfold wVarint. apply EncodeVarint_app; [done|]. by rewrite Hr, len_varint. Qed.

Lemma Writes_copy s : Writes (wCopy s) s.
Proof.
  intros pre room post Hr. unfold wCopy. replace (len pre + len room - len s) with (len pre) by lia.
  rewrite copyAt_app by (unfold len in Hr; lia). done.
Qed.

Lemma Writes_fixed n v : Writes (wFixed n v) (leBytes n v).
Proof.
  intros pre room post Hr. unfold wFixed, putUint. unfold len at 2 in Hr. rewrite length_leBytes in Hr.
  replace (len pre + len room - Z.of_nat n) with (len pre) by lia. rewrite !len_app.
  pose proof (len_nonneg pre). pose proof (len_nonneg post).
  destruct (Z.leb_spec 0 (len pre)); [|lia]. destruct (Z.leb_spec (len pre + Z.of_nat n) (len pre + (len room + len post))); [|lia].
  simpl. rewrite copyAt_app by (rewrite length_leBytes; unfold len in Hr; lia). done.
Qed.

Lemma Writes_inner f out : Marshals f out -> fits out -> Writes (wInner f) (varint (len out) ++ out).
Proof.
  unfold fits. intros Hf Hfit pre room post Hr. pose proof (len_nonneg out). pose proof (len_nonneg pre). pose proof (len_nonneg room).
  rewrite len_app in Hr. destruct (split_len room (len (varint (len out))) (len out)) as (r2 & r1 & -> & L2 & L1); [apply len_nonneg..|done|].
  unfold wInner. rewrite <- app_assoc.
  assert (Hsl : slice (pre ++ r2 ++ r1 ++ post) 0 (len pre + len (r2 ++ r1)) = Ok ((pre ++ r2) ++ r1)).
  { pose proof (slice_app [] (pre ++ r2 ++ r1) post) as Hs. change (len (@nil Z)) with 0 in Hs. rewrite Z.add_0_l in Hs.
    cbn [app] in Hs. rewrite <- !app_assoc in Hs. rewrite len_app in Hs. rewrite Hs. by rewrite <- app_assoc. }
  rewrite Hsl. cbn [rbind]. rewrite Hf by done. cbn [rbind].
  replace (Z.to_nat (len pre + len (r2 ++ r1))) with (length (pre ++ r2 ++ r1)) by (unfold len; rewrite !length_app; lia).
  replace (pre ++ r2 ++ r1 ++ post) with ((pre ++ r2 ++ r1) ++ post) by (by rewrite <- !app_assoc).
  rewrite drop_app_length. rewrite u64_id by (unfold is_u64; lia). rewrite <- !app_assoc.
  replace (len pre + len (r2 ++ r1) - len out) with (len pre + len r2) by (rewrite len_app; lia).
  rewrite (EncodeVarint_app (len out)) by (try (unfold is_u64; lia); rewrite L2; apply len_varint; unfold is_u64; lia).
  done.
Qed.

Lemma Writes_len w fn s : Writes w (tag fn 2) -> fits s -> Writes (wLen w s) (fLen fn s).
Proof.
  intros Hw Hs. unfold wLen, fLen. apply Writes_seq; [|done]. apply Writes_seq; [apply Writes_copy|].
  apply Writes_varint. unfold is_u64, fits in *. pose proof (len_nonneg s). lia.
Qed.

Lemma Writes_msg w fn f out : Writes w (tag fn 2) -> Marshals f out -> fits out -> Writes (wMsg w f) (fLen fn out).
Proof. intros Hw Hf Hs. apply Writes_seq; [by apply Writes_inner|done]. Qed.

Lemma Writes_int w fn v : Writes w (tag fn 0) -> Writes (wInt w v) (fInt fn v).
Proof. intros Hw. apply Writes_seq; [apply Writes_varint, u64_range|done]. Qed.

Lemma Writes_i64 w fn v : Writes w (tag fn 1) -> Writes (wI64 w v) (fI64 fn v).
Proof. intros Hw. apply Writes_seq; [apply Writes_fixed|done]. Qed.

Lemma Writes_i32 w fn v : Writes w (tag fn 5) -> Writes (wI32 w v) (fI32 fn v).
Proof. intros Hw. apply Writes_seq; [apply Writes_fixed|done]. Qed.

Lemma Writes_when b w out : (b = true -> Writes w out) -> Writes (wWhen b w) (fWhen b out).
Proof. destruct b; intros H; [by apply H|apply Writes_skip]. Qed.

Lemma Writes_repeated {A} (w : A -> W) (f : A -> list Z) l :
  Forall (fun x => Writes (w x) (f x)) l -> Writes (wRepeated w l) (fRepeated f l).
Proof. induction 1 as [|x l Hx _ IH]; [apply Writes_skip|]. by apply Writes_seq. Qed.

Lemma Marshals_run w out : Writes w out -> Marshals (runW w) out.
Proof.
  intros Hw pre room Hr. unfold runW. pose proof (Hw pre room [] Hr) as H. rewrite !app_nil_r in H.
  rewrite len_app, H. cbn [rbind]. by replace (len pre + len room - len pre) with (len out) by lia.
Qed.

#[export] Hint Resolve Writes_skip Writes_seq Writes_len Writes_msg Writes_int Writes_i64 Writes_i32 : proto.
#[export] Hint Resolve Writes_when Writes_repeated Marshals_run : proto.
#[export] Hint Extern 1 (Writes (wByte ?b) (tag _ _)) => exact (Writes_byte b) : proto.

(** ** Sizes *)
Lemma len_fLen fn s : fits s -> len (fLen fn s) = sizeLen (len (tag fn 2)) (len s).
Proof.
  unfold fits. intros Hs. unfold fLen, sizeLen. rewrite !len_app, len_varint by (unfold is_u64; pose proof (len_nonneg s); lia). lia.
Qed.

Lemma len_fInt fn v : len (fInt fn v) = len (tag fn 0) + sov (u64 v).
Proof. unfold fInt. rewrite len_app, len_varint by apply u64_range. done. Qed.

Lemma len_fI64 fn v : len (fI64 fn v) = len (tag fn 1) + 8.
Proof. unfold fI64. rewrite len_app. unfold len at 2. by rewrite length_leBytes. Qed.

Lemma len_fI32 fn v : len (fI32 fn v) = len (tag fn 5) + 4.
Proof. unfold fI32. rewrite len_app. unfold len at 2. by rewrite length_leBytes. Qed.

Lemma len_fWhen b f : len (fWhen b f) = if b then len f else 0.
Proof. by destruct b. Qed.

Lemma len_fRepeated {A} (f : A -> list Z) (size : A -> Z) l :
  Forall (fun x => len (f x) = size x) l -> len (fRepeated f l) = sizeRepeated size l.
Proof. induction 1 as [|x l Hx _ IH]; [done|]. unfold fRepeated in *. simpl. rewrite len_app, IH, Hx. done. Qed.

Lemma fits_app a b : fits (a ++ b) -> fits a /\ fits b.
Proof. unfold fits. rewrite len_app. pose proof (len_nonneg a). pose proof (len_nonneg b). lia. Qed.

Lemma fits_fLen fn s : fits (fLen fn s) -> fits s.
Proof. unfold fLen. by intros [_ [_ ?]%fits_app]%fits_app. Qed.

Lemma fits_fWhen b f : fits (fWhen b f) -> b = true -> fits f.
Proof. by intros ? ->. Qed.

Lemma fits_fRepeated {A} (f : A -> list Z) l : fits (fRepeated f l) -> Forall (fun x => fits (f x)) l.
Proof.
  induction l as [|x l IH]; [constructor|]. unfold fRepeated. simpl. intros [? ?]%fits_app. constructor; [done|]. by apply IH.
Qed.

(** ** Reading what was written *)
Lemma land7 fn wt : 0 <= wt < 8 -> Z.land (fn * 8 + wt) 7 = wt.
Proof.
  intros H. change 7 with (Z.ones 3). rewrite Z.land_ones by lia. change (2 ^ 3) with 8.
  rewrite Z.add_comm, Z.mod_add by lia. by apply Z.mod_small.
Qed.

Lemma shiftr3 fn wt : 0 <= wt < 8 -> Z.shiftr (fn * 8 + wt) 3 = fn.
Proof.
  intros H. rewrite Z.shiftr_div_pow2 by lia. change (2 ^ 3) with 8. rewrite Z.add_comm, Z.div_add by lia.
  rewrite Z.div_small by lia. lia.
Qed.

Lemma i32_id z : is_i32 z -> i32 z = z.
Proof. unfold is_i32, i32. intros. rewrite Z.mod_small; lia. Qed.

Lemma u32_id z : is_u32 z -> u32 z = z.
Proof. unfold is_u32, u32. intros. by apply Z.mod_small. Qed.

Lemma i32_range z : is_i32 (i32 z).
Proof. unfold is_i32, i32. pose proof (Z.mod_pos_bound (z + 2 ^ 31) (2 ^ 32) ltac:(lia)). lia. Qed.

Lemma u32_range z : is_u32 (u32 z).
Proof. unfold is_u32, u32. apply Z.mod_pos_bound. lia. Qed.

(** The conversions of the fields: back and forth through 64 bits. *)
Lemma i64_u64 z : is_i64 z -> i64 (u64 z) = z.
Proof.
  unfold is_i64, i64, u64. intros H. rewrite Zplus_mod_idemp_l. rewrite Z.mod_small; lia.
Qed.

Lemma i32_u64 z : is_i32 z -> i32 (u64 z) = z.
Proof.
  unfold is_i32, i32, u64. intros H.
  assert (E : (z mod 2 ^ 64 + 2 ^ 31) mod 2 ^ 32 = (z + 2 ^ 31) mod 2 ^ 32).
  { rewrite (Z.mod_eq z (2 ^ 64)) by lia.
    replace (z - 2 ^ 64 * (z / 2 ^ 64) + 2 ^ 31) with (z + 2 ^ 31 + (- (2 ^ 32 * (z / 2 ^ 64))) * 2 ^ 32) by lia.
    by rewrite Z.mod_add by lia. }
  rewrite E, Z.mod_small; lia.
Qed.

Lemma u32_u64 z : is_u32 z -> u32 (u64 z) = z.
Proof. unfold is_u32. intros H. rewrite u64_id by (unfold is_u64; lia). by apply u32_id. Qed.

Lemma ConsumeTag_app pre fn wt post : 0 < fn < 2 ^ 28 -> 0 <= wt < 8 ->
  ConsumeTag (pre ++ tag fn wt ++ post) (len pre) = Ok (fn, wt, len (pre ++ tag fn wt)).
Proof.
  intros Hf Hw. unfold ConsumeTag, tag. rewrite ConsumeVarint_app by (unfold is_u64; lia). cbn [rbind].
  rewrite shiftr3, land7, i32_id by (try unfold is_i32; lia). destruct (Z.leb_spec fn 0); [lia|]. by rewrite len_app.
Qed.

Lemma ConsumeLen_app pre s post : fits (pre ++ (varint (len s) ++ s) ++ post) ->
  ConsumeLen (pre ++ (varint (len s) ++ s) ++ post) (len pre) = Ok (len s, len pre + len (varint (len s) ++ s)).
Proof.
  unfold fits. rewrite !len_app. intros Hf. unfold ConsumeLen. rewrite <- app_assoc.
  pose proof (len_nonneg pre). pose proof (len_nonneg s). pose proof (len_nonneg post). pose proof (len_nonneg (varint (len s))).
  rewrite ConsumeVarint_app by (unfold is_u64; lia). cbn [rbind]. rewrite (i64_id (len s)) by (unfold is_i64; lia).
  destruct (Z.ltb_spec (len s) 0); [lia|]. rewrite i64_id by (unfold is_i64; lia).
  destruct (Z.ltb_spec (len pre + len (varint (len s)) + len s) 0); [lia|]. rewrite !len_app.
  destruct (Z.ltb_spec (len pre + (len (varint (len s)) + (len s + len post))) (len pre + len (varint (len s)) + len s)); [lia|].
  simpl. f_equal. f_equal. lia.
Qed.

Lemma readLen_app name pre s post : fits (pre ++ (varint (len s) ++ s) ++ post) ->
  readLen name 2 (pre ++ (varint (len s) ++ s) ++ post) (len pre) = Ok (s, len pre + len (varint (len s) ++ s)).
Proof.
  intros Hf. unfold readLen. simpl (2 =? WireTypeLen). cbv iota. rewrite ConsumeLen_app by done. cbn [rbind].
  replace (len pre + len (varint (len s) ++ s) - len s) with (len (pre ++ varint (len s))) by (rewrite !len_app; lia).
  replace (len pre + len (varint (len s) ++ s)) with (len (pre ++ varint (len s)) + len s) at 1 by (rewrite !len_app; lia).
  replace (pre ++ (varint (len s) ++ s) ++ post) with ((pre ++ varint (len s)) ++ s ++ post) by (by rewrite <- !app_assoc).
  rewrite slice_app. done.
Qed.

Lemma readVarint_app name pre v post : is_u64 v ->
  readVarint name 0 (pre ++ varint v ++ post) (len pre) = Ok (v, len pre + len (varint v)).
Proof. intros. unfold readVarint. by apply ConsumeVarint_app. Qed.

Lemma consume_fixed_app n pre v post : 0 <= v < 2 ^ (8 * Z.of_nat n) -> fits (pre ++ leBytes n v ++ post) ->
  (let p := i64 (len pre + Z.of_nat n) in
   let buf := pre ++ leBytes n v ++ post in
   if (p <? 0) || (len buf <? p) then Err ErrUnexpectedEOF else let* b := slice buf (p - Z.of_nat n) p in Ok (leValue b, p))
  = Ok (v, len pre + len (leBytes n v)).
Proof.
  unfold fits. rewrite !len_app. assert (Hn : len (leBytes n v) = Z.of_nat n) by (unfold len; by rewrite length_leBytes).
  intros Hv Hf. pose proof (len_nonneg pre). pose proof (len_nonneg post). cbv zeta.
  rewrite i64_id by (unfold is_i64; lia). destruct (Z.ltb_spec (len pre + Z.of_nat n) 0); [lia|].
  destruct (Z.ltb_spec (len pre + (len (leBytes n v) + len post)) (len pre + Z.of_nat n)); [lia|]. simpl.
  replace (len pre + Z.of_nat n - Z.of_nat n) with (len pre) by lia. rewrite <- Hn at 1. rewrite slice_app. simpl.
  rewrite leValue_leBytes by done. by rewrite Hn.
Qed.

Lemma readI64_app name pre v post : is_u64 v -> fits (pre ++ leBytes 8 v ++ post) ->
  readI64 name 1 (pre ++ leBytes 8 v ++ post) (len pre) = Ok (v, len pre + len (leBytes 8 v)).
Proof. intros. unfold readI64. by apply (consume_fixed_app 8). Qed.

Lemma readI32_app name pre v post : is_u32 v -> fits (pre ++ leBytes 4 v ++ post) ->
  readI32 name 5 (pre ++ leBytes 4 v ++ post) (len pre) = Ok (v, len pre + len (leBytes 4 v)).
Proof. intros. unfold readI32. by apply (consume_fixed_app 4). Qed.

(** ** Parsing a message

    [FieldAt step c m m']: the field [c], wherever it is, takes [m] to [m']. *)
Section Parsing.
Context {M : Type} (step : Z -> Z -> list Z -> Z -> M -> res (M * Z)).

Definition FieldAt (c : list Z) (m m' : M) : Prop :=
  c <> [] /\
  forall pre post, fits (pre ++ c ++ post) ->
    exists fn wt p, ConsumeTag (pre ++ c ++ post) (len pre) = Ok (fn, wt, p) /\
      step fn wt (pre ++ c ++ post) p m = Ok (m', len pre + len c).

Inductive Parses : list Z -> M -> M -> Prop :=
  | Parses_nil m : Parses [] m m
  | Parses_cons c rest m m' m'' : FieldAt c m m' -> Parses rest m' m'' -> Parses (c ++ rest) m m''.

Lemma Parses_one c m m' : FieldAt c m m' -> Parses c m m'.
Proof. intros H. rewrite <- (app_nil_r c). econstructor; [done|constructor]. Qed.

Lemma Parses_app a b m m' m'' : Parses a m m' -> Parses b m' m'' -> Parses (a ++ b) m m''.
Proof. induction 1; intros Hb; [done|]. rewrite <- app_assoc. econstructor; [done|auto]. Qed.

Lemma Parses_when b c m m' : (b = true -> Parses c m m') -> (b = false -> m = m') -> Parses (fWhen b c) m m'.
Proof. destruct b; simpl; intros H1 H2; [by apply H1|]. rewrite H2 by done. constructor. Qed.

(** Repeated fields, when each adds an element; [upd] gives the message with the
    elements read so far. *)
Lemma Parses_repeated {A} (f : A -> list Z) (upd : list A -> M) l :
  (forall l1 x, x ∈ l -> Parses (f x) (upd l1) (upd (l1 ++ [x]))) ->
  forall l0, Parses (fRepeated f l) (upd l0) (upd (l0 ++ l)).
Proof.
  induction l as [|x l IH]; intros Hx l0; [rewrite app_nil_r; constructor|].
  unfold fRepeated in *. simpl. eapply Parses_app; [apply Hx; left|].
  replace (l0 ++ x :: l) with ((l0 ++ [x]) ++ l) by (by rewrite <- app_assoc). apply IH. intros. apply Hx. by right.
Qed.

Lemma fieldLoop_parses bs m m' pre fuel :
  Parses bs m m' -> fits (pre ++ bs) -> (length bs <= fuel)%nat -> fieldLoop step fuel (pre ++ bs) (len pre) m = Ok m'.
Proof.
  intros Hp. revert pre fuel. induction Hp as [m|c rest m m' m'' [Hne Hc] _ IH]; intros pre fuel Hf Hl.
  - rewrite app_nil_r. destruct fuel; simpl; rewrite Z.ltb_irrefl; done.
  - rewrite length_app in Hl. destruct c as [|b c]; [done|]. destruct fuel as [|fuel]; [simpl in Hl; lia|].
    destruct (Hc pre rest Hf) as (fn & wt & p & Ht & Hs). cbn [fieldLoop].
    destruct (Z.ltb_spec (len pre) (len (pre ++ (b :: c) ++ rest))) as [_|Hge].
    2:{ rewrite !len_app, len_cons in Hge. pose proof (len_nonneg c). pose proof (len_nonneg rest). lia. }
    rewrite Ht. cbn [rbind]. rewrite Hs. cbn [rbind]. rewrite app_assoc, <- len_app. apply IH; [by rewrite <- app_assoc|].
    simpl in Hl. lia.
Qed.

Lemma unmarshalFields_parses bs m m' : Parses bs m m' -> fits bs -> unmarshalFields step bs m = Ok m'.
Proof. intros Hp Hf. apply (fieldLoop_parses bs m m' []); [done..|lia]. Qed.

(** *** One field of each kind *)
Lemma FieldAt_tag fn wt body m m' :
  0 < fn < 2 ^ 28 -> 0 <= wt < 8 ->
  (forall pre post, fits (pre ++ body ++ post) -> step fn wt (pre ++ body ++ post) (len pre) m = Ok (m', len pre + len body)) ->
  FieldAt (tag fn wt ++ body) m m'.
Proof.
  intros Hf Hw Hs. split.
  { unfold tag, varint. intros [H _]%app_nil. by apply (varintBytes_ne 10) in H; [|lia]. }
  intros pre post Hfit. exists fn, wt, (len (pre ++ tag fn wt)). rewrite <- app_assoc. split; [by apply ConsumeTag_app|].
  rewrite <- app_assoc in Hfit. rewrite (app_assoc pre), Hs by (by rewrite <- app_assoc). f_equal. f_equal. rewrite !len_app. lia.
Qed.

Lemma FieldAt_len fn s m m' :
  0 < fn < 2 ^ 28 ->
  (forall buf pos p, (forall name, readLen name 2 buf pos = Ok (s, p)) -> step fn 2 buf pos m = Ok (m', p)) ->
  FieldAt (fLen fn s) m m'.
Proof. intros Hf Hs. apply FieldAt_tag; [done|lia|]. intros pre post Hfit. apply Hs. intros. by apply readLen_app. Qed.

Lemma FieldAt_int fn v m m' :
  0 < fn < 2 ^ 28 ->
  (forall buf pos p, (forall name, readVarint name 0 buf pos = Ok (u64 v, p)) -> step fn 0 buf pos m = Ok (m', p)) ->
  FieldAt (fInt fn v) m m'.
Proof. intros Hf Hs. apply FieldAt_tag; [done|lia|]. intros pre post Hfit. apply Hs. intros. apply readVarint_app, u64_range. Qed.

Lemma FieldAt_i64 fn v m m' :
  0 < fn < 2 ^ 28 -> is_u64 v ->
  (forall buf pos p, (forall name, readI64 name 1 buf pos = Ok (v, p)) -> step fn 1 buf pos m = Ok (m', p)) ->
  FieldAt (fI64 fn v) m m'.
Proof. intros Hf Hv Hs. apply FieldAt_tag; [done|lia|]. intros pre post Hfit. apply Hs. intros. by apply readI64_app. Qed.

Lemma FieldAt_i32 fn v m m' :
  0 < fn < 2 ^ 28 -> is_u32 v ->
  (forall buf pos p, (forall name, readI32 name 5 buf pos = Ok (v, p)) -> step fn 5 buf pos m = Ok (m', p)) ->
  FieldAt (fI32 fn v) m m'.
Proof. intros Hf Hv Hs. apply FieldAt_tag; [done|lia|]. intros pre post Hfit. apply Hs. intros. by apply readI32_app. Qed.

(** ** Any input *)

(** The switch keeps the invariant [I] and stays in the buffer. *)
Definition SafeStep (I : M -> Prop) : Prop :=
  forall fn wt buf pos m, 0 <= pos <= len buf -> fits buf -> bytes buf -> I m ->
    Safe (fun '(m', p) => I m' /\ pos <= p <= len buf) (step fn wt buf pos m).

Lemma fieldLoop_safe I fuel buf pos m :
  SafeStep I -> 0 <= pos <= len buf -> fits buf -> bytes buf -> I m -> len buf - pos <= Z.of_nat fuel ->
  Safe I (fieldLoop step fuel buf pos m).
Proof.
  intros Hs. revert pos m. induction fuel as [|fuel IH]; intros pos m Hp Hf Hb Hm Hl; cbn [fieldLoop].
  - destruct (Z.ltb_spec pos (len buf)); [lia|done].
  - destruct (Z.ltb_spec pos (len buf)); [|done].
    eapply Safe_bind; [apply ConsumeTag_safe; lia|]. intros [ [fn wt] p] (_ & _ & Hp').
    eapply Safe_bind; [by apply Hs; [lia|..]|]. intros [m' p'] [Hm' Hp2]. apply IH; [lia|done|done|done|lia].
Qed.

Lemma unmarshalFields_safe I buf m : SafeStep I -> fits buf -> bytes buf -> I m -> Safe I (unmarshalFields step buf m).
Proof. intros Hs Hf Hb Hm. apply fieldLoop_safe; try done; unfold len; lia. Qed.
End Parsing.

Lemma readLen_safe name wt buf pos : 0 <= pos <= len buf -> fits buf -> bytes buf ->
  Safe (fun '(s, p) => (bytes s /\ fits s) /\ pos <= p <= len buf) (readLen name wt buf pos).
Proof.
  intros Hp Hf Hb. unfold readLen. destruct (wt =? WireTypeLen); [|done].
  eapply Safe_bind; [by apply ConsumeLen_safe|]. intros [n p] (Hn & Hp1 & Hp2).
  destruct (slice_ok buf (p - n) p) as (s & -> & Hl & Hsb); [lia..|]. simpl. unfold fits in *.
  split; [split; [by apply Hsb|lia]|lia].
Qed.

Lemma readVarint_safe name wt buf pos : 0 <= pos <= len buf ->
  Safe (fun '(v, p) => is_u64 v /\ pos <= p <= len buf) (readVarint name wt buf pos).
Proof.
  intros Hp. unfold readVarint. destruct (wt =? WireTypeVarint); [|done].
  eapply Safe_impl; [apply ConsumeVarint_safe; lia|]. intros [v p] [? ?]. split; [done|lia].
Qed.

Lemma slice_leValue buf from n : bytes buf -> 0 <= from -> 0 <= n -> from + n <= len buf ->
  Safe (fun b => 0 <= leValue b < 2 ^ (8 * n)) (slice buf from (from + n)).
Proof.
  intros Hb H1 H2 H3. destruct (slice_ok buf from (from + n)) as (s & -> & Hl & Hs); [lia..|]. simpl.
  replace n with (len s) by lia. by apply leValue_range, Hs.
Qed.

Lemma consume_fixed_value buf pos n :
  0 <= pos <= len buf -> fits buf -> bytes buf -> 0 < n < 2 ^ 62 ->
  Safe (fun '(v, p) => 0 <= v < 2 ^ (8 * n) /\ pos <= p <= len buf)
    (let p := i64 (pos + n) in
     if (p <? 0) || (len buf <? p) then Err ErrUnexpectedEOF else let* b := slice buf (p - n) p in Ok (leValue b, p)).
Proof.
  unfold fits. intros Hp Hf Hb Hn. cbv zeta. destruct (decide (pos + n < 2 ^ 63)) as [Hlt|Hge].
  - rewrite i64_id by (unfold is_i64; lia). destruct (Z.ltb_spec (pos + n) 0); [lia|]. destruct (Z.ltb_spec (len buf) (pos + n)); [done|].
    simpl. replace (pos + n - n) with pos by lia. eapply Safe_bind; [apply slice_leValue; [done|lia..]|].
    intros b Hv. simpl. split; [done|lia].
  - rewrite i64_neg by lia. destruct (Z.ltb_spec (pos + n - 2 ^ 64) 0); [done|lia].
Qed.

Lemma readI64_safe name wt buf pos : 0 <= pos <= len buf -> fits buf -> bytes buf ->
  Safe (fun '(v, p) => is_u64 v /\ pos <= p <= len buf) (readI64 name wt buf pos).
Proof. intros. unfold readI64. destruct (wt =? WireTypeI64); [|done]. by apply (consume_fixed_value buf pos 8). Qed.

Lemma readI32_safe name wt buf pos : 0 <= pos <= len buf -> fits buf -> bytes buf ->
  Safe (fun '(v, p) => is_u32 v /\ pos <= p <= len buf) (readI32 name wt buf pos).
Proof. intros. unfold readI32. destruct (wt =? WireTypeI32); [|done]. by apply (consume_fixed_value buf pos 4). Qed.

Lemma skipField_safe {M} (I : M -> Prop) wt buf pos m : 0 <= pos <= len buf -> fits buf -> I m ->
  Safe (fun '(m', p) => I m' /\ pos <= p <= len buf) (skipField wt buf pos m).
Proof. intros Hp Hf Hm. unfold skipField. eapply Safe_bind; [by apply ConsumeUnknown_safe|]. intros p Hp'. by split. Qed.
