(* ===== verification/ProtoCommon.v ===== *)
(** * AnyValue, ArrayValue, KeyValue and KeyValueList (pdata/internal)

    The attribute values of OTLP, which contain each other: their generated
    [SizeProto], [MarshalProto] and [unmarshalProto] methods
    (generated_proto_anyvalue.go and its siblings).

    A double is its 64 bits.  [unmarshalProto] counts its depth up to
    [RecursionLimit]; here [budget] is what remains of it. *)

From S2P Require Import Prelude Errors Sizers ProtoWire ProtoWireProofs ProtoFields.
Local Open Scope Z_scope.
Local Open Scope otel_scope.

Inductive AnyValue :=
  | AnyValue_nil
  | AnyValue_StringValue (s : list Z)
  | AnyValue_BoolValue (b : bool)
  | AnyValue_IntValue (i : Z)
  | AnyValue_DoubleValue (bits : Z)
  | AnyValue_ArrayValue (v : option (list AnyValue))
  | AnyValue_KvlistValue (v : option (list KeyValue))
  | AnyValue_BytesValue (b : list Z)
  | AnyValue_StringValueStrindex (i : Z)
with KeyValue :=
  | mkKeyValue (Key : list Z) (Value : AnyValue) (KeyStrindex : Z).

Definition Key (m : KeyValue) : list Z := let '(mkKeyValue k _ _) := m in k.
Definition Value (m : KeyValue) : AnyValue := let '(mkKeyValue _ v _) := m in v.
Definition KeyStrindex (m : KeyValue) : Z := let '(mkKeyValue _ _ i) := m in i.

(** The structs with the single field [Values]. *)
Definition ArrayValue := list AnyValue.
Definition KeyValueList := list KeyValue.

Definition emptyKeyValue : KeyValue := mkKeyValue [] AnyValue_nil 0.

(** ** SizeProto *)
Definition sizeValues {A} (size : A -> Z) (l : list A) : Z := sizeRepeated (fun x => sizeLen 1 (size x)) l.

Fixpoint AnyValue_SizeProto (orig : AnyValue) : Z :=
  match orig with
  | AnyValue_nil => 0
  | AnyValue_StringValue s => sizeLen 1 (len s)
  | AnyValue_BoolValue _ => 2
  | AnyValue_IntValue i => 1 + sov (u64 i)
  | AnyValue_DoubleValue _ => 9
  | AnyValue_ArrayValue None => 0
  | AnyValue_ArrayValue (Some v) => sizeLen 1 (sizeValues AnyValue_SizeProto v)
  | AnyValue_KvlistValue None => 0
  | AnyValue_KvlistValue (Some v) => sizeLen 1 (sizeValues KeyValue_SizeProto v)
  | AnyValue_BytesValue b => sizeLen 1 (len b)
  | AnyValue_StringValueStrindex i => 1 + sov (u64 i)
  end
with KeyValue_SizeProto (orig : KeyValue) : Z :=
  match orig with
  | mkKeyValue k v i =>
      (if 0 <? len k then sizeLen 1 (len k) else 0) +
      sizeLen 1 (AnyValue_SizeProto v) +
      (if negb (i =? 0) then 1 + sov (u64 i) else 0)
  end.

Definition ArrayValue_SizeProto (orig : ArrayValue) : Z := sizeValues AnyValue_SizeProto orig.
Definition KeyValueList_SizeProto (orig : KeyValueList) : Z := sizeValues KeyValue_SizeProto orig.

(** ** MarshalProto *)
Definition marshalValues {A} (marshal : A -> list Z -> res (Z * list Z)) (l : list A) : list Z -> res (Z * list Z) :=
  runW (wRepeated (fun x => wMsg (wByte 0xa) (marshal x)) l).

Fixpoint AnyValue_MarshalProto (orig : AnyValue) : list Z -> res (Z * list Z) :=
  runW
    match orig with
    | AnyValue_nil => wSkip
    | AnyValue_StringValue s => wLen (wByte 0xa) s
    | AnyValue_BoolValue b => wByte (if b then 1 else 0) >;> wByte 0x10
    | AnyValue_IntValue i => wInt (wByte 0x18) i
    | AnyValue_DoubleValue bits => wI64 (wByte 0x21) bits
    | AnyValue_ArrayValue None => wSkip
    | AnyValue_ArrayValue (Some v) => wMsg (wByte 0x2a) (marshalValues AnyValue_MarshalProto v)
    | AnyValue_KvlistValue None => wSkip
    | AnyValue_KvlistValue (Some v) => wMsg (wByte 0x32) (marshalValues KeyValue_MarshalProto v)
    | AnyValue_BytesValue b => wLen (wByte 0x3a) b
    | AnyValue_StringValueStrindex i => wInt (wByte 0x40) i
    end
with KeyValue_MarshalProto (orig : KeyValue) : list Z -> res (Z * list Z) :=
  match orig with
  | mkKeyValue k v i =>
      runW (wWhen (0 <? len k) (wLen (wByte 0xa) k) >;>
            wMsg (wByte 0x12) (AnyValue_MarshalProto v) >;>
            wWhen (negb (i =? 0)) (wInt (wByte 0x18) i))
  end.

Definition ArrayValue_MarshalProto (orig : ArrayValue) : list Z -> res (Z * list Z) :=
  marshalValues AnyValue_MarshalProto orig.
Definition KeyValueList_MarshalProto (orig : KeyValueList) : list Z -> res (Z * list Z) :=
  marshalValues KeyValue_MarshalProto orig.

(** ** unmarshalProto

    The switches, given the methods for the messages inside. *)
Definition AnyValue_step (array : list Z -> ArrayValue -> res ArrayValue) (kvlist : list Z -> KeyValueList -> res KeyValueList)
    (fieldNum wireType : Z) (buf : list Z) (pos : Z) (orig : AnyValue) : res (AnyValue * Z) :=
  match fieldNum with
  | 1 => let* (s, pos) := readLen "StringValue" wireType buf pos in Ok (AnyValue_StringValue s, pos)
  | 2 => let* (num, pos) := readVarint "BoolValue" wireType buf pos in Ok (AnyValue_BoolValue (negb (num =? 0)), pos)
  | 3 => let* (num, pos) := readVarint "IntValue" wireType buf pos in Ok (AnyValue_IntValue (i64 num), pos)
  | 4 => let* (num, pos) := readI64 "DoubleValue" wireType buf pos in Ok (AnyValue_DoubleValue num, pos)
  | 5 => let* (b, pos) := readLen "ArrayValue" wireType buf pos in
         let* v := array b [] in Ok (AnyValue_ArrayValue (Some v), pos)
  | 6 => let* (b, pos) := readLen "KvlistValue" wireType buf pos in
         let* v := kvlist b [] in Ok (AnyValue_KvlistValue (Some v), pos)
  | 7 => let* (b, pos) := readLen "BytesValue" wireType buf pos in Ok (AnyValue_BytesValue b, pos)
  | 8 => let* (num, pos) := readVarint "StringValueStrindex" wireType buf pos in
         Ok (AnyValue_StringValueStrindex (i32 num), pos)
  | _ => skipField wireType buf pos orig
  end.

(** [ArrayValue] and [KeyValueList]: an element is appended, then read. *)
Definition values_step {A} (element : list Z -> A -> res A) (zero : A)
    (fieldNum wireType : Z) (buf : list Z) (pos : Z) (orig : list A) : res (list A * Z) :=
  match fieldNum with
  | 1 => let* (b, pos) := readLen "Values" wireType buf pos in
         let* v := element b zero in Ok (orig ++ [v], pos)
  | _ => skipField wireType buf pos orig
  end.

Definition KeyValue_step (value : list Z -> AnyValue -> res AnyValue)
    (fieldNum wireType : Z) (buf : list Z) (pos : Z) (orig : KeyValue) : res (KeyValue * Z) :=
  match fieldNum with
  | 1 => let* (s, pos) := readLen "Key" wireType buf pos in Ok (mkKeyValue s (Value orig) (KeyStrindex orig), pos)
  | 2 => let* (b, pos) := readLen "Value" wireType buf pos in
         let* v := value b (Value orig) in Ok (mkKeyValue (Key orig) v (KeyStrindex orig), pos)
  | 3 => let* (num, pos) := readVarint "KeyStrindex" wireType buf pos in
         Ok (mkKeyValue (Key orig) (Value orig) (i32 num), pos)
  | _ => skipField wireType buf pos orig
  end.

Fixpoint AnyValue_unmarshalProto (budget : nat) (buf : list Z) (orig : AnyValue) : res AnyValue :=
  match budget with
  | O => Err ErrRecursionDepth
  | S budget =>
      unmarshalFields (AnyValue_step (ArrayValue_unmarshalProto budget) (KeyValueList_unmarshalProto budget)) buf orig
  end
with ArrayValue_unmarshalProto (budget : nat) (buf : list Z) (orig : ArrayValue) : res ArrayValue :=
  match budget with
  | O => Err ErrRecursionDepth
  | S budget => unmarshalFields (values_step (AnyValue_unmarshalProto budget) AnyValue_nil) buf orig
  end
with KeyValueList_unmarshalProto (budget : nat) (buf : list Z) (orig : KeyValueList) : res KeyValueList :=
  match budget with
  | O => Err ErrRecursionDepth
  | S budget => unmarshalFields (values_step (KeyValue_unmarshalProto budget) emptyKeyValue) buf orig
  end
with KeyValue_unmarshalProto (budget : nat) (buf : list Z) (orig : KeyValue) : res KeyValue :=
  match budget with
  | O => Err ErrRecursionDepth
  | S budget => unmarshalFields (KeyValue_step (AnyValue_unmarshalProto budget)) buf orig
  end.

Definition AnyValue_UnmarshalProto : list Z -> AnyValue -> res AnyValue := AnyValue_unmarshalProto RecursionLimit.
Definition KeyValue_UnmarshalProto : list Z -> KeyValue -> res KeyValue := KeyValue_unmarshalProto RecursionLimit.

(** ** The bytes *)
Definition fValues {A} (encode : A -> list Z) (l : list A) : list Z := fRepeated (fun x => fLen 1 (encode x)) l.

Fixpoint AnyValue_bytes (v : AnyValue) : list Z :=
  match v with
  | AnyValue_nil => []
  | AnyValue_StringValue s => fLen 1 s
  | AnyValue_BoolValue b => fInt 2 (if b then 1 else 0)
  | AnyValue_IntValue i => fInt 3 i
  | AnyValue_DoubleValue bits => fI64 4 bits
  | AnyValue_ArrayValue None => []
  | AnyValue_ArrayValue (Some v) => fLen 5 (fValues AnyValue_bytes v)
  | AnyValue_KvlistValue None => []
  | AnyValue_KvlistValue (Some v) => fLen 6 (fValues KeyValue_bytes v)
  | AnyValue_BytesValue b => fLen 7 b
  | AnyValue_StringValueStrindex i => fInt 8 i
  end
with KeyValue_bytes (m : KeyValue) : list Z :=
  match m with
  | mkKeyValue k v i =>
      fWhen (negb (i =? 0)) (fInt 3 i) ++ fLen 2 (AnyValue_bytes v) ++ fWhen (0 <? len k) (fLen 1 k)
  end.

(** ** Well-formed values

    The integers and bytes of the Go types, no nil pointer, and nesting within
    [budget] calls of [unmarshalProto].  A [KeyValue] that was received without
    a value has a nil value that took no call; [strict] excludes it at the
    limit, where sending it, with an empty value, would take one. *)
Section WellFormed.
Context (strict : bool).

Fixpoint AnyOk (budget : nat) (v : AnyValue) : Prop :=
  match budget with
  | O => False
  | S budget =>
      match v with
      | AnyValue_nil | AnyValue_BoolValue _ => True
      | AnyValue_StringValue s | AnyValue_BytesValue s => bytes s
      | AnyValue_IntValue i => is_i64 i
      | AnyValue_DoubleValue bits => is_u64 bits
      | AnyValue_ArrayValue v => match v with Some l => ArrayOk budget l | None => False end
      | AnyValue_KvlistValue v => match v with Some l => KvlistOk budget l | None => False end
      | AnyValue_StringValueStrindex i => is_i32 i
      end
  end
with ArrayOk (budget : nat) (l : list AnyValue) : Prop :=
  match budget with O => False | S budget => Forall (AnyOk budget) l end
with KvlistOk (budget : nat) (l : list KeyValue) : Prop :=
  match budget with O => False | S budget => Forall (KvOk budget) l end
with KvOk (budget : nat) (m : KeyValue) : Prop :=
  match budget with
  | O => False
  | S budget =>
      match m with
      | mkKeyValue k v i => bytes k /\ (AnyOk budget v \/ strict = false /\ v = AnyValue_nil) /\ is_i32 i
      end
  end.
End WellFormed.
