(* ===== verification/ProtoCommonProofs.v ===== *)
(** * Proofs about attribute values

    [MarshalProto] writes the bytes of a value, as many as [SizeProto] says;
    [unmarshalProto] reads them back, and gives a well-formed value or an error
    on any input.  All by induction on the nesting allowed. *)

From S2P Require Import Prelude Errors Sizers ProtoWire ProtoWireProofs ProtoFields ProtoCommon.
Local Open Scope Z_scope.
Local Open Scope otel_scope.

(** ** Marshaling and sizes *)

(** A method writes the bytes [out], and [size] is their number. *)
Definition Marshalled (marshal : list Z -> res (Z * list Z)) (size : Z) (out : list Z) : Prop :=
  Marshals marshal out /\ size = len out.

Lemma Marshalled_values {A} (marshal : A -> list Z -> res (Z * list Z)) (size : A -> Z) (encode : A -> list Z) l :
  Forall (fun x => fits (encode x) -> Marshalled (marshal x) (size x) (encode x)) l -> fits (fValues encode l) ->
  Marshalled (marshalValues marshal l) (sizeValues size l) (fValues encode l).
Proof.
  intros Hall Hf. apply fits_fRepeated in Hf.
  assert (Hboth : Forall (fun x => fits (encode x) /\ Marshalled (marshal x) (size x) (encode x)) l).
  { rewrite Forall_forall in *. intros x Hx. assert (fits (encode x)) by (eapply fits_fLen, Hf, Hx). auto. }
  split.
  - apply Marshals_run, Writes_repeated. eapply Forall_impl; [exact Hboth|]. intros x [? [? _] ]. eauto with proto.
  - symmetry. apply len_fRepeated. eapply Forall_impl; [exact Hboth|]. intros x [? [_ ->] ]. by rewrite len_fLen.
Qed.

Lemma AnyOk_encodes strict n :
  (forall v, AnyOk strict n v -> fits (AnyValue_bytes v) -> Marshalled (AnyValue_MarshalProto v) (AnyValue_SizeProto v) (AnyValue_bytes v)) /\
  (forall l, ArrayOk strict n l -> fits (fValues AnyValue_bytes l) -> Marshalled (ArrayValue_MarshalProto l) (ArrayValue_SizeProto l) (fValues AnyValue_bytes l)) /\
  (forall l, KvlistOk strict n l -> fits (fValues KeyValue_bytes l) -> Marshalled (KeyValueList_MarshalProto l) (KeyValueList_SizeProto l) (fValues KeyValue_bytes l)) /\
  (forall m, KvOk strict n m -> fits (KeyValue_bytes m) -> Marshalled (KeyValue_MarshalProto m) (KeyValue_SizeProto m) (KeyValue_bytes m)).
Proof.
  induction n as [|n (IHv & IHa & IHk & IHm)]; [by split_and!|]. split_and!.
  - intros v Hv Hf. destruct v as [|s|b|i|bits|[l|]|[l|]|b|i]; simpl in Hv; try done;
      cbn [AnyValue_MarshalProto AnyValue_SizeProto AnyValue_bytes] in *;
      try (apply fits_fLen in Hf as Hf'); try (destruct (IHa l Hv Hf') as [? Hs]); try (destruct (IHk l Hv Hf') as [? Hs]).
    all: split; [|rewrite ?len_fLen, ?len_fInt, ?len_fI64 by done; try done].
    all: try (apply Marshals_run; eauto with proto; done).
    + destruct b; apply Marshals_run; exact (Writes_seq _ _ _ _ (Writes_byte _) (Writes_byte _)).
    + by destruct b.
    + unfold ArrayValue_SizeProto in Hs. by rewrite Hs.
    + unfold KeyValueList_SizeProto in Hs. by rewrite Hs.
  - intros l Hl. apply Marshalled_values. simpl in Hl. eapply Forall_impl; [exact Hl|]. auto.
  - intros l Hl. apply Marshalled_values. simpl in Hl. eapply Forall_impl; [exact Hl|]. auto.
  - intros [k v i] (Hk & Hv & Hi) Hf. cbn [KeyValue_bytes] in *.
    apply fits_app in Hf as [_ [Hfv Hfk]%fits_app]. apply fits_fLen in Hfv.
    assert (He : Marshalled (AnyValue_MarshalProto v) (AnyValue_SizeProto v) (AnyValue_bytes v)).
    { destruct Hv as [Hv|[_ ->] ]; [by apply IHv|]. split; [|done]. apply Marshals_run, Writes_skip. }
    destruct He as [Hm Hs]. cbn [KeyValue_MarshalProto KeyValue_SizeProto]. split.
    + apply Marshals_run. apply Writes_seq; [apply Writes_seq|]; eauto with proto.
      apply Writes_when. intros E. apply Writes_len; [auto with proto|]. by eapply fits_fLen, fits_fWhen.
    + rewrite !len_app, !len_fWhen, len_fInt, len_fLen, Hs by done. destruct (Z.ltb_spec 0 (len k)).
      * rewrite len_fLen by (by eapply fits_fLen, fits_fWhen). destruct (negb (i =? 0)); simpl; unfold sizeLen; change (len (tag 3 0)) with 1; change (len (tag 1 2)) with 1; change (len (tag 2 2)) with 1; lia.
      * destruct (negb (i =? 0)); simpl; change (len (tag 3 0)) with 1; change (len (tag 2 2)) with 1; lia.
Qed.

(** ** Reading back *)
Lemma values_parses {A} (element : list Z -> A -> res A) zero (encode : A -> list Z) l :
  Forall (fun x => element (encode x) zero = Ok x) l ->
  Parses (values_step element zero) (fValues encode l) [] l.
Proof.
  intros Hall. rewrite Forall_forall in Hall.
  apply (Parses_repeated _ _ (fun l => l)). intros l1 x Hx. apply Parses_one, FieldAt_len; [lia|].
  intros buf pos p Hr. unfold values_step. rewrite Hr. cbn [rbind]. by rewrite Hall.
Qed.

Lemma fits_values {A} (encode : A -> list Z) (P : A -> Prop) (Q : A -> Prop) l :
  fits (fValues encode l) -> Forall P l -> (forall x, P x -> fits (encode x) -> Q x) -> Forall Q l.
Proof.
  intros Hf%fits_fRepeated HP HQ. rewrite Forall_forall in *. intros x Hx. apply HQ; [by apply HP|]. by eapply fits_fLen, Hf.
Qed.

Lemma AnyOk_roundtrip n :
  (forall v, AnyOk true n v -> fits (AnyValue_bytes v) -> AnyValue_unmarshalProto n (AnyValue_bytes v) AnyValue_nil = Ok v) /\
  (forall l, ArrayOk true n l -> fits (fValues AnyValue_bytes l) -> ArrayValue_unmarshalProto n (fValues AnyValue_bytes l) [] = Ok l) /\
  (forall l, KvlistOk true n l -> fits (fValues KeyValue_bytes l) -> KeyValueList_unmarshalProto n (fValues KeyValue_bytes l) [] = Ok l) /\
  (forall m, KvOk true n m -> fits (KeyValue_bytes m) -> KeyValue_unmarshalProto n (KeyValue_bytes m) emptyKeyValue = Ok m).
Proof.
  induction n as [|n (IHv & IHa & IHk & IHm)]; [by split_and!|]. split_and!.
  - intros v Hv Hf. cbn [AnyValue_unmarshalProto]. apply unmarshalFields_parses; [|done].
    destruct v as [|s|b|i|bits|[l|]|[l|]|b|i]; simpl in Hv; try done; cbn [AnyValue_bytes] in *; [constructor|..];
      apply Parses_one; first [apply FieldAt_len|apply FieldAt_int|apply FieldAt_i64]; try lia; try done;
      intros buf pos p Hr; unfold AnyValue_step; rewrite Hr; cbn [rbind]; try done.
    + by destruct b.
    + by rewrite i64_u64.
    + by rewrite (IHa _ Hv (fits_fLen _ _ Hf)).
    + by rewrite (IHk _ Hv (fits_fLen _ _ Hf)).
    + by rewrite i32_u64.
  - intros l Hl Hf. cbn [ArrayValue_unmarshalProto]. apply unmarshalFields_parses; [|done].
    apply values_parses. by apply (fits_values AnyValue_bytes (AnyOk true n)).
  - intros l Hl Hf. cbn [KeyValueList_unmarshalProto]. apply unmarshalFields_parses; [|done].
    apply values_parses. by apply (fits_values KeyValue_bytes (KvOk true n)).
  - intros [k v i] (Hk & Hv & Hi) Hf. cbn [KeyValue_unmarshalProto]. apply unmarshalFields_parses; [|done]. cbn [KeyValue_bytes] in *.
    assert (Hv' : AnyOk true n v) by (destruct Hv as [?|[? _] ]; done).
    apply fits_app in Hf as [_ [Hfv _]%fits_app]. apply fits_fLen in Hfv.
    apply (Parses_app _ _ _ _ (mkKeyValue [] AnyValue_nil i)).
    { apply Parses_when; [|intros E; by apply negb_false_iff, Z.eqb_eq in E as ->].
      intros _. apply Parses_one, FieldAt_int; [lia|]. intros buf pos p Hr. unfold KeyValue_step. rewrite Hr. cbn [rbind].
      by rewrite i32_u64. }
    apply (Parses_app _ _ _ _ (mkKeyValue [] v i)).
    { apply Parses_one, FieldAt_len; [lia|]. intros buf pos p Hr. unfold KeyValue_step. rewrite Hr. cbn [rbind Value].
      by rewrite IHv. }
    apply Parses_when; [|intros E; apply Z.ltb_ge in E; rewrite (len_0 k); [done|pose proof (len_nonneg k); lia]].
    intros _. apply Parses_one, FieldAt_len; [lia|]. intros buf pos p Hr. unfold KeyValue_step. by rewrite Hr.
Qed.

(** ** Any input *)
Lemma values_safe {A} (element : list Z -> A -> res A) zero (P : A -> Prop) :
  (forall b, fits b -> bytes b -> Safe P (element b zero)) -> SafeStep (values_step element zero) (Forall P).
Proof.
  intros He fn wt buf pos m Hp Hf Hb Hm. unfold values_step.
  destruct fn as [|[ | |]|]; try (by apply skipField_safe).
  eapply Safe_bind; [by apply readLen_safe|]. intros [b p] [ [Hbb Hfb] Hp']. cbv beta iota.
  eapply Safe_bind; [by apply He|]. intros v Hv. simpl. split; [|done]. apply Forall_app. by repeat constructor.
Qed.

Lemma AnyOk_safe n :
  (forall b v, fits b -> bytes b -> n = 0%nat \/ AnyOk false n v -> Safe (AnyOk false n) (AnyValue_unmarshalProto n b v)) /\
  (forall b l, fits b -> bytes b -> n = 0%nat \/ ArrayOk false n l -> Safe (ArrayOk false n) (ArrayValue_unmarshalProto n b l)) /\
  (forall b l, fits b -> bytes b -> n = 0%nat \/ KvlistOk false n l -> Safe (KvlistOk false n) (KeyValueList_unmarshalProto n b l)) /\
  (forall b m, fits b -> bytes b -> n = 0%nat \/ KvOk false n m -> Safe (KvOk false n) (KeyValue_unmarshalProto n b m)).
Proof.
  induction n as [|n (IHv & IHa & IHk & IHm)]; [by split_and!|].
  assert (Hz : n = 0%nat \/ (AnyOk false n AnyValue_nil /\ ArrayOk false n [] /\ KvlistOk false n [] /\ KvOk false n emptyKeyValue)).
  { destruct n; [by left|right]. simpl. split_and!; first [done|apply Forall_nil_2|by right|unfold is_i32; lia]. }
  split_and!; intros b m Hf Hb [?|Hm]; try done;
    cbn [AnyValue_unmarshalProto ArrayValue_unmarshalProto KeyValueList_unmarshalProto KeyValue_unmarshalProto].
  - apply unmarshalFields_safe; [|done..]. clear b m Hf Hb Hm. intros fn wt buf pos m Hp Hf Hb Hm. unfold AnyValue_step.
    destruct (decide (1 <= fn <= 8)) as [Hr|Hr].
    2:{ repeat (case_match; try (by apply skipField_safe); try lia). }
    assert (fn = 1 \/ fn = 2 \/ fn = 3 \/ fn = 4 \/ fn = 5 \/ fn = 6 \/ fn = 7 \/ fn = 8) as Hcases by lia.
    destruct_or! Hcases; subst fn;
      (eapply Safe_bind; [first [by apply readLen_safe|by apply readVarint_safe|by apply readI64_safe]|]);
      intros [x p] [Hx Hp']; cbv beta iota; try (simpl; split; [|done]; try done; try (by destruct Hx); first [apply i64_range|apply i32_range|done]).
    + eapply Safe_bind; [apply IHa; [by destruct Hx..|naive_solver]|]. intros v Hv. by split.
    + eapply Safe_bind; [apply IHk; [by destruct Hx..|naive_solver]|]. intros v Hv. by split.
  - apply unmarshalFields_safe; [|done..]. apply (values_safe _ _ (AnyOk false n)). intros. apply IHv; [done..|naive_solver].
  - apply unmarshalFields_safe; [|done..]. apply (values_safe _ _ (KvOk false n)). intros. apply IHm; [done..|naive_solver].
  - apply unmarshalFields_safe; [|done..]. clear b m Hf Hb Hm. intros fn wt buf pos [k v i] Hp Hf Hb (Hk & Hv & Hi). unfold KeyValue_step.
    destruct (decide (1 <= fn <= 3)) as [Hr|Hr].
    2:{ repeat (case_match; try (by apply skipField_safe); try lia). }
    assert (fn = 1 \/ fn = 2 \/ fn = 3) as Hcases by lia.
    destruct_or! Hcases; subst fn;
      (eapply Safe_bind; [first [by apply readLen_safe|by apply readVarint_safe]|]); intros [x p] [Hx Hp']; cbv beta iota.
    + simpl. split; [|done]. by destruct Hx.
    + eapply Safe_bind; [apply IHv; [by destruct Hx..|]|].
      * destruct Hv as [?|[_ ->] ]; naive_solver.
      * intros v' Hv'. split; [|done]. simpl. naive_solver.
    + simpl. split; [|done]. split_and!; [done..|apply i32_range].
Qed.
