(* ===== verification/ProtoMessage.v ===== *)
(** * Messages made of fields

    For each kind of field, one lemma on writing and sizing it ([Enc]), one on
    reading it back ([Rd]) and one on reading anything, so that the proofs for a
    message follow the order of its fields.  [Codec] is what a message offers
    to the messages that contain it. *)

From S2P Require Import Prelude Errors Sizers ProtoWire ProtoWireProofs ProtoFields.
Local Open Scope Z_scope.
Local Open Scope otel_scope.

(** ** The methods of a message *)
Class Codec (M : Type) := {
  zero : M;
  SizeProto : M -> Z;
  MarshalProto : M -> list Z -> res (Z * list Z);
  UnmarshalProto : list Z -> M -> res M;
  wire : M -> list Z;
  wellFormed : bool -> M -> Prop;
}.

(** What they promise: [MarshalProto] writes the bytes [wire], [SizeProto] of
    them; [UnmarshalProto] reads them back into a new message, and gives an error
    or a well-formed message on any input. *)
Class CodecLaws (M : Type) `{Codec M} : Prop := {
  codec_marshals : forall strict m, wellFormed strict m -> fits (wire m) -> Marshals (MarshalProto m) (wire m);
  codec_size : forall strict m, wellFormed strict m -> fits (wire m) -> SizeProto m = len (wire m);
  codec_roundtrip : forall m, wellFormed true m -> fits (wire m) -> UnmarshalProto (wire m) zero = Ok m;
  codec_safe : forall b m, fits b -> bytes b -> wellFormed false m -> Safe (wellFormed false) (UnmarshalProto b m);
  codec_zero : wellFormed false zero;
}.

(** ** Writing and sizing *)
Definition Enc (w : W) (size : Z) (out : list Z) : Prop := fits out -> Writes w out /\ size = len out.

Lemma Enc_seq w1 w2 s1 s2 o1 o2 : Enc w1 s1 o1 -> Enc w2 s2 o2 -> Enc (w1 >;> w2) (s1 + s2) (o2 ++ o1).
Proof.
  intros H1 H2 [F2 F1]%fits_app. destruct (H1 F1) as [W1 ->], (H2 F2) as [W2 ->].
  split; [by apply Writes_seq|]. rewrite len_app. lia.
Qed.

Lemma Enc_marshals w s o : Enc w s o -> fits o -> Marshals (runW w) o.
Proof. intros He Hf. by apply Marshals_run, He. Qed.

Lemma Enc_size w s o : Enc w s o -> fits o -> s = len o.
Proof. intros He Hf. by apply He. Qed.

Section EncFields.
Context (t : Z) (tagW : W) (fn : Z).

Lemma Enc_when b w s o : (b = true -> Enc w s o) -> Enc (wWhen b w) (if b then s else 0) (fWhen b o).
Proof. destruct b; intros H; [by apply H|]. intros _. split; [apply Writes_skip|done]. Qed.

Lemma Enc_len s : Writes tagW (tag fn 2) -> len (tag fn 2) = t -> Enc (wLen tagW s) (sizeLen t (len s)) (fLen fn s).
Proof. intros Hw <- Hf. apply fits_fLen in Hf as Hs. split; [by apply Writes_len|]. by rewrite len_fLen. Qed.

Lemma Enc_string s : Writes tagW (tag fn 2) -> len (tag fn 2) = t ->
  Enc (wWhen (0 <? len s) (wLen tagW s)) (if 0 <? len s then sizeLen t (len s) else 0) (fWhen (0 <? len s) (fLen fn s)).
Proof. intros. apply Enc_when. intros _. by apply Enc_len. Qed.

Lemma Enc_strings l : Writes tagW (tag fn 2) -> len (tag fn 2) = t ->
  Enc (wRepeated (fun s => wLen tagW s) l) (sizeRepeated (fun s => sizeLen t (len s)) l) (fRepeated (fun s => fLen fn s) l).
Proof.
  intros Hw Ht Hf. apply fits_fRepeated in Hf. assert (He : Forall (fun s => Writes (wLen tagW s) (fLen fn s) /\ sizeLen t (len s) = len (fLen fn s)) l).
  { eapply Forall_impl; [exact Hf|]. intros s Hs. by apply Enc_len. }
  split; [apply Writes_repeated|symmetry; apply len_fRepeated]; (eapply Forall_impl; [exact He|]); intros s [? ?]; done.
Qed.

Lemma Enc_int (v : Z) : Writes tagW (tag fn 0) -> len (tag fn 0) = t -> Enc (wInt tagW v) (t + sov (u64 v)) (fInt fn v).
Proof. intros Hw <- Hf. split; [by apply Writes_int|]. by rewrite len_fInt. Qed.

Lemma Enc_intField (v : Z) : Writes tagW (tag fn 0) -> len (tag fn 0) = t ->
  Enc (wWhen (negb (v =? 0)) (wInt tagW v)) (if negb (v =? 0) then t + sov (u64 v) else 0) (fWhen (negb (v =? 0)) (fInt fn v)).
Proof. intros. apply Enc_when. intros _. by apply Enc_int. Qed.

Lemma Enc_i64 (v : Z) : Writes tagW (tag fn 1) -> len (tag fn 1) + 8 = t -> Enc (wI64 tagW v) t (fI64 fn v).
Proof. intros Hw <- Hf. split; [by apply Writes_i64|]. by rewrite len_fI64. Qed.

Lemma Enc_i64Field (v : Z) : Writes tagW (tag fn 1) -> len (tag fn 1) + 8 = t ->
  Enc (wWhen (negb (v =? 0)) (wI64 tagW v)) (if negb (v =? 0) then t else 0) (fWhen (negb (v =? 0)) (fI64 fn v)).
Proof. intros. apply Enc_when. intros _. by apply Enc_i64. Qed.

Lemma Enc_i32Field (v : Z) : Writes tagW (tag fn 5) -> len (tag fn 5) + 4 = t ->
  Enc (wWhen (negb (v =? 0)) (wI32 tagW v)) (if negb (v =? 0) then t else 0) (fWhen (negb (v =? 0)) (fI32 fn v)).
Proof. intros Hw <-. apply Enc_when. intros _ Hf. split; [by apply Writes_i32|]. by rewrite len_fI32. Qed.

Lemma Enc_msg `{CodecLaws M} strict (m : M) : Writes tagW (tag fn 2) -> len (tag fn 2) = t -> wellFormed strict m ->
  Enc (wMsg tagW (MarshalProto m)) (sizeLen t (SizeProto m)) (fLen fn (wire m)).
Proof.
  intros Hw <- Hm Hf. apply fits_fLen in Hf as Hs. split; [apply Writes_msg; [done|by eapply codec_marshals|done]|].
  by rewrite len_fLen, (codec_size strict m).
Qed.

Lemma Enc_msgs `{CodecLaws M} strict (l : list M) : Writes tagW (tag fn 2) -> len (tag fn 2) = t -> Forall (wellFormed strict) l ->
  Enc (wRepeated (fun m => wMsg tagW (MarshalProto m)) l) (sizeRepeated (fun m => sizeLen t (SizeProto m)) l)
      (fRepeated (fun m => fLen fn (wire m)) l).
Proof.
  intros Hw Ht Hall Hf. apply fits_fRepeated in Hf.
  assert (He : Forall (fun m => Writes (wMsg tagW (MarshalProto m)) (fLen fn (wire m)) /\ sizeLen t (SizeProto m) = len (fLen fn (wire m))) l).
  { rewrite Forall_forall in *. intros m Hm. apply (Enc_msg strict); auto. }
  split; [apply Writes_repeated|symmetry; apply len_fRepeated]; (eapply Forall_impl; [exact He|]); intros s [? ?]; done.
Qed.
End EncFields.

(** ** Reading back *)
Section RdFields.
Context {M : Type} (step : Z -> Z -> list Z -> Z -> M -> res (M * Z)).

Definition Rd (c : list Z) (m m' : M) : Prop := fits c -> Parses step c m m'.

Lemma Rd_nil m : Rd [] m m.
Proof. intros _. constructor. Qed.

Lemma Rd_app a b m m' m'' : Rd a m m' -> Rd b m' m'' -> Rd (a ++ b) m m''.
Proof. intros Ha Hb [Fa Fb]%fits_app. eapply Parses_app; [by apply Ha|by apply Hb]. Qed.

Lemma Rd_unmarshal c m m' : Rd c m m' -> fits c -> unmarshalFields step c m = Ok m'.
Proof. intros Hr Hf. by apply unmarshalFields_parses, Hf; apply Hr. Qed.

(** [upd] sets the field; [m] has its zero value there. *)
Context (fn : Z) (name : string).
Hypothesis Hfn : 0 < fn < 2 ^ 28.

Lemma Rd_string (upd : list Z -> M) (m : M) s :
  (forall buf pos, step fn 2 buf pos m = let* (b, pos) := readLen name 2 buf pos in Ok (upd b, pos)) -> m = upd [] ->
  Rd (fWhen (0 <? len s) (fLen fn s)) m (upd s).
Proof.
  intros Hs Hm _. apply Parses_when.
  - intros _. apply Parses_one, FieldAt_len; [done|]. intros buf pos p Hr. by rewrite Hs, Hr.
  - intros E. apply Z.ltb_ge in E. rewrite (len_0 s); [done|]. pose proof (len_nonneg s). lia.
Qed.

Lemma Rd_strings (upd : list (list Z) -> M) (m : M) l :
  (forall buf pos l0, step fn 2 buf pos (upd l0) = let* (b, pos) := readLen name 2 buf pos in Ok (upd (l0 ++ [b]), pos)) -> m = upd [] ->
  Rd (fRepeated (fun s => fLen fn s) l) m (upd l).
Proof.
  intros Hs -> _. apply (Parses_repeated _ _ upd l). intros l1 x Hx. apply Parses_one, FieldAt_len; [done|].
  intros buf pos p Hr. by rewrite Hs, Hr.
Qed.

Lemma Rd_intField (conv : Z -> Z) (upd : Z -> M) (m : M) v :
  (forall buf pos, step fn 0 buf pos m = let* (num, pos) := readVarint name 0 buf pos in Ok (upd (conv num), pos)) ->
  m = upd 0 -> conv (u64 v) = v ->
  Rd (fWhen (negb (v =? 0)) (fInt fn v)) m (upd v).
Proof.
  intros Hs Hm Hv _. apply Parses_when.
  - intros _. apply Parses_one, FieldAt_int; [done|]. intros buf pos p Hr. rewrite Hs, Hr. cbn [rbind]. by rewrite Hv.
  - intros E. by apply negb_false_iff, Z.eqb_eq in E as ->.
Qed.

Lemma Rd_i64Field (upd : Z -> M) (m : M) v :
  (forall buf pos, step fn 1 buf pos m = let* (num, pos) := readI64 name 1 buf pos in Ok (upd num, pos)) ->
  m = upd 0 -> is_u64 v -> Rd (fWhen (negb (v =? 0)) (fI64 fn v)) m (upd v).
Proof.
  intros Hs Hm Hv _. apply Parses_when.
  - intros _. apply Parses_one, FieldAt_i64; [done..|]. intros buf pos p Hr. by rewrite Hs, Hr.
  - intros E. by apply negb_false_iff, Z.eqb_eq in E as ->.
Qed.

Lemma Rd_i32Field (upd : Z -> M) (m : M) v :
  (forall buf pos, step fn 5 buf pos m = let* (num, pos) := readI32 name 5 buf pos in Ok (upd num, pos)) ->
  m = upd 0 -> is_u32 v -> Rd (fWhen (negb (v =? 0)) (fI32 fn v)) m (upd v).
Proof.
  intros Hs Hm Hv _. apply Parses_when.
  - intros _. apply Parses_one, FieldAt_i32; [done..|]. intros buf pos p Hr. by rewrite Hs, Hr.
  - intros E. by apply negb_false_iff, Z.eqb_eq in E as ->.
Qed.

Lemma Rd_msg `{CodecLaws T} (upd : T -> M) (m : M) (x : T) :
  (forall buf pos, step fn 2 buf pos m =
     let* (b, pos) := readLen name 2 buf pos in let* v := UnmarshalProto b zero in Ok (upd v, pos)) ->
  wellFormed true x -> Rd (fLen fn (wire x)) m (upd x).
Proof.
  intros Hs Hx Hf. apply fits_fLen in Hf. apply Parses_one, FieldAt_len; [done|]. intros buf pos p Hr. rewrite Hs, Hr. cbn [rbind].
  by rewrite codec_roundtrip.
Qed.

Lemma Rd_msgs `{CodecLaws T} (upd : list T -> M) (m : M) (l : list T) :
  (forall buf pos l0, step fn 2 buf pos (upd l0) =
     let* (b, pos) := readLen name 2 buf pos in let* v := UnmarshalProto b zero in Ok (upd (l0 ++ [v]), pos)) ->
  m = upd [] -> Forall (wellFormed true) l -> Rd (fRepeated (fun x => fLen fn (wire x)) l) m (upd l).
Proof.
  intros Hs -> Hall Hf. apply fits_fRepeated in Hf. rewrite Forall_forall in *.
  apply (Parses_repeated _ _ upd l). intros l1 x Hx. apply Parses_one, FieldAt_len; [done|]. intros buf pos p Hr.
  rewrite Hs, Hr. cbn [rbind]. rewrite codec_roundtrip; [done|by apply Hall|by eapply fits_fLen, Hf].
Qed.
End RdFields.

(** ** Reading anything *)
Section SafeFields.
Context {M : Type} (I : M -> Prop) (name : string) (wt : Z) (buf : list Z) (pos : Z).
Hypothesis Hp : 0 <= pos <= len buf.
Hypothesis Hf : fits buf.
Hypothesis Hb : bytes buf.

Let Q : M * Z -> Prop := fun '(m, p) => I m /\ pos <= p <= len buf.

Lemma safe_bytes (upd : list Z -> M) : (forall s, bytes s -> I (upd s)) ->
  Safe Q (let* (b, pos) := readLen name wt buf pos in Ok (upd b, pos)).
Proof. intros Hu. eapply Safe_bind; [by apply readLen_safe|]. intros [b p] [ [? ?] ?]. split; [by apply Hu|done]. Qed.

Lemma safe_varint (upd : Z -> M) : (forall v, is_u64 v -> I (upd v)) ->
  Safe Q (let* (num, pos) := readVarint name wt buf pos in Ok (upd num, pos)).
Proof. intros Hu. eapply Safe_bind; [by apply readVarint_safe|]. intros [b p] [? ?]. split; [by apply Hu|done]. Qed.

Lemma safe_i64 (upd : Z -> M) : (forall v, is_u64 v -> I (upd v)) ->
  Safe Q (let* (num, pos) := readI64 name wt buf pos in Ok (upd num, pos)).
Proof. intros Hu. eapply Safe_bind; [by apply readI64_safe|]. intros [b p] [? ?]. split; [by apply Hu|done]. Qed.

Lemma safe_i32 (upd : Z -> M) : (forall v, is_u32 v -> I (upd v)) ->
  Safe Q (let* (num, pos) := readI32 name wt buf pos in Ok (upd num, pos)).
Proof. intros Hu. eapply Safe_bind; [by apply readI32_safe|]. intros [b p] [? ?]. split; [by apply Hu|done]. Qed.

Lemma safe_msg `{CodecLaws T} (x : T) (upd : T -> M) : wellFormed false x -> (forall v, wellFormed false v -> I (upd v)) ->
  Safe Q (let* (b, pos) := readLen name wt buf pos in let* v := UnmarshalProto b x in Ok (upd v, pos)).
Proof.
  intros Hx Hu. eapply Safe_bind; [by apply readLen_safe|]. intros [b p] [ [? ?] ?]. cbv beta iota.
  eapply Safe_bind; [by apply codec_safe|]. intros v Hv. split; [by apply Hu|done].
Qed.

Lemma safe_skip (m : M) : I m -> Safe Q (skipField wt buf pos m).
Proof. by apply skipField_safe. Qed.
End SafeFields.

(** ** From the fields to the message *)
Lemma Rd_eq {M} (step : Z -> Z -> list Z -> Z -> M -> res (M * Z)) c m m' m'' : Rd step c m m' -> m' = m'' -> Rd step c m m''.
Proof. by intros H <-. Qed.

(** [MarshalProto] as a sequence of fields. *)
Definition Encodes (marshal : list Z -> res (Z * list Z)) (size : Z) (out : list Z) : Prop :=
  exists w, marshal = runW w /\ Enc w size out.

(** The methods of a message made of fields keep the laws when each field is
    written, sized and read as these say. *)
Lemma fields_laws {M} `{Codec M} (step : Z -> Z -> list Z -> Z -> M -> res (M * Z)) :
  (forall b m, UnmarshalProto b m = unmarshalFields step b m) ->
  (forall strict m, wellFormed strict m -> Encodes (MarshalProto m) (SizeProto m) (wire m)) ->
  (forall m, wellFormed true m -> Rd step (wire m) zero m) ->
  SafeStep step (wellFormed false) -> wellFormed false zero -> CodecLaws M.
Proof.
  intros Hu He Hr Hs Hz. split; [..|done].
  - intros strict m Hw Hf. destruct (He strict m Hw) as (w & -> & Hw'). by eapply Enc_marshals.
  - intros strict m Hw Hf. destruct (He strict m Hw) as (w & _ & Hw'). by eapply Enc_size.
  - intros m Hw Hf. rewrite Hu. apply Rd_unmarshal; [by apply Hr|done].
  - intros b m Hf Hb Hw. rewrite Hu. by apply unmarshalFields_safe.
Qed.
