(* ===== verification/ProtoKinds.v ===== *)
(** * More kinds of fields

    The snippets of the generated methods for the fields that only some messages
    have: booleans, doubles, zig-zag integers, packed lists, byte slices,
    optional fields and pointers; with their lemmas on writing, reading back and
    reading anything.  A [float64] is kept as its bits. *)

From S2P Require Import Prelude RecordUpdate Errors Sizers ProtoWire ProtoWireProofs ProtoFields ProtoMessage.
Local Open Scope Z_scope.
Local Open Scope otel_scope.

(** ** Booleans *)
Definition wBool (tag : W) (v : bool) : W := wByte (if v then 1 else 0) >;> tag.

(** ** Doubles: [v != float64(0)] is false for both zeros *)
Definition negativeZero : Z := 2 ^ 63.
Definition isNonZero (bits : Z) : bool := negb ((bits =? 0) || (bits =? negativeZero)).

(** ** sint32

    [uint64((uint32(v)<<1)^uint32(v>>31))] and
    [int32(uint32(num>>1) ^ uint32(int32((num&1)<<31)>>31))]. *)
Definition zigzag (v : Z) : Z := Z.lxor (u32 (Z.shiftl (u32 v) 1)) (u32 (Z.shiftr v 31)).
Definition unzigzag (num : Z) : Z :=
  i32 (Z.lxor (u32 (Z.shiftr num 1)) (u32 (Z.shiftr (i32 (Z.shiftl (Z.land num 1) 31)) 31))).

(** ** Packed lists *)
Definition wPackedI64 (tag : W) (l : list Z) : W :=
  wRepeated (fun v => wFixed 8 v) l >;> wVarint (len l * 8) >;> tag.

Definition wPackedInt (tag : W) (l : list Z) : W :=
  fun '(buf, endPos) =>
    let* (buf, pos) := wRepeated (fun v => wVarint (u64 v)) l (buf, endPos) in
    (wVarint (endPos - pos) >;> tag) (buf, pos).

Definition sizePackedInt (tag : Z) (l : list Z) : Z := sizeLen tag (sizeRepeated (fun e => sov (u64 e)) l).

Definition invalidFieldLen (name : string) (n : Z) : error :=
  Errorf (String.append "proto: invalid field len = %d for field " name) [ArgZ n].

(** The loop over the [size] fixed integers of a packed field. *)
Fixpoint consumeI64s (size : nat) (buf : list Z) (startPos : Z) : res (list Z * Z) :=
  match size with
  | O => Ok ([], startPos)
  | S size =>
      let* (num, startPos) := ConsumeI64 buf startPos in
      let* (l, startPos) := consumeI64s size buf startPos in
      Ok (num :: l, startPos)
  end.

(** A packed chunk replaces the list; a single value is appended to it. *)
Definition readPackedI64 (name : string) (wireType : Z) (buf : list Z) (pos : Z) (cur : list Z) : res (list Z * Z) :=
  if wireType =? WireTypeLen then
    let* (length, pos) := ConsumeLen buf pos in
    let* sub := slice buf 0 pos in
    let* (l, startPos) := consumeI64s (Z.to_nat (length / 8)) sub (pos - length) in
    if negb (startPos =? pos) then Err (invalidFieldLen name (pos - startPos)) else Ok (l, pos)
  else if wireType =? WireTypeI64 then
    let* (num, pos) := ConsumeI64 buf pos in Ok (cur ++ [num], pos)
  else Err (wrongWireType name wireType).

(** The loop [for startPos < pos] over a packed list of varints; [buf] ends at
    [pos], and every round consumes a byte. *)
Fixpoint consumeVarints (fuel : nat) (conv : Z -> Z) (buf : list Z) (startPos : Z) (cur : list Z) : res (list Z * Z) :=
  if startPos <? len buf then
    match fuel with
    | O => OutOfFuel
    | S fuel =>
        let* (num, startPos) := ConsumeVarint buf startPos in
        consumeVarints fuel conv buf startPos (cur ++ [conv num])
    end
  else Ok (cur, startPos).

Definition readPackedInt (conv : Z -> Z) (name : string) (wireType : Z) (buf : list Z) (pos : Z) (cur : list Z) : res (list Z * Z) :=
  if wireType =? WireTypeLen then
    let* (n, pos) := ConsumeLen buf pos in
    let* sub := slice buf 0 pos in
    let* (l, startPos) := consumeVarints (length sub) conv sub (pos - n) cur in
    if negb (startPos =? pos) then Err (invalidFieldLen name (pos - startPos)) else Ok (l, pos)
  else if wireType =? WireTypeVarint then
    let* (num, pos) := ConsumeVarint buf pos in Ok (cur ++ [conv num], pos)
  else Err (wrongWireType name wireType).

(** ** Byte slices: an empty field leaves the old bytes *)
Definition setBytes (b old : list Z) : list Z := if negb (len b =? 0) then b else old.

(** ** Pointers to messages *)
Definition sizePtr {M} `{Codec M} (tag : Z) (p : option M) : Z :=
  match p with Some m => sizeLen tag (SizeProto m) | None => 0 end.
Definition wPtr {M} `{Codec M} (tag : W) (p : option M) : W :=
  match p with Some m => wMsg tag (MarshalProto m) | None => wSkip end.
Definition fPtr {M} `{Codec M} (fn : Z) (p : option M) : list Z :=
  match p with Some m => fLen fn (wire m) | None => [] end.

(** ** Zig-zag *)
Lemma lxor_ones x n : 0 <= n -> 0 <= x < 2 ^ n -> Z.lxor x (2 ^ n - 1) = 2 ^ n - 1 - x.
Proof.
  intros Hn Hx. replace (2 ^ n - 1) with (Z.ones n) by (rewrite Z.ones_equiv; lia).
  assert (Hd : Z.ldiff x (Z.ones n) = 0) by (rewrite Z.ldiff_ones_r by lia; rewrite Z.shiftr_div_pow2, Z.div_small by lia; apply Z.shiftl_0_l).
  rewrite Z.sub_nocarry_ldiff by done. apply Z.bits_inj'. intros i Hi.
  rewrite Z.lxor_spec, Z.ldiff_spec. destruct (Z.ltb_spec i n).
  - rewrite Z.ones_spec_low by lia. by destruct (Z.testbit x i).
  - rewrite Z.ones_spec_high by lia. rewrite xorb_false_r. simpl.
    destruct (decide (x = 0)) as [->|Hne]; [apply Z.bits_0|]. apply Z.bits_above_log2; [lia|].
    apply Z.lt_le_trans with n; [apply Z.log2_lt_pow2; lia|lia].
Qed.

Definition zz (v : Z) : Z := if v <? 0 then -2 * v - 1 else 2 * v.

Lemma zz_range v : is_i32 v -> is_u32 (zz v).
Proof. unfold is_i32, is_u32, zz. intros. destruct (Z.ltb_spec v 0); lia. Qed.

Lemma zigzag_zz v : is_i32 v -> zigzag v = zz v.
Proof.
  unfold is_i32. intros Hv. unfold zigzag, zz, u32. rewrite Z.shiftr_div_pow2, Z.shiftl_mul_pow2 by lia.
  destruct (Z.ltb_spec v 0) as [Hn|Hp].
  - assert (E : v / 2 ^ 31 = -1) by (symmetry; apply (Z.div_unique_pos v (2 ^ 31) (-1) (v + 2 ^ 31)); lia). rewrite E.
    change ((-1) mod 2 ^ 32) with (2 ^ 32 - 1).
    assert (E2 : v mod 2 ^ 32 = v + 2 ^ 32) by (symmetry; apply (Z.mod_unique_pos v (2 ^ 32) (-1)); lia). rewrite E2.
    assert (E3 : ((v + 2 ^ 32) * 2 ^ 1) mod 2 ^ 32 = 2 * v + 2 ^ 32).
    { symmetry. apply (Z.mod_unique_pos _ (2 ^ 32) 1); lia. }
    rewrite E3, lxor_ones by lia. lia.
  - rewrite (Z.div_small v) by lia. rewrite (Z.mod_small v) by lia. rewrite Z.mod_0_l, Z.lxor_0_r by lia.
    rewrite Z.mod_small by lia. lia.
Qed.

Lemma Soz_zz v : is_i32 v -> Soz (u64 v) = sov (zz v).
Proof.
  intros Hv. unfold Soz. rewrite i64_u64 by (unfold is_i32, is_i64 in *; lia). unfold is_i32 in Hv. unfold zz, u64.
  rewrite Z.shiftr_div_pow2, Z.shiftl_mul_pow2 by lia. f_equal. destruct (Z.ltb_spec v 0) as [Hn|Hp].
  - assert (E : v / 2 ^ 63 = -1) by (symmetry; apply (Z.div_unique_pos v (2 ^ 63) (-1) (v + 2 ^ 63)); lia). rewrite E.
    change ((-1) mod 2 ^ 64) with (2 ^ 64 - 1).
    assert (E2 : v mod 2 ^ 64 = v + 2 ^ 64) by (symmetry; apply (Z.mod_unique_pos v (2 ^ 64) (-1)); lia). rewrite E2.
    assert (E3 : ((v + 2 ^ 64) * 2 ^ 1) mod 2 ^ 64 = 2 * v + 2 ^ 64).
    { symmetry. apply (Z.mod_unique_pos _ (2 ^ 64) 1); lia. }
    rewrite E3, lxor_ones by lia. lia.
  - rewrite (Z.div_small v) by lia. rewrite (Z.mod_small v) by lia. rewrite Z.mod_0_l, Z.lxor_0_r by lia.
    rewrite Z.mod_small by lia. lia.
Qed.

Lemma land1 x : Z.land x 1 = x mod 2.
Proof. change 1 with (Z.ones 1). by rewrite Z.land_ones by lia. Qed.

Lemma unzigzag_zz v : is_i32 v -> unzigzag (zz v) = v.
Proof.
  intros Hv. unfold unzigzag. pose proof (i32_id v Hv) as Hid. unfold is_i32 in Hv. unfold zz.
  rewrite land1, !Z.shiftr_div_pow2 by lia.
  destruct (Z.ltb_spec v 0) as [Hn|Hp].
  - assert (E : (-2 * v - 1) mod 2 = 1) by (symmetry; apply (Z.mod_unique_pos _ _ (- v - 1)); lia). rewrite E.
    assert (E2 : (-2 * v - 1) / 2 ^ 1 = - v - 1) by (symmetry; apply (Z.div_unique_pos _ _ _ 1); lia). rewrite E2.
    change (u32 (i32 (Z.shiftl 1 31) / 2 ^ 31)) with (2 ^ 32 - 1). rewrite u32_id by (unfold is_u32; lia).
    rewrite lxor_ones by lia. replace (2 ^ 32 - 1 - (- v - 1)) with (v + 1 * 2 ^ 32) by lia.
    unfold i32 in *. rewrite <- Hid at 2. f_equal. replace (v + 1 * 2 ^ 32 + 2 ^ 31) with (v + 2 ^ 31 + 1 * 2 ^ 32) by lia.
    by rewrite Z.mod_add by lia.
  - assert (E : (2 * v) mod 2 = 0) by (symmetry; apply (Z.mod_unique_pos _ _ v); lia). rewrite E.
    assert (E2 : (2 * v) / 2 ^ 1 = v) by (symmetry; apply (Z.div_unique_pos _ _ _ 0); lia). rewrite E2.
    change (u32 (i32 (Z.shiftl 0 31) / 2 ^ 31)) with 0. rewrite Z.lxor_0_r. rewrite u32_id by (unfold is_u32; lia). done.
Qed.

(** ** Writing and sizing *)
Section EncKinds.
Context (t : Z) (tagW : W) (fn : Z).

Lemma Enc_whenI64 b (v : Z) : Writes tagW (tag fn 1) -> len (tag fn 1) + 8 = t ->
  Enc (wWhen b (wI64 tagW v)) (if b then t else 0) (fWhen b (fI64 fn v)).
Proof. intros. apply Enc_when. intros _. by apply Enc_i64. Qed.

Lemma Enc_boolField v : Writes tagW (tag fn 0) -> len (tag fn 0) + 1 = t ->
  Enc (wWhen v (wBool tagW v)) (if v then t else 0) (fWhen v (fInt fn 1)).
Proof.
  intros Hw <-. apply Enc_when. intros -> _. split.
  - apply (Writes_seq (wByte 1) tagW [1]); [apply Writes_byte|done].
  - by rewrite len_fInt.
Qed.

Lemma Enc_zigzag v : Writes tagW (tag fn 0) -> len (tag fn 0) = t -> is_i32 v ->
  Enc (wWhen (negb (v =? 0)) (wInt tagW (zigzag v))) (if negb (v =? 0) then t + Soz (u64 v) else 0)
    (fWhen (negb (v =? 0)) (fInt fn (zigzag v))).
Proof.
  intros Hw <- Hv. apply Enc_when. intros _ Hf. split; [by apply Writes_int|].
  rewrite len_fInt, Soz_zz, zigzag_zz, u64_id; [done| |done..].
  apply zz_range in Hv. unfold is_u32, is_u64 in *. lia.
Qed.

Lemma len_I64s l : len (fRepeated (leBytes 8) l) = len l * 8.
Proof.
  induction l as [|v l IH]; [done|]. unfold fRepeated in *. cbn [map concat]. rewrite len_app, IH, len_cons.
  unfold len at 1. rewrite length_leBytes. lia.
Qed.

Lemma Enc_packedI64 l : Writes tagW (tag fn 2) -> len (tag fn 2) = t ->
  Enc (wWhen (0 <? len l) (wPackedI64 tagW l)) (if 0 <? len l then sizeLen t (len l * 8) else 0)
    (fWhen (0 <? len l) (fLen fn (fRepeated (leBytes 8) l))).
Proof.
  intros Hw <-. apply Enc_when. intros _ Hf. apply fits_fLen in Hf. rewrite len_fLen, len_I64s by done. split; [|done].
  unfold fits in Hf. rewrite len_I64s in Hf. pose proof (len_nonneg l).
  unfold wPackedI64, fLen. rewrite len_I64s. apply Writes_seq; [|done]. apply Writes_seq; [|apply Writes_varint; unfold is_u64; lia].
  apply Writes_repeated, Forall_forall. intros v _. apply Writes_fixed.
Qed.

Lemma len_varints l : len (fRepeated (fun v => varint (u64 v)) l) = sizeRepeated (fun e => sov (u64 e)) l.
Proof. apply len_fRepeated, Forall_forall. intros v _. by apply len_varint, u64_range. Qed.

Lemma Writes_packedInt l out : Writes tagW (tag fn 2) -> out = fRepeated (fun v => varint (u64 v)) l -> fits out ->
  Writes (wPackedInt tagW l) (fLen fn out).
Proof.
  intros Hw Ho Hf pre room post Hr. unfold fLen in *. rewrite app_assoc, len_app in Hr.
  assert (Hl : Writes (wRepeated (fun v => wVarint (u64 v)) l) out).
  { rewrite Ho. apply Writes_repeated, Forall_forall. intros v _. apply Writes_varint, u64_range. }
  destruct (split_len room (len (tag fn 2 ++ varint (len out))) (len out)) as (r2 & r1 & -> & L2 & L1); [apply len_nonneg..|done|].
  unfold wPackedInt. replace (pre ++ (r2 ++ r1) ++ post) with ((pre ++ r2) ++ r1 ++ post) by (by rewrite <- !app_assoc).
  replace (len pre + len (r2 ++ r1)) with (len (pre ++ r2) + len r1) by (rewrite !len_app; lia). rewrite Hl by done. cbn [rbind].
  replace (len (pre ++ r2) + len r1 - len (pre ++ r2)) with (len out) by lia.
  rewrite <- app_assoc, len_app. rewrite (Writes_seq _ _ (varint (len out)) (tag fn 2)) by
    (try done; apply Writes_varint; unfold fits, is_u64 in *; pose proof (len_nonneg out); lia).
  by rewrite <- !app_assoc.
Qed.

Lemma Enc_packedInt l : Writes tagW (tag fn 2) -> len (tag fn 2) = t ->
  Enc (wWhen (0 <? len l) (wPackedInt tagW l)) (if 0 <? len l then sizePackedInt t l else 0)
    (fWhen (0 <? len l) (fLen fn (fRepeated (fun v => varint (u64 v)) l))).
Proof.
  intros Hw <-. apply Enc_when. intros _ Hf. apply fits_fLen in Hf. split; [by eapply Writes_packedInt|].
  unfold sizePackedInt. by rewrite len_fLen, len_varints.
Qed.
End EncKinds.

Definition ptrOk {M} `{Codec M} (strict : bool) (p : option M) : Prop :=
  match p with Some m => wellFormed strict m | None => True end.

(** A zero with a sign is not written. *)
Definition doubleOk (strict : bool) (v : Z) : Prop := is_u64 v /\ (strict = true -> v <> negativeZero).

Lemma Enc_ptr t tagW fn `{CodecLaws M} strict (p : option M) :
  Writes tagW (tag fn 2) -> len (tag fn 2) = t -> ptrOk strict p -> Enc (wPtr tagW p) (sizePtr t p) (fPtr fn p).
Proof.
  intros Hw Ht Hp. destruct p as [m|]; [by eapply Enc_msg|]. intros _. split; [apply Writes_skip|done].
Qed.

(** ** Reading back *)
Lemma ConsumeI64_app pre v post : is_u64 v -> fits (pre ++ leBytes 8 v ++ post) ->
  ConsumeI64 (pre ++ leBytes 8 v ++ post) (len pre) = Ok (v, len pre + len (leBytes 8 v)).
Proof. intros. by apply (consume_fixed_app 8). Qed.

Lemma consumeI64s_app l pre post : Forall is_u64 l -> fits (pre ++ fRepeated (leBytes 8) l ++ post) ->
  consumeI64s (length l) (pre ++ fRepeated (leBytes 8) l ++ post) (len pre) = Ok (l, len pre + len (fRepeated (leBytes 8) l)).
Proof.
  intros Hl. revert pre. induction Hl as [|v l Hv Hl IH]; intros pre Hf; unfold fRepeated in *; cbn [map concat length consumeI64s] in *.
  - f_equal. f_equal. change (len (@nil Z)) with 0. lia.
  - rewrite <- app_assoc in *. rewrite ConsumeI64_app by done. cbn [rbind]. rewrite (app_assoc pre), <- len_app in *.
    rewrite IH by done. cbn [rbind]. f_equal. f_equal. rewrite !len_app. lia.
Qed.

Lemma consumeVarints_app conv l pre cur fuel : (length (fRepeated (fun v => varint (u64 v)) l) <= fuel)%nat ->
  consumeVarints fuel conv (pre ++ fRepeated (fun v => varint (u64 v)) l) (len pre) cur =
  Ok (cur ++ map (fun v => conv (u64 v)) l, len (pre ++ fRepeated (fun v => varint (u64 v)) l)).
Proof.
  revert pre cur fuel. induction l as [|v l IH]; intros pre cur fuel Hl; unfold fRepeated in *; cbn [map concat] in *.
  - rewrite !app_nil_r. destruct fuel; cbn [consumeVarints]; by rewrite Z.ltb_irrefl.
  - rewrite length_app in Hl. pose proof (varintBytes_ne 10 (u64 v) ltac:(lia)) as Hne. fold (varint (u64 v)) in Hne.
    destruct (varint (u64 v)) as [|b r] eqn:E; [done|]. simpl in Hl. destruct fuel as [|fuel]; [lia|]. rewrite <- E in *.
    cbn [consumeVarints]. rewrite !len_app. pose proof (len_nonneg (concat (map (fun v => varint (u64 v)) l))).
    assert (0 < len (varint (u64 v))) by (rewrite E, len_cons; pose proof (len_nonneg r); lia).
    destruct (Z.ltb_spec (len pre) (len pre + (len (varint (u64 v)) + len (concat (map (fun v => varint (u64 v)) l))))); [|lia].
    rewrite ConsumeVarint_app by apply u64_range. cbn [rbind]. rewrite app_assoc, <- len_app, IH by (unfold fRepeated; lia).
    rewrite <- app_assoc. f_equal. f_equal. rewrite !len_app. lia.
Qed.

Lemma packed_prefix pre s post :
  slice (pre ++ (varint (len s) ++ s) ++ post) 0 (len pre + len (varint (len s) ++ s)) = Ok ((pre ++ varint (len s)) ++ s).
Proof.
  pose proof (slice_app [] (pre ++ varint (len s) ++ s) post) as Hs. change (len (@nil Z)) with 0 in Hs. rewrite Z.add_0_l in Hs.
  cbn [app] in Hs. rewrite len_app in Hs. rewrite <- !app_assoc in *. by rewrite Hs.
Qed.

Lemma readPackedI64_app name pre l post cur :
  let s := fRepeated (leBytes 8) l in Forall is_u64 l -> fits (pre ++ (varint (len s) ++ s) ++ post) ->
  readPackedI64 name 2 (pre ++ (varint (len s) ++ s) ++ post) (len pre) cur = Ok (l, len pre + len (varint (len s) ++ s)).
Proof.
  intros s Hl Hf. unfold readPackedI64. simpl (2 =? WireTypeLen). cbv iota. rewrite ConsumeLen_app by done. cbn [rbind].
  rewrite packed_prefix. cbn [rbind]. replace (len pre + len (varint (len s) ++ s) - len s) with (len (pre ++ varint (len s))) by (rewrite !len_app; lia).
  replace (Z.to_nat (len s / 8)) with (length l) by (unfold s; rewrite len_I64s, Z.div_mul by lia; unfold len; lia).
  pose proof (consumeI64s_app l (pre ++ varint (len s)) [] Hl) as Hc. rewrite !app_nil_r in Hc. fold s in Hc. rewrite Hc.
  - cbn [rbind]. rewrite !len_app. rewrite Z.add_assoc, Z.eqb_refl. done.
  - unfold fits in *. rewrite !len_app in *. pose proof (len_nonneg post). lia.
Qed.

Lemma readPackedInt_app conv name pre l post cur :
  let s := fRepeated (fun v => varint (u64 v)) l in Forall (fun v => conv (u64 v) = v) l -> fits (pre ++ (varint (len s) ++ s) ++ post) ->
  readPackedInt conv name 2 (pre ++ (varint (len s) ++ s) ++ post) (len pre) cur = Ok (cur ++ l, len pre + len (varint (len s) ++ s)).
Proof.
  intros s Hl Hf. unfold readPackedInt. simpl (2 =? WireTypeLen). cbv iota. rewrite ConsumeLen_app by done. cbn [rbind].
  rewrite packed_prefix. cbn [rbind]. replace (len pre + len (varint (len s) ++ s) - len s) with (len (pre ++ varint (len s))) by (rewrite !len_app; lia).
  pose proof (consumeVarints_app conv l (pre ++ varint (len s)) cur (length ((pre ++ varint (len s)) ++ s))) as Hc.
  fold s in Hc. rewrite Hc by (rewrite length_app; lia). cbn [rbind].
  rewrite !len_app. rewrite Z.add_assoc, Z.eqb_refl. cbn [negb]. do 3 f_equal.
  clear -Hl. induction Hl; simpl; congruence.
Qed.

Section RdKinds.
Context {M : Type} (step : Z -> Z -> list Z -> Z -> M -> res (M * Z)) (fn : Z) (name : string).
Hypothesis Hfn : 0 < fn < 2 ^ 28.

Lemma Rd_one64 (upd : Z -> M) (m : M) v :
  (forall buf pos, step fn 1 buf pos m = let* (num, pos) := readI64 name 1 buf pos in Ok (upd num, pos)) ->
  is_u64 v -> Rd step (fI64 fn v) m (upd v).
Proof. intros Hs Hv _. apply Parses_one, FieldAt_i64; [done..|]. intros buf pos p Hr. by rewrite Hs, Hr. Qed.

Lemma Rd_double (upd : Z -> M) (m : M) v :
  (forall buf pos, step fn 1 buf pos m = let* (num, pos) := readI64 name 1 buf pos in Ok (upd num, pos)) ->
  m = upd 0 -> doubleOk true v -> Rd step (fWhen (isNonZero v) (fI64 fn v)) m (upd v).
Proof.
  intros Hs Hm [Hv Hz] Hf. apply Parses_when.
  - intros E. rewrite E in Hf. by eapply Rd_one64.
  - unfold isNonZero. intros [E|E]%negb_false_iff%orb_true_iff; apply Z.eqb_eq in E; [by subst|by destruct (Hz eq_refl)].
Qed.

Lemma Rd_opt (upd : Z -> M) (m : M) b v :
  (forall buf pos, step fn 1 buf pos m = let* (num, pos) := readI64 name 1 buf pos in Ok (upd num, pos)) ->
  is_u64 v -> Rd step (fWhen b (fI64 fn v)) m (if b then upd v else m).
Proof. intros Hs Hv. destruct b; [by apply Rd_one64|apply Rd_nil]. Qed.

Lemma Rd_bool (upd : bool -> M) (m : M) v :
  (forall buf pos, step fn 0 buf pos m = let* (num, pos) := readVarint name 0 buf pos in Ok (upd (negb (num =? 0)), pos)) ->
  m = upd false -> Rd step (fWhen v (fInt fn 1)) m (upd v).
Proof.
  intros Hs Hm _. apply Parses_when; [|by intros ->].
  intros ->. apply Parses_one, FieldAt_int; [done|]. intros buf pos p Hr. by rewrite Hs, Hr.
Qed.

Lemma Rd_zigzag (upd : Z -> M) (m : M) v :
  (forall buf pos, step fn 0 buf pos m = let* (num, pos) := readVarint name 0 buf pos in Ok (upd (unzigzag num), pos)) ->
  m = upd 0 -> is_i32 v -> Rd step (fWhen (negb (v =? 0)) (fInt fn (zigzag v))) m (upd v).
Proof.
  intros Hs Hm Hv _. apply Parses_when.
  - intros _. apply Parses_one, FieldAt_int; [done|]. intros buf pos p Hr. rewrite Hs, Hr. cbn [rbind].
    rewrite zigzag_zz, u64_id, unzigzag_zz; [done..| |done]. apply zz_range in Hv. unfold is_u32, is_u64 in *. lia.
  - intros E. by apply negb_false_iff, Z.eqb_eq in E as ->.
Qed.

Lemma Rd_bytes (upd : list Z -> M) (m : M) s :
  (forall buf pos, step fn 2 buf pos m = let* (b, pos) := readLen name 2 buf pos in Ok (upd (setBytes b []), pos)) ->
  m = upd [] -> Rd step (fWhen (0 <? len s) (fLen fn s)) m (upd s).
Proof.
  intros Hs Hm _. apply Parses_when; intros E.
  - apply Parses_one, FieldAt_len; [done|]. intros buf pos p Hr. rewrite Hs, Hr. cbn [rbind]. unfold setBytes.
    apply Z.ltb_lt in E. destruct (Z.eqb_spec (len s) 0); [lia|done].
  - apply Z.ltb_ge in E. rewrite (len_0 s); [done|]. pose proof (len_nonneg s). lia.
Qed.

Lemma Rd_packedI64 (upd : list Z -> M) (m : M) l :
  (forall buf pos, step fn 2 buf pos m = let* (l, pos) := readPackedI64 name 2 buf pos [] in Ok (upd l, pos)) ->
  m = upd [] -> Forall is_u64 l -> Rd step (fWhen (0 <? len l) (fLen fn (fRepeated (leBytes 8) l))) m (upd l).
Proof.
  intros Hs Hm Hl _. apply Parses_when; intros E.
  - apply Parses_one. unfold fLen. apply FieldAt_tag; [done..|]. intros pre post Hf. rewrite Hs, readPackedI64_app by done. done.
  - apply Z.ltb_ge in E. rewrite (len_0 l); [done|]. pose proof (len_nonneg l). lia.
Qed.

Lemma Rd_packedInt (conv : Z -> Z) (upd : list Z -> M) (m : M) l :
  (forall buf pos, step fn 2 buf pos m = let* (l, pos) := readPackedInt conv name 2 buf pos [] in Ok (upd l, pos)) ->
  m = upd [] -> Forall (fun v => conv (u64 v) = v) l ->
  Rd step (fWhen (0 <? len l) (fLen fn (fRepeated (fun v => varint (u64 v)) l))) m (upd l).
Proof.
  intros Hs Hm Hl _. apply Parses_when; intros E.
  - apply Parses_one. unfold fLen. apply FieldAt_tag; [done..|]. intros pre post Hf. rewrite Hs, readPackedInt_app by done. done.
  - apply Z.ltb_ge in E. rewrite (len_0 l); [done|]. pose proof (len_nonneg l). lia.
Qed.

Lemma Rd_ptr `{CodecLaws T} (upd : option T -> M) (m : M) (x : option T) :
  (forall buf pos, step fn 2 buf pos m =
     let* (b, pos) := readLen name 2 buf pos in let* v := UnmarshalProto b zero in Ok (upd (Some v), pos)) ->
  m = upd None -> ptrOk true x -> Rd step (fPtr fn x) m (upd x).
Proof.
  intros Hs Hm Hx. destruct x as [x|]; [|rewrite Hm; apply Rd_nil].
  by apply (Rd_msg step fn name Hfn (fun v => upd (Some v))).
Qed.
End RdKinds.

(** ** Reading anything *)
Lemma setBytes_bytes b old : bytes b -> bytes old -> bytes (setBytes b old).
Proof. unfold setBytes. by destruct (len b =? 0). Qed.

Lemma consumeI64s_safe n buf pos : 0 <= pos <= len buf -> fits buf -> bytes buf ->
  Safe (fun '(l, p) => Forall is_u64 l /\ pos <= p <= len buf) (consumeI64s n buf pos).
Proof.
  revert pos. induction n as [|n IH]; intros pos Hp Hf Hb; cbn [consumeI64s]; [split; [constructor|lia]|].
  eapply Safe_bind; [by apply (consume_fixed_value buf pos 8)|]. intros [v p] [Hv Hp1].
  eapply Safe_bind; [apply IH; [lia|done..]|]. intros [l p2] [Hl Hp2]. split; [by constructor|lia].
Qed.

Lemma consumeVarints_safe (P : Z -> Prop) conv fuel buf pos cur : (forall v, is_u64 v -> P (conv v)) ->
  0 <= pos <= len buf -> Forall P cur -> len buf - pos <= Z.of_nat fuel ->
  Safe (fun '(l, p) => Forall P l /\ p = len buf) (consumeVarints fuel conv buf pos cur).
Proof.
  intros HP. revert pos cur. induction fuel as [|fuel IH]; intros pos cur Hp Hc Hl; cbn [consumeVarints];
    destruct (Z.ltb_spec pos (len buf)); try lia; try (split; [done|lia]).
  eapply Safe_bind; [apply ConsumeVarint_safe; lia|]. intros [v p] [Hp1 Hv].
  apply IH; [lia| |lia]. apply Forall_app_2; [done|]. apply Forall_singleton. by apply HP.
Qed.

Section SafeKinds.
Context {M : Type} (I : M -> Prop) (name : string) (wt : Z) (buf : list Z) (pos : Z).
Hypothesis Hp : 0 <= pos <= len buf.
Hypothesis Hf : fits buf.
Hypothesis Hb : bytes buf.

Let Q : M * Z -> Prop := fun '(m, p) => I m /\ pos <= p <= len buf.

Lemma safe_packedI64 cur (upd : list Z -> M) : Forall is_u64 cur -> (forall l, Forall is_u64 l -> I (upd l)) ->
  Safe Q (let* (l, pos) := readPackedI64 name wt buf pos cur in Ok (upd l, pos)).
Proof.
  intros Hc Hu. eapply (Safe_bind (fun '(l, p) => Forall is_u64 l /\ pos <= p <= len buf)).
  2:{ intros [l p] [Hl Hp1]. split; [by apply Hu|done]. }
  unfold readPackedI64. destruct (wt =? WireTypeLen); [|destruct (wt =? WireTypeI64); [|done] ].
  - eapply Safe_bind; [by apply ConsumeLen_safe|]. intros [n p] (Hn & Hp1 & Hp2).
    destruct (slice_ok buf 0 p) as (s & -> & Hl & Hsb); [lia..|]. cbn [rbind]. rewrite Z.sub_0_r in Hl.
    eapply Safe_bind; [apply consumeI64s_safe; [lia|unfold fits in *; lia|by apply Hsb]|]. intros [l p3] [Hl3 Hp3].
    destruct (p3 =? p); [|done]. split; [done|lia].
  - eapply Safe_bind; [by apply (consume_fixed_value buf pos 8)|]. intros [v p] [Hv Hp1]. split; [|done].
    apply Forall_app_2; [done|by apply Forall_singleton].
Qed.

Lemma safe_packedInt (P : Z -> Prop) conv cur (upd : list Z -> M) : (forall v, is_u64 v -> P (conv v)) -> Forall P cur ->
  (forall l, Forall P l -> I (upd l)) ->
  Safe Q (let* (l, pos) := readPackedInt conv name wt buf pos cur in Ok (upd l, pos)).
Proof.
  intros HP Hc Hu. eapply (Safe_bind (fun '(l, p) => Forall P l /\ pos <= p <= len buf)).
  2:{ intros [l p] [Hl Hp1]. split; [by apply Hu|done]. }
  unfold readPackedInt. destruct (wt =? WireTypeLen); [|destruct (wt =? WireTypeVarint); [|done] ].
  - eapply Safe_bind; [by apply ConsumeLen_safe|]. intros [n p] (Hn & Hp1 & Hp2).
    destruct (slice_ok buf 0 p) as (s & -> & Hl & Hsb); [lia..|]. cbn [rbind]. rewrite Z.sub_0_r in Hl.
    eapply Safe_bind; [apply (consumeVarints_safe P); [done|lia|done|unfold len in *; lia]|]. intros [l p3] [Hl3 Hp3].
    destruct (p3 =? p); [|done]. split; [done|lia].
  - eapply Safe_bind; [apply ConsumeVarint_safe; lia|]. intros [v p] [Hp1 Hv]. split; [|lia].
    apply Forall_app_2; [done|]. apply Forall_singleton. by apply HP.
Qed.
End SafeKinds.

(** The pointer of an alternative of a oneof is not nil. *)
Definition ptrSet {M} `{Codec M} (strict : bool) (p : option M) : Prop :=
  match p with Some m => wellFormed strict m | None => False end.

Lemma ptrSet_ok {M} `{Codec M} strict (p : option M) : ptrSet strict p -> ptrOk strict p.
Proof. by destruct p. Qed.

Lemma Enc_skip : Enc wSkip 0 [].
Proof. intros _. split; [apply Writes_skip|done]. Qed.

Lemma double_any v : is_u64 v -> doubleOk false v.
Proof. by split. Qed.

(** ** The proofs of a message

    Each follows the fields in the order of the bytes; a group of alternatives
    (a oneof) has lemmas of its own, in [oneofs]. *)
Create HintDb oneofs discriminated.

(** The bytes of the tag, written by the code one by one. *)
Ltac tag_writes :=
  first [ exact (Writes_byte _) | exact (Writes_seq _ _ _ _ (Writes_byte _) (Writes_byte _)) ].

Ltac enc_field strict :=
  first [ apply Enc_seq; [enc_field strict|enc_field strict]
        | apply Enc_string; [tag_writes|reflexivity]
        | apply Enc_strings; [tag_writes|reflexivity]
        | apply Enc_intField; [tag_writes|reflexivity]
        | apply Enc_i64Field; [tag_writes|reflexivity]
        | apply Enc_i32Field; [tag_writes|reflexivity]
        | apply (Enc_msg _ _ _ strict); [tag_writes|reflexivity|assumption]
        | apply (Enc_msgs _ _ _ strict); [tag_writes|reflexivity|assumption]
        | apply Enc_whenI64; [tag_writes|reflexivity]
        | apply Enc_i64; [tag_writes|reflexivity]
        | apply Enc_boolField; [tag_writes|reflexivity]
        | apply Enc_zigzag; [tag_writes|reflexivity|assumption]
        | apply Enc_packedI64; [tag_writes|reflexivity]
        | apply Enc_packedInt; [tag_writes|reflexivity]
        | apply (Enc_ptr _ _ _ strict); [tag_writes|reflexivity|assumption]
        | solve [eauto with oneofs nocore] ].
Ltac enc_message strict ok :=
  intros Hm; unfold ok in Hm; destruct_and?; eexists; split; [reflexivity|]; enc_field strict.

(** A step of reading back: the field [field], of number [fn] and name [name]. *)
Ltac rd_with lem field :=
  match goal with
  | |- Rd _ (_ ++ _) ?m _ => eapply Rd_app; [lem m field|cbv beta]
  | |- Rd _ _ ?m _ => eapply Rd_eq; [lem m field|reflexivity]
  end.
Ltac rd_string fn name field := rd_with ltac:(fun m field =>
  apply (Rd_string _ fn name ltac:(lia) (fun v => setWith field (fun _ => v) m)); reflexivity) field.
Ltac rd_strings fn name field := rd_with ltac:(fun m field =>
  apply (Rd_strings _ fn name ltac:(lia) (fun v => setWith field (fun _ => v) m)); reflexivity) field.
Ltac rd_bytes fn name field := rd_with ltac:(fun m field =>
  apply (Rd_bytes _ fn name ltac:(lia) (fun v => setWith field (fun _ => v) m)); reflexivity) field.
Ltac rd_int conv lemma fn name field := rd_with ltac:(fun m field =>
  apply (Rd_intField _ fn name ltac:(lia) conv (fun v => setWith field (fun _ => v) m)); [reflexivity..|by apply lemma]) field.
Ltac rd_zigzag fn name field := rd_with ltac:(fun m field =>
  apply (Rd_zigzag _ fn name ltac:(lia) (fun v => setWith field (fun _ => v) m)); [reflexivity..|assumption]) field.
Ltac rd_bool fn name field := rd_with ltac:(fun m field =>
  apply (Rd_bool _ fn name ltac:(lia) (fun v => setWith field (fun _ => v) m)); reflexivity) field.
Ltac rd_i64 fn name field := rd_with ltac:(fun m field =>
  apply (Rd_i64Field _ fn name ltac:(lia) (fun v => setWith field (fun _ => v) m)); [reflexivity..|assumption]) field.
Ltac rd_i32 fn name field := rd_with ltac:(fun m field =>
  apply (Rd_i32Field _ fn name ltac:(lia) (fun v => setWith field (fun _ => v) m)); [reflexivity..|assumption]) field.
Ltac rd_double fn name field := rd_with ltac:(fun m field =>
  apply (Rd_double _ fn name ltac:(lia) (fun v => setWith field (fun _ => v) m)); [reflexivity..|assumption]) field.
Ltac rd_opt fn name upd := rd_with ltac:(fun m upd =>
  apply (Rd_opt _ fn name ltac:(lia) (fun v => upd v m)); [reflexivity|assumption]) upd.
Ltac rd_packedI64 fn name field := rd_with ltac:(fun m field =>
  apply (Rd_packedI64 _ fn name ltac:(lia) (fun v => setWith field (fun _ => v) m)); [reflexivity..|assumption]) field.
Ltac rd_packedInt conv lemma fn name field := rd_with ltac:(fun m field =>
  apply (Rd_packedInt _ fn name ltac:(lia) conv (fun v => setWith field (fun _ => v) m));
    [reflexivity..|eapply Forall_impl; [eassumption|apply lemma] ]) field.
Ltac rd_msg fn name field := rd_with ltac:(fun m field =>
  apply (Rd_msg _ fn name ltac:(lia) (fun v => setWith field (fun _ => v) m)); [reflexivity|assumption]) field.
Ltac rd_msgs fn name field := rd_with ltac:(fun m field =>
  apply (Rd_msgs _ fn name ltac:(lia) (fun v => setWith field (fun _ => v) m)); [reflexivity..|assumption]) field.
Ltac rd_ptr fn name field := rd_with ltac:(fun m field =>
  apply (Rd_ptr _ fn name ltac:(lia) (fun v => setWith field (fun _ => v) m)); [reflexivity..|assumption]) field.
Ltac rd_oneof lemma field := rd_with ltac:(fun m field => apply lemma; [assumption|reflexivity]) field.

(** The alternatives of a oneof. *)
Ltac rd_some fn name upd :=
  match goal with Hv : ptrSet true ?x |- _ =>
    destruct x as [x|]; [|done]; apply (Rd_msg _ fn name ltac:(lia) upd); [reflexivity|exact Hv]
  end.
Ltac rd_sfixed fn name upd Hv :=
  eapply Rd_eq; [apply (Rd_one64 _ fn name ltac:(lia) (fun v => upd (i64 v))); [reflexivity|apply u64_range]|];
  cbv beta; by rewrite (i64_u64 _ Hv).

Ltac rd_message m ok wire := destruct m; intros Hm; unfold ok in Hm; cbn in Hm; destruct_and?; unfold wire.

(** The word of presence bits of a message with three optional fields. *)
Lemma presence_cases md : 0 <= md -> md < 8 -> md = 0 \/ md = 1 \/ md = 2 \/ md = 3 \/ md = 4 \/ md = 5 \/ md = 6 \/ md = 7.
Proof. lia. Qed.

Ltac presence md :=
  match goal with H1 : 0 <= md, H2 : md < 8 |- _ =>
    pose proof (presence_cases md H1 H2) as Hmd; clear H1 H2; destruct_or? Hmd; subst md;
    repeat match goal with H : _ = false -> ?v = 0 |- _ => first [specialize (H eq_refl); subst v | clear H] end
  end.

(** Reading anything: one case per field, and the default. *)
Ltac safe_cases :=
  repeat match goal with |- Safe _ (match ?x with _ => _ end) => is_var x; destruct x; cbv iota end.
Ltac range := first [ assumption | apply u32_range | apply i32_range | apply i64_range | by apply double_any | by apply setBytes_bytes
                    | apply Forall_app_2; [assumption|by apply Forall_singleton] ].
Ltac safe_field ok :=
  first [ apply safe_skip; done
        | apply safe_msg; try typeclasses eauto; try done; try apply codec_zero
        | apply safe_bytes; try done | apply safe_varint; try done
        | apply safe_i64; try done | apply safe_i32; try done
        | apply safe_packedI64; try done
        | eapply safe_packedInt with (P := is_i32); [done..|intros; range|done|]
        | eapply safe_packedInt with (P := is_i64); [done..|intros; range|done|]
        | eapply safe_packedInt with (P := is_u64); [done..|intros; range|done|] ];
  intros; unfold ok in *; destruct_and?; try split_and!; cbn; try range; try done.
Ltac safe_message step ok :=
  intros fn wt buf pos m Hp Hf Hb Hm; unfold step; pose proof Hm as Hm0; unfold ok in Hm0; destruct_and?;
  safe_cases; safe_field ok.

(** With the presence bits: the case of each of them. *)
Ltac safe_optional step ok :=
  intros fn wt buf pos m Hp Hf Hb Hm; unfold step; pose proof Hm as Hm0; unfold ok in Hm0; destruct_and?;
  safe_cases; safe_field ok; destruct m; cbn in *;
  match goal with H1 : 0 <= ?md, H2 : ?md < 8 |- _ =>
    is_var md; pose proof (presence_cases md H1 H2) as Hmd; destruct_or? Hmd; subst md;
    first [ assumption | intros E; by vm_compute in E | by vm_compute ]
  end.

Ltac zero_ok ok :=
  unfold ok; try split_and!;
  first [ exact codec_zero | exact (Forall_nil_2 _) | exact Logic.I | reflexivity
        | apply double_any; unfold is_u64; cbn; lia | unfold is_u32, is_i32, is_u64, is_i64; cbn; lia | done ].
