(* ===== verification/ProtoIds.v ===== *)
(** * Identifiers and attributes as message fields

    pdata/internal/traceid.go, spanid.go and profileid.go, which differ by the length, and the
    [Codec] instances of the values of ProtoCommon. *)

From S2P Require Import Prelude Errors Sizers ProtoWire ProtoWireProofs ProtoFields ProtoCommon ProtoCommonProofs ProtoMessage.
Local Open Scope Z_scope.
Local Open Scope otel_scope.

(** ** Identifiers: arrays of [size] bytes *)
Section Id.
Context (size : nat) (errLength : error).

Definition ID_zero : list Z := replicate size 0.
Definition ID_IsEmpty (id : list Z) : bool := bool_decide (id = ID_zero).
Definition ID_SizeProto (id : list Z) : Z := if ID_IsEmpty id then 0 else Z.of_nat size.
Definition ID_MarshalProto (id : list Z) (buf : list Z) : res (Z * list Z) :=
  if ID_IsEmpty id then Ok (0, buf)
  else
    let* buf := copyAt buf (len buf - Z.of_nat size) id in
    Ok (Z.of_nat size, buf).
Definition ID_UnmarshalProto (buf : list Z) : res (list Z) :=
  if len buf =? 0 then Ok ID_zero
  else if negb (len buf =? Z.of_nat size) then Err errLength
  else Ok buf.

Definition ID_wire (id : list Z) : list Z := if ID_IsEmpty id then [] else id.
Definition ID_ok (id : list Z) : Prop := bytes id /\ length id = size.

Lemma ID_zero_ok : ID_ok ID_zero.
Proof. split; [|apply length_replicate]. apply Forall_replicate. unfold is_byte. lia. Qed.

Lemma ID_marshals id : ID_ok id -> Marshals (ID_MarshalProto id) (ID_wire id).
Proof.
  intros [_ Hl] pre room Hr. unfold ID_MarshalProto, ID_wire in *. destruct (ID_IsEmpty id).
  - apply len_0 in Hr as ->. done.
  - assert (Hs : len id = Z.of_nat size) by (unfold len; lia). rewrite len_app, <- Hs.
    replace (len pre + len room - len id) with (len pre) by lia.
    pose proof (copyAt_app pre room [] id) as Hc. rewrite !app_nil_r in Hc. rewrite Hc by (unfold len in Hr; lia). done.
Qed.

Lemma ID_size id : ID_ok id -> ID_SizeProto id = len (ID_wire id).
Proof. intros [_ Hl]. unfold ID_SizeProto, ID_wire. destruct (ID_IsEmpty id); [done|]. unfold len. by rewrite Hl. Qed.

Lemma ID_roundtrip id : ID_ok id -> ID_UnmarshalProto (ID_wire id) = Ok id.
Proof.
  intros [_ Hl]. unfold ID_UnmarshalProto, ID_wire, ID_IsEmpty. destruct (bool_decide_reflect (id = ID_zero)) as [->|Hne]; [done|].
  destruct (Z.eqb_spec (len id) 0) as [E|_]; [|unfold len; by rewrite Hl, Z.eqb_refl].
  destruct Hne. apply len_0 in E as ->. simpl in Hl. unfold ID_zero. by rewrite <- Hl.
Qed.

Lemma ID_safe b : bytes b -> Safe ID_ok (ID_UnmarshalProto b).
Proof.
  intros Hb. unfold ID_UnmarshalProto. destruct (len b =? 0); [apply ID_zero_ok|].
  destruct (Z.eqb_spec (len b) (Z.of_nat size)) as [E|_]; [|done]. split; [done|]. unfold len in E. lia.
Qed.
End Id.

Definition errUnmarshalTraceID : error := New "unmarshal: invalid TraceID length".
Definition errUnmarshalSpanID : error := New "unmarshal: invalid SpanID length".
Definition errUnmarshalProfileID : error := New "unmarshal: invalid ProfileID length".
Definition traceIDSize : nat := 16.
Definition profileIDSize : nat := 16.
Definition spanIDSize : nat := 8.

Record TraceID := mkTraceID { traceBytes : list Z }.
Record SpanID := mkSpanID { spanBytes : list Z }.
Record ProfileID := mkProfileID { profileBytes : list Z }.

Definition TraceID_SizeProto (tid : TraceID) : Z := ID_SizeProto traceIDSize (traceBytes tid).
Definition TraceID_MarshalProto (tid : TraceID) : list Z -> res (Z * list Z) := ID_MarshalProto traceIDSize (traceBytes tid).
Definition TraceID_UnmarshalProto (buf : list Z) (tid : TraceID) : res TraceID :=
  let* b := ID_UnmarshalProto traceIDSize errUnmarshalTraceID buf in Ok (mkTraceID b).

Definition SpanID_SizeProto (sid : SpanID) : Z := ID_SizeProto spanIDSize (spanBytes sid).
Definition SpanID_MarshalProto (sid : SpanID) : list Z -> res (Z * list Z) := ID_MarshalProto spanIDSize (spanBytes sid).
Definition SpanID_UnmarshalProto (buf : list Z) (sid : SpanID) : res SpanID :=
  let* b := ID_UnmarshalProto spanIDSize errUnmarshalSpanID buf in Ok (mkSpanID b).

Definition ProfileID_SizeProto (pid : ProfileID) : Z := ID_SizeProto profileIDSize (profileBytes pid).
Definition ProfileID_MarshalProto (pid : ProfileID) : list Z -> res (Z * list Z) := ID_MarshalProto profileIDSize (profileBytes pid).
Definition ProfileID_UnmarshalProto (buf : list Z) (pid : ProfileID) : res ProfileID :=
  let* b := ID_UnmarshalProto profileIDSize errUnmarshalProfileID buf in Ok (mkProfileID b).

#[export] Instance TraceID_codec : Codec TraceID :=
  { zero := mkTraceID (ID_zero traceIDSize); SizeProto := TraceID_SizeProto; MarshalProto := TraceID_MarshalProto;
    UnmarshalProto := TraceID_UnmarshalProto; wire tid := ID_wire traceIDSize (traceBytes tid);
    wellFormed _ tid := ID_ok traceIDSize (traceBytes tid) }.
#[export] Instance SpanID_codec : Codec SpanID :=
  { zero := mkSpanID (ID_zero spanIDSize); SizeProto := SpanID_SizeProto; MarshalProto := SpanID_MarshalProto;
    UnmarshalProto := SpanID_UnmarshalProto; wire sid := ID_wire spanIDSize (spanBytes sid);
    wellFormed _ sid := ID_ok spanIDSize (spanBytes sid) }.

#[export] Instance ProfileID_codec : Codec ProfileID :=
  { zero := mkProfileID (ID_zero profileIDSize); SizeProto := ProfileID_SizeProto; MarshalProto := ProfileID_MarshalProto;
    UnmarshalProto := ProfileID_UnmarshalProto; wire pid := ID_wire profileIDSize (profileBytes pid);
    wellFormed _ pid := ID_ok profileIDSize (profileBytes pid) }.

Ltac id_laws unmarshal :=
  split; simpl;
  [ intros _ m Hm _; by apply ID_marshals
  | intros _ m Hm _; by apply ID_size
  | intros [b] Hm _; unfold unmarshal; by rewrite ID_roundtrip
  | intros b m _ Hb _; unfold unmarshal; eapply Safe_bind; [by apply ID_safe|by intros x Hx]
  | apply ID_zero_ok ].

#[export] Instance TraceID_laws : CodecLaws TraceID.
Proof. id_laws TraceID_UnmarshalProto. Qed.
#[export] Instance SpanID_laws : CodecLaws SpanID.
Proof. id_laws SpanID_UnmarshalProto. Qed.
#[export] Instance ProfileID_laws : CodecLaws ProfileID.
Proof. id_laws ProfileID_UnmarshalProto. Qed.

(** ** Values and attributes, read with the whole recursion budget *)
#[export] Instance AnyValue_codec : Codec AnyValue :=
  { zero := AnyValue_nil; SizeProto := AnyValue_SizeProto; MarshalProto := AnyValue_MarshalProto;
    UnmarshalProto := AnyValue_UnmarshalProto; wire := AnyValue_bytes; wellFormed strict := AnyOk strict RecursionLimit }.
#[export] Instance KeyValue_codec : Codec KeyValue :=
  { zero := emptyKeyValue; SizeProto := KeyValue_SizeProto; MarshalProto := KeyValue_MarshalProto;
    UnmarshalProto := KeyValue_UnmarshalProto; wire := KeyValue_bytes; wellFormed strict := KvOk strict RecursionLimit }.

Lemma values_zero_ok n : n <> 0%nat -> AnyOk false n AnyValue_nil /\ KvOk false n emptyKeyValue.
Proof.
  destruct n as [|n]; [done|]. intros _. simpl. split; [done|].
  split_and!; first [done|apply Forall_nil_2|by right|unfold is_i32; lia].
Qed.

Lemma limit_pos : RecursionLimit <> 0%nat.
Proof. done. Qed.

(** The budget of 100 stays folded in the proofs. *)
#[local] Opaque RecursionLimit.

#[export] Instance AnyValue_laws : CodecLaws AnyValue.
Proof.
  split; cbn [zero SizeProto MarshalProto UnmarshalProto wire wellFormed AnyValue_codec].
  - intros strict m Hm Hf. exact (proj1 (proj1 (AnyOk_encodes strict RecursionLimit) m Hm Hf)).
  - intros strict m Hm Hf. exact (proj2 (proj1 (AnyOk_encodes strict RecursionLimit) m Hm Hf)).
  - exact (proj1 (AnyOk_roundtrip RecursionLimit)).
  - intros b m Hf Hb Hm. exact (proj1 (AnyOk_safe RecursionLimit) b m Hf Hb (or_intror Hm)).
  - exact (proj1 (values_zero_ok _ limit_pos)).
Qed.
#[export] Instance KeyValue_laws : CodecLaws KeyValue.
Proof.
  split; cbn [zero SizeProto MarshalProto UnmarshalProto wire wellFormed KeyValue_codec].
  - intros strict m Hm Hf. exact (proj1 (proj2 (proj2 (proj2 (AnyOk_encodes strict RecursionLimit))) m Hm Hf)).
  - intros strict m Hm Hf. exact (proj2 (proj2 (proj2 (proj2 (AnyOk_encodes strict RecursionLimit))) m Hm Hf)).
  - exact (proj2 (proj2 (proj2 (AnyOk_roundtrip RecursionLimit)))).
  - intros b m Hf Hb Hm. exact (proj2 (proj2 (proj2 (AnyOk_safe RecursionLimit))) b m Hf Hb (or_intror Hm)).
  - exact (proj2 (values_zero_ok _ limit_pos)).
Qed.
