(* ===== verification/PcommonValue.v ===== *)
(** * Values and maps of the data API (pdata/pcommon)

    value.go: the type of a value and [Equal]; map.go: every operation that reads or
    changes the entries; slice.go: [Equal].

    A map is the slice of its entries, in order.  A reference that [Get] or a [Put]
    returns is not modelled apart from the map: writing through it is [assign].  The
    operations that change a map panic when its data is shared, which is [readOnly]. *)

From S2P Require Import Prelude Errors Sizers ProtoWire ProtoWireProofs ProtoFields ProtoCommon.
Local Open Scope Z_scope.
Local Open Scope otel_scope.

(** ** Values *)
Definition ValueTypeEmpty : Z := 0.
Definition ValueTypeStr : Z := 1.
Definition ValueTypeInt : Z := 2.
Definition ValueTypeDouble : Z := 3.
Definition ValueTypeBool : Z := 4.
Definition ValueTypeMap : Z := 5.
Definition ValueTypeSlice : Z := 6.
Definition ValueTypeBytes : Z := 7.

Definition Value_Type (v : AnyValue) : Z :=
  match v with
  | AnyValue_StringValue _ => ValueTypeStr
  | AnyValue_BoolValue _ => ValueTypeBool
  | AnyValue_IntValue _ => ValueTypeInt
  | AnyValue_DoubleValue _ => ValueTypeDouble
  | AnyValue_KvlistValue _ => ValueTypeMap
  | AnyValue_ArrayValue _ => ValueTypeSlice
  | AnyValue_BytesValue _ => ValueTypeBytes
  | AnyValue_nil | AnyValue_StringValueStrindex _ => ValueTypeEmpty
  end.

(** [==] on doubles given by their bits: NaN differs from everything, the zeros are equal. *)
Definition isNaN (bits : Z) : bool := Z.shiftl 0x7ff 52 <? Z.land bits (2 ^ 63 - 1).
Definition isZero (bits : Z) : bool := (bits =? 0) || (bits =? 2 ^ 63).
Definition doubleEqual (a b : Z) : bool := negb (isNaN a) && negb (isNaN b) && ((a =? b) || isZero a && isZero b).

(** ** Lookup *)
Definition Get (m : list KeyValue) (key : list Z) : option AnyValue :=
  Value <$> find (fun akv => bool_decide (Key akv = key)) m.

(** ** Equal

    A map or slice value without its list, which no constructor makes, panics. *)
Fixpoint Value_Equal (v c : AnyValue) {struct v} : res bool :=
  match v, c with
  | AnyValue_StringValue s, AnyValue_StringValue t => Ok (bool_decide (s = t))
  | AnyValue_BoolValue a, AnyValue_BoolValue b => Ok (Bool.eqb a b)
  | AnyValue_DoubleValue a, AnyValue_DoubleValue b => Ok (doubleEqual a b)
  | AnyValue_IntValue a, AnyValue_IntValue b => Ok (a =? b)
  | AnyValue_BytesValue a, AnyValue_BytesValue b => Ok (bool_decide (a = b))
  | AnyValue_KvlistValue (Some m), AnyValue_KvlistValue (Some val) =>
      if negb (len m =? len val) then Ok false
      else
        (fix range (l : list KeyValue) : res bool :=
           match l with
           | [] => Ok true
           | mkKeyValue k v _ :: l =>
               match Get val k with
               | None => Ok false
               | Some vv => let* eq := Value_Equal v vv in if eq then range l else Ok false
               end
           end) m
  | AnyValue_ArrayValue (Some es), AnyValue_ArrayValue (Some val) =>
      if negb (len es =? len val) then Ok false
      else
        (fix at_ (l1 l2 : list AnyValue) {struct l1} : res bool :=
           match l1, l2 with
           | v :: l1, c :: l2 => let* eq := Value_Equal v c in if eq then at_ l1 l2 else Ok false
           | _, _ => Ok true
           end) es val
  | AnyValue_KvlistValue _, AnyValue_KvlistValue _ | AnyValue_ArrayValue _, AnyValue_ArrayValue _ => Panic
  | _, _ => Ok (Value_Type v =? Value_Type c)
  end.

Definition Map_Equal (m val : list KeyValue) : res bool :=
  Value_Equal (AnyValue_KvlistValue (Some m)) (AnyValue_KvlistValue (Some val)).

(** ** Operations of maps *)
Section Map.
Context (readOnly : bool).
Implicit Types m : list KeyValue.

Definition AssertMutable {A} (x : A) : res A := if readOnly then Panic else Ok x.

Definition NewMap : list KeyValue := [].
Definition Clear m : res (list KeyValue) := AssertMutable [].

(** Writing through the reference that [Get] returns. *)
Fixpoint assign (key : list Z) (v : AnyValue) m : list KeyValue :=
  match m with
  | [] => []
  | akv :: m => if bool_decide (Key akv = key) then mkKeyValue (Key akv) v (KeyStrindex akv) :: m else akv :: assign key v m
  end.

Definition put (k : list Z) (v : AnyValue) m : res (list KeyValue) :=
  AssertMutable (match Get m k with Some _ => assign k v m | None => m ++ [mkKeyValue k v 0] end).

Definition PutEmpty k m := put k AnyValue_nil m.
Definition PutStr k s m := put k (AnyValue_StringValue s) m.
Definition PutInt k i m := put k (AnyValue_IntValue i) m.
Definition PutDouble k d m := put k (AnyValue_DoubleValue d) m.
Definition PutBool k b m := put k (AnyValue_BoolValue b) m.
Definition PutEmptyBytes k m := put k (AnyValue_BytesValue []) m.
Definition PutEmptyMap k m := put k (AnyValue_KvlistValue (Some [])) m.
Definition PutEmptySlice k m := put k (AnyValue_ArrayValue (Some [])) m.

Definition GetOrPutEmpty (k : list Z) m : res (list KeyValue * bool) :=
  AssertMutable (match Get m k with Some _ => (m, true) | None => (m ++ [mkKeyValue k AnyValue_nil 0], false) end).

(** The last entry takes the place of the removed one. *)
Definition Remove (key : list Z) m : res (list KeyValue * bool) :=
  AssertMutable
    (match list_find (fun akv => Key akv = key) m with
     | Some (i, _) => (take (pred (length m)) (<[i := List.last m emptyKeyValue]> m), true)
     | None => (m, false)
     end).

(** The entries that stay are moved to the front of the slice, one after the other. *)
Fixpoint removeLoop (f : list Z -> AnyValue -> bool) (n i newLen : nat) m : list KeyValue * nat :=
  match n with
  | O => (m, newLen)
  | S n =>
      let akv := nth i m emptyKeyValue in
      if f (Key akv) (Value akv) then removeLoop f n (S i) newLen (<[i := emptyKeyValue]> m)
      else if (newLen =? i)%nat then removeLoop f n (S i) (S newLen) m
      else removeLoop f n (S i) (S newLen) (<[i := emptyKeyValue]> (<[newLen := akv]> m))
  end.

Definition RemoveIf (f : list Z -> AnyValue -> bool) m : res (list KeyValue) :=
  AssertMutable (let '(m, newLen) := removeLoop f (length m) 0 0 m in take newLen m).

(** Moving to another map, or to the [same] one: what the destination holds afterwards,
    and the source. *)
Definition MoveTo (destReadOnly same : bool) m (dest : list KeyValue) : res (list KeyValue * list KeyValue) :=
  if readOnly || destReadOnly then Panic else Ok (if same then (dest, m) else (m, [])).
End Map.
