(* ===== verification/PcommonMap.v ===== *)
(** * pcommon.Map refines a finite map

    A map with distinct keys is the finite map of its entries: the operations of
    PcommonValue are lookup, insertion, deletion and filtering, and keep the keys
    distinct.  [Map_Equal] decides whether the two finite maps agree. *)

From stdpp Require Import fin_maps.
From S2P Require Import Prelude Errors Sizers ProtoWire ProtoWireProofs ProtoFields ProtoCommon PcommonValue.
Local Open Scope Z_scope.
Local Open Scope otel_scope.

(** ** Induction over values *)
Section Induction.
Context (P : AnyValue -> Prop).
Context (Hleaf : forall v, match v with AnyValue_ArrayValue (Some _) | AnyValue_KvlistValue (Some _) => False | _ => True end -> P v).
Context (Harray : forall l, Forall P l -> P (AnyValue_ArrayValue (Some l))).
Context (Hkvlist : forall l, Forall (fun kv => P (Value kv)) l -> P (AnyValue_KvlistValue (Some l))).

Fixpoint AnyValue_induction (v : AnyValue) : P v :=
  match v with
  | AnyValue_ArrayValue (Some l) =>
      Harray l ((fix each (l : list AnyValue) : Forall P l :=
        match l with [] => Forall_nil_2 P | v :: l => Forall_cons_2 P v l (AnyValue_induction v) (each l) end) l)
  | AnyValue_KvlistValue (Some l) =>
      Hkvlist l ((fix each (l : list KeyValue) : Forall (fun kv => P (Value kv)) l :=
        match l with
        | [] => Forall_nil_2 _
        | mkKeyValue k v i :: l => Forall_cons_2 _ (mkKeyValue k v i) l (AnyValue_induction v) (each l)
        end) l)
  | v => Hleaf v I
  end.
End Induction.

(** No list of a value is missing, and the keys of each map in it are distinct. *)
Fixpoint wellMade (v : AnyValue) : Prop :=
  match v with
  | AnyValue_ArrayValue None | AnyValue_KvlistValue None => False
  | AnyValue_ArrayValue (Some l) => (fix each (l : list AnyValue) : Prop := match l with [] => True | v :: l => wellMade v /\ each l end) l
  | AnyValue_KvlistValue (Some l) =>
      NoDup (map Key l) /\
      (fix each (l : list KeyValue) : Prop := match l with [] => True | mkKeyValue _ v _ :: l => wellMade v /\ each l end) l
  | _ => True
  end.

Lemma wellMade_array l : wellMade (AnyValue_ArrayValue (Some l)) <-> Forall wellMade l.
Proof.
  cbn. induction l as [|v l IH]; [done|]. rewrite Forall_cons, <- IH. done.
Qed.

Definition wellMadeMap (m : list KeyValue) : Prop := NoDup (map Key m) /\ Forall (fun kv => wellMade (Value kv)) m.

Lemma wellMade_kvlist l : wellMade (AnyValue_KvlistValue (Some l)) <-> wellMadeMap l.
Proof.
  cbn. unfold wellMadeMap. apply and_iff_compat_l. induction l as [|[k v i] l IH]; [done|]. rewrite Forall_cons, <- IH. done.
Qed.

(** ** The finite map of the entries: of several entries of a key, the first. *)
Definition toMap (m : list KeyValue) : gmap (list Z) AnyValue := list_to_map (map (fun kv => (Key kv, Value kv)) m).

Lemma toMap_cons akv m : toMap (akv :: m) = <[Key akv := Value akv]> (toMap m).
Proof. done. Qed.

Lemma Get_toMap m k : Get m k = toMap m !! k.
Proof.
  unfold Get. induction m as [|akv m IH]; [done|]. rewrite toMap_cons. cbn. case_bool_decide as E.
  - subst. by rewrite lookup_insert_eq.
  - by rewrite lookup_insert_ne.
Qed.

Lemma fst_entries m : (map (fun kv => (Key kv, Value kv)) m).*1 = map Key m.
Proof. apply map_map. Qed.

Lemma toMap_None m k : toMap m !! k = None <-> k ∉ map Key m.
Proof. unfold toMap. by rewrite <- not_elem_of_list_to_map, fst_entries. Qed.

Lemma toMap_app m1 m2 : toMap (m1 ++ m2) = toMap m1 ∪ toMap m2.
Proof. unfold toMap. by rewrite map_app, list_to_map_app. Qed.

Lemma keys_Permutation m1 m2 : m1 ≡ₚ m2 -> NoDup (map Key m1) -> NoDup (map Key m2).
Proof. intros Hp. by rewrite (fmap_Permutation Key m1 m2 Hp). Qed.

Lemma toMap_Permutation m1 m2 : NoDup (map Key m1) -> m1 ≡ₚ m2 -> toMap m1 = toMap m2.
Proof. intros Hn Hp. apply list_to_map_proper; [by rewrite fst_entries|]. by apply fmap_Permutation. Qed.

Lemma toMap_size m : NoDup (map Key m) -> size (toMap m) = length m.
Proof.
  induction m as [|akv m IH]; intros Hn; [apply map_size_empty|]. apply NoDup_cons in Hn as [Hk Hn].
  rewrite toMap_cons, map_size_insert_None by (by apply toMap_None). cbn. by rewrite IH.
Qed.

Lemma toMap_elem m kv : NoDup (map Key m) -> kv ∈ m -> toMap m !! Key kv = Some (Value kv).
Proof.
  intros Hn Hin. apply elem_of_list_to_map_1; [by rewrite fst_entries|]. apply list_elem_of_fmap. by exists kv.
Qed.

Lemma toMap_Some m k v : toMap m !! k = Some v -> exists kv, kv ∈ m /\ Key kv = k /\ Value kv = v.
Proof. intros H%elem_of_list_to_map_2. apply list_elem_of_fmap in H as (kv & E & Hin). injection E as -> ->. by exists kv. Qed.

(** ** Operations *)
Lemma assign_keys k v m : map Key (assign k v m) = map Key m.
Proof. induction m as [|akv m IH]; [done|]. cbn. case_bool_decide; cbn; by rewrite ?IH. Qed.

Lemma assign_toMap k v m : k ∈ map Key m -> toMap (assign k v m) = <[k := v]> (toMap m).
Proof.
  induction m as [|akv m IH]; [by intros ?%not_elem_of_nil|]. cbn [map assign]. intros [->|Hin]%elem_of_cons.
  - rewrite bool_decide_true by done. rewrite !toMap_cons. cbn. by rewrite insert_insert_eq.
  - case_bool_decide as E.
    + subst. rewrite !toMap_cons. cbn. by rewrite insert_insert_eq.
    + rewrite !toMap_cons, IH by done. apply insert_insert_ne. done.
Qed.

Lemma put_toMap k v m m' : put false k v m = Ok m' -> toMap m' = <[k := v]> (toMap m).
Proof.
  unfold put, AssertMutable. rewrite Get_toMap. destruct (toMap m !! k) eqn:E; intros [= <-].
  - apply assign_toMap. apply dec_stable. rewrite <- toMap_None, E. done.
  - rewrite toMap_app. cbn. rewrite <- insert_union_r by done. f_equal. apply map_union_empty.
Qed.

Lemma put_keys k v m m' : NoDup (map Key m) -> put false k v m = Ok m' -> NoDup (map Key m').
Proof.
  unfold put, AssertMutable. rewrite Get_toMap. intros Hn. destruct (toMap m !! k) eqn:E; intros [= <-]; [by rewrite assign_keys|].
  rewrite map_app. apply NoDup_app. apply toMap_None in E. split; [done|]. split; [|apply NoDup_singleton].
  intros x Hx ->%list_elem_of_singleton. done.
Qed.

Lemma GetOrPutEmpty_put k m : GetOrPutEmpty false k m =
  match Get m k with Some _ => Ok (m, true) | None => let* m' := PutEmpty false k m in Ok (m', false) end.
Proof. unfold GetOrPutEmpty, PutEmpty, put. by destruct (Get m k). Qed.

(** Replacing the removed entry by the last one only changes the order. *)
Lemma swap_last (l : list KeyValue) i x : l !! i = Some x ->
  take (pred (length l)) (<[i := List.last l emptyKeyValue]> l) ≡ₚ delete i l.
Proof.
  intros Hi. destruct l as [|y l _] using rev_ind; [done|].
  rewrite last_last, length_app. replace (pred (length l + length [y]))%nat with (length l) by (cbn; lia).
  destruct (decide (i < length l)%nat) as [Hlt|].
  - rewrite insert_app_l, take_app_length' by (rewrite ?length_insert; done).
    rewrite (delete_take_drop (l ++ [y])), take_app_le, drop_app_le by lia. rewrite insert_take_drop by done.
    rewrite <- Permutation_middle, app_assoc, <- Permutation_cons_append. done.
  - assert (i = length l) as -> by (apply lookup_lt_Some in Hi; rewrite length_app in Hi; cbn in Hi; lia).
    rewrite insert_app_r_alt, Nat.sub_diag, take_app_length by lia. cbn.
    by rewrite (delete_take_drop (l ++ [y])), take_app_length, drop_ge, app_nil_r by (rewrite length_app; cbn; lia).
Qed.

Lemma delete_keys (l : list KeyValue) i x : l !! i = Some x -> NoDup (map Key l) ->
  NoDup (map Key (delete i l)) /\ toMap (delete i l) = delete (Key x) (toMap l).
Proof.
  intros Hi Hn. assert (Hp : l ≡ₚ x :: delete i l) by (by apply delete_Permutation).
  rewrite (toMap_Permutation _ _ Hn Hp). apply (keys_Permutation _ _ Hp) in Hn.
  apply NoDup_cons in Hn as [Hx Hn]. split; [done|]. rewrite toMap_cons, delete_insert_eq, delete_id; [done|by apply toMap_None].
Qed.

Lemma Remove_toMap k m m' b : NoDup (map Key m) -> Remove false k m = Ok (m', b) ->
  NoDup (map Key m') /\ toMap m' = delete k (toMap m) /\ b = bool_decide (is_Some (toMap m !! k)).
Proof.
  intros Hn. unfold Remove, AssertMutable. destruct (list_find _ m) as [[i x]|] eqn:E; intros [= <- <-].
  - apply list_find_Some in E as (Hi & <- & _). destruct (delete_keys m i x Hi Hn) as [Hd Em].
    pose proof (symmetry (swap_last m i x Hi)) as Hp. rewrite <- (toMap_Permutation _ _ Hd Hp).
    split; [by apply (keys_Permutation _ _ Hp)|]. split; [done|]. symmetry. apply bool_decide_eq_true. rewrite (toMap_elem m x); [eauto|done|by eapply list_elem_of_lookup_2].
  - apply list_find_None in E. assert (Ek : toMap m !! k = None).
    { apply toMap_None. intros (kv & -> & Hin)%list_elem_of_fmap. rewrite Forall_forall in E. by apply (E kv). }
    rewrite delete_id, Ek by done. split; [done|]. split; [done|]. symmetry. apply bool_decide_eq_false. by intros [].
Qed.

(** The loop of [RemoveIf]: [kept] has been moved to the front, [gap] is free. *)
Definition stays (f : list Z -> AnyValue -> bool) (kv : KeyValue) : Prop := f (Key kv) (Value kv) = false.
#[export] Instance stays_dec f kv : Decision (stays f kv).
Proof. unfold stays. apply _. Defined.

Lemma insert_at {A} (l1 l2 : list A) y z i : i = length l1 -> <[i := z]> (l1 ++ y :: l2) = l1 ++ z :: l2.
Proof. intros ->. rewrite insert_app_r_alt, Nat.sub_diag by lia. done. Qed.

Lemma removeLoop_filter f rest kept gap :
  let '(m, newLen) := removeLoop f (length rest) (length kept + length gap) (length kept) (kept ++ gap ++ rest) in
  take newLen m = kept ++ filter (stays f) rest.
Proof.
  revert kept gap. induction rest as [|x rest IH]; intros kept gap; cbn [removeLoop length].
  { by rewrite take_app_length, app_nil_r. }
  assert (Hi : nth (length kept + length gap) (kept ++ gap ++ x :: rest) emptyKeyValue = x).
  { rewrite app_assoc, app_nth2, length_app, Nat.sub_diag by (rewrite length_app; lia). done. }
  rewrite Hi, filter_cons. destruct (f (Key x) (Value x)) eqn:Ef.
  - rewrite decide_False by (unfold stays; congruence). specialize (IH kept (gap ++ [emptyKeyValue])).
    replace (<[_:=_]> _) with (kept ++ (gap ++ [emptyKeyValue]) ++ rest).
    + rewrite length_app, Nat.add_assoc, Nat.add_1_r in IH. exact IH.
    + rewrite (app_assoc kept gap (x :: rest)), insert_at by (rewrite length_app; done). by rewrite <- !app_assoc.
  - rewrite decide_True by done. destruct (Nat.eqb_spec (length kept) (length kept + length gap)) as [Hg|Hg].
    + destruct gap; [|cbn in Hg; lia]. specialize (IH (kept ++ [x]) []). rewrite length_app, <- !app_assoc in IH. cbn in *.
      by rewrite !Nat.add_0_r, !Nat.add_1_r in *.
    + destruct gap as [|g gap]; [cbn in Hg; lia|]. specialize (IH (kept ++ [x]) (gap ++ [emptyKeyValue])).
      replace (<[_:=emptyKeyValue]> _) with ((kept ++ [x]) ++ (gap ++ [emptyKeyValue]) ++ rest).
      * rewrite (app_assoc kept [x] (filter _ _) : kept ++ x :: filter (stays f) rest = _). rewrite !length_app in IH. cbn [length] in IH.
        replace (length kept + 1 + (length gap + 1))%nat with (S (length kept + S (length gap))) in IH by lia.
        rewrite (Nat.add_1_r (length kept)) in IH. exact IH.
      * cbn [app]. rewrite (insert_at kept) by done. rewrite (app_assoc kept (x :: gap) (x :: rest) : kept ++ x :: gap ++ x :: rest = _).
        rewrite insert_at by (rewrite length_app; done). by rewrite <- !app_assoc.
Qed.

Lemma RemoveIf_filter f m : RemoveIf false f m = Ok (filter (stays f) m).
Proof. unfold RemoveIf, AssertMutable. pose proof (removeLoop_filter f m [] []) as H. cbn in H. destruct (removeLoop _ _ _ _ _). by rewrite H. Qed.

Lemma filter_toMap f m : NoDup (map Key m) ->
  NoDup (map Key (filter (stays f) m)) /\ toMap (filter (stays f) m) = filter (fun kv => f kv.1 kv.2 = false) (toMap m).
Proof.
  induction m as [|x m IH]; intros Hn.
  - split; [done|]. unfold toMap. cbn. by rewrite map_filter_empty.
  - cbn in Hn. apply NoDup_cons in Hn as [Hx Hn]. destruct (IH Hn) as [Hn' Em]. rewrite filter_cons, toMap_cons.
    apply toMap_None in Hx. destruct (decide (stays f x)) as [Hs|Hs].
    + rewrite map_filter_insert_True by done. split; [|rewrite toMap_cons; by rewrite Em]. cbn. apply NoDup_cons. split; [|done].
      apply toMap_None. rewrite Em. apply map_lookup_filter_None. left. done.
    + rewrite map_filter_insert_False by done. rewrite delete_id by done. done.
Qed.

(** ** Equality *)
Fixpoint entriesEqual (val l : list KeyValue) : res bool :=
  match l with
  | [] => Ok true
  | kv :: l =>
      match Get val (Key kv) with
      | None => Ok false
      | Some vv => let* eq := Value_Equal (Value kv) vv in if eq then entriesEqual val l else Ok false
      end
  end.

Fixpoint elementsEqual (l1 l2 : list AnyValue) : res bool :=
  match l1, l2 with
  | v :: l1, c :: l2 => let* eq := Value_Equal v c in if eq then elementsEqual l1 l2 else Ok false
  | _, _ => Ok true
  end.

Lemma Map_Equal_unfold m val : Map_Equal m val = if negb (len m =? len val) then Ok false else entriesEqual val m.
Proof.
  unfold Map_Equal. cbn. destruct (negb _); [done|]. induction m as [|[k v i] m IH]; [done|]. cbn. destruct (Get val k); [|done].
  destruct (Value_Equal v _) as [b| | |]; [|done..]. cbn. destruct b; [exact IH|done].
Qed.

Lemma Slice_Equal_unfold l1 l2 : Value_Equal (AnyValue_ArrayValue (Some l1)) (AnyValue_ArrayValue (Some l2)) =
  if negb (len l1 =? len l2) then Ok false else elementsEqual l1 l2.
Proof.
  cbn. destruct (negb _); [done|]. revert l2. induction l1 as [|v l1 IH]; intros [|c l2]; [done..|]. cbn.
  destruct (Value_Equal v c) as [b| | |]; [|done..]. cbn. destruct b; [apply IH|done].
Qed.

(** Entries of one key with equal values. *)
Definition entryEqual (x y : KeyValue) : Prop := Key x = Key y /\ Value_Equal (Value x) (Value y) = Ok true.

Lemma Get_Some m k v : Get m k = Some v -> exists kv, kv ∈ m /\ Key kv = k /\ Value kv = v.
Proof. rewrite Get_toMap. apply toMap_Some. Qed.

Lemma entriesEqual_true val l : NoDup (map Key val) -> entriesEqual val l = Ok true <-> Forall (fun x => exists y, y ∈ val /\ entryEqual x y) l.
Proof.
  intros Hn. induction l as [|x l IH]; cbn; [done|]. rewrite Forall_cons, <- IH, Get_toMap. split.
  - destruct (toMap val !! Key x) as [v|] eqn:E; [|done]. apply toMap_Some in E as (y & Hy & Ek & <-).
    destruct (Value_Equal _ _) as [b| | |] eqn:Ev; [|done..]. cbn. destruct b; [|done]. intros ->. split; [|done]. by exists y.
  - intros [(y & Hy & Ek & Ev) Hl]. rewrite Ek, (toMap_elem val y Hn Hy), Ev. done.
Qed.

Lemma entries_match val l : NoDup (map Key val) -> NoDup (map Key l) -> length l = length val ->
  Forall (fun x => exists y, y ∈ val /\ entryEqual x y) l -> exists val', val ≡ₚ val' /\ Forall2 entryEqual l val'.
Proof.
  revert val. induction l as [|x l IH]; intros val Hv Hl Hlen HF; [destruct val; [|done]; by exists []|].
  apply Forall_cons in HF as [(y & [i Hi]%list_elem_of_lookup & Ek & Ev) HF]. cbn in Hl. apply NoDup_cons in Hl as [Hx Hl].
  pose proof (delete_Permutation val i y Hi) as Hp. destruct (delete_keys val i y Hi Hv) as [Hd _].
  destruct (IH (delete i val)) as (val' & Hp' & HF2); [done..| | |].
  - apply Permutation_length in Hp. cbn in *. lia.
  - rewrite !Forall_forall in *. intros z Hz. destruct (HF z Hz) as (w & Hw & Ez). exists w. split; [|done].
    rewrite Hp in Hw. apply elem_of_cons in Hw as [->|Hw]; [|done]. destruct Hx. apply list_elem_of_fmap. exists z. destruct Ez. split; congruence.
  - exists (y :: val'). split; [by rewrite <- Hp'|]. by constructor.
Qed.

Lemma Map_Equal_match m val : NoDup (map Key m) -> NoDup (map Key val) ->
  Map_Equal m val = Ok true <-> exists val', val ≡ₚ val' /\ Forall2 entryEqual m val'.
Proof.
  intros Hm Hv. rewrite Map_Equal_unfold. split.
  - destruct (Z.eqb_spec (len m) (len val)) as [E|]; [|done]. cbn. intros HF%entriesEqual_true; [|done]. apply entries_match; [done..| |done]. unfold len in E. lia.
  - intros (val' & Hp & HF). apply Forall2_length in HF as El. apply Permutation_length in Hp as El'. unfold len.
    rewrite El, El', Z.eqb_refl. cbn. apply entriesEqual_true; [done|]. apply Forall_forall. intros x Hx.
    apply list_elem_of_lookup in Hx as [i Hi]. destruct (Forall2_lookup_l _ _ _ _ _ HF Hi) as (y & Hy & Exy). exists y. split; [|done].
    rewrite Hp. by eapply list_elem_of_lookup_2.
Qed.

Lemma Map_Equal_toMap m val : NoDup (map Key m) -> NoDup (map Key val) ->
  Map_Equal m val = Ok true <-> forall k, match toMap m !! k, toMap val !! k with
    | Some v, Some c => Value_Equal v c = Ok true | None, None => True | _, _ => False end.
Proof.
  intros Hm Hv. rewrite Map_Equal_match by done. split.
  - intros (val' & Hp & HF) k. rewrite (toMap_Permutation _ _ Hv Hp). clear -HF.
    induction HF as [|x y m val' [Ek Ev] _ IH]; [done|]. rewrite !toMap_cons, <- Ek.
    destruct (decide (k = Key x)) as [->|]; [by rewrite !lookup_insert_eq|]. by rewrite !lookup_insert_ne.
  - intros Hk. apply entries_match; [done..| |].
    + assert (E : dom (toMap m) = dom (toMap val)).
      { apply set_eq. intros k. rewrite !elem_of_dom. specialize (Hk k). destruct (toMap m !! k), (toMap val !! k); naive_solver. }
      rewrite <- (toMap_size m), <- (toMap_size val), <- !size_dom, E by done. done.
    + apply Forall_forall. intros x Hx. specialize (Hk (Key x)). rewrite (toMap_elem m x Hm Hx) in Hk.
      destruct (toMap val !! Key x) as [c|] eqn:E; [|done]. apply toMap_Some in E as (y & Hy & Ek & <-). exists y. done.
Qed.

Lemma Value_Equal_total v : wellMade v -> forall c, wellMade c -> exists b, Value_Equal v c = Ok b.
Proof.
  induction v as [v Hv|l IH|l IH] using AnyValue_induction; intros Hw c Hc.
  - destruct v as [| | | | |[]|[]| |], c as [| | | | |[]|[]| |]; cbn in *; try contradiction; eauto.
  - destruct c as [| | | | |[l2|]| | |]; try exact (False_ind _ Hc); try (cbn; eauto; fail). rewrite Slice_Equal_unfold. destruct (negb _); [eauto|].
    apply wellMade_array in Hw, Hc. clear -IH Hw Hc. revert l2 Hc. induction IH as [|v l Hv _ IHl]; intros l2 Hc; [destruct l2; cbn; eauto|].
    destruct Hc as [|c l2 Hc Hl2]; [cbn; eauto|]. apply Forall_cons in Hw as [Hwv Hw]. cbn. destruct (Hv Hwv c Hc) as [b ->]. cbn. destruct b; eauto.
  - destruct c as [| | | | | |[l2|]| |]; try exact (False_ind _ Hc); try (cbn; eauto; fail). change (exists b, Map_Equal l l2 = Ok b). rewrite Map_Equal_unfold. destruct (negb _); [eauto|].
    apply wellMade_kvlist in Hw as [_ Hw], Hc as [_ Hc]. clear -IH Hw Hc. induction IH as [|kv l Hv _ IHl]; [cbn; eauto|].
    apply Forall_cons in Hw as [Hwv Hw]. cbn. destruct (Get l2 (Key kv)) as [vv|] eqn:E; [|eauto].
    apply Get_Some in E as (y & Hy & _ & <-). rewrite Forall_forall in Hc. destruct (Hv Hwv _ (Hc y Hy)) as [b ->]. cbn. destruct b; eauto.
Qed.

Lemma Remove_returns k m : exists m' b, Remove false k m = Ok (m', b).
Proof. unfold Remove. destruct (list_find _ m) as [ [i x]|]; cbn; eauto. Qed.

(** ** The refinement *)

(** C23: A map with distinct keys is a finite map.  Looking up a key finds what is stored;
    putting, removing and removing by a condition insert, delete and filter, and keep the
    keys distinct; the length is the number of keys; on shared data every change panics.
    [Equal] says whether two maps have the same keys with equal values, in any order. *)
Theorem map_refines m : wellMadeMap m ->
  (forall k, Get m k = toMap m !! k) /\ len m = Z.of_nat (size (toMap m)) /\
  (forall k v, exists m', put false k v m = Ok m' /\ NoDup (map Key m') /\ toMap m' = <[k := v]> (toMap m)) /\
  (forall k, exists m', Remove false k m = Ok (m', bool_decide (is_Some (toMap m !! k))) /\
     NoDup (map Key m') /\ toMap m' = delete k (toMap m)) /\
  (forall f, exists m', RemoveIf false f m = Ok m' /\ NoDup (map Key m') /\ toMap m' = filter (fun kv => f kv.1 kv.2 = false) (toMap m)) /\
  (forall k v f, put true k v m = Panic /\ Remove true k m = Panic /\ RemoveIf true f m = Panic) /\
  (forall val, wellMadeMap val -> exists b, Map_Equal m val = Ok b /\
     (b = true <-> forall k, match toMap m !! k, toMap val !! k with
        | Some v, Some c => Value_Equal v c = Ok true | None, None => True | _, _ => False end)).
Proof.
  intros Hw. pose proof Hw as [Hn _]. split_and!.
  - apply Get_toMap.
  - by rewrite toMap_size.
  - intros k v. eexists. split; [reflexivity|]. split; [by eapply put_keys|by eapply put_toMap].
  - intros k. destruct (Remove_returns k m) as (m' & b & E). exists m'. destruct (Remove_toMap k m m' b Hn E) as (? & ? & ->). done.
  - intros f. rewrite RemoveIf_filter. eexists. split; [reflexivity|]. by apply filter_toMap.
  - done.
  - intros val Hv. destruct (Value_Equal_total (AnyValue_KvlistValue (Some m)) (proj2 (wellMade_kvlist m) Hw) (AnyValue_KvlistValue (Some val))
      (proj2 (wellMade_kvlist val) Hv)) as [b Hb]. exists b. split; [exact Hb|]. rewrite <- (Map_Equal_toMap m val) by (done || apply Hv).
    unfold Map_Equal. rewrite Hb. naive_solver.
Qed.

Definition exampleMap : list KeyValue := [mkKeyValue [97] (AnyValue_IntValue 1) 0; mkKeyValue [98] (AnyValue_DoubleValue 0) 0; mkKeyValue [99] AnyValue_nil 0].

Lemma map_refines_witness : exists m', Remove false [97] exampleMap = Ok (m', true) /\ map Key m' = [ [99]; [98] ] /\
  toMap m' = delete [97] (toMap exampleMap).
Proof.
  assert (Hw : wellMadeMap exampleMap) by (split; [apply (bool_decide_eq_true_1 _); reflexivity|repeat constructor]).
  destruct (map_refines exampleMap Hw) as (_ & _ & _ & HR & _). destruct (HR [97]) as (m' & E & _ & T). exists m'.
  split; [exact E|]. split; [|exact T]. injection E as <-. reflexivity.
Defined.

(** ** Where [Equal] is not equality *)

(** With a key twice, a map equals one with other keys, but not the other way around. *)
Theorem map_equal_duplicates :
  let entry k i := mkKeyValue [k] (AnyValue_IntValue i) 0 in
  Map_Equal [entry 97 1; entry 97 1] [entry 97 1; entry 98 2] = Ok true /\
  Map_Equal [entry 97 1; entry 98 2] [entry 97 1; entry 97 1] = Ok false.
Proof. split; reflexivity. Qed.

(** Values that refer to strings of a dictionary are empty values, and all equal. *)
Theorem references_equal i j : Value_Equal (AnyValue_StringValueStrindex i) (AnyValue_StringValueStrindex j) = Ok true.
Proof. reflexivity. Qed.
