(* ===== verification/ProtoResource.v ===== *)
(** * Resources and scopes on the wire

    The generated messages of pdata/internal that every signal carries, each with
    its struct, [SizeProto], [MarshalProto] and [UnmarshalProto].  [M_step] is the
    switch of [UnmarshalProto], [M_wire] the bytes that [MarshalProto] writes and
    [M_ok] the ranges of the Go types. *)

From S2P Require Import Prelude RecordUpdate Errors Sizers ProtoWire ProtoWireProofs ProtoFields ProtoCommon ProtoCommonProofs ProtoMessage ProtoKinds ProtoIds.
Local Open Scope Z_scope.
Local Open Scope otel_scope.

#[local] Opaque RecursionLimit.

(** ** EntityRef *)
Record EntityRef := mkEntityRef {
  EntityRef_SchemaUrl : list Z;
  EntityRef_Type : list Z;
  EntityRef_IdKeys : list (list Z);
  EntityRef_DescriptionKeys : list (list Z);
}.

Definition EntityRef_zero : EntityRef :=
  mkEntityRef [] [] [] [].

#[export] Instance EntityRef_settable : Settable EntityRef :=
  settable! mkEntityRef <EntityRef_SchemaUrl; EntityRef_Type; EntityRef_IdKeys; EntityRef_DescriptionKeys>.

Definition EntityRef_SizeProto (m : EntityRef) : Z :=
  (if 0 <? len (EntityRef_SchemaUrl m) then sizeLen 1 (len (EntityRef_SchemaUrl m)) else 0) +
  (if 0 <? len (EntityRef_Type m) then sizeLen 1 (len (EntityRef_Type m)) else 0) +
  sizeRepeated (fun s => sizeLen 1 (len s)) (EntityRef_IdKeys m) +
  sizeRepeated (fun s => sizeLen 1 (len s)) (EntityRef_DescriptionKeys m).

Definition EntityRef_MarshalProto (m : EntityRef) : list Z -> res (Z * list Z) :=
  runW (
    wWhen (0 <? len (EntityRef_SchemaUrl m)) (wLen (wByte 0xa) (EntityRef_SchemaUrl m)) >;>
    wWhen (0 <? len (EntityRef_Type m)) (wLen (wByte 0x12) (EntityRef_Type m)) >;>
    wRepeated (fun s => wLen (wByte 0x1a) s) (EntityRef_IdKeys m) >;>
    wRepeated (fun s => wLen (wByte 0x22) s) (EntityRef_DescriptionKeys m)).

Definition EntityRef_step (fieldNum wireType : Z) (buf : list Z) (pos : Z) (m : EntityRef) :
  res (EntityRef * Z) :=
  match fieldNum with
  | 1 => let* (b, pos) := readLen "SchemaUrl" wireType buf pos in
      Ok (m <| EntityRef_SchemaUrl := b |>, pos)
  | 2 => let* (b, pos) := readLen "Type" wireType buf pos in
      Ok (m <| EntityRef_Type := b |>, pos)
  | 3 => let* (b, pos) := readLen "IdKeys" wireType buf pos in
      Ok (m <| EntityRef_IdKeys := EntityRef_IdKeys m ++ [b] |>, pos)
  | 4 => let* (b, pos) := readLen "DescriptionKeys" wireType buf pos in
      Ok (m <| EntityRef_DescriptionKeys := EntityRef_DescriptionKeys m ++ [b] |>, pos)
  | _ => skipField wireType buf pos m
  end.

Definition EntityRef_wire (m : EntityRef) : list Z :=
  fRepeated (fun s => fLen 4 s) (EntityRef_DescriptionKeys m) ++
  fRepeated (fun s => fLen 3 s) (EntityRef_IdKeys m) ++
  fWhen (0 <? len (EntityRef_Type m)) (fLen 2 (EntityRef_Type m)) ++
  fWhen (0 <? len (EntityRef_SchemaUrl m)) (fLen 1 (EntityRef_SchemaUrl m)).

Definition EntityRef_ok (strict : bool) (m : EntityRef) : Prop :=
  bytes (EntityRef_SchemaUrl m) /\
  bytes (EntityRef_Type m) /\
  Forall bytes (EntityRef_IdKeys m) /\
  Forall bytes (EntityRef_DescriptionKeys m).

#[export] Instance EntityRef_codec : Codec EntityRef :=
  { zero := EntityRef_zero;
    SizeProto := EntityRef_SizeProto;
    MarshalProto := EntityRef_MarshalProto;
    UnmarshalProto := unmarshalFields EntityRef_step;
    wire := EntityRef_wire;
    wellFormed := EntityRef_ok }.

Lemma EntityRef_enc strict m :
  EntityRef_ok strict m -> Encodes (EntityRef_MarshalProto m) (EntityRef_SizeProto m) (EntityRef_wire m).
Proof. enc_message strict EntityRef_ok. Qed.

Lemma EntityRef_rd m :
  EntityRef_ok true m -> Rd EntityRef_step (EntityRef_wire m) EntityRef_zero m.
Proof.
  rd_message m EntityRef_ok EntityRef_wire.
  rd_strings 4 "DescriptionKeys" EntityRef_DescriptionKeys.
  rd_strings 3 "IdKeys" EntityRef_IdKeys.
  rd_string 2 "Type" EntityRef_Type.
  rd_string 1 "SchemaUrl" EntityRef_SchemaUrl.
Qed.

Lemma EntityRef_safe : SafeStep EntityRef_step (EntityRef_ok false).
Proof. safe_message EntityRef_step EntityRef_ok. Qed.

#[export] Instance EntityRef_laws : CodecLaws EntityRef.
Proof.
  apply (fields_laws EntityRef_step); [done| | | |].
  - apply EntityRef_enc.
  - apply EntityRef_rd.
  - apply EntityRef_safe.
  - zero_ok EntityRef_ok.
Qed.

(** ** Resource *)
Record Resource := mkResource {
  Resource_Attributes : list KeyValue;
  Resource_EntityRefs : list EntityRef;
  Resource_DroppedAttributesCount : Z;
}.

Definition Resource_zero : Resource :=
  mkResource [] [] 0.

#[export] Instance Resource_settable : Settable Resource :=
  settable! mkResource <Resource_Attributes; Resource_EntityRefs; Resource_DroppedAttributesCount>.

Definition Resource_SizeProto (m : Resource) : Z :=
  sizeRepeated (fun x => sizeLen 1 (SizeProto x)) (Resource_Attributes m) +
  (if negb (Resource_DroppedAttributesCount m =? 0) then 1 + sov (u64 (Resource_DroppedAttributesCount m)) else 0) +
  sizeRepeated (fun x => sizeLen 1 (SizeProto x)) (Resource_EntityRefs m).

Definition Resource_MarshalProto (m : Resource) : list Z -> res (Z * list Z) :=
  runW (
    wRepeated (fun x => wMsg (wByte 0xa) (MarshalProto x)) (Resource_Attributes m) >;>
    wWhen (negb (Resource_DroppedAttributesCount m =? 0)) (wInt (wByte 0x10) (Resource_DroppedAttributesCount m)) >;>
    wRepeated (fun x => wMsg (wByte 0x1a) (MarshalProto x)) (Resource_EntityRefs m)).

Definition Resource_step (fieldNum wireType : Z) (buf : list Z) (pos : Z) (m : Resource) :
  res (Resource * Z) :=
  match fieldNum with
  | 1 => let* (b, pos) := readLen "Attributes" wireType buf pos in
      let* v := UnmarshalProto b zero in
      Ok (m <| Resource_Attributes := Resource_Attributes m ++ [v] |>, pos)
  | 2 => let* (num, pos) := readVarint "DroppedAttributesCount" wireType buf pos in
      Ok (m <| Resource_DroppedAttributesCount := u32 num |>, pos)
  | 3 => let* (b, pos) := readLen "EntityRefs" wireType buf pos in
      let* v := UnmarshalProto b zero in
      Ok (m <| Resource_EntityRefs := Resource_EntityRefs m ++ [v] |>, pos)
  | _ => skipField wireType buf pos m
  end.

Definition Resource_wire (m : Resource) : list Z :=
  fRepeated (fun x => fLen 3 (wire x)) (Resource_EntityRefs m) ++
  fWhen (negb (Resource_DroppedAttributesCount m =? 0)) (fInt 2 (Resource_DroppedAttributesCount m)) ++
  fRepeated (fun x => fLen 1 (wire x)) (Resource_Attributes m).

Definition Resource_ok (strict : bool) (m : Resource) : Prop :=
  Forall (wellFormed strict) (Resource_Attributes m) /\
  Forall (wellFormed strict) (Resource_EntityRefs m) /\
  is_u32 (Resource_DroppedAttributesCount m).

#[export] Instance Resource_codec : Codec Resource :=
  { zero := Resource_zero;
    SizeProto := Resource_SizeProto;
    MarshalProto := Resource_MarshalProto;
    UnmarshalProto := unmarshalFields Resource_step;
    wire := Resource_wire;
    wellFormed := Resource_ok }.

Lemma Resource_enc strict m :
  Resource_ok strict m -> Encodes (Resource_MarshalProto m) (Resource_SizeProto m) (Resource_wire m).
Proof. enc_message strict Resource_ok. Qed.

Lemma Resource_rd m :
  Resource_ok true m -> Rd Resource_step (Resource_wire m) Resource_zero m.
Proof.
  rd_message m Resource_ok Resource_wire.
  rd_msgs 3 "EntityRefs" Resource_EntityRefs.
  rd_int u32 u32_u64 2 "DroppedAttributesCount" Resource_DroppedAttributesCount.
  rd_msgs 1 "Attributes" Resource_Attributes.
Qed.

Lemma Resource_safe : SafeStep Resource_step (Resource_ok false).
Proof. safe_message Resource_step Resource_ok. Qed.

#[export] Instance Resource_laws : CodecLaws Resource.
Proof.
  apply (fields_laws Resource_step); [done| | | |].
  - apply Resource_enc.
  - apply Resource_rd.
  - apply Resource_safe.
  - zero_ok Resource_ok.
Qed.

(** ** InstrumentationScope *)
Record InstrumentationScope := mkInstrumentationScope {
  InstrumentationScope_Name : list Z;
  InstrumentationScope_Version : list Z;
  InstrumentationScope_Attributes : list KeyValue;
  InstrumentationScope_DroppedAttributesCount : Z;
}.

Definition InstrumentationScope_zero : InstrumentationScope :=
  mkInstrumentationScope [] [] [] 0.

#[export] Instance InstrumentationScope_settable : Settable InstrumentationScope :=
  settable! mkInstrumentationScope <InstrumentationScope_Name; InstrumentationScope_Version;
    InstrumentationScope_Attributes; InstrumentationScope_DroppedAttributesCount>.

Definition InstrumentationScope_SizeProto (m : InstrumentationScope) : Z :=
  (if 0 <? len (InstrumentationScope_Name m) then sizeLen 1 (len (InstrumentationScope_Name m)) else 0) +
  (if 0 <? len (InstrumentationScope_Version m) then sizeLen 1 (len (InstrumentationScope_Version m)) else 0) +
  sizeRepeated (fun x => sizeLen 1 (SizeProto x)) (InstrumentationScope_Attributes m) +
  (if negb (InstrumentationScope_DroppedAttributesCount m =? 0) then 1 + sov (u64
    (InstrumentationScope_DroppedAttributesCount m)) else 0).

Definition InstrumentationScope_MarshalProto (m : InstrumentationScope) : list Z -> res (Z * list Z) :=
  runW (
    wWhen (0 <? len (InstrumentationScope_Name m)) (wLen (wByte 0xa) (InstrumentationScope_Name m)) >;>
    wWhen (0 <? len (InstrumentationScope_Version m)) (wLen (wByte 0x12) (InstrumentationScope_Version m)) >;>
    wRepeated (fun x => wMsg (wByte 0x1a) (MarshalProto x)) (InstrumentationScope_Attributes m) >;>
    wWhen (negb (InstrumentationScope_DroppedAttributesCount m =? 0)) (wInt (wByte 0x20)
      (InstrumentationScope_DroppedAttributesCount m))).

Definition InstrumentationScope_step (fieldNum wireType : Z) (buf : list Z) (pos : Z) (m : InstrumentationScope) :
  res (InstrumentationScope * Z) :=
  match fieldNum with
  | 1 => let* (b, pos) := readLen "Name" wireType buf pos in
      Ok (m <| InstrumentationScope_Name := b |>, pos)
  | 2 => let* (b, pos) := readLen "Version" wireType buf pos in
      Ok (m <| InstrumentationScope_Version := b |>, pos)
  | 3 => let* (b, pos) := readLen "Attributes" wireType buf pos in
      let* v := UnmarshalProto b zero in
      Ok (m <| InstrumentationScope_Attributes := InstrumentationScope_Attributes m ++ [v] |>, pos)
  | 4 => let* (num, pos) := readVarint "DroppedAttributesCount" wireType buf pos in
      Ok (m <| InstrumentationScope_DroppedAttributesCount := u32 num |>, pos)
  | _ => skipField wireType buf pos m
  end.

Definition InstrumentationScope_wire (m : InstrumentationScope) : list Z :=
  fWhen (negb (InstrumentationScope_DroppedAttributesCount m =? 0)) (fInt 4
    (InstrumentationScope_DroppedAttributesCount m)) ++
  fRepeated (fun x => fLen 3 (wire x)) (InstrumentationScope_Attributes m) ++
  fWhen (0 <? len (InstrumentationScope_Version m)) (fLen 2 (InstrumentationScope_Version m)) ++
  fWhen (0 <? len (InstrumentationScope_Name m)) (fLen 1 (InstrumentationScope_Name m)).

Definition InstrumentationScope_ok (strict : bool) (m : InstrumentationScope) : Prop :=
  bytes (InstrumentationScope_Name m) /\
  bytes (InstrumentationScope_Version m) /\
  Forall (wellFormed strict) (InstrumentationScope_Attributes m) /\
  is_u32 (InstrumentationScope_DroppedAttributesCount m).

#[export] Instance InstrumentationScope_codec : Codec InstrumentationScope :=
  { zero := InstrumentationScope_zero;
    SizeProto := InstrumentationScope_SizeProto;
    MarshalProto := InstrumentationScope_MarshalProto;
    UnmarshalProto := unmarshalFields InstrumentationScope_step;
    wire := InstrumentationScope_wire;
    wellFormed := InstrumentationScope_ok }.

Lemma InstrumentationScope_enc strict m :
  InstrumentationScope_ok strict m -> Encodes (InstrumentationScope_MarshalProto m) (InstrumentationScope_SizeProto
    m) (InstrumentationScope_wire m).
Proof. enc_message strict InstrumentationScope_ok. Qed.

Lemma InstrumentationScope_rd m :
  InstrumentationScope_ok true m -> Rd InstrumentationScope_step (InstrumentationScope_wire m)
    InstrumentationScope_zero m.
Proof.
  rd_message m InstrumentationScope_ok InstrumentationScope_wire.
  rd_int u32 u32_u64 4 "DroppedAttributesCount" InstrumentationScope_DroppedAttributesCount.
  rd_msgs 3 "Attributes" InstrumentationScope_Attributes.
  rd_string 2 "Version" InstrumentationScope_Version.
  rd_string 1 "Name" InstrumentationScope_Name.
Qed.

Lemma InstrumentationScope_safe : SafeStep InstrumentationScope_step (InstrumentationScope_ok false).
Proof. safe_message InstrumentationScope_step InstrumentationScope_ok. Qed.

#[export] Instance InstrumentationScope_laws : CodecLaws InstrumentationScope.
Proof.
  apply (fields_laws InstrumentationScope_step); [done| | | |].
  - apply InstrumentationScope_enc.
  - apply InstrumentationScope_rd.
  - apply InstrumentationScope_safe.
  - zero_ok InstrumentationScope_ok.
Qed.
