(* ===== verification/ProtoLogs.v ===== *)
(** * Log messages on the wire

    From a [LogRecord] to the export request, as in ProtoResource. *)

From S2P Require Import Prelude RecordUpdate Errors Sizers ProtoWire ProtoWireProofs ProtoFields ProtoCommon ProtoCommonProofs ProtoMessage ProtoKinds ProtoIds ProtoResource.
Local Open Scope Z_scope.
Local Open Scope otel_scope.

#[local] Opaque RecursionLimit.

(** ** LogRecord *)
Record LogRecord := mkLogRecord {
  LogRecord_Body : AnyValue;
  LogRecord_SeverityText : list Z;
  LogRecord_EventName : list Z;
  LogRecord_Attributes : list KeyValue;
  LogRecord_TimeUnixNano : Z;
  LogRecord_ObservedTimeUnixNano : Z;
  LogRecord_SeverityNumber : Z;
  LogRecord_DroppedAttributesCount : Z;
  LogRecord_Flags : Z;
  LogRecord_TraceId : TraceID;
  LogRecord_SpanId : SpanID;
}.

Definition LogRecord_zero : LogRecord :=
  mkLogRecord zero [] [] [] 0 0 0 0 0 zero zero.

#[export] Instance LogRecord_settable : Settable LogRecord :=
  settable! mkLogRecord <LogRecord_Body; LogRecord_SeverityText; LogRecord_EventName; LogRecord_Attributes;
    LogRecord_TimeUnixNano; LogRecord_ObservedTimeUnixNano; LogRecord_SeverityNumber;
    LogRecord_DroppedAttributesCount; LogRecord_Flags; LogRecord_TraceId; LogRecord_SpanId>.

Definition LogRecord_SizeProto (m : LogRecord) : Z :=
  (if negb (LogRecord_TimeUnixNano m =? 0) then 9 else 0) +
  (if negb (LogRecord_ObservedTimeUnixNano m =? 0) then 9 else 0) +
  (if negb (LogRecord_SeverityNumber m =? 0) then 1 + sov (u64 (LogRecord_SeverityNumber m)) else 0) +
  (if 0 <? len (LogRecord_SeverityText m) then sizeLen 1 (len (LogRecord_SeverityText m)) else 0) +
  sizeLen 1 (SizeProto (LogRecord_Body m)) +
  sizeRepeated (fun x => sizeLen 1 (SizeProto x)) (LogRecord_Attributes m) +
  (if negb (LogRecord_DroppedAttributesCount m =? 0) then 1 + sov (u64 (LogRecord_DroppedAttributesCount m)) else 0) +
  (if negb (LogRecord_Flags m =? 0) then 5 else 0) +
  sizeLen 1 (SizeProto (LogRecord_TraceId m)) +
  sizeLen 1 (SizeProto (LogRecord_SpanId m)) +
  (if 0 <? len (LogRecord_EventName m) then sizeLen 1 (len (LogRecord_EventName m)) else 0).

Definition LogRecord_MarshalProto (m : LogRecord) : list Z -> res (Z * list Z) :=
  runW (
    wWhen (negb (LogRecord_TimeUnixNano m =? 0)) (wI64 (wByte 0x9) (LogRecord_TimeUnixNano m)) >;>
    wWhen (negb (LogRecord_ObservedTimeUnixNano m =? 0)) (wI64 (wByte 0x59) (LogRecord_ObservedTimeUnixNano m)) >;>
    wWhen (negb (LogRecord_SeverityNumber m =? 0)) (wInt (wByte 0x10) (LogRecord_SeverityNumber m)) >;>
    wWhen (0 <? len (LogRecord_SeverityText m)) (wLen (wByte 0x1a) (LogRecord_SeverityText m)) >;>
    wMsg (wByte 0x2a) (MarshalProto (LogRecord_Body m)) >;>
    wRepeated (fun x => wMsg (wByte 0x32) (MarshalProto x)) (LogRecord_Attributes m) >;>
    wWhen (negb (LogRecord_DroppedAttributesCount m =? 0)) (wInt (wByte 0x38) (LogRecord_DroppedAttributesCount m))
      >;>
    wWhen (negb (LogRecord_Flags m =? 0)) (wI32 (wByte 0x45) (LogRecord_Flags m)) >;>
    wMsg (wByte 0x4a) (MarshalProto (LogRecord_TraceId m)) >;>
    wMsg (wByte 0x52) (MarshalProto (LogRecord_SpanId m)) >;>
    wWhen (0 <? len (LogRecord_EventName m)) (wLen (wByte 0x62) (LogRecord_EventName m))).

Definition LogRecord_step (fieldNum wireType : Z) (buf : list Z) (pos : Z) (m : LogRecord) :
  res (LogRecord * Z) :=
  match fieldNum with
  | 1 => let* (num, pos) := readI64 "TimeUnixNano" wireType buf pos in
      Ok (m <| LogRecord_TimeUnixNano := num |>, pos)
  | 11 => let* (num, pos) := readI64 "ObservedTimeUnixNano" wireType buf pos in
      Ok (m <| LogRecord_ObservedTimeUnixNano := num |>, pos)
  | 2 => let* (num, pos) := readVarint "SeverityNumber" wireType buf pos in
      Ok (m <| LogRecord_SeverityNumber := i32 num |>, pos)
  | 3 => let* (b, pos) := readLen "SeverityText" wireType buf pos in
      Ok (m <| LogRecord_SeverityText := b |>, pos)
  | 5 => let* (b, pos) := readLen "Body" wireType buf pos in
      let* v := UnmarshalProto b (LogRecord_Body m) in
      Ok (m <| LogRecord_Body := v |>, pos)
  | 6 => let* (b, pos) := readLen "Attributes" wireType buf pos in
      let* v := UnmarshalProto b zero in
      Ok (m <| LogRecord_Attributes := LogRecord_Attributes m ++ [v] |>, pos)
  | 7 => let* (num, pos) := readVarint "DroppedAttributesCount" wireType buf pos in
      Ok (m <| LogRecord_DroppedAttributesCount := u32 num |>, pos)
  | 8 => let* (num, pos) := readI32 "Flags" wireType buf pos in
      Ok (m <| LogRecord_Flags := num |>, pos)
  | 9 => let* (b, pos) := readLen "TraceId" wireType buf pos in
      let* v := UnmarshalProto b (LogRecord_TraceId m) in
      Ok (m <| LogRecord_TraceId := v |>, pos)
  | 10 => let* (b, pos) := readLen "SpanId" wireType buf pos in
      let* v := UnmarshalProto b (LogRecord_SpanId m) in
      Ok (m <| LogRecord_SpanId := v |>, pos)
  | 12 => let* (b, pos) := readLen "EventName" wireType buf pos in
      Ok (m <| LogRecord_EventName := b |>, pos)
  | _ => skipField wireType buf pos m
  end.

Definition LogRecord_wire (m : LogRecord) : list Z :=
  fWhen (0 <? len (LogRecord_EventName m)) (fLen 12 (LogRecord_EventName m)) ++
  fLen 10 (wire (LogRecord_SpanId m)) ++
  fLen 9 (wire (LogRecord_TraceId m)) ++
  fWhen (negb (LogRecord_Flags m =? 0)) (fI32 8 (LogRecord_Flags m)) ++
  fWhen (negb (LogRecord_DroppedAttributesCount m =? 0)) (fInt 7 (LogRecord_DroppedAttributesCount m)) ++
  fRepeated (fun x => fLen 6 (wire x)) (LogRecord_Attributes m) ++
  fLen 5 (wire (LogRecord_Body m)) ++
  fWhen (0 <? len (LogRecord_SeverityText m)) (fLen 3 (LogRecord_SeverityText m)) ++
  fWhen (negb (LogRecord_SeverityNumber m =? 0)) (fInt 2 (LogRecord_SeverityNumber m)) ++
  fWhen (negb (LogRecord_ObservedTimeUnixNano m =? 0)) (fI64 11 (LogRecord_ObservedTimeUnixNano m)) ++
  fWhen (negb (LogRecord_TimeUnixNano m =? 0)) (fI64 1 (LogRecord_TimeUnixNano m)).

Definition LogRecord_ok (strict : bool) (m : LogRecord) : Prop :=
  wellFormed strict (LogRecord_Body m) /\
  bytes (LogRecord_SeverityText m) /\
  bytes (LogRecord_EventName m) /\
  Forall (wellFormed strict) (LogRecord_Attributes m) /\
  is_u64 (LogRecord_TimeUnixNano m) /\
  is_u64 (LogRecord_ObservedTimeUnixNano m) /\
  is_i32 (LogRecord_SeverityNumber m) /\
  is_u32 (LogRecord_DroppedAttributesCount m) /\
  is_u32 (LogRecord_Flags m) /\
  wellFormed strict (LogRecord_TraceId m) /\
  wellFormed strict (LogRecord_SpanId m).

#[export] Instance LogRecord_codec : Codec LogRecord :=
  { zero := LogRecord_zero;
    SizeProto := LogRecord_SizeProto;
    MarshalProto := LogRecord_MarshalProto;
    UnmarshalProto := unmarshalFields LogRecord_step;
    wire := LogRecord_wire;
    wellFormed := LogRecord_ok }.

Lemma LogRecord_enc strict m :
  LogRecord_ok strict m -> Encodes (LogRecord_MarshalProto m) (LogRecord_SizeProto m) (LogRecord_wire m).
Proof. enc_message strict LogRecord_ok. Qed.

Lemma LogRecord_rd m :
  LogRecord_ok true m -> Rd LogRecord_step (LogRecord_wire m) LogRecord_zero m.
Proof.
  rd_message m LogRecord_ok LogRecord_wire.
  rd_string 12 "EventName" LogRecord_EventName.
  rd_msg 10 "SpanId" LogRecord_SpanId.
  rd_msg 9 "TraceId" LogRecord_TraceId.
  rd_i32 8 "Flags" LogRecord_Flags.
  rd_int u32 u32_u64 7 "DroppedAttributesCount" LogRecord_DroppedAttributesCount.
  rd_msgs 6 "Attributes" LogRecord_Attributes.
  rd_msg 5 "Body" LogRecord_Body.
  rd_string 3 "SeverityText" LogRecord_SeverityText.
  rd_int i32 i32_u64 2 "SeverityNumber" LogRecord_SeverityNumber.
  rd_i64 11 "ObservedTimeUnixNano" LogRecord_ObservedTimeUnixNano.
  rd_i64 1 "TimeUnixNano" LogRecord_TimeUnixNano.
Qed.

Lemma LogRecord_safe : SafeStep LogRecord_step (LogRecord_ok false).
Proof. safe_message LogRecord_step LogRecord_ok. Qed.

#[export] Instance LogRecord_laws : CodecLaws LogRecord.
Proof.
  apply (fields_laws LogRecord_step); [done| | | |].
  - apply LogRecord_enc.
  - apply LogRecord_rd.
  - apply LogRecord_safe.
  - zero_ok LogRecord_ok.
Qed.

(** ** ScopeLogs *)
Record ScopeLogs := mkScopeLogs {
  ScopeLogs_SchemaUrl : list Z;
  ScopeLogs_LogRecords : list LogRecord;
  ScopeLogs_Scope : InstrumentationScope;
}.

Definition ScopeLogs_zero : ScopeLogs :=
  mkScopeLogs [] [] zero.

#[export] Instance ScopeLogs_settable : Settable ScopeLogs :=
  settable! mkScopeLogs <ScopeLogs_SchemaUrl; ScopeLogs_LogRecords; ScopeLogs_Scope>.

Definition ScopeLogs_SizeProto (m : ScopeLogs) : Z :=
  sizeLen 1 (SizeProto (ScopeLogs_Scope m)) +
  sizeRepeated (fun x => sizeLen 1 (SizeProto x)) (ScopeLogs_LogRecords m) +
  (if 0 <? len (ScopeLogs_SchemaUrl m) then sizeLen 1 (len (ScopeLogs_SchemaUrl m)) else 0).

Definition ScopeLogs_MarshalProto (m : ScopeLogs) : list Z -> res (Z * list Z) :=
  runW (
    wMsg (wByte 0xa) (MarshalProto (ScopeLogs_Scope m)) >;>
    wRepeated (fun x => wMsg (wByte 0x12) (MarshalProto x)) (ScopeLogs_LogRecords m) >;>
    wWhen (0 <? len (ScopeLogs_SchemaUrl m)) (wLen (wByte 0x1a) (ScopeLogs_SchemaUrl m))).

Definition ScopeLogs_step (fieldNum wireType : Z) (buf : list Z) (pos : Z) (m : ScopeLogs) :
  res (ScopeLogs * Z) :=
  match fieldNum with
  | 1 => let* (b, pos) := readLen "Scope" wireType buf pos in
      let* v := UnmarshalProto b (ScopeLogs_Scope m) in
      Ok (m <| ScopeLogs_Scope := v |>, pos)
  | 2 => let* (b, pos) := readLen "LogRecords" wireType buf pos in
      let* v := UnmarshalProto b zero in
      Ok (m <| ScopeLogs_LogRecords := ScopeLogs_LogRecords m ++ [v] |>, pos)
  | 3 => let* (b, pos) := readLen "SchemaUrl" wireType buf pos in
      Ok (m <| ScopeLogs_SchemaUrl := b |>, pos)
  | _ => skipField wireType buf pos m
  end.

Definition ScopeLogs_wire (m : ScopeLogs) : list Z :=
  fWhen (0 <? len (ScopeLogs_SchemaUrl m)) (fLen 3 (ScopeLogs_SchemaUrl m)) ++
  fRepeated (fun x => fLen 2 (wire x)) (ScopeLogs_LogRecords m) ++
  fLen 1 (wire (ScopeLogs_Scope m)).

Definition ScopeLogs_ok (strict : bool) (m : ScopeLogs) : Prop :=
  bytes (ScopeLogs_SchemaUrl m) /\
  Forall (wellFormed strict) (ScopeLogs_LogRecords m) /\
  wellFormed strict (ScopeLogs_Scope m).

#[export] Instance ScopeLogs_codec : Codec ScopeLogs :=
  { zero := ScopeLogs_zero;
    SizeProto := ScopeLogs_SizeProto;
    MarshalProto := ScopeLogs_MarshalProto;
    UnmarshalProto := unmarshalFields ScopeLogs_step;
    wire := ScopeLogs_wire;
    wellFormed := ScopeLogs_ok }.

Lemma ScopeLogs_enc strict m :
  ScopeLogs_ok strict m -> Encodes (ScopeLogs_MarshalProto m) (ScopeLogs_SizeProto m) (ScopeLogs_wire m).
Proof. enc_message strict ScopeLogs_ok. Qed.

Lemma ScopeLogs_rd m :
  ScopeLogs_ok true m -> Rd ScopeLogs_step (ScopeLogs_wire m) ScopeLogs_zero m.
Proof.
  rd_message m ScopeLogs_ok ScopeLogs_wire.
  rd_string 3 "SchemaUrl" ScopeLogs_SchemaUrl.
  rd_msgs 2 "LogRecords" ScopeLogs_LogRecords.
  rd_msg 1 "Scope" ScopeLogs_Scope.
Qed.

Lemma ScopeLogs_safe : SafeStep ScopeLogs_step (ScopeLogs_ok false).
Proof. safe_message ScopeLogs_step ScopeLogs_ok. Qed.

#[export] Instance ScopeLogs_laws : CodecLaws ScopeLogs.
Proof.
  apply (fields_laws ScopeLogs_step); [done| | | |].
  - apply ScopeLogs_enc.
  - apply ScopeLogs_rd.
  - apply ScopeLogs_safe.
  - zero_ok ScopeLogs_ok.
Qed.

(** ** ResourceLogs *)
Record ResourceLogs := mkResourceLogs {
  ResourceLogs_Resource : Resource;
  ResourceLogs_ScopeLogs : list ScopeLogs;
  ResourceLogs_SchemaUrl : list Z;
  ResourceLogs_DeprecatedScopeLogs : list ScopeLogs;
}.

Definition ResourceLogs_zero : ResourceLogs :=
  mkResourceLogs zero [] [] [].

#[export] Instance ResourceLogs_settable : Settable ResourceLogs :=
  settable! mkResourceLogs <ResourceLogs_Resource; ResourceLogs_ScopeLogs; ResourceLogs_SchemaUrl;
    ResourceLogs_DeprecatedScopeLogs>.

Definition ResourceLogs_SizeProto (m : ResourceLogs) : Z :=
  sizeLen 1 (SizeProto (ResourceLogs_Resource m)) +
  sizeRepeated (fun x => sizeLen 1 (SizeProto x)) (ResourceLogs_ScopeLogs m) +
  (if 0 <? len (ResourceLogs_SchemaUrl m) then sizeLen 1 (len (ResourceLogs_SchemaUrl m)) else 0) +
  sizeRepeated (fun x => sizeLen 2 (SizeProto x)) (ResourceLogs_DeprecatedScopeLogs m).

Definition ResourceLogs_MarshalProto (m : ResourceLogs) : list Z -> res (Z * list Z) :=
  runW (
    wMsg (wByte 0xa) (MarshalProto (ResourceLogs_Resource m)) >;>
    wRepeated (fun x => wMsg (wByte 0x12) (MarshalProto x)) (ResourceLogs_ScopeLogs m) >;>
    wWhen (0 <? len (ResourceLogs_SchemaUrl m)) (wLen (wByte 0x1a) (ResourceLogs_SchemaUrl m)) >;>
    wRepeated (fun x => wMsg (wByte 0x3e >;> wByte 0xc2) (MarshalProto x)) (ResourceLogs_DeprecatedScopeLogs m)).

Definition ResourceLogs_step (fieldNum wireType : Z) (buf : list Z) (pos : Z) (m : ResourceLogs) :
  res (ResourceLogs * Z) :=
  match fieldNum with
  | 1 => let* (b, pos) := readLen "Resource" wireType buf pos in
      let* v := UnmarshalProto b (ResourceLogs_Resource m) in
      Ok (m <| ResourceLogs_Resource := v |>, pos)
  | 2 => let* (b, pos) := readLen "ScopeLogs" wireType buf pos in
      let* v := UnmarshalProto b zero in
      Ok (m <| ResourceLogs_ScopeLogs := ResourceLogs_ScopeLogs m ++ [v] |>, pos)
  | 3 => let* (b, pos) := readLen "SchemaUrl" wireType buf pos in
      Ok (m <| ResourceLogs_SchemaUrl := b |>, pos)
  | 1000 => let* (b, pos) := readLen "DeprecatedScopeLogs" wireType buf pos in
      let* v := UnmarshalProto b zero in
      Ok (m <| ResourceLogs_DeprecatedScopeLogs := ResourceLogs_DeprecatedScopeLogs m ++ [v] |>, pos)
  | _ => skipField wireType buf pos m
  end.

Definition ResourceLogs_wire (m : ResourceLogs) : list Z :=
  fRepeated (fun x => fLen 1000 (wire x)) (ResourceLogs_DeprecatedScopeLogs m) ++
  fWhen (0 <? len (ResourceLogs_SchemaUrl m)) (fLen 3 (ResourceLogs_SchemaUrl m)) ++
  fRepeated (fun x => fLen 2 (wire x)) (ResourceLogs_ScopeLogs m) ++
  fLen 1 (wire (ResourceLogs_Resource m)).

Definition ResourceLogs_ok (strict : bool) (m : ResourceLogs) : Prop :=
  wellFormed strict (ResourceLogs_Resource m) /\
  Forall (wellFormed strict) (ResourceLogs_ScopeLogs m) /\
  bytes (ResourceLogs_SchemaUrl m) /\
  Forall (wellFormed strict) (ResourceLogs_DeprecatedScopeLogs m).

#[export] Instance ResourceLogs_codec : Codec ResourceLogs :=
  { zero := ResourceLogs_zero;
    SizeProto := ResourceLogs_SizeProto;
    MarshalProto := ResourceLogs_MarshalProto;
    UnmarshalProto := unmarshalFields ResourceLogs_step;
    wire := ResourceLogs_wire;
    wellFormed := ResourceLogs_ok }.

Lemma ResourceLogs_enc strict m :
  ResourceLogs_ok strict m -> Encodes (ResourceLogs_MarshalProto m) (ResourceLogs_SizeProto m) (ResourceLogs_wire m).
Proof. enc_message strict ResourceLogs_ok. Qed.

Lemma ResourceLogs_rd m :
  ResourceLogs_ok true m -> Rd ResourceLogs_step (ResourceLogs_wire m) ResourceLogs_zero m.
Proof.
  rd_message m ResourceLogs_ok ResourceLogs_wire.
  rd_msgs 1000 "DeprecatedScopeLogs" ResourceLogs_DeprecatedScopeLogs.
  rd_string 3 "SchemaUrl" ResourceLogs_SchemaUrl.
  rd_msgs 2 "ScopeLogs" ResourceLogs_ScopeLogs.
  rd_msg 1 "Resource" ResourceLogs_Resource.
Qed.

Lemma ResourceLogs_safe : SafeStep ResourceLogs_step (ResourceLogs_ok false).
Proof. safe_message ResourceLogs_step ResourceLogs_ok. Qed.

#[export] Instance ResourceLogs_laws : CodecLaws ResourceLogs.
Proof.
  apply (fields_laws ResourceLogs_step); [done| | | |].
  - apply ResourceLogs_enc.
  - apply ResourceLogs_rd.
  - apply ResourceLogs_safe.
  - zero_ok ResourceLogs_ok.
Qed.

(** ** ExportLogsServiceRequest *)
Record ExportLogsServiceRequest := mkExportLogsServiceRequest {
  ExportLogsServiceRequest_ResourceLogs : list ResourceLogs;
}.

Definition ExportLogsServiceRequest_zero : ExportLogsServiceRequest :=
  mkExportLogsServiceRequest [].

#[export] Instance ExportLogsServiceRequest_settable : Settable ExportLogsServiceRequest :=
  settable! mkExportLogsServiceRequest <ExportLogsServiceRequest_ResourceLogs>.

Definition ExportLogsServiceRequest_SizeProto (m : ExportLogsServiceRequest) : Z :=
  sizeRepeated (fun x => sizeLen 1 (SizeProto x)) (ExportLogsServiceRequest_ResourceLogs m).

Definition ExportLogsServiceRequest_MarshalProto (m : ExportLogsServiceRequest) : list Z -> res (Z * list Z) :=
  runW (
    wRepeated (fun x => wMsg (wByte 0xa) (MarshalProto x)) (ExportLogsServiceRequest_ResourceLogs m)).

Definition ExportLogsServiceRequest_step (fieldNum wireType : Z) (buf : list Z) (pos : Z) (m :
  ExportLogsServiceRequest) :
  res (ExportLogsServiceRequest * Z) :=
  match fieldNum with
  | 1 => let* (b, pos) := readLen "ResourceLogs" wireType buf pos in
      let* v := UnmarshalProto b zero in
      Ok (m <| ExportLogsServiceRequest_ResourceLogs := ExportLogsServiceRequest_ResourceLogs m ++ [v] |>, pos)
  | _ => skipField wireType buf pos m
  end.

Definition ExportLogsServiceRequest_wire (m : ExportLogsServiceRequest) : list Z :=
  fRepeated (fun x => fLen 1 (wire x)) (ExportLogsServiceRequest_ResourceLogs m).

Definition ExportLogsServiceRequest_ok (strict : bool) (m : ExportLogsServiceRequest) : Prop :=
  Forall (wellFormed strict) (ExportLogsServiceRequest_ResourceLogs m).

#[export] Instance ExportLogsServiceRequest_codec : Codec ExportLogsServiceRequest :=
  { zero := ExportLogsServiceRequest_zero;
    SizeProto := ExportLogsServiceRequest_SizeProto;
    MarshalProto := ExportLogsServiceRequest_MarshalProto;
    UnmarshalProto := unmarshalFields ExportLogsServiceRequest_step;
    wire := ExportLogsServiceRequest_wire;
    wellFormed := ExportLogsServiceRequest_ok }.

Lemma ExportLogsServiceRequest_enc strict m :
  ExportLogsServiceRequest_ok strict m -> Encodes (ExportLogsServiceRequest_MarshalProto m)
    (ExportLogsServiceRequest_SizeProto m) (ExportLogsServiceRequest_wire m).
Proof. enc_message strict ExportLogsServiceRequest_ok. Qed.

Lemma ExportLogsServiceRequest_rd m :
  ExportLogsServiceRequest_ok true m -> Rd ExportLogsServiceRequest_step (ExportLogsServiceRequest_wire m)
    ExportLogsServiceRequest_zero m.
Proof.
  rd_message m ExportLogsServiceRequest_ok ExportLogsServiceRequest_wire.
  rd_msgs 1 "ResourceLogs" ExportLogsServiceRequest_ResourceLogs.
Qed.

Lemma ExportLogsServiceRequest_safe : SafeStep ExportLogsServiceRequest_step (ExportLogsServiceRequest_ok false).
Proof. safe_message ExportLogsServiceRequest_step ExportLogsServiceRequest_ok. Qed.

#[export] Instance ExportLogsServiceRequest_laws : CodecLaws ExportLogsServiceRequest.
Proof.
  apply (fields_laws ExportLogsServiceRequest_step); [done| | | |].
  - apply ExportLogsServiceRequest_enc.
  - apply ExportLogsServiceRequest_rd.
  - apply ExportLogsServiceRequest_safe.
  - zero_ok ExportLogsServiceRequest_ok.
Qed.
