(* ===== verification/ProtoTraces.v ===== *)
(** * Trace messages on the wire

    From a [Span] to the export request, as in ProtoResource. *)

From S2P Require Import Prelude RecordUpdate Errors Sizers ProtoWire ProtoWireProofs ProtoFields ProtoCommon ProtoCommonProofs ProtoMessage ProtoKinds ProtoIds ProtoResource.
Local Open Scope Z_scope.
Local Open Scope otel_scope.

#[local] Opaque RecursionLimit.

(** ** SpanEvent *)
Record SpanEvent := mkSpanEvent {
  SpanEvent_Name : list Z;
  SpanEvent_Attributes : list KeyValue;
  SpanEvent_TimeUnixNano : Z;
  SpanEvent_DroppedAttributesCount : Z;
}.

Definition SpanEvent_zero : SpanEvent :=
  mkSpanEvent [] [] 0 0.

#[export] Instance SpanEvent_settable : Settable SpanEvent :=
  settable! mkSpanEvent <SpanEvent_Name; SpanEvent_Attributes; SpanEvent_TimeUnixNano;
    SpanEvent_DroppedAttributesCount>.

Definition SpanEvent_SizeProto (m : SpanEvent) : Z :=
  (if negb (SpanEvent_TimeUnixNano m =? 0) then 9 else 0) +
  (if 0 <? len (SpanEvent_Name m) then sizeLen 1 (len (SpanEvent_Name m)) else 0) +
  sizeRepeated (fun x => sizeLen 1 (SizeProto x)) (SpanEvent_Attributes m) +
  (if negb (SpanEvent_DroppedAttributesCount m =? 0) then 1 + sov (u64 (SpanEvent_DroppedAttributesCount m)) else 0).

Definition SpanEvent_MarshalProto (m : SpanEvent) : list Z -> res (Z * list Z) :=
  runW (
    wWhen (negb (SpanEvent_TimeUnixNano m =? 0)) (wI64 (wByte 0x9) (SpanEvent_TimeUnixNano m)) >;>
    wWhen (0 <? len (SpanEvent_Name m)) (wLen (wByte 0x12) (SpanEvent_Name m)) >;>
    wRepeated (fun x => wMsg (wByte 0x1a) (MarshalProto x)) (SpanEvent_Attributes m) >;>
    wWhen (negb (SpanEvent_DroppedAttributesCount m =? 0)) (wInt (wByte 0x20) (SpanEvent_DroppedAttributesCount m))).

Definition SpanEvent_step (fieldNum wireType : Z) (buf : list Z) (pos : Z) (m : SpanEvent) :
  res (SpanEvent * Z) :=
  match fieldNum with
  | 1 => let* (num, pos) := readI64 "TimeUnixNano" wireType buf pos in
      Ok (m <| SpanEvent_TimeUnixNano := num |>, pos)
  | 2 => let* (b, pos) := readLen "Name" wireType buf pos in
      Ok (m <| SpanEvent_Name := b |>, pos)
  | 3 => let* (b, pos) := readLen "Attributes" wireType buf pos in
      let* v := UnmarshalProto b zero in
      Ok (m <| SpanEvent_Attributes := SpanEvent_Attributes m ++ [v] |>, pos)
  | 4 => let* (num, pos) := readVarint "DroppedAttributesCount" wireType buf pos in
      Ok (m <| SpanEvent_DroppedAttributesCount := u32 num |>, pos)
  | _ => skipField wireType buf pos m
  end.

Definition SpanEvent_wire (m : SpanEvent) : list Z :=
  fWhen (negb (SpanEvent_DroppedAttributesCount m =? 0)) (fInt 4 (SpanEvent_DroppedAttributesCount m)) ++
  fRepeated (fun x => fLen 3 (wire x)) (SpanEvent_Attributes m) ++
  fWhen (0 <? len (SpanEvent_Name m)) (fLen 2 (SpanEvent_Name m)) ++
  fWhen (negb (SpanEvent_TimeUnixNano m =? 0)) (fI64 1 (SpanEvent_TimeUnixNano m)).

Definition SpanEvent_ok (strict : bool) (m : SpanEvent) : Prop :=
  bytes (SpanEvent_Name m) /\
  Forall (wellFormed strict) (SpanEvent_Attributes m) /\
  is_u64 (SpanEvent_TimeUnixNano m) /\
  is_u32 (SpanEvent_DroppedAttributesCount m).

#[export] Instance SpanEvent_codec : Codec SpanEvent :=
  { zero := SpanEvent_zero;
    SizeProto := SpanEvent_SizeProto;
    MarshalProto := SpanEvent_MarshalProto;
    UnmarshalProto := unmarshalFields SpanEvent_step;
    wire := SpanEvent_wire;
    wellFormed := SpanEvent_ok }.

Lemma SpanEvent_enc strict m :
  SpanEvent_ok strict m -> Encodes (SpanEvent_MarshalProto m) (SpanEvent_SizeProto m) (SpanEvent_wire m).
Proof. enc_message strict SpanEvent_ok. Qed.

Lemma SpanEvent_rd m :
  SpanEvent_ok true m -> Rd SpanEvent_step (SpanEvent_wire m) SpanEvent_zero m.
Proof.
  rd_message m SpanEvent_ok SpanEvent_wire.
  rd_int u32 u32_u64 4 "DroppedAttributesCount" SpanEvent_DroppedAttributesCount.
  rd_msgs 3 "Attributes" SpanEvent_Attributes.
  rd_string 2 "Name" SpanEvent_Name.
  rd_i64 1 "TimeUnixNano" SpanEvent_TimeUnixNano.
Qed.

Lemma SpanEvent_safe : SafeStep SpanEvent_step (SpanEvent_ok false).
Proof. safe_message SpanEvent_step SpanEvent_ok. Qed.

#[export] Instance SpanEvent_laws : CodecLaws SpanEvent.
Proof.
  apply (fields_laws SpanEvent_step); [done| | | |].
  - apply SpanEvent_enc.
  - apply SpanEvent_rd.
  - apply SpanEvent_safe.
  - zero_ok SpanEvent_ok.
Qed.

(** ** SpanLink *)
Record SpanLink := mkSpanLink {
  SpanLink_TraceState : list Z;
  SpanLink_Attributes : list KeyValue;
  SpanLink_DroppedAttributesCount : Z;
  SpanLink_Flags : Z;
  SpanLink_TraceId : TraceID;
  SpanLink_SpanId : SpanID;
}.

Definition SpanLink_zero : SpanLink :=
  mkSpanLink [] [] 0 0 zero zero.

#[export] Instance SpanLink_settable : Settable SpanLink :=
  settable! mkSpanLink <SpanLink_TraceState; SpanLink_Attributes; SpanLink_DroppedAttributesCount; SpanLink_Flags;
    SpanLink_TraceId; SpanLink_SpanId>.

Definition SpanLink_SizeProto (m : SpanLink) : Z :=
  sizeLen 1 (SizeProto (SpanLink_TraceId m)) +
  sizeLen 1 (SizeProto (SpanLink_SpanId m)) +
  (if 0 <? len (SpanLink_TraceState m) then sizeLen 1 (len (SpanLink_TraceState m)) else 0) +
  sizeRepeated (fun x => sizeLen 1 (SizeProto x)) (SpanLink_Attributes m) +
  (if negb (SpanLink_DroppedAttributesCount m =? 0) then 1 + sov (u64 (SpanLink_DroppedAttributesCount m)) else 0) +
  (if negb (SpanLink_Flags m =? 0) then 5 else 0).

Definition SpanLink_MarshalProto (m : SpanLink) : list Z -> res (Z * list Z) :=
  runW (
    wMsg (wByte 0xa) (MarshalProto (SpanLink_TraceId m)) >;>
    wMsg (wByte 0x12) (MarshalProto (SpanLink_SpanId m)) >;>
    wWhen (0 <? len (SpanLink_TraceState m)) (wLen (wByte 0x1a) (SpanLink_TraceState m)) >;>
    wRepeated (fun x => wMsg (wByte 0x22) (MarshalProto x)) (SpanLink_Attributes m) >;>
    wWhen (negb (SpanLink_DroppedAttributesCount m =? 0)) (wInt (wByte 0x28) (SpanLink_DroppedAttributesCount m)) >;>
    wWhen (negb (SpanLink_Flags m =? 0)) (wI32 (wByte 0x35) (SpanLink_Flags m))).

Definition SpanLink_step (fieldNum wireType : Z) (buf : list Z) (pos : Z) (m : SpanLink) :
  res (SpanLink * Z) :=
  match fieldNum with
  | 1 => let* (b, pos) := readLen "TraceId" wireType buf pos in
      let* v := UnmarshalProto b (SpanLink_TraceId m) in
      Ok (m <| SpanLink_TraceId := v |>, pos)
  | 2 => let* (b, pos) := readLen "SpanId" wireType buf pos in
      let* v := UnmarshalProto b (SpanLink_SpanId m) in
      Ok (m <| SpanLink_SpanId := v |>, pos)
  | 3 => let* (b, pos) := readLen "TraceState" wireType buf pos in
      Ok (m <| SpanLink_TraceState := b |>, pos)
  | 4 => let* (b, pos) := readLen "Attributes" wireType buf pos in
      let* v := UnmarshalProto b zero in
      Ok (m <| SpanLink_Attributes := SpanLink_Attributes m ++ [v] |>, pos)
  | 5 => let* (num, pos) := readVarint "DroppedAttributesCount" wireType buf pos in
      Ok (m <| SpanLink_DroppedAttributesCount := u32 num |>, pos)
  | 6 => let* (num, pos) := readI32 "Flags" wireType buf pos in
      Ok (m <| SpanLink_Flags := num |>, pos)
  | _ => skipField wireType buf pos m
  end.

Definition SpanLink_wire (m : SpanLink) : list Z :=
  fWhen (negb (SpanLink_Flags m =? 0)) (fI32 6 (SpanLink_Flags m)) ++
  fWhen (negb (SpanLink_DroppedAttributesCount m =? 0)) (fInt 5 (SpanLink_DroppedAttributesCount m)) ++
  fRepeated (fun x => fLen 4 (wire x)) (SpanLink_Attributes m) ++
  fWhen (0 <? len (SpanLink_TraceState m)) (fLen 3 (SpanLink_TraceState m)) ++
  fLen 2 (wire (SpanLink_SpanId m)) ++
  fLen 1 (wire (SpanLink_TraceId m)).

Definition SpanLink_ok (strict : bool) (m : SpanLink) : Prop :=
  bytes (SpanLink_TraceState m) /\
  Forall (wellFormed strict) (SpanLink_Attributes m) /\
  is_u32 (SpanLink_DroppedAttributesCount m) /\
  is_u32 (SpanLink_Flags m) /\
  wellFormed strict (SpanLink_TraceId m) /\
  wellFormed strict (SpanLink_SpanId m).

#[export] Instance SpanLink_codec : Codec SpanLink :=
  { zero := SpanLink_zero;
    SizeProto := SpanLink_SizeProto;
    MarshalProto := SpanLink_MarshalProto;
    UnmarshalProto := unmarshalFields SpanLink_step;
    wire := SpanLink_wire;
    wellFormed := SpanLink_ok }.

Lemma SpanLink_enc strict m :
  SpanLink_ok strict m -> Encodes (SpanLink_MarshalProto m) (SpanLink_SizeProto m) (SpanLink_wire m).
Proof. enc_message strict SpanLink_ok. Qed.

Lemma SpanLink_rd m :
  SpanLink_ok true m -> Rd SpanLink_step (SpanLink_wire m) SpanLink_zero m.
Proof.
  rd_message m SpanLink_ok SpanLink_wire.
  rd_i32 6 "Flags" SpanLink_Flags.
  rd_int u32 u32_u64 5 "DroppedAttributesCount" SpanLink_DroppedAttributesCount.
  rd_msgs 4 "Attributes" SpanLink_Attributes.
  rd_string 3 "TraceState" SpanLink_TraceState.
  rd_msg 2 "SpanId" SpanLink_SpanId.
  rd_msg 1 "TraceId" SpanLink_TraceId.
Qed.

Lemma SpanLink_safe : SafeStep SpanLink_step (SpanLink_ok false).
Proof. safe_message SpanLink_step SpanLink_ok. Qed.

#[export] Instance SpanLink_laws : CodecLaws SpanLink.
Proof.
  apply (fields_laws SpanLink_step); [done| | | |].
  - apply SpanLink_enc.
  - apply SpanLink_rd.
  - apply SpanLink_safe.
  - zero_ok SpanLink_ok.
Qed.

(** ** Status *)
Record Status := mkStatus {
  Status_Message : list Z;
  Status_Code : Z;
}.

Definition Status_zero : Status :=
  mkStatus [] 0.

#[export] Instance Status_settable : Settable Status :=
  settable! mkStatus <Status_Message; Status_Code>.

Definition Status_SizeProto (m : Status) : Z :=
  (if 0 <? len (Status_Message m) then sizeLen 1 (len (Status_Message m)) else 0) +
  (if negb (Status_Code m =? 0) then 1 + sov (u64 (Status_Code m)) else 0).

Definition Status_MarshalProto (m : Status) : list Z -> res (Z * list Z) :=
  runW (
    wWhen (0 <? len (Status_Message m)) (wLen (wByte 0x12) (Status_Message m)) >;>
    wWhen (negb (Status_Code m =? 0)) (wInt (wByte 0x18) (Status_Code m))).

Definition Status_step (fieldNum wireType : Z) (buf : list Z) (pos : Z) (m : Status) :
  res (Status * Z) :=
  match fieldNum with
  | 2 => let* (b, pos) := readLen "Message" wireType buf pos in
      Ok (m <| Status_Message := b |>, pos)
  | 3 => let* (num, pos) := readVarint "Code" wireType buf pos in
      Ok (m <| Status_Code := i32 num |>, pos)
  | _ => skipField wireType buf pos m
  end.

Definition Status_wire (m : Status) : list Z :=
  fWhen (negb (Status_Code m =? 0)) (fInt 3 (Status_Code m)) ++
  fWhen (0 <? len (Status_Message m)) (fLen 2 (Status_Message m)).

Definition Status_ok (strict : bool) (m : Status) : Prop :=
  bytes (Status_Message m) /\
  is_i32 (Status_Code m).

#[export] Instance Status_codec : Codec Status :=
  { zero := Status_zero;
    SizeProto := Status_SizeProto;
    MarshalProto := Status_MarshalProto;
    UnmarshalProto := unmarshalFields Status_step;
    wire := Status_wire;
    wellFormed := Status_ok }.

Lemma Status_enc strict m :
  Status_ok strict m -> Encodes (Status_MarshalProto m) (Status_SizeProto m) (Status_wire m).
Proof. enc_message strict Status_ok. Qed.

Lemma Status_rd m :
  Status_ok true m -> Rd Status_step (Status_wire m) Status_zero m.
Proof.
  rd_message m Status_ok Status_wire.
  rd_int i32 i32_u64 3 "Code" Status_Code.
  rd_string 2 "Message" Status_Message.
Qed.

Lemma Status_safe : SafeStep Status_step (Status_ok false).
Proof. safe_message Status_step Status_ok. Qed.

#[export] Instance Status_laws : CodecLaws Status.
Proof.
  apply (fields_laws Status_step); [done| | | |].
  - apply Status_enc.
  - apply Status_rd.
  - apply Status_safe.
  - zero_ok Status_ok.
Qed.

(** ** Span *)
Record Span := mkSpan {
  Span_TraceState : list Z;
  Span_Name : list Z;
  Span_Attributes : list KeyValue;
  Span_Events : list SpanEvent;
  Span_Links : list SpanLink;
  Span_Status : Status;
  Span_StartTimeUnixNano : Z;
  Span_EndTimeUnixNano : Z;
  Span_Flags : Z;
  Span_Kind : Z;
  Span_DroppedAttributesCount : Z;
  Span_DroppedEventsCount : Z;
  Span_DroppedLinksCount : Z;
  Span_TraceId : TraceID;
  Span_SpanId : SpanID;
  Span_ParentSpanId : SpanID;
}.

Definition Span_zero : Span :=
  mkSpan [] [] [] [] [] zero 0 0 0 0 0 0 0 zero zero zero.

#[export] Instance Span_settable : Settable Span :=
  settable! mkSpan <Span_TraceState; Span_Name; Span_Attributes; Span_Events; Span_Links; Span_Status;
    Span_StartTimeUnixNano; Span_EndTimeUnixNano; Span_Flags; Span_Kind; Span_DroppedAttributesCount;
    Span_DroppedEventsCount; Span_DroppedLinksCount; Span_TraceId; Span_SpanId; Span_ParentSpanId>.

Definition Span_SizeProto (m : Span) : Z :=
  sizeLen 1 (SizeProto (Span_TraceId m)) +
  sizeLen 1 (SizeProto (Span_SpanId m)) +
  (if 0 <? len (Span_TraceState m) then sizeLen 1 (len (Span_TraceState m)) else 0) +
  sizeLen 1 (SizeProto (Span_ParentSpanId m)) +
  (if negb (Span_Flags m =? 0) then 6 else 0) +
  (if 0 <? len (Span_Name m) then sizeLen 1 (len (Span_Name m)) else 0) +
  (if negb (Span_Kind m =? 0) then 1 + sov (u64 (Span_Kind m)) else 0) +
  (if negb (Span_StartTimeUnixNano m =? 0) then 9 else 0) +
  (if negb (Span_EndTimeUnixNano m =? 0) then 9 else 0) +
  sizeRepeated (fun x => sizeLen 1 (SizeProto x)) (Span_Attributes m) +
  (if negb (Span_DroppedAttributesCount m =? 0) then 1 + sov (u64 (Span_DroppedAttributesCount m)) else 0) +
  sizeRepeated (fun x => sizeLen 1 (SizeProto x)) (Span_Events m) +
  (if negb (Span_DroppedEventsCount m =? 0) then 1 + sov (u64 (Span_DroppedEventsCount m)) else 0) +
  sizeRepeated (fun x => sizeLen 1 (SizeProto x)) (Span_Links m) +
  (if negb (Span_DroppedLinksCount m =? 0) then 1 + sov (u64 (Span_DroppedLinksCount m)) else 0) +
  sizeLen 1 (SizeProto (Span_Status m)).

Definition Span_MarshalProto (m : Span) : list Z -> res (Z * list Z) :=
  runW (
    wMsg (wByte 0xa) (MarshalProto (Span_TraceId m)) >;>
    wMsg (wByte 0x12) (MarshalProto (Span_SpanId m)) >;>
    wWhen (0 <? len (Span_TraceState m)) (wLen (wByte 0x1a) (Span_TraceState m)) >;>
    wMsg (wByte 0x22) (MarshalProto (Span_ParentSpanId m)) >;>
    wWhen (negb (Span_Flags m =? 0)) (wI32 (wByte 0x1 >;> wByte 0x85) (Span_Flags m)) >;>
    wWhen (0 <? len (Span_Name m)) (wLen (wByte 0x2a) (Span_Name m)) >;>
    wWhen (negb (Span_Kind m =? 0)) (wInt (wByte 0x30) (Span_Kind m)) >;>
    wWhen (negb (Span_StartTimeUnixNano m =? 0)) (wI64 (wByte 0x39) (Span_StartTimeUnixNano m)) >;>
    wWhen (negb (Span_EndTimeUnixNano m =? 0)) (wI64 (wByte 0x41) (Span_EndTimeUnixNano m)) >;>
    wRepeated (fun x => wMsg (wByte 0x4a) (MarshalProto x)) (Span_Attributes m) >;>
    wWhen (negb (Span_DroppedAttributesCount m =? 0)) (wInt (wByte 0x50) (Span_DroppedAttributesCount m)) >;>
    wRepeated (fun x => wMsg (wByte 0x5a) (MarshalProto x)) (Span_Events m) >;>
    wWhen (negb (Span_DroppedEventsCount m =? 0)) (wInt (wByte 0x60) (Span_DroppedEventsCount m)) >;>
    wRepeated (fun x => wMsg (wByte 0x6a) (MarshalProto x)) (Span_Links m) >;>
    wWhen (negb (Span_DroppedLinksCount m =? 0)) (wInt (wByte 0x70) (Span_DroppedLinksCount m)) >;>
    wMsg (wByte 0x7a) (MarshalProto (Span_Status m))).

Definition Span_step (fieldNum wireType : Z) (buf : list Z) (pos : Z) (m : Span) :
  res (Span * Z) :=
  match fieldNum with
  | 1 => let* (b, pos) := readLen "TraceId" wireType buf pos in
      let* v := UnmarshalProto b (Span_TraceId m) in
      Ok (m <| Span_TraceId := v |>, pos)
  | 2 => let* (b, pos) := readLen "SpanId" wireType buf pos in
      let* v := UnmarshalProto b (Span_SpanId m) in
      Ok (m <| Span_SpanId := v |>, pos)
  | 3 => let* (b, pos) := readLen "TraceState" wireType buf pos in
      Ok (m <| Span_TraceState := b |>, pos)
  | 4 => let* (b, pos) := readLen "ParentSpanId" wireType buf pos in
      let* v := UnmarshalProto b (Span_ParentSpanId m) in
      Ok (m <| Span_ParentSpanId := v |>, pos)
  | 16 => let* (num, pos) := readI32 "Flags" wireType buf pos in
      Ok (m <| Span_Flags := num |>, pos)
  | 5 => let* (b, pos) := readLen "Name" wireType buf pos in
      Ok (m <| Span_Name := b |>, pos)
  | 6 => let* (num, pos) := readVarint "Kind" wireType buf pos in
      Ok (m <| Span_Kind := i32 num |>, pos)
  | 7 => let* (num, pos) := readI64 "StartTimeUnixNano" wireType buf pos in
      Ok (m <| Span_StartTimeUnixNano := num |>, pos)
  | 8 => let* (num, pos) := readI64 "EndTimeUnixNano" wireType buf pos in
      Ok (m <| Span_EndTimeUnixNano := num |>, pos)
  | 9 => let* (b, pos) := readLen "Attributes" wireType buf pos in
      let* v := UnmarshalProto b zero in
      Ok (m <| Span_Attributes := Span_Attributes m ++ [v] |>, pos)
  | 10 => let* (num, pos) := readVarint "DroppedAttributesCount" wireType buf pos in
      Ok (m <| Span_DroppedAttributesCount := u32 num |>, pos)
  | 11 => let* (b, pos) := readLen "Events" wireType buf pos in
      let* v := UnmarshalProto b zero in
      Ok (m <| Span_Events := Span_Events m ++ [v] |>, pos)
  | 12 => let* (num, pos) := readVarint "DroppedEventsCount" wireType buf pos in
      Ok (m <| Span_DroppedEventsCount := u32 num |>, pos)
  | 13 => let* (b, pos) := readLen "Links" wireType buf pos in
      let* v := UnmarshalProto b zero in
      Ok (m <| Span_Links := Span_Links m ++ [v] |>, pos)
  | 14 => let* (num, pos) := readVarint "DroppedLinksCount" wireType buf pos in
      Ok (m <| Span_DroppedLinksCount := u32 num |>, pos)
  | 15 => let* (b, pos) := readLen "Status" wireType buf pos in
      let* v := UnmarshalProto b (Span_Status m) in
      Ok (m <| Span_Status := v |>, pos)
  | _ => skipField wireType buf pos m
  end.

Definition Span_wire (m : Span) : list Z :=
  fLen 15 (wire (Span_Status m)) ++
  fWhen (negb (Span_DroppedLinksCount m =? 0)) (fInt 14 (Span_DroppedLinksCount m)) ++
  fRepeated (fun x => fLen 13 (wire x)) (Span_Links m) ++
  fWhen (negb (Span_DroppedEventsCount m =? 0)) (fInt 12 (Span_DroppedEventsCount m)) ++
  fRepeated (fun x => fLen 11 (wire x)) (Span_Events m) ++
  fWhen (negb (Span_DroppedAttributesCount m =? 0)) (fInt 10 (Span_DroppedAttributesCount m)) ++
  fRepeated (fun x => fLen 9 (wire x)) (Span_Attributes m) ++
  fWhen (negb (Span_EndTimeUnixNano m =? 0)) (fI64 8 (Span_EndTimeUnixNano m)) ++
  fWhen (negb (Span_StartTimeUnixNano m =? 0)) (fI64 7 (Span_StartTimeUnixNano m)) ++
  fWhen (negb (Span_Kind m =? 0)) (fInt 6 (Span_Kind m)) ++
  fWhen (0 <? len (Span_Name m)) (fLen 5 (Span_Name m)) ++
  fWhen (negb (Span_Flags m =? 0)) (fI32 16 (Span_Flags m)) ++
  fLen 4 (wire (Span_ParentSpanId m)) ++
  fWhen (0 <? len (Span_TraceState m)) (fLen 3 (Span_TraceState m)) ++
  fLen 2 (wire (Span_SpanId m)) ++
  fLen 1 (wire (Span_TraceId m)).

Definition Span_ok (strict : bool) (m : Span) : Prop :=
  bytes (Span_TraceState m) /\
  bytes (Span_Name m) /\
  Forall (wellFormed strict) (Span_Attributes m) /\
  Forall (wellFormed strict) (Span_Events m) /\
  Forall (wellFormed strict) (Span_Links m) /\
  wellFormed strict (Span_Status m) /\
  is_u64 (Span_StartTimeUnixNano m) /\
  is_u64 (Span_EndTimeUnixNano m) /\
  is_u32 (Span_Flags m) /\
  is_i32 (Span_Kind m) /\
  is_u32 (Span_DroppedAttributesCount m) /\
  is_u32 (Span_DroppedEventsCount m) /\
  is_u32 (Span_DroppedLinksCount m) /\
  wellFormed strict (Span_TraceId m) /\
  wellFormed strict (Span_SpanId m) /\
  wellFormed strict (Span_ParentSpanId m).

#[export] Instance Span_codec : Codec Span :=
  { zero := Span_zero;
    SizeProto := Span_SizeProto;
    MarshalProto := Span_MarshalProto;
    UnmarshalProto := unmarshalFields Span_step;
    wire := Span_wire;
    wellFormed := Span_ok }.

Lemma Span_enc strict m :
  Span_ok strict m -> Encodes (Span_MarshalProto m) (Span_SizeProto m) (Span_wire m).
Proof. enc_message strict Span_ok. Qed.

Lemma Span_rd m :
  Span_ok true m -> Rd Span_step (Span_wire m) Span_zero m.
Proof.
  rd_message m Span_ok Span_wire.
  rd_msg 15 "Status" Span_Status.
  rd_int u32 u32_u64 14 "DroppedLinksCount" Span_DroppedLinksCount.
  rd_msgs 13 "Links" Span_Links.
  rd_int u32 u32_u64 12 "DroppedEventsCount" Span_DroppedEventsCount.
  rd_msgs 11 "Events" Span_Events.
  rd_int u32 u32_u64 10 "DroppedAttributesCount" Span_DroppedAttributesCount.
  rd_msgs 9 "Attributes" Span_Attributes.
  rd_i64 8 "EndTimeUnixNano" Span_EndTimeUnixNano.
  rd_i64 7 "StartTimeUnixNano" Span_StartTimeUnixNano.
  rd_int i32 i32_u64 6 "Kind" Span_Kind.
  rd_string 5 "Name" Span_Name.
  rd_i32 16 "Flags" Span_Flags.
  rd_msg 4 "ParentSpanId" Span_ParentSpanId.
  rd_string 3 "TraceState" Span_TraceState.
  rd_msg 2 "SpanId" Span_SpanId.
  rd_msg 1 "TraceId" Span_TraceId.
Qed.

Lemma Span_safe : SafeStep Span_step (Span_ok false).
Proof. safe_message Span_step Span_ok. Qed.

#[export] Instance Span_laws : CodecLaws Span.
Proof.
  apply (fields_laws Span_step); [done| | | |].
  - apply Span_enc.
  - apply Span_rd.
  - apply Span_safe.
  - zero_ok Span_ok.
Qed.

(** ** ScopeSpans *)
Record ScopeSpans := mkScopeSpans {
  ScopeSpans_SchemaUrl : list Z;
  ScopeSpans_Spans : list Span;
  ScopeSpans_Scope : InstrumentationScope;
}.

Definition ScopeSpans_zero : ScopeSpans :=
  mkScopeSpans [] [] zero.

#[export] Instance ScopeSpans_settable : Settable ScopeSpans :=
  settable! mkScopeSpans <ScopeSpans_SchemaUrl; ScopeSpans_Spans; ScopeSpans_Scope>.

Definition ScopeSpans_SizeProto (m : ScopeSpans) : Z :=
  sizeLen 1 (SizeProto (ScopeSpans_Scope m)) +
  sizeRepeated (fun x => sizeLen 1 (SizeProto x)) (ScopeSpans_Spans m) +
  (if 0 <? len (ScopeSpans_SchemaUrl m) then sizeLen 1 (len (ScopeSpans_SchemaUrl m)) else 0).

Definition ScopeSpans_MarshalProto (m : ScopeSpans) : list Z -> res (Z * list Z) :=
  runW (
    wMsg (wByte 0xa) (MarshalProto (ScopeSpans_Scope m)) >;>
    wRepeated (fun x => wMsg (wByte 0x12) (MarshalProto x)) (ScopeSpans_Spans m) >;>
    wWhen (0 <? len (ScopeSpans_SchemaUrl m)) (wLen (wByte 0x1a) (ScopeSpans_SchemaUrl m))).

Definition ScopeSpans_step (fieldNum wireType : Z) (buf : list Z) (pos : Z) (m : ScopeSpans) :
  res (ScopeSpans * Z) :=
  match fieldNum with
  | 1 => let* (b, pos) := readLen "Scope" wireType buf pos in
      let* v := UnmarshalProto b (ScopeSpans_Scope m) in
      Ok (m <| ScopeSpans_Scope := v |>, pos)
  | 2 => let* (b, pos) := readLen "Spans" wireType buf pos in
      let* v := UnmarshalProto b zero in
      Ok (m <| ScopeSpans_Spans := ScopeSpans_Spans m ++ [v] |>, pos)
  | 3 => let* (b, pos) := readLen "SchemaUrl" wireType buf pos in
      Ok (m <| ScopeSpans_SchemaUrl := b |>, pos)
  | _ => skipField wireType buf pos m
  end.

Definition ScopeSpans_wire (m : ScopeSpans) : list Z :=
  fWhen (0 <? len (ScopeSpans_SchemaUrl m)) (fLen 3 (ScopeSpans_SchemaUrl m)) ++
  fRepeated (fun x => fLen 2 (wire x)) (ScopeSpans_Spans m) ++
  fLen 1 (wire (ScopeSpans_Scope m)).

Definition ScopeSpans_ok (strict : bool) (m : ScopeSpans) : Prop :=
  bytes (ScopeSpans_SchemaUrl m) /\
  Forall (wellFormed strict) (ScopeSpans_Spans m) /\
  wellFormed strict (ScopeSpans_Scope m).

#[export] Instance ScopeSpans_codec : Codec ScopeSpans :=
  { zero := ScopeSpans_zero;
    SizeProto := ScopeSpans_SizeProto;
    MarshalProto := ScopeSpans_MarshalProto;
    UnmarshalProto := unmarshalFields ScopeSpans_step;
    wire := ScopeSpans_wire;
    wellFormed := ScopeSpans_ok }.

Lemma ScopeSpans_enc strict m :
  ScopeSpans_ok strict m -> Encodes (ScopeSpans_MarshalProto m) (ScopeSpans_SizeProto m) (ScopeSpans_wire m).
Proof. enc_message strict ScopeSpans_ok. Qed.

Lemma ScopeSpans_rd m :
  ScopeSpans_ok true m -> Rd ScopeSpans_step (ScopeSpans_wire m) ScopeSpans_zero m.
Proof.
  rd_message m ScopeSpans_ok ScopeSpans_wire.
  rd_string 3 "SchemaUrl" ScopeSpans_SchemaUrl.
  rd_msgs 2 "Spans" ScopeSpans_Spans.
  rd_msg 1 "Scope" ScopeSpans_Scope.
Qed.

Lemma ScopeSpans_safe : SafeStep ScopeSpans_step (ScopeSpans_ok false).
Proof. safe_message ScopeSpans_step ScopeSpans_ok. Qed.

#[export] Instance ScopeSpans_laws : CodecLaws ScopeSpans.
Proof.
  apply (fields_laws ScopeSpans_step); [done| | | |].
  - apply ScopeSpans_enc.
  - apply ScopeSpans_rd.
  - apply ScopeSpans_safe.
  - zero_ok ScopeSpans_ok.
Qed.

(** ** ResourceSpans *)
Record ResourceSpans := mkResourceSpans {
  ResourceSpans_Resource : Resource;
  ResourceSpans_ScopeSpans : list ScopeSpans;
  ResourceSpans_SchemaUrl : list Z;
  ResourceSpans_DeprecatedScopeSpans : list ScopeSpans;
}.

Definition ResourceSpans_zero : ResourceSpans :=
  mkResourceSpans zero [] [] [].

#[export] Instance ResourceSpans_settable : Settable ResourceSpans :=
  settable! mkResourceSpans <ResourceSpans_Resource; ResourceSpans_ScopeSpans; ResourceSpans_SchemaUrl;
    ResourceSpans_DeprecatedScopeSpans>.

Definition ResourceSpans_SizeProto (m : ResourceSpans) : Z :=
  sizeLen 1 (SizeProto (ResourceSpans_Resource m)) +
  sizeRepeated (fun x => sizeLen 1 (SizeProto x)) (ResourceSpans_ScopeSpans m) +
  (if 0 <? len (ResourceSpans_SchemaUrl m) then sizeLen 1 (len (ResourceSpans_SchemaUrl m)) else 0) +
  sizeRepeated (fun x => sizeLen 2 (SizeProto x)) (ResourceSpans_DeprecatedScopeSpans m).

Definition ResourceSpans_MarshalProto (m : ResourceSpans) : list Z -> res (Z * list Z) :=
  runW (
    wMsg (wByte 0xa) (MarshalProto (ResourceSpans_Resource m)) >;>
    wRepeated (fun x => wMsg (wByte 0x12) (MarshalProto x)) (ResourceSpans_ScopeSpans m) >;>
    wWhen (0 <? len (ResourceSpans_SchemaUrl m)) (wLen (wByte 0x1a) (ResourceSpans_SchemaUrl m)) >;>
    wRepeated (fun x => wMsg (wByte 0x3e >;> wByte 0xc2) (MarshalProto x)) (ResourceSpans_DeprecatedScopeSpans m)).

Definition ResourceSpans_step (fieldNum wireType : Z) (buf : list Z) (pos : Z) (m : ResourceSpans) :
  res (ResourceSpans * Z) :=
  match fieldNum with
  | 1 => let* (b, pos) := readLen "Resource" wireType buf pos in
      let* v := UnmarshalProto b (ResourceSpans_Resource m) in
      Ok (m <| ResourceSpans_Resource := v |>, pos)
  | 2 => let* (b, pos) := readLen "ScopeSpans" wireType buf pos in
      let* v := UnmarshalProto b zero in
      Ok (m <| ResourceSpans_ScopeSpans := ResourceSpans_ScopeSpans m ++ [v] |>, pos)
  | 3 => let* (b, pos) := readLen "SchemaUrl" wireType buf pos in
      Ok (m <| ResourceSpans_SchemaUrl := b |>, pos)
  | 1000 => let* (b, pos) := readLen "DeprecatedScopeSpans" wireType buf pos in
      let* v := UnmarshalProto b zero in
      Ok (m <| ResourceSpans_DeprecatedScopeSpans := ResourceSpans_DeprecatedScopeSpans m ++ [v] |>, pos)
  | _ => skipField wireType buf pos m
  end.

Definition ResourceSpans_wire (m : ResourceSpans) : list Z :=
  fRepeated (fun x => fLen 1000 (wire x)) (ResourceSpans_DeprecatedScopeSpans m) ++
  fWhen (0 <? len (ResourceSpans_SchemaUrl m)) (fLen 3 (ResourceSpans_SchemaUrl m)) ++
  fRepeated (fun x => fLen 2 (wire x)) (ResourceSpans_ScopeSpans m) ++
  fLen 1 (wire (ResourceSpans_Resource m)).

Definition ResourceSpans_ok (strict : bool) (m : ResourceSpans) : Prop :=
  wellFormed strict (ResourceSpans_Resource m) /\
  Forall (wellFormed strict) (ResourceSpans_ScopeSpans m) /\
  bytes (ResourceSpans_SchemaUrl m) /\
  Forall (wellFormed strict) (ResourceSpans_DeprecatedScopeSpans m).

#[export] Instance ResourceSpans_codec : Codec ResourceSpans :=
  { zero := ResourceSpans_zero;
    SizeProto := ResourceSpans_SizeProto;
    MarshalProto := ResourceSpans_MarshalProto;
    UnmarshalProto := unmarshalFields ResourceSpans_step;
    wire := ResourceSpans_wire;
    wellFormed := ResourceSpans_ok }.

Lemma ResourceSpans_enc strict m :
  ResourceSpans_ok strict m -> Encodes (ResourceSpans_MarshalProto m) (ResourceSpans_SizeProto m)
    (ResourceSpans_wire m).
Proof. enc_message strict ResourceSpans_ok. Qed.

Lemma ResourceSpans_rd m :
  ResourceSpans_ok true m -> Rd ResourceSpans_step (ResourceSpans_wire m) ResourceSpans_zero m.
Proof.
  rd_message m ResourceSpans_ok ResourceSpans_wire.
  rd_msgs 1000 "DeprecatedScopeSpans" ResourceSpans_DeprecatedScopeSpans.
  rd_string 3 "SchemaUrl" ResourceSpans_SchemaUrl.
  rd_msgs 2 "ScopeSpans" ResourceSpans_ScopeSpans.
  rd_msg 1 "Resource" ResourceSpans_Resource.
Qed.

Lemma ResourceSpans_safe : SafeStep ResourceSpans_step (ResourceSpans_ok false).
Proof. safe_message ResourceSpans_step ResourceSpans_ok. Qed.

#[export] Instance ResourceSpans_laws : CodecLaws ResourceSpans.
Proof.
  apply (fields_laws ResourceSpans_step); [done| | | |].
  - apply ResourceSpans_enc.
  - apply ResourceSpans_rd.
  - apply ResourceSpans_safe.
  - zero_ok ResourceSpans_ok.
Qed.

(** ** ExportTraceServiceRequest *)
Record ExportTraceServiceRequest := mkExportTraceServiceRequest {
  ExportTraceServiceRequest_ResourceSpans : list ResourceSpans;
}.

Definition ExportTraceServiceRequest_zero : ExportTraceServiceRequest :=
  mkExportTraceServiceRequest [].

#[export] Instance ExportTraceServiceRequest_settable : Settable ExportTraceServiceRequest :=
  settable! mkExportTraceServiceRequest <ExportTraceServiceRequest_ResourceSpans>.

Definition ExportTraceServiceRequest_SizeProto (m : ExportTraceServiceRequest) : Z :=
  sizeRepeated (fun x => sizeLen 1 (SizeProto x)) (ExportTraceServiceRequest_ResourceSpans m).

Definition ExportTraceServiceRequest_MarshalProto (m : ExportTraceServiceRequest) : list Z -> res (Z * list Z) :=
  runW (
    wRepeated (fun x => wMsg (wByte 0xa) (MarshalProto x)) (ExportTraceServiceRequest_ResourceSpans m)).

Definition ExportTraceServiceRequest_step (fieldNum wireType : Z) (buf : list Z) (pos : Z) (m :
  ExportTraceServiceRequest) :
  res (ExportTraceServiceRequest * Z) :=
  match fieldNum with
  | 1 => let* (b, pos) := readLen "ResourceSpans" wireType buf pos in
      let* v := UnmarshalProto b zero in
      Ok (m <| ExportTraceServiceRequest_ResourceSpans := ExportTraceServiceRequest_ResourceSpans m ++ [v] |>, pos)
  | _ => skipField wireType buf pos m
  end.

Definition ExportTraceServiceRequest_wire (m : ExportTraceServiceRequest) : list Z :=
  fRepeated (fun x => fLen 1 (wire x)) (ExportTraceServiceRequest_ResourceSpans m).

Definition ExportTraceServiceRequest_ok (strict : bool) (m : ExportTraceServiceRequest) : Prop :=
  Forall (wellFormed strict) (ExportTraceServiceRequest_ResourceSpans m).

#[export] Instance ExportTraceServiceRequest_codec : Codec ExportTraceServiceRequest :=
  { zero := ExportTraceServiceRequest_zero;
    SizeProto := ExportTraceServiceRequest_SizeProto;
    MarshalProto := ExportTraceServiceRequest_MarshalProto;
    UnmarshalProto := unmarshalFields ExportTraceServiceRequest_step;
    wire := ExportTraceServiceRequest_wire;
    wellFormed := ExportTraceServiceRequest_ok }.

Lemma ExportTraceServiceRequest_enc strict m :
  ExportTraceServiceRequest_ok strict m -> Encodes (ExportTraceServiceRequest_MarshalProto m)
    (ExportTraceServiceRequest_SizeProto m) (ExportTraceServiceRequest_wire m).
Proof. enc_message strict ExportTraceServiceRequest_ok. Qed.

Lemma ExportTraceServiceRequest_rd m :
  ExportTraceServiceRequest_ok true m -> Rd ExportTraceServiceRequest_step (ExportTraceServiceRequest_wire m)
    ExportTraceServiceRequest_zero m.
Proof.
  rd_message m ExportTraceServiceRequest_ok ExportTraceServiceRequest_wire.
  rd_msgs 1 "ResourceSpans" ExportTraceServiceRequest_ResourceSpans.
Qed.

Lemma ExportTraceServiceRequest_safe : SafeStep ExportTraceServiceRequest_step (ExportTraceServiceRequest_ok false).
Proof. safe_message ExportTraceServiceRequest_step ExportTraceServiceRequest_ok. Qed.

#[export] Instance ExportTraceServiceRequest_laws : CodecLaws ExportTraceServiceRequest.
Proof.
  apply (fields_laws ExportTraceServiceRequest_step); [done| | | |].
  - apply ExportTraceServiceRequest_enc.
  - apply ExportTraceServiceRequest_rd.
  - apply ExportTraceServiceRequest_safe.
  - zero_ok ExportTraceServiceRequest_ok.
Qed.
