(* ===== verification/ProtoMetrics.v ===== *)
(** * Metric messages on the wire

    From an [Exemplar] to the export request, as in ProtoResource; the alternatives
    of a oneof are an inductive type, and the presence of an optional field is a bit
    of [metadata]. *)

From S2P Require Import Prelude RecordUpdate Errors Sizers ProtoWire ProtoWireProofs ProtoFields ProtoCommon ProtoCommonProofs ProtoMessage ProtoKinds ProtoIds ProtoResource.
Local Open Scope Z_scope.
Local Open Scope otel_scope.

#[local] Opaque RecursionLimit.

(** ** Exemplar *)
Inductive Exemplar_oneofValue :=
  | Exemplar_noValue
  | Exemplar_AsDouble (AsDouble : Z)
  | Exemplar_AsInt (AsInt : Z).

Record Exemplar := mkExemplar {
  Exemplar_Value : Exemplar_oneofValue;
  Exemplar_FilteredAttributes : list KeyValue;
  Exemplar_TimeUnixNano : Z;
  Exemplar_TraceId : TraceID;
  Exemplar_SpanId : SpanID;
}.

Definition Exemplar_zero : Exemplar :=
  mkExemplar Exemplar_noValue [] 0 zero zero.

#[export] Instance Exemplar_settable : Settable Exemplar :=
  settable! mkExemplar <Exemplar_Value; Exemplar_FilteredAttributes; Exemplar_TimeUnixNano; Exemplar_TraceId;
    Exemplar_SpanId>.

Definition Exemplar_Value_SizeProto (v : Exemplar_oneofValue) : Z :=
  match v with
  | Exemplar_noValue => 0
  | Exemplar_AsDouble x => 9
  | Exemplar_AsInt x => 9
  end.
Definition Exemplar_Value_fields (v : Exemplar_oneofValue) : W :=
  match v with
  | Exemplar_noValue => wSkip
  | Exemplar_AsDouble x => wI64 (wByte 0x19) x
  | Exemplar_AsInt x => wI64 (wByte 0x31) (u64 x)
  end.
Definition Exemplar_Value_wire (v : Exemplar_oneofValue) : list Z :=
  match v with
  | Exemplar_noValue => []
  | Exemplar_AsDouble x => fI64 3 x
  | Exemplar_AsInt x => fI64 6 (u64 x)
  end.
Definition Exemplar_Value_ok (strict : bool) (v : Exemplar_oneofValue) : Prop :=
  match v with
  | Exemplar_noValue => True
  | Exemplar_AsDouble x => is_u64 x
  | Exemplar_AsInt x => is_i64 x
  end.

Definition Exemplar_SizeProto (m : Exemplar) : Z :=
  sizeRepeated (fun x => sizeLen 1 (SizeProto x)) (Exemplar_FilteredAttributes m) +
  (if negb (Exemplar_TimeUnixNano m =? 0) then 9 else 0) +
  Exemplar_Value_SizeProto (Exemplar_Value m) +
  sizeLen 1 (SizeProto (Exemplar_TraceId m)) +
  sizeLen 1 (SizeProto (Exemplar_SpanId m)).

Definition Exemplar_MarshalProto (m : Exemplar) : list Z -> res (Z * list Z) :=
  runW (
    wRepeated (fun x => wMsg (wByte 0x3a) (MarshalProto x)) (Exemplar_FilteredAttributes m) >;>
    wWhen (negb (Exemplar_TimeUnixNano m =? 0)) (wI64 (wByte 0x11) (Exemplar_TimeUnixNano m)) >;>
    Exemplar_Value_fields (Exemplar_Value m) >;>
    wMsg (wByte 0x2a) (MarshalProto (Exemplar_TraceId m)) >;>
    wMsg (wByte 0x22) (MarshalProto (Exemplar_SpanId m))).

Definition Exemplar_step (fieldNum wireType : Z) (buf : list Z) (pos : Z) (m : Exemplar) :
  res (Exemplar * Z) :=
  match fieldNum with
  | 7 => let* (b, pos) := readLen "FilteredAttributes" wireType buf pos in
      let* v := UnmarshalProto b zero in
      Ok (m <| Exemplar_FilteredAttributes := Exemplar_FilteredAttributes m ++ [v] |>, pos)
  | 2 => let* (num, pos) := readI64 "TimeUnixNano" wireType buf pos in
      Ok (m <| Exemplar_TimeUnixNano := num |>, pos)
  | 3 => let* (num, pos) := readI64 "AsDouble" wireType buf pos in
      Ok (m <| Exemplar_Value := Exemplar_AsDouble num |>, pos)
  | 6 => let* (num, pos) := readI64 "AsInt" wireType buf pos in
      Ok (m <| Exemplar_Value := Exemplar_AsInt (i64 num) |>, pos)
  | 5 => let* (b, pos) := readLen "TraceId" wireType buf pos in
      let* v := UnmarshalProto b (Exemplar_TraceId m) in
      Ok (m <| Exemplar_TraceId := v |>, pos)
  | 4 => let* (b, pos) := readLen "SpanId" wireType buf pos in
      let* v := UnmarshalProto b (Exemplar_SpanId m) in
      Ok (m <| Exemplar_SpanId := v |>, pos)
  | _ => skipField wireType buf pos m
  end.

Definition Exemplar_wire (m : Exemplar) : list Z :=
  fLen 4 (wire (Exemplar_SpanId m)) ++
  fLen 5 (wire (Exemplar_TraceId m)) ++
  Exemplar_Value_wire (Exemplar_Value m) ++
  fWhen (negb (Exemplar_TimeUnixNano m =? 0)) (fI64 2 (Exemplar_TimeUnixNano m)) ++
  fRepeated (fun x => fLen 7 (wire x)) (Exemplar_FilteredAttributes m).

Definition Exemplar_ok (strict : bool) (m : Exemplar) : Prop :=
  Exemplar_Value_ok strict (Exemplar_Value m) /\
  Forall (wellFormed strict) (Exemplar_FilteredAttributes m) /\
  is_u64 (Exemplar_TimeUnixNano m) /\
  wellFormed strict (Exemplar_TraceId m) /\
  wellFormed strict (Exemplar_SpanId m).

#[export] Instance Exemplar_codec : Codec Exemplar :=
  { zero := Exemplar_zero;
    SizeProto := Exemplar_SizeProto;
    MarshalProto := Exemplar_MarshalProto;
    UnmarshalProto := unmarshalFields Exemplar_step;
    wire := Exemplar_wire;
    wellFormed := Exemplar_ok }.

Lemma Exemplar_Value_enc strict v :
  Exemplar_Value_ok strict v -> Enc (Exemplar_Value_fields v) (Exemplar_Value_SizeProto v) (Exemplar_Value_wire v).
Proof.
  destruct v; cbn; intros Hv; [apply Enc_skip|..]; try (apply ptrSet_ok in Hv); enc_field strict.
Qed.
#[local] Hint Resolve Exemplar_Value_enc : oneofs.

Lemma Exemplar_Value_rd m v :
  Exemplar_Value_ok true v -> Exemplar_Value m = Exemplar_noValue -> Rd Exemplar_step (Exemplar_Value_wire v) m (m
    <| Exemplar_Value := v |>).
Proof.
  intros Hv Hm. destruct v; cbn in Hv.
  - destruct m. cbn in Hm. subst. apply Rd_nil.
  - apply (Rd_one64 _ 3 "AsDouble" ltac:(lia) (fun v => m <| Exemplar_Value := Exemplar_AsDouble v |>));
    [reflexivity|done].
  - rd_sfixed 6 "AsInt" (fun v => m <| Exemplar_Value := Exemplar_AsInt v |>) Hv.
Qed.

Lemma Exemplar_enc strict m :
  Exemplar_ok strict m -> Encodes (Exemplar_MarshalProto m) (Exemplar_SizeProto m) (Exemplar_wire m).
Proof. enc_message strict Exemplar_ok. Qed.

Lemma Exemplar_rd m :
  Exemplar_ok true m -> Rd Exemplar_step (Exemplar_wire m) Exemplar_zero m.
Proof.
  rd_message m Exemplar_ok Exemplar_wire.
  rd_msg 4 "SpanId" Exemplar_SpanId.
  rd_msg 5 "TraceId" Exemplar_TraceId.
  rd_oneof Exemplar_Value_rd Exemplar_Value.
  rd_i64 2 "TimeUnixNano" Exemplar_TimeUnixNano.
  rd_msgs 7 "FilteredAttributes" Exemplar_FilteredAttributes.
Qed.

Lemma Exemplar_safe : SafeStep Exemplar_step (Exemplar_ok false).
Proof. safe_message Exemplar_step Exemplar_ok. Qed.

#[export] Instance Exemplar_laws : CodecLaws Exemplar.
Proof.
  apply (fields_laws Exemplar_step); [done| | | |].
  - apply Exemplar_enc.
  - apply Exemplar_rd.
  - apply Exemplar_safe.
  - zero_ok Exemplar_ok.
Qed.

(** ** NumberDataPoint *)
Inductive NumberDataPoint_oneofValue :=
  | NumberDataPoint_noValue
  | NumberDataPoint_AsDouble (AsDouble : Z)
  | NumberDataPoint_AsInt (AsInt : Z).

Record NumberDataPoint := mkNumberDataPoint {
  NumberDataPoint_Value : NumberDataPoint_oneofValue;
  NumberDataPoint_Attributes : list KeyValue;
  NumberDataPoint_Exemplars : list Exemplar;
  NumberDataPoint_StartTimeUnixNano : Z;
  NumberDataPoint_TimeUnixNano : Z;
  NumberDataPoint_Flags : Z;
}.

Definition NumberDataPoint_zero : NumberDataPoint :=
  mkNumberDataPoint NumberDataPoint_noValue [] [] 0 0 0.

#[export] Instance NumberDataPoint_settable : Settable NumberDataPoint :=
  settable! mkNumberDataPoint <NumberDataPoint_Value; NumberDataPoint_Attributes; NumberDataPoint_Exemplars;
    NumberDataPoint_StartTimeUnixNano; NumberDataPoint_TimeUnixNano; NumberDataPoint_Flags>.

Definition NumberDataPoint_Value_SizeProto (v : NumberDataPoint_oneofValue) : Z :=
  match v with
  | NumberDataPoint_noValue => 0
  | NumberDataPoint_AsDouble x => 9
  | NumberDataPoint_AsInt x => 9
  end.
Definition NumberDataPoint_Value_fields (v : NumberDataPoint_oneofValue) : W :=
  match v with
  | NumberDataPoint_noValue => wSkip
  | NumberDataPoint_AsDouble x => wI64 (wByte 0x21) x
  | NumberDataPoint_AsInt x => wI64 (wByte 0x31) (u64 x)
  end.
Definition NumberDataPoint_Value_wire (v : NumberDataPoint_oneofValue) : list Z :=
  match v with
  | NumberDataPoint_noValue => []
  | NumberDataPoint_AsDouble x => fI64 4 x
  | NumberDataPoint_AsInt x => fI64 6 (u64 x)
  end.
Definition NumberDataPoint_Value_ok (strict : bool) (v : NumberDataPoint_oneofValue) : Prop :=
  match v with
  | NumberDataPoint_noValue => True
  | NumberDataPoint_AsDouble x => is_u64 x
  | NumberDataPoint_AsInt x => is_i64 x
  end.

Definition NumberDataPoint_SizeProto (m : NumberDataPoint) : Z :=
  sizeRepeated (fun x => sizeLen 1 (SizeProto x)) (NumberDataPoint_Attributes m) +
  (if negb (NumberDataPoint_StartTimeUnixNano m =? 0) then 9 else 0) +
  (if negb (NumberDataPoint_TimeUnixNano m =? 0) then 9 else 0) +
  NumberDataPoint_Value_SizeProto (NumberDataPoint_Value m) +
  sizeRepeated (fun x => sizeLen 1 (SizeProto x)) (NumberDataPoint_Exemplars m) +
  (if negb (NumberDataPoint_Flags m =? 0) then 1 + sov (u64 (NumberDataPoint_Flags m)) else 0).

Definition NumberDataPoint_MarshalProto (m : NumberDataPoint) : list Z -> res (Z * list Z) :=
  runW (
    wRepeated (fun x => wMsg (wByte 0x3a) (MarshalProto x)) (NumberDataPoint_Attributes m) >;>
    wWhen (negb (NumberDataPoint_StartTimeUnixNano m =? 0)) (wI64 (wByte 0x11) (NumberDataPoint_StartTimeUnixNano
      m)) >;>
    wWhen (negb (NumberDataPoint_TimeUnixNano m =? 0)) (wI64 (wByte 0x19) (NumberDataPoint_TimeUnixNano m)) >;>
    NumberDataPoint_Value_fields (NumberDataPoint_Value m) >;>
    wRepeated (fun x => wMsg (wByte 0x2a) (MarshalProto x)) (NumberDataPoint_Exemplars m) >;>
    wWhen (negb (NumberDataPoint_Flags m =? 0)) (wInt (wByte 0x40) (NumberDataPoint_Flags m))).

Definition NumberDataPoint_step (fieldNum wireType : Z) (buf : list Z) (pos : Z) (m : NumberDataPoint) :
  res (NumberDataPoint * Z) :=
  match fieldNum with
  | 7 => let* (b, pos) := readLen "Attributes" wireType buf pos in
      let* v := UnmarshalProto b zero in
      Ok (m <| NumberDataPoint_Attributes := NumberDataPoint_Attributes m ++ [v] |>, pos)
  | 2 => let* (num, pos) := readI64 "StartTimeUnixNano" wireType buf pos in
      Ok (m <| NumberDataPoint_StartTimeUnixNano := num |>, pos)
  | 3 => let* (num, pos) := readI64 "TimeUnixNano" wireType buf pos in
      Ok (m <| NumberDataPoint_TimeUnixNano := num |>, pos)
  | 4 => let* (num, pos) := readI64 "AsDouble" wireType buf pos in
      Ok (m <| NumberDataPoint_Value := NumberDataPoint_AsDouble num |>, pos)
  | 6 => let* (num, pos) := readI64 "AsInt" wireType buf pos in
      Ok (m <| NumberDataPoint_Value := NumberDataPoint_AsInt (i64 num) |>, pos)
  | 5 => let* (b, pos) := readLen "Exemplars" wireType buf pos in
      let* v := UnmarshalProto b zero in
      Ok (m <| NumberDataPoint_Exemplars := NumberDataPoint_Exemplars m ++ [v] |>, pos)
  | 8 => let* (num, pos) := readVarint "Flags" wireType buf pos in
      Ok (m <| NumberDataPoint_Flags := u32 num |>, pos)
  | _ => skipField wireType buf pos m
  end.

Definition NumberDataPoint_wire (m : NumberDataPoint) : list Z :=
  fWhen (negb (NumberDataPoint_Flags m =? 0)) (fInt 8 (NumberDataPoint_Flags m)) ++
  fRepeated (fun x => fLen 5 (wire x)) (NumberDataPoint_Exemplars m) ++
  NumberDataPoint_Value_wire (NumberDataPoint_Value m) ++
  fWhen (negb (NumberDataPoint_TimeUnixNano m =? 0)) (fI64 3 (NumberDataPoint_TimeUnixNano m)) ++
  fWhen (negb (NumberDataPoint_StartTimeUnixNano m =? 0)) (fI64 2 (NumberDataPoint_StartTimeUnixNano m)) ++
  fRepeated (fun x => fLen 7 (wire x)) (NumberDataPoint_Attributes m).

Definition NumberDataPoint_ok (strict : bool) (m : NumberDataPoint) : Prop :=
  NumberDataPoint_Value_ok strict (NumberDataPoint_Value m) /\
  Forall (wellFormed strict) (NumberDataPoint_Attributes m) /\
  Forall (wellFormed strict) (NumberDataPoint_Exemplars m) /\
  is_u64 (NumberDataPoint_StartTimeUnixNano m) /\
  is_u64 (NumberDataPoint_TimeUnixNano m) /\
  is_u32 (NumberDataPoint_Flags m).

#[export] Instance NumberDataPoint_codec : Codec NumberDataPoint :=
  { zero := NumberDataPoint_zero;
    SizeProto := NumberDataPoint_SizeProto;
    MarshalProto := NumberDataPoint_MarshalProto;
    UnmarshalProto := unmarshalFields NumberDataPoint_step;
    wire := NumberDataPoint_wire;
    wellFormed := NumberDataPoint_ok }.

Lemma NumberDataPoint_Value_enc strict v :
  NumberDataPoint_Value_ok strict v -> Enc (NumberDataPoint_Value_fields v) (NumberDataPoint_Value_SizeProto v)
    (NumberDataPoint_Value_wire v).
Proof.
  destruct v; cbn; intros Hv; [apply Enc_skip|..]; try (apply ptrSet_ok in Hv); enc_field strict.
Qed.
#[local] Hint Resolve NumberDataPoint_Value_enc : oneofs.

Lemma NumberDataPoint_Value_rd m v :
  NumberDataPoint_Value_ok true v -> NumberDataPoint_Value m = NumberDataPoint_noValue -> Rd NumberDataPoint_step
    (NumberDataPoint_Value_wire v) m (m <| NumberDataPoint_Value := v |>).
Proof.
  intros Hv Hm. destruct v; cbn in Hv.
  - destruct m. cbn in Hm. subst. apply Rd_nil.
  - apply (Rd_one64 _ 4 "AsDouble" ltac:(lia) (fun v => m <| NumberDataPoint_Value := NumberDataPoint_AsDouble v
    |>)); [reflexivity|done].
  - rd_sfixed 6 "AsInt" (fun v => m <| NumberDataPoint_Value := NumberDataPoint_AsInt v |>) Hv.
Qed.

Lemma NumberDataPoint_enc strict m :
  NumberDataPoint_ok strict m -> Encodes (NumberDataPoint_MarshalProto m) (NumberDataPoint_SizeProto m)
    (NumberDataPoint_wire m).
Proof. enc_message strict NumberDataPoint_ok. Qed.

Lemma NumberDataPoint_rd m :
  NumberDataPoint_ok true m -> Rd NumberDataPoint_step (NumberDataPoint_wire m) NumberDataPoint_zero m.
Proof.
  rd_message m NumberDataPoint_ok NumberDataPoint_wire.
  rd_int u32 u32_u64 8 "Flags" NumberDataPoint_Flags.
  rd_msgs 5 "Exemplars" NumberDataPoint_Exemplars.
  rd_oneof NumberDataPoint_Value_rd NumberDataPoint_Value.
  rd_i64 3 "TimeUnixNano" NumberDataPoint_TimeUnixNano.
  rd_i64 2 "StartTimeUnixNano" NumberDataPoint_StartTimeUnixNano.
  rd_msgs 7 "Attributes" NumberDataPoint_Attributes.
Qed.

Lemma NumberDataPoint_safe : SafeStep NumberDataPoint_step (NumberDataPoint_ok false).
Proof. safe_message NumberDataPoint_step NumberDataPoint_ok. Qed.

#[export] Instance NumberDataPoint_laws : CodecLaws NumberDataPoint.
Proof.
  apply (fields_laws NumberDataPoint_step); [done| | | |].
  - apply NumberDataPoint_enc.
  - apply NumberDataPoint_rd.
  - apply NumberDataPoint_safe.
  - zero_ok NumberDataPoint_ok.
Qed.

(** ** SummaryDataPointValueAtQuantile *)
Record SummaryDataPointValueAtQuantile := mkSummaryDataPointValueAtQuantile {
  SummaryDataPointValueAtQuantile_Quantile : Z;
  SummaryDataPointValueAtQuantile_Value : Z;
}.

Definition SummaryDataPointValueAtQuantile_zero : SummaryDataPointValueAtQuantile :=
  mkSummaryDataPointValueAtQuantile 0 0.

#[export] Instance SummaryDataPointValueAtQuantile_settable : Settable SummaryDataPointValueAtQuantile :=
  settable! mkSummaryDataPointValueAtQuantile <SummaryDataPointValueAtQuantile_Quantile;
    SummaryDataPointValueAtQuantile_Value>.

Definition SummaryDataPointValueAtQuantile_SizeProto (m : SummaryDataPointValueAtQuantile) : Z :=
  (if isNonZero (SummaryDataPointValueAtQuantile_Quantile m) then 9 else 0) +
  (if isNonZero (SummaryDataPointValueAtQuantile_Value m) then 9 else 0).

Definition SummaryDataPointValueAtQuantile_MarshalProto (m : SummaryDataPointValueAtQuantile) : list Z -> res (Z *
  list Z) :=
  runW (
    wWhen (isNonZero (SummaryDataPointValueAtQuantile_Quantile m)) (wI64 (wByte 0x9)
      (SummaryDataPointValueAtQuantile_Quantile m)) >;>
    wWhen (isNonZero (SummaryDataPointValueAtQuantile_Value m)) (wI64 (wByte 0x11)
      (SummaryDataPointValueAtQuantile_Value m))).

Definition SummaryDataPointValueAtQuantile_step (fieldNum wireType : Z) (buf : list Z) (pos : Z) (m :
  SummaryDataPointValueAtQuantile) :
  res (SummaryDataPointValueAtQuantile * Z) :=
  match fieldNum with
  | 1 => let* (num, pos) := readI64 "Quantile" wireType buf pos in
      Ok (m <| SummaryDataPointValueAtQuantile_Quantile := num |>, pos)
  | 2 => let* (num, pos) := readI64 "Value" wireType buf pos in
      Ok (m <| SummaryDataPointValueAtQuantile_Value := num |>, pos)
  | _ => skipField wireType buf pos m
  end.

Definition SummaryDataPointValueAtQuantile_wire (m : SummaryDataPointValueAtQuantile) : list Z :=
  fWhen (isNonZero (SummaryDataPointValueAtQuantile_Value m)) (fI64 2 (SummaryDataPointValueAtQuantile_Value m)) ++
  fWhen (isNonZero (SummaryDataPointValueAtQuantile_Quantile m)) (fI64 1 (SummaryDataPointValueAtQuantile_Quantile
    m)).

Definition SummaryDataPointValueAtQuantile_ok (strict : bool) (m : SummaryDataPointValueAtQuantile) : Prop :=
  doubleOk strict (SummaryDataPointValueAtQuantile_Quantile m) /\
  doubleOk strict (SummaryDataPointValueAtQuantile_Value m).

#[export] Instance SummaryDataPointValueAtQuantile_codec : Codec SummaryDataPointValueAtQuantile :=
  { zero := SummaryDataPointValueAtQuantile_zero;
    SizeProto := SummaryDataPointValueAtQuantile_SizeProto;
    MarshalProto := SummaryDataPointValueAtQuantile_MarshalProto;
    UnmarshalProto := unmarshalFields SummaryDataPointValueAtQuantile_step;
    wire := SummaryDataPointValueAtQuantile_wire;
    wellFormed := SummaryDataPointValueAtQuantile_ok }.

Lemma SummaryDataPointValueAtQuantile_enc strict m :
  SummaryDataPointValueAtQuantile_ok strict m -> Encodes (SummaryDataPointValueAtQuantile_MarshalProto m)
    (SummaryDataPointValueAtQuantile_SizeProto m) (SummaryDataPointValueAtQuantile_wire m).
Proof. enc_message strict SummaryDataPointValueAtQuantile_ok. Qed.

Lemma SummaryDataPointValueAtQuantile_rd m :
  SummaryDataPointValueAtQuantile_ok true m -> Rd SummaryDataPointValueAtQuantile_step
    (SummaryDataPointValueAtQuantile_wire m) SummaryDataPointValueAtQuantile_zero m.
Proof.
  rd_message m SummaryDataPointValueAtQuantile_ok SummaryDataPointValueAtQuantile_wire.
  rd_double 2 "Value" SummaryDataPointValueAtQuantile_Value.
  rd_double 1 "Quantile" SummaryDataPointValueAtQuantile_Quantile.
Qed.

Lemma SummaryDataPointValueAtQuantile_safe : SafeStep SummaryDataPointValueAtQuantile_step
  (SummaryDataPointValueAtQuantile_ok false).
Proof. safe_message SummaryDataPointValueAtQuantile_step SummaryDataPointValueAtQuantile_ok. Qed.

#[export] Instance SummaryDataPointValueAtQuantile_laws : CodecLaws SummaryDataPointValueAtQuantile.
Proof.
  apply (fields_laws SummaryDataPointValueAtQuantile_step); [done| | | |].
  - apply SummaryDataPointValueAtQuantile_enc.
  - apply SummaryDataPointValueAtQuantile_rd.
  - apply SummaryDataPointValueAtQuantile_safe.
  - zero_ok SummaryDataPointValueAtQuantile_ok.
Qed.

(** ** SummaryDataPoint *)
Record SummaryDataPoint := mkSummaryDataPoint {
  SummaryDataPoint_Attributes : list KeyValue;
  SummaryDataPoint_QuantileValues : list SummaryDataPointValueAtQuantile;
  SummaryDataPoint_StartTimeUnixNano : Z;
  SummaryDataPoint_TimeUnixNano : Z;
  SummaryDataPoint_Count : Z;
  SummaryDataPoint_Sum : Z;
  SummaryDataPoint_Flags : Z;
}.

Definition SummaryDataPoint_zero : SummaryDataPoint :=
  mkSummaryDataPoint [] [] 0 0 0 0 0.

#[export] Instance SummaryDataPoint_settable : Settable SummaryDataPoint :=
  settable! mkSummaryDataPoint <SummaryDataPoint_Attributes; SummaryDataPoint_QuantileValues;
    SummaryDataPoint_StartTimeUnixNano; SummaryDataPoint_TimeUnixNano; SummaryDataPoint_Count; SummaryDataPoint_Sum;
    SummaryDataPoint_Flags>.

Definition SummaryDataPoint_SizeProto (m : SummaryDataPoint) : Z :=
  sizeRepeated (fun x => sizeLen 1 (SizeProto x)) (SummaryDataPoint_Attributes m) +
  (if negb (SummaryDataPoint_StartTimeUnixNano m =? 0) then 9 else 0) +
  (if negb (SummaryDataPoint_TimeUnixNano m =? 0) then 9 else 0) +
  (if negb (SummaryDataPoint_Count m =? 0) then 9 else 0) +
  (if isNonZero (SummaryDataPoint_Sum m) then 9 else 0) +
  sizeRepeated (fun x => sizeLen 1 (SizeProto x)) (SummaryDataPoint_QuantileValues m) +
  (if negb (SummaryDataPoint_Flags m =? 0) then 1 + sov (u64 (SummaryDataPoint_Flags m)) else 0).

Definition SummaryDataPoint_MarshalProto (m : SummaryDataPoint) : list Z -> res (Z * list Z) :=
  runW (
    wRepeated (fun x => wMsg (wByte 0x3a) (MarshalProto x)) (SummaryDataPoint_Attributes m) >;>
    wWhen (negb (SummaryDataPoint_StartTimeUnixNano m =? 0)) (wI64 (wByte 0x11) (SummaryDataPoint_StartTimeUnixNano
      m)) >;>
    wWhen (negb (SummaryDataPoint_TimeUnixNano m =? 0)) (wI64 (wByte 0x19) (SummaryDataPoint_TimeUnixNano m)) >;>
    wWhen (negb (SummaryDataPoint_Count m =? 0)) (wI64 (wByte 0x21) (SummaryDataPoint_Count m)) >;>
    wWhen (isNonZero (SummaryDataPoint_Sum m)) (wI64 (wByte 0x29) (SummaryDataPoint_Sum m)) >;>
    wRepeated (fun x => wMsg (wByte 0x32) (MarshalProto x)) (SummaryDataPoint_QuantileValues m) >;>
    wWhen (negb (SummaryDataPoint_Flags m =? 0)) (wInt (wByte 0x40) (SummaryDataPoint_Flags m))).

Definition SummaryDataPoint_step (fieldNum wireType : Z) (buf : list Z) (pos : Z) (m : SummaryDataPoint) :
  res (SummaryDataPoint * Z) :=
  match fieldNum with
  | 7 => let* (b, pos) := readLen "Attributes" wireType buf pos in
      let* v := UnmarshalProto b zero in
      Ok (m <| SummaryDataPoint_Attributes := SummaryDataPoint_Attributes m ++ [v] |>, pos)
  | 2 => let* (num, pos) := readI64 "StartTimeUnixNano" wireType buf pos in
      Ok (m <| SummaryDataPoint_StartTimeUnixNano := num |>, pos)
  | 3 => let* (num, pos) := readI64 "TimeUnixNano" wireType buf pos in
      Ok (m <| SummaryDataPoint_TimeUnixNano := num |>, pos)
  | 4 => let* (num, pos) := readI64 "Count" wireType buf pos in
      Ok (m <| SummaryDataPoint_Count := num |>, pos)
  | 5 => let* (num, pos) := readI64 "Sum" wireType buf pos in
      Ok (m <| SummaryDataPoint_Sum := num |>, pos)
  | 6 => let* (b, pos) := readLen "QuantileValues" wireType buf pos in
      let* v := UnmarshalProto b zero in
      Ok (m <| SummaryDataPoint_QuantileValues := SummaryDataPoint_QuantileValues m ++ [v] |>, pos)
  | 8 => let* (num, pos) := readVarint "Flags" wireType buf pos in
      Ok (m <| SummaryDataPoint_Flags := u32 num |>, pos)
  | _ => skipField wireType buf pos m
  end.

Definition SummaryDataPoint_wire (m : SummaryDataPoint) : list Z :=
  fWhen (negb (SummaryDataPoint_Flags m =? 0)) (fInt 8 (SummaryDataPoint_Flags m)) ++
  fRepeated (fun x => fLen 6 (wire x)) (SummaryDataPoint_QuantileValues m) ++
  fWhen (isNonZero (SummaryDataPoint_Sum m)) (fI64 5 (SummaryDataPoint_Sum m)) ++
  fWhen (negb (SummaryDataPoint_Count m =? 0)) (fI64 4 (SummaryDataPoint_Count m)) ++
  fWhen (negb (SummaryDataPoint_TimeUnixNano m =? 0)) (fI64 3 (SummaryDataPoint_TimeUnixNano m)) ++
  fWhen (negb (SummaryDataPoint_StartTimeUnixNano m =? 0)) (fI64 2 (SummaryDataPoint_StartTimeUnixNano m)) ++
  fRepeated (fun x => fLen 7 (wire x)) (SummaryDataPoint_Attributes m).

Definition SummaryDataPoint_ok (strict : bool) (m : SummaryDataPoint) : Prop :=
  Forall (wellFormed strict) (SummaryDataPoint_Attributes m) /\
  Forall (wellFormed strict) (SummaryDataPoint_QuantileValues m) /\
  is_u64 (SummaryDataPoint_StartTimeUnixNano m) /\
  is_u64 (SummaryDataPoint_TimeUnixNano m) /\
  is_u64 (SummaryDataPoint_Count m) /\
  doubleOk strict (SummaryDataPoint_Sum m) /\
  is_u32 (SummaryDataPoint_Flags m).

#[export] Instance SummaryDataPoint_codec : Codec SummaryDataPoint :=
  { zero := SummaryDataPoint_zero;
    SizeProto := SummaryDataPoint_SizeProto;
    MarshalProto := SummaryDataPoint_MarshalProto;
    UnmarshalProto := unmarshalFields SummaryDataPoint_step;
    wire := SummaryDataPoint_wire;
    wellFormed := SummaryDataPoint_ok }.

Lemma SummaryDataPoint_enc strict m :
  SummaryDataPoint_ok strict m -> Encodes (SummaryDataPoint_MarshalProto m) (SummaryDataPoint_SizeProto m)
    (SummaryDataPoint_wire m).
Proof. enc_message strict SummaryDataPoint_ok. Qed.

Lemma SummaryDataPoint_rd m :
  SummaryDataPoint_ok true m -> Rd SummaryDataPoint_step (SummaryDataPoint_wire m) SummaryDataPoint_zero m.
Proof.
  rd_message m SummaryDataPoint_ok SummaryDataPoint_wire.
  rd_int u32 u32_u64 8 "Flags" SummaryDataPoint_Flags.
  rd_msgs 6 "QuantileValues" SummaryDataPoint_QuantileValues.
  rd_double 5 "Sum" SummaryDataPoint_Sum.
  rd_i64 4 "Count" SummaryDataPoint_Count.
  rd_i64 3 "TimeUnixNano" SummaryDataPoint_TimeUnixNano.
  rd_i64 2 "StartTimeUnixNano" SummaryDataPoint_StartTimeUnixNano.
  rd_msgs 7 "Attributes" SummaryDataPoint_Attributes.
Qed.

Lemma SummaryDataPoint_safe : SafeStep SummaryDataPoint_step (SummaryDataPoint_ok false).
Proof. safe_message SummaryDataPoint_step SummaryDataPoint_ok. Qed.

#[export] Instance SummaryDataPoint_laws : CodecLaws SummaryDataPoint.
Proof.
  apply (fields_laws SummaryDataPoint_step); [done| | | |].
  - apply SummaryDataPoint_enc.
  - apply SummaryDataPoint_rd.
  - apply SummaryDataPoint_safe.
  - zero_ok SummaryDataPoint_ok.
Qed.

(** ** HistogramDataPoint *)
Record HistogramDataPoint := mkHistogramDataPoint {
  HistogramDataPoint_Attributes : list KeyValue;
  HistogramDataPoint_BucketCounts : list Z;
  HistogramDataPoint_ExplicitBounds : list Z;
  HistogramDataPoint_Exemplars : list Exemplar;
  HistogramDataPoint_StartTimeUnixNano : Z;
  HistogramDataPoint_TimeUnixNano : Z;
  HistogramDataPoint_Count : Z;
  HistogramDataPoint_Sum : Z;
  HistogramDataPoint_Min : Z;
  HistogramDataPoint_Max : Z;
  HistogramDataPoint_metadata : Z;
  HistogramDataPoint_Flags : Z;
}.

Definition HistogramDataPoint_zero : HistogramDataPoint :=
  mkHistogramDataPoint [] [] [] [] 0 0 0 0 0 0 0 0.

#[export] Instance HistogramDataPoint_settable : Settable HistogramDataPoint :=
  settable! mkHistogramDataPoint <HistogramDataPoint_Attributes; HistogramDataPoint_BucketCounts;
    HistogramDataPoint_ExplicitBounds; HistogramDataPoint_Exemplars; HistogramDataPoint_StartTimeUnixNano;
    HistogramDataPoint_TimeUnixNano; HistogramDataPoint_Count; HistogramDataPoint_Sum; HistogramDataPoint_Min;
    HistogramDataPoint_Max; HistogramDataPoint_metadata; HistogramDataPoint_Flags>.

Definition fieldBitHistogramDataPointSum : Z := Z.land (Z.shiftl 1 0) 0x3F.
Definition HistogramDataPoint_SetSum (v : Z) (m : HistogramDataPoint) : HistogramDataPoint :=
  m <| HistogramDataPoint_Sum := v |>
    <| HistogramDataPoint_metadata := Z.lor (HistogramDataPoint_metadata m) fieldBitHistogramDataPointSum |>.
Definition HistogramDataPoint_HasSum (m : HistogramDataPoint) : bool :=
  negb (Z.land (HistogramDataPoint_metadata m) fieldBitHistogramDataPointSum =? 0).

Definition fieldBitHistogramDataPointMin : Z := Z.land (Z.shiftl 1 1) 0x3F.
Definition HistogramDataPoint_SetMin (v : Z) (m : HistogramDataPoint) : HistogramDataPoint :=
  m <| HistogramDataPoint_Min := v |>
    <| HistogramDataPoint_metadata := Z.lor (HistogramDataPoint_metadata m) fieldBitHistogramDataPointMin |>.
Definition HistogramDataPoint_HasMin (m : HistogramDataPoint) : bool :=
  negb (Z.land (HistogramDataPoint_metadata m) fieldBitHistogramDataPointMin =? 0).

Definition fieldBitHistogramDataPointMax : Z := Z.land (Z.shiftl 1 2) 0x3F.
Definition HistogramDataPoint_SetMax (v : Z) (m : HistogramDataPoint) : HistogramDataPoint :=
  m <| HistogramDataPoint_Max := v |>
    <| HistogramDataPoint_metadata := Z.lor (HistogramDataPoint_metadata m) fieldBitHistogramDataPointMax |>.
Definition HistogramDataPoint_HasMax (m : HistogramDataPoint) : bool :=
  negb (Z.land (HistogramDataPoint_metadata m) fieldBitHistogramDataPointMax =? 0).

Definition HistogramDataPoint_SizeProto (m : HistogramDataPoint) : Z :=
  sizeRepeated (fun x => sizeLen 1 (SizeProto x)) (HistogramDataPoint_Attributes m) +
  (if negb (HistogramDataPoint_StartTimeUnixNano m =? 0) then 9 else 0) +
  (if negb (HistogramDataPoint_TimeUnixNano m =? 0) then 9 else 0) +
  (if negb (HistogramDataPoint_Count m =? 0) then 9 else 0) +
  (if HistogramDataPoint_HasSum m then 9 else 0) +
  (if 0 <? len (HistogramDataPoint_BucketCounts m) then sizeLen 1 (len (HistogramDataPoint_BucketCounts m) * 8) else
    0) +
  (if 0 <? len (HistogramDataPoint_ExplicitBounds m) then sizeLen 1 (len (HistogramDataPoint_ExplicitBounds m) * 8)
    else 0) +
  sizeRepeated (fun x => sizeLen 1 (SizeProto x)) (HistogramDataPoint_Exemplars m) +
  (if negb (HistogramDataPoint_Flags m =? 0) then 1 + sov (u64 (HistogramDataPoint_Flags m)) else 0) +
  (if HistogramDataPoint_HasMin m then 9 else 0) +
  (if HistogramDataPoint_HasMax m then 9 else 0).

Definition HistogramDataPoint_MarshalProto (m : HistogramDataPoint) : list Z -> res (Z * list Z) :=
  runW (
    wRepeated (fun x => wMsg (wByte 0x4a) (MarshalProto x)) (HistogramDataPoint_Attributes m) >;>
    wWhen (negb (HistogramDataPoint_StartTimeUnixNano m =? 0)) (wI64 (wByte 0x11)
      (HistogramDataPoint_StartTimeUnixNano m)) >;>
    wWhen (negb (HistogramDataPoint_TimeUnixNano m =? 0)) (wI64 (wByte 0x19) (HistogramDataPoint_TimeUnixNano m)) >;>
    wWhen (negb (HistogramDataPoint_Count m =? 0)) (wI64 (wByte 0x21) (HistogramDataPoint_Count m)) >;>
    wWhen (HistogramDataPoint_HasSum m) (wI64 (wByte 0x29) (HistogramDataPoint_Sum m)) >;>
    wWhen (0 <? len (HistogramDataPoint_BucketCounts m)) (wPackedI64 (wByte 0x32) (HistogramDataPoint_BucketCounts
      m)) >;>
    wWhen (0 <? len (HistogramDataPoint_ExplicitBounds m)) (wPackedI64 (wByte 0x3a)
      (HistogramDataPoint_ExplicitBounds m)) >;>
    wRepeated (fun x => wMsg (wByte 0x42) (MarshalProto x)) (HistogramDataPoint_Exemplars m) >;>
    wWhen (negb (HistogramDataPoint_Flags m =? 0)) (wInt (wByte 0x50) (HistogramDataPoint_Flags m)) >;>
    wWhen (HistogramDataPoint_HasMin m) (wI64 (wByte 0x59) (HistogramDataPoint_Min m)) >;>
    wWhen (HistogramDataPoint_HasMax m) (wI64 (wByte 0x61) (HistogramDataPoint_Max m))).

Definition HistogramDataPoint_step (fieldNum wireType : Z) (buf : list Z) (pos : Z) (m : HistogramDataPoint) :
  res (HistogramDataPoint * Z) :=
  match fieldNum with
  | 9 => let* (b, pos) := readLen "Attributes" wireType buf pos in
      let* v := UnmarshalProto b zero in
      Ok (m <| HistogramDataPoint_Attributes := HistogramDataPoint_Attributes m ++ [v] |>, pos)
  | 2 => let* (num, pos) := readI64 "StartTimeUnixNano" wireType buf pos in
      Ok (m <| HistogramDataPoint_StartTimeUnixNano := num |>, pos)
  | 3 => let* (num, pos) := readI64 "TimeUnixNano" wireType buf pos in
      Ok (m <| HistogramDataPoint_TimeUnixNano := num |>, pos)
  | 4 => let* (num, pos) := readI64 "Count" wireType buf pos in
      Ok (m <| HistogramDataPoint_Count := num |>, pos)
  | 5 => let* (num, pos) := readI64 "Sum" wireType buf pos in
      Ok (HistogramDataPoint_SetSum num m, pos)
  | 6 => let* (l, pos) := readPackedI64 "BucketCounts" wireType buf pos (HistogramDataPoint_BucketCounts m) in
      Ok (m <| HistogramDataPoint_BucketCounts := l |>, pos)
  | 7 => let* (l, pos) := readPackedI64 "ExplicitBounds" wireType buf pos (HistogramDataPoint_ExplicitBounds m) in
      Ok (m <| HistogramDataPoint_ExplicitBounds := l |>, pos)
  | 8 => let* (b, pos) := readLen "Exemplars" wireType buf pos in
      let* v := UnmarshalProto b zero in
      Ok (m <| HistogramDataPoint_Exemplars := HistogramDataPoint_Exemplars m ++ [v] |>, pos)
  | 10 => let* (num, pos) := readVarint "Flags" wireType buf pos in
      Ok (m <| HistogramDataPoint_Flags := u32 num |>, pos)
  | 11 => let* (num, pos) := readI64 "Min" wireType buf pos in
      Ok (HistogramDataPoint_SetMin num m, pos)
  | 12 => let* (num, pos) := readI64 "Max" wireType buf pos in
      Ok (HistogramDataPoint_SetMax num m, pos)
  | _ => skipField wireType buf pos m
  end.

Definition HistogramDataPoint_wire (m : HistogramDataPoint) : list Z :=
  fWhen (HistogramDataPoint_HasMax m) (fI64 12 (HistogramDataPoint_Max m)) ++
  fWhen (HistogramDataPoint_HasMin m) (fI64 11 (HistogramDataPoint_Min m)) ++
  fWhen (negb (HistogramDataPoint_Flags m =? 0)) (fInt 10 (HistogramDataPoint_Flags m)) ++
  fRepeated (fun x => fLen 8 (wire x)) (HistogramDataPoint_Exemplars m) ++
  fWhen (0 <? len (HistogramDataPoint_ExplicitBounds m)) (fLen 7 (fRepeated (leBytes 8)
    (HistogramDataPoint_ExplicitBounds m))) ++
  fWhen (0 <? len (HistogramDataPoint_BucketCounts m)) (fLen 6 (fRepeated (leBytes 8)
    (HistogramDataPoint_BucketCounts m))) ++
  fWhen (HistogramDataPoint_HasSum m) (fI64 5 (HistogramDataPoint_Sum m)) ++
  fWhen (negb (HistogramDataPoint_Count m =? 0)) (fI64 4 (HistogramDataPoint_Count m)) ++
  fWhen (negb (HistogramDataPoint_TimeUnixNano m =? 0)) (fI64 3 (HistogramDataPoint_TimeUnixNano m)) ++
  fWhen (negb (HistogramDataPoint_StartTimeUnixNano m =? 0)) (fI64 2 (HistogramDataPoint_StartTimeUnixNano m)) ++
  fRepeated (fun x => fLen 9 (wire x)) (HistogramDataPoint_Attributes m).

Definition HistogramDataPoint_ok (strict : bool) (m : HistogramDataPoint) : Prop :=
  Forall (wellFormed strict) (HistogramDataPoint_Attributes m) /\
  Forall is_u64 (HistogramDataPoint_BucketCounts m) /\
  Forall is_u64 (HistogramDataPoint_ExplicitBounds m) /\
  Forall (wellFormed strict) (HistogramDataPoint_Exemplars m) /\
  is_u64 (HistogramDataPoint_StartTimeUnixNano m) /\
  is_u64 (HistogramDataPoint_TimeUnixNano m) /\
  is_u64 (HistogramDataPoint_Count m) /\
  is_u64 (HistogramDataPoint_Sum m) /\
  (HistogramDataPoint_HasSum m = false -> HistogramDataPoint_Sum m = 0) /\
  is_u64 (HistogramDataPoint_Min m) /\
  (HistogramDataPoint_HasMin m = false -> HistogramDataPoint_Min m = 0) /\
  is_u64 (HistogramDataPoint_Max m) /\
  (HistogramDataPoint_HasMax m = false -> HistogramDataPoint_Max m = 0) /\
  0 <= (HistogramDataPoint_metadata m) < 8 /\
  is_u32 (HistogramDataPoint_Flags m).

#[export] Instance HistogramDataPoint_codec : Codec HistogramDataPoint :=
  { zero := HistogramDataPoint_zero;
    SizeProto := HistogramDataPoint_SizeProto;
    MarshalProto := HistogramDataPoint_MarshalProto;
    UnmarshalProto := unmarshalFields HistogramDataPoint_step;
    wire := HistogramDataPoint_wire;
    wellFormed := HistogramDataPoint_ok }.

Lemma HistogramDataPoint_enc strict m :
  HistogramDataPoint_ok strict m -> Encodes (HistogramDataPoint_MarshalProto m) (HistogramDataPoint_SizeProto m)
    (HistogramDataPoint_wire m).
Proof. enc_message strict HistogramDataPoint_ok. Qed.

Lemma HistogramDataPoint_rd m :
  HistogramDataPoint_ok true m -> Rd HistogramDataPoint_step (HistogramDataPoint_wire m) HistogramDataPoint_zero m.
Proof.
  rd_message m HistogramDataPoint_ok HistogramDataPoint_wire.
  presence HistogramDataPoint_metadata0.
  all: rd_opt 12 "Max" HistogramDataPoint_SetMax.
  all: rd_opt 11 "Min" HistogramDataPoint_SetMin.
  all: rd_int u32 u32_u64 10 "Flags" HistogramDataPoint_Flags.
  all: rd_msgs 8 "Exemplars" HistogramDataPoint_Exemplars.
  all: rd_packedI64 7 "ExplicitBounds" HistogramDataPoint_ExplicitBounds.
  all: rd_packedI64 6 "BucketCounts" HistogramDataPoint_BucketCounts.
  all: rd_opt 5 "Sum" HistogramDataPoint_SetSum.
  all: rd_i64 4 "Count" HistogramDataPoint_Count.
  all: rd_i64 3 "TimeUnixNano" HistogramDataPoint_TimeUnixNano.
  all: rd_i64 2 "StartTimeUnixNano" HistogramDataPoint_StartTimeUnixNano.
  all: rd_msgs 9 "Attributes" HistogramDataPoint_Attributes.
Qed.

Lemma HistogramDataPoint_safe : SafeStep HistogramDataPoint_step (HistogramDataPoint_ok false).
Proof. safe_optional HistogramDataPoint_step HistogramDataPoint_ok. Qed.

#[export] Instance HistogramDataPoint_laws : CodecLaws HistogramDataPoint.
Proof.
  apply (fields_laws HistogramDataPoint_step); [done| | | |].
  - apply HistogramDataPoint_enc.
  - apply HistogramDataPoint_rd.
  - apply HistogramDataPoint_safe.
  - zero_ok HistogramDataPoint_ok.
Qed.

(** ** ExponentialHistogramDataPointBuckets *)
Record ExponentialHistogramDataPointBuckets := mkExponentialHistogramDataPointBuckets {
  ExponentialHistogramDataPointBuckets_BucketCounts : list Z;
  ExponentialHistogramDataPointBuckets_Offset : Z;
}.

Definition ExponentialHistogramDataPointBuckets_zero : ExponentialHistogramDataPointBuckets :=
  mkExponentialHistogramDataPointBuckets [] 0.

#[export] Instance ExponentialHistogramDataPointBuckets_settable : Settable ExponentialHistogramDataPointBuckets :=
  settable! mkExponentialHistogramDataPointBuckets <ExponentialHistogramDataPointBuckets_BucketCounts;
    ExponentialHistogramDataPointBuckets_Offset>.

Definition ExponentialHistogramDataPointBuckets_SizeProto (m : ExponentialHistogramDataPointBuckets) : Z :=
  (if negb (ExponentialHistogramDataPointBuckets_Offset m =? 0) then 1 + Soz (u64
    (ExponentialHistogramDataPointBuckets_Offset m)) else 0) +
  (if 0 <? len (ExponentialHistogramDataPointBuckets_BucketCounts m) then sizePackedInt 1
    (ExponentialHistogramDataPointBuckets_BucketCounts m) else 0).

Definition ExponentialHistogramDataPointBuckets_MarshalProto (m : ExponentialHistogramDataPointBuckets) : list Z ->
  res (Z * list Z) :=
  runW (
    wWhen (negb (ExponentialHistogramDataPointBuckets_Offset m =? 0)) (wInt (wByte 0x8) (zigzag
      (ExponentialHistogramDataPointBuckets_Offset m))) >;>
    wWhen (0 <? len (ExponentialHistogramDataPointBuckets_BucketCounts m)) (wPackedInt (wByte 0x12)
      (ExponentialHistogramDataPointBuckets_BucketCounts m))).

Definition ExponentialHistogramDataPointBuckets_step (fieldNum wireType : Z) (buf : list Z) (pos : Z) (m :
  ExponentialHistogramDataPointBuckets) :
  res (ExponentialHistogramDataPointBuckets * Z) :=
  match fieldNum with
  | 1 => let* (num, pos) := readVarint "Offset" wireType buf pos in
      Ok (m <| ExponentialHistogramDataPointBuckets_Offset := unzigzag num |>, pos)
  | 2 => let* (l, pos) := readPackedInt (fun z => z) "BucketCounts" wireType buf pos
    (ExponentialHistogramDataPointBuckets_BucketCounts m) in
      Ok (m <| ExponentialHistogramDataPointBuckets_BucketCounts := l |>, pos)
  | _ => skipField wireType buf pos m
  end.

Definition ExponentialHistogramDataPointBuckets_wire (m : ExponentialHistogramDataPointBuckets) : list Z :=
  fWhen (0 <? len (ExponentialHistogramDataPointBuckets_BucketCounts m)) (fLen 2 (fRepeated (fun v => varint (u64
    v)) (ExponentialHistogramDataPointBuckets_BucketCounts m))) ++
  fWhen (negb (ExponentialHistogramDataPointBuckets_Offset m =? 0)) (fInt 1 (zigzag
    (ExponentialHistogramDataPointBuckets_Offset m))).

Definition ExponentialHistogramDataPointBuckets_ok (strict : bool) (m : ExponentialHistogramDataPointBuckets) : Prop
  :=
  Forall is_u64 (ExponentialHistogramDataPointBuckets_BucketCounts m) /\
  is_i32 (ExponentialHistogramDataPointBuckets_Offset m).

#[export] Instance ExponentialHistogramDataPointBuckets_codec : Codec ExponentialHistogramDataPointBuckets :=
  { zero := ExponentialHistogramDataPointBuckets_zero;
    SizeProto := ExponentialHistogramDataPointBuckets_SizeProto;
    MarshalProto := ExponentialHistogramDataPointBuckets_MarshalProto;
    UnmarshalProto := unmarshalFields ExponentialHistogramDataPointBuckets_step;
    wire := ExponentialHistogramDataPointBuckets_wire;
    wellFormed := ExponentialHistogramDataPointBuckets_ok }.

Lemma ExponentialHistogramDataPointBuckets_enc strict m :
  ExponentialHistogramDataPointBuckets_ok strict m -> Encodes (ExponentialHistogramDataPointBuckets_MarshalProto m)
    (ExponentialHistogramDataPointBuckets_SizeProto m) (ExponentialHistogramDataPointBuckets_wire m).
Proof. enc_message strict ExponentialHistogramDataPointBuckets_ok. Qed.

Lemma ExponentialHistogramDataPointBuckets_rd m :
  ExponentialHistogramDataPointBuckets_ok true m -> Rd ExponentialHistogramDataPointBuckets_step
    (ExponentialHistogramDataPointBuckets_wire m) ExponentialHistogramDataPointBuckets_zero m.
Proof.
  rd_message m ExponentialHistogramDataPointBuckets_ok ExponentialHistogramDataPointBuckets_wire.
  rd_packedInt (fun z : Z => z) u64_id 2 "BucketCounts" ExponentialHistogramDataPointBuckets_BucketCounts.
  rd_zigzag 1 "Offset" ExponentialHistogramDataPointBuckets_Offset.
Qed.

Lemma ExponentialHistogramDataPointBuckets_safe : SafeStep ExponentialHistogramDataPointBuckets_step
  (ExponentialHistogramDataPointBuckets_ok false).
Proof. safe_message ExponentialHistogramDataPointBuckets_step ExponentialHistogramDataPointBuckets_ok. Qed.

#[export] Instance ExponentialHistogramDataPointBuckets_laws : CodecLaws ExponentialHistogramDataPointBuckets.
Proof.
  apply (fields_laws ExponentialHistogramDataPointBuckets_step); [done| | | |].
  - apply ExponentialHistogramDataPointBuckets_enc.
  - apply ExponentialHistogramDataPointBuckets_rd.
  - apply ExponentialHistogramDataPointBuckets_safe.
  - zero_ok ExponentialHistogramDataPointBuckets_ok.
Qed.

(** ** ExponentialHistogramDataPoint *)
Record ExponentialHistogramDataPoint := mkExponentialHistogramDataPoint {
  ExponentialHistogramDataPoint_Positive : ExponentialHistogramDataPointBuckets;
  ExponentialHistogramDataPoint_Negative : ExponentialHistogramDataPointBuckets;
  ExponentialHistogramDataPoint_Attributes : list KeyValue;
  ExponentialHistogramDataPoint_Exemplars : list Exemplar;
  ExponentialHistogramDataPoint_StartTimeUnixNano : Z;
  ExponentialHistogramDataPoint_TimeUnixNano : Z;
  ExponentialHistogramDataPoint_Count : Z;
  ExponentialHistogramDataPoint_Sum : Z;
  ExponentialHistogramDataPoint_ZeroCount : Z;
  ExponentialHistogramDataPoint_Min : Z;
  ExponentialHistogramDataPoint_Max : Z;
  ExponentialHistogramDataPoint_ZeroThreshold : Z;
  ExponentialHistogramDataPoint_metadata : Z;
  ExponentialHistogramDataPoint_Scale : Z;
  ExponentialHistogramDataPoint_Flags : Z;
}.

Definition ExponentialHistogramDataPoint_zero : ExponentialHistogramDataPoint :=
  mkExponentialHistogramDataPoint zero zero [] [] 0 0 0 0 0 0 0 0 0 0 0.

#[export] Instance ExponentialHistogramDataPoint_settable : Settable ExponentialHistogramDataPoint :=
  settable! mkExponentialHistogramDataPoint <ExponentialHistogramDataPoint_Positive;
    ExponentialHistogramDataPoint_Negative; ExponentialHistogramDataPoint_Attributes;
    ExponentialHistogramDataPoint_Exemplars; ExponentialHistogramDataPoint_StartTimeUnixNano;
    ExponentialHistogramDataPoint_TimeUnixNano; ExponentialHistogramDataPoint_Count;
    ExponentialHistogramDataPoint_Sum; ExponentialHistogramDataPoint_ZeroCount; ExponentialHistogramDataPoint_Min;
    ExponentialHistogramDataPoint_Max; ExponentialHistogramDataPoint_ZeroThreshold;
    ExponentialHistogramDataPoint_metadata; ExponentialHistogramDataPoint_Scale;
    ExponentialHistogramDataPoint_Flags>.

Definition fieldBitExponentialHistogramDataPointSum : Z := Z.land (Z.shiftl 1 0) 0x3F.
Definition ExponentialHistogramDataPoint_SetSum (v : Z) (m : ExponentialHistogramDataPoint) :
  ExponentialHistogramDataPoint :=
  m <| ExponentialHistogramDataPoint_Sum := v |>
    <| ExponentialHistogramDataPoint_metadata := Z.lor (ExponentialHistogramDataPoint_metadata m)
      fieldBitExponentialHistogramDataPointSum |>.
Definition ExponentialHistogramDataPoint_HasSum (m : ExponentialHistogramDataPoint) : bool :=
  negb (Z.land (ExponentialHistogramDataPoint_metadata m) fieldBitExponentialHistogramDataPointSum =? 0).

Definition fieldBitExponentialHistogramDataPointMin : Z := Z.land (Z.shiftl 1 1) 0x3F.
Definition ExponentialHistogramDataPoint_SetMin (v : Z) (m : ExponentialHistogramDataPoint) :
  ExponentialHistogramDataPoint :=
  m <| ExponentialHistogramDataPoint_Min := v |>
    <| ExponentialHistogramDataPoint_metadata := Z.lor (ExponentialHistogramDataPoint_metadata m)
      fieldBitExponentialHistogramDataPointMin |>.
Definition ExponentialHistogramDataPoint_HasMin (m : ExponentialHistogramDataPoint) : bool :=
  negb (Z.land (ExponentialHistogramDataPoint_metadata m) fieldBitExponentialHistogramDataPointMin =? 0).

Definition fieldBitExponentialHistogramDataPointMax : Z := Z.land (Z.shiftl 1 2) 0x3F.
Definition ExponentialHistogramDataPoint_SetMax (v : Z) (m : ExponentialHistogramDataPoint) :
  ExponentialHistogramDataPoint :=
  m <| ExponentialHistogramDataPoint_Max := v |>
    <| ExponentialHistogramDataPoint_metadata := Z.lor (ExponentialHistogramDataPoint_metadata m)
      fieldBitExponentialHistogramDataPointMax |>.
Definition ExponentialHistogramDataPoint_HasMax (m : ExponentialHistogramDataPoint) : bool :=
  negb (Z.land (ExponentialHistogramDataPoint_metadata m) fieldBitExponentialHistogramDataPointMax =? 0).

Definition ExponentialHistogramDataPoint_SizeProto (m : ExponentialHistogramDataPoint) : Z :=
  sizeRepeated (fun x => sizeLen 1 (SizeProto x)) (ExponentialHistogramDataPoint_Attributes m) +
  (if negb (ExponentialHistogramDataPoint_StartTimeUnixNano m =? 0) then 9 else 0) +
  (if negb (ExponentialHistogramDataPoint_TimeUnixNano m =? 0) then 9 else 0) +
  (if negb (ExponentialHistogramDataPoint_Count m =? 0) then 9 else 0) +
  (if ExponentialHistogramDataPoint_HasSum m then 9 else 0) +
  (if negb (ExponentialHistogramDataPoint_Scale m =? 0) then 1 + Soz (u64 (ExponentialHistogramDataPoint_Scale m))
    else 0) +
  (if negb (ExponentialHistogramDataPoint_ZeroCount m =? 0) then 9 else 0) +
  sizeLen 1 (SizeProto (ExponentialHistogramDataPoint_Positive m)) +
  sizeLen 1 (SizeProto (ExponentialHistogramDataPoint_Negative m)) +
  (if negb (ExponentialHistogramDataPoint_Flags m =? 0) then 1 + sov (u64 (ExponentialHistogramDataPoint_Flags m))
    else 0) +
  sizeRepeated (fun x => sizeLen 1 (SizeProto x)) (ExponentialHistogramDataPoint_Exemplars m) +
  (if ExponentialHistogramDataPoint_HasMin m then 9 else 0) +
  (if ExponentialHistogramDataPoint_HasMax m then 9 else 0) +
  (if isNonZero (ExponentialHistogramDataPoint_ZeroThreshold m) then 9 else 0).

Definition ExponentialHistogramDataPoint_MarshalProto (m : ExponentialHistogramDataPoint) : list Z -> res (Z * list
  Z) :=
  runW (
    wRepeated (fun x => wMsg (wByte 0xa) (MarshalProto x)) (ExponentialHistogramDataPoint_Attributes m) >;>
    wWhen (negb (ExponentialHistogramDataPoint_StartTimeUnixNano m =? 0)) (wI64 (wByte 0x11)
      (ExponentialHistogramDataPoint_StartTimeUnixNano m)) >;>
    wWhen (negb (ExponentialHistogramDataPoint_TimeUnixNano m =? 0)) (wI64 (wByte 0x19)
      (ExponentialHistogramDataPoint_TimeUnixNano m)) >;>
    wWhen (negb (ExponentialHistogramDataPoint_Count m =? 0)) (wI64 (wByte 0x21)
      (ExponentialHistogramDataPoint_Count m)) >;>
    wWhen (ExponentialHistogramDataPoint_HasSum m) (wI64 (wByte 0x29) (ExponentialHistogramDataPoint_Sum m)) >;>
    wWhen (negb (ExponentialHistogramDataPoint_Scale m =? 0)) (wInt (wByte 0x30) (zigzag
      (ExponentialHistogramDataPoint_Scale m))) >;>
    wWhen (negb (ExponentialHistogramDataPoint_ZeroCount m =? 0)) (wI64 (wByte 0x39)
      (ExponentialHistogramDataPoint_ZeroCount m)) >;>
    wMsg (wByte 0x42) (MarshalProto (ExponentialHistogramDataPoint_Positive m)) >;>
    wMsg (wByte 0x4a) (MarshalProto (ExponentialHistogramDataPoint_Negative m)) >;>
    wWhen (negb (ExponentialHistogramDataPoint_Flags m =? 0)) (wInt (wByte 0x50)
      (ExponentialHistogramDataPoint_Flags m)) >;>
    wRepeated (fun x => wMsg (wByte 0x5a) (MarshalProto x)) (ExponentialHistogramDataPoint_Exemplars m) >;>
    wWhen (ExponentialHistogramDataPoint_HasMin m) (wI64 (wByte 0x61) (ExponentialHistogramDataPoint_Min m)) >;>
    wWhen (ExponentialHistogramDataPoint_HasMax m) (wI64 (wByte 0x69) (ExponentialHistogramDataPoint_Max m)) >;>
    wWhen (isNonZero (ExponentialHistogramDataPoint_ZeroThreshold m)) (wI64 (wByte 0x71)
      (ExponentialHistogramDataPoint_ZeroThreshold m))).

Definition ExponentialHistogramDataPoint_step (fieldNum wireType : Z) (buf : list Z) (pos : Z) (m :
  ExponentialHistogramDataPoint) :
  res (ExponentialHistogramDataPoint * Z) :=
  match fieldNum with
  | 1 => let* (b, pos) := readLen "Attributes" wireType buf pos in
      let* v := UnmarshalProto b zero in
      Ok (m <| ExponentialHistogramDataPoint_Attributes := ExponentialHistogramDataPoint_Attributes m ++ [v] |>, pos)
  | 2 => let* (num, pos) := readI64 "StartTimeUnixNano" wireType buf pos in
      Ok (m <| ExponentialHistogramDataPoint_StartTimeUnixNano := num |>, pos)
  | 3 => let* (num, pos) := readI64 "TimeUnixNano" wireType buf pos in
      Ok (m <| ExponentialHistogramDataPoint_TimeUnixNano := num |>, pos)
  | 4 => let* (num, pos) := readI64 "Count" wireType buf pos in
      Ok (m <| ExponentialHistogramDataPoint_Count := num |>, pos)
  | 5 => let* (num, pos) := readI64 "Sum" wireType buf pos in
      Ok (ExponentialHistogramDataPoint_SetSum num m, pos)
  | 6 => let* (num, pos) := readVarint "Scale" wireType buf pos in
      Ok (m <| ExponentialHistogramDataPoint_Scale := unzigzag num |>, pos)
  | 7 => let* (num, pos) := readI64 "ZeroCount" wireType buf pos in
      Ok (m <| ExponentialHistogramDataPoint_ZeroCount := num |>, pos)
  | 8 => let* (b, pos) := readLen "Positive" wireType buf pos in
      let* v := UnmarshalProto b (ExponentialHistogramDataPoint_Positive m) in
      Ok (m <| ExponentialHistogramDataPoint_Positive := v |>, pos)
  | 9 => let* (b, pos) := readLen "Negative" wireType buf pos in
      let* v := UnmarshalProto b (ExponentialHistogramDataPoint_Negative m) in
      Ok (m <| ExponentialHistogramDataPoint_Negative := v |>, pos)
  | 10 => let* (num, pos) := readVarint "Flags" wireType buf pos in
      Ok (m <| ExponentialHistogramDataPoint_Flags := u32 num |>, pos)
  | 11 => let* (b, pos) := readLen "Exemplars" wireType buf pos in
      let* v := UnmarshalProto b zero in
      Ok (m <| ExponentialHistogramDataPoint_Exemplars := ExponentialHistogramDataPoint_Exemplars m ++ [v] |>, pos)
  | 12 => let* (num, pos) := readI64 "Min" wireType buf pos in
      Ok (ExponentialHistogramDataPoint_SetMin num m, pos)
  | 13 => let* (num, pos) := readI64 "Max" wireType buf pos in
      Ok (ExponentialHistogramDataPoint_SetMax num m, pos)
  | 14 => let* (num, pos) := readI64 "ZeroThreshold" wireType buf pos in
      Ok (m <| ExponentialHistogramDataPoint_ZeroThreshold := num |>, pos)
  | _ => skipField wireType buf pos m
  end.

Definition ExponentialHistogramDataPoint_wire (m : ExponentialHistogramDataPoint) : list Z :=
  fWhen (isNonZero (ExponentialHistogramDataPoint_ZeroThreshold m)) (fI64 14
    (ExponentialHistogramDataPoint_ZeroThreshold m)) ++
  fWhen (ExponentialHistogramDataPoint_HasMax m) (fI64 13 (ExponentialHistogramDataPoint_Max m)) ++
  fWhen (ExponentialHistogramDataPoint_HasMin m) (fI64 12 (ExponentialHistogramDataPoint_Min m)) ++
  fRepeated (fun x => fLen 11 (wire x)) (ExponentialHistogramDataPoint_Exemplars m) ++
  fWhen (negb (ExponentialHistogramDataPoint_Flags m =? 0)) (fInt 10 (ExponentialHistogramDataPoint_Flags m)) ++
  fLen 9 (wire (ExponentialHistogramDataPoint_Negative m)) ++
  fLen 8 (wire (ExponentialHistogramDataPoint_Positive m)) ++
  fWhen (negb (ExponentialHistogramDataPoint_ZeroCount m =? 0)) (fI64 7 (ExponentialHistogramDataPoint_ZeroCount m))
    ++
  fWhen (negb (ExponentialHistogramDataPoint_Scale m =? 0)) (fInt 6 (zigzag (ExponentialHistogramDataPoint_Scale
    m))) ++
  fWhen (ExponentialHistogramDataPoint_HasSum m) (fI64 5 (ExponentialHistogramDataPoint_Sum m)) ++
  fWhen (negb (ExponentialHistogramDataPoint_Count m =? 0)) (fI64 4 (ExponentialHistogramDataPoint_Count m)) ++
  fWhen (negb (ExponentialHistogramDataPoint_TimeUnixNano m =? 0)) (fI64 3
    (ExponentialHistogramDataPoint_TimeUnixNano m)) ++
  fWhen (negb (ExponentialHistogramDataPoint_StartTimeUnixNano m =? 0)) (fI64 2
    (ExponentialHistogramDataPoint_StartTimeUnixNano m)) ++
  fRepeated (fun x => fLen 1 (wire x)) (ExponentialHistogramDataPoint_Attributes m).

Definition ExponentialHistogramDataPoint_ok (strict : bool) (m : ExponentialHistogramDataPoint) : Prop :=
  wellFormed strict (ExponentialHistogramDataPoint_Positive m) /\
  wellFormed strict (ExponentialHistogramDataPoint_Negative m) /\
  Forall (wellFormed strict) (ExponentialHistogramDataPoint_Attributes m) /\
  Forall (wellFormed strict) (ExponentialHistogramDataPoint_Exemplars m) /\
  is_u64 (ExponentialHistogramDataPoint_StartTimeUnixNano m) /\
  is_u64 (ExponentialHistogramDataPoint_TimeUnixNano m) /\
  is_u64 (ExponentialHistogramDataPoint_Count m) /\
  is_u64 (ExponentialHistogramDataPoint_Sum m) /\
  (ExponentialHistogramDataPoint_HasSum m = false -> ExponentialHistogramDataPoint_Sum m = 0) /\
  is_u64 (ExponentialHistogramDataPoint_ZeroCount m) /\
  is_u64 (ExponentialHistogramDataPoint_Min m) /\
  (ExponentialHistogramDataPoint_HasMin m = false -> ExponentialHistogramDataPoint_Min m = 0) /\
  is_u64 (ExponentialHistogramDataPoint_Max m) /\
  (ExponentialHistogramDataPoint_HasMax m = false -> ExponentialHistogramDataPoint_Max m = 0) /\
  doubleOk strict (ExponentialHistogramDataPoint_ZeroThreshold m) /\
  0 <= (ExponentialHistogramDataPoint_metadata m) < 8 /\
  is_i32 (ExponentialHistogramDataPoint_Scale m) /\
  is_u32 (ExponentialHistogramDataPoint_Flags m).

#[export] Instance ExponentialHistogramDataPoint_codec : Codec ExponentialHistogramDataPoint :=
  { zero := ExponentialHistogramDataPoint_zero;
    SizeProto := ExponentialHistogramDataPoint_SizeProto;
    MarshalProto := ExponentialHistogramDataPoint_MarshalProto;
    UnmarshalProto := unmarshalFields ExponentialHistogramDataPoint_step;
    wire := ExponentialHistogramDataPoint_wire;
    wellFormed := ExponentialHistogramDataPoint_ok }.

Lemma ExponentialHistogramDataPoint_enc strict m :
  ExponentialHistogramDataPoint_ok strict m -> Encodes (ExponentialHistogramDataPoint_MarshalProto m)
    (ExponentialHistogramDataPoint_SizeProto m) (ExponentialHistogramDataPoint_wire m).
Proof. enc_message strict ExponentialHistogramDataPoint_ok. Qed.

Lemma ExponentialHistogramDataPoint_rd m :
  ExponentialHistogramDataPoint_ok true m -> Rd ExponentialHistogramDataPoint_step
    (ExponentialHistogramDataPoint_wire m) ExponentialHistogramDataPoint_zero m.
Proof.
  rd_message m ExponentialHistogramDataPoint_ok ExponentialHistogramDataPoint_wire.
  presence ExponentialHistogramDataPoint_metadata0.
  all: rd_double 14 "ZeroThreshold" ExponentialHistogramDataPoint_ZeroThreshold.
  all: rd_opt 13 "Max" ExponentialHistogramDataPoint_SetMax.
  all: rd_opt 12 "Min" ExponentialHistogramDataPoint_SetMin.
  all: rd_msgs 11 "Exemplars" ExponentialHistogramDataPoint_Exemplars.
  all: rd_int u32 u32_u64 10 "Flags" ExponentialHistogramDataPoint_Flags.
  all: rd_msg 9 "Negative" ExponentialHistogramDataPoint_Negative.
  all: rd_msg 8 "Positive" ExponentialHistogramDataPoint_Positive.
  all: rd_i64 7 "ZeroCount" ExponentialHistogramDataPoint_ZeroCount.
  all: rd_zigzag 6 "Scale" ExponentialHistogramDataPoint_Scale.
  all: rd_opt 5 "Sum" ExponentialHistogramDataPoint_SetSum.
  all: rd_i64 4 "Count" ExponentialHistogramDataPoint_Count.
  all: rd_i64 3 "TimeUnixNano" ExponentialHistogramDataPoint_TimeUnixNano.
  all: rd_i64 2 "StartTimeUnixNano" ExponentialHistogramDataPoint_StartTimeUnixNano.
  all: rd_msgs 1 "Attributes" ExponentialHistogramDataPoint_Attributes.
Qed.

Lemma ExponentialHistogramDataPoint_safe : SafeStep ExponentialHistogramDataPoint_step
  (ExponentialHistogramDataPoint_ok false).
Proof. safe_optional ExponentialHistogramDataPoint_step ExponentialHistogramDataPoint_ok. Qed.

#[export] Instance ExponentialHistogramDataPoint_laws : CodecLaws ExponentialHistogramDataPoint.
Proof.
  apply (fields_laws ExponentialHistogramDataPoint_step); [done| | | |].
  - apply ExponentialHistogramDataPoint_enc.
  - apply ExponentialHistogramDataPoint_rd.
  - apply ExponentialHistogramDataPoint_safe.
  - zero_ok ExponentialHistogramDataPoint_ok.
Qed.

(** ** Gauge *)
Record Gauge := mkGauge {
  Gauge_DataPoints : list NumberDataPoint;
}.

Definition Gauge_zero : Gauge :=
  mkGauge [].

#[export] Instance Gauge_settable : Settable Gauge :=
  settable! mkGauge <Gauge_DataPoints>.

Definition Gauge_SizeProto (m : Gauge) : Z :=
  sizeRepeated (fun x => sizeLen 1 (SizeProto x)) (Gauge_DataPoints m).

Definition Gauge_MarshalProto (m : Gauge) : list Z -> res (Z * list Z) :=
  runW (
    wRepeated (fun x => wMsg (wByte 0xa) (MarshalProto x)) (Gauge_DataPoints m)).

Definition Gauge_step (fieldNum wireType : Z) (buf : list Z) (pos : Z) (m : Gauge) :
  res (Gauge * Z) :=
  match fieldNum with
  | 1 => let* (b, pos) := readLen "DataPoints" wireType buf pos in
      let* v := UnmarshalProto b zero in
      Ok (m <| Gauge_DataPoints := Gauge_DataPoints m ++ [v] |>, pos)
  | _ => skipField wireType buf pos m
  end.

Definition Gauge_wire (m : Gauge) : list Z :=
  fRepeated (fun x => fLen 1 (wire x)) (Gauge_DataPoints m).

Definition Gauge_ok (strict : bool) (m : Gauge) : Prop :=
  Forall (wellFormed strict) (Gauge_DataPoints m).

#[export] Instance Gauge_codec : Codec Gauge :=
  { zero := Gauge_zero;
    SizeProto := Gauge_SizeProto;
    MarshalProto := Gauge_MarshalProto;
    UnmarshalProto := unmarshalFields Gauge_step;
    wire := Gauge_wire;
    wellFormed := Gauge_ok }.

Lemma Gauge_enc strict m :
  Gauge_ok strict m -> Encodes (Gauge_MarshalProto m) (Gauge_SizeProto m) (Gauge_wire m).
Proof. enc_message strict Gauge_ok. Qed.

Lemma Gauge_rd m :
  Gauge_ok true m -> Rd Gauge_step (Gauge_wire m) Gauge_zero m.
Proof.
  rd_message m Gauge_ok Gauge_wire.
  rd_msgs 1 "DataPoints" Gauge_DataPoints.
Qed.

Lemma Gauge_safe : SafeStep Gauge_step (Gauge_ok false).
Proof. safe_message Gauge_step Gauge_ok. Qed.

#[export] Instance Gauge_laws : CodecLaws Gauge.
Proof.
  apply (fields_laws Gauge_step); [done| | | |].
  - apply Gauge_enc.
  - apply Gauge_rd.
  - apply Gauge_safe.
  - zero_ok Gauge_ok.
Qed.

(** ** Sum *)
Record Sum := mkSum {
  Sum_DataPoints : list NumberDataPoint;
  Sum_AggregationTemporality : Z;
  Sum_IsMonotonic : bool;
}.

Definition Sum_zero : Sum :=
  mkSum [] 0 false.

#[export] Instance Sum_settable : Settable Sum :=
  settable! mkSum <Sum_DataPoints; Sum_AggregationTemporality; Sum_IsMonotonic>.

Definition Sum_SizeProto (m : Sum) : Z :=
  sizeRepeated (fun x => sizeLen 1 (SizeProto x)) (Sum_DataPoints m) +
  (if negb (Sum_AggregationTemporality m =? 0) then 1 + sov (u64 (Sum_AggregationTemporality m)) else 0) +
  (if Sum_IsMonotonic m then 2 else 0).

Definition Sum_MarshalProto (m : Sum) : list Z -> res (Z * list Z) :=
  runW (
    wRepeated (fun x => wMsg (wByte 0xa) (MarshalProto x)) (Sum_DataPoints m) >;>
    wWhen (negb (Sum_AggregationTemporality m =? 0)) (wInt (wByte 0x10) (Sum_AggregationTemporality m)) >;>
    wWhen (Sum_IsMonotonic m) (wBool (wByte 0x18) (Sum_IsMonotonic m))).

Definition Sum_step (fieldNum wireType : Z) (buf : list Z) (pos : Z) (m : Sum) :
  res (Sum * Z) :=
  match fieldNum with
  | 1 => let* (b, pos) := readLen "DataPoints" wireType buf pos in
      let* v := UnmarshalProto b zero in
      Ok (m <| Sum_DataPoints := Sum_DataPoints m ++ [v] |>, pos)
  | 2 => let* (num, pos) := readVarint "AggregationTemporality" wireType buf pos in
      Ok (m <| Sum_AggregationTemporality := i32 num |>, pos)
  | 3 => let* (num, pos) := readVarint "IsMonotonic" wireType buf pos in
      Ok (m <| Sum_IsMonotonic := negb (num =? 0) |>, pos)
  | _ => skipField wireType buf pos m
  end.

Definition Sum_wire (m : Sum) : list Z :=
  fWhen (Sum_IsMonotonic m) (fInt 3 1) ++
  fWhen (negb (Sum_AggregationTemporality m =? 0)) (fInt 2 (Sum_AggregationTemporality m)) ++
  fRepeated (fun x => fLen 1 (wire x)) (Sum_DataPoints m).

Definition Sum_ok (strict : bool) (m : Sum) : Prop :=
  Forall (wellFormed strict) (Sum_DataPoints m) /\
  is_i32 (Sum_AggregationTemporality m).

#[export] Instance Sum_codec : Codec Sum :=
  { zero := Sum_zero;
    SizeProto := Sum_SizeProto;
    MarshalProto := Sum_MarshalProto;
    UnmarshalProto := unmarshalFields Sum_step;
    wire := Sum_wire;
    wellFormed := Sum_ok }.

Lemma Sum_enc strict m :
  Sum_ok strict m -> Encodes (Sum_MarshalProto m) (Sum_SizeProto m) (Sum_wire m).
Proof. enc_message strict Sum_ok. Qed.

Lemma Sum_rd m :
  Sum_ok true m -> Rd Sum_step (Sum_wire m) Sum_zero m.
Proof.
  rd_message m Sum_ok Sum_wire.
  rd_bool 3 "IsMonotonic" Sum_IsMonotonic.
  rd_int i32 i32_u64 2 "AggregationTemporality" Sum_AggregationTemporality.
  rd_msgs 1 "DataPoints" Sum_DataPoints.
Qed.

Lemma Sum_safe : SafeStep Sum_step (Sum_ok false).
Proof. safe_message Sum_step Sum_ok. Qed.

#[export] Instance Sum_laws : CodecLaws Sum.
Proof.
  apply (fields_laws Sum_step); [done| | | |].
  - apply Sum_enc.
  - apply Sum_rd.
  - apply Sum_safe.
  - zero_ok Sum_ok.
Qed.

(** ** Histogram *)
Record Histogram := mkHistogram {
  Histogram_DataPoints : list HistogramDataPoint;
  Histogram_AggregationTemporality : Z;
}.

Definition Histogram_zero : Histogram :=
  mkHistogram [] 0.

#[export] Instance Histogram_settable : Settable Histogram :=
  settable! mkHistogram <Histogram_DataPoints; Histogram_AggregationTemporality>.

Definition Histogram_SizeProto (m : Histogram) : Z :=
  sizeRepeated (fun x => sizeLen 1 (SizeProto x)) (Histogram_DataPoints m) +
  (if negb (Histogram_AggregationTemporality m =? 0) then 1 + sov (u64 (Histogram_AggregationTemporality m)) else 0).

Definition Histogram_MarshalProto (m : Histogram) : list Z -> res (Z * list Z) :=
  runW (
    wRepeated (fun x => wMsg (wByte 0xa) (MarshalProto x)) (Histogram_DataPoints m) >;>
    wWhen (negb (Histogram_AggregationTemporality m =? 0)) (wInt (wByte 0x10) (Histogram_AggregationTemporality m))).

Definition Histogram_step (fieldNum wireType : Z) (buf : list Z) (pos : Z) (m : Histogram) :
  res (Histogram * Z) :=
  match fieldNum with
  | 1 => let* (b, pos) := readLen "DataPoints" wireType buf pos in
      let* v := UnmarshalProto b zero in
      Ok (m <| Histogram_DataPoints := Histogram_DataPoints m ++ [v] |>, pos)
  | 2 => let* (num, pos) := readVarint "AggregationTemporality" wireType buf pos in
      Ok (m <| Histogram_AggregationTemporality := i32 num |>, pos)
  | _ => skipField wireType buf pos m
  end.

Definition Histogram_wire (m : Histogram) : list Z :=
  fWhen (negb (Histogram_AggregationTemporality m =? 0)) (fInt 2 (Histogram_AggregationTemporality m)) ++
  fRepeated (fun x => fLen 1 (wire x)) (Histogram_DataPoints m).

Definition Histogram_ok (strict : bool) (m : Histogram) : Prop :=
  Forall (wellFormed strict) (Histogram_DataPoints m) /\
  is_i32 (Histogram_AggregationTemporality m).

#[export] Instance Histogram_codec : Codec Histogram :=
  { zero := Histogram_zero;
    SizeProto := Histogram_SizeProto;
    MarshalProto := Histogram_MarshalProto;
    UnmarshalProto := unmarshalFields Histogram_step;
    wire := Histogram_wire;
    wellFormed := Histogram_ok }.

Lemma Histogram_enc strict m :
  Histogram_ok strict m -> Encodes (Histogram_MarshalProto m) (Histogram_SizeProto m) (Histogram_wire m).
Proof. enc_message strict Histogram_ok. Qed.

Lemma Histogram_rd m :
  Histogram_ok true m -> Rd Histogram_step (Histogram_wire m) Histogram_zero m.
Proof.
  rd_message m Histogram_ok Histogram_wire.
  rd_int i32 i32_u64 2 "AggregationTemporality" Histogram_AggregationTemporality.
  rd_msgs 1 "DataPoints" Histogram_DataPoints.
Qed.

Lemma Histogram_safe : SafeStep Histogram_step (Histogram_ok false).
Proof. safe_message Histogram_step Histogram_ok. Qed.

#[export] Instance Histogram_laws : CodecLaws Histogram.
Proof.
  apply (fields_laws Histogram_step); [done| | | |].
  - apply Histogram_enc.
  - apply Histogram_rd.
  - apply Histogram_safe.
  - zero_ok Histogram_ok.
Qed.

(** ** ExponentialHistogram *)
Record ExponentialHistogram := mkExponentialHistogram {
  ExponentialHistogram_DataPoints : list ExponentialHistogramDataPoint;
  ExponentialHistogram_AggregationTemporality : Z;
}.

Definition ExponentialHistogram_zero : ExponentialHistogram :=
  mkExponentialHistogram [] 0.

#[export] Instance ExponentialHistogram_settable : Settable ExponentialHistogram :=
  settable! mkExponentialHistogram <ExponentialHistogram_DataPoints; ExponentialHistogram_AggregationTemporality>.

Definition ExponentialHistogram_SizeProto (m : ExponentialHistogram) : Z :=
  sizeRepeated (fun x => sizeLen 1 (SizeProto x)) (ExponentialHistogram_DataPoints m) +
  (if negb (ExponentialHistogram_AggregationTemporality m =? 0) then 1 + sov (u64
    (ExponentialHistogram_AggregationTemporality m)) else 0).

Definition ExponentialHistogram_MarshalProto (m : ExponentialHistogram) : list Z -> res (Z * list Z) :=
  runW (
    wRepeated (fun x => wMsg (wByte 0xa) (MarshalProto x)) (ExponentialHistogram_DataPoints m) >;>
    wWhen (negb (ExponentialHistogram_AggregationTemporality m =? 0)) (wInt (wByte 0x10)
      (ExponentialHistogram_AggregationTemporality m))).

Definition ExponentialHistogram_step (fieldNum wireType : Z) (buf : list Z) (pos : Z) (m : ExponentialHistogram) :
  res (ExponentialHistogram * Z) :=
  match fieldNum with
  | 1 => let* (b, pos) := readLen "DataPoints" wireType buf pos in
      let* v := UnmarshalProto b zero in
      Ok (m <| ExponentialHistogram_DataPoints := ExponentialHistogram_DataPoints m ++ [v] |>, pos)
  | 2 => let* (num, pos) := readVarint "AggregationTemporality" wireType buf pos in
      Ok (m <| ExponentialHistogram_AggregationTemporality := i32 num |>, pos)
  | _ => skipField wireType buf pos m
  end.

Definition ExponentialHistogram_wire (m : ExponentialHistogram) : list Z :=
  fWhen (negb (ExponentialHistogram_AggregationTemporality m =? 0)) (fInt 2
    (ExponentialHistogram_AggregationTemporality m)) ++
  fRepeated (fun x => fLen 1 (wire x)) (ExponentialHistogram_DataPoints m).

Definition ExponentialHistogram_ok (strict : bool) (m : ExponentialHistogram) : Prop :=
  Forall (wellFormed strict) (ExponentialHistogram_DataPoints m) /\
  is_i32 (ExponentialHistogram_AggregationTemporality m).

#[export] Instance ExponentialHistogram_codec : Codec ExponentialHistogram :=
  { zero := ExponentialHistogram_zero;
    SizeProto := ExponentialHistogram_SizeProto;
    MarshalProto := ExponentialHistogram_MarshalProto;
    UnmarshalProto := unmarshalFields ExponentialHistogram_step;
    wire := ExponentialHistogram_wire;
    wellFormed := ExponentialHistogram_ok }.

Lemma ExponentialHistogram_enc strict m :
  ExponentialHistogram_ok strict m -> Encodes (ExponentialHistogram_MarshalProto m) (ExponentialHistogram_SizeProto
    m) (ExponentialHistogram_wire m).
Proof. enc_message strict ExponentialHistogram_ok. Qed.

Lemma ExponentialHistogram_rd m :
  ExponentialHistogram_ok true m -> Rd ExponentialHistogram_step (ExponentialHistogram_wire m)
    ExponentialHistogram_zero m.
Proof.
  rd_message m ExponentialHistogram_ok ExponentialHistogram_wire.
  rd_int i32 i32_u64 2 "AggregationTemporality" ExponentialHistogram_AggregationTemporality.
  rd_msgs 1 "DataPoints" ExponentialHistogram_DataPoints.
Qed.

Lemma ExponentialHistogram_safe : SafeStep ExponentialHistogram_step (ExponentialHistogram_ok false).
Proof. safe_message ExponentialHistogram_step ExponentialHistogram_ok. Qed.

#[export] Instance ExponentialHistogram_laws : CodecLaws ExponentialHistogram.
Proof.
  apply (fields_laws ExponentialHistogram_step); [done| | | |].
  - apply ExponentialHistogram_enc.
  - apply ExponentialHistogram_rd.
  - apply ExponentialHistogram_safe.
  - zero_ok ExponentialHistogram_ok.
Qed.

(** ** Summary *)
Record Summary := mkSummary {
  Summary_DataPoints : list SummaryDataPoint;
}.

Definition Summary_zero : Summary :=
  mkSummary [].

#[export] Instance Summary_settable : Settable Summary :=
  settable! mkSummary <Summary_DataPoints>.

Definition Summary_SizeProto (m : Summary) : Z :=
  sizeRepeated (fun x => sizeLen 1 (SizeProto x)) (Summary_DataPoints m).

Definition Summary_MarshalProto (m : Summary) : list Z -> res (Z * list Z) :=
  runW (
    wRepeated (fun x => wMsg (wByte 0xa) (MarshalProto x)) (Summary_DataPoints m)).

Definition Summary_step (fieldNum wireType : Z) (buf : list Z) (pos : Z) (m : Summary) :
  res (Summary * Z) :=
  match fieldNum with
  | 1 => let* (b, pos) := readLen "DataPoints" wireType buf pos in
      let* v := UnmarshalProto b zero in
      Ok (m <| Summary_DataPoints := Summary_DataPoints m ++ [v] |>, pos)
  | _ => skipField wireType buf pos m
  end.

Definition Summary_wire (m : Summary) : list Z :=
  fRepeated (fun x => fLen 1 (wire x)) (Summary_DataPoints m).

Definition Summary_ok (strict : bool) (m : Summary) : Prop :=
  Forall (wellFormed strict) (Summary_DataPoints m).

#[export] Instance Summary_codec : Codec Summary :=
  { zero := Summary_zero;
    SizeProto := Summary_SizeProto;
    MarshalProto := Summary_MarshalProto;
    UnmarshalProto := unmarshalFields Summary_step;
    wire := Summary_wire;
    wellFormed := Summary_ok }.

Lemma Summary_enc strict m :
  Summary_ok strict m -> Encodes (Summary_MarshalProto m) (Summary_SizeProto m) (Summary_wire m).
Proof. enc_message strict Summary_ok. Qed.

Lemma Summary_rd m :
  Summary_ok true m -> Rd Summary_step (Summary_wire m) Summary_zero m.
Proof.
  rd_message m Summary_ok Summary_wire.
  rd_msgs 1 "DataPoints" Summary_DataPoints.
Qed.

Lemma Summary_safe : SafeStep Summary_step (Summary_ok false).
Proof. safe_message Summary_step Summary_ok. Qed.

#[export] Instance Summary_laws : CodecLaws Summary.
Proof.
  apply (fields_laws Summary_step); [done| | | |].
  - apply Summary_enc.
  - apply Summary_rd.
  - apply Summary_safe.
  - zero_ok Summary_ok.
Qed.

(** ** Metric *)
Inductive Metric_oneofData :=
  | Metric_noData
  | Metric_Gauge (Gauge : option Gauge)
  | Metric_Sum (Sum : option Sum)
  | Metric_Histogram (Histogram : option Histogram)
  | Metric_ExponentialHistogram (ExponentialHistogram : option ExponentialHistogram)
  | Metric_Summary (Summary : option Summary).

Record Metric := mkMetric {
  Metric_Name : list Z;
  Metric_Description : list Z;
  Metric_Unit : list Z;
  Metric_Data : Metric_oneofData;
  Metric_Metadata : list KeyValue;
}.

Definition Metric_zero : Metric :=
  mkMetric [] [] [] Metric_noData [].

#[export] Instance Metric_settable : Settable Metric :=
  settable! mkMetric <Metric_Name; Metric_Description; Metric_Unit; Metric_Data; Metric_Metadata>.

Definition Metric_Data_SizeProto (v : Metric_oneofData) : Z :=
  match v with
  | Metric_noData => 0
  | Metric_Gauge x => sizePtr 1 x
  | Metric_Sum x => sizePtr 1 x
  | Metric_Histogram x => sizePtr 1 x
  | Metric_ExponentialHistogram x => sizePtr 1 x
  | Metric_Summary x => sizePtr 1 x
  end.
Definition Metric_Data_fields (v : Metric_oneofData) : W :=
  match v with
  | Metric_noData => wSkip
  | Metric_Gauge x => wPtr (wByte 0x2a) x
  | Metric_Sum x => wPtr (wByte 0x3a) x
  | Metric_Histogram x => wPtr (wByte 0x4a) x
  | Metric_ExponentialHistogram x => wPtr (wByte 0x52) x
  | Metric_Summary x => wPtr (wByte 0x5a) x
  end.
Definition Metric_Data_wire (v : Metric_oneofData) : list Z :=
  match v with
  | Metric_noData => []
  | Metric_Gauge x => fPtr 5 x
  | Metric_Sum x => fPtr 7 x
  | Metric_Histogram x => fPtr 9 x
  | Metric_ExponentialHistogram x => fPtr 10 x
  | Metric_Summary x => fPtr 11 x
  end.
Definition Metric_Data_ok (strict : bool) (v : Metric_oneofData) : Prop :=
  match v with
  | Metric_noData => True
  | Metric_Gauge x => ptrSet strict x
  | Metric_Sum x => ptrSet strict x
  | Metric_Histogram x => ptrSet strict x
  | Metric_ExponentialHistogram x => ptrSet strict x
  | Metric_Summary x => ptrSet strict x
  end.

Definition Metric_SizeProto (m : Metric) : Z :=
  (if 0 <? len (Metric_Name m) then sizeLen 1 (len (Metric_Name m)) else 0) +
  (if 0 <? len (Metric_Description m) then sizeLen 1 (len (Metric_Description m)) else 0) +
  (if 0 <? len (Metric_Unit m) then sizeLen 1 (len (Metric_Unit m)) else 0) +
  Metric_Data_SizeProto (Metric_Data m) +
  sizeRepeated (fun x => sizeLen 1 (SizeProto x)) (Metric_Metadata m).

Definition Metric_MarshalProto (m : Metric) : list Z -> res (Z * list Z) :=
  runW (
    wWhen (0 <? len (Metric_Name m)) (wLen (wByte 0xa) (Metric_Name m)) >;>
    wWhen (0 <? len (Metric_Description m)) (wLen (wByte 0x12) (Metric_Description m)) >;>
    wWhen (0 <? len (Metric_Unit m)) (wLen (wByte 0x1a) (Metric_Unit m)) >;>
    Metric_Data_fields (Metric_Data m) >;>
    wRepeated (fun x => wMsg (wByte 0x62) (MarshalProto x)) (Metric_Metadata m)).

Definition Metric_step (fieldNum wireType : Z) (buf : list Z) (pos : Z) (m : Metric) :
  res (Metric * Z) :=
  match fieldNum with
  | 1 => let* (b, pos) := readLen "Name" wireType buf pos in
      Ok (m <| Metric_Name := b |>, pos)
  | 2 => let* (b, pos) := readLen "Description" wireType buf pos in
      Ok (m <| Metric_Description := b |>, pos)
  | 3 => let* (b, pos) := readLen "Unit" wireType buf pos in
      Ok (m <| Metric_Unit := b |>, pos)
  | 5 => let* (b, pos) := readLen "Gauge" wireType buf pos in
      let* ov := UnmarshalProto b zero in
      Ok (m <| Metric_Data := Metric_Gauge (Some ov) |>, pos)
  | 7 => let* (b, pos) := readLen "Sum" wireType buf pos in
      let* ov := UnmarshalProto b zero in
      Ok (m <| Metric_Data := Metric_Sum (Some ov) |>, pos)
  | 9 => let* (b, pos) := readLen "Histogram" wireType buf pos in
      let* ov := UnmarshalProto b zero in
      Ok (m <| Metric_Data := Metric_Histogram (Some ov) |>, pos)
  | 10 => let* (b, pos) := readLen "ExponentialHistogram" wireType buf pos in
      let* ov := UnmarshalProto b zero in
      Ok (m <| Metric_Data := Metric_ExponentialHistogram (Some ov) |>, pos)
  | 11 => let* (b, pos) := readLen "Summary" wireType buf pos in
      let* ov := UnmarshalProto b zero in
      Ok (m <| Metric_Data := Metric_Summary (Some ov) |>, pos)
  | 12 => let* (b, pos) := readLen "Metadata" wireType buf pos in
      let* v := UnmarshalProto b zero in
      Ok (m <| Metric_Metadata := Metric_Metadata m ++ [v] |>, pos)
  | _ => skipField wireType buf pos m
  end.

Definition Metric_wire (m : Metric) : list Z :=
  fRepeated (fun x => fLen 12 (wire x)) (Metric_Metadata m) ++
  Metric_Data_wire (Metric_Data m) ++
  fWhen (0 <? len (Metric_Unit m)) (fLen 3 (Metric_Unit m)) ++
  fWhen (0 <? len (Metric_Description m)) (fLen 2 (Metric_Description m)) ++
  fWhen (0 <? len (Metric_Name m)) (fLen 1 (Metric_Name m)).

Definition Metric_ok (strict : bool) (m : Metric) : Prop :=
  bytes (Metric_Name m) /\
  bytes (Metric_Description m) /\
  bytes (Metric_Unit m) /\
  Metric_Data_ok strict (Metric_Data m) /\
  Forall (wellFormed strict) (Metric_Metadata m).

#[export] Instance Metric_codec : Codec Metric :=
  { zero := Metric_zero;
    SizeProto := Metric_SizeProto;
    MarshalProto := Metric_MarshalProto;
    UnmarshalProto := unmarshalFields Metric_step;
    wire := Metric_wire;
    wellFormed := Metric_ok }.

Lemma Metric_Data_enc strict v :
  Metric_Data_ok strict v -> Enc (Metric_Data_fields v) (Metric_Data_SizeProto v) (Metric_Data_wire v).
Proof.
  destruct v; cbn; intros Hv; [apply Enc_skip|..]; try (apply ptrSet_ok in Hv); enc_field strict.
Qed.
#[local] Hint Resolve Metric_Data_enc : oneofs.

Lemma Metric_Data_rd m v :
  Metric_Data_ok true v -> Metric_Data m = Metric_noData -> Rd Metric_step (Metric_Data_wire v) m (m <| Metric_Data
    := v |>).
Proof.
  intros Hv Hm. destruct v; cbn in Hv.
  - destruct m. cbn in Hm. subst. apply Rd_nil.
  - rd_some 5 "Gauge" (fun v => m <| Metric_Data := Metric_Gauge (Some v) |>).
  - rd_some 7 "Sum" (fun v => m <| Metric_Data := Metric_Sum (Some v) |>).
  - rd_some 9 "Histogram" (fun v => m <| Metric_Data := Metric_Histogram (Some v) |>).
  - rd_some 10 "ExponentialHistogram" (fun v => m <| Metric_Data := Metric_ExponentialHistogram (Some v) |>).
  - rd_some 11 "Summary" (fun v => m <| Metric_Data := Metric_Summary (Some v) |>).
Qed.

Lemma Metric_enc strict m :
  Metric_ok strict m -> Encodes (Metric_MarshalProto m) (Metric_SizeProto m) (Metric_wire m).
Proof. enc_message strict Metric_ok. Qed.

Lemma Metric_rd m :
  Metric_ok true m -> Rd Metric_step (Metric_wire m) Metric_zero m.
Proof.
  rd_message m Metric_ok Metric_wire.
  rd_msgs 12 "Metadata" Metric_Metadata.
  rd_oneof Metric_Data_rd Metric_Data.
  rd_string 3 "Unit" Metric_Unit.
  rd_string 2 "Description" Metric_Description.
  rd_string 1 "Name" Metric_Name.
Qed.

Lemma Metric_safe : SafeStep Metric_step (Metric_ok false).
Proof. safe_message Metric_step Metric_ok. Qed.

#[export] Instance Metric_laws : CodecLaws Metric.
Proof.
  apply (fields_laws Metric_step); [done| | | |].
  - apply Metric_enc.
  - apply Metric_rd.
  - apply Metric_safe.
  - zero_ok Metric_ok.
Qed.

(** ** ScopeMetrics *)
Record ScopeMetrics := mkScopeMetrics {
  ScopeMetrics_SchemaUrl : list Z;
  ScopeMetrics_Metrics : list Metric;
  ScopeMetrics_Scope : InstrumentationScope;
}.

Definition ScopeMetrics_zero : ScopeMetrics :=
  mkScopeMetrics [] [] zero.

#[export] Instance ScopeMetrics_settable : Settable ScopeMetrics :=
  settable! mkScopeMetrics <ScopeMetrics_SchemaUrl; ScopeMetrics_Metrics; ScopeMetrics_Scope>.

Definition ScopeMetrics_SizeProto (m : ScopeMetrics) : Z :=
  sizeLen 1 (SizeProto (ScopeMetrics_Scope m)) +
  sizeRepeated (fun x => sizeLen 1 (SizeProto x)) (ScopeMetrics_Metrics m) +
  (if 0 <? len (ScopeMetrics_SchemaUrl m) then sizeLen 1 (len (ScopeMetrics_SchemaUrl m)) else 0).

Definition ScopeMetrics_MarshalProto (m : ScopeMetrics) : list Z -> res (Z * list Z) :=
  runW (
    wMsg (wByte 0xa) (MarshalProto (ScopeMetrics_Scope m)) >;>
    wRepeated (fun x => wMsg (wByte 0x12) (MarshalProto x)) (ScopeMetrics_Metrics m) >;>
    wWhen (0 <? len (ScopeMetrics_SchemaUrl m)) (wLen (wByte 0x1a) (ScopeMetrics_SchemaUrl m))).

Definition ScopeMetrics_step (fieldNum wireType : Z) (buf : list Z) (pos : Z) (m : ScopeMetrics) :
  res (ScopeMetrics * Z) :=
  match fieldNum with
  | 1 => let* (b, pos) := readLen "Scope" wireType buf pos in
      let* v := UnmarshalProto b (ScopeMetrics_Scope m) in
      Ok (m <| ScopeMetrics_Scope := v |>, pos)
  | 2 => let* (b, pos) := readLen "Metrics" wireType buf pos in
      let* v := UnmarshalProto b zero in
      Ok (m <| ScopeMetrics_Metrics := ScopeMetrics_Metrics m ++ [v] |>, pos)
  | 3 => let* (b, pos) := readLen "SchemaUrl" wireType buf pos in
      Ok (m <| ScopeMetrics_SchemaUrl := b |>, pos)
  | _ => skipField wireType buf pos m
  end.

Definition ScopeMetrics_wire (m : ScopeMetrics) : list Z :=
  fWhen (0 <? len (ScopeMetrics_SchemaUrl m)) (fLen 3 (ScopeMetrics_SchemaUrl m)) ++
  fRepeated (fun x => fLen 2 (wire x)) (ScopeMetrics_Metrics m) ++
  fLen 1 (wire (ScopeMetrics_Scope m)).

Definition ScopeMetrics_ok (strict : bool) (m : ScopeMetrics) : Prop :=
  bytes (ScopeMetrics_SchemaUrl m) /\
  Forall (wellFormed strict) (ScopeMetrics_Metrics m) /\
  wellFormed strict (ScopeMetrics_Scope m).

#[export] Instance ScopeMetrics_codec : Codec ScopeMetrics :=
  { zero := ScopeMetrics_zero;
    SizeProto := ScopeMetrics_SizeProto;
    MarshalProto := ScopeMetrics_MarshalProto;
    UnmarshalProto := unmarshalFields ScopeMetrics_step;
    wire := ScopeMetrics_wire;
    wellFormed := ScopeMetrics_ok }.

Lemma ScopeMetrics_enc strict m :
  ScopeMetrics_ok strict m -> Encodes (ScopeMetrics_MarshalProto m) (ScopeMetrics_SizeProto m) (ScopeMetrics_wire m).
Proof. enc_message strict ScopeMetrics_ok. Qed.

Lemma ScopeMetrics_rd m :
  ScopeMetrics_ok true m -> Rd ScopeMetrics_step (ScopeMetrics_wire m) ScopeMetrics_zero m.
Proof.
  rd_message m ScopeMetrics_ok ScopeMetrics_wire.
  rd_string 3 "SchemaUrl" ScopeMetrics_SchemaUrl.
  rd_msgs 2 "Metrics" ScopeMetrics_Metrics.
  rd_msg 1 "Scope" ScopeMetrics_Scope.
Qed.

Lemma ScopeMetrics_safe : SafeStep ScopeMetrics_step (ScopeMetrics_ok false).
Proof. safe_message ScopeMetrics_step ScopeMetrics_ok. Qed.

#[export] Instance ScopeMetrics_laws : CodecLaws ScopeMetrics.
Proof.
  apply (fields_laws ScopeMetrics_step); [done| | | |].
  - apply ScopeMetrics_enc.
  - apply ScopeMetrics_rd.
  - apply ScopeMetrics_safe.
  - zero_ok ScopeMetrics_ok.
Qed.

(** ** ResourceMetrics *)
Record ResourceMetrics := mkResourceMetrics {
  ResourceMetrics_Resource : Resource;
  ResourceMetrics_ScopeMetrics : list ScopeMetrics;
  ResourceMetrics_SchemaUrl : list Z;
  ResourceMetrics_DeprecatedScopeMetrics : list ScopeMetrics;
}.

Definition ResourceMetrics_zero : ResourceMetrics :=
  mkResourceMetrics zero [] [] [].

#[export] Instance ResourceMetrics_settable : Settable ResourceMetrics :=
  settable! mkResourceMetrics <ResourceMetrics_Resource; ResourceMetrics_ScopeMetrics; ResourceMetrics_SchemaUrl;
    ResourceMetrics_DeprecatedScopeMetrics>.

Definition ResourceMetrics_SizeProto (m : ResourceMetrics) : Z :=
  sizeLen 1 (SizeProto (ResourceMetrics_Resource m)) +
  sizeRepeated (fun x => sizeLen 1 (SizeProto x)) (ResourceMetrics_ScopeMetrics m) +
  (if 0 <? len (ResourceMetrics_SchemaUrl m) then sizeLen 1 (len (ResourceMetrics_SchemaUrl m)) else 0) +
  sizeRepeated (fun x => sizeLen 2 (SizeProto x)) (ResourceMetrics_DeprecatedScopeMetrics m).

Definition ResourceMetrics_MarshalProto (m : ResourceMetrics) : list Z -> res (Z * list Z) :=
  runW (
    wMsg (wByte 0xa) (MarshalProto (ResourceMetrics_Resource m)) >;>
    wRepeated (fun x => wMsg (wByte 0x12) (MarshalProto x)) (ResourceMetrics_ScopeMetrics m) >;>
    wWhen (0 <? len (ResourceMetrics_SchemaUrl m)) (wLen (wByte 0x1a) (ResourceMetrics_SchemaUrl m)) >;>
    wRepeated (fun x => wMsg (wByte 0x3e >;> wByte 0xc2) (MarshalProto x)) (ResourceMetrics_DeprecatedScopeMetrics
      m)).

Definition ResourceMetrics_step (fieldNum wireType : Z) (buf : list Z) (pos : Z) (m : ResourceMetrics) :
  res (ResourceMetrics * Z) :=
  match fieldNum with
  | 1 => let* (b, pos) := readLen "Resource" wireType buf pos in
      let* v := UnmarshalProto b (ResourceMetrics_Resource m) in
      Ok (m <| ResourceMetrics_Resource := v |>, pos)
  | 2 => let* (b, pos) := readLen "ScopeMetrics" wireType buf pos in
      let* v := UnmarshalProto b zero in
      Ok (m <| ResourceMetrics_ScopeMetrics := ResourceMetrics_ScopeMetrics m ++ [v] |>, pos)
  | 3 => let* (b, pos) := readLen "SchemaUrl" wireType buf pos in
      Ok (m <| ResourceMetrics_SchemaUrl := b |>, pos)
  | 1000 => let* (b, pos) := readLen "DeprecatedScopeMetrics" wireType buf pos in
      let* v := UnmarshalProto b zero in
      Ok (m <| ResourceMetrics_DeprecatedScopeMetrics := ResourceMetrics_DeprecatedScopeMetrics m ++ [v] |>, pos)
  | _ => skipField wireType buf pos m
  end.

Definition ResourceMetrics_wire (m : ResourceMetrics) : list Z :=
  fRepeated (fun x => fLen 1000 (wire x)) (ResourceMetrics_DeprecatedScopeMetrics m) ++
  fWhen (0 <? len (ResourceMetrics_SchemaUrl m)) (fLen 3 (ResourceMetrics_SchemaUrl m)) ++
  fRepeated (fun x => fLen 2 (wire x)) (ResourceMetrics_ScopeMetrics m) ++
  fLen 1 (wire (ResourceMetrics_Resource m)).

Definition ResourceMetrics_ok (strict : bool) (m : ResourceMetrics) : Prop :=
  wellFormed strict (ResourceMetrics_Resource m) /\
  Forall (wellFormed strict) (ResourceMetrics_ScopeMetrics m) /\
  bytes (ResourceMetrics_SchemaUrl m) /\
  Forall (wellFormed strict) (ResourceMetrics_DeprecatedScopeMetrics m).

#[export] Instance ResourceMetrics_codec : Codec ResourceMetrics :=
  { zero := ResourceMetrics_zero;
    SizeProto := ResourceMetrics_SizeProto;
    MarshalProto := ResourceMetrics_MarshalProto;
    UnmarshalProto := unmarshalFields ResourceMetrics_step;
    wire := ResourceMetrics_wire;
    wellFormed := ResourceMetrics_ok }.

Lemma ResourceMetrics_enc strict m :
  ResourceMetrics_ok strict m -> Encodes (ResourceMetrics_MarshalProto m) (ResourceMetrics_SizeProto m)
    (ResourceMetrics_wire m).
Proof. enc_message strict ResourceMetrics_ok. Qed.

Lemma ResourceMetrics_rd m :
  ResourceMetrics_ok true m -> Rd ResourceMetrics_step (ResourceMetrics_wire m) ResourceMetrics_zero m.
Proof.
  rd_message m ResourceMetrics_ok ResourceMetrics_wire.
  rd_msgs 1000 "DeprecatedScopeMetrics" ResourceMetrics_DeprecatedScopeMetrics.
  rd_string 3 "SchemaUrl" ResourceMetrics_SchemaUrl.
  rd_msgs 2 "ScopeMetrics" ResourceMetrics_ScopeMetrics.
  rd_msg 1 "Resource" ResourceMetrics_Resource.
Qed.

Lemma ResourceMetrics_safe : SafeStep ResourceMetrics_step (ResourceMetrics_ok false).
Proof. safe_message ResourceMetrics_step ResourceMetrics_ok. Qed.

#[export] Instance ResourceMetrics_laws : CodecLaws ResourceMetrics.
Proof.
  apply (fields_laws ResourceMetrics_step); [done| | | |].
  - apply ResourceMetrics_enc.
  - apply ResourceMetrics_rd.
  - apply ResourceMetrics_safe.
  - zero_ok ResourceMetrics_ok.
Qed.

(** ** ExportMetricsServiceRequest *)
Record ExportMetricsServiceRequest := mkExportMetricsServiceRequest {
  ExportMetricsServiceRequest_ResourceMetrics : list ResourceMetrics;
}.

Definition ExportMetricsServiceRequest_zero : ExportMetricsServiceRequest :=
  mkExportMetricsServiceRequest [].

#[export] Instance ExportMetricsServiceRequest_settable : Settable ExportMetricsServiceRequest :=
  settable! mkExportMetricsServiceRequest <ExportMetricsServiceRequest_ResourceMetrics>.

Definition ExportMetricsServiceRequest_SizeProto (m : ExportMetricsServiceRequest) : Z :=
  sizeRepeated (fun x => sizeLen 1 (SizeProto x)) (ExportMetricsServiceRequest_ResourceMetrics m).

Definition ExportMetricsServiceRequest_MarshalProto (m : ExportMetricsServiceRequest) : list Z -> res (Z * list Z) :=
  runW (
    wRepeated (fun x => wMsg (wByte 0xa) (MarshalProto x)) (ExportMetricsServiceRequest_ResourceMetrics m)).

Definition ExportMetricsServiceRequest_step (fieldNum wireType : Z) (buf : list Z) (pos : Z) (m :
  ExportMetricsServiceRequest) :
  res (ExportMetricsServiceRequest * Z) :=
  match fieldNum with
  | 1 => let* (b, pos) := readLen "ResourceMetrics" wireType buf pos in
      let* v := UnmarshalProto b zero in
      Ok (m <| ExportMetricsServiceRequest_ResourceMetrics := ExportMetricsServiceRequest_ResourceMetrics m ++ [v]
        |>, pos)
  | _ => skipField wireType buf pos m
  end.

Definition ExportMetricsServiceRequest_wire (m : ExportMetricsServiceRequest) : list Z :=
  fRepeated (fun x => fLen 1 (wire x)) (ExportMetricsServiceRequest_ResourceMetrics m).

Definition ExportMetricsServiceRequest_ok (strict : bool) (m : ExportMetricsServiceRequest) : Prop :=
  Forall (wellFormed strict) (ExportMetricsServiceRequest_ResourceMetrics m).

#[export] Instance ExportMetricsServiceRequest_codec : Codec ExportMetricsServiceRequest :=
  { zero := ExportMetricsServiceRequest_zero;
    SizeProto := ExportMetricsServiceRequest_SizeProto;
    MarshalProto := ExportMetricsServiceRequest_MarshalProto;
    UnmarshalProto := unmarshalFields ExportMetricsServiceRequest_step;
    wire := ExportMetricsServiceRequest_wire;
    wellFormed := ExportMetricsServiceRequest_ok }.

Lemma ExportMetricsServiceRequest_enc strict m :
  ExportMetricsServiceRequest_ok strict m -> Encodes (ExportMetricsServiceRequest_MarshalProto m)
    (ExportMetricsServiceRequest_SizeProto m) (ExportMetricsServiceRequest_wire m).
Proof. enc_message strict ExportMetricsServiceRequest_ok. Qed.

Lemma ExportMetricsServiceRequest_rd m :
  ExportMetricsServiceRequest_ok true m -> Rd ExportMetricsServiceRequest_step (ExportMetricsServiceRequest_wire m)
    ExportMetricsServiceRequest_zero m.
Proof.
  rd_message m ExportMetricsServiceRequest_ok ExportMetricsServiceRequest_wire.
  rd_msgs 1 "ResourceMetrics" ExportMetricsServiceRequest_ResourceMetrics.
Qed.

Lemma ExportMetricsServiceRequest_safe : SafeStep ExportMetricsServiceRequest_step (ExportMetricsServiceRequest_ok
  false).
Proof. safe_message ExportMetricsServiceRequest_step ExportMetricsServiceRequest_ok. Qed.

#[export] Instance ExportMetricsServiceRequest_laws : CodecLaws ExportMetricsServiceRequest.
Proof.
  apply (fields_laws ExportMetricsServiceRequest_step); [done| | | |].
  - apply ExportMetricsServiceRequest_enc.
  - apply ExportMetricsServiceRequest_rd.
  - apply ExportMetricsServiceRequest_safe.
  - zero_ok ExportMetricsServiceRequest_ok.
Qed.
