(* ===== verification/MetricData.v ===== *)
(** * Data points of metrics

    What the code that splits metrics (exporterhelper/internal/queuebatch/metrics_batch.go
    and processor/batchprocessor/splitmetrics.go) asks of pdata/pmetric: the number of
    data points of a metric, and what identifies a data point, for the theorems.

    A metric holds data points of one of four types in one of five containers.  The API
    never builds a metric whose container is a nil pointer; such a metric counts as one
    without data here. *)

From S2P Require Import Prelude RecordUpdate Errors Sizers ProtoWire ProtoWireProofs ProtoFields ProtoCommon ProtoMessage ProtoKinds ProtoIds ProtoResource ProtoMetrics.
Local Open Scope Z_scope.

(** The switch over the type of a metric that counts its data points; it occurs in
    metrics_batch.go, sizer/metrics_sizer.go, splitmetrics.go and pmetric/metrics.go. *)
Definition dataPointsLen (m : Metric) : Z :=
  match Metric_Data m with
  | Metric_Gauge (Some g) => len (Gauge_DataPoints g)
  | Metric_Sum (Some s) => len (Sum_DataPoints s)
  | Metric_Histogram (Some h) => len (Histogram_DataPoints h)
  | Metric_ExponentialHistogram (Some h) => len (ExponentialHistogram_DataPoints h)
  | Metric_Summary (Some s) => len (Summary_DataPoints s)
  | _ => 0
  end.

Definition scopeMetricsDPC (sm : ScopeMetrics) : Z := sumZ dataPointsLen (ScopeMetrics_Metrics sm).
Definition resourceMetricsDPC (rm : ResourceMetrics) : Z := sumZ scopeMetricsDPC (ResourceMetrics_ScopeMetrics rm).

(** [pmetric.Metrics] is the slice of its resources. *)
Definition Metrics := list ResourceMetrics.
Definition DataPointCount (md : Metrics) : Z := sumZ resourceMetricsDPC md.

(** ** What identifies a data point *)
Inductive point :=
  | PNumber (p : NumberDataPoint)
  | PHistogram (p : HistogramDataPoint)
  | PExponential (p : ExponentialHistogramDataPoint)
  | PSummary (p : SummaryDataPoint).

Inductive kind :=
  | KNone
  | KGauge
  | KSum (temporality : Z) (monotonic : bool)
  | KHistogram (temporality : Z)
  | KExponential (temporality : Z)
  | KSummary.

Definition metricKind (m : Metric) : kind :=
  match Metric_Data m with
  | Metric_Gauge (Some _) => KGauge
  | Metric_Sum (Some s) => KSum (Sum_AggregationTemporality s) (Sum_IsMonotonic s)
  | Metric_Histogram (Some h) => KHistogram (Histogram_AggregationTemporality h)
  | Metric_ExponentialHistogram (Some h) => KExponential (ExponentialHistogram_AggregationTemporality h)
  | Metric_Summary (Some _) => KSummary
  | _ => KNone
  end.

Definition metricPoints (m : Metric) : list point :=
  match Metric_Data m with
  | Metric_Gauge (Some g) => map PNumber (Gauge_DataPoints g)
  | Metric_Sum (Some s) => map PNumber (Sum_DataPoints s)
  | Metric_Histogram (Some h) => map PHistogram (Histogram_DataPoints h)
  | Metric_ExponentialHistogram (Some h) => map PExponential (ExponentialHistogram_DataPoints h)
  | Metric_Summary (Some s) => map PSummary (Summary_DataPoints s)
  | _ => []
  end.

Record head := mkHead {
  h_name : list Z;
  h_description : list Z;
  h_unit : list Z;
  h_metadata : list KeyValue;
  h_kind : kind;
}.

Definition metricHead (m : Metric) : head := mkHead (Metric_Name m) (Metric_Description m) (Metric_Unit m) (Metric_Metadata m) (metricKind m).

(** A data point with its metric, scope and resource. *)
Record row := mkRow {
  r_resource : Resource;
  r_resourceUrl : list Z;
  r_scope : InstrumentationScope;
  r_scopeUrl : list Z;
  r_head : head;
  r_point : point;
}.

(** The rows of a metric, scope or resource, given what is around it. *)
Definition metricRows (around : head -> point -> row) (m : Metric) : list row := map (around (metricHead m)) (metricPoints m).

Definition scopeRows (around : InstrumentationScope -> list Z -> head -> point -> row) (sm : ScopeMetrics) : list row :=
  flat_map (metricRows (around (ScopeMetrics_Scope sm) (ScopeMetrics_SchemaUrl sm))) (ScopeMetrics_Metrics sm).

Definition resourceRows (rm : ResourceMetrics) : list row :=
  flat_map (scopeRows (mkRow (ResourceMetrics_Resource rm) (ResourceMetrics_SchemaUrl rm))) (ResourceMetrics_ScopeMetrics rm).

Definition rows (md : Metrics) : list row := flat_map resourceRows md.

(** ** Counting *)
Lemma len_map {A B} (f : A -> B) l : len (map f l) = len l.
Proof. unfold len. by rewrite length_map. Qed.

Lemma len_flat_map {A B} (f : A -> list B) l : len (flat_map f l) = sumZ (fun x => len (f x)) l.
Proof. induction l as [|x l IH]; [done|]. cbn [flat_map sumZ]. rewrite len_app. lia. Qed.

Lemma len_metricPoints m : len (metricPoints m) = dataPointsLen m.
Proof. unfold metricPoints, dataPointsLen. destruct (Metric_Data m) as [|[]|[]|[]|[]|[] ]; rewrite ?len_map; done. Qed.

Lemma len_metricRows around m : len (metricRows around m) = dataPointsLen m.
Proof. unfold metricRows. by rewrite len_map, len_metricPoints. Qed.

Lemma flat_map_single {A} (l : list A) : flat_map (fun x => [x]) l = l.
Proof. induction l as [|x l IH]; cbn; by rewrite ?IH. Qed.

Lemma len_scopeRows around sm : len (scopeRows around sm) = scopeMetricsDPC sm.
Proof. unfold scopeRows, scopeMetricsDPC. rewrite len_flat_map. apply sumZ_ext. intros m _. apply len_metricRows. Qed.

Lemma len_resourceRows rm : len (resourceRows rm) = resourceMetricsDPC rm.
Proof. unfold resourceRows, resourceMetricsDPC. rewrite len_flat_map. apply sumZ_ext. intros sm _. apply len_scopeRows. Qed.

Lemma len_rows md : len (rows md) = DataPointCount md.
Proof. unfold rows, DataPointCount. rewrite len_flat_map. apply sumZ_ext. intros rm _. apply len_resourceRows. Qed.

Lemma rows_app md1 md2 : rows (md1 ++ md2) = rows md1 ++ rows md2.
Proof. apply flat_map_app. Qed.

Lemma dataPointsLen_nonneg m : 0 <= dataPointsLen m.
Proof. rewrite <- len_metricPoints. apply len_nonneg. Qed.
#[export] Hint Resolve dataPointsLen_nonneg : otel.
