(* ===== verification/MetricsSplit.v ===== *)
(** * Merging and splitting metric requests (exporterhelper/internal/queuebatch/metrics_batch.go)

    As for logs and traces, with one level more: resources hold scopes, scopes hold
    metrics and metrics hold data points.  The messages are those of ProtoMetrics, so
    that the byte sizes are those of the generated [SizeProto].

    A function that moves elements out of its source returns the destination, the size
    removed and the source as it is left. *)

From S2P Require Import Prelude RecordUpdate Errors Sizers ProtoWire ProtoWireProofs ProtoFields ProtoCommon ProtoMessage ProtoKinds ProtoIds ProtoResource ProtoMetrics MetricData.
Local Open Scope Z_scope.
Local Open Scope otel_scope.

(** ** sizer/metrics_sizer.go *)
Record MetricsSizer := mkMetricsSizer {
  MetricsSize : Metrics -> Z;
  ResourceMetricsSize : ResourceMetrics -> Z;
  ScopeMetricsSize : ScopeMetrics -> Z;
  MetricSize : Metric -> Z;
  MDeltaSize : Z -> Z;
  NumberDataPointSize : NumberDataPoint -> Z;
  HistogramDataPointSize : HistogramDataPoint -> Z;
  ExponentialHistogramDataPointSize : ExponentialHistogramDataPoint -> Z;
  SummaryDataPointSize : SummaryDataPoint -> Z;
}.

Definition MetricsCountSizer : MetricsSizer := {|
  MetricsSize := DataPointCount;
  ResourceMetricsSize := resourceMetricsDPC;
  ScopeMetricsSize := scopeMetricsDPC;
  MetricSize := dataPointsLen;
  MDeltaSize := fun newItemSize => newItemSize;
  NumberDataPointSize := fun _ => 1;
  HistogramDataPointSize := fun _ => 1;
  ExponentialHistogramDataPointSize := fun _ => 1;
  SummaryDataPointSize := fun _ => 1;
|}.

(** The methods of the embedded [pmetric.ProtoMarshaler] and [protoDeltaSizer]. *)
Definition MetricsBytesSizer : MetricsSizer := {|
  MetricsSize := fun md => ExportMetricsServiceRequest_SizeProto (mkExportMetricsServiceRequest md);
  ResourceMetricsSize := ResourceMetrics_SizeProto;
  ScopeMetricsSize := ScopeMetrics_SizeProto;
  MetricSize := Metric_SizeProto;
  MDeltaSize := protoDeltaSize;
  NumberDataPointSize := NumberDataPoint_SizeProto;
  HistogramDataPointSize := HistogramDataPoint_SizeProto;
  ExponentialHistogramDataPointSize := ExponentialHistogramDataPoint_SizeProto;
  SummaryDataPointSize := SummaryDataPoint_SizeProto;
|}.

Section Extract.
Context (sz : MetricsSizer).

(** ** Data points *)

(** The closure passed to [RemoveIf] on a slice of data points; its state is
    capacityLeft, removedSize and the points moved. *)
Definition pointStep {P} (pointSize : P -> Z) (st : Z * Z * list P) (srcDP : P) : (Z * Z * list P) * P * bool :=
  let '(capacityLeft, removedSize, dest) := st in
  if capacityLeft =? 0 then (st, srcDP, false)
  else
    let rdSize := MDeltaSize sz (pointSize srcDP) in
    if capacityLeft <? rdSize then ((0, removedSize, dest), srcDP, false)
    else ((capacityLeft - rdSize, removedSize + rdSize, dest ++ [srcDP]), srcDP, true).

(** What the five functions for the containers do with the slice; [destMetric] is the
    new metric with its empty container.  The points moved, the size removed, the rest. *)
Definition extractDataPoints {P} (pointSize : P -> Z) (src : list P) (destMetric : Metric) (capacity : Z) : list P * Z * list P :=
  let capacityLeft := capacity - (MDeltaSize sz capacity - capacity) - MetricSize sz destMetric in
  let '((_, removedSize, dest), rest) := removeIf (pointStep pointSize) (capacityLeft, 0, []) src in
  (dest, removedSize, rest).

Definition extractGaugeDataPoints (srcGauge : Gauge) (destMetric : Metric) (capacity : Z) : Gauge * Z * Gauge :=
  let destMetric := destMetric <| Metric_Data := Metric_Gauge (Some Gauge_zero) |> in
  let '(dest, removedSize, rest) := extractDataPoints (NumberDataPointSize sz) (Gauge_DataPoints srcGauge) destMetric capacity in
  (Gauge_zero <| Gauge_DataPoints := dest |>, removedSize, srcGauge <| Gauge_DataPoints := rest |>).

Definition extractSumDataPoints (srcSum : Sum) (destMetric : Metric) (capacity : Z) : Sum * Z * Sum :=
  let destMetric := destMetric <| Metric_Data := Metric_Sum (Some Sum_zero) |> in
  let '(dest, removedSize, rest) := extractDataPoints (NumberDataPointSize sz) (Sum_DataPoints srcSum) destMetric capacity in
  (Sum_zero <| Sum_DataPoints := dest |>, removedSize, srcSum <| Sum_DataPoints := rest |>).

Definition extractHistogramDataPoints (srcHistogram : Histogram) (destMetric : Metric) (capacity : Z) : Histogram * Z * Histogram :=
  let destMetric := destMetric <| Metric_Data := Metric_Histogram (Some Histogram_zero) |> in
  let '(dest, removedSize, rest) := extractDataPoints (HistogramDataPointSize sz) (Histogram_DataPoints srcHistogram) destMetric capacity in
  (Histogram_zero <| Histogram_DataPoints := dest |>, removedSize, srcHistogram <| Histogram_DataPoints := rest |>).

Definition extractExponentialHistogramDataPoints (src : ExponentialHistogram) (destMetric : Metric) (capacity : Z)
    : ExponentialHistogram * Z * ExponentialHistogram :=
  let destMetric := destMetric <| Metric_Data := Metric_ExponentialHistogram (Some ExponentialHistogram_zero) |> in
  let '(dest, removedSize, rest) :=
    extractDataPoints (ExponentialHistogramDataPointSize sz) (ExponentialHistogram_DataPoints src) destMetric capacity in
  (ExponentialHistogram_zero <| ExponentialHistogram_DataPoints := dest |>, removedSize, src <| ExponentialHistogram_DataPoints := rest |>).

Definition extractSummaryDataPoints (srcSummary : Summary) (destMetric : Metric) (capacity : Z) : Summary * Z * Summary :=
  let destMetric := destMetric <| Metric_Data := Metric_Summary (Some Summary_zero) |> in
  let '(dest, removedSize, rest) := extractDataPoints (SummaryDataPointSize sz) (Summary_DataPoints srcSummary) destMetric capacity in
  (Summary_zero <| Summary_DataPoints := dest |>, removedSize, srcSummary <| Summary_DataPoints := rest |>).

(** The fields of the container that are not data points are set after the extraction. *)
Definition extractMetricDataPoints (srcMetric : Metric) (capacity : Z) : Metric * Z * Metric :=
  let destMetric := mkMetric (Metric_Name srcMetric) (Metric_Description srcMetric) (Metric_Unit srcMetric) Metric_noData (Metric_Metadata srcMetric) in
  match Metric_Data srcMetric with
  | Metric_Gauge (Some g) =>
      let '(d, removedSize, g) := extractGaugeDataPoints g destMetric capacity in
      (destMetric <| Metric_Data := Metric_Gauge (Some d) |>, removedSize, srcMetric <| Metric_Data := Metric_Gauge (Some g) |>)
  | Metric_Sum (Some s) =>
      let '(d, removedSize, s) := extractSumDataPoints s destMetric capacity in
      let d := d <| Sum_IsMonotonic := Sum_IsMonotonic s |> <| Sum_AggregationTemporality := Sum_AggregationTemporality s |> in
      (destMetric <| Metric_Data := Metric_Sum (Some d) |>, removedSize, srcMetric <| Metric_Data := Metric_Sum (Some s) |>)
  | Metric_Histogram (Some h) =>
      let '(d, removedSize, h) := extractHistogramDataPoints h destMetric capacity in
      let d := d <| Histogram_AggregationTemporality := Histogram_AggregationTemporality h |> in
      (destMetric <| Metric_Data := Metric_Histogram (Some d) |>, removedSize, srcMetric <| Metric_Data := Metric_Histogram (Some h) |>)
  | Metric_ExponentialHistogram (Some h) =>
      let '(d, removedSize, h) := extractExponentialHistogramDataPoints h destMetric capacity in
      let d := d <| ExponentialHistogram_AggregationTemporality := ExponentialHistogram_AggregationTemporality h |> in
      (destMetric <| Metric_Data := Metric_ExponentialHistogram (Some d) |>, removedSize, srcMetric <| Metric_Data := Metric_ExponentialHistogram (Some h) |>)
  | Metric_Summary (Some s) =>
      let '(d, removedSize, s) := extractSummaryDataPoints s destMetric capacity in
      (destMetric <| Metric_Data := Metric_Summary (Some d) |>, removedSize, srcMetric <| Metric_Data := Metric_Summary (Some s) |>)
  | _ => (destMetric, 0, srcMetric)
  end.

(** ** Metrics, scopes and resources

    The closure passed to [RemoveIf] is the same on the three levels.  [MoveTo] leaves
    what was extracted empty, so that the closure returns false in either case after an
    extraction: the element stays in the source. *)
Definition levelStep {E} (sizeOf : E -> Z) (extract : E -> Z -> E * Z * E) (children : E -> Z)
    (st : Z * Z * list E) (src : E) : (Z * Z * list E) * E * bool :=
  let '(capacityLeft, removedSize, dest) := st in
  if capacityLeft =? 0 then (st, src, false)
  else
    let rawSize := sizeOf src in
    let size := MDeltaSize sz rawSize in
    if capacityLeft <? size then
      let '(extSrc, extSize, src) := extract src capacityLeft in
      let removedSize := removedSize + extSize + (size - rawSize - (MDeltaSize sz (rawSize - extSize) - (rawSize - extSize))) in
      ((0, removedSize, if 0 <? children extSrc then dest ++ [extSrc] else dest), src, false)
    else ((capacityLeft - size, removedSize + size, dest ++ [src]), src, true).

Definition extractScopeMetrics (srcSM : ScopeMetrics) (capacity : Z) : ScopeMetrics * Z * ScopeMetrics :=
  let destSM := mkScopeMetrics (ScopeMetrics_SchemaUrl srcSM) [] (ScopeMetrics_Scope srcSM) in
  let capacityLeft := capacity - (MDeltaSize sz capacity - capacity) - ScopeMetricsSize sz destSM in
  let '((_, removedSize, dest), rest) :=
    removeIf (levelStep (MetricSize sz) extractMetricDataPoints dataPointsLen) (capacityLeft, 0, []) (ScopeMetrics_Metrics srcSM) in
  (destSM <| ScopeMetrics_Metrics := dest |>, removedSize, srcSM <| ScopeMetrics_Metrics := rest |>).

Definition extractResourceMetrics (srcRM : ResourceMetrics) (capacity : Z) : ResourceMetrics * Z * ResourceMetrics :=
  let destRM := mkResourceMetrics (ResourceMetrics_Resource srcRM) [] (ResourceMetrics_SchemaUrl srcRM) [] in
  let capacityLeft := capacity - (MDeltaSize sz capacity - capacity) - ResourceMetricsSize sz destRM in
  let '((_, removedSize, dest), rest) :=
    removeIf (levelStep (ScopeMetricsSize sz) extractScopeMetrics (fun sm => len (ScopeMetrics_Metrics sm)))
      (capacityLeft, 0, []) (ResourceMetrics_ScopeMetrics srcRM) in
  (destRM <| ResourceMetrics_ScopeMetrics := dest |>, removedSize, srcRM <| ResourceMetrics_ScopeMetrics := rest |>).

Definition extractMetrics (srcMetrics : Metrics) (capacity : Z) : Metrics * Z * Metrics :=
  let capacityLeft := capacity - MetricsSize sz [] in
  let '((_, removedSize, dest), rest) :=
    removeIf (levelStep (ResourceMetricsSize sz) extractResourceMetrics (fun rm => len (ResourceMetrics_ScopeMetrics rm)))
      (capacityLeft, 0, []) srcMetrics in
  (dest, removedSize, rest).
End Extract.

(** ** Requests *)
Record metricsRequest := mkMetricsRequest { mr_md : Metrics; mr_sizes : SizeCache }.

Definition newMetricsRequest (md : Metrics) : metricsRequest := mkMetricsRequest md NewSizeCache.

Definition metricsSize (sz : MetricsSizer) (szt : SizerType) (req : metricsRequest) : Z * metricsRequest :=
  let '(n, c) := SizeOf (mr_sizes req) szt (MetricsSize sz (mr_md req)) in (n, mkMetricsRequest (mr_md req) c).

(** The destination; the merged request is left empty. *)
Definition metricsMergeTo (sz : MetricsSizer) (szt : SizerType) (req dst : metricsRequest) : metricsRequest :=
  let '(n1, dst) := metricsSize sz szt dst in
  let '(n2, req) := metricsSize sz szt req in
  mkMetricsRequest (mr_md dst ++ mr_md req) (Update (mr_sizes dst) szt (n1 + n2)).

Definition errOneDataPoint (n : Z) : error := Errorf "one datapoint size is greater than max size, dropping items: %d" [ArgZ n].

(** The requests, the error, and what the receiver holds afterwards.  [None] is reached
    only without fuel, which is the number of data points. *)
Fixpoint metricsSplitLoop (sz : MetricsSizer) (szt : SizerType) (maxSize : Z) (fuel : nat) (req : metricsRequest) (res : list metricsRequest)
    : option (list metricsRequest * option error * metricsRequest) :=
  match fuel with
  | O => None
  | S fuel =>
      let '(n, req) := metricsSize sz szt req in
      if maxSize <? n then
        let '(md, rmSize, src) := extractMetrics sz (mr_md req) maxSize in
        let req := mkMetricsRequest src (mr_sizes req) in
        if DataPointCount md =? 0 then Some (res, Some (errOneDataPoint (DataPointCount (mr_md req))), req)
        else
          let '(n, req) := metricsSize sz szt req in
          let req := mkMetricsRequest (mr_md req) (Update (mr_sizes req) szt (n - rmSize)) in
          metricsSplitLoop sz szt maxSize fuel req (res ++ [newMetricsRequest md])
      else Some (res ++ [req], None, req)
  end.

Definition metricsSplit (sz : MetricsSizer) (szt : SizerType) (maxSize : Z) (req : metricsRequest) :=
  metricsSplitLoop sz szt maxSize (S (Z.to_nat (DataPointCount (mr_md req)))) req [].

(** The second request is absent ([None]), of another type ([Some None]), or a metrics
    request. *)
Definition metricsMergeSplit (req : metricsRequest) (maxSize : Z) (szt : SizerType) (r2 : option (option metricsRequest))
    : option (list metricsRequest * option error * metricsRequest) :=
  let go sz :=
    match r2 with
    | Some None => Some ([], Some (New "invalid input type"), req)
    | _ =>
        let req := match r2 with Some (Some req2) => metricsMergeTo sz szt req2 req | _ => req end in
        if maxSize =? 0 then Some ([req], None, req) else metricsSplit sz szt maxSize req
    end in
  if decide (szt = SizerTypeItems) then go MetricsCountSizer
  else if decide (szt = SizerTypeBytes) then go MetricsBytesSizer
  else Some ([], Some (New "unknown sizer type"), req).
