(* ===== verification/MetricsSplitProofs.v ===== *)
(** * What merging and splitting metric requests guarantees

    Whatever the sizes are, an extraction takes data points from the front and leaves the
    others, each with its metric, scope and resource; so the outputs of a split and what
    an error drops are the input.  With the items sizer the outputs are exact chunks.
    With the bytes sizer an output may be larger than the limit: the examples at the end. *)

From S2P Require Import Prelude RecordUpdate Errors Sizers SplitProps ProtoWire ProtoWireProofs ProtoFields ProtoCommon ProtoMessage ProtoKinds ProtoIds ProtoResource ProtoMetrics MetricData MetricsSplit.
Local Open Scope Z_scope.
Local Open Scope otel_scope.

(** ** Taking from the front *)
Section Front.
Context {E Row : Type} (rowsOf : E -> list Row).

(** A closure of [RemoveIf] with capacity, size and destination as its state: it moves
    rows of the element to the destination, and once it leaves some behind it is done. *)
Definition TakesFront (step : Z * Z * list E -> E -> (Z * Z * list E) * E * bool) : Prop :=
  forall c r d x, exists c' r' d1 x' rm, step (c, r, d) x = ((c', r', d ++ d1), x', rm) /\
    flat_map rowsOf d1 ++ (if rm then [] else rowsOf x') = rowsOf x /\ (rm = false -> c' = 0) /\ (c = 0 -> d1 = [] /\ rm = false).

Lemma removeIf_front step l c r d : TakesFront step ->
  exists c' r' d1 l', removeIf step (c, r, d) l = ((c', r', d ++ d1), l') /\
    flat_map rowsOf d1 ++ flat_map rowsOf l' = flat_map rowsOf l /\ (c = 0 -> d1 = []).
Proof.
  intros Hstep. revert c r d. induction l as [|x l IH]; intros c r d; cbn [removeIf flat_map].
  - exists c, r, [], []. by rewrite app_nil_r.
  - destruct (Hstep c r d x) as (c1 & r1 & d1 & x1 & rm & -> & Hrows & Hkeep & Hzero).
    destruct (IH c1 r1 (d ++ d1)) as (c2 & r2 & d2 & l2 & -> & Hl & Hz).
    exists c2, r2, (d1 ++ d2), (if rm then l2 else x1 :: l2). rewrite <- app_assoc, flat_map_app. split_and!; [done| |].
    + destruct rm; cbn [flat_map].
      * rewrite app_nil_r in Hrows. by rewrite <- app_assoc, Hl, Hrows.
      * rewrite (Hz (Hkeep eq_refl)) in *. cbn [flat_map app] in *. by rewrite app_nil_r, app_assoc, Hrows, Hl.
    + intros Hc. destruct (Hzero Hc) as [-> ->]. cbn. by apply Hz, Hkeep.
Qed.
End Front.

Section Extraction.
Context (sz : MetricsSizer).

Lemma pointStep_front {P} (pointSize : P -> Z) : TakesFront (fun p => [p]) (pointStep sz pointSize).
Proof.
  intros c r d x. unfold pointStep. case_match eqn:Ec; zbool; [|case_match eqn:El; zbool].
  - exists c, r, [], x, false. rewrite app_nil_r. naive_solver.
  - exists 0, r, [], x, false. rewrite app_nil_r. naive_solver.
  - eexists _, _, [x], x, true. naive_solver.
Qed.

Lemma extractDataPoints_front {P} (pointSize : P -> Z) src dm capacity :
  exists dest n rest, extractDataPoints sz pointSize src dm capacity = (dest, n, rest) /\ dest ++ rest = src.
Proof.
  unfold extractDataPoints.
  destruct (removeIf_front _ _ src (capacity - (MDeltaSize sz capacity - capacity) - MetricSize sz dm) 0 [] (pointStep_front pointSize))
    as (c & n & dest & rest & -> & E & _). rewrite !flat_map_single in E. by exists dest, n, rest.
Qed.

(** The five containers. *)
Lemma extractMetricDataPoints_front m capacity : exists ext n m', extractMetricDataPoints sz m capacity = (ext, n, m') /\
  metricHead ext = metricHead m /\ metricHead m' = metricHead m /\ metricPoints ext ++ metricPoints m' = metricPoints m.
Proof.
  unfold extractMetricDataPoints, extractGaugeDataPoints, extractSumDataPoints, extractHistogramDataPoints,
    extractExponentialHistogramDataPoints, extractSummaryDataPoints.
  destruct m as [nm ds un dat md]. cbn [Metric_Data Metric_Name Metric_Description Metric_Unit Metric_Metadata].
  destruct dat as [|[x|]|[x|]|[x|]|[x|]|[x|] ]; try (eexists _, _, _; split; [reflexivity|done]).
  all: match goal with |- context [extractDataPoints sz ?p ?l ?dm ?c] => destruct (extractDataPoints_front p l dm c) as (dest & n & rest & -> & E) end.
  all: eexists _, _, _; split; [reflexivity|]; split; [done|]; split; [done|]; cbn; by rewrite <- map_app, E.
Qed.

Lemma metricRows_front around m capacity : exists ext n m', extractMetricDataPoints sz m capacity = (ext, n, m') /\
  metricRows around ext ++ metricRows around m' = metricRows around m.
Proof.
  destruct (extractMetricDataPoints_front m capacity) as (ext & n & m' & E & H1 & H2 & Hp). exists ext, n, m'. split; [done|].
  unfold metricRows. by rewrite H1, H2, <- map_app, Hp.
Qed.

(** The closure of the three upper levels. *)
Lemma levelStep_front {E Row} (rowsOf : E -> list Row) sizeOf extract children :
  (forall x c, exists ext n x', extract x c = (ext, n, x') /\ rowsOf ext ++ rowsOf x' = rowsOf x) ->
  (forall x, children x <= 0 -> rowsOf x = []) -> TakesFront rowsOf (levelStep sz sizeOf extract children).
Proof.
  intros Hext Hch c r d x. unfold levelStep. case_match eqn:Ec; zbool; [|case_match eqn:El; zbool].
  - exists c, r, [], x, false. rewrite app_nil_r. naive_solver.
  - destruct (Hext x c) as (ext & n & x' & -> & E1). eexists 0, _, (if 0 <? children ext then [ext] else []), x', false.
    split; [by destruct (0 <? children ext); rewrite ?app_nil_r|]. split; [|done].
    destruct (0 <? children ext) eqn:Ech; zbool; cbn [flat_map app]; rewrite ?app_nil_r; [done|].
    by rewrite (Hch _ Ech) in E1.
  - eexists _, _, [x], x, true. cbn. rewrite !app_nil_r. naive_solver.
Qed.

Lemma len_nil_inv {A} (l : list A) : len l <= 0 -> l = [].
Proof. intros H. apply len_0. pose proof (len_nonneg l). lia. Qed.

Lemma scopeRows_front around sm capacity : exists ext n sm', extractScopeMetrics sz sm capacity = (ext, n, sm') /\
  scopeRows around ext ++ scopeRows around sm' = scopeRows around sm.
Proof.
  unfold extractScopeMetrics. set (rowsOf := metricRows (around (ScopeMetrics_Scope sm) (ScopeMetrics_SchemaUrl sm))).
  edestruct (removeIf_front rowsOf) as (c & n & dest & rest & -> & E & _).
  - apply levelStep_front; [apply metricRows_front|]. intros m Hm. apply len_nil_inv. unfold rowsOf. by rewrite len_metricRows.
  - eexists _, _, _. split; [reflexivity|]. exact E.
Qed.

Lemma resourceRows_front rm capacity : exists ext n rm', extractResourceMetrics sz rm capacity = (ext, n, rm') /\
  resourceRows ext ++ resourceRows rm' = resourceRows rm.
Proof.
  unfold extractResourceMetrics. set (rowsOf := scopeRows (mkRow (ResourceMetrics_Resource rm) (ResourceMetrics_SchemaUrl rm))).
  edestruct (removeIf_front rowsOf) as (c & n & dest & rest & -> & E & _).
  - apply levelStep_front; [apply scopeRows_front|]. intros sm Hm. unfold rowsOf, scopeRows. by rewrite (len_nil_inv _ Hm).
  - eexists _, _, _. split; [reflexivity|]. exact E.
Qed.

Lemma extractMetrics_front md capacity : exists dest n rest, extractMetrics sz md capacity = (dest, n, rest) /\ rows dest ++ rows rest = rows md.
Proof.
  unfold extractMetrics. edestruct (removeIf_front resourceRows) as (c & n & dest & rest & -> & E & _).
  - apply levelStep_front; [apply resourceRows_front|]. intros rm Hm. unfold resourceRows. by rewrite (len_nil_inv _ Hm).
  - eexists _, _, _. split; [reflexivity|]. exact E.
Qed.
End Extraction.

(** ** The split accounts for every data point *)
Definition metricsOut (outs : list metricsRequest) : list row := flat_map (fun r => rows (mr_md r)) outs.

Lemma metricsSize_md sz szt req : exists n c, metricsSize sz szt req = (n, mkMetricsRequest (mr_md req) c).
Proof. unfold metricsSize. destruct (SizeOf _ _ _) as [n c]. eauto. Qed.

(** Nothing is lost, or the rest is dropped with its number in the error. *)
Definition Accounts (inp : list row) (outs : list metricsRequest) (err : option error) (left : metricsRequest) : Prop :=
  (err = None /\ metricsOut outs = inp) \/
  (err = Some (errOneDataPoint (len (rows (mr_md left)))) /\ metricsOut outs ++ rows (mr_md left) = inp).

Lemma metricsSplitLoop_accounts sz szt maxSize fuel req res : len (rows (mr_md req)) < Z.of_nat fuel ->
  exists outs err left, metricsSplitLoop sz szt maxSize fuel req res = Some (res ++ outs, err, left) /\ Accounts (rows (mr_md req)) outs err left.
Proof.
  revert req res. induction fuel as [|fuel IH]; intros req res Hf; [pose proof (len_nonneg (rows (mr_md req))); lia|].
  cbn [metricsSplitLoop]. destruct (metricsSize_md sz szt req) as (n & c & ->). cbn [mr_md mr_sizes].
  destruct (maxSize <? n).
  - destruct (extractMetrics_front sz (mr_md req) maxSize) as (md & rm & src & -> & E). case_match eqn:Ez; zbool.
    + eexists [], _, _. rewrite app_nil_r. split; [reflexivity|]. right. cbn [mr_md]. rewrite len_rows. split; [done|].
      rewrite <- E, (len_nil_inv (rows md)); [done|]. rewrite len_rows. lia.
    + destruct (metricsSize_md sz szt (mkMetricsRequest src c)) as (n2 & c2 & ->). cbn [mr_md mr_sizes].
      assert (0 < len (rows md)) by (pose proof (len_nonneg (rows md)); rewrite <- len_rows in Ez; lia).
      destruct (IH (mkMetricsRequest src (Update c2 szt (n2 - rm))) (res ++ [newMetricsRequest md])) as (outs & err & lft & -> & HA).
      { cbn [mr_md]. rewrite <- E, len_app in Hf. lia. }
      exists (newMetricsRequest md :: outs), err, lft. rewrite <- app_assoc. split; [done|]. cbn [mr_md] in HA.
      destruct HA as [ [-> Ho]|[-> Ho] ]; [left|right]; (split; [done|]); cbn [metricsOut flat_map newMetricsRequest mr_md]; fold (metricsOut outs).
      * by rewrite Ho.
      * by rewrite <- app_assoc, Ho.
  - eexists [_], None, _. split; [reflexivity|]. left. split; [done|]. cbn. by rewrite app_nil_r.
Qed.

Definition metricsIn (r1 : metricsRequest) (r2 : option metricsRequest) : list row := rows (mr_md r1) ++ from_option (fun r => rows (mr_md r)) [] r2.

(** The merged request. *)
Definition merged (sz : MetricsSizer) (szt : SizerType) (r1 : metricsRequest) (r2 : option metricsRequest) : metricsRequest :=
  from_option (fun r2 => metricsMergeTo sz szt r2 r1) r1 r2.

Lemma merged_md sz szt r1 r2 : mr_md (merged sz szt r1 r2) = mr_md r1 ++ from_option mr_md [] r2.
Proof.
  destruct r2 as [r2|]; cbn [merged from_option]; [|by rewrite app_nil_r]. unfold metricsMergeTo.
  destruct (metricsSize_md sz szt r1) as (n1 & c1 & ->), (metricsSize_md sz szt r2) as (n2 & c2 & ->). done.
Qed.

Lemma merged_rows sz szt r1 r2 : rows (mr_md (merged sz szt r1 r2)) = metricsIn r1 r2.
Proof. rewrite merged_md, rows_app. unfold metricsIn. by destruct r2. Qed.

Definition metricsSizerFor (szt : SizerType) : MetricsSizer := if decide (szt = SizerTypeItems) then MetricsCountSizer else MetricsBytesSizer.

Lemma metricsMergeSplit_split r1 r2 maxSize szt : szt = SizerTypeItems \/ szt = SizerTypeBytes ->
  metricsMergeSplit r1 maxSize szt (Some <$> r2) =
    let r := merged (metricsSizerFor szt) szt r1 r2 in
    if maxSize =? 0 then Some ([r], None, r) else metricsSplit (metricsSizerFor szt) szt maxSize r.
Proof. by intros [-> | ->]; destruct r2. Qed.

(** C3: [MergeSplit] of metric requests, with either sizer and whatever the size caches
    say, returns; the outputs hold the data points of the first request followed by those
    of the second, in order and each with its metric, scope and resource, and there is
    no error; or the error carries the number of data points after those of the outputs,
    all of which are still in the receiver. *)
Theorem metrics_MergeSplit_accounts r1 r2 maxSize szt : szt = SizerTypeItems \/ szt = SizerTypeBytes ->
  exists outs err left, metricsMergeSplit r1 maxSize szt (Some <$> r2) = Some (outs, err, left) /\ Accounts (metricsIn r1 r2) outs err left.
Proof.
  intros Hszt. rewrite metricsMergeSplit_split by done. cbv zeta. rewrite <- (merged_rows (metricsSizerFor szt) szt).
  set (r := merged _ _ _ _). destruct (maxSize =? 0).
  - eexists [_], None, _. split; [reflexivity|]. left. split; [done|]. cbn. by rewrite app_nil_r.
  - unfold metricsSplit. apply (metricsSplitLoop_accounts _ _ _ _ r []).
    rewrite len_rows. pose proof (len_nonneg (rows (mr_md r))). rewrite len_rows in *. lia.
Qed.

(** ** The items sizer: exact chunks, nothing lost *)
Section Items.
Local Abbreviation count := MetricsCountSizer.

(** A closure that takes as much of an element as there is room, and counts what it moves. *)
Definition Fills {E} (size : E -> Z) (step : Z * Z * list E -> E -> (Z * Z * list E) * E * bool) : Prop :=
  forall c r d x, 0 <= c < 2 ^ 63 -> size x < 2 ^ 63 -> exists d1 x' rm,
    step (c, r, d) x = ((c - Z.min c (size x), r + Z.min c (size x), d ++ d1), x', rm) /\ sumZ size d1 = Z.min c (size x).

Lemma removeIf_fills {E} (size : E -> Z) step l c r d : Fills size step -> (forall x, 0 <= size x) -> sumZ size l < 2 ^ 63 -> 0 <= c < 2 ^ 63 ->
  exists c' d1 l', removeIf step (c, r, d) l = ((c', r + Z.min c (sumZ size l), d ++ d1), l') /\ sumZ size d1 = Z.min c (sumZ size l).
Proof.
  intros Hstep Hnn. revert c r d. induction l as [|x l IH]; intros c r d Hl Hc; cbn [removeIf sumZ] in *.
  - exists c, [], []. rewrite Z.min_r, Z.add_0_r, app_nil_r by lia. done.
  - pose proof (Hnn x). assert (0 <= sumZ size l) by (apply sumZ_nonneg; auto).
    destruct (Hstep c r d x) as (d1 & x' & rm & -> & E1); [lia..|].
    destruct (IH (c - Z.min c (size x)) (r + Z.min c (size x)) (d ++ d1)) as (c2 & d2 & l2 & -> & E2); [lia..|].
    exists c2, (d1 ++ d2), (if rm then l2 else x' :: l2). rewrite <- app_assoc, sumZ_app, E1, E2. split; [|lia].
    do 3 f_equal. lia.
Qed.

Lemma pointStep_fills {P} : Fills (fun _ : P => 1) (pointStep count (fun _ => 1)).
Proof.
  intros c r d x Hc _. unfold pointStep. cbn [MDeltaSize count]. destruct (Z.eqb_spec c 0) as [->|?].
  - exists [], x, false. by rewrite !Z.add_0_r, app_nil_r.
  - destruct (Z.ltb_spec c 1); [lia|]. rewrite Z.min_r by lia. by exists [x], x, true.
Qed.

Lemma extractDataPoints_count {P} (src : list P) dm c : 0 <= c < 2 ^ 63 -> dataPointsLen dm = 0 -> len src < 2 ^ 63 ->
  exists dest rest, extractDataPoints count (fun _ : P => 1) src dm c = (dest, Z.min c (len src), rest) /\ len dest = Z.min c (len src).
Proof.
  intros Hc Hdm Hs. unfold extractDataPoints. cbn [MDeltaSize MetricSize count]. rewrite Hdm, sub_sub_cancel, Z.sub_0_r.
  assert (Hl : forall l : list P, sumZ (fun _ => 1) l = len l) by (intros l; rewrite sumZ_const; unfold len; lia).
  destruct (removeIf_fills (fun _ : P => 1) _ src c 0 [] pointStep_fills) as (c' & d' & l' & -> & E); [lia|by rewrite Hl|done|].
  rewrite !Hl in *. by exists d', l'.
Qed.

(** An extraction takes as much as there is room. *)
Definition Extracts {E} (size : E -> Z) (extract : E -> Z -> E * Z * E) : Prop :=
  forall x c, 0 <= c < 2 ^ 63 -> size x < 2 ^ 63 -> exists ext x', extract x c = (ext, Z.min c (size x), x') /\ size ext = Z.min c (size x).

Lemma extractMetricDataPoints_count : Extracts dataPointsLen (extractMetricDataPoints count).
Proof.
  intros m c Hc Hm. unfold extractMetricDataPoints, dataPointsLen in *. unfold extractGaugeDataPoints, extractSumDataPoints,
    extractHistogramDataPoints, extractExponentialHistogramDataPoints, extractSummaryDataPoints.
  destruct (Metric_Data m) as [|[x|]|[x|]|[x|]|[x|]|[x|] ]; try (rewrite Z.min_r by lia; by eexists _, _).
  all: cbn [NumberDataPointSize HistogramDataPointSize ExponentialHistogramDataPointSize SummaryDataPointSize count].
  all: match goal with |- context [extractDataPoints count ?p ?l ?dm ?c] =>
    destruct (extractDataPoints_count l dm c) as (dest & rest & -> & E); [done..|] end; by eexists _, _.
Qed.

Lemma levelStep_fills {E} (size children : E -> Z) extract : (forall x, 0 <= size x) -> (forall x, children x <= 0 -> size x = 0) ->
  Extracts size extract -> Fills size (levelStep count size extract children).
Proof.
  intros Hnn Hch Hext c r d x Hc Hx. unfold levelStep. cbn [MDeltaSize count]. specialize (Hnn x).
  destruct (Z.eqb_spec c 0) as [->|?]; [exists [], x, false; rewrite Z.min_l, !Z.add_0_r, app_nil_r by lia; done|].
  destruct (Z.ltb_spec c (size x)).
  - destruct (Hext x c Hc Hx) as (ext & x' & -> & Es). rewrite Z.min_l in * by lia. rewrite !Z.sub_diag, Z.add_0_r.
    eexists (if 0 <? children ext then [ext] else []), x', false. destruct (Z.ltb_spec 0 (children ext)) as [_|Hz].
    + split; [done|]. cbn. lia.
    + apply Hch in Hz. lia.
  - rewrite Z.min_r by lia. exists [x], x, true. split; [done|]. cbn. lia.
Qed.

Lemma scopeMetricsDPC_nonneg sm : 0 <= scopeMetricsDPC sm.
Proof. rewrite <- (len_scopeRows (mkRow Resource_zero [])). apply len_nonneg. Qed.

Lemma resourceMetricsDPC_nonneg rm : 0 <= resourceMetricsDPC rm.
Proof. rewrite <- len_resourceRows. apply len_nonneg. Qed.

Lemma extractScopeMetrics_count : Extracts scopeMetricsDPC (extractScopeMetrics count).
Proof.
  intros sm c Hc Hm. unfold extractScopeMetrics. cbn [MDeltaSize ScopeMetricsSize MetricSize count]. rewrite sub_sub_cancel.
  change (scopeMetricsDPC _) with 0 at 1. rewrite Z.sub_0_r.
  edestruct (removeIf_fills dataPointsLen) as (c' & d' & l' & -> & E); [|apply dataPointsLen_nonneg|exact Hm|exact Hc|by eexists _, _].
  apply levelStep_fills; [apply dataPointsLen_nonneg| |apply extractMetricDataPoints_count].
  intros m Hz. pose proof (dataPointsLen_nonneg m). lia.
Qed.

Lemma extractResourceMetrics_count : Extracts resourceMetricsDPC (extractResourceMetrics count).
Proof.
  intros rm c Hc Hm. unfold extractResourceMetrics. cbn [MDeltaSize ResourceMetricsSize ScopeMetricsSize count]. rewrite sub_sub_cancel.
  change (resourceMetricsDPC _) with 0 at 1. rewrite Z.sub_0_r.
  edestruct (removeIf_fills scopeMetricsDPC) as (c' & d' & l' & -> & E); [|apply scopeMetricsDPC_nonneg|exact Hm|exact Hc|by eexists _, _].
  apply levelStep_fills; [apply scopeMetricsDPC_nonneg| |apply extractScopeMetrics_count].
  intros sm Hz. unfold scopeMetricsDPC. by rewrite (len_nil_inv _ Hz).
Qed.

Lemma extractMetrics_count md c : 0 <= c < 2 ^ 63 -> DataPointCount md < 2 ^ 63 ->
  exists dest rest, extractMetrics count md c = (dest, Z.min c (DataPointCount md), rest) /\ DataPointCount dest = Z.min c (DataPointCount md).
Proof.
  intros Hc Hm. unfold extractMetrics. cbn [MetricsSize ResourceMetricsSize count]. change (DataPointCount []) with 0. rewrite Z.sub_0_r.
  edestruct (removeIf_fills resourceMetricsDPC) as (c' & d' & l' & -> & E); [|apply resourceMetricsDPC_nonneg|exact Hm|exact Hc|by eexists _, _].
  apply levelStep_fills; [apply resourceMetricsDPC_nonneg| |apply extractResourceMetrics_count].
  intros rm Hz. unfold resourceMetricsDPC. by rewrite (len_nil_inv _ Hz).
Qed.

(** The cached number of data points is right, or there is none. *)
Definition itemsOk (r : metricsRequest) : Prop := itemsSize (mr_sizes r) = uncachedSize \/ itemsSize (mr_sizes r) = DataPointCount (mr_md r).

Lemma metricsSize_items r : itemsOk r -> exists c, metricsSize count SizerTypeItems r = (DataPointCount (mr_md r), mkMetricsRequest (mr_md r) c) /\
  itemsSize c = DataPointCount (mr_md r).
Proof.
  unfold itemsOk, metricsSize, SizeOf. intros H. rewrite decide_True by done.
  destruct (Z.eqb_spec (itemsSize (mr_sizes r)) uncachedSize) as [E|E]; [by eexists|]. destruct H as [H|H]; [done|]. rewrite H. by eexists.
Qed.

Local Abbreviation sizes := (map (fun r => DataPointCount (mr_md r))).

Lemma metricsSplitLoop_items maxSize fuel r res : 1 <= maxSize < 2 ^ 63 -> itemsOk r -> 0 < DataPointCount (mr_md r) < 2 ^ 63 ->
  DataPointCount (mr_md r) < Z.of_nat fuel ->
  exists outs left, metricsSplitLoop count SizerTypeItems maxSize fuel r res = Some (res ++ outs, None, left) /\
    metricsOut outs = rows (mr_md r) /\ fullButLast maxSize (sizes outs).
Proof.
  intros Hm. revert r res. induction fuel as [|fuel IH]; intros r res Hr Hb Hf; [lia|]. cbn [metricsSplitLoop].
  destruct (metricsSize_items r Hr) as (c & -> & Hcache). cbn [mr_md mr_sizes]. destruct (Z.ltb_spec maxSize (DataPointCount (mr_md r))).
  - destruct (extractMetrics_count (mr_md r) maxSize) as (md & src & E & Hmd); [lia..|].
    destruct (extractMetrics_front count (mr_md r) maxSize) as (md' & n & src' & E' & Hrows). rewrite E in E'. simplify_eq.
    rewrite E. rewrite Z.min_l in * by lia. destruct (Z.eqb_spec (DataPointCount md') 0); [lia|].
    assert (Hsrc : DataPointCount src' = DataPointCount (mr_md r) - maxSize) by (rewrite <- !len_rows, <- Hrows, len_app, !len_rows in *; lia).
    unfold metricsSize at 1, SizeOf. cbn [mr_sizes mr_md decide]. rewrite decide_True by done. rewrite Hcache.
    destruct (Z.eqb_spec (DataPointCount (mr_md r)) uncachedSize) as [Eu|_]; [unfold uncachedSize in Eu; lia|]. cbn [mr_sizes mr_md]. rewrite Hcache.
    edestruct (IH (mkMetricsRequest src' (Update c SizerTypeItems (DataPointCount (mr_md r) - maxSize))) (res ++ [newMetricsRequest md']))
      as (outs & lft & -> & Ho & init & z & Hi & Hinit & Hz); cbn [mr_md]; [right; cbn [mr_md]; by rewrite Hsrc|lia..|].
    exists (newMetricsRequest md' :: outs), lft. rewrite <- app_assoc. split; [done|]. cbn [metricsOut flat_map newMetricsRequest mr_md map].
    fold (metricsOut outs). rewrite Ho, Hmd, Hi. split; [exact Hrows|].
    exists (maxSize :: init), z. split; [done|]. split; [by apply Forall_cons_2|done].
  - eexists [_], _. split; [reflexivity|]. cbn [metricsOut flat_map map mr_md]. rewrite app_nil_r. split; [done|].
    exists [], (DataPointCount (mr_md r)). split; [done|]. split; [by constructor|lia].
Qed.

Lemma merged_itemsOk r1 r2 : itemsOk r1 -> from_option itemsOk True r2 -> itemsOk (merged count SizerTypeItems r1 r2).
Proof.
  destruct r2 as [r2|]; cbn [merged from_option]; [|done]. intros H1 H2. unfold metricsMergeTo.
  destruct (metricsSize_items r1 H1) as (c1 & -> & _), (metricsSize_items r2 H2) as (c2 & -> & _). right. cbn. unfold DataPointCount. by rewrite sumZ_app.
Qed.

(** with the items sizer, [MergeSplit] of metric requests returns no error and loses
    nothing: the outputs are the data points of the first request followed by those of
    the second, and every output holds exactly [maxSize] data points except the last,
    which holds between 1 and [maxSize]. *)
Theorem metrics_MergeSplit_chunks r1 r2 maxSize : itemsOk r1 -> from_option itemsOk True r2 -> 0 < maxSize < 2 ^ 63 ->
  0 < len (metricsIn r1 r2) < 2 ^ 63 ->
  exists outs left, metricsMergeSplit r1 maxSize SizerTypeItems (Some <$> r2) = Some (outs, None, left) /\
    metricsOut outs = metricsIn r1 r2 /\ fullButLast maxSize (sizes outs).
Proof.
  intros H1 H2 Hm Hn. rewrite metricsMergeSplit_split by auto. cbv zeta. destruct (Z.eqb_spec maxSize 0); [lia|].
  change (metricsSizerFor SizerTypeItems) with count. rewrite <- (merged_rows count SizerTypeItems), len_rows in *.
  apply (metricsSplitLoop_items maxSize _ _ []); [lia|by apply merged_itemsOk|lia|lia].
Qed.
End Items.

(** ** Concrete requests *)
Definition samplePoint (t : nat) : NumberDataPoint := mkNumberDataPoint (NumberDataPoint_AsInt 1) [] [] 0 (Z.of_nat t) 0.
Definition sampleSum (n : nat) : Metric := mkMetric [103] [] [] (Metric_Sum (Some (mkSum (map samplePoint (seq 1 n)) 2 true))) [].
Definition sampleGauge (n : nat) : Metric := mkMetric [103] [] [] (Metric_Gauge (Some (mkGauge (map samplePoint (seq 1 n))))) [].
Definition sampleMetrics (ms : list Metric) : metricsRequest :=
  newMetricsRequest [mkResourceMetrics Resource_zero [mkScopeMetrics [] ms InstrumentationScope_zero] [] []].

Lemma metrics_MergeSplit_accounts_witness : exists outs left,
  metricsMergeSplit (sampleMetrics [sampleSum 3]) 50 SizerTypeBytes (Some <$> Some (sampleMetrics [sampleGauge 2])) = Some (outs, None, left) /\
  metricsOut outs = metricsIn (sampleMetrics [sampleSum 3]) (Some (sampleMetrics [sampleGauge 2])).
Proof.
  destruct (metrics_MergeSplit_accounts (sampleMetrics [sampleSum 3]) (Some (sampleMetrics [sampleGauge 2])) 50 SizerTypeBytes) as (outs & err & lft & E & HA).
  - by right.
  - assert (err = None) as -> by (clear HA; vm_compute in E; by injection E).
    exists outs, lft. split; [exact E|]. destruct HA as [ [_ H]|[H _] ]; [exact H|discriminate H].
Defined.

Lemma metrics_MergeSplit_chunks_witness : exists outs left,
  metricsMergeSplit (sampleMetrics [sampleSum 3]) 2 SizerTypeItems (Some <$> Some (sampleMetrics [sampleGauge 2])) = Some (outs, None, left) /\
  map (fun r => DataPointCount (mr_md r)) outs = [2; 2; 1] /\ fullButLast 2 (map (fun r => DataPointCount (mr_md r)) outs).
Proof.
  destruct (metrics_MergeSplit_chunks (sampleMetrics [sampleSum 3]) (Some (sampleMetrics [sampleGauge 2])) 2) as (outs & lft & E & _ & HF).
  - left. reflexivity.
  - left. reflexivity.
  - lia.
  - vm_compute. split; reflexivity.
  - exists outs, lft. split; [exact E|]. split; [|exact HF]. vm_compute in E. by injection E as <- _.
Defined.

(** The sizes in bytes and in data points of the outputs with the bytes sizer. *)
Definition splitBytes (maxSize : Z) (ms : list Metric) : option (list (Z * Z) * option error) :=
  '(outs, err, _) ← metricsMergeSplit (sampleMetrics ms) maxSize SizerTypeBytes None;
  Some (map (fun r => (MetricsSize MetricsBytesSizer (mr_md r), DataPointCount (mr_md r))) outs, err).

(** The room for the data points is computed with an empty container: neither the growth
    of its length prefix nor the temporality and monotonicity set afterwards are counted,
    so that outputs exceed the limit. *)
Theorem metrics_exceed_limit :
  splitBytes 158 [sampleGauge 20] = Some ([(159, 7); (159, 7); (137, 6)], None) /\
  splitBytes 75 [sampleSum 5] = Some ([(79, 3); (59, 2)], None).
Proof. split; vm_compute; reflexivity. Qed.

(** An element of which all data points were extracted stays in the source, and the last
    output is a request without data points. *)
Theorem metrics_empty_output : splitBytes 58 [sampleSum 4] = Some ([(59, 2); (59, 2); (19, 0)], None).
Proof. vm_compute. reflexivity. Qed.

(** A data point that does not fit takes everything after it with it. *)
Theorem metrics_drop_the_rest : splitBytes 30 [sampleSum 2; sampleGauge 1] = Some ([], Some (errOneDataPoint 3)) /\
  splitBytes 35 [sampleGauge 1] = Some ([(35, 1)], None).
Proof. split; vm_compute; reflexivity. Qed.
