(* ===== verification/BatchProcessor.v ===== *)
(** * Batch processor (processor/batchprocessor)

    The functions that cut a batch out of pending data (splitlogs.go, splittraces.go and
    splitmetrics.go), the batch of a signal, and the shard: a goroutine that collects
    items from a channel and sends batches on by size or by time (batch_processor.go).

    splitlogs.go and splittraces.go are the same code over the three-level structure of
    SignalSplit.  A function that moves elements out of its source returns the
    destination and the source as it is left. *)

From S2P Require Import Prelude RecordUpdate Errors Sizers SignalSplit ProtoWire ProtoWireProofs ProtoFields ProtoCommon ProtoMessage ProtoKinds ProtoIds ProtoResource ProtoMetrics MetricData.
Local Open Scope Z_scope.
Local Open Scope otel_scope.

(** ** splitlogs.go, splittraces.go *)
Section SplitLogs.
Context {Resource Scope Rec : Type}.
Local Abbreviation scopeData := (SignalSplit.ScopeData Scope Rec).
Local Abbreviation resourceData := (SignalSplit.ResourceData Resource Scope Rec).

(** The state of the closures: the number of records copied and the destination. *)
Definition copyRecord (size : Z) (st : Z * list Rec) (r : Rec) : (Z * list Rec) * Rec * bool :=
  let '(total, dest) := st in
  if total =? size then (st, r, false) else ((total + 1, dest ++ [r]), r, true).

Definition copyScope (size : Z) (st : Z * list scopeData) (srcIll : scopeData) : (Z * list scopeData) * scopeData * bool :=
  let '(total, dest) := st in
  if total =? size then (st, srcIll, false)
  else
    let srcIllLRC := len (sc_records srcIll) in
    if srcIllLRC + total <=? size then ((total + srcIllLRC, dest ++ [srcIll]), srcIll, true)
    else
      let '((total, recs), rest) := removeIf (copyRecord size) (total, []) (sc_records srcIll) in
      ((total, dest ++ [mkScope (sc_scope srcIll) (sc_schemaUrl srcIll) recs]), mkScope (sc_scope srcIll) (sc_schemaUrl srcIll) rest, false).

Definition resourceLRC (rs : resourceData) : Z := sumZ (fun s => len (sc_records s)) (rs_scopes rs).

Definition copyResource (size : Z) (st : Z * list resourceData) (srcRl : resourceData) : (Z * list resourceData) * resourceData * bool :=
  let '(total, dest) := st in
  if total =? size then (st, srcRl, false)
  else
    let srcRlLRC := resourceLRC srcRl in
    if total + srcRlLRC <=? size then ((total + srcRlLRC, dest ++ [srcRl]), srcRl, true)
    else
      let '((total, scopes), rest) := removeIf (copyScope size) (total, []) (rs_scopes srcRl) in
      ((total, dest ++ [SignalSplit.mkResource (rs_resource srcRl) (rs_schemaUrl srcRl) scopes []]),
       SignalSplit.mkResource (rs_resource srcRl) (rs_schemaUrl srcRl) rest (rs_deprecated srcRl), len rest =? 0).

(** The data cut out, and what is left in [src]. *)
Definition splitLogs (size : Z) (src : list resourceData) (logRecords : Z) : list resourceData * list resourceData :=
  if logRecords <=? size then (src, src)
  else let '((_, dest), rest) := removeIf (copyResource size) (0, []) src in (dest, rest).
End SplitLogs.

(** splittraces.go: a record is a span. *)
Definition splitTraces {Resource Scope Span} (size : Z) (src : list (SignalSplit.ResourceData Resource Scope Span)) (spans : Z) :=
  splitLogs size src spans.

(** ** splitmetrics.go *)

(** The four functions for slices of data points. *)
Definition copyPoint {P} (size : Z) (st : Z * list P) (dp : P) : (Z * list P) * P * bool :=
  let '(i, dst) := st in if i <? size then ((i + 1, dst ++ [dp]), dp, true) else (st, dp, false).

Definition splitDataPoints {P} (src : list P) (size : Z) : list P * list P :=
  let '((_, dst), rest) := removeIf (copyPoint size) (0, []) src in (dst, rest).

(** The destination, the number of data points moved, the source; the metric is never
    removed from its slice. *)
Definition splitMetric (ms : Metric) (size : Z) : Metric * Z * Metric :=
  let dest := mkMetric (Metric_Name ms) (Metric_Description ms) (Metric_Unit ms) Metric_noData [] in
  match Metric_Data ms with
  | Metric_Gauge (Some g) =>
      let '(dst, rest) := splitDataPoints (Gauge_DataPoints g) size in
      (dest <| Metric_Data := Metric_Gauge (Some (mkGauge dst)) |>, size, ms <| Metric_Data := Metric_Gauge (Some (g <| Gauge_DataPoints := rest |>)) |>)
  | Metric_Sum (Some s) =>
      let '(dst, rest) := splitDataPoints (Sum_DataPoints s) size in
      (dest <| Metric_Data := Metric_Sum (Some (mkSum dst (Sum_AggregationTemporality s) (Sum_IsMonotonic s))) |>, size,
       ms <| Metric_Data := Metric_Sum (Some (s <| Sum_DataPoints := rest |>)) |>)
  | Metric_Histogram (Some h) =>
      let '(dst, rest) := splitDataPoints (Histogram_DataPoints h) size in
      (dest <| Metric_Data := Metric_Histogram (Some (mkHistogram dst (Histogram_AggregationTemporality h))) |>, size,
       ms <| Metric_Data := Metric_Histogram (Some (h <| Histogram_DataPoints := rest |>)) |>)
  | Metric_ExponentialHistogram (Some h) =>
      let '(dst, rest) := splitDataPoints (ExponentialHistogram_DataPoints h) size in
      (dest <| Metric_Data := Metric_ExponentialHistogram (Some (mkExponentialHistogram dst (ExponentialHistogram_AggregationTemporality h))) |>, size,
       ms <| Metric_Data := Metric_ExponentialHistogram (Some (h <| ExponentialHistogram_DataPoints := rest |>)) |>)
  | Metric_Summary (Some s) =>
      let '(dst, rest) := splitDataPoints (Summary_DataPoints s) size in
      (dest <| Metric_Data := Metric_Summary (Some (mkSummary dst)) |>, size, ms <| Metric_Data := Metric_Summary (Some (s <| Summary_DataPoints := rest |>)) |>)
  | _ => (dest, size, ms)
  end.

Definition copyMetric (size : Z) (st : Z * list Metric) (srcMetric : Metric) : (Z * list Metric) * Metric * bool :=
  let '(total, dest) := st in
  if total =? size then (st, srcMetric, false)
  else
    let srcMetricPointCount := dataPointsLen srcMetric in
    if srcMetricPointCount + total <=? size then ((total + srcMetricPointCount, dest ++ [srcMetric]), srcMetric, true)
    else
      let '(d, copiedDataPoints, srcMetric) := splitMetric srcMetric (size - total) in
      ((total + copiedDataPoints, dest ++ [d]), srcMetric, false).

Definition copyScopeMetrics (size : Z) (st : Z * list ScopeMetrics) (srcIlm : ScopeMetrics) : (Z * list ScopeMetrics) * ScopeMetrics * bool :=
  let '(total, dest) := st in
  if total =? size then (st, srcIlm, false)
  else
    let srcIlmDataPointCount := scopeMetricsDPC srcIlm in
    if srcIlmDataPointCount + total <=? size then ((total + srcIlmDataPointCount, dest ++ [srcIlm]), srcIlm, true)
    else
      let '((total, metrics), rest) := removeIf (copyMetric size) (total, []) (ScopeMetrics_Metrics srcIlm) in
      ((total, dest ++ [mkScopeMetrics (ScopeMetrics_SchemaUrl srcIlm) metrics (ScopeMetrics_Scope srcIlm)]),
       srcIlm <| ScopeMetrics_Metrics := rest |>, false).

Definition copyResourceMetrics (size : Z) (st : Z * list ResourceMetrics) (srcRs : ResourceMetrics) : (Z * list ResourceMetrics) * ResourceMetrics * bool :=
  let '(total, dest) := st in
  if total =? size then (st, srcRs, false)
  else
    let srcRsDataPointCount := resourceMetricsDPC srcRs in
    if total + srcRsDataPointCount <=? size then ((total + srcRsDataPointCount, dest ++ [srcRs]), srcRs, true)
    else
      let '((total, scopes), rest) := removeIf (copyScopeMetrics size) (total, []) (ResourceMetrics_ScopeMetrics srcRs) in
      ((total, dest ++ [mkResourceMetrics (ResourceMetrics_Resource srcRs) scopes (ResourceMetrics_SchemaUrl srcRs) []]),
       srcRs <| ResourceMetrics_ScopeMetrics := rest |>, len rest =? 0).

Definition splitMetrics (size : Z) (src : Metrics) (dataPoints : Z) : Metrics * Metrics :=
  if dataPoints <=? size then (src, src)
  else let '((_, dest), rest) := removeIf (copyResourceMetrics size) (0, []) src in (dest, rest).

(** ** The batch of a signal

    What the shards ask of a signal; [sig_rows] is for the theorems. *)
Class Signal (T Row : Type) := {
  sig_new : T;
  sig_count : T -> Z;
  sig_append : T -> T -> T;
  sig_split : Z -> T -> Z -> T * T;
  sig_rows : T -> list Row;
}.

Class SignalLaws (T Row : Type) `{Signal T Row} : Prop := {
  sig_rows_new : sig_rows sig_new = [];
  sig_count_rows x : sig_count x = len (sig_rows x);
  sig_rows_append x y : sig_rows (sig_append x y) = sig_rows x ++ sig_rows y;
  sig_rows_split size x : 0 < size < sig_count x ->
    let '(dest, rest) := sig_split size x (sig_count x) in
    sig_rows dest = take (Z.to_nat size) (sig_rows x) /\ sig_rows rest = drop (Z.to_nat size) (sig_rows x);
}.

(** batchLogs, batchTraces and batchMetrics: the counts are those of pdata, adding is
    [MoveAndAppendTo].  The part of a metric that is split off loses its metadata, so the
    rows of metrics are compared without. *)
#[export] Instance logs_signal {Resource Scope Rec} : Signal (SignalSplit.Data Resource Scope Rec) (Resource * string * (Scope * string * Rec)) := {|
  sig_new := [];
  sig_count := SignalSplit.recordCount;
  sig_append dest src := dest ++ src;
  sig_split := splitLogs;
  sig_rows := SignalSplit.dataRows;
|}.

Definition traces_signal {Resource Scope Span} : Signal (SignalSplit.Data Resource Scope Span) (Resource * string * (Scope * string * Span)) := {|
  sig_new := [];
  sig_count := SignalSplit.recordCount;
  sig_append dest src := dest ++ src;
  sig_split := splitTraces;
  sig_rows := SignalSplit.dataRows;
|}.

Definition bareHead (h : head) : head := mkHead (h_name h) (h_description h) (h_unit h) [] (h_kind h).
Definition bareRow (r : row) : row := mkRow (r_resource r) (r_resourceUrl r) (r_scope r) (r_scopeUrl r) (bareHead (r_head r)) (r_point r).

#[export] Instance metrics_signal : Signal Metrics row := {|
  sig_new := [];
  sig_count := DataPointCount;
  sig_append dest src := dest ++ src;
  sig_split := splitMetrics;
  sig_rows md := map bareRow (rows md);
|}.

Section Shard.
Context {T Row : Type} `{Signal T Row}.

(** batchTraces, batchMetrics and batchLogs. *)
Record batch := mkBatch { b_data : T; b_count : Z }.

Definition newBatch : batch := mkBatch sig_new 0.

Definition add (td : T) (bt : batch) : batch :=
  let newSpanCount := sig_count td in
  if newSpanCount =? 0 then bt else mkBatch (sig_append (b_data bt) td) (b_count bt + newSpanCount).

(** The number of items sent, the data sent, and the batch as it is left. *)
Definition batch_split (sendBatchMaxSize : Z) (bt : batch) : Z * T * batch :=
  if (0 <? sendBatchMaxSize) && (sendBatchMaxSize <? b_count bt) then
    let '(td, rest) := sig_split sendBatchMaxSize (b_data bt) (b_count bt) in
    (sendBatchMaxSize, td, mkBatch rest (b_count bt - sendBatchMaxSize))
  else (b_count bt, b_data bt, newBatch).

(** ** Configuration (config.go) *)
Record Config := mkConfig {
  Timeout : Z;
  SendBatchSize : Z;
  SendBatchMaxSize : Z;
  MetadataKeys : list string;
  MetadataCardinalityLimit : Z;
}.

(** [strings.ToLower] is an argument. *)
Fixpoint duplicateKeys (ToLower : string -> string) (uniq : list string) (ks : list string) : option error :=
  match ks with
  | [] => None
  | k :: ks =>
      let l := ToLower k in
      if decide (l ∈ uniq) then Some (Errorf "duplicate entry in metadata_keys: %q (case-insensitive)" [ArgS l])
      else duplicateKeys ToLower (l :: uniq) ks
  end.

Definition Config_Validate (ToLower : string -> string) (cfg : Config) : option error :=
  if (0 <? SendBatchMaxSize cfg) && (SendBatchMaxSize cfg <? SendBatchSize cfg) then
    Some (New "send_batch_max_size must be greater or equal to send_batch_size")
  else match duplicateKeys ToLower [] (MetadataKeys cfg) with
  | Some e => Some e
  | None => if Timeout cfg <? 0 then Some (New "timeout must be greater or equal to 0") else None
  end.

(** ** shard (batch_processor.go)

    What the goroutine of a shard owns: the batch, and what it has exported so far, each
    with its trigger and the number of items reported.  A failed export is logged only. *)
Inductive trigger := triggerTimeout | triggerBatchSize.

Record shard := mkShard {
  sh_batch : batch;
  sh_exported : list (trigger * Z * T);
}.

Definition hasTimer (cfg : Config) : bool := negb (Timeout cfg =? 0) && negb (SendBatchSize cfg =? 0).

Definition sendItems (cfg : Config) (t : trigger) (b : shard) : shard :=
  let '(sent, req, bt) := batch_split (SendBatchMaxSize cfg) (sh_batch b) in
  mkShard bt (sh_exported b ++ [(t, sent, req)]).

(** The loop of [processItem]; [None] is reached only without fuel. *)
Fixpoint sendFull (cfg : Config) (fuel : nat) (b : shard) : option shard :=
  match fuel with
  | O => None
  | S fuel =>
      let n := b_count (sh_batch b) in
      if (0 <? n) && (negb (hasTimer cfg) || (SendBatchSize cfg <=? n)) then sendFull cfg fuel (sendItems cfg triggerBatchSize b)
      else Some b
  end.

(** Stopping and resetting the timer afterwards changes when it fires next, which is up
    to the environment here. *)
Definition processItem (cfg : Config) (item : T) (b : shard) : option shard :=
  let b := mkShard (add item (sh_batch b)) (sh_exported b) in
  sendFull cfg (S (Z.to_nat (b_count (sh_batch b)))) b.

(** What the timer and the shutdown do. *)
Definition flush (cfg : Config) (b : shard) : shard := if 0 <? b_count (sh_batch b) then sendItems cfg triggerTimeout b else b.

(** ** startLoop

    The goroutine selects between the shutdown, the channel and the timer; after the
    shutdown it empties the channel, sends what is left and returns. *)
Inductive phase := Running | Draining | Stopped.

Record loop := mkLoop {
  lp_shard : shard;
  lp_newItem : list T;
  lp_closed : bool;
  lp_phase : phase;
}.

Definition start : loop := mkLoop (mkShard newBatch []) [] false Running.

(** [cap] is the capacity of the channel, the number of processors. *)
Inductive loop_step (cfg : Config) (cap : nat) : loop -> option T -> loop -> Prop :=
  | step_consume sh q cl ph item : (length q < cap)%nat ->
      loop_step cfg cap (mkLoop sh q cl ph) (Some item) (mkLoop sh (q ++ [item]) cl ph)
  | step_receive sh sh' item q cl : processItem cfg item sh = Some sh' ->
      loop_step cfg cap (mkLoop sh (item :: q) cl Running) None (mkLoop sh' q cl Running)
  | step_timer sh q cl : hasTimer cfg = true ->
      loop_step cfg cap (mkLoop sh q cl Running) None (mkLoop (flush cfg sh) q cl Running)
  | step_close sh q ph :
      loop_step cfg cap (mkLoop sh q false ph) None (mkLoop sh q true ph)
  | step_shutdown sh q :
      loop_step cfg cap (mkLoop sh q true Running) None (mkLoop sh q true Draining)
  | step_drain sh sh' item q cl : processItem cfg item sh = Some sh' ->
      loop_step cfg cap (mkLoop sh (item :: q) cl Draining) None (mkLoop sh' q cl Draining)
  | step_done sh cl :
      loop_step cfg cap (mkLoop sh [] cl Draining) None (mkLoop (flush cfg sh) [] cl Stopped).

(** Executions, with the items accepted in order. *)
Inductive loop_run (cfg : Config) (cap : nat) : list T -> loop -> Prop :=
  | run_start : loop_run cfg cap [] start
  | run_step items l item l' : loop_run cfg cap items l -> loop_step cfg cap l item l' -> loop_run cfg cap (items ++ option_list item) l'.
End Shard.

(** ** multiShardBatcher

    One shard per combination of metadata values.  The keys are sorted and distinct, so
    the set built from the attributes is the list of them. *)
Inductive attribute :=
  | AttrString (k v : string)
  | AttrStringSlice (k : string) (vs : list string).

#[export] Instance attribute_eq_dec : EqDecision attribute.
Proof. solve_decision. Defined.

Definition attr (k : string) (vs : list string) : attribute :=
  match vs with [v] => AttrString k v | _ => AttrStringSlice k vs end.

Definition attrs (metadataKeys : list string) (Get : string -> list string) : list attribute := map (fun k => attr k (Get k)) metadataKeys.

(** The map of shards by its keys, in the order they were stored. *)
Record multiShard := mkMultiShard { mb_batchers : list (list attribute); mb_size : Z }.

(** Where a call of [consume] is: before the lookup, before taking the lock, sending to a
    shard, or refused. *)
Inductive consumer_pc :=
  | AtLoad (aset : list attribute)
  | AtLock (aset : list attribute)
  | AtSend (aset : list attribute)
  | Refused (aset : list attribute) (err : error).

Definition errTooManyBatchers : error := NewPermanent (New "too many batcher metadata-value combinations").

Definition consumeLoad (aset : list attribute) (mb : multiShard) : consumer_pc :=
  if decide (aset ∈ mb_batchers mb) then AtSend aset else AtLock aset.

(** What runs under [mb.lock]. *)
Definition consumeLocked (metadataLimit : Z) (aset : list attribute) (mb : multiShard) : consumer_pc * multiShard :=
  if negb (metadataLimit =? 0) && (metadataLimit <=? mb_size mb) then (Refused aset errTooManyBatchers, mb)
  else if decide (aset ∈ mb_batchers mb) then (AtSend aset, mb)
  else (AtSend aset, mkMultiShard (mb_batchers mb ++ [aset]) (mb_size mb + 1)).

Inductive multi_step (metadataLimit : Z) : multiShard * list consumer_pc -> multiShard * list consumer_pc -> Prop :=
  | multi_call mb pcs aset : multi_step metadataLimit (mb, pcs) (mb, pcs ++ [AtLoad aset])
  | multi_load mb pcs i aset : pcs !! i = Some (AtLoad aset) ->
      multi_step metadataLimit (mb, pcs) (mb, <[i := consumeLoad aset mb]> pcs)
  | multi_lock mb pcs i aset pc mb' : pcs !! i = Some (AtLock aset) -> consumeLocked metadataLimit aset mb = (pc, mb') ->
      multi_step metadataLimit (mb, pcs) (mb', <[i := pc]> pcs).
