(* ===== verification/BatchProcessorProofs.v ===== *)
(** * What the batch processor guarantees

    Cutting a batch out of pending data takes exactly the first items and leaves the
    others, for logs, traces and metrics; a shard hands every item on once, in order and
    within the maximum size, and a shutdown loses nothing. *)

From S2P Require Import Prelude RecordUpdate Errors Sizers SignalSplit ProtoWire ProtoWireProofs ProtoFields ProtoCommon ProtoMessage ProtoKinds ProtoIds ProtoResource ProtoMetrics MetricData BatchProcessor.
Local Open Scope Z_scope.
Local Open Scope otel_scope.

(** ** Closures that copy up to a number of rows *)
Section Copies.
Context {E Row : Type} (rowsOf : E -> list Row) (size : Z).

(** With [total] rows copied, the closure copies rows of the element until there are
    [size] and leaves the others. *)
Definition Copies (step : Z * list E -> E -> (Z * list E) * E * bool) : Prop :=
  forall total d x, 0 <= total <= size -> exists d1 x' rm,
    step (total, d) x = ((Z.min size (total + len (rowsOf x)), d ++ d1), x', rm) /\
    flat_map rowsOf d1 = take (Z.to_nat (size - total)) (rowsOf x) /\
    (if rm then [] else rowsOf x') = drop (Z.to_nat (size - total)) (rowsOf x).

Lemma removeIf_copies step l total d : Copies step -> 0 <= total <= size -> exists d1 l',
  removeIf step (total, d) l = ((Z.min size (total + len (flat_map rowsOf l)), d ++ d1), l') /\
  flat_map rowsOf d1 = take (Z.to_nat (size - total)) (flat_map rowsOf l) /\
  flat_map rowsOf l' = drop (Z.to_nat (size - total)) (flat_map rowsOf l).
Proof.
  intros Hstep. revert total d. induction l as [|x l IH]; intros total d Ht; cbn [removeIf flat_map].
  - exists [], []. change (len []) with 0. rewrite Z.add_0_r, Z.min_r, app_nil_r, take_nil, drop_nil by lia. done.
  - destruct (Hstep total d x Ht) as (d1 & x' & rm & -> & Hd & Hx). pose proof (len_nonneg (rowsOf x)).
    destruct (IH (Z.min size (total + len (rowsOf x))) (d ++ d1)) as (d2 & l' & -> & Hd2 & Hl'); [lia|].
    exists (d1 ++ d2), (if rm then l' else x' :: l'). rewrite len_app, <- app_assoc, flat_map_app, Hd, Hd2, take_app, drop_app.
    assert (El : (Z.to_nat (size - total) - length (rowsOf x))%nat = Z.to_nat (size - Z.min size (total + len (rowsOf x)))) by (unfold len in *; lia).
    rewrite El. split_and!; [|done|].
    + pose proof (len_nonneg (flat_map rowsOf l)).
      by replace (Z.min size (Z.min size (total + len (rowsOf x)) + len (flat_map rowsOf l))) with (Z.min size (total + (len (rowsOf x) + len (flat_map rowsOf l)))) by lia.
    + rewrite <- Hx, <- Hl'. by destruct rm.
Qed.

(** The closure of every level but the last: an element that fits is moved whole, of
    another one a part is taken. *)
Lemma level_copies step (part : Z -> list E -> E -> (Z * list E) * E * bool) :
  (forall total d x, step (total, d) x =
     if total =? size then ((total, d), x, false)
     else if total + len (rowsOf x) <=? size then ((total + len (rowsOf x), d ++ [x]), x, true) else part total d x) ->
  (forall total d x, 0 <= total < size -> size < total + len (rowsOf x) -> exists e x' rm, part total d x = ((size, d ++ [e]), x', rm) /\
     rowsOf e = take (Z.to_nat (size - total)) (rowsOf x) /\ (if rm then [] else rowsOf x') = drop (Z.to_nat (size - total)) (rowsOf x)) ->
  Copies step.
Proof.
  intros Hstep Hpart total d x Ht. pose proof (len_nonneg (rowsOf x)) as Hnn. rewrite Hstep.
  destruct (Z.eqb_spec total size) as [->|?].
  - exists [], x, false. rewrite Z.min_l, app_nil_r, Z.sub_diag by lia. done.
  - destruct (Z.leb_spec (total + len (rowsOf x)) size).
    + exists [x], x, true. cbn [flat_map]. rewrite app_nil_r, Z.min_r, take_ge, drop_ge by (unfold len in *; lia). done.
    + destruct (Hpart total d x) as (e & x' & rm & -> & He & Hx); [lia..|]. exists [e], x', rm. cbn [flat_map]. rewrite app_nil_r, Z.min_l by lia. done.
Qed.
End Copies.

(** Taking a part of an element: the closure of the level below runs over its children. *)
Lemma part_copies {C Row} (below : C -> list Row) size step total children :
  Copies below size step -> 0 <= total < size -> size < total + len (flat_map below children) -> exists d l,
  removeIf step (total, []) children = ((size, d), l) /\
  flat_map below d = take (Z.to_nat (size - total)) (flat_map below children) /\
  flat_map below l = drop (Z.to_nat (size - total)) (flat_map below children).
Proof.
  intros Hstep Ht Hbig. destruct (removeIf_copies below size step children total [] Hstep) as (d & l & E1 & E2 & E3); [lia|].
  exists d, l. rewrite Z.min_l in E1 by lia. done.
Qed.

Lemma len_zero_inv {A} (l : list A) : len l = 0 -> l = [].
Proof. unfold len. destruct l; [done|cbn; lia]. Qed.

(** ** Logs and traces *)
Section Logs.
Context {Resource Scope Rec : Type}.

Lemma copyRecord_copies size : Copies (fun r : Rec => [r]) size (copyRecord size).
Proof.
  apply (level_copies _ _ _ (fun total d x => ((total + 1, d ++ [x]), x, true))).
  - intros total d x. cbn. change (len [x]) with 1. by repeat case_match.
  - intros total d x ?. change (len [x]) with 1. lia.
Qed.

Lemma copyScope_copies size : Copies SignalSplit.scopeRows size (copyScope (Scope:=Scope) (Rec:=Rec) size).
Proof.
  eapply level_copies; intros total d s; unfold copyScope, SignalSplit.scopeRows; rewrite len_map.
  - rewrite (Z.add_comm (len _) total). reflexivity.
  - intros Ht Hbig. rewrite <- (flat_map_single (sc_records s)) in Hbig.
    destruct (part_copies _ size _ total (sc_records s) (copyRecord_copies size) Ht Hbig) as (d1 & l & E1 & E2 & E3).
    rewrite !flat_map_single in E2, E3. rewrite E1. eexists _, _, false. split; [reflexivity|]. cbn. by rewrite E2, E3, firstn_map, skipn_map.
Qed.

Lemma len_resourceRows_count (r : SignalSplit.ResourceData Resource Scope Rec) : len (SignalSplit.resourceRows r) = resourceLRC r.
Proof.
  unfold SignalSplit.resourceRows, resourceLRC. rewrite len_map, len_flat_map. apply sumZ_ext. intros s _. unfold SignalSplit.scopeRows. by rewrite len_map.
Qed.

Lemma copyResource_copies size : Copies SignalSplit.resourceRows size (copyResource (Resource:=Resource) (Scope:=Scope) (Rec:=Rec) size).
Proof.
  eapply level_copies; intros total d r; unfold copyResource.
  - rewrite len_resourceRows_count. reflexivity.
  - intros Ht Hbig. unfold SignalSplit.resourceRows in Hbig. rewrite len_map in Hbig.
    destruct (part_copies _ size _ total (rs_scopes r) (copyScope_copies size) Ht Hbig) as (d1 & l & E1 & E2 & E3).
    rewrite E1. eexists _, _, _. split; [reflexivity|]. unfold SignalSplit.resourceRows. cbn. rewrite E2, firstn_map, skipn_map, <- E3. split; [done|].
    destruct (Z.eqb_spec (len l) 0) as [->%len_zero_inv|]; done.
Qed.

Lemma splitLogs_rows size (src : SignalSplit.Data Resource Scope Rec) : 0 < size < SignalSplit.recordCount src ->
  let '(dest, rest) := splitLogs size src (SignalSplit.recordCount src) in
  SignalSplit.dataRows dest = take (Z.to_nat size) (SignalSplit.dataRows src) /\
  SignalSplit.dataRows rest = drop (Z.to_nat size) (SignalSplit.dataRows src).
Proof.
  intros [Hpos Hlt]. unfold splitLogs. rewrite (proj2 (Z.leb_gt _ _)) by done.
  destruct (removeIf_copies _ size _ src 0 [] (copyResource_copies size)) as (d & l & -> & E1 & E2); [lia|].
  by rewrite Z.sub_0_r in E1, E2.
Qed.

Lemma dataCount_rows (d : SignalSplit.Data Resource Scope Rec) : SignalSplit.recordCount d = len (SignalSplit.dataRows d).
Proof. unfold SignalSplit.recordCount, SignalSplit.dataRows. rewrite len_flat_map. apply sumZ_ext. intros r _. by rewrite len_resourceRows_count. Qed.
End Logs.

#[export] Instance logs_laws {Resource Scope Rec} : SignalLaws (SignalSplit.Data Resource Scope Rec) _.
Proof.
  split; cbn; [done|apply dataCount_rows|intros; apply flat_map_app|intros size x; apply splitLogs_rows].
Qed.

Lemma traces_laws {Resource Scope Span} : @SignalLaws (SignalSplit.Data Resource Scope Span) _ traces_signal.
Proof. exact logs_laws. Qed.

(** ** Metrics *)
Section MetricsLevels.
Context (size : Z).

Lemma copyPoint_copies {P} n : Copies (fun p : P => [p]) n (copyPoint n).
Proof.
  intros total d x Ht. unfold copyPoint. change (len [x]) with 1. destruct (Z.ltb_spec total n).
  - exists [x], x, true. rewrite Z.min_r, take_ge, drop_ge by (cbn; lia). done.
  - exists [], x, false. assert (total = n) as -> by lia. rewrite Z.min_l, app_nil_r, Z.sub_diag by lia. done.
Qed.

Lemma splitDataPoints_spec {P} (src : list P) n : 0 <= n -> splitDataPoints src n = (take (Z.to_nat n) src, drop (Z.to_nat n) src).
Proof.
  intros Hn. unfold splitDataPoints. destruct (removeIf_copies _ n _ src 0 [] (copyPoint_copies n)) as (d & l & -> & E1 & E2); [lia|].
  rewrite !flat_map_single, Z.sub_0_r in E1, E2. by rewrite <- E1, <- E2.
Qed.

(** The first data points move, under the name, description, unit and kind of the metric. *)
Lemma splitMetric_points m n : 0 <= n -> exists dest m', splitMetric m n = (dest, n, m') /\
  metricHead dest = bareHead (metricHead m) /\ metricHead m' = metricHead m /\
  metricPoints dest = take (Z.to_nat n) (metricPoints m) /\ metricPoints m' = drop (Z.to_nat n) (metricPoints m).
Proof.
  intros Hn. destruct m as [nm ds un dat md]. unfold splitMetric. cbn [Metric_Data Metric_Name Metric_Description Metric_Unit].
  destruct dat as [|[x|]|[x|]|[x|]|[x|]|[x|] ]; rewrite ?splitDataPoints_spec by done.
  all: eexists _, _; split; [reflexivity|]; split; [done|]; split; [done|]; cbn; rewrite ?firstn_map, ?skipn_map, ?take_nil, ?drop_nil; done.
Qed.

Context (res : Resource) (url : list Z).

Lemma copyMetric_copies sc scUrl :
  Copies (fun m => map bareRow (metricRows (mkRow res url sc scUrl) m)) size (copyMetric size).
Proof.
  eapply level_copies; intros total d m; unfold copyMetric; rewrite len_map, len_metricRows.
  - rewrite (Z.add_comm (dataPointsLen _) total). reflexivity.
  - intros Ht Hbig. destruct (splitMetric_points m (size - total)) as (dest & m' & -> & H1 & H2 & H3 & H4); [lia|].
    eexists _, _, false. split; [by rewrite Zplus_minus|]. unfold metricRows. by rewrite H1, H2, H3, H4, !map_map, firstn_map, skipn_map.
Qed.

Lemma copyScopeMetrics_copies : Copies (fun sm => map bareRow (MetricData.scopeRows (mkRow res url) sm)) size (copyScopeMetrics size).
Proof.
  eapply level_copies; intros total d sm; unfold copyScopeMetrics.
  - rewrite len_map, len_scopeRows, (Z.add_comm (scopeMetricsDPC _) total). reflexivity.
  - intros Ht Hbig. unfold MetricData.scopeRows in *. rewrite map_flat_map in *.
    destruct (part_copies _ size _ total _ (copyMetric_copies _ _) Ht Hbig) as (d1 & l & E1 & E2 & E3).
    rewrite E1. eexists _, _, false. split; [reflexivity|]. cbn. by rewrite !map_flat_map, E2, E3.
Qed.
End MetricsLevels.

Lemma copyResourceMetrics_copies size : Copies (fun rm => map bareRow (MetricData.resourceRows rm)) size (copyResourceMetrics size).
Proof.
  eapply level_copies; intros total d rm; unfold copyResourceMetrics.
  - rewrite len_map, len_resourceRows. reflexivity.
  - intros Ht Hbig. unfold MetricData.resourceRows in *. rewrite map_flat_map in *.
    destruct (part_copies _ size _ total _ (copyScopeMetrics_copies size _ _) Ht Hbig) as (d1 & l & E1 & E2 & E3).
    rewrite E1. eexists _, _, _. split; [reflexivity|]. cbn. rewrite !map_flat_map, E2, <- E3. split; [done|].
    destruct (Z.eqb_spec (len l) 0) as [->%len_zero_inv|]; done.
Qed.

#[export] Instance metrics_laws : SignalLaws Metrics row.
Proof.
  split; cbn.
  - done.
  - intros md. by rewrite len_map, len_rows.
  - intros x y. by rewrite rows_app, map_app.
  - intros size x [Hpos Hlt]. unfold splitMetrics, rows. rewrite (proj2 (Z.leb_gt _ _)), !map_flat_map by done.
    destruct (removeIf_copies _ size _ x 0 [] (copyResourceMetrics_copies size)) as (d & l & -> & E1 & E2); [lia|].
    rewrite Z.sub_0_r in E1, E2. by rewrite !map_flat_map.
Qed.

(** ** Configuration *)
Lemma duplicateKeys_none ToLower uniq ks :
  duplicateKeys ToLower uniq ks = None <-> NoDup (map ToLower ks) /\ Forall (fun k => ToLower k ∉ uniq) ks.
Proof.
  revert uniq. induction ks as [|k ks IH]; intros uniq; cbn [duplicateKeys map].
  - split; [|done]. intros _. split; [apply NoDup_nil_2|done].
  - rewrite NoDup_cons, Forall_cons. case_decide as Hk; [naive_solver|]. rewrite IH. clear IH.
    rewrite list_elem_of_fmap, !Forall_forall. set_solver.
Qed.

Lemma Config_Validate_none ToLower cfg : Config_Validate ToLower cfg = None <->
  (0 < SendBatchMaxSize cfg -> SendBatchSize cfg <= SendBatchMaxSize cfg) /\ NoDup (map ToLower (MetadataKeys cfg)) /\ 0 <= Timeout cfg.
Proof.
  unfold Config_Validate. pose proof (duplicateKeys_none ToLower [] (MetadataKeys cfg)) as Hd.
  assert (HF : Forall (fun k => ToLower k ∉ []) (MetadataKeys cfg)) by (rewrite Forall_forall; set_solver).
  case_match eqn:E; zbool; [split; [done|lia]|]. destruct (duplicateKeys _ _ _); [split; [done|]|].
  - intros (_ & HN & _). by assert (Some e = None) by tauto.
  - case_match; zbool; split; try done; try lia. intros _. split; [lia|]. split; [tauto|lia].
Qed.

(** ** Shards *)
Section ShardProofs.
Context {T Row : Type} `{SignalLaws T Row}.
Implicit Types (b : shard (T := T)) (bt : batch (T := T)).

Definition batchRows bt : list Row := sig_rows (b_data bt).
Definition exportedRows b : list Row := flat_map (fun '(_, _, req) => sig_rows req) (sh_exported b).

(** The count a batch keeps is the number of its items. *)
Definition Counted bt : Prop := b_count bt = len (batchRows bt).

Lemma newBatch_rows : batchRows newBatch = [].
Proof. apply sig_rows_new. Qed.

Lemma add_spec item bt : Counted bt -> Counted (add item bt) /\ batchRows (add item bt) = batchRows bt ++ sig_rows item.
Proof.
  unfold Counted, add, batchRows. rewrite sig_count_rows. intros Hb. case_match eqn:E; zbool; cbn.
  - rewrite (len_zero_inv (sig_rows item)), app_nil_r by done. done.
  - rewrite sig_rows_append, len_app, Hb. done.
Qed.

Lemma batch_split_spec max bt : Counted bt -> exists req bt', let n := if (0 <? max) && (max <? b_count bt) then max else b_count bt in
  batch_split max bt = (n, req, bt') /\ Counted bt' /\ n = len (sig_rows req) /\ sig_rows req ++ batchRows bt' = batchRows bt /\
  b_count bt' = b_count bt - n.
Proof.
  intros Hb. unfold batch_split. case_match eqn:E; zbool.
  - assert (Hc : b_count bt = sig_count (b_data bt)) by (rewrite sig_count_rows; apply Hb).
    pose proof (sig_rows_split max (b_data bt)) as Hs. rewrite <- Hc in Hs. destruct (sig_split _ _ _) as [req rest].
    destruct Hs as [Hreq Hrest]; [lia|]. unfold Counted, batchRows in *. eexists _, _. split; [reflexivity|]. cbn [b_count b_data].
    rewrite Hreq, Hrest, take_drop. unfold len in *. rewrite length_drop, length_take. split_and!; try done; lia.
  - eexists _, _. split; [reflexivity|]. unfold Counted. rewrite newBatch_rows, app_nil_r. split_and!; [done|done|done|cbn; lia].
Qed.

Context (cfg : Config).

(** What an export looks like: by size it holds at least [SendBatchSize] items, by time
    or by the shutdown fewer. *)
Definition ExportOk (e : trigger * Z * T) : Prop :=
  let '(t, n, req) := e in
  n = len (sig_rows req) /\ 0 < n /\ (0 < SendBatchMaxSize cfg -> n <= SendBatchMaxSize cfg) /\
  match t with
  | triggerBatchSize => hasTimer cfg = true -> SendBatchSize cfg <= n
  | triggerTimeout => hasTimer cfg = true /\ n < SendBatchSize cfg
  end.

Definition ShardOk b : Prop := Counted (sh_batch b) /\ Forall ExportOk (sh_exported b).

(** Nothing is pending that should have been sent. *)
Definition Settled b : Prop := b_count (sh_batch b) = 0 \/ (hasTimer cfg = true /\ b_count (sh_batch b) < SendBatchSize cfg).

Context (HMax : 0 < SendBatchMaxSize cfg -> SendBatchSize cfg <= SendBatchMaxSize cfg).

Lemma sendItems_spec t b : ShardOk b -> 0 < b_count (sh_batch b) ->
  match t with triggerBatchSize => hasTimer cfg = true -> SendBatchSize cfg <= b_count (sh_batch b)
             | triggerTimeout => hasTimer cfg = true /\ b_count (sh_batch b) < SendBatchSize cfg end ->
  ShardOk (sendItems cfg t b) /\ exportedRows (sendItems cfg t b) ++ batchRows (sh_batch (sendItems cfg t b)) = exportedRows b ++ batchRows (sh_batch b) /\
  b_count (sh_batch (sendItems cfg t b)) < b_count (sh_batch b) /\ (t = triggerTimeout -> b_count (sh_batch (sendItems cfg t b)) = 0).
Proof.
  intros [Hc He] Hpos Ht. unfold sendItems. destruct (batch_split_spec (SendBatchMaxSize cfg) (sh_batch b) Hc) as (req & bt & -> & Hc' & Hn & Hrows & Hcount).
  set (n := if _ : bool then _ else _) in *. cbn [sh_batch]. unfold exportedRows. cbn [sh_exported].
  assert (Hb : n = SendBatchMaxSize cfg /\ 0 < n < b_count (sh_batch b) \/ n = b_count (sh_batch b) /\ (0 < SendBatchMaxSize cfg -> n <= SendBatchMaxSize cfg)).
  { unfold n. destruct (Z.ltb_spec 0 (SendBatchMaxSize cfg)), (Z.ltb_spec (SendBatchMaxSize cfg) (b_count (sh_batch b))); cbn; lia. }
  clearbody n. split_and!.
  - split; [done|]. cbn [sh_exported]. rewrite Forall_app, Forall_singleton. split; [done|]. split_and!; [done|lia|lia|]. destruct t; [split; [apply Ht|]|intros HT; specialize (Ht HT)]; lia.
  - rewrite flat_map_app. cbn [flat_map]. by rewrite app_nil_r, <- app_assoc, Hrows.
  - lia.
  - intros ->. destruct Ht. lia.
Qed.

(** The loop of [processItem] ends: every batch sent is not empty. *)
Lemma sendFull_spec fuel b : ShardOk b -> (Z.to_nat (b_count (sh_batch b)) < fuel)%nat -> exists b', sendFull cfg fuel b = Some b' /\
  ShardOk b' /\ Settled b' /\ exportedRows b' ++ batchRows (sh_batch b') = exportedRows b ++ batchRows (sh_batch b).
Proof.
  revert b. induction fuel as [|fuel IH]; intros b Hb Hf; [lia|]. cbn [sendFull]. case_match eqn:E.
  - assert (Hpos : 0 < b_count (sh_batch b)) by (zbool; lia).
    assert (Ht : hasTimer cfg = true -> SendBatchSize cfg <= b_count (sh_batch b)) by (intros HT; rewrite HT in E; cbn in E; zbool; lia).
    destruct (sendItems_spec triggerBatchSize b Hb Hpos Ht) as (H1 & H2 & H3 & _).
    destruct (IH _ H1) as (b' & -> & ? & ? & Hr); [lia|]. exists b'. by rewrite Hr.
  - exists b. split_and!; [done|done| |done]. unfold Settled. destruct Hb as [Hc _]. pose proof (len_nonneg (batchRows (sh_batch b))).
    unfold Counted in Hc. destruct (hasTimer cfg); cbn in E; zbool; [|left]; lia.
Qed.

Lemma processItem_spec item b : ShardOk b -> exists b', processItem cfg item b = Some b' /\ ShardOk b' /\ Settled b' /\
  exportedRows b' ++ batchRows (sh_batch b') = exportedRows b ++ batchRows (sh_batch b) ++ sig_rows item.
Proof.
  intros [Hc He]. destruct (add_spec item _ Hc) as [Hc' Hr]. unfold processItem. rewrite <- Hr.
  apply (sendFull_spec _ (mkShard (add item (sh_batch b)) (sh_exported b))); [done|cbn; lia].
Qed.

Lemma flush_spec b : ShardOk b -> Settled b -> ShardOk (flush cfg b) /\ batchRows (sh_batch (flush cfg b)) = [] /\
  b_count (sh_batch (flush cfg b)) = 0 /\ exportedRows (flush cfg b) = exportedRows b ++ batchRows (sh_batch b).
Proof.
  intros Hb Hs. assert (Hz : forall b', ShardOk b' -> b_count (sh_batch b') = 0 -> batchRows (sh_batch b') = []) by (intros b' [Hc _] E; apply len_zero_inv; by rewrite <- Hc).
  unfold flush. case_match eqn:E; zbool.
  - destruct Hs as [?|Hs]; [lia|]. destruct (sendItems_spec triggerTimeout b Hb E Hs) as (H1 & H2 & _ & H3). specialize (H3 eq_refl).
    rewrite (Hz _ H1 H3), app_nil_r in H2. split_and!; auto.
  - assert (E0 : b_count (sh_batch b) = 0). { destruct Hb as [Hc _]. pose proof (len_nonneg (batchRows (sh_batch b))). unfold Counted in Hc. lia. }
    rewrite (Hz _ Hb E0), app_nil_r. done.
Qed.

(** What holds at every point of an execution, [items] being accepted. *)
Definition LoopOk (items : list T) (l : loop (T := T)) : Prop :=
  ShardOk (lp_shard l) /\ Settled (lp_shard l) /\
  exportedRows (lp_shard l) ++ batchRows (sh_batch (lp_shard l)) ++ flat_map sig_rows (lp_newItem l) = flat_map sig_rows items /\
  (lp_phase l <> Running -> lp_closed l = true) /\ (lp_phase l = Stopped -> batchRows (sh_batch (lp_shard l)) = []).

Local Ltac loop_ok := unfold LoopOk; cbn [lp_shard lp_newItem lp_phase lp_closed]; repeat match goal with |- _ /\ _ => split end.

Lemma start_ok : LoopOk [] start.
Proof.
  unfold LoopOk, start, ShardOk, Settled, Counted. cbn [lp_shard lp_newItem lp_phase lp_closed sh_batch sh_exported flat_map app].
  rewrite newBatch_rows. split_and!; try done. by left.
Qed.

Lemma process_ok items sh item q cl ph sh' : ph <> Stopped -> LoopOk items (mkLoop sh (item :: q) cl ph) -> processItem cfg item sh = Some sh' ->
  LoopOk items (mkLoop sh' q cl ph).
Proof.
  intros Hph (Hs & Hset & Hr & Hcl & Hst) E. cbn in Hs, Hset, Hr, Hcl, Hst. destruct (processItem_spec item sh Hs) as (b' & E' & H1 & H2 & H3). simplify_eq.
  loop_ok; [done|done| |done|done]. by rewrite app_assoc, H3, <- Hr, <- !app_assoc.
Qed.

Lemma flush_ok items sh q cl ph ph' : LoopOk items (mkLoop sh q cl ph) -> (ph' <> Running -> cl = true) -> LoopOk items (mkLoop (flush cfg sh) q cl ph').
Proof.
  intros (Hs & Hset & Hr & Hcl & Hst) Hph. cbn in *. destruct (flush_spec sh Hs Hset) as (H1 & H2 & H3 & H4).
  loop_ok; [done|by left| |done|done]. by rewrite H2, H4, <- Hr, <- app_assoc.
Qed.

Lemma step_ok cap items l item l' : LoopOk items l -> loop_step cfg cap l item l' -> LoopOk (items ++ option_list item) l'.
Proof.
  intros Hok Hstep. rewrite <- (app_nil_r items) in Hok. destruct Hstep; cbn [option_list].
  - destruct Hok as (? & ? & Hr & ? & ?). cbn in *. loop_ok; [done|done| |done|done]. rewrite !flat_map_app in *. cbn in *. by rewrite !app_nil_r in *; rewrite <- Hr, <- !app_assoc.
  - by eapply process_ok.
  - apply (flush_ok _ _ _ _ Running); [done|]. intros. done.
  - destruct Hok as (? & ? & Hr & ? & ?). by loop_ok.
  - destruct Hok as (? & ? & Hr & ? & ?). by loop_ok.
  - by eapply process_ok.
  - apply (flush_ok _ _ _ _ Draining); [done|]. intros _. by apply Hok.
Qed.

Lemma run_ok cap items l : loop_run cfg cap items l -> LoopOk items l.
Proof. induction 1; [apply start_ok|by eapply step_ok]. Qed.

Lemma run_silent cap items l l' : loop_run cfg cap items l -> loop_step cfg cap l None l' -> loop_run cfg cap items l'.
Proof. intros Hr Hs. rewrite <- (app_nil_r items). by eapply (run_step cfg cap items l None). Qed.

(** The loop that empties the channel. *)
Lemma drain_completes cap items sh q : loop_run cfg cap items (mkLoop sh q true Draining) ->
  exists sh', loop_run cfg cap items (mkLoop sh' [] true Stopped).
Proof.
  revert sh. induction q as [|item q IH]; intros sh Hr.
  - eexists. eapply run_silent; [done|constructor].
  - destruct (run_ok _ _ _ Hr) as (Hs & _). destruct (processItem_spec item sh Hs) as (sh' & E & _).
    apply (IH sh'). eapply run_silent; [done|by constructor].
Qed.

Lemma shutdown_completes cap items l : loop_run cfg cap items l -> lp_phase l <> Stopped ->
  exists sh', loop_run cfg cap items (mkLoop sh' [] true Stopped).
Proof.
  destruct l as [sh q cl ph]. intros Hr Hph. cbn in Hph.
  assert (Hc : loop_run cfg cap items (mkLoop sh q true ph)) by (destruct cl; [done|]; eapply run_silent; [done|constructor]).
  apply (drain_completes cap items sh q). destruct ph; [|done|done]. eapply run_silent; [done|constructor].
Qed.
End ShardProofs.

(** ** Delivery *)

(** C11: In every execution of a shard, what it has exported, what it holds and what waits
    in its channel are exactly the items accepted, in order; every export holds between
    one and [SendBatchMaxSize] items and reports their number, with a timer at least
    [SendBatchSize] of them when sent by size and fewer when sent by time; less than
    [SendBatchSize] items stay pending, none without a timer, and none once it stopped. *)
Theorem batch_processor_delivers {T Row} `{SignalLaws T Row} ToLower cfg cap (items : list T) l :
  Config_Validate ToLower cfg = None -> loop_run cfg cap items l ->
  exportedRows (lp_shard l) ++ batchRows (sh_batch (lp_shard l)) ++ flat_map sig_rows (lp_newItem l) = flat_map sig_rows items /\
  Forall (ExportOk cfg) (sh_exported (lp_shard l)) /\ Settled cfg (lp_shard l) /\
  (lp_phase l = Stopped -> batchRows (sh_batch (lp_shard l)) = []).
Proof.
  intros [HMax _]%Config_Validate_none Hr. destruct (run_ok cfg HMax cap items l Hr) as ([_ He] & Hs & Hrows & _ & Hst). done.
Qed.

Definition exampleLogs (recs : list Z) : SignalSplit.Data unit unit Z := [SignalSplit.mkResource tt "" [SignalSplit.mkScope tt "" recs] [] ].
Definition exampleConfig : Config := mkConfig 1 2 2 [] 0.

Lemma batch_processor_delivers_witness : exists l : loop, loop_run exampleConfig 4 [exampleLogs [1; 2; 3] ] l /\
  map (fun '(_, n, _) => n) (sh_exported (lp_shard l)) = [2] /\
  exportedRows (lp_shard l) ++ batchRows (sh_batch (lp_shard l)) ++ flat_map sig_rows (lp_newItem l) = SignalSplit.dataRows (exampleLogs [1; 2; 3]).
Proof.
  assert (Hr : exists l : loop, loop_run exampleConfig 4 [exampleLogs [1; 2; 3] ] l /\ map (fun '(_, n, _) => n) (sh_exported (lp_shard l)) = [2]).
  { eexists. split.
    - apply (run_step _ _ [exampleLogs [1; 2; 3] ] (mkLoop (mkShard newBatch []) [exampleLogs [1; 2; 3] ] false Running) None).
      + apply (run_step _ _ [] start (Some (exampleLogs [1; 2; 3]))); [apply run_start|]. apply (step_consume _ _ _ []). cbn. lia.
      + apply step_receive. vm_compute. reflexivity.
    - reflexivity. }
  destruct Hr as (l & Hr & He). exists l. split; [exact Hr|]. split; [exact He|].
  exact (proj1 (batch_processor_delivers (fun k => k) exampleConfig 4 [exampleLogs [1; 2; 3] ] l eq_refl Hr)).
Defined.

(** C12: From every point of an execution at which a shard has not stopped, with the
    consumers still or not, a shutdown runs to its end, and then everything accepted has
    been exported. *)
Theorem batch_processor_shutdown {T Row} `{SignalLaws T Row} ToLower cfg cap (items : list T) l :
  Config_Validate ToLower cfg = None -> loop_run cfg cap items l -> lp_phase l <> Stopped ->
  exists sh, loop_run cfg cap items (mkLoop sh [] true Stopped) /\ exportedRows sh = flat_map sig_rows items.
Proof.
  intros [HMax _]%Config_Validate_none Hr Hph. destruct (shutdown_completes cfg HMax cap items l Hr Hph) as (sh & Hr'). exists sh. split; [done|].
  destruct (run_ok cfg HMax cap items _ Hr') as (_ & _ & Hrows & _ & Hst). cbn in *. by rewrite (Hst eq_refl), !app_nil_r in Hrows.
Qed.

Lemma batch_processor_shutdown_witness : exists sh, loop_run exampleConfig 4 [exampleLogs [1; 2; 3] ] (mkLoop sh [] true Stopped) /\
  exportedRows sh = flat_map sig_rows [exampleLogs [1; 2; 3] ].
Proof.
  apply (batch_processor_shutdown (fun k => k) exampleConfig 4 [exampleLogs [1; 2; 3] ] (mkLoop (mkShard newBatch []) [exampleLogs [1; 2; 3] ] false Running)).
  - reflexivity.
  - apply (run_step _ _ [] start (Some (exampleLogs [1; 2; 3]))); [apply run_start|]. apply (step_consume _ _ _ []). cbn. lia.
  - discriminate.
Defined.

(** ** Cutting out a batch *)

(** Splitting pending logs, spans or metrics at a size below their count yields
    exactly the first [size] records, each with its scope and resource, and leaves the
    others in order; the data points of metrics keep name, description, unit, kind and
    temporality of their metric, which may be cut in two. *)
Theorem batch_splits_cut {Resource Scope Rec} size (ld : SignalSplit.Data Resource Scope Rec) (md : Metrics) :
  0 < size < SignalSplit.recordCount ld -> size < DataPointCount md ->
  (exists dest rest, splitLogs size ld (SignalSplit.recordCount ld) = (dest, rest) /\
     splitTraces size ld (SignalSplit.recordCount ld) = (dest, rest) /\
     SignalSplit.dataRows dest = take (Z.to_nat size) (SignalSplit.dataRows ld) /\
     SignalSplit.dataRows rest = drop (Z.to_nat size) (SignalSplit.dataRows ld)) /\
  (exists dest rest, splitMetrics size md (DataPointCount md) = (dest, rest) /\
     map bareRow (rows dest) = take (Z.to_nat size) (map bareRow (rows md)) /\
     map bareRow (rows rest) = drop (Z.to_nat size) (map bareRow (rows md))).
Proof.
  intros Hl Hm. split.
  - pose proof (splitLogs_rows size ld Hl) as Hs. unfold splitTraces. destruct (splitLogs _ _ _) as [dest rest]. by exists dest, rest.
  - assert (Hd : 0 < size < DataPointCount md) by lia. pose proof (sig_rows_split size md Hd) as Hs. cbn in Hs.
    destruct (splitMetrics _ _ _) as [dest rest]. by exists dest, rest.
Qed.

Definition exampleGauge (metadata : list KeyValue) : Metrics :=
  [mkResourceMetrics Resource_zero
     [mkScopeMetrics [] [mkMetric [103] [] [] (Metric_Gauge (Some (mkGauge (map (fun t => mkNumberDataPoint (NumberDataPoint_AsInt 1) [] [] 0 t 0) [1; 2])))) metadata]
        InstrumentationScope_zero] [] [] ].

Lemma batch_splits_cut_witness : exists dest rest, splitMetrics 1 (exampleGauge []) 2 = (dest, rest) /\ length (rows dest) = 1%nat /\
  map bareRow (rows dest) = take 1 (map bareRow (rows (exampleGauge []))).
Proof.
  assert (H1 : 0 < 1 < SignalSplit.recordCount (exampleLogs [1; 2; 3])) by (vm_compute; split; reflexivity).
  assert (H2 : 1 < DataPointCount (exampleGauge [])) by (vm_compute; reflexivity).
  destruct (batch_splits_cut 1 (exampleLogs [1; 2; 3]) (exampleGauge []) H1 H2) as (_ & dest & rest & E & Hd & _).
  exists dest, rest. split; [exact E|]. split; [|exact Hd]. apply (f_equal fst) in E. vm_compute in E. rewrite <- E. reflexivity.
Defined.

(** The part of a metric that a split cuts off has no metadata; the rest keeps it. *)
Theorem splitMetrics_loses_metadata : let metadata := [mkKeyValue [107] (AnyValue_StringValue [118]) 0] in
  exists dest rest, splitMetrics 1 (exampleGauge metadata) 2 = (dest, rest) /\
  map (fun r => h_metadata (r_head r)) (rows (exampleGauge metadata)) = [metadata; metadata] /\
  map (fun r => h_metadata (r_head r)) (rows dest) = [ [] ] /\ map (fun r => h_metadata (r_head r)) (rows rest) = [metadata].
Proof. eexists _, _. split; [reflexivity|]. repeat split. Qed.

(** ** Routing to shards *)
Lemma attr_inj k vs vs' : attr k vs = attr k vs' <-> vs = vs'.
Proof. split; [|by intros ->]. destruct vs as [|? [|??] ], vs' as [|? [|??] ]; intros; simplify_eq/=; done. Qed.

Lemma attrs_eq keys Get Get' : attrs keys Get = attrs keys Get' <-> Forall (fun k => Get k = Get' k) keys.
Proof.
  unfold attrs. induction keys as [|k keys IH]; cbn [map]; [done|]. rewrite Forall_cons, <- IH, <- (attr_inj k). split; [by intros [= ? ?]|]. by intros [-> ->].
Qed.

Inductive multi_run (metadataLimit : Z) : multiShard * list consumer_pc -> Prop :=
  | multi_run_start : multi_run metadataLimit (mkMultiShard [] 0, [])
  | multi_run_step s s' : multi_run metadataLimit s -> multi_step metadataLimit s s' -> multi_run metadataLimit s'.

(** [size] counts the shards, of which there is one per combination. *)
Definition MultiOk (metadataLimit : Z) (mb : multiShard) (pcs : list consumer_pc) : Prop :=
  NoDup (mb_batchers mb) /\ mb_size mb = len (mb_batchers mb) /\ (0 < metadataLimit -> mb_size mb <= metadataLimit) /\
  Forall (fun pc => match pc with AtSend aset => aset ∈ mb_batchers mb | _ => True end) pcs.

Lemma multi_store_ok limit mb pcs aset : MultiOk limit mb pcs -> aset ∉ mb_batchers mb -> (0 < limit -> mb_size mb < limit) ->
  MultiOk limit (mkMultiShard (mb_batchers mb ++ [aset]) (mb_size mb + 1)) pcs.
Proof.
  intros (Hn & Hs & Hl & Hp) Ha Hlt. unfold MultiOk. cbn [mb_batchers mb_size]. rewrite NoDup_app, len_app, <- Hs. split_and!.
  - done.
  - set_solver.
  - apply NoDup_singleton.
  - done.
  - lia.
  - eapply Forall_impl; [done|]. intros []; set_solver.
Qed.

Lemma multi_pc_ok limit mb pcs i pc : MultiOk limit mb pcs -> match pc with AtSend aset => aset ∈ mb_batchers mb | _ => True end -> MultiOk limit mb (<[i := pc]> pcs).
Proof. intros (? & ? & ? & ?) Hpc. split_and!; try done. by apply Forall_insert. Qed.

Lemma multi_ok limit s : multi_run limit s -> MultiOk limit s.1 s.2.
Proof.
  induction 1 as [|s s' Hr IH Hstep]; [split_and!; [apply NoDup_nil_2|done|cbn; lia|done]|].
  destruct Hstep as [mb pcs aset|mb pcs i aset Hi|mb pcs i aset pc mb' Hi E]; cbn [fst snd] in *.
  - destruct IH as (? & ? & ? & ?). split_and!; try done. apply Forall_app. split; [done|]. by apply Forall_singleton.
  - apply multi_pc_ok; [done|]. unfold consumeLoad. by case_decide.
  - unfold consumeLocked in E. case_match eqn:El; [|case_decide as Ha]; simplify_eq; [by apply multi_pc_ok..|].
    apply multi_pc_ok; [|cbn; set_solver]. apply multi_store_ok; [done|done|].
    intros Hpos. rewrite andb_false_iff in El. destruct El; zbool; lia.
Qed.

(** Two requests go to the same shard exactly when they agree on the values of every
    metadata key.  In every interleaving of concurrent requests there is at most one shard
    per combination, [size] is their number and stays within the limit, and an item is
    sent to a shard only if that is stored. *)
Theorem multi_shard_routing metadataLimit mb pcs : multi_run metadataLimit (mb, pcs) ->
  (forall keys Get Get', attrs keys Get = attrs keys Get' <-> Forall (fun k => Get k = Get' k) keys) /\
  NoDup (mb_batchers mb) /\ mb_size mb = len (mb_batchers mb) /\ (0 < metadataLimit -> mb_size mb <= metadataLimit) /\
  (forall aset, AtSend aset ∈ pcs -> aset ∈ mb_batchers mb).
Proof.
  intros (Hn & Hs & Hl & Hp)%multi_ok. split_and!; try done; [apply attrs_eq|].
  intros aset Ha. rewrite Forall_forall in Hp. exact (Hp _ Ha).
Qed.

Definition exampleKey : list attribute := attrs ["tenant"] (fun _ => ["a"]).

(** Two first requests of one combination: both miss, one stores the shard. *)
Lemma multi_both_miss : multi_run 1 (mkMultiShard [exampleKey] 1, [AtSend exampleKey; AtLock exampleKey]).
Proof.
  eapply multi_run_step; [|by apply (multi_lock 1 (mkMultiShard [] 0) [AtLock exampleKey; AtLock exampleKey] 0 exampleKey)].
  eapply multi_run_step; [|by apply (multi_load 1 (mkMultiShard [] 0) [AtLock exampleKey; AtLoad exampleKey] 1 exampleKey)].
  eapply multi_run_step; [|by apply (multi_load 1 (mkMultiShard [] 0) [AtLoad exampleKey; AtLoad exampleKey] 0 exampleKey)].
  eapply multi_run_step; [|by apply (multi_call 1 (mkMultiShard [] 0) [AtLoad exampleKey])].
  eapply multi_run_step; [|by apply (multi_call 1 (mkMultiShard [] 0) [])]. apply multi_run_start.
Qed.

Lemma multi_shard_routing_witness : mb_size (mkMultiShard [exampleKey] 1) <= 1.
Proof. apply (multi_shard_routing 1 _ _ multi_both_miss). reflexivity. Defined.

(** The limit is checked before the map is looked up again, so with the limit reached the
    other request is refused, permanently, although its shard exists. *)
Theorem existing_combination_refused : multi_run 1 (mkMultiShard [exampleKey] 1, [AtSend exampleKey; Refused exampleKey errTooManyBatchers]) /\ IsPermanent (Some errTooManyBatchers) = true /\
  exampleKey ∈ mb_batchers (mkMultiShard [exampleKey] 1) /\ consumeLoad exampleKey (mkMultiShard [exampleKey] 1) = AtSend exampleKey.
Proof.
  split; [|split; [done|split; [by left|done]]]. eapply multi_run_step; [apply multi_both_miss|].
  by apply (multi_lock 1 _ [AtSend exampleKey; AtLock exampleKey] 1 exampleKey).
Qed.
