(* ===== verification/ProtoProfiles.v ===== *)
(** * Profile messages on the wire

    From the tables of the dictionary to the profiles of a resource, as in ProtoResource. *)

From S2P Require Import Prelude RecordUpdate Errors Sizers ProtoWire ProtoWireProofs ProtoFields ProtoCommon ProtoCommonProofs ProtoMessage ProtoKinds ProtoIds ProtoResource.
Local Open Scope Z_scope.
Local Open Scope otel_scope.

#[local] Opaque RecursionLimit.

(** ** ValueType *)
Record ValueType := mkValueType {
  ValueType_TypeStrindex : Z;
  ValueType_UnitStrindex : Z;
}.

Definition ValueType_zero : ValueType :=
  mkValueType 0 0.

#[export] Instance ValueType_settable : Settable ValueType :=
  settable! mkValueType <ValueType_TypeStrindex; ValueType_UnitStrindex>.

Definition ValueType_SizeProto (m : ValueType) : Z :=
  (if negb (ValueType_TypeStrindex m =? 0) then 1 + sov (u64 (ValueType_TypeStrindex m)) else 0) +
  (if negb (ValueType_UnitStrindex m =? 0) then 1 + sov (u64 (ValueType_UnitStrindex m)) else 0).

Definition ValueType_MarshalProto (m : ValueType) : list Z -> res (Z * list Z) :=
  runW (
    wWhen (negb (ValueType_TypeStrindex m =? 0)) (wInt (wByte 0x8) (ValueType_TypeStrindex m)) >;>
    wWhen (negb (ValueType_UnitStrindex m =? 0)) (wInt (wByte 0x10) (ValueType_UnitStrindex m))).

Definition ValueType_step (fieldNum wireType : Z) (buf : list Z) (pos : Z) (m : ValueType) :
  res (ValueType * Z) :=
  match fieldNum with
  | 1 => let* (num, pos) := readVarint "TypeStrindex" wireType buf pos in
      Ok (m <| ValueType_TypeStrindex := i32 num |>, pos)
  | 2 => let* (num, pos) := readVarint "UnitStrindex" wireType buf pos in
      Ok (m <| ValueType_UnitStrindex := i32 num |>, pos)
  | _ => skipField wireType buf pos m
  end.

Definition ValueType_wire (m : ValueType) : list Z :=
  fWhen (negb (ValueType_UnitStrindex m =? 0)) (fInt 2 (ValueType_UnitStrindex m)) ++
  fWhen (negb (ValueType_TypeStrindex m =? 0)) (fInt 1 (ValueType_TypeStrindex m)).

Definition ValueType_ok (strict : bool) (m : ValueType) : Prop :=
  is_i32 (ValueType_TypeStrindex m) /\
  is_i32 (ValueType_UnitStrindex m).

#[export] Instance ValueType_codec : Codec ValueType :=
  { zero := ValueType_zero;
    SizeProto := ValueType_SizeProto;
    MarshalProto := ValueType_MarshalProto;
    UnmarshalProto := unmarshalFields ValueType_step;
    wire := ValueType_wire;
    wellFormed := ValueType_ok }.

Lemma ValueType_enc strict m :
  ValueType_ok strict m -> Encodes (ValueType_MarshalProto m) (ValueType_SizeProto m) (ValueType_wire m).
Proof. enc_message strict ValueType_ok. Qed.

Lemma ValueType_rd m :
  ValueType_ok true m -> Rd ValueType_step (ValueType_wire m) ValueType_zero m.
Proof.
  rd_message m ValueType_ok ValueType_wire.
  rd_int i32 i32_u64 2 "UnitStrindex" ValueType_UnitStrindex.
  rd_int i32 i32_u64 1 "TypeStrindex" ValueType_TypeStrindex.
Qed.

Lemma ValueType_safe : SafeStep ValueType_step (ValueType_ok false).
Proof. safe_message ValueType_step ValueType_ok. Qed.

#[export] Instance ValueType_laws : CodecLaws ValueType.
Proof.
  apply (fields_laws ValueType_step); [done| | | |].
  - apply ValueType_enc.
  - apply ValueType_rd.
  - apply ValueType_safe.
  - zero_ok ValueType_ok.
Qed.

(** ** Line *)
Record Line := mkLine {
  Line_FunctionIndex : Z;
  Line_Line : Z;
  Line_Column : Z;
}.

Definition Line_zero : Line :=
  mkLine 0 0 0.

#[export] Instance Line_settable : Settable Line :=
  settable! mkLine <Line_FunctionIndex; Line_Line; Line_Column>.

Definition Line_SizeProto (m : Line) : Z :=
  (if negb (Line_FunctionIndex m =? 0) then 1 + sov (u64 (Line_FunctionIndex m)) else 0) +
  (if negb (Line_Line m =? 0) then 1 + sov (u64 (Line_Line m)) else 0) +
  (if negb (Line_Column m =? 0) then 1 + sov (u64 (Line_Column m)) else 0).

Definition Line_MarshalProto (m : Line) : list Z -> res (Z * list Z) :=
  runW (
    wWhen (negb (Line_FunctionIndex m =? 0)) (wInt (wByte 0x8) (Line_FunctionIndex m)) >;>
    wWhen (negb (Line_Line m =? 0)) (wInt (wByte 0x10) (Line_Line m)) >;>
    wWhen (negb (Line_Column m =? 0)) (wInt (wByte 0x18) (Line_Column m))).

Definition Line_step (fieldNum wireType : Z) (buf : list Z) (pos : Z) (m : Line) :
  res (Line * Z) :=
  match fieldNum with
  | 1 => let* (num, pos) := readVarint "FunctionIndex" wireType buf pos in
      Ok (m <| Line_FunctionIndex := i32 num |>, pos)
  | 2 => let* (num, pos) := readVarint "Line" wireType buf pos in
      Ok (m <| Line_Line := i64 num |>, pos)
  | 3 => let* (num, pos) := readVarint "Column" wireType buf pos in
      Ok (m <| Line_Column := i64 num |>, pos)
  | _ => skipField wireType buf pos m
  end.

Definition Line_wire (m : Line) : list Z :=
  fWhen (negb (Line_Column m =? 0)) (fInt 3 (Line_Column m)) ++
  fWhen (negb (Line_Line m =? 0)) (fInt 2 (Line_Line m)) ++
  fWhen (negb (Line_FunctionIndex m =? 0)) (fInt 1 (Line_FunctionIndex m)).

Definition Line_ok (strict : bool) (m : Line) : Prop :=
  is_i32 (Line_FunctionIndex m) /\
  is_i64 (Line_Line m) /\
  is_i64 (Line_Column m).

#[export] Instance Line_codec : Codec Line :=
  { zero := Line_zero;
    SizeProto := Line_SizeProto;
    MarshalProto := Line_MarshalProto;
    UnmarshalProto := unmarshalFields Line_step;
    wire := Line_wire;
    wellFormed := Line_ok }.

Lemma Line_enc strict m :
  Line_ok strict m -> Encodes (Line_MarshalProto m) (Line_SizeProto m) (Line_wire m).
Proof. enc_message strict Line_ok. Qed.

Lemma Line_rd m :
  Line_ok true m -> Rd Line_step (Line_wire m) Line_zero m.
Proof.
  rd_message m Line_ok Line_wire.
  rd_int i64 i64_u64 3 "Column" Line_Column.
  rd_int i64 i64_u64 2 "Line" Line_Line.
  rd_int i32 i32_u64 1 "FunctionIndex" Line_FunctionIndex.
Qed.

Lemma Line_safe : SafeStep Line_step (Line_ok false).
Proof. safe_message Line_step Line_ok. Qed.

#[export] Instance Line_laws : CodecLaws Line.
Proof.
  apply (fields_laws Line_step); [done| | | |].
  - apply Line_enc.
  - apply Line_rd.
  - apply Line_safe.
  - zero_ok Line_ok.
Qed.

(** ** Location *)
Record Location := mkLocation {
  Location_Lines : list Line;
  Location_AttributeIndices : list Z;
  Location_Address : Z;
  Location_MappingIndex : Z;
}.

Definition Location_zero : Location :=
  mkLocation [] [] 0 0.

#[export] Instance Location_settable : Settable Location :=
  settable! mkLocation <Location_Lines; Location_AttributeIndices; Location_Address; Location_MappingIndex>.

Definition Location_SizeProto (m : Location) : Z :=
  (if negb (Location_MappingIndex m =? 0) then 1 + sov (u64 (Location_MappingIndex m)) else 0) +
  (if negb (Location_Address m =? 0) then 1 + sov (u64 (Location_Address m)) else 0) +
  sizeRepeated (fun x => sizeLen 1 (SizeProto x)) (Location_Lines m) +
  (if 0 <? len (Location_AttributeIndices m) then sizePackedInt 1 (Location_AttributeIndices m) else 0).

Definition Location_MarshalProto (m : Location) : list Z -> res (Z * list Z) :=
  runW (
    wWhen (negb (Location_MappingIndex m =? 0)) (wInt (wByte 0x8) (Location_MappingIndex m)) >;>
    wWhen (negb (Location_Address m =? 0)) (wInt (wByte 0x10) (Location_Address m)) >;>
    wRepeated (fun x => wMsg (wByte 0x1a) (MarshalProto x)) (Location_Lines m) >;>
    wWhen (0 <? len (Location_AttributeIndices m)) (wPackedInt (wByte 0x22) (Location_AttributeIndices m))).

Definition Location_step (fieldNum wireType : Z) (buf : list Z) (pos : Z) (m : Location) :
  res (Location * Z) :=
  match fieldNum with
  | 1 => let* (num, pos) := readVarint "MappingIndex" wireType buf pos in
      Ok (m <| Location_MappingIndex := i32 num |>, pos)
  | 2 => let* (num, pos) := readVarint "Address" wireType buf pos in
      Ok (m <| Location_Address := num |>, pos)
  | 3 => let* (b, pos) := readLen "Lines" wireType buf pos in
      let* v := UnmarshalProto b zero in
      Ok (m <| Location_Lines := Location_Lines m ++ [v] |>, pos)
  | 4 => let* (l, pos) := readPackedInt i32 "AttributeIndices" wireType buf pos (Location_AttributeIndices m) in
      Ok (m <| Location_AttributeIndices := l |>, pos)
  | _ => skipField wireType buf pos m
  end.

Definition Location_wire (m : Location) : list Z :=
  fWhen (0 <? len (Location_AttributeIndices m)) (fLen 4 (fRepeated (fun v => varint (u64 v))
    (Location_AttributeIndices m))) ++
  fRepeated (fun x => fLen 3 (wire x)) (Location_Lines m) ++
  fWhen (negb (Location_Address m =? 0)) (fInt 2 (Location_Address m)) ++
  fWhen (negb (Location_MappingIndex m =? 0)) (fInt 1 (Location_MappingIndex m)).

Definition Location_ok (strict : bool) (m : Location) : Prop :=
  Forall (wellFormed strict) (Location_Lines m) /\
  Forall is_i32 (Location_AttributeIndices m) /\
  is_u64 (Location_Address m) /\
  is_i32 (Location_MappingIndex m).

#[export] Instance Location_codec : Codec Location :=
  { zero := Location_zero;
    SizeProto := Location_SizeProto;
    MarshalProto := Location_MarshalProto;
    UnmarshalProto := unmarshalFields Location_step;
    wire := Location_wire;
    wellFormed := Location_ok }.

Lemma Location_enc strict m :
  Location_ok strict m -> Encodes (Location_MarshalProto m) (Location_SizeProto m) (Location_wire m).
Proof. enc_message strict Location_ok. Qed.

Lemma Location_rd m :
  Location_ok true m -> Rd Location_step (Location_wire m) Location_zero m.
Proof.
  rd_message m Location_ok Location_wire.
  rd_packedInt i32 i32_u64 4 "AttributeIndices" Location_AttributeIndices.
  rd_msgs 3 "Lines" Location_Lines.
  rd_int (fun z : Z => z) u64_id 2 "Address" Location_Address.
  rd_int i32 i32_u64 1 "MappingIndex" Location_MappingIndex.
Qed.

Lemma Location_safe : SafeStep Location_step (Location_ok false).
Proof. safe_message Location_step Location_ok. Qed.

#[export] Instance Location_laws : CodecLaws Location.
Proof.
  apply (fields_laws Location_step); [done| | | |].
  - apply Location_enc.
  - apply Location_rd.
  - apply Location_safe.
  - zero_ok Location_ok.
Qed.

(** ** Mapping *)
Record Mapping := mkMapping {
  Mapping_AttributeIndices : list Z;
  Mapping_MemoryStart : Z;
  Mapping_MemoryLimit : Z;
  Mapping_FileOffset : Z;
  Mapping_FilenameStrindex : Z;
}.

Definition Mapping_zero : Mapping :=
  mkMapping [] 0 0 0 0.

#[export] Instance Mapping_settable : Settable Mapping :=
  settable! mkMapping <Mapping_AttributeIndices; Mapping_MemoryStart; Mapping_MemoryLimit; Mapping_FileOffset;
    Mapping_FilenameStrindex>.

Definition Mapping_SizeProto (m : Mapping) : Z :=
  (if negb (Mapping_MemoryStart m =? 0) then 1 + sov (u64 (Mapping_MemoryStart m)) else 0) +
  (if negb (Mapping_MemoryLimit m =? 0) then 1 + sov (u64 (Mapping_MemoryLimit m)) else 0) +
  (if negb (Mapping_FileOffset m =? 0) then 1 + sov (u64 (Mapping_FileOffset m)) else 0) +
  (if negb (Mapping_FilenameStrindex m =? 0) then 1 + sov (u64 (Mapping_FilenameStrindex m)) else 0) +
  (if 0 <? len (Mapping_AttributeIndices m) then sizePackedInt 1 (Mapping_AttributeIndices m) else 0).

Definition Mapping_MarshalProto (m : Mapping) : list Z -> res (Z * list Z) :=
  runW (
    wWhen (negb (Mapping_MemoryStart m =? 0)) (wInt (wByte 0x8) (Mapping_MemoryStart m)) >;>
    wWhen (negb (Mapping_MemoryLimit m =? 0)) (wInt (wByte 0x10) (Mapping_MemoryLimit m)) >;>
    wWhen (negb (Mapping_FileOffset m =? 0)) (wInt (wByte 0x18) (Mapping_FileOffset m)) >;>
    wWhen (negb (Mapping_FilenameStrindex m =? 0)) (wInt (wByte 0x20) (Mapping_FilenameStrindex m)) >;>
    wWhen (0 <? len (Mapping_AttributeIndices m)) (wPackedInt (wByte 0x2a) (Mapping_AttributeIndices m))).

Definition Mapping_step (fieldNum wireType : Z) (buf : list Z) (pos : Z) (m : Mapping) :
  res (Mapping * Z) :=
  match fieldNum with
  | 1 => let* (num, pos) := readVarint "MemoryStart" wireType buf pos in
      Ok (m <| Mapping_MemoryStart := num |>, pos)
  | 2 => let* (num, pos) := readVarint "MemoryLimit" wireType buf pos in
      Ok (m <| Mapping_MemoryLimit := num |>, pos)
  | 3 => let* (num, pos) := readVarint "FileOffset" wireType buf pos in
      Ok (m <| Mapping_FileOffset := num |>, pos)
  | 4 => let* (num, pos) := readVarint "FilenameStrindex" wireType buf pos in
      Ok (m <| Mapping_FilenameStrindex := i32 num |>, pos)
  | 5 => let* (l, pos) := readPackedInt i32 "AttributeIndices" wireType buf pos (Mapping_AttributeIndices m) in
      Ok (m <| Mapping_AttributeIndices := l |>, pos)
  | _ => skipField wireType buf pos m
  end.

Definition Mapping_wire (m : Mapping) : list Z :=
  fWhen (0 <? len (Mapping_AttributeIndices m)) (fLen 5 (fRepeated (fun v => varint (u64 v))
    (Mapping_AttributeIndices m))) ++
  fWhen (negb (Mapping_FilenameStrindex m =? 0)) (fInt 4 (Mapping_FilenameStrindex m)) ++
  fWhen (negb (Mapping_FileOffset m =? 0)) (fInt 3 (Mapping_FileOffset m)) ++
  fWhen (negb (Mapping_MemoryLimit m =? 0)) (fInt 2 (Mapping_MemoryLimit m)) ++
  fWhen (negb (Mapping_MemoryStart m =? 0)) (fInt 1 (Mapping_MemoryStart m)).

Definition Mapping_ok (strict : bool) (m : Mapping) : Prop :=
  Forall is_i32 (Mapping_AttributeIndices m) /\
  is_u64 (Mapping_MemoryStart m) /\
  is_u64 (Mapping_MemoryLimit m) /\
  is_u64 (Mapping_FileOffset m) /\
  is_i32 (Mapping_FilenameStrindex m).

#[export] Instance Mapping_codec : Codec Mapping :=
  { zero := Mapping_zero;
    SizeProto := Mapping_SizeProto;
    MarshalProto := Mapping_MarshalProto;
    UnmarshalProto := unmarshalFields Mapping_step;
    wire := Mapping_wire;
    wellFormed := Mapping_ok }.

Lemma Mapping_enc strict m :
  Mapping_ok strict m -> Encodes (Mapping_MarshalProto m) (Mapping_SizeProto m) (Mapping_wire m).
Proof. enc_message strict Mapping_ok. Qed.

Lemma Mapping_rd m :
  Mapping_ok true m -> Rd Mapping_step (Mapping_wire m) Mapping_zero m.
Proof.
  rd_message m Mapping_ok Mapping_wire.
  rd_packedInt i32 i32_u64 5 "AttributeIndices" Mapping_AttributeIndices.
  rd_int i32 i32_u64 4 "FilenameStrindex" Mapping_FilenameStrindex.
  rd_int (fun z : Z => z) u64_id 3 "FileOffset" Mapping_FileOffset.
  rd_int (fun z : Z => z) u64_id 2 "MemoryLimit" Mapping_MemoryLimit.
  rd_int (fun z : Z => z) u64_id 1 "MemoryStart" Mapping_MemoryStart.
Qed.

Lemma Mapping_safe : SafeStep Mapping_step (Mapping_ok false).
Proof. safe_message Mapping_step Mapping_ok. Qed.

#[export] Instance Mapping_laws : CodecLaws Mapping.
Proof.
  apply (fields_laws Mapping_step); [done| | | |].
  - apply Mapping_enc.
  - apply Mapping_rd.
  - apply Mapping_safe.
  - zero_ok Mapping_ok.
Qed.

(** ** Function *)
Record Function := mkFunction {
  Function_NameStrindex : Z;
  Function_SystemNameStrindex : Z;
  Function_FilenameStrindex : Z;
  Function_StartLine : Z;
}.

Definition Function_zero : Function :=
  mkFunction 0 0 0 0.

#[export] Instance Function_settable : Settable Function :=
  settable! mkFunction <Function_NameStrindex; Function_SystemNameStrindex; Function_FilenameStrindex;
    Function_StartLine>.

Definition Function_SizeProto (m : Function) : Z :=
  (if negb (Function_NameStrindex m =? 0) then 1 + sov (u64 (Function_NameStrindex m)) else 0) +
  (if negb (Function_SystemNameStrindex m =? 0) then 1 + sov (u64 (Function_SystemNameStrindex m)) else 0) +
  (if negb (Function_FilenameStrindex m =? 0) then 1 + sov (u64 (Function_FilenameStrindex m)) else 0) +
  (if negb (Function_StartLine m =? 0) then 1 + sov (u64 (Function_StartLine m)) else 0).

Definition Function_MarshalProto (m : Function) : list Z -> res (Z * list Z) :=
  runW (
    wWhen (negb (Function_NameStrindex m =? 0)) (wInt (wByte 0x8) (Function_NameStrindex m)) >;>
    wWhen (negb (Function_SystemNameStrindex m =? 0)) (wInt (wByte 0x10) (Function_SystemNameStrindex m)) >;>
    wWhen (negb (Function_FilenameStrindex m =? 0)) (wInt (wByte 0x18) (Function_FilenameStrindex m)) >;>
    wWhen (negb (Function_StartLine m =? 0)) (wInt (wByte 0x20) (Function_StartLine m))).

Definition Function_step (fieldNum wireType : Z) (buf : list Z) (pos : Z) (m : Function) :
  res (Function * Z) :=
  match fieldNum with
  | 1 => let* (num, pos) := readVarint "NameStrindex" wireType buf pos in
      Ok (m <| Function_NameStrindex := i32 num |>, pos)
  | 2 => let* (num, pos) := readVarint "SystemNameStrindex" wireType buf pos in
      Ok (m <| Function_SystemNameStrindex := i32 num |>, pos)
  | 3 => let* (num, pos) := readVarint "FilenameStrindex" wireType buf pos in
      Ok (m <| Function_FilenameStrindex := i32 num |>, pos)
  | 4 => let* (num, pos) := readVarint "StartLine" wireType buf pos in
      Ok (m <| Function_StartLine := i64 num |>, pos)
  | _ => skipField wireType buf pos m
  end.

Definition Function_wire (m : Function) : list Z :=
  fWhen (negb (Function_StartLine m =? 0)) (fInt 4 (Function_StartLine m)) ++
  fWhen (negb (Function_FilenameStrindex m =? 0)) (fInt 3 (Function_FilenameStrindex m)) ++
  fWhen (negb (Function_SystemNameStrindex m =? 0)) (fInt 2 (Function_SystemNameStrindex m)) ++
  fWhen (negb (Function_NameStrindex m =? 0)) (fInt 1 (Function_NameStrindex m)).

Definition Function_ok (strict : bool) (m : Function) : Prop :=
  is_i32 (Function_NameStrindex m) /\
  is_i32 (Function_SystemNameStrindex m) /\
  is_i32 (Function_FilenameStrindex m) /\
  is_i64 (Function_StartLine m).

#[export] Instance Function_codec : Codec Function :=
  { zero := Function_zero;
    SizeProto := Function_SizeProto;
    MarshalProto := Function_MarshalProto;
    UnmarshalProto := unmarshalFields Function_step;
    wire := Function_wire;
    wellFormed := Function_ok }.

Lemma Function_enc strict m :
  Function_ok strict m -> Encodes (Function_MarshalProto m) (Function_SizeProto m) (Function_wire m).
Proof. enc_message strict Function_ok. Qed.

Lemma Function_rd m :
  Function_ok true m -> Rd Function_step (Function_wire m) Function_zero m.
Proof.
  rd_message m Function_ok Function_wire.
  rd_int i64 i64_u64 4 "StartLine" Function_StartLine.
  rd_int i32 i32_u64 3 "FilenameStrindex" Function_FilenameStrindex.
  rd_int i32 i32_u64 2 "SystemNameStrindex" Function_SystemNameStrindex.
  rd_int i32 i32_u64 1 "NameStrindex" Function_NameStrindex.
Qed.

Lemma Function_safe : SafeStep Function_step (Function_ok false).
Proof. safe_message Function_step Function_ok. Qed.

#[export] Instance Function_laws : CodecLaws Function.
Proof.
  apply (fields_laws Function_step); [done| | | |].
  - apply Function_enc.
  - apply Function_rd.
  - apply Function_safe.
  - zero_ok Function_ok.
Qed.

(** ** Link *)
Record Link := mkLink {
  Link_TraceId : TraceID;
  Link_SpanId : SpanID;
}.

Definition Link_zero : Link :=
  mkLink zero zero.

#[export] Instance Link_settable : Settable Link :=
  settable! mkLink <Link_TraceId; Link_SpanId>.

Definition Link_SizeProto (m : Link) : Z :=
  sizeLen 1 (SizeProto (Link_TraceId m)) +
  sizeLen 1 (SizeProto (Link_SpanId m)).

Definition Link_MarshalProto (m : Link) : list Z -> res (Z * list Z) :=
  runW (
    wMsg (wByte 0xa) (MarshalProto (Link_TraceId m)) >;>
    wMsg (wByte 0x12) (MarshalProto (Link_SpanId m))).

Definition Link_step (fieldNum wireType : Z) (buf : list Z) (pos : Z) (m : Link) :
  res (Link * Z) :=
  match fieldNum with
  | 1 => let* (b, pos) := readLen "TraceId" wireType buf pos in
      let* v := UnmarshalProto b (Link_TraceId m) in
      Ok (m <| Link_TraceId := v |>, pos)
  | 2 => let* (b, pos) := readLen "SpanId" wireType buf pos in
      let* v := UnmarshalProto b (Link_SpanId m) in
      Ok (m <| Link_SpanId := v |>, pos)
  | _ => skipField wireType buf pos m
  end.

Definition Link_wire (m : Link) : list Z :=
  fLen 2 (wire (Link_SpanId m)) ++
  fLen 1 (wire (Link_TraceId m)).

Definition Link_ok (strict : bool) (m : Link) : Prop :=
  wellFormed strict (Link_TraceId m) /\
  wellFormed strict (Link_SpanId m).

#[export] Instance Link_codec : Codec Link :=
  { zero := Link_zero;
    SizeProto := Link_SizeProto;
    MarshalProto := Link_MarshalProto;
    UnmarshalProto := unmarshalFields Link_step;
    wire := Link_wire;
    wellFormed := Link_ok }.

Lemma Link_enc strict m :
  Link_ok strict m -> Encodes (Link_MarshalProto m) (Link_SizeProto m) (Link_wire m).
Proof. enc_message strict Link_ok. Qed.

Lemma Link_rd m :
  Link_ok true m -> Rd Link_step (Link_wire m) Link_zero m.
Proof.
  rd_message m Link_ok Link_wire.
  rd_msg 2 "SpanId" Link_SpanId.
  rd_msg 1 "TraceId" Link_TraceId.
Qed.

Lemma Link_safe : SafeStep Link_step (Link_ok false).
Proof. safe_message Link_step Link_ok. Qed.

#[export] Instance Link_laws : CodecLaws Link.
Proof.
  apply (fields_laws Link_step); [done| | | |].
  - apply Link_enc.
  - apply Link_rd.
  - apply Link_safe.
  - zero_ok Link_ok.
Qed.

(** ** Stack *)
Record Stack := mkStack {
  Stack_LocationIndices : list Z;
}.

Definition Stack_zero : Stack :=
  mkStack [].

#[export] Instance Stack_settable : Settable Stack :=
  settable! mkStack <Stack_LocationIndices>.

Definition Stack_SizeProto (m : Stack) : Z :=
  (if 0 <? len (Stack_LocationIndices m) then sizePackedInt 1 (Stack_LocationIndices m) else 0).

Definition Stack_MarshalProto (m : Stack) : list Z -> res (Z * list Z) :=
  runW (
    wWhen (0 <? len (Stack_LocationIndices m)) (wPackedInt (wByte 0xa) (Stack_LocationIndices m))).

Definition Stack_step (fieldNum wireType : Z) (buf : list Z) (pos : Z) (m : Stack) :
  res (Stack * Z) :=
  match fieldNum with
  | 1 => let* (l, pos) := readPackedInt i32 "LocationIndices" wireType buf pos (Stack_LocationIndices m) in
      Ok (m <| Stack_LocationIndices := l |>, pos)
  | _ => skipField wireType buf pos m
  end.

Definition Stack_wire (m : Stack) : list Z :=
  fWhen (0 <? len (Stack_LocationIndices m)) (fLen 1 (fRepeated (fun v => varint (u64 v)) (Stack_LocationIndices m))).

Definition Stack_ok (strict : bool) (m : Stack) : Prop :=
  Forall is_i32 (Stack_LocationIndices m).

#[export] Instance Stack_codec : Codec Stack :=
  { zero := Stack_zero;
    SizeProto := Stack_SizeProto;
    MarshalProto := Stack_MarshalProto;
    UnmarshalProto := unmarshalFields Stack_step;
    wire := Stack_wire;
    wellFormed := Stack_ok }.

Lemma Stack_enc strict m :
  Stack_ok strict m -> Encodes (Stack_MarshalProto m) (Stack_SizeProto m) (Stack_wire m).
Proof. enc_message strict Stack_ok. Qed.

Lemma Stack_rd m :
  Stack_ok true m -> Rd Stack_step (Stack_wire m) Stack_zero m.
Proof.
  rd_message m Stack_ok Stack_wire.
  rd_packedInt i32 i32_u64 1 "LocationIndices" Stack_LocationIndices.
Qed.

Lemma Stack_safe : SafeStep Stack_step (Stack_ok false).
Proof. safe_message Stack_step Stack_ok. Qed.

#[export] Instance Stack_laws : CodecLaws Stack.
Proof.
  apply (fields_laws Stack_step); [done| | | |].
  - apply Stack_enc.
  - apply Stack_rd.
  - apply Stack_safe.
  - zero_ok Stack_ok.
Qed.

(** ** KeyValueAndUnit *)
Record KeyValueAndUnit := mkKeyValueAndUnit {
  KeyValueAndUnit_Value : AnyValue;
  KeyValueAndUnit_KeyStrindex : Z;
  KeyValueAndUnit_UnitStrindex : Z;
}.

Definition KeyValueAndUnit_zero : KeyValueAndUnit :=
  mkKeyValueAndUnit zero 0 0.

#[export] Instance KeyValueAndUnit_settable : Settable KeyValueAndUnit :=
  settable! mkKeyValueAndUnit <KeyValueAndUnit_Value; KeyValueAndUnit_KeyStrindex; KeyValueAndUnit_UnitStrindex>.

Definition KeyValueAndUnit_SizeProto (m : KeyValueAndUnit) : Z :=
  (if negb (KeyValueAndUnit_KeyStrindex m =? 0) then 1 + sov (u64 (KeyValueAndUnit_KeyStrindex m)) else 0) +
  sizeLen 1 (SizeProto (KeyValueAndUnit_Value m)) +
  (if negb (KeyValueAndUnit_UnitStrindex m =? 0) then 1 + sov (u64 (KeyValueAndUnit_UnitStrindex m)) else 0).

Definition KeyValueAndUnit_MarshalProto (m : KeyValueAndUnit) : list Z -> res (Z * list Z) :=
  runW (
    wWhen (negb (KeyValueAndUnit_KeyStrindex m =? 0)) (wInt (wByte 0x8) (KeyValueAndUnit_KeyStrindex m)) >;>
    wMsg (wByte 0x12) (MarshalProto (KeyValueAndUnit_Value m)) >;>
    wWhen (negb (KeyValueAndUnit_UnitStrindex m =? 0)) (wInt (wByte 0x18) (KeyValueAndUnit_UnitStrindex m))).

Definition KeyValueAndUnit_step (fieldNum wireType : Z) (buf : list Z) (pos : Z) (m : KeyValueAndUnit) :
  res (KeyValueAndUnit * Z) :=
  match fieldNum with
  | 1 => let* (num, pos) := readVarint "KeyStrindex" wireType buf pos in
      Ok (m <| KeyValueAndUnit_KeyStrindex := i32 num |>, pos)
  | 2 => let* (b, pos) := readLen "Value" wireType buf pos in
      let* v := UnmarshalProto b (KeyValueAndUnit_Value m) in
      Ok (m <| KeyValueAndUnit_Value := v |>, pos)
  | 3 => let* (num, pos) := readVarint "UnitStrindex" wireType buf pos in
      Ok (m <| KeyValueAndUnit_UnitStrindex := i32 num |>, pos)
  | _ => skipField wireType buf pos m
  end.

Definition KeyValueAndUnit_wire (m : KeyValueAndUnit) : list Z :=
  fWhen (negb (KeyValueAndUnit_UnitStrindex m =? 0)) (fInt 3 (KeyValueAndUnit_UnitStrindex m)) ++
  fLen 2 (wire (KeyValueAndUnit_Value m)) ++
  fWhen (negb (KeyValueAndUnit_KeyStrindex m =? 0)) (fInt 1 (KeyValueAndUnit_KeyStrindex m)).

Definition KeyValueAndUnit_ok (strict : bool) (m : KeyValueAndUnit) : Prop :=
  wellFormed strict (KeyValueAndUnit_Value m) /\
  is_i32 (KeyValueAndUnit_KeyStrindex m) /\
  is_i32 (KeyValueAndUnit_UnitStrindex m).

#[export] Instance KeyValueAndUnit_codec : Codec KeyValueAndUnit :=
  { zero := KeyValueAndUnit_zero;
    SizeProto := KeyValueAndUnit_SizeProto;
    MarshalProto := KeyValueAndUnit_MarshalProto;
    UnmarshalProto := unmarshalFields KeyValueAndUnit_step;
    wire := KeyValueAndUnit_wire;
    wellFormed := KeyValueAndUnit_ok }.

Lemma KeyValueAndUnit_enc strict m :
  KeyValueAndUnit_ok strict m -> Encodes (KeyValueAndUnit_MarshalProto m) (KeyValueAndUnit_SizeProto m)
    (KeyValueAndUnit_wire m).
Proof. enc_message strict KeyValueAndUnit_ok. Qed.

Lemma KeyValueAndUnit_rd m :
  KeyValueAndUnit_ok true m -> Rd KeyValueAndUnit_step (KeyValueAndUnit_wire m) KeyValueAndUnit_zero m.
Proof.
  rd_message m KeyValueAndUnit_ok KeyValueAndUnit_wire.
  rd_int i32 i32_u64 3 "UnitStrindex" KeyValueAndUnit_UnitStrindex.
  rd_msg 2 "Value" KeyValueAndUnit_Value.
  rd_int i32 i32_u64 1 "KeyStrindex" KeyValueAndUnit_KeyStrindex.
Qed.

Lemma KeyValueAndUnit_safe : SafeStep KeyValueAndUnit_step (KeyValueAndUnit_ok false).
Proof. safe_message KeyValueAndUnit_step KeyValueAndUnit_ok. Qed.

#[export] Instance KeyValueAndUnit_laws : CodecLaws KeyValueAndUnit.
Proof.
  apply (fields_laws KeyValueAndUnit_step); [done| | | |].
  - apply KeyValueAndUnit_enc.
  - apply KeyValueAndUnit_rd.
  - apply KeyValueAndUnit_safe.
  - zero_ok KeyValueAndUnit_ok.
Qed.

(** ** ProfilesDictionary *)
Record ProfilesDictionary := mkProfilesDictionary {
  ProfilesDictionary_MappingTable : list Mapping;
  ProfilesDictionary_LocationTable : list Location;
  ProfilesDictionary_FunctionTable : list Function;
  ProfilesDictionary_LinkTable : list Link;
  ProfilesDictionary_StringTable : list (list Z);
  ProfilesDictionary_AttributeTable : list KeyValueAndUnit;
  ProfilesDictionary_StackTable : list Stack;
}.

Definition ProfilesDictionary_zero : ProfilesDictionary :=
  mkProfilesDictionary [] [] [] [] [] [] [].

#[export] Instance ProfilesDictionary_settable : Settable ProfilesDictionary :=
  settable! mkProfilesDictionary <ProfilesDictionary_MappingTable; ProfilesDictionary_LocationTable;
    ProfilesDictionary_FunctionTable; ProfilesDictionary_LinkTable; ProfilesDictionary_StringTable;
    ProfilesDictionary_AttributeTable; ProfilesDictionary_StackTable>.

Definition ProfilesDictionary_SizeProto (m : ProfilesDictionary) : Z :=
  sizeRepeated (fun x => sizeLen 1 (SizeProto x)) (ProfilesDictionary_MappingTable m) +
  sizeRepeated (fun x => sizeLen 1 (SizeProto x)) (ProfilesDictionary_LocationTable m) +
  sizeRepeated (fun x => sizeLen 1 (SizeProto x)) (ProfilesDictionary_FunctionTable m) +
  sizeRepeated (fun x => sizeLen 1 (SizeProto x)) (ProfilesDictionary_LinkTable m) +
  sizeRepeated (fun s => sizeLen 1 (len s)) (ProfilesDictionary_StringTable m) +
  sizeRepeated (fun x => sizeLen 1 (SizeProto x)) (ProfilesDictionary_AttributeTable m) +
  sizeRepeated (fun x => sizeLen 1 (SizeProto x)) (ProfilesDictionary_StackTable m).

Definition ProfilesDictionary_MarshalProto (m : ProfilesDictionary) : list Z -> res (Z * list Z) :=
  runW (
    wRepeated (fun x => wMsg (wByte 0xa) (MarshalProto x)) (ProfilesDictionary_MappingTable m) >;>
    wRepeated (fun x => wMsg (wByte 0x12) (MarshalProto x)) (ProfilesDictionary_LocationTable m) >;>
    wRepeated (fun x => wMsg (wByte 0x1a) (MarshalProto x)) (ProfilesDictionary_FunctionTable m) >;>
    wRepeated (fun x => wMsg (wByte 0x22) (MarshalProto x)) (ProfilesDictionary_LinkTable m) >;>
    wRepeated (fun s => wLen (wByte 0x2a) s) (ProfilesDictionary_StringTable m) >;>
    wRepeated (fun x => wMsg (wByte 0x32) (MarshalProto x)) (ProfilesDictionary_AttributeTable m) >;>
    wRepeated (fun x => wMsg (wByte 0x3a) (MarshalProto x)) (ProfilesDictionary_StackTable m)).

Definition ProfilesDictionary_step (fieldNum wireType : Z) (buf : list Z) (pos : Z) (m : ProfilesDictionary) :
  res (ProfilesDictionary * Z) :=
  match fieldNum with
  | 1 => let* (b, pos) := readLen "MappingTable" wireType buf pos in
      let* v := UnmarshalProto b zero in
      Ok (m <| ProfilesDictionary_MappingTable := ProfilesDictionary_MappingTable m ++ [v] |>, pos)
  | 2 => let* (b, pos) := readLen "LocationTable" wireType buf pos in
      let* v := UnmarshalProto b zero in
      Ok (m <| ProfilesDictionary_LocationTable := ProfilesDictionary_LocationTable m ++ [v] |>, pos)
  | 3 => let* (b, pos) := readLen "FunctionTable" wireType buf pos in
      let* v := UnmarshalProto b zero in
      Ok (m <| ProfilesDictionary_FunctionTable := ProfilesDictionary_FunctionTable m ++ [v] |>, pos)
  | 4 => let* (b, pos) := readLen "LinkTable" wireType buf pos in
      let* v := UnmarshalProto b zero in
      Ok (m <| ProfilesDictionary_LinkTable := ProfilesDictionary_LinkTable m ++ [v] |>, pos)
  | 5 => let* (b, pos) := readLen "StringTable" wireType buf pos in
      Ok (m <| ProfilesDictionary_StringTable := ProfilesDictionary_StringTable m ++ [b] |>, pos)
  | 6 => let* (b, pos) := readLen "AttributeTable" wireType buf pos in
      let* v := UnmarshalProto b zero in
      Ok (m <| ProfilesDictionary_AttributeTable := ProfilesDictionary_AttributeTable m ++ [v] |>, pos)
  | 7 => let* (b, pos) := readLen "StackTable" wireType buf pos in
      let* v := UnmarshalProto b zero in
      Ok (m <| ProfilesDictionary_StackTable := ProfilesDictionary_StackTable m ++ [v] |>, pos)
  | _ => skipField wireType buf pos m
  end.

Definition ProfilesDictionary_wire (m : ProfilesDictionary) : list Z :=
  fRepeated (fun x => fLen 7 (wire x)) (ProfilesDictionary_StackTable m) ++
  fRepeated (fun x => fLen 6 (wire x)) (ProfilesDictionary_AttributeTable m) ++
  fRepeated (fun s => fLen 5 s) (ProfilesDictionary_StringTable m) ++
  fRepeated (fun x => fLen 4 (wire x)) (ProfilesDictionary_LinkTable m) ++
  fRepeated (fun x => fLen 3 (wire x)) (ProfilesDictionary_FunctionTable m) ++
  fRepeated (fun x => fLen 2 (wire x)) (ProfilesDictionary_LocationTable m) ++
  fRepeated (fun x => fLen 1 (wire x)) (ProfilesDictionary_MappingTable m).

Definition ProfilesDictionary_ok (strict : bool) (m : ProfilesDictionary) : Prop :=
  Forall (wellFormed strict) (ProfilesDictionary_MappingTable m) /\
  Forall (wellFormed strict) (ProfilesDictionary_LocationTable m) /\
  Forall (wellFormed strict) (ProfilesDictionary_FunctionTable m) /\
  Forall (wellFormed strict) (ProfilesDictionary_LinkTable m) /\
  Forall bytes (ProfilesDictionary_StringTable m) /\
  Forall (wellFormed strict) (ProfilesDictionary_AttributeTable m) /\
  Forall (wellFormed strict) (ProfilesDictionary_StackTable m).

#[export] Instance ProfilesDictionary_codec : Codec ProfilesDictionary :=
  { zero := ProfilesDictionary_zero;
    SizeProto := ProfilesDictionary_SizeProto;
    MarshalProto := ProfilesDictionary_MarshalProto;
    UnmarshalProto := unmarshalFields ProfilesDictionary_step;
    wire := ProfilesDictionary_wire;
    wellFormed := ProfilesDictionary_ok }.

Lemma ProfilesDictionary_enc strict m :
  ProfilesDictionary_ok strict m -> Encodes (ProfilesDictionary_MarshalProto m) (ProfilesDictionary_SizeProto m)
    (ProfilesDictionary_wire m).
Proof. enc_message strict ProfilesDictionary_ok. Qed.

Lemma ProfilesDictionary_rd m :
  ProfilesDictionary_ok true m -> Rd ProfilesDictionary_step (ProfilesDictionary_wire m) ProfilesDictionary_zero m.
Proof.
  rd_message m ProfilesDictionary_ok ProfilesDictionary_wire.
  rd_msgs 7 "StackTable" ProfilesDictionary_StackTable.
  rd_msgs 6 "AttributeTable" ProfilesDictionary_AttributeTable.
  rd_strings 5 "StringTable" ProfilesDictionary_StringTable.
  rd_msgs 4 "LinkTable" ProfilesDictionary_LinkTable.
  rd_msgs 3 "FunctionTable" ProfilesDictionary_FunctionTable.
  rd_msgs 2 "LocationTable" ProfilesDictionary_LocationTable.
  rd_msgs 1 "MappingTable" ProfilesDictionary_MappingTable.
Qed.

Lemma ProfilesDictionary_safe : SafeStep ProfilesDictionary_step (ProfilesDictionary_ok false).
Proof. safe_message ProfilesDictionary_step ProfilesDictionary_ok. Qed.

#[export] Instance ProfilesDictionary_laws : CodecLaws ProfilesDictionary.
Proof.
  apply (fields_laws ProfilesDictionary_step); [done| | | |].
  - apply ProfilesDictionary_enc.
  - apply ProfilesDictionary_rd.
  - apply ProfilesDictionary_safe.
  - zero_ok ProfilesDictionary_ok.
Qed.

(** ** Sample *)
Record Sample := mkSample {
  Sample_AttributeIndices : list Z;
  Sample_Values : list Z;
  Sample_TimestampsUnixNano : list Z;
  Sample_StackIndex : Z;
  Sample_LinkIndex : Z;
}.

Definition Sample_zero : Sample :=
  mkSample [] [] [] 0 0.

#[export] Instance Sample_settable : Settable Sample :=
  settable! mkSample <Sample_AttributeIndices; Sample_Values; Sample_TimestampsUnixNano; Sample_StackIndex;
    Sample_LinkIndex>.

Definition Sample_SizeProto (m : Sample) : Z :=
  (if negb (Sample_StackIndex m =? 0) then 1 + sov (u64 (Sample_StackIndex m)) else 0) +
  (if 0 <? len (Sample_AttributeIndices m) then sizePackedInt 1 (Sample_AttributeIndices m) else 0) +
  (if negb (Sample_LinkIndex m =? 0) then 1 + sov (u64 (Sample_LinkIndex m)) else 0) +
  (if 0 <? len (Sample_Values m) then sizePackedInt 1 (Sample_Values m) else 0) +
  (if 0 <? len (Sample_TimestampsUnixNano m) then sizeLen 1 (len (Sample_TimestampsUnixNano m) * 8) else 0).

Definition Sample_MarshalProto (m : Sample) : list Z -> res (Z * list Z) :=
  runW (
    wWhen (negb (Sample_StackIndex m =? 0)) (wInt (wByte 0x8) (Sample_StackIndex m)) >;>
    wWhen (0 <? len (Sample_AttributeIndices m)) (wPackedInt (wByte 0x12) (Sample_AttributeIndices m)) >;>
    wWhen (negb (Sample_LinkIndex m =? 0)) (wInt (wByte 0x18) (Sample_LinkIndex m)) >;>
    wWhen (0 <? len (Sample_Values m)) (wPackedInt (wByte 0x22) (Sample_Values m)) >;>
    wWhen (0 <? len (Sample_TimestampsUnixNano m)) (wPackedI64 (wByte 0x2a) (Sample_TimestampsUnixNano m))).

Definition Sample_step (fieldNum wireType : Z) (buf : list Z) (pos : Z) (m : Sample) :
  res (Sample * Z) :=
  match fieldNum with
  | 1 => let* (num, pos) := readVarint "StackIndex" wireType buf pos in
      Ok (m <| Sample_StackIndex := i32 num |>, pos)
  | 2 => let* (l, pos) := readPackedInt i32 "AttributeIndices" wireType buf pos (Sample_AttributeIndices m) in
      Ok (m <| Sample_AttributeIndices := l |>, pos)
  | 3 => let* (num, pos) := readVarint "LinkIndex" wireType buf pos in
      Ok (m <| Sample_LinkIndex := i32 num |>, pos)
  | 4 => let* (l, pos) := readPackedInt i64 "Values" wireType buf pos (Sample_Values m) in
      Ok (m <| Sample_Values := l |>, pos)
  | 5 => let* (l, pos) := readPackedI64 "TimestampsUnixNano" wireType buf pos (Sample_TimestampsUnixNano m) in
      Ok (m <| Sample_TimestampsUnixNano := l |>, pos)
  | _ => skipField wireType buf pos m
  end.

Definition Sample_wire (m : Sample) : list Z :=
  fWhen (0 <? len (Sample_TimestampsUnixNano m)) (fLen 5 (fRepeated (leBytes 8) (Sample_TimestampsUnixNano m))) ++
  fWhen (0 <? len (Sample_Values m)) (fLen 4 (fRepeated (fun v => varint (u64 v)) (Sample_Values m))) ++
  fWhen (negb (Sample_LinkIndex m =? 0)) (fInt 3 (Sample_LinkIndex m)) ++
  fWhen (0 <? len (Sample_AttributeIndices m)) (fLen 2 (fRepeated (fun v => varint (u64 v)) (Sample_AttributeIndices
    m))) ++
  fWhen (negb (Sample_StackIndex m =? 0)) (fInt 1 (Sample_StackIndex m)).

Definition Sample_ok (strict : bool) (m : Sample) : Prop :=
  Forall is_i32 (Sample_AttributeIndices m) /\
  Forall is_i64 (Sample_Values m) /\
  Forall is_u64 (Sample_TimestampsUnixNano m) /\
  is_i32 (Sample_StackIndex m) /\
  is_i32 (Sample_LinkIndex m).

#[export] Instance Sample_codec : Codec Sample :=
  { zero := Sample_zero;
    SizeProto := Sample_SizeProto;
    MarshalProto := Sample_MarshalProto;
    UnmarshalProto := unmarshalFields Sample_step;
    wire := Sample_wire;
    wellFormed := Sample_ok }.

Lemma Sample_enc strict m :
  Sample_ok strict m -> Encodes (Sample_MarshalProto m) (Sample_SizeProto m) (Sample_wire m).
Proof. enc_message strict Sample_ok. Qed.

Lemma Sample_rd m :
  Sample_ok true m -> Rd Sample_step (Sample_wire m) Sample_zero m.
Proof.
  rd_message m Sample_ok Sample_wire.
  rd_packedI64 5 "TimestampsUnixNano" Sample_TimestampsUnixNano.
  rd_packedInt i64 i64_u64 4 "Values" Sample_Values.
  rd_int i32 i32_u64 3 "LinkIndex" Sample_LinkIndex.
  rd_packedInt i32 i32_u64 2 "AttributeIndices" Sample_AttributeIndices.
  rd_int i32 i32_u64 1 "StackIndex" Sample_StackIndex.
Qed.

Lemma Sample_safe : SafeStep Sample_step (Sample_ok false).
Proof. safe_message Sample_step Sample_ok. Qed.

#[export] Instance Sample_laws : CodecLaws Sample.
Proof.
  apply (fields_laws Sample_step); [done| | | |].
  - apply Sample_enc.
  - apply Sample_rd.
  - apply Sample_safe.
  - zero_ok Sample_ok.
Qed.

(** ** Profile *)
Record Profile := mkProfile {
  Profile_OriginalPayloadFormat : list Z;
  Profile_Samples : list Sample;
  Profile_OriginalPayload : list Z;
  Profile_AttributeIndices : list Z;
  Profile_TimeUnixNano : Z;
  Profile_DurationNano : Z;
  Profile_Period : Z;
  Profile_SampleType : ValueType;
  Profile_PeriodType : ValueType;
  Profile_DroppedAttributesCount : Z;
  Profile_ProfileId : ProfileID;
}.

Definition Profile_zero : Profile :=
  mkProfile [] [] [] [] 0 0 0 zero zero 0 zero.

#[export] Instance Profile_settable : Settable Profile :=
  settable! mkProfile <Profile_OriginalPayloadFormat; Profile_Samples; Profile_OriginalPayload;
    Profile_AttributeIndices; Profile_TimeUnixNano; Profile_DurationNano; Profile_Period; Profile_SampleType;
    Profile_PeriodType; Profile_DroppedAttributesCount; Profile_ProfileId>.

Definition Profile_SizeProto (m : Profile) : Z :=
  sizeLen 1 (SizeProto (Profile_SampleType m)) +
  sizeRepeated (fun x => sizeLen 1 (SizeProto x)) (Profile_Samples m) +
  (if negb (Profile_TimeUnixNano m =? 0) then 9 else 0) +
  (if negb (Profile_DurationNano m =? 0) then 1 + sov (u64 (Profile_DurationNano m)) else 0) +
  sizeLen 1 (SizeProto (Profile_PeriodType m)) +
  (if negb (Profile_Period m =? 0) then 1 + sov (u64 (Profile_Period m)) else 0) +
  sizeLen 1 (SizeProto (Profile_ProfileId m)) +
  (if negb (Profile_DroppedAttributesCount m =? 0) then 1 + sov (u64 (Profile_DroppedAttributesCount m)) else 0) +
  (if 0 <? len (Profile_OriginalPayloadFormat m) then sizeLen 1 (len (Profile_OriginalPayloadFormat m)) else 0) +
  (if 0 <? len (Profile_OriginalPayload m) then sizeLen 1 (len (Profile_OriginalPayload m)) else 0) +
  (if 0 <? len (Profile_AttributeIndices m) then sizePackedInt 1 (Profile_AttributeIndices m) else 0).

Definition Profile_MarshalProto (m : Profile) : list Z -> res (Z * list Z) :=
  runW (
    wMsg (wByte 0xa) (MarshalProto (Profile_SampleType m)) >;>
    wRepeated (fun x => wMsg (wByte 0x12) (MarshalProto x)) (Profile_Samples m) >;>
    wWhen (negb (Profile_TimeUnixNano m =? 0)) (wI64 (wByte 0x19) (Profile_TimeUnixNano m)) >;>
    wWhen (negb (Profile_DurationNano m =? 0)) (wInt (wByte 0x20) (Profile_DurationNano m)) >;>
    wMsg (wByte 0x2a) (MarshalProto (Profile_PeriodType m)) >;>
    wWhen (negb (Profile_Period m =? 0)) (wInt (wByte 0x30) (Profile_Period m)) >;>
    wMsg (wByte 0x3a) (MarshalProto (Profile_ProfileId m)) >;>
    wWhen (negb (Profile_DroppedAttributesCount m =? 0)) (wInt (wByte 0x40) (Profile_DroppedAttributesCount m)) >;>
    wWhen (0 <? len (Profile_OriginalPayloadFormat m)) (wLen (wByte 0x4a) (Profile_OriginalPayloadFormat m)) >;>
    wWhen (0 <? len (Profile_OriginalPayload m)) (wLen (wByte 0x52) (Profile_OriginalPayload m)) >;>
    wWhen (0 <? len (Profile_AttributeIndices m)) (wPackedInt (wByte 0x5a) (Profile_AttributeIndices m))).

Definition Profile_step (fieldNum wireType : Z) (buf : list Z) (pos : Z) (m : Profile) :
  res (Profile * Z) :=
  match fieldNum with
  | 1 => let* (b, pos) := readLen "SampleType" wireType buf pos in
      let* v := UnmarshalProto b (Profile_SampleType m) in
      Ok (m <| Profile_SampleType := v |>, pos)
  | 2 => let* (b, pos) := readLen "Samples" wireType buf pos in
      let* v := UnmarshalProto b zero in
      Ok (m <| Profile_Samples := Profile_Samples m ++ [v] |>, pos)
  | 3 => let* (num, pos) := readI64 "TimeUnixNano" wireType buf pos in
      Ok (m <| Profile_TimeUnixNano := num |>, pos)
  | 4 => let* (num, pos) := readVarint "DurationNano" wireType buf pos in
      Ok (m <| Profile_DurationNano := num |>, pos)
  | 5 => let* (b, pos) := readLen "PeriodType" wireType buf pos in
      let* v := UnmarshalProto b (Profile_PeriodType m) in
      Ok (m <| Profile_PeriodType := v |>, pos)
  | 6 => let* (num, pos) := readVarint "Period" wireType buf pos in
      Ok (m <| Profile_Period := i64 num |>, pos)
  | 7 => let* (b, pos) := readLen "ProfileId" wireType buf pos in
      let* v := UnmarshalProto b (Profile_ProfileId m) in
      Ok (m <| Profile_ProfileId := v |>, pos)
  | 8 => let* (num, pos) := readVarint "DroppedAttributesCount" wireType buf pos in
      Ok (m <| Profile_DroppedAttributesCount := u32 num |>, pos)
  | 9 => let* (b, pos) := readLen "OriginalPayloadFormat" wireType buf pos in
      Ok (m <| Profile_OriginalPayloadFormat := b |>, pos)
  | 10 => let* (b, pos) := readLen "OriginalPayload" wireType buf pos in
      Ok (m <| Profile_OriginalPayload := setBytes b (Profile_OriginalPayload m) |>, pos)
  | 11 => let* (l, pos) := readPackedInt i32 "AttributeIndices" wireType buf pos (Profile_AttributeIndices m) in
      Ok (m <| Profile_AttributeIndices := l |>, pos)
  | _ => skipField wireType buf pos m
  end.

Definition Profile_wire (m : Profile) : list Z :=
  fWhen (0 <? len (Profile_AttributeIndices m)) (fLen 11 (fRepeated (fun v => varint (u64 v))
    (Profile_AttributeIndices m))) ++
  fWhen (0 <? len (Profile_OriginalPayload m)) (fLen 10 (Profile_OriginalPayload m)) ++
  fWhen (0 <? len (Profile_OriginalPayloadFormat m)) (fLen 9 (Profile_OriginalPayloadFormat m)) ++
  fWhen (negb (Profile_DroppedAttributesCount m =? 0)) (fInt 8 (Profile_DroppedAttributesCount m)) ++
  fLen 7 (wire (Profile_ProfileId m)) ++
  fWhen (negb (Profile_Period m =? 0)) (fInt 6 (Profile_Period m)) ++
  fLen 5 (wire (Profile_PeriodType m)) ++
  fWhen (negb (Profile_DurationNano m =? 0)) (fInt 4 (Profile_DurationNano m)) ++
  fWhen (negb (Profile_TimeUnixNano m =? 0)) (fI64 3 (Profile_TimeUnixNano m)) ++
  fRepeated (fun x => fLen 2 (wire x)) (Profile_Samples m) ++
  fLen 1 (wire (Profile_SampleType m)).

Definition Profile_ok (strict : bool) (m : Profile) : Prop :=
  bytes (Profile_OriginalPayloadFormat m) /\
  Forall (wellFormed strict) (Profile_Samples m) /\
  bytes (Profile_OriginalPayload m) /\
  Forall is_i32 (Profile_AttributeIndices m) /\
  is_u64 (Profile_TimeUnixNano m) /\
  is_u64 (Profile_DurationNano m) /\
  is_i64 (Profile_Period m) /\
  wellFormed strict (Profile_SampleType m) /\
  wellFormed strict (Profile_PeriodType m) /\
  is_u32 (Profile_DroppedAttributesCount m) /\
  wellFormed strict (Profile_ProfileId m).

#[export] Instance Profile_codec : Codec Profile :=
  { zero := Profile_zero;
    SizeProto := Profile_SizeProto;
    MarshalProto := Profile_MarshalProto;
    UnmarshalProto := unmarshalFields Profile_step;
    wire := Profile_wire;
    wellFormed := Profile_ok }.

Lemma Profile_enc strict m :
  Profile_ok strict m -> Encodes (Profile_MarshalProto m) (Profile_SizeProto m) (Profile_wire m).
Proof. enc_message strict Profile_ok. Qed.

Lemma Profile_rd m :
  Profile_ok true m -> Rd Profile_step (Profile_wire m) Profile_zero m.
Proof.
  rd_message m Profile_ok Profile_wire.
  rd_packedInt i32 i32_u64 11 "AttributeIndices" Profile_AttributeIndices.
  rd_bytes 10 "OriginalPayload" Profile_OriginalPayload.
  rd_string 9 "OriginalPayloadFormat" Profile_OriginalPayloadFormat.
  rd_int u32 u32_u64 8 "DroppedAttributesCount" Profile_DroppedAttributesCount.
  rd_msg 7 "ProfileId" Profile_ProfileId.
  rd_int i64 i64_u64 6 "Period" Profile_Period.
  rd_msg 5 "PeriodType" Profile_PeriodType.
  rd_int (fun z : Z => z) u64_id 4 "DurationNano" Profile_DurationNano.
  rd_i64 3 "TimeUnixNano" Profile_TimeUnixNano.
  rd_msgs 2 "Samples" Profile_Samples.
  rd_msg 1 "SampleType" Profile_SampleType.
Qed.

Lemma Profile_safe : SafeStep Profile_step (Profile_ok false).
Proof. safe_message Profile_step Profile_ok. Qed.

#[export] Instance Profile_laws : CodecLaws Profile.
Proof.
  apply (fields_laws Profile_step); [done| | | |].
  - apply Profile_enc.
  - apply Profile_rd.
  - apply Profile_safe.
  - zero_ok Profile_ok.
Qed.

(** ** ScopeProfiles *)
Record ScopeProfiles := mkScopeProfiles {
  ScopeProfiles_SchemaUrl : list Z;
  ScopeProfiles_Profiles : list Profile;
  ScopeProfiles_Scope : InstrumentationScope;
}.

Definition ScopeProfiles_zero : ScopeProfiles :=
  mkScopeProfiles [] [] zero.

#[export] Instance ScopeProfiles_settable : Settable ScopeProfiles :=
  settable! mkScopeProfiles <ScopeProfiles_SchemaUrl; ScopeProfiles_Profiles; ScopeProfiles_Scope>.

Definition ScopeProfiles_SizeProto (m : ScopeProfiles) : Z :=
  sizeLen 1 (SizeProto (ScopeProfiles_Scope m)) +
  sizeRepeated (fun x => sizeLen 1 (SizeProto x)) (ScopeProfiles_Profiles m) +
  (if 0 <? len (ScopeProfiles_SchemaUrl m) then sizeLen 1 (len (ScopeProfiles_SchemaUrl m)) else 0).

Definition ScopeProfiles_MarshalProto (m : ScopeProfiles) : list Z -> res (Z * list Z) :=
  runW (
    wMsg (wByte 0xa) (MarshalProto (ScopeProfiles_Scope m)) >;>
    wRepeated (fun x => wMsg (wByte 0x12) (MarshalProto x)) (ScopeProfiles_Profiles m) >;>
    wWhen (0 <? len (ScopeProfiles_SchemaUrl m)) (wLen (wByte 0x1a) (ScopeProfiles_SchemaUrl m))).

Definition ScopeProfiles_step (fieldNum wireType : Z) (buf : list Z) (pos : Z) (m : ScopeProfiles) :
  res (ScopeProfiles * Z) :=
  match fieldNum with
  | 1 => let* (b, pos) := readLen "Scope" wireType buf pos in
      let* v := UnmarshalProto b (ScopeProfiles_Scope m) in
      Ok (m <| ScopeProfiles_Scope := v |>, pos)
  | 2 => let* (b, pos) := readLen "Profiles" wireType buf pos in
      let* v := UnmarshalProto b zero in
      Ok (m <| ScopeProfiles_Profiles := ScopeProfiles_Profiles m ++ [v] |>, pos)
  | 3 => let* (b, pos) := readLen "SchemaUrl" wireType buf pos in
      Ok (m <| ScopeProfiles_SchemaUrl := b |>, pos)
  | _ => skipField wireType buf pos m
  end.

Definition ScopeProfiles_wire (m : ScopeProfiles) : list Z :=
  fWhen (0 <? len (ScopeProfiles_SchemaUrl m)) (fLen 3 (ScopeProfiles_SchemaUrl m)) ++
  fRepeated (fun x => fLen 2 (wire x)) (ScopeProfiles_Profiles m) ++
  fLen 1 (wire (ScopeProfiles_Scope m)).

Definition ScopeProfiles_ok (strict : bool) (m : ScopeProfiles) : Prop :=
  bytes (ScopeProfiles_SchemaUrl m) /\
  Forall (wellFormed strict) (ScopeProfiles_Profiles m) /\
  wellFormed strict (ScopeProfiles_Scope m).

#[export] Instance ScopeProfiles_codec : Codec ScopeProfiles :=
  { zero := ScopeProfiles_zero;
    SizeProto := ScopeProfiles_SizeProto;
    MarshalProto := ScopeProfiles_MarshalProto;
    UnmarshalProto := unmarshalFields ScopeProfiles_step;
    wire := ScopeProfiles_wire;
    wellFormed := ScopeProfiles_ok }.

Lemma ScopeProfiles_enc strict m :
  ScopeProfiles_ok strict m -> Encodes (ScopeProfiles_MarshalProto m) (ScopeProfiles_SizeProto m)
    (ScopeProfiles_wire m).
Proof. enc_message strict ScopeProfiles_ok. Qed.

Lemma ScopeProfiles_rd m :
  ScopeProfiles_ok true m -> Rd ScopeProfiles_step (ScopeProfiles_wire m) ScopeProfiles_zero m.
Proof.
  rd_message m ScopeProfiles_ok ScopeProfiles_wire.
  rd_string 3 "SchemaUrl" ScopeProfiles_SchemaUrl.
  rd_msgs 2 "Profiles" ScopeProfiles_Profiles.
  rd_msg 1 "Scope" ScopeProfiles_Scope.
Qed.

Lemma ScopeProfiles_safe : SafeStep ScopeProfiles_step (ScopeProfiles_ok false).
Proof. safe_message ScopeProfiles_step ScopeProfiles_ok. Qed.

#[export] Instance ScopeProfiles_laws : CodecLaws ScopeProfiles.
Proof.
  apply (fields_laws ScopeProfiles_step); [done| | | |].
  - apply ScopeProfiles_enc.
  - apply ScopeProfiles_rd.
  - apply ScopeProfiles_safe.
  - zero_ok ScopeProfiles_ok.
Qed.

(** ** ResourceProfiles *)
Record ResourceProfiles := mkResourceProfiles {
  ResourceProfiles_SchemaUrl : list Z;
  ResourceProfiles_Resource : Resource;
  ResourceProfiles_ScopeProfiles : list ScopeProfiles;
}.

Definition ResourceProfiles_zero : ResourceProfiles :=
  mkResourceProfiles [] zero [].

#[export] Instance ResourceProfiles_settable : Settable ResourceProfiles :=
  settable! mkResourceProfiles <ResourceProfiles_SchemaUrl; ResourceProfiles_Resource;
    ResourceProfiles_ScopeProfiles>.

Definition ResourceProfiles_SizeProto (m : ResourceProfiles) : Z :=
  sizeLen 1 (SizeProto (ResourceProfiles_Resource m)) +
  sizeRepeated (fun x => sizeLen 1 (SizeProto x)) (ResourceProfiles_ScopeProfiles m) +
  (if 0 <? len (ResourceProfiles_SchemaUrl m) then sizeLen 1 (len (ResourceProfiles_SchemaUrl m)) else 0).

Definition ResourceProfiles_MarshalProto (m : ResourceProfiles) : list Z -> res (Z * list Z) :=
  runW (
    wMsg (wByte 0xa) (MarshalProto (ResourceProfiles_Resource m)) >;>
    wRepeated (fun x => wMsg (wByte 0x12) (MarshalProto x)) (ResourceProfiles_ScopeProfiles m) >;>
    wWhen (0 <? len (ResourceProfiles_SchemaUrl m)) (wLen (wByte 0x1a) (ResourceProfiles_SchemaUrl m))).

Definition ResourceProfiles_step (fieldNum wireType : Z) (buf : list Z) (pos : Z) (m : ResourceProfiles) :
  res (ResourceProfiles * Z) :=
  match fieldNum with
  | 1 => let* (b, pos) := readLen "Resource" wireType buf pos in
      let* v := UnmarshalProto b (ResourceProfiles_Resource m) in
      Ok (m <| ResourceProfiles_Resource := v |>, pos)
  | 2 => let* (b, pos) := readLen "ScopeProfiles" wireType buf pos in
      let* v := UnmarshalProto b zero in
      Ok (m <| ResourceProfiles_ScopeProfiles := ResourceProfiles_ScopeProfiles m ++ [v] |>, pos)
  | 3 => let* (b, pos) := readLen "SchemaUrl" wireType buf pos in
      Ok (m <| ResourceProfiles_SchemaUrl := b |>, pos)
  | _ => skipField wireType buf pos m
  end.

Definition ResourceProfiles_wire (m : ResourceProfiles) : list Z :=
  fWhen (0 <? len (ResourceProfiles_SchemaUrl m)) (fLen 3 (ResourceProfiles_SchemaUrl m)) ++
  fRepeated (fun x => fLen 2 (wire x)) (ResourceProfiles_ScopeProfiles m) ++
  fLen 1 (wire (ResourceProfiles_Resource m)).

Definition ResourceProfiles_ok (strict : bool) (m : ResourceProfiles) : Prop :=
  bytes (ResourceProfiles_SchemaUrl m) /\
  wellFormed strict (ResourceProfiles_Resource m) /\
  Forall (wellFormed strict) (ResourceProfiles_ScopeProfiles m).

#[export] Instance ResourceProfiles_codec : Codec ResourceProfiles :=
  { zero := ResourceProfiles_zero;
    SizeProto := ResourceProfiles_SizeProto;
    MarshalProto := ResourceProfiles_MarshalProto;
    UnmarshalProto := unmarshalFields ResourceProfiles_step;
    wire := ResourceProfiles_wire;
    wellFormed := ResourceProfiles_ok }.

Lemma ResourceProfiles_enc strict m :
  ResourceProfiles_ok strict m -> Encodes (ResourceProfiles_MarshalProto m) (ResourceProfiles_SizeProto m)
    (ResourceProfiles_wire m).
Proof. enc_message strict ResourceProfiles_ok. Qed.

Lemma ResourceProfiles_rd m :
  ResourceProfiles_ok true m -> Rd ResourceProfiles_step (ResourceProfiles_wire m) ResourceProfiles_zero m.
Proof.
  rd_message m ResourceProfiles_ok ResourceProfiles_wire.
  rd_string 3 "SchemaUrl" ResourceProfiles_SchemaUrl.
  rd_msgs 2 "ScopeProfiles" ResourceProfiles_ScopeProfiles.
  rd_msg 1 "Resource" ResourceProfiles_Resource.
Qed.

Lemma ResourceProfiles_safe : SafeStep ResourceProfiles_step (ResourceProfiles_ok false).
Proof. safe_message ResourceProfiles_step ResourceProfiles_ok. Qed.

#[export] Instance ResourceProfiles_laws : CodecLaws ResourceProfiles.
Proof.
  apply (fields_laws ResourceProfiles_step); [done| | | |].
  - apply ResourceProfiles_enc.
  - apply ResourceProfiles_rd.
  - apply ResourceProfiles_safe.
  - zero_ok ResourceProfiles_ok.
Qed.
