(* ===== verification/ProtoExport.v ===== *)
(** * Export messages on the wire

    The export request of profiles, and the partial success and response of each signal
    (generated_proto_export*.go), as in ProtoResource. *)

From S2P Require Import Prelude RecordUpdate Errors Sizers ProtoWire ProtoWireProofs ProtoFields ProtoCommon ProtoCommonProofs ProtoMessage ProtoKinds ProtoIds ProtoResource ProtoProfiles.
Local Open Scope Z_scope.
Local Open Scope otel_scope.

#[local] Opaque RecursionLimit.

(** ** ExportProfilesServiceRequest *)
Record ExportProfilesServiceRequest := mkExportProfilesServiceRequest {
  ExportProfilesServiceRequest_ResourceProfiles : list ResourceProfiles;
  ExportProfilesServiceRequest_Dictionary : ProfilesDictionary;
}.

Definition ExportProfilesServiceRequest_zero : ExportProfilesServiceRequest :=
  mkExportProfilesServiceRequest [] zero.

#[export] Instance ExportProfilesServiceRequest_settable : Settable ExportProfilesServiceRequest :=
  settable! mkExportProfilesServiceRequest <ExportProfilesServiceRequest_ResourceProfiles; ExportProfilesServiceRequest_Dictionary>.

Definition ExportProfilesServiceRequest_SizeProto (m : ExportProfilesServiceRequest) : Z :=
  sizeRepeated (fun x => sizeLen 1 (SizeProto x)) (ExportProfilesServiceRequest_ResourceProfiles m) +
  sizeLen 1 (SizeProto (ExportProfilesServiceRequest_Dictionary m)).

Definition ExportProfilesServiceRequest_MarshalProto (m : ExportProfilesServiceRequest) : list Z -> res (Z * list Z) :=
  runW (
    wRepeated (fun x => wMsg (wByte 0xa) (MarshalProto x)) (ExportProfilesServiceRequest_ResourceProfiles m) >;>
    wMsg (wByte 0x12) (MarshalProto (ExportProfilesServiceRequest_Dictionary m))).

Definition ExportProfilesServiceRequest_step (fieldNum wireType : Z) (buf : list Z) (pos : Z) (m : ExportProfilesServiceRequest) :
  res (ExportProfilesServiceRequest * Z) :=
  match fieldNum with
  | 1 => let* (b, pos) := readLen "ResourceProfiles" wireType buf pos in
      let* v := UnmarshalProto b zero in
      Ok (m <| ExportProfilesServiceRequest_ResourceProfiles := ExportProfilesServiceRequest_ResourceProfiles m ++ [v] |>, pos)
  | 2 => let* (b, pos) := readLen "Dictionary" wireType buf pos in
      let* v := UnmarshalProto b (ExportProfilesServiceRequest_Dictionary m) in
      Ok (m <| ExportProfilesServiceRequest_Dictionary := v |>, pos)
  | _ => skipField wireType buf pos m
  end.

Definition ExportProfilesServiceRequest_wire (m : ExportProfilesServiceRequest) : list Z :=
  fLen 2 (wire (ExportProfilesServiceRequest_Dictionary m)) ++
  fRepeated (fun x => fLen 1 (wire x)) (ExportProfilesServiceRequest_ResourceProfiles m).

Definition ExportProfilesServiceRequest_ok (strict : bool) (m : ExportProfilesServiceRequest) : Prop :=
  Forall (wellFormed strict) (ExportProfilesServiceRequest_ResourceProfiles m) /\
  wellFormed strict (ExportProfilesServiceRequest_Dictionary m).

#[export] Instance ExportProfilesServiceRequest_codec : Codec ExportProfilesServiceRequest :=
  { zero := ExportProfilesServiceRequest_zero;
    SizeProto := ExportProfilesServiceRequest_SizeProto;
    MarshalProto := ExportProfilesServiceRequest_MarshalProto;
    UnmarshalProto := unmarshalFields ExportProfilesServiceRequest_step;
    wire := ExportProfilesServiceRequest_wire;
    wellFormed := ExportProfilesServiceRequest_ok }.

Lemma ExportProfilesServiceRequest_enc strict m :
  ExportProfilesServiceRequest_ok strict m -> Encodes (ExportProfilesServiceRequest_MarshalProto m) (ExportProfilesServiceRequest_SizeProto m)
    (ExportProfilesServiceRequest_wire m).
Proof. enc_message strict ExportProfilesServiceRequest_ok. Qed.

Lemma ExportProfilesServiceRequest_rd m :
  ExportProfilesServiceRequest_ok true m -> Rd ExportProfilesServiceRequest_step (ExportProfilesServiceRequest_wire m)
    ExportProfilesServiceRequest_zero m.
Proof.
  rd_message m ExportProfilesServiceRequest_ok ExportProfilesServiceRequest_wire.
  rd_msg 2 "Dictionary" ExportProfilesServiceRequest_Dictionary.
  rd_msgs 1 "ResourceProfiles" ExportProfilesServiceRequest_ResourceProfiles.
Qed.

Lemma ExportProfilesServiceRequest_safe : SafeStep ExportProfilesServiceRequest_step (ExportProfilesServiceRequest_ok false).
Proof. safe_message ExportProfilesServiceRequest_step ExportProfilesServiceRequest_ok. Qed.

#[export] Instance ExportProfilesServiceRequest_laws : CodecLaws ExportProfilesServiceRequest.
Proof.
  apply (fields_laws ExportProfilesServiceRequest_step); [done| | | |].
  - apply ExportProfilesServiceRequest_enc.
  - apply ExportProfilesServiceRequest_rd.
  - apply ExportProfilesServiceRequest_safe.
  - zero_ok ExportProfilesServiceRequest_ok.
Qed.

(** ** ExportLogsPartialSuccess *)
Record ExportLogsPartialSuccess := mkExportLogsPartialSuccess {
  ExportLogsPartialSuccess_ErrorMessage : list Z;
  ExportLogsPartialSuccess_RejectedLogRecords : Z;
}.

Definition ExportLogsPartialSuccess_zero : ExportLogsPartialSuccess :=
  mkExportLogsPartialSuccess [] 0.

#[export] Instance ExportLogsPartialSuccess_settable : Settable ExportLogsPartialSuccess :=
  settable! mkExportLogsPartialSuccess <ExportLogsPartialSuccess_ErrorMessage; ExportLogsPartialSuccess_RejectedLogRecords>.

Definition ExportLogsPartialSuccess_SizeProto (m : ExportLogsPartialSuccess) : Z :=
  (if negb (ExportLogsPartialSuccess_RejectedLogRecords m =? 0) then 1 + sov (u64 (ExportLogsPartialSuccess_RejectedLogRecords m)) else 0) +
  (if 0 <? len (ExportLogsPartialSuccess_ErrorMessage m) then sizeLen 1 (len (ExportLogsPartialSuccess_ErrorMessage m)) else 0).

Definition ExportLogsPartialSuccess_MarshalProto (m : ExportLogsPartialSuccess) : list Z -> res (Z * list Z) :=
  runW (
    wWhen (negb (ExportLogsPartialSuccess_RejectedLogRecords m =? 0)) (wInt (wByte 0x8) (ExportLogsPartialSuccess_RejectedLogRecords m)) >;>
    wWhen (0 <? len (ExportLogsPartialSuccess_ErrorMessage m)) (wLen (wByte 0x12) (ExportLogsPartialSuccess_ErrorMessage m))).

Definition ExportLogsPartialSuccess_step (fieldNum wireType : Z) (buf : list Z) (pos : Z) (m : ExportLogsPartialSuccess) :
  res (ExportLogsPartialSuccess * Z) :=
  match fieldNum with
  | 1 => let* (num, pos) := readVarint "RejectedLogRecords" wireType buf pos in
      Ok (m <| ExportLogsPartialSuccess_RejectedLogRecords := i64 num |>, pos)
  | 2 => let* (b, pos) := readLen "ErrorMessage" wireType buf pos in
      Ok (m <| ExportLogsPartialSuccess_ErrorMessage := b |>, pos)
  | _ => skipField wireType buf pos m
  end.

Definition ExportLogsPartialSuccess_wire (m : ExportLogsPartialSuccess) : list Z :=
  fWhen (0 <? len (ExportLogsPartialSuccess_ErrorMessage m)) (fLen 2 (ExportLogsPartialSuccess_ErrorMessage m)) ++
  fWhen (negb (ExportLogsPartialSuccess_RejectedLogRecords m =? 0)) (fInt 1 (ExportLogsPartialSuccess_RejectedLogRecords m)).

Definition ExportLogsPartialSuccess_ok (strict : bool) (m : ExportLogsPartialSuccess) : Prop :=
  bytes (ExportLogsPartialSuccess_ErrorMessage m) /\
  is_i64 (ExportLogsPartialSuccess_RejectedLogRecords m).

#[export] Instance ExportLogsPartialSuccess_codec : Codec ExportLogsPartialSuccess :=
  { zero := ExportLogsPartialSuccess_zero;
    SizeProto := ExportLogsPartialSuccess_SizeProto;
    MarshalProto := ExportLogsPartialSuccess_MarshalProto;
    UnmarshalProto := unmarshalFields ExportLogsPartialSuccess_step;
    wire := ExportLogsPartialSuccess_wire;
    wellFormed := ExportLogsPartialSuccess_ok }.

Lemma ExportLogsPartialSuccess_enc strict m :
  ExportLogsPartialSuccess_ok strict m -> Encodes (ExportLogsPartialSuccess_MarshalProto m) (ExportLogsPartialSuccess_SizeProto m)
    (ExportLogsPartialSuccess_wire m).
Proof. enc_message strict ExportLogsPartialSuccess_ok. Qed.

Lemma ExportLogsPartialSuccess_rd m :
  ExportLogsPartialSuccess_ok true m -> Rd ExportLogsPartialSuccess_step (ExportLogsPartialSuccess_wire m)
    ExportLogsPartialSuccess_zero m.
Proof.
  rd_message m ExportLogsPartialSuccess_ok ExportLogsPartialSuccess_wire.
  rd_string 2 "ErrorMessage" ExportLogsPartialSuccess_ErrorMessage.
  rd_int i64 i64_u64 1 "RejectedLogRecords" ExportLogsPartialSuccess_RejectedLogRecords.
Qed.

Lemma ExportLogsPartialSuccess_safe : SafeStep ExportLogsPartialSuccess_step (ExportLogsPartialSuccess_ok false).
Proof. safe_message ExportLogsPartialSuccess_step ExportLogsPartialSuccess_ok. Qed.

#[export] Instance ExportLogsPartialSuccess_laws : CodecLaws ExportLogsPartialSuccess.
Proof.
  apply (fields_laws ExportLogsPartialSuccess_step); [done| | | |].
  - apply ExportLogsPartialSuccess_enc.
  - apply ExportLogsPartialSuccess_rd.
  - apply ExportLogsPartialSuccess_safe.
  - zero_ok ExportLogsPartialSuccess_ok.
Qed.

(** ** ExportLogsServiceResponse *)
Record ExportLogsServiceResponse := mkExportLogsServiceResponse {
  ExportLogsServiceResponse_PartialSuccess : ExportLogsPartialSuccess;
}.

Definition ExportLogsServiceResponse_zero : ExportLogsServiceResponse :=
  mkExportLogsServiceResponse zero.

#[export] Instance ExportLogsServiceResponse_settable : Settable ExportLogsServiceResponse :=
  settable! mkExportLogsServiceResponse <ExportLogsServiceResponse_PartialSuccess>.

Definition ExportLogsServiceResponse_SizeProto (m : ExportLogsServiceResponse) : Z :=
  sizeLen 1 (SizeProto (ExportLogsServiceResponse_PartialSuccess m)).

Definition ExportLogsServiceResponse_MarshalProto (m : ExportLogsServiceResponse) : list Z -> res (Z * list Z) :=
  runW (
    wMsg (wByte 0xa) (MarshalProto (ExportLogsServiceResponse_PartialSuccess m))).

Definition ExportLogsServiceResponse_step (fieldNum wireType : Z) (buf : list Z) (pos : Z) (m : ExportLogsServiceResponse) :
  res (ExportLogsServiceResponse * Z) :=
  match fieldNum with
  | 1 => let* (b, pos) := readLen "PartialSuccess" wireType buf pos in
      let* v := UnmarshalProto b (ExportLogsServiceResponse_PartialSuccess m) in
      Ok (m <| ExportLogsServiceResponse_PartialSuccess := v |>, pos)
  | _ => skipField wireType buf pos m
  end.

Definition ExportLogsServiceResponse_wire (m : ExportLogsServiceResponse) : list Z :=
  fLen 1 (wire (ExportLogsServiceResponse_PartialSuccess m)).

Definition ExportLogsServiceResponse_ok (strict : bool) (m : ExportLogsServiceResponse) : Prop :=
  wellFormed strict (ExportLogsServiceResponse_PartialSuccess m).

#[export] Instance ExportLogsServiceResponse_codec : Codec ExportLogsServiceResponse :=
  { zero := ExportLogsServiceResponse_zero;
    SizeProto := ExportLogsServiceResponse_SizeProto;
    MarshalProto := ExportLogsServiceResponse_MarshalProto;
    UnmarshalProto := unmarshalFields ExportLogsServiceResponse_step;
    wire := ExportLogsServiceResponse_wire;
    wellFormed := ExportLogsServiceResponse_ok }.

Lemma ExportLogsServiceResponse_enc strict m :
  ExportLogsServiceResponse_ok strict m -> Encodes (ExportLogsServiceResponse_MarshalProto m) (ExportLogsServiceResponse_SizeProto m)
    (ExportLogsServiceResponse_wire m).
Proof. enc_message strict ExportLogsServiceResponse_ok. Qed.

Lemma ExportLogsServiceResponse_rd m :
  ExportLogsServiceResponse_ok true m -> Rd ExportLogsServiceResponse_step (ExportLogsServiceResponse_wire m)
    ExportLogsServiceResponse_zero m.
Proof.
  rd_message m ExportLogsServiceResponse_ok ExportLogsServiceResponse_wire.
  rd_msg 1 "PartialSuccess" ExportLogsServiceResponse_PartialSuccess.
Qed.

Lemma ExportLogsServiceResponse_safe : SafeStep ExportLogsServiceResponse_step (ExportLogsServiceResponse_ok false).
Proof. safe_message ExportLogsServiceResponse_step ExportLogsServiceResponse_ok. Qed.

#[export] Instance ExportLogsServiceResponse_laws : CodecLaws ExportLogsServiceResponse.
Proof.
  apply (fields_laws ExportLogsServiceResponse_step); [done| | | |].
  - apply ExportLogsServiceResponse_enc.
  - apply ExportLogsServiceResponse_rd.
  - apply ExportLogsServiceResponse_safe.
  - zero_ok ExportLogsServiceResponse_ok.
Qed.

(** ** ExportMetricsPartialSuccess *)
Record ExportMetricsPartialSuccess := mkExportMetricsPartialSuccess {
  ExportMetricsPartialSuccess_ErrorMessage : list Z;
  ExportMetricsPartialSuccess_RejectedDataPoints : Z;
}.

Definition ExportMetricsPartialSuccess_zero : ExportMetricsPartialSuccess :=
  mkExportMetricsPartialSuccess [] 0.

#[export] Instance ExportMetricsPartialSuccess_settable : Settable ExportMetricsPartialSuccess :=
  settable! mkExportMetricsPartialSuccess <ExportMetricsPartialSuccess_ErrorMessage; ExportMetricsPartialSuccess_RejectedDataPoints>.

Definition ExportMetricsPartialSuccess_SizeProto (m : ExportMetricsPartialSuccess) : Z :=
  (if negb (ExportMetricsPartialSuccess_RejectedDataPoints m =? 0) then 1 + sov (u64 (ExportMetricsPartialSuccess_RejectedDataPoints m)) else 0) +
  (if 0 <? len (ExportMetricsPartialSuccess_ErrorMessage m) then sizeLen 1 (len (ExportMetricsPartialSuccess_ErrorMessage m)) else 0).

Definition ExportMetricsPartialSuccess_MarshalProto (m : ExportMetricsPartialSuccess) : list Z -> res (Z * list Z) :=
  runW (
    wWhen (negb (ExportMetricsPartialSuccess_RejectedDataPoints m =? 0)) (wInt (wByte 0x8) (ExportMetricsPartialSuccess_RejectedDataPoints m)) >;>
    wWhen (0 <? len (ExportMetricsPartialSuccess_ErrorMessage m)) (wLen (wByte 0x12) (ExportMetricsPartialSuccess_ErrorMessage m))).

Definition ExportMetricsPartialSuccess_step (fieldNum wireType : Z) (buf : list Z) (pos : Z) (m : ExportMetricsPartialSuccess) :
  res (ExportMetricsPartialSuccess * Z) :=
  match fieldNum with
  | 1 => let* (num, pos) := readVarint "RejectedDataPoints" wireType buf pos in
      Ok (m <| ExportMetricsPartialSuccess_RejectedDataPoints := i64 num |>, pos)
  | 2 => let* (b, pos) := readLen "ErrorMessage" wireType buf pos in
      Ok (m <| ExportMetricsPartialSuccess_ErrorMessage := b |>, pos)
  | _ => skipField wireType buf pos m
  end.

Definition ExportMetricsPartialSuccess_wire (m : ExportMetricsPartialSuccess) : list Z :=
  fWhen (0 <? len (ExportMetricsPartialSuccess_ErrorMessage m)) (fLen 2 (ExportMetricsPartialSuccess_ErrorMessage m)) ++
  fWhen (negb (ExportMetricsPartialSuccess_RejectedDataPoints m =? 0)) (fInt 1 (ExportMetricsPartialSuccess_RejectedDataPoints m)).

Definition ExportMetricsPartialSuccess_ok (strict : bool) (m : ExportMetricsPartialSuccess) : Prop :=
  bytes (ExportMetricsPartialSuccess_ErrorMessage m) /\
  is_i64 (ExportMetricsPartialSuccess_RejectedDataPoints m).

#[export] Instance ExportMetricsPartialSuccess_codec : Codec ExportMetricsPartialSuccess :=
  { zero := ExportMetricsPartialSuccess_zero;
    SizeProto := ExportMetricsPartialSuccess_SizeProto;
    MarshalProto := ExportMetricsPartialSuccess_MarshalProto;
    UnmarshalProto := unmarshalFields ExportMetricsPartialSuccess_step;
    wire := ExportMetricsPartialSuccess_wire;
    wellFormed := ExportMetricsPartialSuccess_ok }.

Lemma ExportMetricsPartialSuccess_enc strict m :
  ExportMetricsPartialSuccess_ok strict m -> Encodes (ExportMetricsPartialSuccess_MarshalProto m) (ExportMetricsPartialSuccess_SizeProto m)
    (ExportMetricsPartialSuccess_wire m).
Proof. enc_message strict ExportMetricsPartialSuccess_ok. Qed.

Lemma ExportMetricsPartialSuccess_rd m :
  ExportMetricsPartialSuccess_ok true m -> Rd ExportMetricsPartialSuccess_step (ExportMetricsPartialSuccess_wire m)
    ExportMetricsPartialSuccess_zero m.
Proof.
  rd_message m ExportMetricsPartialSuccess_ok ExportMetricsPartialSuccess_wire.
  rd_string 2 "ErrorMessage" ExportMetricsPartialSuccess_ErrorMessage.
  rd_int i64 i64_u64 1 "RejectedDataPoints" ExportMetricsPartialSuccess_RejectedDataPoints.
Qed.

Lemma ExportMetricsPartialSuccess_safe : SafeStep ExportMetricsPartialSuccess_step (ExportMetricsPartialSuccess_ok false).
Proof. safe_message ExportMetricsPartialSuccess_step ExportMetricsPartialSuccess_ok. Qed.

#[export] Instance ExportMetricsPartialSuccess_laws : CodecLaws ExportMetricsPartialSuccess.
Proof.
  apply (fields_laws ExportMetricsPartialSuccess_step); [done| | | |].
  - apply ExportMetricsPartialSuccess_enc.
  - apply ExportMetricsPartialSuccess_rd.
  - apply ExportMetricsPartialSuccess_safe.
  - zero_ok ExportMetricsPartialSuccess_ok.
Qed.

(** ** ExportMetricsServiceResponse *)
Record ExportMetricsServiceResponse := mkExportMetricsServiceResponse {
  ExportMetricsServiceResponse_PartialSuccess : ExportMetricsPartialSuccess;
}.

Definition ExportMetricsServiceResponse_zero : ExportMetricsServiceResponse :=
  mkExportMetricsServiceResponse zero.

#[export] Instance ExportMetricsServiceResponse_settable : Settable ExportMetricsServiceResponse :=
  settable! mkExportMetricsServiceResponse <ExportMetricsServiceResponse_PartialSuccess>.

Definition ExportMetricsServiceResponse_SizeProto (m : ExportMetricsServiceResponse) : Z :=
  sizeLen 1 (SizeProto (ExportMetricsServiceResponse_PartialSuccess m)).

Definition ExportMetricsServiceResponse_MarshalProto (m : ExportMetricsServiceResponse) : list Z -> res (Z * list Z) :=
  runW (
    wMsg (wByte 0xa) (MarshalProto (ExportMetricsServiceResponse_PartialSuccess m))).

Definition ExportMetricsServiceResponse_step (fieldNum wireType : Z) (buf : list Z) (pos : Z) (m : ExportMetricsServiceResponse) :
  res (ExportMetricsServiceResponse * Z) :=
  match fieldNum with
  | 1 => let* (b, pos) := readLen "PartialSuccess" wireType buf pos in
      let* v := UnmarshalProto b (ExportMetricsServiceResponse_PartialSuccess m) in
      Ok (m <| ExportMetricsServiceResponse_PartialSuccess := v |>, pos)
  | _ => skipField wireType buf pos m
  end.

Definition ExportMetricsServiceResponse_wire (m : ExportMetricsServiceResponse) : list Z :=
  fLen 1 (wire (ExportMetricsServiceResponse_PartialSuccess m)).

Definition ExportMetricsServiceResponse_ok (strict : bool) (m : ExportMetricsServiceResponse) : Prop :=
  wellFormed strict (ExportMetricsServiceResponse_PartialSuccess m).

#[export] Instance ExportMetricsServiceResponse_codec : Codec ExportMetricsServiceResponse :=
  { zero := ExportMetricsServiceResponse_zero;
    SizeProto := ExportMetricsServiceResponse_SizeProto;
    MarshalProto := ExportMetricsServiceResponse_MarshalProto;
    UnmarshalProto := unmarshalFields ExportMetricsServiceResponse_step;
    wire := ExportMetricsServiceResponse_wire;
    wellFormed := ExportMetricsServiceResponse_ok }.

Lemma ExportMetricsServiceResponse_enc strict m :
  ExportMetricsServiceResponse_ok strict m -> Encodes (ExportMetricsServiceResponse_MarshalProto m) (ExportMetricsServiceResponse_SizeProto m)
    (ExportMetricsServiceResponse_wire m).
Proof. enc_message strict ExportMetricsServiceResponse_ok. Qed.

Lemma ExportMetricsServiceResponse_rd m :
  ExportMetricsServiceResponse_ok true m -> Rd ExportMetricsServiceResponse_step (ExportMetricsServiceResponse_wire m)
    ExportMetricsServiceResponse_zero m.
Proof.
  rd_message m ExportMetricsServiceResponse_ok ExportMetricsServiceResponse_wire.
  rd_msg 1 "PartialSuccess" ExportMetricsServiceResponse_PartialSuccess.
Qed.

Lemma ExportMetricsServiceResponse_safe : SafeStep ExportMetricsServiceResponse_step (ExportMetricsServiceResponse_ok false).
Proof. safe_message ExportMetricsServiceResponse_step ExportMetricsServiceResponse_ok. Qed.

#[export] Instance ExportMetricsServiceResponse_laws : CodecLaws ExportMetricsServiceResponse.
Proof.
  apply (fields_laws ExportMetricsServiceResponse_step); [done| | | |].
  - apply ExportMetricsServiceResponse_enc.
  - apply ExportMetricsServiceResponse_rd.
  - apply ExportMetricsServiceResponse_safe.
  - zero_ok ExportMetricsServiceResponse_ok.
Qed.

(** ** ExportTracePartialSuccess *)
Record ExportTracePartialSuccess := mkExportTracePartialSuccess {
  ExportTracePartialSuccess_ErrorMessage : list Z;
  ExportTracePartialSuccess_RejectedSpans : Z;
}.

Definition ExportTracePartialSuccess_zero : ExportTracePartialSuccess :=
  mkExportTracePartialSuccess [] 0.

#[export] Instance ExportTracePartialSuccess_settable : Settable ExportTracePartialSuccess :=
  settable! mkExportTracePartialSuccess <ExportTracePartialSuccess_ErrorMessage; ExportTracePartialSuccess_RejectedSpans>.

Definition ExportTracePartialSuccess_SizeProto (m : ExportTracePartialSuccess) : Z :=
  (if negb (ExportTracePartialSuccess_RejectedSpans m =? 0) then 1 + sov (u64 (ExportTracePartialSuccess_RejectedSpans m)) else 0) +
  (if 0 <? len (ExportTracePartialSuccess_ErrorMessage m) then sizeLen 1 (len (ExportTracePartialSuccess_ErrorMessage m)) else 0).

Definition ExportTracePartialSuccess_MarshalProto (m : ExportTracePartialSuccess) : list Z -> res (Z * list Z) :=
  runW (
    wWhen (negb (ExportTracePartialSuccess_RejectedSpans m =? 0)) (wInt (wByte 0x8) (ExportTracePartialSuccess_RejectedSpans m)) >;>
    wWhen (0 <? len (ExportTracePartialSuccess_ErrorMessage m)) (wLen (wByte 0x12) (ExportTracePartialSuccess_ErrorMessage m))).

Definition ExportTracePartialSuccess_step (fieldNum wireType : Z) (buf : list Z) (pos : Z) (m : ExportTracePartialSuccess) :
  res (ExportTracePartialSuccess * Z) :=
  match fieldNum with
  | 1 => let* (num, pos) := readVarint "RejectedSpans" wireType buf pos in
      Ok (m <| ExportTracePartialSuccess_RejectedSpans := i64 num |>, pos)
  | 2 => let* (b, pos) := readLen "ErrorMessage" wireType buf pos in
      Ok (m <| ExportTracePartialSuccess_ErrorMessage := b |>, pos)
  | _ => skipField wireType buf pos m
  end.

Definition ExportTracePartialSuccess_wire (m : ExportTracePartialSuccess) : list Z :=
  fWhen (0 <? len (ExportTracePartialSuccess_ErrorMessage m)) (fLen 2 (ExportTracePartialSuccess_ErrorMessage m)) ++
  fWhen (negb (ExportTracePartialSuccess_RejectedSpans m =? 0)) (fInt 1 (ExportTracePartialSuccess_RejectedSpans m)).

Definition ExportTracePartialSuccess_ok (strict : bool) (m : ExportTracePartialSuccess) : Prop :=
  bytes (ExportTracePartialSuccess_ErrorMessage m) /\
  is_i64 (ExportTracePartialSuccess_RejectedSpans m).

#[export] Instance ExportTracePartialSuccess_codec : Codec ExportTracePartialSuccess :=
  { zero := ExportTracePartialSuccess_zero;
    SizeProto := ExportTracePartialSuccess_SizeProto;
    MarshalProto := ExportTracePartialSuccess_MarshalProto;
    UnmarshalProto := unmarshalFields ExportTracePartialSuccess_step;
    wire := ExportTracePartialSuccess_wire;
    wellFormed := ExportTracePartialSuccess_ok }.

Lemma ExportTracePartialSuccess_enc strict m :
  ExportTracePartialSuccess_ok strict m -> Encodes (ExportTracePartialSuccess_MarshalProto m) (ExportTracePartialSuccess_SizeProto m)
    (ExportTracePartialSuccess_wire m).
Proof. enc_message strict ExportTracePartialSuccess_ok. Qed.

Lemma ExportTracePartialSuccess_rd m :
  ExportTracePartialSuccess_ok true m -> Rd ExportTracePartialSuccess_step (ExportTracePartialSuccess_wire m)
    ExportTracePartialSuccess_zero m.
Proof.
  rd_message m ExportTracePartialSuccess_ok ExportTracePartialSuccess_wire.
  rd_string 2 "ErrorMessage" ExportTracePartialSuccess_ErrorMessage.
  rd_int i64 i64_u64 1 "RejectedSpans" ExportTracePartialSuccess_RejectedSpans.
Qed.

Lemma ExportTracePartialSuccess_safe : SafeStep ExportTracePartialSuccess_step (ExportTracePartialSuccess_ok false).
Proof. safe_message ExportTracePartialSuccess_step ExportTracePartialSuccess_ok. Qed.

#[export] Instance ExportTracePartialSuccess_laws : CodecLaws ExportTracePartialSuccess.
Proof.
  apply (fields_laws ExportTracePartialSuccess_step); [done| | | |].
  - apply ExportTracePartialSuccess_enc.
  - apply ExportTracePartialSuccess_rd.
  - apply ExportTracePartialSuccess_safe.
  - zero_ok ExportTracePartialSuccess_ok.
Qed.

(** ** ExportTraceServiceResponse *)
Record ExportTraceServiceResponse := mkExportTraceServiceResponse {
  ExportTraceServiceResponse_PartialSuccess : ExportTracePartialSuccess;
}.

Definition ExportTraceServiceResponse_zero : ExportTraceServiceResponse :=
  mkExportTraceServiceResponse zero.

#[export] Instance ExportTraceServiceResponse_settable : Settable ExportTraceServiceResponse :=
  settable! mkExportTraceServiceResponse <ExportTraceServiceResponse_PartialSuccess>.

Definition ExportTraceServiceResponse_SizeProto (m : ExportTraceServiceResponse) : Z :=
  sizeLen 1 (SizeProto (ExportTraceServiceResponse_PartialSuccess m)).

Definition ExportTraceServiceResponse_MarshalProto (m : ExportTraceServiceResponse) : list Z -> res (Z * list Z) :=
  runW (
    wMsg (wByte 0xa) (MarshalProto (ExportTraceServiceResponse_PartialSuccess m))).

Definition ExportTraceServiceResponse_step (fieldNum wireType : Z) (buf : list Z) (pos : Z) (m : ExportTraceServiceResponse) :
  res (ExportTraceServiceResponse * Z) :=
  match fieldNum with
  | 1 => let* (b, pos) := readLen "PartialSuccess" wireType buf pos in
      let* v := UnmarshalProto b (ExportTraceServiceResponse_PartialSuccess m) in
      Ok (m <| ExportTraceServiceResponse_PartialSuccess := v |>, pos)
  | _ => skipField wireType buf pos m
  end.

Definition ExportTraceServiceResponse_wire (m : ExportTraceServiceResponse) : list Z :=
  fLen 1 (wire (ExportTraceServiceResponse_PartialSuccess m)).

Definition ExportTraceServiceResponse_ok (strict : bool) (m : ExportTraceServiceResponse) : Prop :=
  wellFormed strict (ExportTraceServiceResponse_PartialSuccess m).

#[export] Instance ExportTraceServiceResponse_codec : Codec ExportTraceServiceResponse :=
  { zero := ExportTraceServiceResponse_zero;
    SizeProto := ExportTraceServiceResponse_SizeProto;
    MarshalProto := ExportTraceServiceResponse_MarshalProto;
    UnmarshalProto := unmarshalFields ExportTraceServiceResponse_step;
    wire := ExportTraceServiceResponse_wire;
    wellFormed := ExportTraceServiceResponse_ok }.

Lemma ExportTraceServiceResponse_enc strict m :
  ExportTraceServiceResponse_ok strict m -> Encodes (ExportTraceServiceResponse_MarshalProto m) (ExportTraceServiceResponse_SizeProto m)
    (ExportTraceServiceResponse_wire m).
Proof. enc_message strict ExportTraceServiceResponse_ok. Qed.

Lemma ExportTraceServiceResponse_rd m :
  ExportTraceServiceResponse_ok true m -> Rd ExportTraceServiceResponse_step (ExportTraceServiceResponse_wire m)
    ExportTraceServiceResponse_zero m.
Proof.
  rd_message m ExportTraceServiceResponse_ok ExportTraceServiceResponse_wire.
  rd_msg 1 "PartialSuccess" ExportTraceServiceResponse_PartialSuccess.
Qed.

Lemma ExportTraceServiceResponse_safe : SafeStep ExportTraceServiceResponse_step (ExportTraceServiceResponse_ok false).
Proof. safe_message ExportTraceServiceResponse_step ExportTraceServiceResponse_ok. Qed.

#[export] Instance ExportTraceServiceResponse_laws : CodecLaws ExportTraceServiceResponse.
Proof.
  apply (fields_laws ExportTraceServiceResponse_step); [done| | | |].
  - apply ExportTraceServiceResponse_enc.
  - apply ExportTraceServiceResponse_rd.
  - apply ExportTraceServiceResponse_safe.
  - zero_ok ExportTraceServiceResponse_ok.
Qed.

(** ** ExportProfilesPartialSuccess *)
Record ExportProfilesPartialSuccess := mkExportProfilesPartialSuccess {
  ExportProfilesPartialSuccess_ErrorMessage : list Z;
  ExportProfilesPartialSuccess_RejectedProfiles : Z;
}.

Definition ExportProfilesPartialSuccess_zero : ExportProfilesPartialSuccess :=
  mkExportProfilesPartialSuccess [] 0.

#[export] Instance ExportProfilesPartialSuccess_settable : Settable ExportProfilesPartialSuccess :=
  settable! mkExportProfilesPartialSuccess <ExportProfilesPartialSuccess_ErrorMessage; ExportProfilesPartialSuccess_RejectedProfiles>.

Definition ExportProfilesPartialSuccess_SizeProto (m : ExportProfilesPartialSuccess) : Z :=
  (if negb (ExportProfilesPartialSuccess_RejectedProfiles m =? 0) then 1 + sov (u64 (ExportProfilesPartialSuccess_RejectedProfiles m)) else 0) +
  (if 0 <? len (ExportProfilesPartialSuccess_ErrorMessage m) then sizeLen 1 (len (ExportProfilesPartialSuccess_ErrorMessage m)) else 0).

Definition ExportProfilesPartialSuccess_MarshalProto (m : ExportProfilesPartialSuccess) : list Z -> res (Z * list Z) :=
  runW (
    wWhen (negb (ExportProfilesPartialSuccess_RejectedProfiles m =? 0)) (wInt (wByte 0x8) (ExportProfilesPartialSuccess_RejectedProfiles m)) >;>
    wWhen (0 <? len (ExportProfilesPartialSuccess_ErrorMessage m)) (wLen (wByte 0x12) (ExportProfilesPartialSuccess_ErrorMessage m))).

Definition ExportProfilesPartialSuccess_step (fieldNum wireType : Z) (buf : list Z) (pos : Z) (m : ExportProfilesPartialSuccess) :
  res (ExportProfilesPartialSuccess * Z) :=
  match fieldNum with
  | 1 => let* (num, pos) := readVarint "RejectedProfiles" wireType buf pos in
      Ok (m <| ExportProfilesPartialSuccess_RejectedProfiles := i64 num |>, pos)
  | 2 => let* (b, pos) := readLen "ErrorMessage" wireType buf pos in
      Ok (m <| ExportProfilesPartialSuccess_ErrorMessage := b |>, pos)
  | _ => skipField wireType buf pos m
  end.

Definition ExportProfilesPartialSuccess_wire (m : ExportProfilesPartialSuccess) : list Z :=
  fWhen (0 <? len (ExportProfilesPartialSuccess_ErrorMessage m)) (fLen 2 (ExportProfilesPartialSuccess_ErrorMessage m)) ++
  fWhen (negb (ExportProfilesPartialSuccess_RejectedProfiles m =? 0)) (fInt 1 (ExportProfilesPartialSuccess_RejectedProfiles m)).

Definition ExportProfilesPartialSuccess_ok (strict : bool) (m : ExportProfilesPartialSuccess) : Prop :=
  bytes (ExportProfilesPartialSuccess_ErrorMessage m) /\
  is_i64 (ExportProfilesPartialSuccess_RejectedProfiles m).

#[export] Instance ExportProfilesPartialSuccess_codec : Codec ExportProfilesPartialSuccess :=
  { zero := ExportProfilesPartialSuccess_zero;
    SizeProto := ExportProfilesPartialSuccess_SizeProto;
    MarshalProto := ExportProfilesPartialSuccess_MarshalProto;
    UnmarshalProto := unmarshalFields ExportProfilesPartialSuccess_step;
    wire := ExportProfilesPartialSuccess_wire;
    wellFormed := ExportProfilesPartialSuccess_ok }.

Lemma ExportProfilesPartialSuccess_enc strict m :
  ExportProfilesPartialSuccess_ok strict m -> Encodes (ExportProfilesPartialSuccess_MarshalProto m) (ExportProfilesPartialSuccess_SizeProto m)
    (ExportProfilesPartialSuccess_wire m).
Proof. enc_message strict ExportProfilesPartialSuccess_ok. Qed.

Lemma ExportProfilesPartialSuccess_rd m :
  ExportProfilesPartialSuccess_ok true m -> Rd ExportProfilesPartialSuccess_step (ExportProfilesPartialSuccess_wire m)
    ExportProfilesPartialSuccess_zero m.
Proof.
  rd_message m ExportProfilesPartialSuccess_ok ExportProfilesPartialSuccess_wire.
  rd_string 2 "ErrorMessage" ExportProfilesPartialSuccess_ErrorMessage.
  rd_int i64 i64_u64 1 "RejectedProfiles" ExportProfilesPartialSuccess_RejectedProfiles.
Qed.

Lemma ExportProfilesPartialSuccess_safe : SafeStep ExportProfilesPartialSuccess_step (ExportProfilesPartialSuccess_ok false).
Proof. safe_message ExportProfilesPartialSuccess_step ExportProfilesPartialSuccess_ok. Qed.

#[export] Instance ExportProfilesPartialSuccess_laws : CodecLaws ExportProfilesPartialSuccess.
Proof.
  apply (fields_laws ExportProfilesPartialSuccess_step); [done| | | |].
  - apply ExportProfilesPartialSuccess_enc.
  - apply ExportProfilesPartialSuccess_rd.
  - apply ExportProfilesPartialSuccess_safe.
  - zero_ok ExportProfilesPartialSuccess_ok.
Qed.

(** ** ExportProfilesServiceResponse *)
Record ExportProfilesServiceResponse := mkExportProfilesServiceResponse {
  ExportProfilesServiceResponse_PartialSuccess : ExportProfilesPartialSuccess;
}.

Definition ExportProfilesServiceResponse_zero : ExportProfilesServiceResponse :=
  mkExportProfilesServiceResponse zero.

#[export] Instance ExportProfilesServiceResponse_settable : Settable ExportProfilesServiceResponse :=
  settable! mkExportProfilesServiceResponse <ExportProfilesServiceResponse_PartialSuccess>.

Definition ExportProfilesServiceResponse_SizeProto (m : ExportProfilesServiceResponse) : Z :=
  sizeLen 1 (SizeProto (ExportProfilesServiceResponse_PartialSuccess m)).

Definition ExportProfilesServiceResponse_MarshalProto (m : ExportProfilesServiceResponse) : list Z -> res (Z * list Z) :=
  runW (
    wMsg (wByte 0xa) (MarshalProto (ExportProfilesServiceResponse_PartialSuccess m))).

Definition ExportProfilesServiceResponse_step (fieldNum wireType : Z) (buf : list Z) (pos : Z) (m : ExportProfilesServiceResponse) :
  res (ExportProfilesServiceResponse * Z) :=
  match fieldNum with
  | 1 => let* (b, pos) := readLen "PartialSuccess" wireType buf pos in
      let* v := UnmarshalProto b (ExportProfilesServiceResponse_PartialSuccess m) in
      Ok (m <| ExportProfilesServiceResponse_PartialSuccess := v |>, pos)
  | _ => skipField wireType buf pos m
  end.

Definition ExportProfilesServiceResponse_wire (m : ExportProfilesServiceResponse) : list Z :=
  fLen 1 (wire (ExportProfilesServiceResponse_PartialSuccess m)).

Definition ExportProfilesServiceResponse_ok (strict : bool) (m : ExportProfilesServiceResponse) : Prop :=
  wellFormed strict (ExportProfilesServiceResponse_PartialSuccess m).

#[export] Instance ExportProfilesServiceResponse_codec : Codec ExportProfilesServiceResponse :=
  { zero := ExportProfilesServiceResponse_zero;
    SizeProto := ExportProfilesServiceResponse_SizeProto;
    MarshalProto := ExportProfilesServiceResponse_MarshalProto;
    UnmarshalProto := unmarshalFields ExportProfilesServiceResponse_step;
    wire := ExportProfilesServiceResponse_wire;
    wellFormed := ExportProfilesServiceResponse_ok }.

Lemma ExportProfilesServiceResponse_enc strict m :
  ExportProfilesServiceResponse_ok strict m -> Encodes (ExportProfilesServiceResponse_MarshalProto m) (ExportProfilesServiceResponse_SizeProto m)
    (ExportProfilesServiceResponse_wire m).
Proof. enc_message strict ExportProfilesServiceResponse_ok. Qed.

Lemma ExportProfilesServiceResponse_rd m :
  ExportProfilesServiceResponse_ok true m -> Rd ExportProfilesServiceResponse_step (ExportProfilesServiceResponse_wire m)
    ExportProfilesServiceResponse_zero m.
Proof.
  rd_message m ExportProfilesServiceResponse_ok ExportProfilesServiceResponse_wire.
  rd_msg 1 "PartialSuccess" ExportProfilesServiceResponse_PartialSuccess.
Qed.

Lemma ExportProfilesServiceResponse_safe : SafeStep ExportProfilesServiceResponse_step (ExportProfilesServiceResponse_ok false).
Proof. safe_message ExportProfilesServiceResponse_step ExportProfilesServiceResponse_ok. Qed.

#[export] Instance ExportProfilesServiceResponse_laws : CodecLaws ExportProfilesServiceResponse.
Proof.
  apply (fields_laws ExportProfilesServiceResponse_step); [done| | | |].
  - apply ExportProfilesServiceResponse_enc.
  - apply ExportProfilesServiceResponse_rd.
  - apply ExportProfilesServiceResponse_safe.
  - zero_ok ExportProfilesServiceResponse_ok.
Qed.
