(* ===== verification/ProfilesDict.v ===== *)
(** * The dictionary of profiles (pdata/pprofile)

    Profiles refer to strings, functions, mappings, locations, stacks, attributes and
    links by their index in the tables of a dictionary; index 0 stands for none.

    - the [Set] functions, which find an entry by going through its table or append it;
    - mergeIndex, which finds entries by hashes of them (dictionary_merge_index.go);
    - [switchDictionary], which takes a message from one dictionary to another, and
      [MergeTo] (profiles_merge.go), which is built on it.

    A function that changes a message in place returns it.  The tables of the source are
    themselves switched first, one after the other, and are read as they are then.  When
    an operation fails its error is the result, and the messages and tables are not
    described further. *)

From stdpp Require Import gmap.
From S2P Require Import Prelude RecordUpdate Errors Sizers ProtoWire ProtoWireProofs ProtoFields ProtoCommon PcommonValue ProtoMessage ProtoKinds ProtoIds ProtoResource ProtoProfiles ProtoExport.
Local Open Scope Z_scope.
Local Open Scope otel_scope.

Local Abbreviation Dict := ProfilesDictionary.
Local Abbreviation strings := ProfilesDictionary_StringTable.
Local Abbreviation functions := ProfilesDictionary_FunctionTable.
Local Abbreviation mappings := ProfilesDictionary_MappingTable.
Local Abbreviation locations := ProfilesDictionary_LocationTable.
Local Abbreviation stacks := ProfilesDictionary_StackTable.
Local Abbreviation attributes := ProfilesDictionary_AttributeTable.
Local Abbreviation links := ProfilesDictionary_LinkTable.

Definition MaxInt32 : Z := 2 ^ 31 - 1.

(** ** Equal *)
Definition Function_Equal (fn val : Function) : bool :=
  (Function_NameStrindex fn =? Function_NameStrindex val) && (Function_SystemNameStrindex fn =? Function_SystemNameStrindex val) &&
  (Function_FilenameStrindex fn =? Function_FilenameStrindex val) && (Function_StartLine fn =? Function_StartLine val).

Definition Mapping_Equal (ms val : Mapping) : bool :=
  (Mapping_MemoryStart ms =? Mapping_MemoryStart val) && (Mapping_MemoryLimit ms =? Mapping_MemoryLimit val) &&
  (Mapping_FileOffset ms =? Mapping_FileOffset val) && (Mapping_FilenameStrindex ms =? Mapping_FilenameStrindex val) &&
  bool_decide (Mapping_AttributeIndices ms = Mapping_AttributeIndices val).

Definition Line_Equal (l val : Line) : bool :=
  (Line_Column l =? Line_Column val) && (Line_FunctionIndex l =? Line_FunctionIndex val) && (Line_Line l =? Line_Line val).

Fixpoint LineSlice_Equal (l val : list Line) : bool :=
  match l, val with
  | [], [] => true
  | x :: l, y :: val => Line_Equal x y && LineSlice_Equal l val
  | _, _ => false
  end.

Definition Location_Equal (ms val : Location) : bool :=
  (Location_MappingIndex ms =? Location_MappingIndex val) && (Location_Address ms =? Location_Address val) &&
  bool_decide (Location_AttributeIndices ms = Location_AttributeIndices val) && LineSlice_Equal (Location_Lines ms) (Location_Lines val).

Definition Stack_Equal (ms val : Stack) : bool := bool_decide (Stack_LocationIndices ms = Stack_LocationIndices val).

Definition Link_Equal (ms val : Link) : bool :=
  bool_decide (traceBytes (Link_TraceId ms) = traceBytes (Link_TraceId val)) && bool_decide (spanBytes (Link_SpanId ms) = spanBytes (Link_SpanId val)).

Definition KeyValueAndUnit_Equal (ms val : KeyValueAndUnit) : res bool :=
  if (KeyValueAndUnit_KeyStrindex ms =? KeyValueAndUnit_KeyStrindex val) && (KeyValueAndUnit_UnitStrindex ms =? KeyValueAndUnit_UnitStrindex val)
  then Value_Equal (KeyValueAndUnit_Value ms) (KeyValueAndUnit_Value val) else Ok false.

(** ** The errors of full tables *)
Definition errTooManyStringTableEntries : error := New "too many entries in StringTable".
Definition errTooManyFunctionTableEntries : error := New "too many entries in FunctionTable".
Definition errTooManyMappingTableEntries : error := New "too many entries in MappingTable".
Definition errTooManyLocationTableEntries : error := New "too many entries in LocationTable".
Definition errTooManyStackTableEntries : error := New "too many entries in StackTable".
Definition errTooManyAttributeTableEntries : error := New "too many entries in AttributeTable".
Definition errTooManyLinkTableEntries : error := New "too many entries in LinkTable".

(** ** SetString, SetFunction, ...: going through the table *)
Section Scan.
Context {A : Type} (Equal : A -> A -> res bool) (tooMany : error).

Fixpoint scan (j : Z) (table : list A) (x : A) : res (option Z) :=
  match table with
  | [] => Ok None
  | y :: table => let* eq := Equal y x in if eq then Ok (Some j) else scan (j + 1) table x
  end.

Definition SetEntry (table : list A) (x : A) : res (Z * list A) :=
  let* found := scan 0 table x in
  match found with
  | Some j => if MaxInt32 <? j then Err tooMany else Ok (i32 j, table)
  | None => if MaxInt32 <=? len table then Err tooMany else let table := table ++ [x] in Ok (i32 (len table - 1), table)
  end.
End Scan.

(** A comparison that does not panic. *)
Definition pure {A} (equal : A -> A -> bool) (x y : A) : res bool := Ok (equal x y).

Definition SetString := SetEntry (pure (fun a b : list Z => bool_decide (a = b))) errTooManyStringTableEntries.
Definition SetFunction := SetEntry (pure Function_Equal) errTooManyFunctionTableEntries.
Definition SetMapping := SetEntry (pure Mapping_Equal) errTooManyMappingTableEntries.
Definition SetLocation := SetEntry (pure Location_Equal) errTooManyLocationTableEntries.
Definition SetStack := SetEntry (pure Stack_Equal) errTooManyStackTableEntries.
Definition SetAttribute := SetEntry KeyValueAndUnit_Equal errTooManyAttributeTableEntries.
Definition SetLink := SetEntry (pure Link_Equal) errTooManyLinkTableEntries.

(** ** Hashes *)
Definition fnvOffset64 : Z := 14695981039346656037.
Definition fnvPrime64 : Z := 1099511628211.
Definition negZeroBits : Z := 2 ^ 63.

Definition mixU64 (h v : Z) : Z := u64 (Z.lxor h v * fnvPrime64).
Definition mixAll (h : Z) (vs : list Z) : Z := foldl mixU64 h vs.
Definition mixBytes (h : Z) (b : list Z) : Z := mixU64 (mixAll h b) (u64 (len b)).
Definition mixString (h : Z) (s : list Z) : Z := mixU64 (mixAll h s) (u64 (len s)).

Fixpoint hashValue (h : Z) (v : AnyValue) {struct v} : res Z :=
  let h := mixU64 h (Value_Type v) in
  match v with
  | AnyValue_StringValue s => Ok (mixString h s)
  | AnyValue_IntValue i => Ok (mixU64 h (u64 i))
  | AnyValue_DoubleValue bits => Ok (mixU64 h (if bits =? negZeroBits then 0 else bits))
  | AnyValue_BoolValue b => Ok (mixU64 h (if b then 1 else 0))
  | AnyValue_BytesValue b => Ok (mixBytes h b)
  | AnyValue_ArrayValue (Some s) =>
      (fix each (h : Z) (l : list AnyValue) : res Z :=
         match l with [] => Ok h | v :: l => let* h := hashValue h v in each h l end) (mixU64 h (u64 (len s))) s
  | AnyValue_KvlistValue (Some m) =>
      let* acc :=
        (fix each (acc : Z) (l : list KeyValue) : res Z :=
           match l with
           | [] => Ok acc
           | mkKeyValue k mv _ :: l => let* hv := hashValue (mixString fnvOffset64 k) mv in each (u64 (acc + hv)) l
           end) 0 m in
      Ok (mixU64 (mixU64 h (u64 (len m))) acc)
  | AnyValue_ArrayValue None | AnyValue_KvlistValue None => Panic
  | AnyValue_nil | AnyValue_StringValueStrindex _ => Ok h
  end.

Definition hashFunction (fn : Function) : Z :=
  mixAll fnvOffset64 [u32 (Function_NameStrindex fn); u32 (Function_SystemNameStrindex fn); u32 (Function_FilenameStrindex fn); u64 (Function_StartLine fn)].

Definition hashMapping (ma : Mapping) : Z :=
  mixAll (mixAll fnvOffset64 [Mapping_MemoryStart ma; Mapping_MemoryLimit ma; Mapping_FileOffset ma; u32 (Mapping_FilenameStrindex ma)])
    (map u32 (Mapping_AttributeIndices ma)).

Definition hashLocation (loc : Location) : Z :=
  mixAll (mixAll (mixAll fnvOffset64 [u32 (Location_MappingIndex loc); Location_Address loc]) (map u32 (Location_AttributeIndices loc)))
    (flat_map (fun ln => [u32 (Line_FunctionIndex ln); u64 (Line_Line ln); u64 (Line_Column ln)]) (Location_Lines loc)).

Definition hashStack (st : Stack) : Z := mixAll fnvOffset64 (map u32 (Stack_LocationIndices st)).

Definition hashAttribute (a : KeyValueAndUnit) : res Z :=
  hashValue (mixAll fnvOffset64 [u32 (KeyValueAndUnit_KeyStrindex a); u32 (KeyValueAndUnit_UnitStrindex a)]) (KeyValueAndUnit_Value a).

Definition hashLink (li : Link) : Z := mixAll (mixAll fnvOffset64 (traceBytes (Link_TraceId li))) (spanBytes (Link_SpanId li)).

(** ** mergeIndex *)
Abbreviation buckets := (gmap Z (list Z)).

Record mergeIndex := mkMergeIndex {
  maxTableLen : Z;
  mi_strings : gmap (list Z) Z;
  mi_functions : buckets;
  mi_mappings : buckets;
  mi_locations : buckets;
  mi_stacks : buckets;
  mi_attributes : buckets;
  mi_links : buckets;
}.

#[export] Instance mergeIndex_settable : Settable mergeIndex :=
  settable! mkMergeIndex <maxTableLen; mi_strings; mi_functions; mi_mappings; mi_locations; mi_stacks; mi_attributes; mi_links>.

Definition bucket (b : buckets) (h : Z) : list Z := default [] (b !! h).

(** The loops of [newMergeIndex] over the tables, from entry [i] on. *)
Fixpoint indexStrings (i : Z) (table : list (list Z)) (m : gmap (list Z) Z) : gmap (list Z) Z :=
  match table with
  | [] => m
  | s :: table => indexStrings (i + 1) table (match m !! s with Some _ => m | None => <[s := i32 i]> m end)
  end.

Fixpoint indexTable {A} (hash : A -> res Z) (i : Z) (table : list A) (b : buckets) : res buckets :=
  match table with
  | [] => Ok b
  | x :: table => let* h := hash x in indexTable hash (i + 1) table (<[h := bucket b h ++ [i32 i]]> b)
  end.

Definition newMergeIndex (dst : Dict) : res mergeIndex :=
  let ss := indexStrings 0 (strings dst) ∅ in
  let* fs := indexTable (fun x => Ok (hashFunction x)) 0 (functions dst) ∅ in
  let* ms := indexTable (fun x => Ok (hashMapping x)) 0 (mappings dst) ∅ in
  let* ls := indexTable (fun x => Ok (hashLocation x)) 0 (locations dst) ∅ in
  let* sts := indexTable (fun x => Ok (hashStack x)) 0 (stacks dst) ∅ in
  let* ats := indexTable hashAttribute 0 (attributes dst) ∅ in
  let* lks := indexTable (fun x => Ok (hashLink x)) 0 (links dst) ∅ in
  Ok (mkMergeIndex MaxInt32 ss fs ms ls sts ats lks).

(** Reading an entry; an index outside of the slice panics. *)
Definition at_ {A} (table : list A) (i : Z) : res A :=
  if i <? 0 then Panic else match table !! Z.to_nat i with Some x => Ok x | None => Panic end.

(** [setFunction] and the others: going through a bucket. *)
Section Indexed.
Context {A : Type} (hash : A -> res Z) (Equal : A -> A -> res bool) (tooMany : error).

Fixpoint search (table : list A) (x : A) (idxs : list Z) : res (option Z) :=
  match idxs with
  | [] => Ok None
  | idx :: idxs => let* y := at_ table idx in let* eq := Equal y x in if eq then Ok (Some idx) else search table x idxs
  end.

Definition setEntry (max : Z) (b : buckets) (table : list A) (x : A) : res (Z * buckets * list A) :=
  let* h := hash x in
  let* found := search table x (bucket b h) in
  match found with
  | Some idx => Ok (idx, b, table)
  | None =>
      if max <=? len table then Err tooMany
      else
        let table := table ++ [x] in
        let idx := i32 (len table - 1) in
        Ok (idx, <[h := bucket b h ++ [idx]]> b, table)
  end.
End Indexed.

(** The destination of a merge and the index of it. *)
Record merging := mkMerging { dst : Dict; mi : mergeIndex }.

Definition setString (st : merging) (val : list Z) : res (Z * merging) :=
  match mi_strings (mi st) !! val with
  | Some idx => Ok (idx, st)
  | None =>
      if maxTableLen (mi st) <=? len (strings (dst st)) then Err errTooManyStringTableEntries
      else
        let table := strings (dst st) ++ [val] in
        let idx := i32 (len table - 1) in
        Ok (idx, mkMerging (dst st <| ProfilesDictionary_StringTable := table |>) (mi st <| mi_strings := <[val := idx]> (mi_strings (mi st)) |>))
  end.

Definition setFunction (st : merging) (fn : Function) : res (Z * merging) :=
  let* (idx, b, table) := setEntry (fun x => Ok (hashFunction x)) (pure Function_Equal) errTooManyFunctionTableEntries
    (maxTableLen (mi st)) (mi_functions (mi st)) (functions (dst st)) fn in
  Ok (idx, mkMerging (dst st <| ProfilesDictionary_FunctionTable := table |>) (mi st <| mi_functions := b |>)).

Definition setMapping (st : merging) (ma : Mapping) : res (Z * merging) :=
  let* (idx, b, table) := setEntry (fun x => Ok (hashMapping x)) (pure Mapping_Equal) errTooManyMappingTableEntries
    (maxTableLen (mi st)) (mi_mappings (mi st)) (mappings (dst st)) ma in
  Ok (idx, mkMerging (dst st <| ProfilesDictionary_MappingTable := table |>) (mi st <| mi_mappings := b |>)).

Definition setLocation (st : merging) (loc : Location) : res (Z * merging) :=
  let* (idx, b, table) := setEntry (fun x => Ok (hashLocation x)) (pure Location_Equal) errTooManyLocationTableEntries
    (maxTableLen (mi st)) (mi_locations (mi st)) (locations (dst st)) loc in
  Ok (idx, mkMerging (dst st <| ProfilesDictionary_LocationTable := table |>) (mi st <| mi_locations := b |>)).

Definition setStack (st : merging) (s : Stack) : res (Z * merging) :=
  let* (idx, b, table) := setEntry (fun x => Ok (hashStack x)) (pure Stack_Equal) errTooManyStackTableEntries
    (maxTableLen (mi st)) (mi_stacks (mi st)) (stacks (dst st)) s in
  Ok (idx, mkMerging (dst st <| ProfilesDictionary_StackTable := table |>) (mi st <| mi_stacks := b |>)).

Definition setAttribute (st : merging) (attr : KeyValueAndUnit) : res (Z * merging) :=
  let* (idx, b, table) := setEntry hashAttribute KeyValueAndUnit_Equal errTooManyAttributeTableEntries
    (maxTableLen (mi st)) (mi_attributes (mi st)) (attributes (dst st)) attr in
  Ok (idx, mkMerging (dst st <| ProfilesDictionary_AttributeTable := table |>) (mi st <| mi_attributes := b |>)).

Definition setLink (st : merging) (li : Link) : res (Z * merging) :=
  let* (idx, b, table) := setEntry (fun x => Ok (hashLink x)) (pure Link_Equal) errTooManyLinkTableEntries
    (maxTableLen (mi st)) (mi_links (mi st)) (links (dst st)) li in
  Ok (idx, mkMerging (dst st <| ProfilesDictionary_LinkTable := table |>) (mi st <| mi_links := b |>)).

(** ** switchDictionary

    Switching needs the destination only to set entries in it: [Interner] is what it asks
    of the destination.  The code uses [mergeIndex]; the [Set] functions would do as well
    (ProfilesDictProofs). *)
Class Interner (S : Type) := {
  internString : S -> list Z -> res (Z * S);
  internFunction : S -> Function -> res (Z * S);
  internMapping : S -> Mapping -> res (Z * S);
  internLocation : S -> Location -> res (Z * S);
  internStack : S -> Stack -> res (Z * S);
  internAttribute : S -> KeyValueAndUnit -> res (Z * S);
  internLink : S -> Link -> res (Z * S);
}.

#[export] Instance merging_interner : Interner merging := {|
  internString := setString;
  internFunction := setFunction;
  internMapping := setMapping;
  internLocation := setLocation;
  internStack := setStack;
  internAttribute := setAttribute;
  internLink := setLink;
|}.

Definition wrap {A} (fmt : string) (args : list fmt_arg) (r : res A) : res A :=
  match r with Err e => Err (Wrapf fmt args e) | r => r end.

Section Switch.
Context {S : Type} `{Interner S}.

(** A reference for which 0 is none: it must be in the table of the source, and the entry
    is set in the destination. *)
Definition switchRef {A} (what : string) (set : S -> A -> res (Z * S)) (table : list A) (i : Z) (st : S) : res (Z * S) :=
  if 0 <? i then
    if len table <=? i then Err (Errorf ("invalid " ++ what ++ " index %d") [ArgZ i])
    else let* x := at_ table i in wrap ("couldn't set " ++ what ++ ": %w") [] (set st x)
  else Ok (i, st).

(** The loop over references of which also 0 is an entry. *)
Fixpoint switchRefs {A} (what : string) (set : S -> A -> res (Z * S)) (table : list A) (i : Z) (vs : list Z) (st : S)
  : res (list Z * S) :=
  match vs with
  | [] => Ok ([], st)
  | v :: vs =>
      if (v <? 0) || (len table <=? v) then Err (Errorf ("invalid " ++ what ++ " index %d") [ArgZ v])
      else
        let* x := at_ table v in
        let* (idx, st) := wrap ("couldn't set " ++ what ++ " %d: %w") [ArgZ i] (set st x) in
        let* (vs, st) := switchRefs what set table (i + 1) vs st in
        Ok (idx :: vs, st)
  end.

(** A loop that switches every element of a slice. *)
Fixpoint switchAll {A} (fmt : string) (f : A -> S -> res (A * S)) (i : Z) (l : list A) (st : S) : res (list A * S) :=
  match l with
  | [] => Ok ([], st)
  | v :: l =>
      let* (v, st) := wrap fmt [ArgZ i] (f v st) in
      let* (l, st) := switchAll fmt f (i + 1) l st in
      Ok (v :: l, st)
  end.

Context (src : Dict).

Local Abbreviation switchString what := (switchRef what internString (strings src)).
Local Abbreviation switchAttributes := (switchRefs "attribute" internAttribute (attributes src) 0).

Definition KeyValueAndUnit_switchDictionary (ms : KeyValueAndUnit) (st : S) : res (KeyValueAndUnit * S) :=
  let* (key, st) := switchString "key" (KeyValueAndUnit_KeyStrindex ms) st in
  let* (unit, st) := switchString "unit" (KeyValueAndUnit_UnitStrindex ms) st in
  Ok (ms <| KeyValueAndUnit_KeyStrindex := key |> <| KeyValueAndUnit_UnitStrindex := unit |>, st).

Definition Function_switchDictionary (fn : Function) (st : S) : res (Function * S) :=
  let* (name, st) := switchString "name" (Function_NameStrindex fn) st in
  let* (systemName, st) := switchString "system name" (Function_SystemNameStrindex fn) st in
  let* (filename, st) := switchString "filename" (Function_FilenameStrindex fn) st in
  Ok (fn <| Function_NameStrindex := name |> <| Function_SystemNameStrindex := systemName |> <| Function_FilenameStrindex := filename |>, st).

Definition Mapping_switchDictionary (ms : Mapping) (st : S) : res (Mapping * S) :=
  let* (filename, st) := switchString "filename" (Mapping_FilenameStrindex ms) st in
  let* (ats, st) := switchAttributes (Mapping_AttributeIndices ms) st in
  Ok (ms <| Mapping_FilenameStrindex := filename |> <| Mapping_AttributeIndices := ats |>, st).

Definition Line_switchDictionary (l : Line) (st : S) : res (Line * S) :=
  let* (fn, st) := switchRef "function" internFunction (functions src) (Line_FunctionIndex l) st in
  Ok (l <| Line_FunctionIndex := fn |>, st).

Definition Location_switchDictionary (ms : Location) (st : S) : res (Location * S) :=
  let* (mapping, st) := switchRef "mapping" internMapping (mappings src) (Location_MappingIndex ms) st in
  let* (ats, st) := switchAttributes (Location_AttributeIndices ms) st in
  let* (lines, st) := switchAll "couldn't switch dictionary for line %d: %w" Line_switchDictionary 0 (Location_Lines ms) st in
  Ok (ms <| Location_MappingIndex := mapping |> <| Location_AttributeIndices := ats |> <| Location_Lines := lines |>, st).

Definition Stack_switchDictionary (ms : Stack) (st : S) : res (Stack * S) :=
  let* (locs, st) := switchRefs "location" internLocation (locations src) 0 (Stack_LocationIndices ms) st in
  Ok (ms <| Stack_LocationIndices := locs |>, st).

Definition ValueType_switchDictionary (ms : ValueType) (st : S) : res (ValueType * S) :=
  let* (type, st) := switchString "type" (ValueType_TypeStrindex ms) st in
  let* (unit, st) := switchString "unit" (ValueType_UnitStrindex ms) st in
  Ok (ms <| ValueType_TypeStrindex := type |> <| ValueType_UnitStrindex := unit |>, st).

Definition Sample_switchDictionary (ms : Sample) (st : S) : res (Sample * S) :=
  let* (ats, st) := switchAttributes (Sample_AttributeIndices ms) st in
  let* (link, st) := switchRef "link" internLink (links src) (Sample_LinkIndex ms) st in
  let* (stack, st) := switchRef "stack" internStack (stacks src) (Sample_StackIndex ms) st in
  Ok (ms <| Sample_AttributeIndices := ats |> <| Sample_LinkIndex := link |> <| Sample_StackIndex := stack |>, st).

Definition Profile_switchDictionary (ms : Profile) (st : S) : res (Profile * S) :=
  let* (ats, st) := switchAttributes (Profile_AttributeIndices ms) st in
  let* (samples, st) := switchAll "error switching dictionary for sample %d: %w" Sample_switchDictionary 0 (Profile_Samples ms) st in
  let* (periodType, st) := wrap "error switching dictionary for period type: %w" [] (ValueType_switchDictionary (Profile_PeriodType ms) st) in
  let* (sampleType, st) := wrap "error switching dictionary for sample type: %w" [] (ValueType_switchDictionary (Profile_SampleType ms) st) in
  Ok (ms <| Profile_AttributeIndices := ats |> <| Profile_Samples := samples |> <| Profile_PeriodType := periodType |> <| Profile_SampleType := sampleType |>, st).

Definition ScopeProfiles_switchDictionary (ms : ScopeProfiles) (st : S) : res (ScopeProfiles * S) :=
  let* (ps, st) := switchAll "error switching dictionary for profile %d: %w" Profile_switchDictionary 0 (ScopeProfiles_Profiles ms) st in
  Ok (ms <| ScopeProfiles_Profiles := ps |>, st).

Definition ResourceProfiles_switchDictionary (ms : ResourceProfiles) (st : S) : res (ResourceProfiles * S) :=
  let* (sps, st) := switchAll "error switching dictionary for scope profile %d: %w" ScopeProfiles_switchDictionary 0 (ResourceProfiles_ScopeProfiles ms) st in
  Ok (ms <| ResourceProfiles_ScopeProfiles := sps |>, st).
End Switch.

(** The tables of the source are switched in the order of their references. *)
Definition switchTables {S} `{Interner S} (ms : ExportProfilesServiceRequest) (st : S) : res (ExportProfilesServiceRequest * S) :=
  let src := ExportProfilesServiceRequest_Dictionary ms in
  let* (ats, st) := switchAll "couldn't switch attribute %d: %w" (KeyValueAndUnit_switchDictionary src) 0 (attributes src) st in
  let src := src <| ProfilesDictionary_AttributeTable := ats |> in
  let* (fns, st) := switchAll "couldn't switch function %d: %w" (Function_switchDictionary src) 0 (functions src) st in
  let src := src <| ProfilesDictionary_FunctionTable := fns |> in
  let* (mas, st) := switchAll "couldn't switch mapping %d: %w" (Mapping_switchDictionary src) 0 (mappings src) st in
  let src := src <| ProfilesDictionary_MappingTable := mas |> in
  let* (locs, st) := switchAll "couldn't switch location %d: %w" (Location_switchDictionary src) 0 (locations src) st in
  let src := src <| ProfilesDictionary_LocationTable := locs |> in
  let* (sts, st) := switchAll "couldn't switch stack %d: %w" (Stack_switchDictionary src) 0 (stacks src) st in
  let src := src <| ProfilesDictionary_StackTable := sts |> in
  let* (rps, st) := switchAll "error switching dictionary for resource profile %d: %w" (ResourceProfiles_switchDictionary src) 0
    (ExportProfilesServiceRequest_ResourceProfiles ms) st in
  Ok (mkExportProfilesServiceRequest rps src, st).

(** [switchDictionary(ms.Dictionary(), dst)]: the source dictionary is the one of [ms]. *)
Definition Profiles_switchDictionary (ms : ExportProfilesServiceRequest) (destDict : Dict) : res (ExportProfilesServiceRequest * Dict) :=
  let* index := newMergeIndex destDict in
  let* (ms, st) := switchTables ms (mkMerging destDict index) in
  Ok (ms, dst st).

(** [ms.MergeTo(dest)] of two different messages: the source and the destination as they
    are left.  The source is marked read-only then. *)
Definition MergeTo (readOnly destReadOnly : bool) (ms dest : ExportProfilesServiceRequest)
  : res (ExportProfilesServiceRequest * ExportProfilesServiceRequest) :=
  if readOnly || destReadOnly then Panic
  else
    let* (ms, dict) := Profiles_switchDictionary ms (ExportProfilesServiceRequest_Dictionary dest) in
    Ok (ms <| ExportProfilesServiceRequest_ResourceProfiles := [] |>,
        mkExportProfilesServiceRequest
          (ExportProfilesServiceRequest_ResourceProfiles dest ++ ExportProfilesServiceRequest_ResourceProfiles ms) dict).
