(* ===== verification/ProfilesIndex.v ===== *)
(** * The index of a merge finds what a scan finds

    The hashes agree with [Equal]; an index built by [newMergeIndex] and kept by the
    setters lists, for every hash, the entries that have it in the order of their table;
    so the setters give the same index and leave the same table as the [Set] functions
    that go through the whole table.  It follows for whole merges. *)

From stdpp Require Import gmap.
From S2P Require Import Prelude RecordUpdate Errors Sizers ProtoWire ProtoWireProofs ProtoFields ProtoCommon PcommonValue PcommonMap ProtoMessage ProtoKinds ProtoIds ProtoResource ProtoProfiles ProtoExport ProfilesDict.
Local Open Scope Z_scope.
Local Open Scope otel_scope.

Local Abbreviation Dict := ProfilesDictionary.
Local Abbreviation strings := ProfilesDictionary_StringTable.
Local Abbreviation functions := ProfilesDictionary_FunctionTable.
Local Abbreviation mappings := ProfilesDictionary_MappingTable.
Local Abbreviation locations := ProfilesDictionary_LocationTable.
Local Abbreviation stacks := ProfilesDictionary_StackTable.
Local Abbreviation attributes := ProfilesDictionary_AttributeTable.
Local Abbreviation links := ProfilesDictionary_LinkTable.

(** ** Hashes of values *)
Fixpoint hashElements (h : Z) (l : list AnyValue) : res Z :=
  match l with [] => Ok h | v :: l => let* h := hashValue h v in hashElements h l end.

Fixpoint hashEntries (acc : Z) (l : list KeyValue) : res Z :=
  match l with
  | [] => Ok acc
  | kv :: l => let* hv := hashValue (mixString fnvOffset64 (Key kv)) (Value kv) in hashEntries (u64 (acc + hv)) l
  end.

Lemma hashValue_array h l : hashValue h (AnyValue_ArrayValue (Some l)) = hashElements (mixU64 (mixU64 h ValueTypeSlice) (u64 (len l))) l.
Proof.
  cbn. generalize (mixU64 (mixU64 h ValueTypeSlice) (u64 (len l))). induction l as [|v l IH]; intros g; [done|]. cbn.
  destruct (hashValue g v); [apply IH|done..].
Qed.

Lemma hashValue_kvlist h l : hashValue h (AnyValue_KvlistValue (Some l)) =
  let* acc := hashEntries 0 l in Ok (mixU64 (mixU64 (mixU64 h ValueTypeMap) (u64 (len l))) acc).
Proof.
  cbn. f_equal. generalize 0 as acc. induction l as [|[k v i] l IH]; intros acc; [done|]. cbn.
  destruct (hashValue _ v); [apply IH|done..].
Qed.

Lemma hashValue_total v : wellMade v -> forall h, exists z, hashValue h v = Ok z.
Proof.
  induction v as [v Hv|l IH|l IH] using AnyValue_induction; intros Hw h.
  - destruct v as [| | | | |[]|[]| |]; cbn in *; try contradiction; eauto.
  - rewrite hashValue_array. apply wellMade_array in Hw. generalize (mixU64 (mixU64 h ValueTypeSlice) (u64 (len l))). clear h.
    induction IH as [|v l Hv _ IHl]; intros g; [cbn; eauto|]. apply Forall_cons in Hw as [Hwv Hw]. cbn. destruct (Hv Hwv g) as [z ->]. by apply IHl.
  - rewrite hashValue_kvlist. apply wellMade_kvlist in Hw as [_ Hw]. assert (Hz : forall acc, exists z, hashEntries acc l = Ok z).
    { induction IH as [|kv l Hv _ IHl]; intros acc; [cbn; eauto|]. apply Forall_cons in Hw as [Hwv Hw]. cbn.
      destruct (Hv Hwv (mixString fnvOffset64 (Key kv))) as [z ->]. by apply IHl. }
    destruct (Hz 0) as [z ->]. cbn. eauto.
Qed.

(** The hash of a map does not depend on the order of its entries. *)
Lemma hashEntries_Permutation l l' : Forall (fun kv => wellMade (Value kv)) l -> l ≡ₚ l' -> forall acc, hashEntries acc l = hashEntries acc l'.
Proof.
  intros Hw Hp. induction Hp as [|x l l' Hp IH|x y l|l l' l'' Hp IH Hp' IH']; intros acc; cbn.
  - done.
  - apply Forall_cons in Hw as [Hx Hw]. destruct (hashValue _ _); cbn; [by apply IH|done..].
  - apply Forall_cons in Hw as [Hy Hw]. apply Forall_cons in Hw as [Hx Hw].
    destruct (hashValue_total _ Hx (mixString fnvOffset64 (Key x))) as [a ->], (hashValue_total _ Hy (mixString fnvOffset64 (Key y))) as [b ->].
    cbn. f_equal. unfold u64. rewrite !Zplus_mod_idemp_l. f_equal. lia.
  - rewrite IH by done. apply IH'. by rewrite <- Hp.
Qed.

Lemma doubleEqual_hash a b : doubleEqual a b = true -> (if a =? negZeroBits then 0 else a) = (if b =? negZeroBits then 0 else b).
Proof.
  unfold doubleEqual. intros [_ H]%andb_true_iff. apply orb_true_iff in H as [->%Z.eqb_eq|[Ha Hb]%andb_true_iff]; [done|].
  unfold isZero, negZeroBits in *. apply orb_true_iff in Ha, Hb. destruct Ha as [->%Z.eqb_eq| ->%Z.eqb_eq], Hb as [->%Z.eqb_eq| ->%Z.eqb_eq]; done.
Qed.

(** Values that are equal have the same hash. *)
Lemma hashValue_Equal v : wellMade v -> forall c h, wellMade c -> Value_Equal v c = Ok true -> hashValue h v = hashValue h c.
Proof.
  induction v as [v Hv|l IH|l IH] using AnyValue_induction; intros Hw c h Hc HE.
  - destruct v as [| | | |x|[]|[]| |], c as [| | | |y|[]|[]| |]; cbn in Hv, Hw, Hc; try contradiction; cbn in HE; try discriminate HE; cbn; try reflexivity.
    + injection HE as ->%bool_decide_eq_true. done.
    + injection HE as ->%Bool.eqb_prop. done.
    + injection HE as ->%Z.eqb_eq. done.
    + injection HE as E%doubleEqual_hash. by rewrite E.
    + injection HE as ->%bool_decide_eq_true. done.
  - destruct c as [| | | | |[l2|]| | |]; try exact (False_ind _ Hc); try discriminate HE. rewrite Slice_Equal_unfold in HE.
    destruct (Z.eqb_spec (len l) (len l2)) as [El|]; [|discriminate HE]. cbn in HE. rewrite !hashValue_array, El. apply wellMade_array in Hw, Hc.
    generalize (mixU64 (mixU64 h ValueTypeSlice) (u64 (len l2))). clear h. revert l2 El Hc HE.
    induction IH as [|v l Hv _ IHl]; intros [|c l2] El Hc HE g; [done| unfold len in El; cbn in El; lia..|].
    apply Forall_cons in Hw as [Hwv Hw], Hc as [Hcv Hc]. cbn in HE |- *. destruct (Value_Equal v c) as [[]| | |] eqn:Ev; try discriminate HE.
    rewrite (Hv Hwv c g Hcv Ev). destruct (hashValue g c); cbn; [|done..]. apply IHl; [done| |done..]. unfold len in *. cbn in El. lia.
  - destruct c as [| | | | | |[l2|]| |]; try exact (False_ind _ Hc); try discriminate HE. rewrite !hashValue_kvlist.
    apply wellMade_kvlist in Hw as [Hn Hw], Hc as [Hn2 Hc]. change (Map_Equal l l2 = Ok true) in HE.
    apply Map_Equal_match in HE as (l2' & Hp & HF); [|done..]. rewrite (hashEntries_Permutation l2 l2') by done.
    assert (El : len l = len l2) by (unfold len; by rewrite (Permutation_length Hp), (Forall2_length _ _ _ HF)). rewrite El. f_equal.
    rewrite Hp in Hc. clear -HF IH Hw Hc. generalize 0 as acc. induction HF as [|x y l l2 [Ek Ev] _ IHl]; intros acc; [done|].
    apply Forall_cons in IH as [Hx IH], Hw as [Hwx Hw], Hc as [Hcy Hc]. cbn. rewrite <- Ek, (Hx Hwx _ _ Hcy Ev).
    destruct (hashValue _ (Value y)); cbn; [by apply IHl|done..].
Qed.

(** ** [Equal] of the entries without values is equality *)
Lemma Function_Equal_eq a b : Function_Equal a b = true <-> a = b.
Proof. unfold Function_Equal. destruct a, b. cbn. rewrite !andb_true_iff, !Z.eqb_eq. naive_solver. Qed.

Lemma Mapping_Equal_eq a b : Mapping_Equal a b = true <-> a = b.
Proof. unfold Mapping_Equal. destruct a, b. cbn. rewrite !andb_true_iff, !Z.eqb_eq, bool_decide_eq_true. naive_solver. Qed.

Lemma LineSlice_Equal_eq a b : LineSlice_Equal a b = true <-> a = b.
Proof.
  revert b. induction a as [|[f l c] a IH]; intros [|[f2 l2 c2] b]; cbn; [done..|].
  unfold Line_Equal. cbn. rewrite !andb_true_iff, !Z.eqb_eq, IH. naive_solver.
Qed.

Lemma Location_Equal_eq a b : Location_Equal a b = true <-> a = b.
Proof. unfold Location_Equal. destruct a, b. cbn. rewrite !andb_true_iff, !Z.eqb_eq, bool_decide_eq_true, LineSlice_Equal_eq. naive_solver. Qed.

Lemma Stack_Equal_eq a b : Stack_Equal a b = true <-> a = b.
Proof. unfold Stack_Equal. destruct a, b. cbn. rewrite bool_decide_eq_true. naive_solver. Qed.

Lemma Link_Equal_eq a b : Link_Equal a b = true <-> a = b.
Proof. unfold Link_Equal. destruct a as [[] []], b as [[] []]. cbn. rewrite andb_true_iff, !bool_decide_eq_true. naive_solver. Qed.

(** ** The invariant of an index *)
Section Index.
Context {A : Type} (hash : A -> res Z) (Equal : A -> A -> res bool) (tooMany : error).

Definition hasHash (h : Z) (x : A) : bool := match hash x with Ok g => g =? h | _ => false end.

Fixpoint positions (h i : Z) (table : list A) : list Z :=
  match table with
  | [] => []
  | x :: table => if hasHash h x then i :: positions h (i + 1) table else positions h (i + 1) table
  end.

(** For every hash, the entries that have it, in their order. *)
Definition IndexOf (b : buckets) (table : list A) : Prop := forall h, bucket b h = positions h 0 table.

Lemma positions_app h i t1 t2 : positions h i (t1 ++ t2) = positions h i t1 ++ positions h (i + len t1) t2.
Proof.
  revert i. induction t1 as [|x t1 IH]; intros i; cbn [app positions].
  - by rewrite Z.add_0_r.
  - rewrite IH. unfold len. cbn [length]. replace (i + Z.of_nat (S (length t1))) with (i + 1 + Z.of_nat (length t1)) by lia. by destruct (hasHash h x).
Qed.

Lemma bucket_insert b h g l : bucket (<[h := l]> b) g = if h =? g then l else bucket b g.
Proof.
  unfold bucket. destruct (Z.eqb_spec h g) as [->|]; [by rewrite lookup_insert_eq|by rewrite lookup_insert_ne].
Qed.

Lemma IndexOf_append b table x h : IndexOf b table -> hash x = Ok h -> IndexOf (<[h := bucket b h ++ [len table]]> b) (table ++ [x]).
Proof.
  intros HI Hx g. rewrite bucket_insert, positions_app, <- !HI. cbn. unfold hasHash. rewrite Hx. by destruct (Z.eqb_spec h g) as [->|]; rewrite ?app_nil_r.
Qed.

Lemma indexTable_ok pre table b : IndexOf b pre -> Forall (fun x => exists h, hash x = Ok h) table -> len (pre ++ table) <= 2 ^ 31 ->
  exists b', indexTable hash (len pre) table b = Ok b' /\ IndexOf b' (pre ++ table).
Proof.
  revert pre b. induction table as [|x table IH]; intros pre b HI HF Hl; cbn; [exists b; by rewrite app_nil_r|].
  apply Forall_cons in HF as [[h Hx] HF]. rewrite Hx. cbn. rewrite i32_id.
  - replace (len pre + 1) with (len (pre ++ [x])) by (rewrite len_app; done). destruct (IH (pre ++ [x]) (<[h := bucket b h ++ [len pre]]> b)) as (b' & E & HI').
    + by apply IndexOf_append.
    + done.
    + by rewrite <- app_assoc.
    + exists b'. rewrite <- app_assoc in HI'. done.
  - unfold is_i32. rewrite len_app in Hl. unfold len in *. cbn in Hl. lia.
Qed.

Lemma IndexOf_empty : IndexOf ∅ [].
Proof. intros h. unfold bucket. by rewrite lookup_empty. Qed.

(** What the comparisons with an entry must satisfy. *)
Definition Comparable (x y : A) : Prop :=
  exists eq, Equal y x = Ok eq /\ (eq = true -> hash y = hash x).

Lemma at_middle (pre : list A) x rest : at_ (pre ++ x :: rest) (len pre) = Ok x.
Proof.
  unfold at_, len. destruct (Z.ltb_spec (Z.of_nat (length pre)) 0); [lia|]. rewrite Nat2Z.id, lookup_app_r, Nat.sub_diag by lia. done.
Qed.

Lemma search_scan x h pre rest : hash x = Ok h -> Forall (Comparable x) rest ->
  search Equal (pre ++ rest) x (positions h (len pre) rest) = scan Equal (len pre) rest x.
Proof.
  intros Hx. revert pre. induction rest as [|y rest IH]; intros pre HF; [done|]. apply Forall_cons in HF as [(eq & HE & Heq) HF].
  specialize (IH (pre ++ [y]) HF). rewrite <- app_assoc, len_app in IH. cbn in IH. change (len [y]) with 1 in IH. cbn. rewrite HE. cbn.
  unfold hasHash. destruct eq.
  - rewrite (Heq eq_refl), Hx, Z.eqb_refl. cbn. rewrite at_middle. cbn. by rewrite HE.
  - destruct (match hash y with Ok g => g =? h | _ => false end); [|exact IH]. cbn. rewrite at_middle. cbn. rewrite HE. cbn. exact IH.
Qed.

Lemma scan_found x table i : Forall (Comparable x) table ->
  match scan Equal i table x with Ok (Some j) => i <= j < i + len table | Ok None => True | _ => False end.
Proof.
  intros HF. revert i. induction HF as [|y table (eq & HE & _) _ IH]; intros i; cbn; [done|]. rewrite HE. cbn. unfold len. cbn [length].
  destruct eq; [lia|]. specialize (IH (i + 1)). destruct (scan _ _ _ _) as [[j|]| | |]; [|done..]. unfold len in IH. lia.
Qed.

Lemma setEntry_scan b table x h : IndexOf b table -> hash x = Ok h -> Forall (Comparable x) table -> len table <= MaxInt32 ->
  match SetEntry Equal tooMany table x with
  | Ok (idx, table') => exists b', setEntry hash Equal tooMany MaxInt32 b table x = Ok (idx, b', table') /\ IndexOf b' table' /\ len table' <= MaxInt32
  | Err e => setEntry hash Equal tooMany MaxInt32 b table x = Err e
  | _ => False
  end.
Proof.
  intros HI Hx HF Hl. unfold SetEntry, setEntry. rewrite Hx. cbn. rewrite HI. rewrite (search_scan x h [] table Hx HF : search Equal table x (positions h 0 table) = scan Equal 0 table x).
  pose proof (scan_found x table 0 HF) as Hfound.
  destruct (scan Equal 0 table x) as [[j|]| | |]; cbn in *; [| |contradiction..].
  - destruct (Z.ltb_spec MaxInt32 j); [lia|]. exists b. rewrite i32_id; [done|]. unfold is_i32, MaxInt32 in *. lia.
  - destruct (Z.leb_spec MaxInt32 (len table)); [done|]. rewrite len_app. change (len [x]) with 1. replace (len table + 1 - 1) with (len table) by lia.
    rewrite i32_id by (unfold is_i32, MaxInt32 in *; pose proof (len_nonneg table); lia). eexists. split; [done|]. split; [|lia].
    rewrite <- HI. by apply IndexOf_append.
Qed.
End Index.

(** ** Strings: the index is a map to the first position *)
Definition stringEqual : list Z -> list Z -> res bool := pure (fun a b => bool_decide (a = b)).

Definition StringsIndexed (m : gmap (list Z) Z) (table : list (list Z)) : Prop := forall s, scan stringEqual 0 table s = Ok (m !! s).

Lemma scan_app (t1 t2 : list (list Z)) i s : scan stringEqual i (t1 ++ t2) s =
  match scan stringEqual i t1 s with Ok None => scan stringEqual (i + len t1) t2 s | r => r end.
Proof.
  revert i. induction t1 as [|y t1 IH]; intros i; cbn [app scan].
  - unfold len. by rewrite Z.add_0_r.
  - unfold stringEqual at 1 3, pure. cbn. destruct (bool_decide (y = s)); [done|]. rewrite IH. unfold len. cbn [length].
    by replace (i + Z.of_nat (S (length t1))) with (i + 1 + Z.of_nat (length t1)) by lia.
Qed.

Lemma StringsIndexed_append m table s : StringsIndexed m table -> m !! s = None -> StringsIndexed (<[s := len table]> m) (table ++ [s]).
Proof.
  intros HI Hs s'. rewrite scan_app, HI. cbn. unfold pure. case_bool_decide as E.
  - subst s'. by rewrite Hs, lookup_insert_eq.
  - rewrite lookup_insert_ne by done. by destruct (m !! s').
Qed.

Lemma StringsIndexed_again m table s i : StringsIndexed m table -> m !! s = Some i -> StringsIndexed m (table ++ [s]).
Proof.
  intros HI Hs s'. rewrite scan_app, HI. destruct (m !! s') as [|] eqn:E; [done|]. cbn. unfold pure. rewrite bool_decide_false by congruence. done.
Qed.

Lemma indexStrings_ok pre table m : StringsIndexed m pre -> len (pre ++ table) <= 2 ^ 31 -> StringsIndexed (indexStrings (len pre) table m) (pre ++ table).
Proof.
  revert pre m. induction table as [|s table IH]; intros pre m HI Hl; cbn; [by rewrite app_nil_r|].
  rewrite i32_id by (unfold is_i32; rewrite len_app in Hl; unfold len in *; cbn in Hl; lia).
  replace (len pre + 1) with (len (pre ++ [s])) by (rewrite len_app; done). replace (pre ++ s :: table) with ((pre ++ [s]) ++ table) in * by (by rewrite <- app_assoc).
  apply IH; [|done]. destruct (m !! s) eqn:E; [by eapply StringsIndexed_again|by apply StringsIndexed_append].
Qed.

(** ** The destination without an index, set by going through its tables *)
#[export] Instance scanning : Interner Dict := {|
  internString d s := let* (i, t) := SetString (strings d) s in Ok (i, d <| ProfilesDictionary_StringTable := t |>);
  internFunction d x := let* (i, t) := SetFunction (functions d) x in Ok (i, d <| ProfilesDictionary_FunctionTable := t |>);
  internMapping d x := let* (i, t) := SetMapping (mappings d) x in Ok (i, d <| ProfilesDictionary_MappingTable := t |>);
  internLocation d x := let* (i, t) := SetLocation (locations d) x in Ok (i, d <| ProfilesDictionary_LocationTable := t |>);
  internStack d x := let* (i, t) := SetStack (stacks d) x in Ok (i, d <| ProfilesDictionary_StackTable := t |>);
  internAttribute d x := let* (i, t) := SetAttribute (attributes d) x in Ok (i, d <| ProfilesDictionary_AttributeTable := t |>);
  internLink d x := let* (i, t) := SetLink (links d) x in Ok (i, d <| ProfilesDictionary_LinkTable := t |>);
|}.

Definition attrMade (a : KeyValueAndUnit) : Prop := wellMade (KeyValueAndUnit_Value a).

(** The tables are within the bound and hold well made values. *)
Record Tables (d : Dict) : Prop := {
  tb_strings : len (strings d) <= MaxInt32;
  tb_functions : len (functions d) <= MaxInt32;
  tb_mappings : len (mappings d) <= MaxInt32;
  tb_locations : len (locations d) <= MaxInt32;
  tb_stacks : len (stacks d) <= MaxInt32;
  tb_attributes : len (attributes d) <= MaxInt32;
  tb_links : len (links d) <= MaxInt32;
  tb_made : Forall attrMade (attributes d);
}.

(** The index is one of the destination. *)
Record Tracks (st : merging) (d : Dict) : Prop := {
  tr_dst : dst st = d;
  tr_tables : Tables d;
  tr_max : maxTableLen (mi st) = MaxInt32;
  tr_strings : StringsIndexed (mi_strings (mi st)) (strings d);
  tr_functions : IndexOf (fun x => Ok (hashFunction x)) (mi_functions (mi st)) (functions d);
  tr_mappings : IndexOf (fun x => Ok (hashMapping x)) (mi_mappings (mi st)) (mappings d);
  tr_locations : IndexOf (fun x => Ok (hashLocation x)) (mi_locations (mi st)) (locations d);
  tr_stacks : IndexOf (fun x => Ok (hashStack x)) (mi_stacks (mi st)) (stacks d);
  tr_attributes : IndexOf hashAttribute (mi_attributes (mi st)) (attributes d);
  tr_links : IndexOf (fun x => Ok (hashLink x)) (mi_links (mi st)) (links d);
}.

(** The same result, with the index kept. *)
Definition Sim {A} (r1 : res (A * merging)) (r2 : res (A * Dict)) : Prop :=
  match r2 with
  | Ok (a, d) => exists st, r1 = Ok (a, st) /\ Tracks st d
  | Err e => r1 = Err e
  | Panic => r1 = Panic
  | OutOfFuel => r1 = OutOfFuel
  end.

Lemma sim_ok {A} (a : A) st d : Tracks st d -> Sim (Ok (a, st)) (Ok (a, d)).
Proof. intros Ht. by exists st. Qed.

Lemma sim_bind {A B} (r1 : res (A * merging)) r2 (f1 : A -> merging -> res (B * merging)) (f2 : A -> Dict -> res (B * Dict)) :
  Sim r1 r2 -> (forall a st d, r2 = Ok (a, d) -> Tracks st d -> Sim (f1 a st) (f2 a d)) ->
  Sim (let* (a, st) := r1 in f1 a st) (let* (a, d) := r2 in f2 a d).
Proof. destruct r2 as [[a d]| | |]; cbn; [|by intros ->..]. intros (st & -> & Ht) Hf. cbn. by apply Hf. Qed.

Lemma sim_wrap {A} fmt args (r1 : res (A * merging)) r2 : Sim r1 r2 -> Sim (wrap fmt args r1) (wrap fmt args r2).
Proof. destruct r2 as [[a d]| | |]; cbn; [intros (st & -> & Ht)|intros ->..]; [by exists st|done..]. Qed.

(** ** The setters *)
Lemma comparable_pure {A} (h : A -> Z) (equal : A -> A -> bool) x table : (forall a b, equal a b = true <-> a = b) ->
  Forall (Comparable (fun x => Ok (h x)) (pure equal) x) table.
Proof. intros He. apply Forall_forall. intros y _. exists (equal y x). split; [done|]. by intros ->%He. Qed.

Lemma comparable_attribute x table : attrMade x -> Forall attrMade table -> Forall (Comparable hashAttribute KeyValueAndUnit_Equal x) table.
Proof.
  intros Hx HF. eapply Forall_impl; [exact HF|]. intros y Hy. unfold Comparable, KeyValueAndUnit_Equal, hashAttribute. destruct (_ && _) eqn:E.
  - destruct (Value_Equal_total _ Hy _ Hx) as [b Hb]. exists b. split; [done|]. intros ->.
    apply andb_true_iff in E as [->%Z.eqb_eq ->%Z.eqb_eq]. by apply hashValue_Equal.
  - by exists false.
Qed.

Ltac sim_set Hs :=
  let b' := fresh "b'" in let HI' := fresh "HI'" in let Hl' := fresh "Hl'" in
  match type of Hs with match ?r with _ => _ end => destruct r as [ [?idx ?t]| | |] eqn:?E end;
  [destruct Hs as (b' & -> & HI' & Hl')|rewrite Hs|contradiction..]; cbn; [|reflexivity].

Lemma setString_sim st d x : Tracks st d -> Sim (setString st x) (internString d x).
Proof.
  intros [<- Ht Hm Hss]. cbn. unfold setString, SetString, SetEntry. specialize (Hss x) as Hx. unfold stringEqual in Hx. rewrite Hx, Hm. cbn.
  destruct (mi_strings (mi st) !! x) as [i|] eqn:E.
  - assert (Hi : 0 <= i < len (strings (dst st))).
    { pose proof (scan_found (fun _ => Ok 0) stringEqual x (strings (dst st)) 0) as Hf. rewrite Hss, E in Hf. apply Hf.
      apply Forall_forall. intros y _. eexists. split; [reflexivity|done]. }
    pose proof (tb_strings _ Ht). destruct (Z.ltb_spec MaxInt32 i); [lia|]. cbn. rewrite i32_id by (unfold is_i32, MaxInt32 in *; lia).
    exists st. split; [done|]. by destruct st as [ [] ?].
  - destruct (Z.leb_spec MaxInt32 (len (strings (dst st)))); [done|]. cbn. eexists. split; [reflexivity|].
    assert (Hi : i32 (len (strings (dst st) ++ [x]) - 1) = len (strings (dst st))).
    { rewrite len_app. change (len [x]) with 1. replace (len (strings (dst st)) + 1 - 1) with (len (strings (dst st))) by lia.
      apply i32_id. pose proof (len_nonneg (strings (dst st))). unfold is_i32, MaxInt32 in *. lia. }
    rewrite Hi. destruct Ht. constructor; cbn; try done; [constructor; cbn; try done; rewrite len_app; change (len [x]) with 1; lia|].
    by apply StringsIndexed_append.
Qed.

Ltac sim_pure x set Set_ equal err equal_eq tr tb :=
  let Ht := fresh "Ht" in let Hs := fresh "Hs" in
  intros Ht; pose proof (tr_dst _ _ Ht) as <-; cbn; unfold set, Set_; rewrite (tr_max _ _ Ht);
  pose proof (setEntry_scan _ (pure equal) err _ _ x _ (tr _ _ Ht) eq_refl (comparable_pure _ _ x _ equal_eq) (tb _ (tr_tables _ _ Ht))) as Hs;
  sim_set Hs; eexists; (split; [reflexivity|]); destruct Ht as [ ? [] ]; constructor; cbn; done.

Lemma setFunction_sim st d x : Tracks st d -> Sim (setFunction st x) (internFunction d x).
Proof. sim_pure x setFunction SetFunction Function_Equal errTooManyFunctionTableEntries Function_Equal_eq tr_functions tb_functions. Qed.

Lemma setMapping_sim st d x : Tracks st d -> Sim (setMapping st x) (internMapping d x).
Proof. sim_pure x setMapping SetMapping Mapping_Equal errTooManyMappingTableEntries Mapping_Equal_eq tr_mappings tb_mappings. Qed.

Lemma setLocation_sim st d x : Tracks st d -> Sim (setLocation st x) (internLocation d x).
Proof. sim_pure x setLocation SetLocation Location_Equal errTooManyLocationTableEntries Location_Equal_eq tr_locations tb_locations. Qed.

Lemma setStack_sim st d x : Tracks st d -> Sim (setStack st x) (internStack d x).
Proof. sim_pure x setStack SetStack Stack_Equal errTooManyStackTableEntries Stack_Equal_eq tr_stacks tb_stacks. Qed.

Lemma setLink_sim st d x : Tracks st d -> Sim (setLink st x) (internLink d x).
Proof. sim_pure x setLink SetLink Link_Equal errTooManyLinkTableEntries Link_Equal_eq tr_links tb_links. Qed.

(** An entry that is set is in the table afterwards, or an equal one was. *)
Lemma SetEntry_table {A} (Equal : A -> A -> res bool) e table x i t : SetEntry Equal e table x = Ok (i, t) -> t = table \/ t = table ++ [x].
Proof. unfold SetEntry. destruct (scan Equal 0 table x) as [[j|]| | |]; cbn; [| |done..]; case_match; naive_solver. Qed.

Lemma setAttribute_sim st d x : attrMade x -> Tracks st d -> Sim (setAttribute st x) (internAttribute d x).
Proof.
  intros Hx [<- Ht Hm ? ? ? ? ? HI]. cbn. unfold setAttribute, SetAttribute. rewrite Hm.
  destruct (hashValue_total _ Hx (mixAll fnvOffset64 [u32 (KeyValueAndUnit_KeyStrindex x); u32 (KeyValueAndUnit_UnitStrindex x)])) as [h Hh].
  pose proof (setEntry_scan hashAttribute KeyValueAndUnit_Equal errTooManyAttributeTableEntries _ _ x h HI Hh
    (comparable_attribute x _ Hx (tb_made _ Ht)) (tb_attributes _ Ht)) as Hs.
  sim_set Hs. eexists. split; [reflexivity|]. destruct Ht. constructor; cbn; try done. constructor; cbn; try done.
  apply SetEntry_table in E as [->| ->]; [done|]. apply Forall_app. split; [done|]. by apply Forall_singleton.
Qed.

(** ** Switching *)
Lemma switchRef_sim {A} what (set1 : merging -> A -> res (Z * merging)) (set2 : Dict -> A -> res (Z * Dict)) (P : A -> Prop) table i st d :
  (forall st d x, P x -> Tracks st d -> Sim (set1 st x) (set2 d x)) -> Forall P table -> Tracks st d ->
  Sim (switchRef what set1 table i st) (switchRef what set2 table i d).
Proof.
  intros Hset HP Ht. unfold switchRef. destruct (0 <? i); [|by apply sim_ok]. destruct (len table <=? i); [done|].
  unfold at_. destruct (i <? 0); [done|]. destruct (table !! Z.to_nat i) as [x|] eqn:E; [|done]. cbn. apply sim_wrap, Hset; [|done].
  by eapply Forall_lookup_1.
Qed.

Lemma switchRefs_sim {A} what (set1 : merging -> A -> res (Z * merging)) (set2 : Dict -> A -> res (Z * Dict)) (P : A -> Prop) table i vs st d :
  (forall st d x, P x -> Tracks st d -> Sim (set1 st x) (set2 d x)) -> Forall P table -> Tracks st d ->
  Sim (switchRefs what set1 table i vs st) (switchRefs what set2 table i vs d).
Proof.
  intros Hset HP. revert i st d. induction vs as [|v vs IH]; intros i st d Ht; cbn; [by apply sim_ok|]. destruct (_ || _); [done|].
  unfold at_. destruct (v <? 0); [done|]. destruct (table !! Z.to_nat v) as [x|] eqn:E; [|done]. cbn.
  apply sim_bind; [apply sim_wrap, Hset; [by eapply Forall_lookup_1|done]|]. intros idx st1 d1 _ Ht1.
  apply sim_bind; [by apply IH|]. intros l st2 d2 _ Ht2. by apply sim_ok.
Qed.

Lemma switchAll_sim {A} fmt (f1 : A -> merging -> res (A * merging)) (f2 : A -> Dict -> res (A * Dict)) i l st d :
  (forall st d x, Tracks st d -> Sim (f1 x st) (f2 x d)) -> Tracks st d -> Sim (switchAll fmt f1 i l st) (switchAll fmt f2 i l d).
Proof.
  intros Hf. revert i st d. induction l as [|x l IH]; intros i st d Ht; cbn; [by apply sim_ok|].
  apply sim_bind; [by apply sim_wrap, Hf|]. intros y st1 d1 _ Ht1. apply sim_bind; [by apply IH|]. intros l' st2 d2 _ Ht2. by apply sim_ok.
Qed.

Lemma switchAll_Forall {A S} fmt (f : A -> S -> res (A * S)) (P : A -> Prop) i l st l' st' :
  (forall x st x' st', f x st = Ok (x', st') -> P x -> P x') -> switchAll fmt f i l st = Ok (l', st') -> Forall P l -> Forall P l'.
Proof.
  intros Hf. revert i st l' st'. induction l as [|x l IH]; intros i st l' st' E HP; cbn in E; [by injection E as <- <-|].
  apply Forall_cons in HP as [Hx HP]. destruct (f x st) as [[y st1]| | |] eqn:Ex; cbn in E; try discriminate E.
  destruct (switchAll fmt f (i + 1) l st1) as [[l1 st2]| | |] eqn:El; cbn in E; try discriminate E. injection E as <- <-.
  constructor; [by eapply Hf|by eapply IH].
Qed.

Section SwitchSim.
Context (src : Dict) (Hmade : Forall attrMade (attributes src)).

Lemma switchString_sim what i st d : Tracks st d -> Sim (switchRef what internString (strings src) i st) (switchRef what internString (strings src) i d).
Proof. apply (switchRef_sim _ _ _ (fun _ => True)); [intros; by apply setString_sim|]. by apply Forall_true. Qed.

Lemma switchAttributes_sim i vs st d : Tracks st d ->
  Sim (switchRefs "attribute" internAttribute (attributes src) i vs st) (switchRefs "attribute" internAttribute (attributes src) i vs d).
Proof. apply (switchRefs_sim _ _ _ attrMade); [intros; by apply setAttribute_sim|done]. Qed.

(** References of the other kinds. *)
Lemma switchEntry_sim {A} what (set1 : merging -> A -> res (Z * merging)) set2 table i st d : (forall st d x, Tracks st d -> Sim (set1 st x) (set2 d x)) ->
  Tracks st d -> Sim (switchRef what set1 table i st) (switchRef what set2 table i d).
Proof. intros Hs. apply (switchRef_sim _ _ _ (fun _ => True)); [intros; by apply Hs|]. by apply Forall_true. Qed.

Ltac sim_steps := repeat (first [apply sim_bind; [|intros ? ? ? _ ?]|by apply sim_ok]).

Lemma KeyValueAndUnit_sim x st d : Tracks st d -> Sim (KeyValueAndUnit_switchDictionary src x st) (KeyValueAndUnit_switchDictionary src x d).
Proof. intros Ht. unfold KeyValueAndUnit_switchDictionary. sim_steps; by apply switchString_sim. Qed.

Lemma Function_sim x st d : Tracks st d -> Sim (Function_switchDictionary src x st) (Function_switchDictionary src x d).
Proof. intros Ht. unfold Function_switchDictionary. sim_steps; by apply switchString_sim. Qed.

Lemma Mapping_sim x st d : Tracks st d -> Sim (Mapping_switchDictionary src x st) (Mapping_switchDictionary src x d).
Proof. intros Ht. unfold Mapping_switchDictionary. sim_steps; [by apply switchString_sim|by apply switchAttributes_sim]. Qed.

Lemma Line_sim x st d : Tracks st d -> Sim (Line_switchDictionary src x st) (Line_switchDictionary src x d).
Proof. intros Ht. unfold Line_switchDictionary. sim_steps. apply switchEntry_sim; [apply setFunction_sim|done]. Qed.

Lemma Location_sim x st d : Tracks st d -> Sim (Location_switchDictionary src x st) (Location_switchDictionary src x d).
Proof.
  intros Ht. unfold Location_switchDictionary. sim_steps; [apply switchEntry_sim; [apply setMapping_sim|done]|by apply switchAttributes_sim|].
  apply switchAll_sim; [|done]. intros; by apply Line_sim.
Qed.

Lemma Stack_sim x st d : Tracks st d -> Sim (Stack_switchDictionary src x st) (Stack_switchDictionary src x d).
Proof.
  intros Ht. unfold Stack_switchDictionary. sim_steps. apply (switchRefs_sim _ _ _ (fun _ => True)); [intros; by apply setLocation_sim| |done].
  by apply Forall_true.
Qed.

Lemma ValueType_sim x st d : Tracks st d -> Sim (ValueType_switchDictionary src x st) (ValueType_switchDictionary src x d).
Proof. intros Ht. unfold ValueType_switchDictionary. sim_steps; by apply switchString_sim. Qed.

Lemma Sample_sim x st d : Tracks st d -> Sim (Sample_switchDictionary src x st) (Sample_switchDictionary src x d).
Proof.
  intros Ht. unfold Sample_switchDictionary. sim_steps; [by apply switchAttributes_sim|..]; (apply switchEntry_sim; [|done]);
    [apply setLink_sim|apply setStack_sim].
Qed.

Lemma Profile_sim x st d : Tracks st d -> Sim (Profile_switchDictionary src x st) (Profile_switchDictionary src x d).
Proof.
  intros Ht. unfold Profile_switchDictionary. sim_steps; [by apply switchAttributes_sim| |by apply sim_wrap, ValueType_sim..].
  apply switchAll_sim; [|done]. intros; by apply Sample_sim.
Qed.

Lemma ScopeProfiles_sim x st d : Tracks st d -> Sim (ScopeProfiles_switchDictionary src x st) (ScopeProfiles_switchDictionary src x d).
Proof. intros Ht. unfold ScopeProfiles_switchDictionary. sim_steps. apply switchAll_sim; [|done]. intros; by apply Profile_sim. Qed.

Lemma ResourceProfiles_sim x st d : Tracks st d -> Sim (ResourceProfiles_switchDictionary src x st) (ResourceProfiles_switchDictionary src x d).
Proof. intros Ht. unfold ResourceProfiles_switchDictionary. sim_steps. apply switchAll_sim; [|done]. intros; by apply ScopeProfiles_sim. Qed.
End SwitchSim.

Lemma KeyValueAndUnit_switch_value {S} `{Interner S} src x (st : S) x' st' :
  KeyValueAndUnit_switchDictionary src x st = Ok (x', st') -> KeyValueAndUnit_Value x' = KeyValueAndUnit_Value x.
Proof.
  unfold KeyValueAndUnit_switchDictionary. destruct (switchRef _ _ _ _ st) as [[? st1]| | |]; cbn; try discriminate.
  destruct (switchRef _ _ _ _ st1) as [[? ?]| | |]; cbn; try discriminate. by intros [= <- _].
Qed.

Lemma switchTables_sim ms st d : Forall attrMade (attributes (ExportProfilesServiceRequest_Dictionary ms)) -> Tracks st d ->
  Sim (switchTables ms st) (switchTables ms d).
Proof.
  intros Hmade Ht. unfold switchTables.
  apply sim_bind; [apply switchAll_sim; [intros; by apply KeyValueAndUnit_sim|done]|]. intros ats st1 d1 E Ht1.
  assert (Hats : Forall attrMade ats).
  { eapply (switchAll_Forall _ _ attrMade); [|exact E|exact Hmade]. intros x s x' s' Ex. unfold attrMade. by rewrite (KeyValueAndUnit_switch_value _ _ _ _ _ Ex). }
  apply sim_bind; [apply switchAll_sim; [intros; by apply Function_sim|done]|]. intros fns st2 d2 _ Ht2.
  apply sim_bind; [apply switchAll_sim; [intros; by apply Mapping_sim|done]|]. intros mas st3 d3 _ Ht3.
  apply sim_bind; [apply switchAll_sim; [intros; by apply Location_sim|done]|]. intros locs st4 d4 _ Ht4.
  apply sim_bind; [apply switchAll_sim; [intros; by apply Stack_sim|done]|]. intros sts st5 d5 _ Ht5.
  apply sim_bind; [apply switchAll_sim; [intros; by apply ResourceProfiles_sim|done]|]. intros rps st6 d6 _ Ht6. by apply sim_ok.
Qed.

Lemma newMergeIndex_ok d : Tables d -> exists index, newMergeIndex d = Ok index /\ Tracks (mkMerging d index) d.
Proof.
  intros Ht. pose proof Ht as []. unfold newMergeIndex.
  assert (Hpure : forall A (h : A -> Z) (table : list A), len table <= MaxInt32 ->
    exists b, indexTable (fun x => Ok (h x)) 0 table ∅ = Ok b /\ IndexOf (fun x => Ok (h x)) b table).
  { intros A h table Hl. apply (indexTable_ok (fun x => Ok (h x)) []); [apply IndexOf_empty|apply Forall_forall; eauto|cbn; unfold MaxInt32 in Hl; lia]. }
  destruct (Hpure _ hashFunction (functions d)) as (fs & -> & Hfs); [done|]. destruct (Hpure _ hashMapping (mappings d)) as (ms & -> & Hms); [done|].
  destruct (Hpure _ hashLocation (locations d)) as (ls & -> & Hls); [done|]. destruct (Hpure _ hashStack (stacks d)) as (ss & -> & Hss); [done|].
  destruct (Hpure _ hashLink (links d)) as (lks & -> & Hlks); [done|].
  destruct (indexTable_ok hashAttribute [] (attributes d) ∅) as (ats & Eats & Hats).
  { apply IndexOf_empty. }
  { eapply Forall_impl; [exact tb_made0|]. intros a Ha. by apply hashValue_total. }
  { cbn. unfold MaxInt32 in *. lia. }
  change (len []) with 0 in Eats. rewrite Eats. cbn. eexists. split; [reflexivity|]. constructor; cbn; try done.
  apply (indexStrings_ok []); [done|]. cbn. unfold MaxInt32 in *. lia.
Qed.

(** ** Merging by going through the tables *)
Definition MergeByScan (ms dest : ExportProfilesServiceRequest) : res (ExportProfilesServiceRequest * ExportProfilesServiceRequest) :=
  let* (ms, dict) := switchTables ms (ExportProfilesServiceRequest_Dictionary dest) in
  Ok (ms <| ExportProfilesServiceRequest_ResourceProfiles := [] |>,
      mkExportProfilesServiceRequest
        (ExportProfilesServiceRequest_ResourceProfiles dest ++ ExportProfilesServiceRequest_ResourceProfiles ms) dict).

Lemma MergeTo_scan ms dest : Tables (ExportProfilesServiceRequest_Dictionary dest) ->
  Forall attrMade (attributes (ExportProfilesServiceRequest_Dictionary ms)) -> MergeTo false false ms dest = MergeByScan ms dest.
Proof.
  intros Hd Hs. unfold MergeTo, MergeByScan, Profiles_switchDictionary. cbn [orb]. destruct (newMergeIndex_ok _ Hd) as (index & -> & Ht). cbn.
  pose proof (switchTables_sim ms _ _ Hs Ht) as HS. destruct (switchTables ms (ExportProfilesServiceRequest_Dictionary dest)) as [[ms' d']| | |]; cbn in HS |- *.
  - destruct HS as (st & -> & []). cbn. by subst d'.
  - by rewrite HS.
  - by rewrite HS.
  - by rewrite HS.
Qed.

(** C5: Merging profiles with an index of hashes gives exactly what merging by going
    through the tables gives: the same messages, the same dictionary with its entries in
    the same order, the same error, for every source and every destination whose tables
    fit their indices, when the maps in attribute values have distinct keys. *)
Theorem merge_index_equivalent ms dest : Tables (ExportProfilesServiceRequest_Dictionary dest) ->
  Forall attrMade (attributes (ExportProfilesServiceRequest_Dictionary ms)) -> MergeTo false false ms dest = MergeByScan ms dest.
Proof. apply MergeTo_scan. Qed.

Definition exampleDict (v : AnyValue) : Dict :=
  ProfilesDictionary_zero <| ProfilesDictionary_StringTable := [ []; [107] ] |> <| ProfilesDictionary_AttributeTable := [mkKeyValueAndUnit v 1 0] |>.

Definition exampleProfiles (v : AnyValue) : ExportProfilesServiceRequest :=
  mkExportProfilesServiceRequest
    [mkResourceProfiles [] zero [mkScopeProfiles [] [zero <| Profile_Samples := [mkSample [0] [5] [] 0 0] |>] zero] ] (exampleDict v).

(** The value -0 of the source finds the 0 of the destination. *)
Lemma merge_index_equivalent_witness :
  (exists ms' dest', MergeTo false false (exampleProfiles (AnyValue_DoubleValue negZeroBits)) (exampleProfiles (AnyValue_DoubleValue 0)) = Ok (ms', dest') /\
     len (attributes (ExportProfilesServiceRequest_Dictionary dest')) = 1) /\
  MergeTo false false (exampleProfiles (AnyValue_DoubleValue negZeroBits)) (exampleProfiles (AnyValue_DoubleValue 0)) =
  MergeByScan (exampleProfiles (AnyValue_DoubleValue negZeroBits)) (exampleProfiles (AnyValue_DoubleValue 0)).
Proof.
  split; [eexists _, _; split; vm_compute; reflexivity|]. apply merge_index_equivalent.
  - constructor; try (vm_compute; discriminate). repeat constructor.
  - repeat constructor.
Defined.
