(* ===== verification/ProfilesMeaning.v ===== *)
(** * What profiles mean

    A message of profiles with every reference replaced by what it refers to: the
    specification of merging.  Attribute values are seen through [obs], any view of them
    that does not tell equal values apart.

    A message is closed in a dictionary when its references are in the tables. *)

From stdpp Require Import gmap.
From S2P Require Import Prelude RecordUpdate Errors Sizers ProtoWire ProtoWireProofs ProtoFields ProtoCommon PcommonValue PcommonMap ProtoMessage ProtoKinds ProtoIds ProtoResource ProtoProfiles ProtoExport ProfilesDict ProfilesIndex.
Local Open Scope Z_scope.
Local Open Scope otel_scope.

Local Abbreviation Dict := ProfilesDictionary.
Local Abbreviation strings := ProfilesDictionary_StringTable.
Local Abbreviation functions := ProfilesDictionary_FunctionTable.
Local Abbreviation mappings := ProfilesDictionary_MappingTable.
Local Abbreviation locations := ProfilesDictionary_LocationTable.
Local Abbreviation stacks := ProfilesDictionary_StackTable.
Local Abbreviation attributes := ProfilesDictionary_AttributeTable.
Local Abbreviation links := ProfilesDictionary_LinkTable.

(** ** Kinds of entries *)

(** The table of a kind, the entry that index 0 stands for, and for an entry whether it is
    closed and what it means. *)
Record kind (A M : Type) := mkKind {
  k_table : Dict -> list A;
  k_none : A;
  k_closed : Dict -> A -> Prop;
  k_meaning : Dict -> A -> M;
}.
Arguments k_table {_ _}.
Arguments k_none {_ _}.
Arguments k_closed {_ _}.
Arguments k_meaning {_ _}.

(** References of which 0 is none, and of which 0 is an entry. *)
Definition refOk {A M} (k : kind A M) (d : Dict) (i : Z) : Prop := i <= 0 \/ i < len (k_table k d).
Definition refMeaning {A M} (k : kind A M) (d : Dict) (i : Z) : M :=
  k_meaning k d (if i <=? 0 then k_none k else nth (Z.to_nat i) (k_table k d) (k_none k)).

Definition indexOk {A M} (k : kind A M) (d : Dict) (i : Z) : Prop := 0 <= i < len (k_table k d).
Definition indexMeaning {A M} (k : kind A M) (d : Dict) (i : Z) : M := k_meaning k d (nth (Z.to_nat i) (k_table k d) (k_none k)).

#[global] Arguments refMeaning {_ _} _ _ _ : simpl never.
#[global] Arguments indexMeaning {_ _} _ _ _ : simpl never.

Section Meaning.
Context {V : Type} (obs : AnyValue -> V).

Definition stringKind : kind (list Z) (list Z) := mkKind _ _ strings [] (fun _ _ => True) (fun _ s => s).
Definition linkKind : kind Link Link := mkKind _ _ links Link_zero (fun _ _ => True) (fun _ l => l).

Definition attributeClosed (d : Dict) (a : KeyValueAndUnit) : Prop :=
  attrMade a /\ refOk stringKind d (KeyValueAndUnit_KeyStrindex a) /\ refOk stringKind d (KeyValueAndUnit_UnitStrindex a).
Definition attributeMeaning (d : Dict) (a : KeyValueAndUnit) : list Z * list Z * V :=
  (refMeaning stringKind d (KeyValueAndUnit_KeyStrindex a), refMeaning stringKind d (KeyValueAndUnit_UnitStrindex a), obs (KeyValueAndUnit_Value a)).
Definition attributeKind := mkKind _ _ attributes KeyValueAndUnit_zero attributeClosed attributeMeaning.

Definition functionClosed (d : Dict) (fn : Function) : Prop :=
  refOk stringKind d (Function_NameStrindex fn) /\ refOk stringKind d (Function_SystemNameStrindex fn) /\ refOk stringKind d (Function_FilenameStrindex fn).
Definition functionMeaning (d : Dict) (fn : Function) : list Z * list Z * list Z * Z :=
  (refMeaning stringKind d (Function_NameStrindex fn), refMeaning stringKind d (Function_SystemNameStrindex fn),
   refMeaning stringKind d (Function_FilenameStrindex fn), Function_StartLine fn).
Definition functionKind := mkKind _ _ functions Function_zero functionClosed functionMeaning.

Definition mappingClosed (d : Dict) (m : Mapping) : Prop :=
  refOk stringKind d (Mapping_FilenameStrindex m) /\ Forall (indexOk attributeKind d) (Mapping_AttributeIndices m).
Definition mappingMeaning (d : Dict) (m : Mapping) :=
  (Mapping_MemoryStart m, Mapping_MemoryLimit m, Mapping_FileOffset m, refMeaning stringKind d (Mapping_FilenameStrindex m),
   map (indexMeaning attributeKind d) (Mapping_AttributeIndices m)).
Definition mappingKind := mkKind _ _ mappings Mapping_zero mappingClosed mappingMeaning.

Definition lineClosed (d : Dict) (l : Line) : Prop := refOk functionKind d (Line_FunctionIndex l).
Definition lineMeaning (d : Dict) (l : Line) := (refMeaning functionKind d (Line_FunctionIndex l), Line_Line l, Line_Column l).

Definition locationClosed (d : Dict) (l : Location) : Prop :=
  refOk mappingKind d (Location_MappingIndex l) /\ Forall (indexOk attributeKind d) (Location_AttributeIndices l) /\ Forall (lineClosed d) (Location_Lines l).
Definition locationMeaning (d : Dict) (l : Location) :=
  (refMeaning mappingKind d (Location_MappingIndex l), Location_Address l, map (indexMeaning attributeKind d) (Location_AttributeIndices l),
   map (lineMeaning d) (Location_Lines l)).
Definition locationKind := mkKind _ _ locations Location_zero locationClosed locationMeaning.

Definition stackClosed (d : Dict) (s : Stack) : Prop := Forall (indexOk locationKind d) (Stack_LocationIndices s).
Definition stackMeaning (d : Dict) (s : Stack) := map (indexMeaning locationKind d) (Stack_LocationIndices s).
Definition stackKind := mkKind _ _ stacks Stack_zero stackClosed stackMeaning.

(** ** Messages outside of the dictionary *)
Definition valueTypeClosed (d : Dict) (v : ValueType) : Prop := refOk stringKind d (ValueType_TypeStrindex v) /\ refOk stringKind d (ValueType_UnitStrindex v).
Definition valueTypeMeaning (d : Dict) (v : ValueType) := (refMeaning stringKind d (ValueType_TypeStrindex v), refMeaning stringKind d (ValueType_UnitStrindex v)).

Definition sampleClosed (d : Dict) (s : Sample) : Prop :=
  Forall (indexOk attributeKind d) (Sample_AttributeIndices s) /\ refOk linkKind d (Sample_LinkIndex s) /\ refOk stackKind d (Sample_StackIndex s).
Definition sampleMeaning (d : Dict) (s : Sample) :=
  (map (indexMeaning attributeKind d) (Sample_AttributeIndices s), refMeaning linkKind d (Sample_LinkIndex s), refMeaning stackKind d (Sample_StackIndex s),
   Sample_Values s, Sample_TimestampsUnixNano s).

Definition profileClosed (d : Dict) (p : Profile) : Prop :=
  Forall (indexOk attributeKind d) (Profile_AttributeIndices p) /\ Forall (sampleClosed d) (Profile_Samples p) /\
  valueTypeClosed d (Profile_PeriodType p) /\ valueTypeClosed d (Profile_SampleType p).
Definition profileMeaning (d : Dict) (p : Profile) :=
  (map (indexMeaning attributeKind d) (Profile_AttributeIndices p), map (sampleMeaning d) (Profile_Samples p),
   valueTypeMeaning d (Profile_PeriodType p), valueTypeMeaning d (Profile_SampleType p),
   (Profile_OriginalPayloadFormat p, Profile_OriginalPayload p, Profile_TimeUnixNano p, Profile_DurationNano p, Profile_Period p,
    Profile_DroppedAttributesCount p, Profile_ProfileId p)).

Definition scopeClosed (d : Dict) (s : ScopeProfiles) : Prop := Forall (profileClosed d) (ScopeProfiles_Profiles s).
Definition scopeMeaning (d : Dict) (s : ScopeProfiles) := (ScopeProfiles_Scope s, ScopeProfiles_SchemaUrl s, map (profileMeaning d) (ScopeProfiles_Profiles s)).

Definition resourceClosed (d : Dict) (r : ResourceProfiles) : Prop := Forall (scopeClosed d) (ResourceProfiles_ScopeProfiles r).
Definition resourceMeaning (d : Dict) (r : ResourceProfiles) :=
  (ResourceProfiles_Resource r, ResourceProfiles_SchemaUrl r, map (scopeMeaning d) (ResourceProfiles_ScopeProfiles r)).

Definition profilesMeaning (pd : ExportProfilesServiceRequest) :=
  map (resourceMeaning (ExportProfilesServiceRequest_Dictionary pd)) (ExportProfilesServiceRequest_ResourceProfiles pd).

(** ** Dictionaries *)

(** Every entry is closed. *)
Record dictClosed (d : Dict) : Prop := {
  dc_attributes : Forall (attributeClosed d) (attributes d);
  dc_functions : Forall (functionClosed d) (functions d);
  dc_mappings : Forall (mappingClosed d) (mappings d);
  dc_locations : Forall (locationClosed d) (locations d);
  dc_stacks : Forall (stackClosed d) (stacks d);
}.

(** Index 0 is the entry that stands for none. *)
Definition grounded {A M} (k : kind A M) (d : Dict) : Prop := head (k_table k d) = Some (k_none k).

Record dictGrounded (d : Dict) : Prop := {
  dg_strings : grounded stringKind d;
  dg_functions : grounded functionKind d;
  dg_mappings : grounded mappingKind d;
  dg_stacks : grounded stackKind d;
  dg_links : grounded linkKind d;
}.

Definition profilesClosed (pd : ExportProfilesServiceRequest) : Prop :=
  dictClosed (ExportProfilesServiceRequest_Dictionary pd) /\
  Forall (resourceClosed (ExportProfilesServiceRequest_Dictionary pd)) (ExportProfilesServiceRequest_ResourceProfiles pd).

(** ** The number of references of a message *)
Definition mappingRefs (m : Mapping) : Z := 1 + len (Mapping_AttributeIndices m).
Definition locationRefs (l : Location) : Z := 1 + len (Location_AttributeIndices l) + len (Location_Lines l).
Definition sampleRefs (s : Sample) : Z := len (Sample_AttributeIndices s) + 2.
Definition profileRefs (p : Profile) : Z := len (Profile_AttributeIndices p) + sumZ sampleRefs (Profile_Samples p) + 4.
Definition scopeRefs (s : ScopeProfiles) : Z := sumZ profileRefs (ScopeProfiles_Profiles s).
Definition resourceRefs (r : ResourceProfiles) : Z := sumZ scopeRefs (ResourceProfiles_ScopeProfiles r).
Definition dictRefs (d : Dict) : Z :=
  2 * len (attributes d) + 3 * len (functions d) + sumZ mappingRefs (mappings d) + sumZ locationRefs (locations d) +
  sumZ (fun s => len (Stack_LocationIndices s)) (stacks d).
Definition profilesRefs (pd : ExportProfilesServiceRequest) : Z :=
  dictRefs (ExportProfilesServiceRequest_Dictionary pd) + sumZ resourceRefs (ExportProfilesServiceRequest_ResourceProfiles pd).

(** There is room for [n] more entries in every table. *)
Record room (d : Dict) (n : Z) : Prop := {
  rm_strings : len (strings d) + n <= MaxInt32;
  rm_functions : len (functions d) + n <= MaxInt32;
  rm_mappings : len (mappings d) + n <= MaxInt32;
  rm_locations : len (locations d) + n <= MaxInt32;
  rm_stacks : len (stacks d) + n <= MaxInt32;
  rm_attributes : len (attributes d) + n <= MaxInt32;
  rm_links : len (links d) + n <= MaxInt32;
}.
End Meaning.
