(* ===== verification/ProfilesMerge.v ===== *)
(** * Merging profiles keeps their meaning

    Dictionaries only grow while entries are set in them, which changes the meaning of
    nothing that is closed.  Each [switchDictionary] succeeds exactly on closed messages
    and gives a message of the same meaning in the destination. *)

From stdpp Require Import gmap.
From S2P Require Import Prelude RecordUpdate Errors Sizers ProtoWire ProtoWireProofs ProtoFields ProtoCommon PcommonValue PcommonMap ProtoMessage ProtoKinds ProtoIds ProtoResource ProtoProfiles ProtoExport ProfilesDict ProfilesIndex ProfilesMeaning.
Local Open Scope Z_scope.
Local Open Scope otel_scope.

Local Abbreviation Dict := ProfilesDictionary.
Local Abbreviation strings := ProfilesDictionary_StringTable.
Local Abbreviation functions := ProfilesDictionary_FunctionTable.
Local Abbreviation mappings := ProfilesDictionary_MappingTable.
Local Abbreviation locations := ProfilesDictionary_LocationTable.
Local Abbreviation stacks := ProfilesDictionary_StackTable.
Local Abbreviation attributes := ProfilesDictionary_AttributeTable.
Local Abbreviation links := ProfilesDictionary_LinkTable.

(** ** Growing dictionaries *)
Record ext (d d' : Dict) : Prop := {
  ex_strings : strings d `prefix_of` strings d';
  ex_functions : functions d `prefix_of` functions d';
  ex_mappings : mappings d `prefix_of` mappings d';
  ex_locations : locations d `prefix_of` locations d';
  ex_stacks : stacks d `prefix_of` stacks d';
  ex_attributes : attributes d `prefix_of` attributes d';
  ex_links : links d `prefix_of` links d';
}.

#[export] Instance ext_refl : Reflexive ext.
Proof. intros d. by constructor. Qed.

#[export] Instance ext_trans : Transitive ext.
Proof. intros d1 d2 d3 [] []. constructor; by etransitivity. Qed.

Lemma nth_prefix {A} (l l' : list A) i x : l `prefix_of` l' -> 0 <= i < len l -> nth (Z.to_nat i) l' x = nth (Z.to_nat i) l x.
Proof. intros [k ->] Hi. apply app_nth1. unfold len in Hi. lia. Qed.

Lemma len_prefix {A} (l l' : list A) : l `prefix_of` l' -> len l <= len l'.
Proof. intros [k ->]. rewrite len_app. pose proof (len_nonneg k). lia. Qed.

(** ** What the kinds have in common *)
Record kindLaws {A M} (k : kind A M) (entries : Dict -> Prop) : Prop := {
  kl_prefix d d' : ext d d' -> k_table k d `prefix_of` k_table k d';
  kl_closed d d' x : ext d d' -> k_closed k d x -> k_closed k d' x;
  kl_meaning d d' x : entries d -> ext d d' -> k_closed k d x -> k_meaning k d' x = k_meaning k d x;
  kl_entries d : entries d -> Forall (k_closed k d) (k_table k d);
  kl_none_closed d : k_closed k d (k_none k);
  kl_none d d' : k_meaning k d (k_none k) = k_meaning k d' (k_none k);
}.

Section Laws.
Context {A M : Type} (k : kind A M) {entries : Dict -> Prop} (L : kindLaws k entries).

Lemma refOk_ext d d' i : ext d d' -> refOk k d i -> refOk k d' i.
Proof. intros He%(kl_prefix _ _ L)%len_prefix [Hi|Hi]; [by left|right; lia]. Qed.

Lemma indexOk_ext d d' i : ext d d' -> indexOk k d i -> indexOk k d' i.
Proof. intros He%(kl_prefix _ _ L)%len_prefix Hi. unfold indexOk in *. lia. Qed.

Lemma entry_closed d i : entries d -> k_closed k d (nth (Z.to_nat i) (k_table k d) (k_none k)).
Proof.
  intros Hd. destruct (nth_in_or_default (Z.to_nat i) (k_table k d) (k_none k)) as [Hin| ->]; [|apply (kl_none_closed _ _ L)].
  pose proof (kl_entries _ _ L d Hd) as HF. rewrite Forall_forall in HF. apply HF. by apply list_elem_of_In.
Qed.

Lemma indexMeaning_ext d d' i : entries d -> ext d d' -> indexOk k d i -> indexMeaning k d' i = indexMeaning k d i.
Proof.
  intros Hd He Hi. unfold indexMeaning. rewrite (nth_prefix _ _ _ _ (kl_prefix _ _ L _ _ He)) by done.
  apply (kl_meaning _ _ L); [done..|]. by apply entry_closed.
Qed.

Lemma refMeaning_ext d d' i : entries d -> ext d d' -> refOk k d i -> refMeaning k d' i = refMeaning k d i.
Proof.
  intros Hd He Hi. unfold refMeaning. destruct (Z.leb_spec i 0) as [Hz|Hz]; [apply (kl_none _ _ L)|].
  apply indexMeaning_ext; [done..|]. destruct Hi; [lia|]. split; lia.
Qed.

Lemma map_indexMeaning_ext d d' l : entries d -> ext d d' -> Forall (indexOk k d) l -> map (indexMeaning k d') l = map (indexMeaning k d) l.
Proof. intros Hd He HF. apply map_ext_Forall. eapply Forall_impl; [exact HF|]. intros i Hi. by apply indexMeaning_ext. Qed.
End Laws.

Lemma stringLaws : kindLaws stringKind (fun _ => True).
Proof. split; try done; [intros d d' He; apply He|]. intros d _. by apply Forall_true. Qed.

Lemma linkLaws : kindLaws linkKind (fun _ => True).
Proof. split; try done; [intros d d' He; apply He|]. intros d _. by apply Forall_true. Qed.

Section Kinds.
Context {V : Type} (obs : AnyValue -> V).

Lemma none_refOk {A M} (k : kind A M) d : refOk k d 0.
Proof. left. lia. Qed.

Lemma attributeLaws : kindLaws (attributeKind obs) (fun d => Forall (attributeClosed d) (attributes d)).
Proof.
  split; cbn.
  - intros d d' He. apply He.
  - intros d d' a He (Hm & Hk & Hu). split; [done|]. split; by eapply (refOk_ext _ stringLaws).
  - intros d d' a _ He (Hm & Hk & Hu). unfold attributeMeaning. by rewrite !(refMeaning_ext _ stringLaws d d').
  - done.
  - intros d. split; [done|]. split; apply none_refOk.
  - done.
Qed.

Lemma functionLaws : kindLaws functionKind (fun d => Forall (functionClosed d) (functions d)).
Proof.
  split; cbn.
  - intros d d' He. apply He.
  - intros d d' a He (Hn & Hs & Hf). split_and!; by eapply (refOk_ext _ stringLaws).
  - intros d d' a _ He (Hn & Hs & Hf). unfold functionMeaning. by rewrite !(refMeaning_ext _ stringLaws d d').
  - done.
  - intros d. split_and!; apply none_refOk.
  - done.
Qed.

Lemma indices_ext {A M} (k : kind A M) {entries} (L : kindLaws k entries) d d' l : ext d d' -> Forall (indexOk k d) l -> Forall (indexOk k d') l.
Proof. intros He HF. eapply Forall_impl; [exact HF|]. intros i. by apply (indexOk_ext k L). Qed.

Lemma mappingLaws : kindLaws (mappingKind obs) (fun d => Forall (attributeClosed d) (attributes d) /\ Forall (mappingClosed obs d) (mappings d)).
Proof.
  split; cbn.
  - intros d d' He. apply He.
  - intros d d' a He (Hf & Ha). split; [by eapply (refOk_ext _ stringLaws)|by apply (indices_ext _ attributeLaws d)].
  - intros d d' a [Hd _] He (Hf & Ha). unfold mappingMeaning. by rewrite (refMeaning_ext _ stringLaws d d'), (map_indexMeaning_ext _ attributeLaws d d').
  - intros d [_ Hd]. done.
  - intros d. split; [apply none_refOk|constructor].
  - done.
Qed.

Lemma lineClosed_ext d d' l : ext d d' -> lineClosed d l -> lineClosed d' l.
Proof. apply (refOk_ext _ functionLaws). Qed.

Lemma lineMeaning_ext d d' l : Forall (functionClosed d) (functions d) -> ext d d' -> lineClosed d l -> lineMeaning d' l = lineMeaning d l.
Proof. intros Hd He Hl. unfold lineMeaning. by rewrite (refMeaning_ext _ functionLaws d d'). Qed.

Lemma map_meaning_ext {A M} (m : Dict -> A -> M) (closed : A -> Prop) d d' l : (forall x, closed x -> m d' x = m d x) -> Forall closed l -> map (m d') l = map (m d) l.
Proof. intros Hm HF. apply map_ext_Forall. by eapply Forall_impl. Qed.

Lemma locationLaws : kindLaws (locationKind obs)
  (fun d => Forall (attributeClosed d) (attributes d) /\ Forall (functionClosed d) (functions d) /\ Forall (mappingClosed obs d) (mappings d) /\
            Forall (locationClosed obs d) (locations d)).
Proof.
  split; cbn.
  - intros d d' He. apply He.
  - intros d d' a He (Hm & Ha & Hl). split; [by eapply (refOk_ext _ mappingLaws)|]. split; [by apply (indices_ext _ attributeLaws d)|].
    eapply Forall_impl; [exact Hl|]. intros x. by apply lineClosed_ext.
  - intros d d' a (Hda & Hdf & Hdm & _) He (Hm & Ha & Hl). unfold locationMeaning.
    rewrite (refMeaning_ext _ mappingLaws d d'), (map_indexMeaning_ext _ attributeLaws d d') by done. f_equal.
    eapply (map_meaning_ext lineMeaning); [|exact Hl]. intros x. by apply lineMeaning_ext.
  - intros d (_ & _ & _ & Hd). done.
  - intros d. split; [apply none_refOk|]. split; constructor.
  - done.
Qed.

Lemma stackLaws : kindLaws (stackKind obs) (dictClosed obs).
Proof.
  split; cbn.
  - intros d d' He. apply He.
  - intros d d' a He Ha. by apply (indices_ext _ locationLaws d).
  - intros d d' a [] He Ha. by apply (map_indexMeaning_ext _ locationLaws d d').
  - intros d []. done.
  - constructor.
  - done.
Qed.

Lemma entries_mapping d : dictClosed obs d -> Forall (attributeClosed d) (attributes d) /\ Forall (mappingClosed obs d) (mappings d).
Proof. by intros []. Qed.

Lemma entries_location d : dictClosed obs d -> Forall (attributeClosed d) (attributes d) /\ Forall (functionClosed d) (functions d) /\
  Forall (mappingClosed obs d) (mappings d) /\ Forall (locationClosed obs d) (locations d).
Proof. by intros []. Qed.

(** Messages outside of the tables. *)
Lemma valueType_ext d d' v : ext d d' -> valueTypeClosed d v -> valueTypeClosed d' v /\ valueTypeMeaning d' v = valueTypeMeaning d v.
Proof.
  intros He [Ht Hu]. split; [split; by eapply (refOk_ext _ stringLaws)|]. unfold valueTypeMeaning. by rewrite !(refMeaning_ext _ stringLaws d d').
Qed.

Lemma sample_ext d d' s : dictClosed obs d -> ext d d' -> sampleClosed obs d s -> sampleClosed obs d' s /\ sampleMeaning obs d' s = sampleMeaning obs d s.
Proof.
  intros Hd He (Ha & Hl & Hs). split.
  - split; [by apply (indices_ext _ attributeLaws d)|]. split; [by apply (refOk_ext _ linkLaws d)|by apply (refOk_ext _ stackLaws d)].
  - unfold sampleMeaning. by rewrite (map_indexMeaning_ext _ attributeLaws d d'), (refMeaning_ext _ linkLaws d d'), (refMeaning_ext _ stackLaws d d') by (done || apply Hd).
Qed.

Lemma all_ext {A M} (closed : Dict -> A -> Prop) (m : Dict -> A -> M) d d' l : (forall x, closed d x -> closed d' x /\ m d' x = m d x) ->
  Forall (closed d) l -> Forall (closed d') l /\ map (m d') l = map (m d) l.
Proof. intros Hm. induction 1 as [|x l Hx _ [IH1 IH2]]; [done|]. destruct (Hm x Hx) as [Hc E]. split; [by constructor|]. cbn. by rewrite E, IH2. Qed.

Lemma profile_ext d d' p : dictClosed obs d -> ext d d' -> profileClosed obs d p -> profileClosed obs d' p /\ profileMeaning obs d' p = profileMeaning obs d p.
Proof.
  intros Hd He (Ha & Hs & Hp & Ht). destruct (all_ext (sampleClosed obs) (sampleMeaning obs) d d' (Profile_Samples p)) as [Hs' Es]; [intros s; by apply sample_ext|done|].
  destruct (valueType_ext d d' _ He Hp) as [Hp' Ep], (valueType_ext d d' _ He Ht) as [Ht' Et]. split.
  - split; [by apply (indices_ext _ attributeLaws d)|done].
  - unfold profileMeaning. by rewrite Es, Ep, Et, (map_indexMeaning_ext _ attributeLaws d d') by (done || apply Hd).
Qed.

Lemma scope_ext d d' s : dictClosed obs d -> ext d d' -> scopeClosed obs d s -> scopeClosed obs d' s /\ scopeMeaning obs d' s = scopeMeaning obs d s.
Proof.
  intros Hd He Hs. unfold scopeClosed, scopeMeaning in *. destruct (all_ext (profileClosed obs) (profileMeaning obs) d d' (ScopeProfiles_Profiles s)) as [Hs' Es];
    [intros x; by apply profile_ext|done|]. by rewrite Es.
Qed.

Lemma resource_ext d d' r : dictClosed obs d -> ext d d' -> resourceClosed obs d r -> resourceClosed obs d' r /\ resourceMeaning obs d' r = resourceMeaning obs d r.
Proof.
  intros Hd He Hs. unfold resourceClosed, resourceMeaning in *. destruct (all_ext (scopeClosed obs) (scopeMeaning obs) d d' (ResourceProfiles_ScopeProfiles r)) as [Hs' Es];
    [intros x; by apply scope_ext|done|]. by rewrite Es.
Qed.
End Kinds.

(** ** Setting an entry *)
Lemma scan_entry {A} (Equal : A -> A -> res bool) table x i0 dflt : Forall (fun y => exists b, Equal y x = Ok b) table ->
  match scan Equal i0 table x with
  | Ok (Some j) => i0 <= j < i0 + len table /\ Equal (nth (Z.to_nat (j - i0)) table dflt) x = Ok true
  | Ok None => True
  | _ => False
  end.
Proof.
  intros HF. revert i0. induction HF as [|y table [b Hb] _ IH]; intros i0; cbn; [done|]. rewrite Hb. cbn. unfold len. cbn [length]. destruct b.
  - rewrite Z.sub_diag. split; [lia|done].
  - specialize (IH (i0 + 1)). destruct (scan _ _ _ _) as [[j|]| | |]; [|done..]. unfold len in IH. destruct IH as [Hj Hy]. split; [lia|].
    replace (Z.to_nat (j - i0)) with (S (Z.to_nat (j - (i0 + 1)))) by lia. done.
Qed.

Lemma SetEntry_entry {A} (Equal : A -> A -> res bool) e table x dflt : Forall (fun y => exists b, Equal y x = Ok b) table -> len table < MaxInt32 ->
  exists i t, SetEntry Equal e table x = Ok (i, t) /\ (t = table \/ t = table ++ [x]) /\ 0 <= i < len t /\
    (nth (Z.to_nat i) t dflt = x \/ Equal (nth (Z.to_nat i) t dflt) x = Ok true).
Proof.
  intros HF Hl. pose proof (scan_entry Equal table x 0 dflt HF) as Hs. unfold SetEntry. destruct (scan Equal 0 table x) as [[j|]| | |]; [| |contradiction..]; cbn.
  - destruct Hs as [Hj Hy]. destruct (Z.ltb_spec MaxInt32 j); [lia|]. rewrite i32_id by (unfold is_i32, MaxInt32 in *; lia). rewrite Z.sub_0_r in Hy.
    exists j, table. split; [done|]. split; [by left|]. split; [lia|by right].
  - destruct (Z.leb_spec MaxInt32 (len table)); [lia|]. rewrite len_app. change (len [x]) with 1. replace (len table + 1 - 1) with (len table) by lia.
    pose proof (len_nonneg table). rewrite i32_id by (unfold is_i32, MaxInt32 in *; lia). eexists _, _. split; [done|]. split; [by right|]. rewrite len_app.
    change (len [x]) with 1. split; [lia|left]. unfold len. rewrite Nat2Z.id, app_nth2, Nat.sub_diag by lia. done.
Qed.

Lemma pure_total {A} (equal : A -> A -> bool) x table : Forall (fun y => exists b, pure equal y x = Ok b) table.
Proof. apply Forall_forall. intros y _. eexists. reflexivity. Qed.

Section Good.
Context {V : Type} (obs : AnyValue -> V).
Context (obs_Equal : forall a b, wellMade a -> wellMade b -> Value_Equal a b = Ok true -> obs a = obs b).

Definition good (d : Dict) : Prop := dictClosed obs d /\ dictGrounded obs d.

Lemma grounded_ext {A M} (k : kind A M) d d' : k_table k d `prefix_of` k_table k d' -> grounded k d -> grounded k d'.
Proof. unfold grounded. intros [l ->]. by destruct (k_table k d). Qed.

Lemma dictGrounded_ext d d' : ext d d' -> dictGrounded obs d -> dictGrounded obs d'.
Proof. intros [] []. constructor; by eapply grounded_ext. Qed.

Lemma old_entries d d' : ext d d' -> dictClosed obs d ->
  Forall (attributeClosed d') (attributes d) /\ Forall (functionClosed d') (functions d) /\ Forall (mappingClosed obs d') (mappings d) /\
  Forall (locationClosed obs d') (locations d) /\ Forall (stackClosed obs d') (stacks d).
Proof.
  intros He []. split_and!; (eapply Forall_impl; [eassumption|]); intros x.
  - by apply (kl_closed _ _ (attributeLaws obs)).
  - by apply (kl_closed _ _ functionLaws).
  - by apply (kl_closed _ _ (mappingLaws obs)).
  - by apply (kl_closed _ _ (locationLaws obs)).
  - by apply (kl_closed _ _ (stackLaws obs)).
Qed.

(** The law of [internFunction] and the others. *)
Definition internLaw {A M} (k : kind A M) (intern : Dict -> A -> res (Z * Dict)) : Prop := forall d n x,
  0 <= n -> good d -> room d (1 + n) -> k_closed k d x ->
  exists i d', intern d x = Ok (i, d') /\ good d' /\ room d' n /\ ext d d' /\ indexOk k d' i /\ indexMeaning k d' i = k_meaning k d' x.

Lemma prefix_grow {A} (table t : list A) x : t = table \/ t = table ++ [x] -> table `prefix_of` t /\ len t <= len table + 1.
Proof. intros [->| ->]; [split; [done|lia]|]. split; [by eexists|]. rewrite len_app. done. Qed.

Lemma Forall_grow {A} (P : A -> Prop) table t x : t = table \/ t = table ++ [x] -> Forall P table -> P x -> Forall P t.
Proof. intros [->| ->] HF Hx; [done|]. apply Forall_app. split; [done|]. by apply Forall_singleton. Qed.

(** Setting an entry in one table. *)
Ltac interned law :=
  let d' := fresh "d'" in let Hext := fresh "Hext" in let Hold := fresh "Hold" in
  match goal with Hs : SetEntry _ _ _ ?x = Ok (?i, ?t), Ht : ?t = _ \/ _, Hc : dictClosed _ ?d, Hg : dictGrounded _ ?d, Hroom : room ?d _, Hx : _ ?d ?x |- _ =>
    rewrite Hs; cbn;
    match goal with |- exists _ _, Ok (_, ?e) = _ /\ _ =>
      destruct (prefix_grow _ _ _ Ht) as [?Hpre ?Hlen];
      assert (Hext : ext d e) by (constructor; cbn; done);
      pose proof (old_entries d e Hext Hc) as (? & ? & ? & ? & ?);
      pose proof (kl_closed _ _ law _ _ _ Hext Hx : k_closed _ _ _);
      exists i, e; split; [reflexivity|]; split; [split; [constructor; cbn; try done; by eapply Forall_grow|by eapply dictGrounded_ext]|];
      split; [destruct Hroom; constructor; cbn; lia|]; split; [exact Hext|]
    end
  end.

Lemma internString_law : internLaw stringKind (internString (S := Dict)).
Proof.
  intros d n x Hn [Hc Hg] Hroom Hx. pose proof (rm_strings _ _ Hroom). cbn. unfold SetString.
  destruct (SetEntry_entry (pure (fun a b : list Z => bool_decide (a = b))) errTooManyStringTableEntries (strings d) x [] (pure_total _ _ _)) as (i & t & Hs & Ht & Hi & Hy); [lia|].
  interned stringLaws. split; [done|]. unfold indexMeaning. cbn. destruct Hy as [Hy|Hy]; [done|]. injection Hy as Hy%bool_decide_eq_true. done.
Qed.

Ltac intern_pure Set_ Equal err table zero law equal_eq :=
  let d := fresh "d" in let n := fresh "n" in let x := fresh "x" in let Hn := fresh "Hn" in let Hroom := fresh "Hroom" in let Hx := fresh "Hx" in
  let Hy := fresh "Hy" in let Hl := fresh "Hl" in
  intros d n x Hn [?Hc ?Hg] Hroom Hx; assert (Hl : len (table d) < MaxInt32) by (destruct Hroom; lia); cbn; unfold Set_;
  destruct (SetEntry_entry (pure Equal) err (table d) x zero (pure_total _ _ _) Hl) as (?i & ?t & ?Hs & ?Ht & ?Hi & Hy);
  interned law; split; [done|]; unfold indexMeaning; cbn;
  (destruct Hy as [Hy|Hy]; [|injection Hy as Hy; apply equal_eq in Hy]); by rewrite Hy.

Lemma internLink_law : internLaw linkKind (internLink (S := Dict)).
Proof. intern_pure SetLink Link_Equal errTooManyLinkTableEntries links Link_zero linkLaws Link_Equal_eq. Qed.

Lemma internFunction_law : internLaw functionKind (internFunction (S := Dict)).
Proof. intern_pure SetFunction Function_Equal errTooManyFunctionTableEntries functions Function_zero functionLaws Function_Equal_eq. Qed.

Lemma internMapping_law : internLaw (mappingKind obs) (internMapping (S := Dict)).
Proof. intern_pure SetMapping Mapping_Equal errTooManyMappingTableEntries mappings Mapping_zero (mappingLaws obs) Mapping_Equal_eq. Qed.

Lemma internLocation_law : internLaw (locationKind obs) (internLocation (S := Dict)).
Proof. intern_pure SetLocation Location_Equal errTooManyLocationTableEntries locations Location_zero (locationLaws obs) Location_Equal_eq. Qed.

Lemma internStack_law : internLaw (stackKind obs) (internStack (S := Dict)).
Proof. intern_pure SetStack Stack_Equal errTooManyStackTableEntries stacks Stack_zero (stackLaws obs) Stack_Equal_eq. Qed.

Lemma internAttribute_law : internLaw (attributeKind obs) (internAttribute (S := Dict)).
Proof.
  intros d n x Hn [Hc Hg] Hroom Hx. assert (Hl : len (attributes d) < MaxInt32) by (destruct Hroom; lia). cbn. unfold SetAttribute.
  destruct (SetEntry_entry KeyValueAndUnit_Equal errTooManyAttributeTableEntries (attributes d) x KeyValueAndUnit_zero) as (i & t & Hs & Ht & Hi & Hy); [|done|].
  { eapply Forall_impl; [apply Hc|]. intros y [Hy _]. unfold KeyValueAndUnit_Equal. destruct (_ && _); [|eauto]. apply Value_Equal_total; [done|apply Hx]. }
  interned (attributeLaws obs). split; [done|]. unfold indexMeaning. cbn. destruct Hy as [Hy|Hy]; [by rewrite Hy|].
  assert (Hmade : attrMade (nth (Z.to_nat i) t KeyValueAndUnit_zero)).
  { destruct (nth_in_or_default (Z.to_nat i) t KeyValueAndUnit_zero) as [Hin| ->]; [|done].
    assert (HF : Forall attrMade t) by (eapply Forall_grow; [exact Ht|eapply Forall_impl; [apply Hc|by intros ? []]|apply Hx]).
    rewrite Forall_forall in HF. apply HF. by apply list_elem_of_In. }
  unfold KeyValueAndUnit_Equal in Hy. destruct (_ && _) eqn:E; [|done]. apply andb_true_iff in E as [E1%Z.eqb_eq E2%Z.eqb_eq].
  unfold attributeMeaning. by rewrite E1, E2, (obs_Equal _ _ Hmade (proj1 Hx) Hy).
Qed.

(** ** Switching references *)

(** A computation on the destination, with as many references as [c]: it succeeds exactly
    when [P] holds, and then has made the dictionary grow and given what [Q] says. *)
Definition Runs {A} (c : Z) (P : Prop) (Q : A -> Dict -> Prop) (f : Dict -> res (A * Dict)) (d : Dict) : Prop := forall n,
  0 <= n -> good d -> room d (c + n) ->
  match f d with Ok (a, d') => P /\ good d' /\ room d' n /\ ext d d' /\ Q a d' | Err _ => ~ P | _ => False end.

Lemma runs_ret {A} (Q : A -> Dict -> Prop) a d : (good d -> Q a d) -> Runs 0 True Q (fun d => Ok (a, d)) d.
Proof. intros HQ n Hn Hg Hr. cbn. split; [done|]. split; [done|]. split; [done|]. split; [reflexivity|]. by apply HQ. Qed.

Lemma runs_bind {A B} c1 c2 (P1 P2 : Prop) (Q1 : A -> Dict -> Prop) (Q2 : B -> Dict -> Prop) f g d :
  0 <= c2 -> Runs c1 P1 Q1 f d -> (forall a d', good d' -> ext d d' -> Q1 a d' -> Runs c2 P2 Q2 (g a) d') ->
  Runs (c1 + c2) (P1 /\ P2) Q2 (fun d => let* (a, d) := f d in g a d) d.
Proof.
  intros Hc Hf Hg n Hn Hd Hr. specialize (Hf (c2 + n)). rewrite <- Z.add_assoc in Hr. specialize (Hf ltac:(lia) Hd Hr).
  destruct (f d) as [[a d1]| | |]; cbn; [|tauto|done..]. destruct Hf as (HP1 & Hd1 & Hr1 & He1 & HQ1).
  specialize (Hg a d1 Hd1 He1 HQ1 n Hn Hd1 Hr1). destruct (g a d1) as [[b d2]| | |]; [|tauto|done..].
  destruct Hg as (HP2 & Hd2 & Hr2 & He2 & HQ2). split_and!; try done. by etransitivity.
Qed.

Lemma runs_step {A B} c1 c2 c (P1 P2 : Prop) (Q1 : A -> Dict -> Prop) (Q2 : B -> Dict -> Prop) f g d :
  c = c1 + c2 -> 0 <= c2 -> Runs c1 P1 Q1 f d -> (forall a d', good d' -> ext d d' -> Q1 a d' -> Runs c2 P2 Q2 (g a) d') ->
  Runs c (P1 /\ P2) Q2 (fun d => let* (a, d) := f d in g a d) d.
Proof. intros ->. apply runs_bind. Qed.

Lemma runs_wrap {A} c P (Q : A -> Dict -> Prop) fmt args f d : Runs c P Q f d -> Runs c P Q (fun d => wrap fmt args (f d)) d.
Proof. intros Hf n Hn Hd Hr. specialize (Hf n Hn Hd Hr). by destruct (f d) as [[]| | |]. Qed.

Lemma runs_weaken {A} c c' (P P' : Prop) (Q Q' : A -> Dict -> Prop) f d :
  Runs c P Q f d -> c = c' -> (P <-> P') -> (forall a d', good d' -> ext d d' -> Q a d' -> Q' a d') -> Runs c' P' Q' f d.
Proof.
  intros Hf <- HP HQ n Hn Hd Hr. specialize (Hf n Hn Hd Hr). destruct (f d) as [[a d']| | |]; [|tauto|done..].
  destruct Hf as (? & ? & ? & ? & ?). split_and!; try tauto; try done. by apply HQ.
Qed.

(** What an entry, a reference or an index of the source has become in the destination. *)
Definition entryTo {A M} (k : kind A M) (src : Dict) (d : Dict) (x' x : A) : Prop := k_closed k d x' /\ k_meaning k d x' = k_meaning k src x.
Definition refTo {A M} (k : kind A M) (src : Dict) (d : Dict) (i' i : Z) : Prop := refOk k d i' /\ refMeaning k d i' = refMeaning k src i.
Definition indexTo {A M} (k : kind A M) (src : Dict) (d : Dict) (i' i : Z) : Prop := indexOk k d i' /\ indexMeaning k d i' = indexMeaning k src i.

(** Facts that stay true while the destination grows. *)
Definition stable (R : Dict -> Prop) : Prop := forall d d', good d -> ext d d' -> R d -> R d'.

Lemma Forall2_stable {A B} (R : Dict -> A -> B -> Prop) l1 l2 : (forall x y, stable (fun d => R d x y)) -> stable (fun d => Forall2 (R d) l1 l2).
Proof. intros HR d d' Hd He HF. eapply Forall2_impl; [exact HF|]. intros x y. by apply HR. Qed.

Section Refs.
Context {A M : Type} (k : kind A M) {entries : Dict -> Prop} (L : kindLaws k entries) (Hent : forall d, dictClosed obs d -> entries d).
Context (intern : Dict -> A -> res (Z * Dict)) (Hint : internLaw k intern) (src : Dict).

Lemma entryTo_stable x' x : stable (fun d => entryTo k src d x' x).
Proof.
  intros d d' [Hd _] He [Hc Hm]. split; [by eapply (kl_closed _ _ L)|]. rewrite <- Hm. apply (kl_meaning _ _ L); [by apply Hent|done..].
Qed.

Lemma refTo_stable i' i : stable (fun d => refTo k src d i' i).
Proof. intros d d' [Hd _] He [Hc Hm]. split; [by eapply (refOk_ext _ L)|]. rewrite <- Hm. apply (refMeaning_ext _ L); [by apply Hent|done..]. Qed.

Lemma indexTo_stable i' i : stable (fun d => indexTo k src d i' i).
Proof. intros d d' [Hd _] He [Hc Hm]. split; [by eapply (indexOk_ext _ L)|]. rewrite <- Hm. apply (indexMeaning_ext _ L); [by apply Hent|done..]. Qed.

(** Setting an entry of the source. *)
Lemma intern_runs table i d : Forall2 (entryTo k src d) table (k_table k src) -> indexOk k src i ->
  exists x, at_ table i = Ok x /\ Runs 1 True (fun i' d' => indexTo k src d' i' i) (fun d => intern d x) d.
Proof.
  intros HT Hi. assert (Hl : length table = length (k_table k src)) by (by eapply Forall2_length). unfold indexOk, len in Hi.
  destruct (lookup_lt_is_Some_2 table (Z.to_nat i)) as [x Hx]; [lia|]. destruct (Forall2_lookup_l _ _ _ _ _ HT Hx) as (y & Hy & Hc & Hm).
  exists x. unfold at_. destruct (Z.ltb_spec i 0); [lia|]. rewrite Hx. split; [done|]. intros n Hn Hd Hr.
  destruct (Hint d n x Hn Hd Hr Hc) as (i' & d' & -> & Hd' & Hr' & He & Hi' & Hm'). do 4 (split; [done|]). split; [exact Hi'|].
  rewrite Hm', (kl_meaning _ _ L d d') by (done || apply Hent, Hd). unfold indexMeaning. by rewrite Hm, (nth_lookup_Some _ _ _ _ Hy).
Qed.

Lemma switchRef_runs what table i d : (forall d, good d -> grounded k d) -> Forall2 (entryTo k src d) table (k_table k src) ->
  Runs 1 (refOk k src i) (fun i' d' => refTo k src d' i' i) (switchRef what intern table i) d.
Proof.
  intros Hgr HT. assert (Hl : len table = len (k_table k src)) by (unfold len; f_equal; by eapply Forall2_length). unfold switchRef.
  destruct (Z.ltb_spec 0 i) as [Hi|Hi].
  - destruct (Z.leb_spec (len table) i) as [Ho|Ho].
    + intros n _ _ _. intros [?|?]; lia.
    + destruct (intern_runs table i d HT) as (x & -> & Hx); [split; lia|]. cbn. apply runs_wrap. eapply runs_weaken; [exact Hx|done| |].
      * split; [intros _; right; lia|done].
      * intros i' d' Hd' _ [Hi' Hm]. split; [right; apply Hi'|]. unfold refMeaning. destruct (Z.leb_spec i 0); [lia|]. fold (indexMeaning k src i). rewrite <- Hm.
        destruct (Z.leb_spec i' 0); [|done]. assert (i' = 0) as -> by (unfold indexOk in Hi'; lia). unfold indexMeaning. specialize (Hgr d' Hd'). unfold grounded in Hgr.
        destruct (k_table k d'); [done|]. injection Hgr as ->. done.
  - intros n Hn Hd Hr. split; [by left|]. split; [done|]. split; [destruct Hr; constructor; lia|]. split; [reflexivity|]. split; [by left|]. unfold refMeaning.
    destruct (Z.leb_spec i 0); [|lia]. apply (kl_none _ _ L).
Qed.

Lemma switchRefs_runs what table j vs d : good d -> Forall2 (entryTo k src d) table (k_table k src) ->
  Runs (len vs) (Forall (indexOk k src) vs) (fun vs' d' => Forall2 (indexTo k src d') vs' vs) (switchRefs what intern table j vs) d.
Proof.
  revert j d. induction vs as [|v vs IH]; intros j d Hd HT.
  - eapply runs_weaken; [apply (runs_ret (fun vs' d' => Forall2 (indexTo k src d') vs' []) [])|done|done|done]. by constructor.
  - assert (Hl : len table = len (k_table k src)) by (unfold len; f_equal; by eapply Forall2_length). cbn [switchRefs].
    destruct ((v <? 0) || (len table <=? v)) eqn:E.
    + intros n _ _ _. cbn. intros [Hv _]%Forall_cons. unfold indexOk in Hv. apply orb_true_iff in E as [E|E]; zbool; lia.
    + apply orb_false_iff in E as [E1 E2]. zbool. destruct (intern_runs table v d HT) as (x & -> & Hx); [split; lia|]. cbn.
      eapply runs_weaken; [eapply (runs_bind 1 (len vs)); [apply len_nonneg|apply runs_wrap, Hx|]|unfold len; cbn; lia| |intros ? ? ? ? H; exact H].
      * intros i' d1 Hd1 He1 Hi'. eapply runs_weaken; [eapply (runs_bind (len vs) 0); [lia|apply IH; [done|by apply (Forall2_stable (entryTo k src) _ _ entryTo_stable d d1)]|]|lia| |intros ? ? ? ? H; exact H].
        -- intros vs' d2 Hd2 He2 Hvs. apply runs_ret. intros _. constructor; [|exact Hvs]. by apply (indexTo_stable i' v d1 d2).
        -- reflexivity.
      * rewrite Forall_cons. split; [intros (_ & H & _); split; [split; lia|exact H]|]. intros [_ H]. split; [done|]. split; [exact H|done].
Qed.
End Refs.

(** A loop over the elements of a slice. *)
Lemma switchAll_runs {A} fmt (f : A -> Dict -> res (A * Dict)) (cost : A -> Z) (P : A -> Prop) (R : Dict -> A -> A -> Prop) (T : Dict -> Prop) j l d :
  (forall x, 0 <= cost x) -> (forall x' x, stable (fun d => R d x' x)) -> stable T ->
  (forall x d, x ∈ l -> good d -> T d -> Runs (cost x) (P x) (fun x' d' => R d' x' x) (f x) d) -> good d -> T d ->
  Runs (sumZ cost l) (Forall P l) (fun l' d' => Forall2 (R d') l' l) (switchAll fmt f j l) d.
Proof.
  intros Hc HR HT. revert j d. induction l as [|x l IH]; intros j d Hf Hd Ht.
  - eapply runs_weaken; [apply (runs_ret (fun l' d' => Forall2 (R d') l' []) [])|done|done|done]. by constructor.
  - cbn [switchAll sumZ]. eapply runs_weaken; [eapply (runs_bind (cost x) (sumZ cost l)); [by apply sumZ_nonneg|apply runs_wrap, Hf; [by left|done..]|]|done| |intros ? ? ? ? H; exact H].
    + intros x' d1 Hd1 He1 Hx'. eapply runs_weaken; [eapply (runs_bind (sumZ cost l) 0); [lia|apply IH; [intros; apply Hf; [by right|done..]|done|by apply (HT d d1)]|]|lia| |intros ? ? ? ? H; exact H].
      * intros l' d2 Hd2 He2 Hl'. apply runs_ret. intros _. constructor; [|exact Hl']. by apply (HR x' x d1 d2).
      * reflexivity.
    + rewrite Forall_cons. tauto.
Qed.

Ltac bind c1 c2 := eapply (runs_step c1 c2); [try lia; reflexivity|try done; try apply len_nonneg|..].

(** ** Switching messages

    [src] is the dictionary of the source as it was and [cur] as it is, with some of its
    tables switched. *)
Section Messages.
Context (src cur : Dict) (Hstrings : strings cur = strings src) (Hlinks : links cur = links src).

(** A message outside of the tables. *)
Definition messageTo {A M} (closed : Dict -> A -> Prop) (meaning : Dict -> A -> M) (d : Dict) (x' x : A) : Prop := closed d x' /\ meaning d x' = meaning src x.

Definition attributesTo (d : Dict) : Prop := Forall2 (entryTo (attributeKind obs) src d) (attributes cur) (attributes src).
Definition functionsTo (d : Dict) : Prop := Forall2 (entryTo functionKind src d) (functions cur) (functions src).
Definition mappingsTo (d : Dict) : Prop := Forall2 (entryTo (mappingKind obs) src d) (mappings cur) (mappings src).
Definition locationsTo (d : Dict) : Prop := Forall2 (entryTo (locationKind obs) src d) (locations cur) (locations src).
Definition stacksTo (d : Dict) : Prop := Forall2 (entryTo (stackKind obs) src d) (stacks cur) (stacks src).

Lemma Forall2_refl {A} (R : A -> A -> Prop) l : (forall x, R x x) -> Forall2 R l l.
Proof. intros HR. induction l; by constructor. Qed.

Lemma string_runs what i d : good d ->
  Runs 1 (refOk stringKind src i) (fun i' d' => refTo stringKind src d' i' i) (switchRef what internString (strings cur) i) d.
Proof.
  intros Hd. rewrite Hstrings. apply (switchRef_runs _ stringLaws (fun _ _ => I) _ internString_law); [intros ? Hg; apply Hg|].
  by apply Forall2_refl.
Qed.

Lemma attributes_runs vs d : good d -> attributesTo d ->
  Runs (len vs) (Forall (indexOk (attributeKind obs) src) vs) (fun vs' d' => Forall2 (indexTo (attributeKind obs) src d') vs' vs)
    (switchRefs "attribute" internAttribute (attributes cur) 0 vs) d.
Proof. intros Hd HT. apply (switchRefs_runs _ (attributeLaws obs) (fun d H => dc_attributes _ d H) _ internAttribute_law); done. Qed.

Lemma string_stable i' i d d' : good d -> ext d d' -> refTo stringKind src d i' i -> refTo stringKind src d' i' i.
Proof. apply (refTo_stable _ stringLaws (fun _ _ => I)). Qed.

Lemma indices_stable vs' vs d d' : good d -> ext d d' ->
  Forall2 (indexTo (attributeKind obs) src d) vs' vs -> Forall2 (indexTo (attributeKind obs) src d') vs' vs.
Proof. apply (Forall2_stable (indexTo (attributeKind obs) src)), (indexTo_stable _ (attributeLaws obs) (fun d H => dc_attributes _ d H)). Qed.

Lemma indices_to {A M} (k : kind A M) d vs' vs : Forall2 (indexTo k src d) vs' vs -> Forall (indexOk k d) vs' /\ map (indexMeaning k d) vs' = map (indexMeaning k src) vs.
Proof. induction 1 as [|x y l1 l2 [Hc Hm] _ [IH1 IH2] ]; [done|]. split; [by constructor|]. cbn. by rewrite Hm, IH2. Qed.

Lemma messages_to {A M} (closed : Dict -> A -> Prop) (meaning : Dict -> A -> M) d l' l : Forall2 (messageTo closed meaning d) l' l ->
  Forall (closed d) l' /\ map (meaning d) l' = map (meaning src) l.
Proof. induction 1 as [|x y l1 l2 [Hc Hm] _ [IH1 IH2] ]; [done|]. split; [by constructor|]. cbn. by rewrite Hm, IH2. Qed.

Lemma attributesTo_stable : stable attributesTo.
Proof. apply (Forall2_stable (entryTo (attributeKind obs) src)), (entryTo_stable _ (attributeLaws obs) (fun d H => dc_attributes _ d H)). Qed.

Lemma attribute_runs x d : attrMade x -> good d ->
  Runs 2 (attributeClosed src x) (fun x' d' => entryTo (attributeKind obs) src d' x' x) (KeyValueAndUnit_switchDictionary cur x) d.
Proof.
  intros Hm Hd. unfold KeyValueAndUnit_switchDictionary. eapply runs_weaken.
  - bind 1 1; [by apply string_runs|]. intros key d1 Hd1 He1 Hk. bind 1 0; [by apply string_runs|]. intros unit d2 Hd2 He2 Hu.
    apply (runs_ret (fun x' d' => entryTo (attributeKind obs) src d' x' x)). intros _. apply (string_stable _ _ d1 d2) in Hk as [Hk Ek]; [|done..].
    destruct Hu as [Hu Eu]. split; [done|]. cbn. unfold attributeMeaning. cbn. by rewrite Ek, Eu.
  - done.
  - unfold attributeClosed. tauto.
  - done.
Qed.

Lemma function_runs x d : good d -> Runs 3 (functionClosed src x) (fun x' d' => entryTo functionKind src d' x' x) (Function_switchDictionary cur x) d.
Proof.
  intros Hd. unfold Function_switchDictionary. eapply runs_weaken.
  - bind 1 2; [by apply string_runs|]. intros name d1 Hd1 He1 Hk. bind 1 1; [by apply string_runs|]. intros sys d2 Hd2 He2 Hs.
    bind 1 0; [by apply string_runs|]. intros file d3 Hd3 He3 Hf. apply (runs_ret (fun x' d' => entryTo functionKind src d' x' x)). intros _.
    apply (string_stable _ _ d1 d3) in Hk as [Hk Ek]; [|done|by etransitivity]. apply (string_stable _ _ d2 d3) in Hs as [Hs Es]; [|done..].
    destruct Hf as [Hf Ef]. split; [done|]. cbn. unfold functionMeaning. cbn. by rewrite Ek, Es, Ef.
  - done.
  - unfold functionClosed. tauto.
  - done.
Qed.

Lemma mapping_runs x d : good d -> attributesTo d ->
  Runs (mappingRefs x) (mappingClosed obs src x) (fun x' d' => entryTo (mappingKind obs) src d' x' x) (Mapping_switchDictionary cur x) d.
Proof.
  intros Hd HT. unfold Mapping_switchDictionary. eapply runs_weaken.
  - bind 1 (len (Mapping_AttributeIndices x)); [by apply string_runs|]. intros file d1 Hd1 He1 Hf.
    bind (len (Mapping_AttributeIndices x)) 0; [apply attributes_runs; [done|by apply (attributesTo_stable d d1)]|]. intros ats d2 Hd2 He2 Ha.
    apply (runs_ret (fun x' d' => entryTo (mappingKind obs) src d' x' x)). intros _. apply (string_stable _ _ d1 d2) in Hf as [Hf Ef]; [|done..].
    apply indices_to in Ha as [Ha Ea]. split; [done|]. cbn. unfold mappingMeaning. cbn. by rewrite Ef, Ea.
  - unfold mappingRefs. lia.
  - unfold mappingClosed. tauto.
  - done.
Qed.

Lemma messageTo_stable {A M} (closed : Dict -> A -> Prop) (meaning : Dict -> A -> M) :
  (forall d d' x, dictClosed obs d -> ext d d' -> closed d x -> closed d' x /\ meaning d' x = meaning d x) ->
  forall x' x, stable (fun d => messageTo closed meaning d x' x).
Proof. intros Hext x' x d d' [Hd _] He [Hc Hm]. destruct (Hext d d' x' Hd He Hc) as [Hc' E]. split; [done|]. by rewrite E. Qed.

Lemma functionsTo_stable : stable functionsTo.
Proof. apply (Forall2_stable (entryTo functionKind src)), (entryTo_stable _ functionLaws (fun d H => dc_functions obs d H)). Qed.

Lemma mappingsTo_stable : stable mappingsTo.
Proof. apply (Forall2_stable (entryTo (mappingKind obs) src)), (entryTo_stable _ (mappingLaws obs) (entries_mapping obs)). Qed.

Lemma line_runs x d : good d -> functionsTo d -> Runs 1 (lineClosed src x) (fun x' d' => messageTo lineClosed lineMeaning d' x' x) (Line_switchDictionary cur x) d.
Proof.
  intros Hd HT. unfold Line_switchDictionary. eapply runs_weaken.
  - bind 1 0; [apply (switchRef_runs _ functionLaws (fun d H => dc_functions obs d H) _ internFunction_law); [intros ? Hg; apply Hg|exact HT]|].
    intros fn d1 Hd1 He1 [Hf Ef]. apply (runs_ret (fun x' d' => messageTo lineClosed lineMeaning d' x' x)). intros _. split; [done|].
    unfold lineMeaning. cbn. by rewrite Ef.
  - done.
  - unfold lineClosed. tauto.
  - done.
Qed.

Lemma lineTo_stable x' x : stable (fun d => messageTo lineClosed lineMeaning d x' x).
Proof.
  apply messageTo_stable. intros d d' l [] He Hl. split; [by eapply lineClosed_ext|by apply lineMeaning_ext].
Qed.

Lemma location_runs x d : good d -> attributesTo d -> functionsTo d -> mappingsTo d ->
  Runs (locationRefs x) (locationClosed obs src x) (fun x' d' => entryTo (locationKind obs) src d' x' x) (Location_switchDictionary cur x) d.
Proof.
  intros Hd HTa HTf HTm. pose proof (len_nonneg (Location_AttributeIndices x)). set (lines := sumZ (fun _ : Line => 1) (Location_Lines x)).
  assert (0 <= lines) by by apply sumZ_nonneg.
  unfold Location_switchDictionary. eapply runs_weaken.
  - bind 1 (len (Location_AttributeIndices x) + lines);
      [lia|apply (switchRef_runs _ (mappingLaws obs) (entries_mapping obs) _ internMapping_law); [intros ? Hg; apply Hg|exact HTm]|].
    intros ma d1 Hd1 He1 Hm. bind (len (Location_AttributeIndices x)) lines; [apply attributes_runs; [done|by apply (attributesTo_stable d d1)]|].
    intros ats d2 Hd2 He2 Ha. bind lines 0;
      [apply (switchAll_runs _ _ _ (lineClosed src) (messageTo lineClosed lineMeaning) functionsTo); [done|apply lineTo_stable|apply functionsTo_stable|intros; by apply line_runs|done|]|].
    { apply (functionsTo_stable d d2); [done|by etransitivity|done]. }
    intros ls d3 Hd3 He3 Hl. apply (runs_ret (fun x' d' => entryTo (locationKind obs) src d' x' x)). intros _.
    apply (refTo_stable _ (mappingLaws obs) (entries_mapping obs) _ _ _ d1 d3) in Hm as [Hm Em]; [|done|by etransitivity].
    apply (indices_stable _ _ d2 d3) in Ha; [|done..]. apply indices_to in Ha as [Ha Ea]. apply messages_to in Hl as [Hl El]. split; [done|].
    cbn. unfold locationMeaning. cbn. by rewrite Em, Ea, El.
  - unfold locationRefs, lines, len. rewrite sumZ_const. lia.
  - unfold locationClosed. tauto.
  - done.
Qed.

Lemma stack_runs x d : good d -> locationsTo d ->
  Runs (len (Stack_LocationIndices x)) (stackClosed obs src x) (fun x' d' => entryTo (stackKind obs) src d' x' x) (Stack_switchDictionary cur x) d.
Proof.
  intros Hd HT. unfold Stack_switchDictionary. eapply runs_weaken.
  - bind (len (Stack_LocationIndices x)) 0; [apply (switchRefs_runs _ (locationLaws obs) (entries_location obs) _ internLocation_law); [done|exact HT]|].
    intros ls d1 Hd1 He1 Hl. apply (runs_ret (fun x' d' => entryTo (stackKind obs) src d' x' x)). intros _. apply indices_to in Hl as [Hl El]. split; [done|].
    cbn. unfold stackMeaning. cbn. by rewrite El.
  - lia.
  - unfold stackClosed. tauto.
  - done.
Qed.

Lemma valueType_runs x d : good d ->
  Runs 2 (valueTypeClosed src x) (fun x' d' => messageTo valueTypeClosed valueTypeMeaning d' x' x) (ValueType_switchDictionary cur x) d.
Proof.
  intros Hd. unfold ValueType_switchDictionary. eapply runs_weaken.
  - bind 1 1; [by apply string_runs|]. intros type d1 Hd1 He1 Ht. bind 1 0; [by apply string_runs|]. intros unit d2 Hd2 He2 [Hu Eu].
    apply (runs_ret (fun x' d' => messageTo valueTypeClosed valueTypeMeaning d' x' x)). intros _. apply (string_stable _ _ d1 d2) in Ht as [Ht Et]; [|done..].
    split; [done|]. unfold valueTypeMeaning. cbn. by rewrite Et, Eu.
  - done.
  - unfold valueTypeClosed. tauto.
  - done.
Qed.

Lemma stacksTo_stable : stable stacksTo.
Proof. apply (Forall2_stable (entryTo (stackKind obs) src)), (entryTo_stable _ (stackLaws obs) (fun d H => H)). Qed.

Lemma sample_runs x d : good d -> attributesTo d /\ stacksTo d ->
  Runs (sampleRefs x) (sampleClosed obs src x) (fun x' d' => messageTo (sampleClosed obs) (sampleMeaning obs) d' x' x) (Sample_switchDictionary cur x) d.
Proof.
  intros Hd [HTa HTs]. unfold Sample_switchDictionary. eapply runs_weaken.
  - bind (len (Sample_AttributeIndices x)) 2; [by apply attributes_runs|]. intros ats d1 Hd1 He1 Ha.
    bind 1 1; [rewrite Hlinks; apply (switchRef_runs _ linkLaws (fun _ _ => I) _ internLink_law); [intros ? Hg; apply Hg|by apply Forall2_refl]|].
    intros link d2 Hd2 He2 Hl.
    bind 1 0; [apply (switchRef_runs _ (stackLaws obs) (fun d H => H) _ internStack_law); [intros ? Hg; apply Hg|]|].
    { apply (stacksTo_stable d d2); [done|by etransitivity|done]. }
    intros stack d3 Hd3 He3 [Hs Es]. apply (runs_ret (fun x' d' => messageTo (sampleClosed obs) (sampleMeaning obs) d' x' x)). intros _.
    apply (indices_stable _ _ d1 d3) in Ha; [|done|by etransitivity]. apply indices_to in Ha as [Ha Ea].
    apply (refTo_stable _ linkLaws (fun _ _ => I) _ _ _ d2 d3) in Hl as [Hl El]; [|done..]. split; [done|]. unfold sampleMeaning. cbn. by rewrite Ea, El, Es.
  - done.
  - unfold sampleClosed. tauto.
  - done.
Qed.

Lemma messages_stable : stable (fun d => attributesTo d /\ stacksTo d).
Proof. intros d d' Hd He [Ha Hs]. split; [by apply (attributesTo_stable d d')|by apply (stacksTo_stable d d')]. Qed.

Lemma sampleRefs_nonneg x : 0 <= sampleRefs x.
Proof. unfold sampleRefs. pose proof (len_nonneg (Sample_AttributeIndices x)). lia. Qed.

Lemma profileRefs_nonneg x : 0 <= profileRefs x.
Proof.
  unfold profileRefs. pose proof (len_nonneg (Profile_AttributeIndices x)).
  pose proof (sumZ_nonneg sampleRefs (Profile_Samples x) ltac:(intros; apply sampleRefs_nonneg)). lia.
Qed.

Lemma scopeRefs_nonneg x : 0 <= scopeRefs x.
Proof. apply sumZ_nonneg. intros. apply profileRefs_nonneg. Qed.

Lemma resourceRefs_nonneg x : 0 <= resourceRefs x.
Proof. apply sumZ_nonneg. intros. apply scopeRefs_nonneg. Qed.

Lemma profile_runs x d : good d -> attributesTo d /\ stacksTo d ->
  Runs (profileRefs x) (profileClosed obs src x) (fun x' d' => messageTo (profileClosed obs) (profileMeaning obs) d' x' x) (Profile_switchDictionary cur x) d.
Proof.
  intros Hd HT. assert (0 <= sumZ sampleRefs (Profile_Samples x)) by (apply sumZ_nonneg; intros; apply sampleRefs_nonneg).
  unfold Profile_switchDictionary. eapply runs_weaken.
  - bind (len (Profile_AttributeIndices x)) (sumZ sampleRefs (Profile_Samples x) + 4); [lia|apply attributes_runs; [done|apply HT]|]. intros ats d1 Hd1 He1 Ha.
    bind (sumZ sampleRefs (Profile_Samples x)) 4;
      [apply (switchAll_runs _ _ _ (sampleClosed obs src) (messageTo (sampleClosed obs) (sampleMeaning obs)) (fun d => attributesTo d /\ stacksTo d))|].
    { apply sampleRefs_nonneg. } { apply messageTo_stable, sample_ext. } { apply messages_stable. } { intros; by apply sample_runs. } { done. }
    { by apply (messages_stable d d1). }
    intros samples d2 Hd2 He2 Hs. bind 2 2; [by apply runs_wrap, valueType_runs|]. intros period d3 Hd3 He3 Hp.
    bind 2 0; [by apply runs_wrap, valueType_runs|]. intros stype d4 Hd4 He4 [Ht Et].
    apply (runs_ret (fun x' d' => messageTo (profileClosed obs) (profileMeaning obs) d' x' x)). intros _.
    apply (indices_stable _ _ d1 d4) in Ha; [|done|by do 2 (etransitivity; [eassumption|])]. apply indices_to in Ha as [Ha Ea].
    apply messages_to in Hs as [Hs Es]. assert (ext d2 d4) by by etransitivity.
    destruct (all_ext (sampleClosed obs) (sampleMeaning obs) d2 d4 samples) as [Hs' Es']; [intros s; apply sample_ext; [apply Hd2|done]|done|].
    destruct Hp as [Hp Ep], (valueType_ext d3 d4 _ He4 Hp) as [Hp' Ep'].
    split; [done|]. unfold profileMeaning. cbn. by rewrite Ea, Es', Es, Ep', Ep, Et.
  - unfold profileRefs. lia.
  - unfold profileClosed. tauto.
  - done.
Qed.

Lemma scope_runs x d : good d -> attributesTo d /\ stacksTo d ->
  Runs (scopeRefs x) (scopeClosed obs src x) (fun x' d' => messageTo (scopeClosed obs) (scopeMeaning obs) d' x' x) (ScopeProfiles_switchDictionary cur x) d.
Proof.
  intros Hd HT. unfold ScopeProfiles_switchDictionary. eapply runs_weaken.
  - bind (scopeRefs x) 0; [apply (switchAll_runs _ _ _ (profileClosed obs src) (messageTo (profileClosed obs) (profileMeaning obs)) (fun d => attributesTo d /\ stacksTo d))|].
    { apply profileRefs_nonneg. } { apply messageTo_stable, profile_ext. } { apply messages_stable. } { intros; by apply profile_runs. } { done. } { done. }
    intros ps d1 Hd1 He1 Hp. apply (runs_ret (fun x' d' => messageTo (scopeClosed obs) (scopeMeaning obs) d' x' x)). intros _.
    apply messages_to in Hp as [Hp Ep]. split; [done|]. unfold scopeMeaning. cbn. by rewrite Ep.
  - lia.
  - unfold scopeClosed. tauto.
  - done.
Qed.

Lemma resource_runs x d : good d -> attributesTo d /\ stacksTo d ->
  Runs (resourceRefs x) (resourceClosed obs src x) (fun x' d' => messageTo (resourceClosed obs) (resourceMeaning obs) d' x' x) (ResourceProfiles_switchDictionary cur x) d.
Proof.
  intros Hd HT. unfold ResourceProfiles_switchDictionary. eapply runs_weaken.
  - bind (resourceRefs x) 0; [apply (switchAll_runs _ _ _ (scopeClosed obs src) (messageTo (scopeClosed obs) (scopeMeaning obs)) (fun d => attributesTo d /\ stacksTo d))|].
    { apply scopeRefs_nonneg. } { apply messageTo_stable, scope_ext. } { apply messages_stable. } { intros; by apply scope_runs. } { done. } { done. }
    intros ps d1 Hd1 He1 Hp. apply (runs_ret (fun x' d' => messageTo (resourceClosed obs) (resourceMeaning obs) d' x' x)). intros _.
    apply messages_to in Hp as [Hp Ep]. split; [done|]. unfold resourceMeaning. cbn. by rewrite Ep.
  - lia.
  - unfold resourceClosed. tauto.
  - done.
Qed.

Lemma locationsTo_stable : stable locationsTo.
Proof. apply (Forall2_stable (entryTo (locationKind obs) src)), (entryTo_stable _ (locationLaws obs) (entries_location obs)). Qed.
End Messages.

(** ** Switching all the tables *)
Lemma profilesClosed_iff ms (src := ExportProfilesServiceRequest_Dictionary ms) :
  profilesClosed obs ms <->
  Forall (attributeClosed src) (attributes src) /\ Forall (functionClosed src) (functions src) /\ Forall (mappingClosed obs src) (mappings src) /\
  Forall (locationClosed obs src) (locations src) /\ Forall (stackClosed obs src) (stacks src) /\
  Forall (resourceClosed obs src) (ExportProfilesServiceRequest_ResourceProfiles ms) /\ True.
Proof. split; [intros [ [] ?]; tauto|]. intros (? & ? & ? & ? & ? & ? & _). split; [by constructor|done]. Qed.

Lemma mappingRefs_nonneg x : 0 <= mappingRefs x.
Proof. unfold mappingRefs. pose proof (len_nonneg (Mapping_AttributeIndices x)). lia. Qed.

Lemma locationRefs_nonneg x : 0 <= locationRefs x.
Proof. unfold locationRefs. pose proof (len_nonneg (Location_AttributeIndices x)). pose proof (len_nonneg (Location_Lines x)). lia. Qed.

(** A stage of [switchTables]: switching one table, given the tables it refers to. *)
Lemma table_runs {A M} (k : kind A M) {entries} (L : kindLaws k entries) (Hent : forall d, dictClosed obs d -> entries d) src fmt f cost l T d :
  (forall x, 0 <= cost x) -> stable T ->
  (forall x d, x ∈ l -> good d -> T d -> Runs (cost x) (k_closed k src x) (fun x' d' => entryTo k src d' x' x) (f x) d) -> good d -> T d ->
  Runs (sumZ cost l) (Forall (k_closed k src) l) (fun l' d' => Forall2 (entryTo k src d') l' l) (switchAll fmt f 0 l) d.
Proof. intros Hc HT Hf Hd Ht. apply (switchAll_runs _ _ _ _ (entryTo k src) T); [done|apply (entryTo_stable _ L Hent)|done..]. Qed.

Lemma stable_and R1 R2 : stable R1 -> stable R2 -> stable (fun d => R1 d /\ R2 d).
Proof. intros H1 H2 d d' Hd He [??]. split; [by eapply H1|by eapply H2]. Qed.

Lemma switchTables_runs ms d (src := ExportProfilesServiceRequest_Dictionary ms) : Forall attrMade (attributes src) -> good d ->
  Runs (profilesRefs ms) (profilesClosed obs ms)
    (fun ms' d' => Forall2 (messageTo src (resourceClosed obs) (resourceMeaning obs) d') (ExportProfilesServiceRequest_ResourceProfiles ms')
                     (ExportProfilesServiceRequest_ResourceProfiles ms)) (switchTables ms) d.
Proof.
  intros Hmade Hd. rewrite Forall_forall in Hmade.
  set (ca := sumZ (fun _ : KeyValueAndUnit => 2) (attributes src)). set (cf := sumZ (fun _ : Function => 3) (functions src)).
  set (cm := sumZ mappingRefs (mappings src)). set (cl := sumZ locationRefs (locations src)).
  set (cs := sumZ (fun s => len (Stack_LocationIndices s)) (stacks src)). set (cr := sumZ resourceRefs (ExportProfilesServiceRequest_ResourceProfiles ms)).
  assert (0 <= cf /\ 0 <= cm /\ 0 <= cl /\ 0 <= cs /\ 0 <= cr) as (? & ? & ? & ? & ?).
  { split_and!; apply sumZ_nonneg; intros; [done|apply mappingRefs_nonneg|apply locationRefs_nonneg|apply len_nonneg|apply resourceRefs_nonneg]. }
  unfold switchTables. fold src. cbn [ProfilesDictionary_FunctionTable]. eapply runs_weaken; [| |rewrite profilesClosed_iff; reflexivity|intros ? ? ? ? HQ; exact HQ].
  - bind ca (cf + cm + cl + cs + cr); [lia|eapply (table_runs _ (attributeLaws obs) (fun d H => dc_attributes _ d H) src _ _ _ _ (fun _ => True)); [done|done| |done..]|].
    { intros x d0 Hx Hd0 _. by apply attribute_runs; [|apply Hmade|]. }
    intros ats d1 Hd1 He1 Ha. set (src1 := src <| ProfilesDictionary_AttributeTable := ats |>).
    bind cf (cm + cl + cs + cr); [lia|eapply (table_runs _ functionLaws (fun d H => dc_functions _ d H) src _ _ _ _ (fun _ => True)); [done|done| |done..]|].
    { intros x d0 _ Hd0 _. by apply function_runs. }
    intros fns d2 Hd2 He2 Hf. set (src2 := src1 <| ProfilesDictionary_FunctionTable := fns |>).
    apply (attributesTo_stable src src2 d1 d2) in Ha; [|done..].
    bind cm (cl + cs + cr); [lia|eapply (table_runs _ (mappingLaws obs) (entries_mapping obs) src _ _ _ _ (attributesTo src src2)); [apply mappingRefs_nonneg|apply attributesTo_stable| |done..]|].
    { intros x d0 _ Hd0 Ht. by apply mapping_runs. }
    intros mas d3 Hd3 He3 Hm. set (src3 := src2 <| ProfilesDictionary_MappingTable := mas |>).
    apply (attributesTo_stable src src3 d2 d3) in Ha; [|done..]. apply (functionsTo_stable src src3 d2 d3) in Hf; [|done..].
    bind cl (cs + cr); [lia|eapply (table_runs _ (locationLaws obs) (entries_location obs) src _ _ _ _
      (fun d => attributesTo src src3 d /\ functionsTo src src3 d /\ mappingsTo src src3 d)); [apply locationRefs_nonneg| | |done|by split_and!]|].
    { apply stable_and; [apply attributesTo_stable|]. apply stable_and; [apply functionsTo_stable|apply mappingsTo_stable]. }
    { intros x d0 _ Hd0 (? & ? & ?). by apply location_runs. }
    intros locs d4 Hd4 He4 Hl. set (src4 := src3 <| ProfilesDictionary_LocationTable := locs |>).
    apply (attributesTo_stable src src4 d3 d4) in Ha; [|done..].
    bind cs cr; [eapply (table_runs _ (stackLaws obs) (fun d H => H) src _ _ _ _ (locationsTo src src4)); [intros; apply len_nonneg|apply locationsTo_stable| |done..]|].
    { intros x d0 _ Hd0 Ht. by apply stack_runs. }
    intros sts d5 Hd5 He5 Hs. set (src5 := src4 <| ProfilesDictionary_StackTable := sts |>).
    apply (attributesTo_stable src src5 d4 d5) in Ha; [|done..].
    bind cr 0; [apply (switchAll_runs _ _ _ (resourceClosed obs src) (messageTo src (resourceClosed obs) (resourceMeaning obs)) (fun d => attributesTo src src5 d /\ stacksTo src src5 d))|].
    { apply resourceRefs_nonneg. } { apply messageTo_stable, resource_ext. } { apply messages_stable. } { intros; by apply resource_runs. } { done. } { done. }
    intros rps d6 Hd6 He6 Hr. apply runs_ret. intros _. exact Hr.
  - unfold profilesRefs, dictRefs. fold src. subst ca cf cm cl cs cr. rewrite !sumZ_const. unfold len. lia.
Qed.
End Good.

(** ** Merging *)
Lemma closed_Tables {V} (obs : AnyValue -> V) d n : dictClosed obs d -> room d n -> 0 <= n -> Tables d.
Proof.
  intros Hd [] Hn. constructor; try lia. eapply Forall_impl; [apply Hd|]. by intros a [].
Qed.

Lemma profilesRefs_nonneg ms : 0 <= profilesRefs ms.
Proof.
  unfold profilesRefs, dictRefs. repeat apply Z.add_nonneg_nonneg; try (apply Z.mul_nonneg_nonneg; [done|apply len_nonneg]); apply sumZ_nonneg; intros;
    [apply mappingRefs_nonneg|apply locationRefs_nonneg|apply len_nonneg|apply resourceRefs_nonneg].
Qed.

Lemma MergeTo_meaning {V} (obs : AnyValue -> V) ms dest :
  (forall a b, wellMade a -> wellMade b -> Value_Equal a b = Ok true -> obs a = obs b) ->
  profilesClosed obs dest -> dictGrounded obs (ExportProfilesServiceRequest_Dictionary dest) ->
  Forall attrMade (attributes (ExportProfilesServiceRequest_Dictionary ms)) ->
  room (ExportProfilesServiceRequest_Dictionary dest) (profilesRefs ms) ->
  match MergeTo false false ms dest with
  | Ok (ms', dest') =>
      profilesClosed obs ms /\ ExportProfilesServiceRequest_ResourceProfiles ms' = [] /\
      profilesMeaning obs dest' = profilesMeaning obs dest ++ profilesMeaning obs ms /\
      profilesClosed obs dest' /\ dictGrounded obs (ExportProfilesServiceRequest_Dictionary dest')
  | Err _ => ~ profilesClosed obs ms
  | _ => False
  end.
Proof.
  intros Hobs [Hd Hr] Hg Hmade Hroom. pose proof (profilesRefs_nonneg ms) as Hn.
  rewrite MergeTo_scan by (done || by eapply closed_Tables). unfold MergeByScan.
  pose proof (switchTables_runs obs Hobs ms _ Hmade (conj Hd Hg) 0 (Z.le_refl 0) (conj Hd Hg)) as HS. rewrite Z.add_0_r in HS. specialize (HS Hroom).
  destruct (switchTables ms _) as [[ms' d']| | |]; cbn; [|done..]. destruct HS as (Hc & [Hd' Hg'] & _ & He & Hms).
  destruct (messages_to _ _ _ _ _ _ Hms) as [Hcl Hme].
  destruct (all_ext (resourceClosed obs) (resourceMeaning obs) _ _ _ (fun r => resource_ext obs _ _ r Hd He) Hr) as [Hr' Er].
  do 2 (split; [done|]). unfold profilesMeaning, profilesClosed. cbn. rewrite map_app, Er, Hme. split; [done|]. split; [|done]. split; [done|]. by apply Forall_app.
Qed.

(** C4: Merging profiles into others, whose dictionary is closed and has at index 0 of its
    tables the entry that stands for none, succeeds exactly when every reference of the
    source is in the tables of its dictionary, as long as no table can get full.  The
    destination then means what it did followed by what the source meant, with every
    reference followed to what it refers to: no profile, sample, stack or attribute is
    lost, moved or mixed up, for any view of attribute values that does not tell equal
    ones apart.  The source is left without profiles, and the destination is such that more
    can be merged into it. *)
Theorem merge_keeps_meaning {V} (obs : AnyValue -> V) ms dest :
  (forall a b, wellMade a -> wellMade b -> Value_Equal a b = Ok true -> obs a = obs b) ->
  profilesClosed obs dest -> dictGrounded obs (ExportProfilesServiceRequest_Dictionary dest) ->
  Forall attrMade (attributes (ExportProfilesServiceRequest_Dictionary ms)) ->
  room (ExportProfilesServiceRequest_Dictionary dest) (profilesRefs ms) ->
  match MergeTo false false ms dest with
  | Ok (ms', dest') =>
      profilesClosed obs ms /\ ExportProfilesServiceRequest_ResourceProfiles ms' = [] /\
      profilesMeaning obs dest' = profilesMeaning obs dest ++ profilesMeaning obs ms /\
      profilesClosed obs dest' /\ dictGrounded obs (ExportProfilesServiceRequest_Dictionary dest')
  | Err _ => ~ profilesClosed obs ms
  | _ => False
  end.
Proof. apply MergeTo_meaning. Qed.

(** ** Examples *)

(** The text of a value. *)
Definition textOf (v : AnyValue) : option (list Z) := match v with AnyValue_StringValue s => Some s | _ => None end.

Lemma textOf_Equal a b : wellMade a -> wellMade b -> Value_Equal a b = Ok true -> textOf a = textOf b.
Proof. intros _ _. destruct a as [| | | | |[]|[]| |], b; try done; cbn; intros [= H]; try done. apply bool_decide_eq_true in H. by rewrite H. Qed.

(** A dictionary with the entries that stand for none, a function of this name and a
    stack that calls it, and an attribute. *)
Definition callDict (name : list Z) (v : AnyValue) : Dict :=
  mkProfilesDictionary [Mapping_zero] [Location_zero; mkLocation [mkLine 1 7 0] [1] 0 0] [Function_zero; mkFunction 1 0 0 0] [Link_zero] [ []; name]
    [KeyValueAndUnit_zero; mkKeyValueAndUnit v 1 0] [Stack_zero; mkStack [1] ].

Definition callProfiles (d : Dict) : ExportProfilesServiceRequest :=
  mkExportProfilesServiceRequest [mkResourceProfiles [] zero [mkScopeProfiles [] [zero <| Profile_Samples := [mkSample [1] [5] [] 1 0] |>] zero] ] d.

Lemma callDict_closed name s : dictClosed textOf (callDict name (AnyValue_StringValue s)).
Proof. by constructor; repeat constructor; cbn; unfold refOk, indexOk, len; cbn; lia. Qed.

Lemma callProfiles_closed name s : profilesClosed textOf (callProfiles (callDict name (AnyValue_StringValue s))).
Proof. split; [apply callDict_closed|]. repeat constructor; cbn; unfold refOk, indexOk, len; cbn; lia. Qed.

Lemma merge_keeps_meaning_witness :
  exists ms' dest', MergeTo false false (callProfiles (callDict [102] (AnyValue_StringValue [1]))) (callProfiles (callDict [103] (AnyValue_StringValue [2]))) = Ok (ms', dest') /\
  profilesMeaning textOf dest' = profilesMeaning textOf (callProfiles (callDict [103] (AnyValue_StringValue [2]))) ++
    profilesMeaning textOf (callProfiles (callDict [102] (AnyValue_StringValue [1]))).
Proof.
  pose proof (merge_keeps_meaning textOf (callProfiles (callDict [102] (AnyValue_StringValue [1]))) (callProfiles (callDict [103] (AnyValue_StringValue [2])))
    textOf_Equal (callProfiles_closed _ _)) as H.
  destruct (MergeTo _ _ _ _) as [[ms' dest']| | |] eqn:E; [|vm_compute in E; discriminate E..]. exists ms', dest'. split; [done|]. apply H.
  - by constructor.
  - repeat constructor.
  - constructor; vm_compute; discriminate.
Defined.

(** The value of the attributes of the samples, followed through the dictionary. *)
Definition sampleValues (pd : ExportProfilesServiceRequest) : list AnyValue :=
  r ← ExportProfilesServiceRequest_ResourceProfiles pd; s ← ResourceProfiles_ScopeProfiles r; p ← ScopeProfiles_Profiles s;
  x ← Profile_Samples p; i ← Sample_AttributeIndices x;
  [KeyValueAndUnit_Value (nth (Z.to_nat i) (attributes (ExportProfilesServiceRequest_Dictionary pd)) KeyValueAndUnit_zero)].

(** A value that refers to a string of the source is copied as it is, and then refers to
    whatever the destination has at that index: the value of the sample was the name in
    the source and is another one in the destination. *)
Theorem merge_value_references :
  match MergeTo false false (callProfiles (callDict [102] (AnyValue_StringValueStrindex 1))) (callProfiles (callDict [103] AnyValue_nil)) with
  | Ok (_, dest') =>
      sampleValues (callProfiles (callDict [102] (AnyValue_StringValueStrindex 1))) = [AnyValue_StringValueStrindex 1] /\
      sampleValues dest' = [AnyValue_nil; AnyValue_StringValueStrindex 1] /\
      nth 1 (strings (callDict [102] (AnyValue_StringValueStrindex 1))) [] = [102] /\
      nth 1 (strings (ExportProfilesServiceRequest_Dictionary dest')) [] = [103]
  | _ => False
  end.
Proof. vm_compute. auto. Qed.

(** Values that refer to different strings are taken for equal ones: merged under the same
    key, the second becomes the first. *)
Theorem merge_references_conflated :
  match MergeTo false false
    (callProfiles (callDict [103] (AnyValue_StringValueStrindex 0))) (callProfiles (callDict [103] (AnyValue_StringValueStrindex 1))) with
  | Ok (_, dest') => sampleValues dest' = [AnyValue_StringValueStrindex 1; AnyValue_StringValueStrindex 1]
  | _ => False
  end.
Proof. vm_compute. done. Qed.

(** Merged into profiles just made, whose tables are empty, the first string gets the
    index that stands for none: the function loses its name. *)
Theorem merge_into_new_profiles :
  match MergeTo false false (callProfiles (callDict [102] AnyValue_nil <| ProfilesDictionary_AttributeTable := [KeyValueAndUnit_zero; KeyValueAndUnit_zero] |>)) zero with
  | Ok (_, dest') =>
      strings (ExportProfilesServiceRequest_Dictionary dest') = [ [102] ] /\
      map Function_NameStrindex (functions (ExportProfilesServiceRequest_Dictionary dest')) = [0]
  | _ => False
  end.
Proof. vm_compute. auto. Qed.

(** An attribute whose value is not a number is never found in the table: each reference
    to it adds another copy. *)
Definition nanBits : Z := 0x7ff8000000000001.

Theorem merge_nan_copies :
  match MergeTo false false (callProfiles (callDict [103] (AnyValue_DoubleValue nanBits))) (callProfiles (callDict [103] (AnyValue_DoubleValue nanBits))) with
  | Ok (_, dest') => len (attributes (ExportProfilesServiceRequest_Dictionary dest')) = 4
  | _ => False
  end.
Proof. vm_compute. done. Qed.
