(* ===== verification/ProtoRequests.v ===== *)
(** * Requests in the sending queue

    The messages that the persistent sending queue stores: the data of a signal with
    the context of its request (the span, the metadata and the address of the
    client), as in ProtoResource. *)

From S2P Require Import Prelude RecordUpdate Errors Sizers ProtoWire ProtoWireProofs ProtoFields ProtoCommon ProtoCommonProofs ProtoMessage ProtoKinds ProtoIds ProtoResource ProtoLogs ProtoTraces ProtoMetrics.
Local Open Scope Z_scope.
Local Open Scope otel_scope.

#[local] Opaque RecursionLimit.

(** ** SpanContext *)
Record SpanContext := mkSpanContext {
  SpanContext_TraceState : list Z;
  SpanContext_TraceFlags : Z;
  SpanContext_TraceID : TraceID;
  SpanContext_SpanID : SpanID;
  SpanContext_Remote : bool;
}.

Definition SpanContext_zero : SpanContext :=
  mkSpanContext [] 0 zero zero false.

#[export] Instance SpanContext_settable : Settable SpanContext :=
  settable! mkSpanContext <SpanContext_TraceState; SpanContext_TraceFlags; SpanContext_TraceID; SpanContext_SpanID;
    SpanContext_Remote>.

Definition SpanContext_SizeProto (m : SpanContext) : Z :=
  sizeLen 1 (SizeProto (SpanContext_TraceID m)) +
  sizeLen 1 (SizeProto (SpanContext_SpanID m)) +
  (if negb (SpanContext_TraceFlags m =? 0) then 5 else 0) +
  (if 0 <? len (SpanContext_TraceState m) then sizeLen 1 (len (SpanContext_TraceState m)) else 0) +
  (if SpanContext_Remote m then 2 else 0).

Definition SpanContext_MarshalProto (m : SpanContext) : list Z -> res (Z * list Z) :=
  runW (
    wMsg (wByte 0xa) (MarshalProto (SpanContext_TraceID m)) >;>
    wMsg (wByte 0x12) (MarshalProto (SpanContext_SpanID m)) >;>
    wWhen (negb (SpanContext_TraceFlags m =? 0)) (wI32 (wByte 0x1d) (SpanContext_TraceFlags m)) >;>
    wWhen (0 <? len (SpanContext_TraceState m)) (wLen (wByte 0x22) (SpanContext_TraceState m)) >;>
    wWhen (SpanContext_Remote m) (wBool (wByte 0x28) (SpanContext_Remote m))).

Definition SpanContext_step (fieldNum wireType : Z) (buf : list Z) (pos : Z) (m : SpanContext) :
  res (SpanContext * Z) :=
  match fieldNum with
  | 1 => let* (b, pos) := readLen "TraceID" wireType buf pos in
      let* v := UnmarshalProto b (SpanContext_TraceID m) in
      Ok (m <| SpanContext_TraceID := v |>, pos)
  | 2 => let* (b, pos) := readLen "SpanID" wireType buf pos in
      let* v := UnmarshalProto b (SpanContext_SpanID m) in
      Ok (m <| SpanContext_SpanID := v |>, pos)
  | 3 => let* (num, pos) := readI32 "TraceFlags" wireType buf pos in
      Ok (m <| SpanContext_TraceFlags := num |>, pos)
  | 4 => let* (b, pos) := readLen "TraceState" wireType buf pos in
      Ok (m <| SpanContext_TraceState := b |>, pos)
  | 5 => let* (num, pos) := readVarint "Remote" wireType buf pos in
      Ok (m <| SpanContext_Remote := negb (num =? 0) |>, pos)
  | _ => skipField wireType buf pos m
  end.

Definition SpanContext_wire (m : SpanContext) : list Z :=
  fWhen (SpanContext_Remote m) (fInt 5 1) ++
  fWhen (0 <? len (SpanContext_TraceState m)) (fLen 4 (SpanContext_TraceState m)) ++
  fWhen (negb (SpanContext_TraceFlags m =? 0)) (fI32 3 (SpanContext_TraceFlags m)) ++
  fLen 2 (wire (SpanContext_SpanID m)) ++
  fLen 1 (wire (SpanContext_TraceID m)).

Definition SpanContext_ok (strict : bool) (m : SpanContext) : Prop :=
  bytes (SpanContext_TraceState m) /\
  is_u32 (SpanContext_TraceFlags m) /\
  wellFormed strict (SpanContext_TraceID m) /\
  wellFormed strict (SpanContext_SpanID m).

#[export] Instance SpanContext_codec : Codec SpanContext :=
  { zero := SpanContext_zero;
    SizeProto := SpanContext_SizeProto;
    MarshalProto := SpanContext_MarshalProto;
    UnmarshalProto := unmarshalFields SpanContext_step;
    wire := SpanContext_wire;
    wellFormed := SpanContext_ok }.

Lemma SpanContext_enc strict m :
  SpanContext_ok strict m -> Encodes (SpanContext_MarshalProto m) (SpanContext_SizeProto m) (SpanContext_wire m).
Proof. enc_message strict SpanContext_ok. Qed.

Lemma SpanContext_rd m :
  SpanContext_ok true m -> Rd SpanContext_step (SpanContext_wire m) SpanContext_zero m.
Proof.
  rd_message m SpanContext_ok SpanContext_wire.
  rd_bool 5 "Remote" SpanContext_Remote.
  rd_string 4 "TraceState" SpanContext_TraceState.
  rd_i32 3 "TraceFlags" SpanContext_TraceFlags.
  rd_msg 2 "SpanID" SpanContext_SpanID.
  rd_msg 1 "TraceID" SpanContext_TraceID.
Qed.

Lemma SpanContext_safe : SafeStep SpanContext_step (SpanContext_ok false).
Proof. safe_message SpanContext_step SpanContext_ok. Qed.

#[export] Instance SpanContext_laws : CodecLaws SpanContext.
Proof.
  apply (fields_laws SpanContext_step); [done| | | |].
  - apply SpanContext_enc.
  - apply SpanContext_rd.
  - apply SpanContext_safe.
  - zero_ok SpanContext_ok.
Qed.

(** ** IPAddr *)
Record IPAddr := mkIPAddr {
  IPAddr_Zone : list Z;
  IPAddr_IP : list Z;
}.

Definition IPAddr_zero : IPAddr :=
  mkIPAddr [] [].

#[export] Instance IPAddr_settable : Settable IPAddr :=
  settable! mkIPAddr <IPAddr_Zone; IPAddr_IP>.

Definition IPAddr_SizeProto (m : IPAddr) : Z :=
  (if 0 <? len (IPAddr_IP m) then sizeLen 1 (len (IPAddr_IP m)) else 0) +
  (if 0 <? len (IPAddr_Zone m) then sizeLen 1 (len (IPAddr_Zone m)) else 0).

Definition IPAddr_MarshalProto (m : IPAddr) : list Z -> res (Z * list Z) :=
  runW (
    wWhen (0 <? len (IPAddr_IP m)) (wLen (wByte 0xa) (IPAddr_IP m)) >;>
    wWhen (0 <? len (IPAddr_Zone m)) (wLen (wByte 0x12) (IPAddr_Zone m))).

Definition IPAddr_step (fieldNum wireType : Z) (buf : list Z) (pos : Z) (m : IPAddr) :
  res (IPAddr * Z) :=
  match fieldNum with
  | 1 => let* (b, pos) := readLen "IP" wireType buf pos in
      Ok (m <| IPAddr_IP := setBytes b (IPAddr_IP m) |>, pos)
  | 2 => let* (b, pos) := readLen "Zone" wireType buf pos in
      Ok (m <| IPAddr_Zone := b |>, pos)
  | _ => skipField wireType buf pos m
  end.

Definition IPAddr_wire (m : IPAddr) : list Z :=
  fWhen (0 <? len (IPAddr_Zone m)) (fLen 2 (IPAddr_Zone m)) ++
  fWhen (0 <? len (IPAddr_IP m)) (fLen 1 (IPAddr_IP m)).

Definition IPAddr_ok (strict : bool) (m : IPAddr) : Prop :=
  bytes (IPAddr_Zone m) /\
  bytes (IPAddr_IP m).

#[export] Instance IPAddr_codec : Codec IPAddr :=
  { zero := IPAddr_zero;
    SizeProto := IPAddr_SizeProto;
    MarshalProto := IPAddr_MarshalProto;
    UnmarshalProto := unmarshalFields IPAddr_step;
    wire := IPAddr_wire;
    wellFormed := IPAddr_ok }.

Lemma IPAddr_enc strict m :
  IPAddr_ok strict m -> Encodes (IPAddr_MarshalProto m) (IPAddr_SizeProto m) (IPAddr_wire m).
Proof. enc_message strict IPAddr_ok. Qed.

Lemma IPAddr_rd m :
  IPAddr_ok true m -> Rd IPAddr_step (IPAddr_wire m) IPAddr_zero m.
Proof.
  rd_message m IPAddr_ok IPAddr_wire.
  rd_string 2 "Zone" IPAddr_Zone.
  rd_bytes 1 "IP" IPAddr_IP.
Qed.

Lemma IPAddr_safe : SafeStep IPAddr_step (IPAddr_ok false).
Proof. safe_message IPAddr_step IPAddr_ok. Qed.

#[export] Instance IPAddr_laws : CodecLaws IPAddr.
Proof.
  apply (fields_laws IPAddr_step); [done| | | |].
  - apply IPAddr_enc.
  - apply IPAddr_rd.
  - apply IPAddr_safe.
  - zero_ok IPAddr_ok.
Qed.

(** ** TCPAddr *)
Record TCPAddr := mkTCPAddr {
  TCPAddr_Zone : list Z;
  TCPAddr_IP : list Z;
  TCPAddr_Port : Z;
}.

Definition TCPAddr_zero : TCPAddr :=
  mkTCPAddr [] [] 0.

#[export] Instance TCPAddr_settable : Settable TCPAddr :=
  settable! mkTCPAddr <TCPAddr_Zone; TCPAddr_IP; TCPAddr_Port>.

Definition TCPAddr_SizeProto (m : TCPAddr) : Z :=
  (if 0 <? len (TCPAddr_IP m) then sizeLen 1 (len (TCPAddr_IP m)) else 0) +
  (if negb (TCPAddr_Port m =? 0) then 1 + sov (u64 (TCPAddr_Port m)) else 0) +
  (if 0 <? len (TCPAddr_Zone m) then sizeLen 1 (len (TCPAddr_Zone m)) else 0).

Definition TCPAddr_MarshalProto (m : TCPAddr) : list Z -> res (Z * list Z) :=
  runW (
    wWhen (0 <? len (TCPAddr_IP m)) (wLen (wByte 0xa) (TCPAddr_IP m)) >;>
    wWhen (negb (TCPAddr_Port m =? 0)) (wInt (wByte 0x10) (TCPAddr_Port m)) >;>
    wWhen (0 <? len (TCPAddr_Zone m)) (wLen (wByte 0x1a) (TCPAddr_Zone m))).

Definition TCPAddr_step (fieldNum wireType : Z) (buf : list Z) (pos : Z) (m : TCPAddr) :
  res (TCPAddr * Z) :=
  match fieldNum with
  | 1 => let* (b, pos) := readLen "IP" wireType buf pos in
      Ok (m <| TCPAddr_IP := setBytes b (TCPAddr_IP m) |>, pos)
  | 2 => let* (num, pos) := readVarint "Port" wireType buf pos in
      Ok (m <| TCPAddr_Port := i64 num |>, pos)
  | 3 => let* (b, pos) := readLen "Zone" wireType buf pos in
      Ok (m <| TCPAddr_Zone := b |>, pos)
  | _ => skipField wireType buf pos m
  end.

Definition TCPAddr_wire (m : TCPAddr) : list Z :=
  fWhen (0 <? len (TCPAddr_Zone m)) (fLen 3 (TCPAddr_Zone m)) ++
  fWhen (negb (TCPAddr_Port m =? 0)) (fInt 2 (TCPAddr_Port m)) ++
  fWhen (0 <? len (TCPAddr_IP m)) (fLen 1 (TCPAddr_IP m)).

Definition TCPAddr_ok (strict : bool) (m : TCPAddr) : Prop :=
  bytes (TCPAddr_Zone m) /\
  bytes (TCPAddr_IP m) /\
  is_i64 (TCPAddr_Port m).

#[export] Instance TCPAddr_codec : Codec TCPAddr :=
  { zero := TCPAddr_zero;
    SizeProto := TCPAddr_SizeProto;
    MarshalProto := TCPAddr_MarshalProto;
    UnmarshalProto := unmarshalFields TCPAddr_step;
    wire := TCPAddr_wire;
    wellFormed := TCPAddr_ok }.

Lemma TCPAddr_enc strict m :
  TCPAddr_ok strict m -> Encodes (TCPAddr_MarshalProto m) (TCPAddr_SizeProto m) (TCPAddr_wire m).
Proof. enc_message strict TCPAddr_ok. Qed.

Lemma TCPAddr_rd m :
  TCPAddr_ok true m -> Rd TCPAddr_step (TCPAddr_wire m) TCPAddr_zero m.
Proof.
  rd_message m TCPAddr_ok TCPAddr_wire.
  rd_string 3 "Zone" TCPAddr_Zone.
  rd_int i64 i64_u64 2 "Port" TCPAddr_Port.
  rd_bytes 1 "IP" TCPAddr_IP.
Qed.

Lemma TCPAddr_safe : SafeStep TCPAddr_step (TCPAddr_ok false).
Proof. safe_message TCPAddr_step TCPAddr_ok. Qed.

#[export] Instance TCPAddr_laws : CodecLaws TCPAddr.
Proof.
  apply (fields_laws TCPAddr_step); [done| | | |].
  - apply TCPAddr_enc.
  - apply TCPAddr_rd.
  - apply TCPAddr_safe.
  - zero_ok TCPAddr_ok.
Qed.

(** ** UDPAddr *)
Record UDPAddr := mkUDPAddr {
  UDPAddr_Zone : list Z;
  UDPAddr_IP : list Z;
  UDPAddr_Port : Z;
}.

Definition UDPAddr_zero : UDPAddr :=
  mkUDPAddr [] [] 0.

#[export] Instance UDPAddr_settable : Settable UDPAddr :=
  settable! mkUDPAddr <UDPAddr_Zone; UDPAddr_IP; UDPAddr_Port>.

Definition UDPAddr_SizeProto (m : UDPAddr) : Z :=
  (if 0 <? len (UDPAddr_IP m) then sizeLen 1 (len (UDPAddr_IP m)) else 0) +
  (if negb (UDPAddr_Port m =? 0) then 1 + sov (u64 (UDPAddr_Port m)) else 0) +
  (if 0 <? len (UDPAddr_Zone m) then sizeLen 1 (len (UDPAddr_Zone m)) else 0).

Definition UDPAddr_MarshalProto (m : UDPAddr) : list Z -> res (Z * list Z) :=
  runW (
    wWhen (0 <? len (UDPAddr_IP m)) (wLen (wByte 0xa) (UDPAddr_IP m)) >;>
    wWhen (negb (UDPAddr_Port m =? 0)) (wInt (wByte 0x10) (UDPAddr_Port m)) >;>
    wWhen (0 <? len (UDPAddr_Zone m)) (wLen (wByte 0x1a) (UDPAddr_Zone m))).

Definition UDPAddr_step (fieldNum wireType : Z) (buf : list Z) (pos : Z) (m : UDPAddr) :
  res (UDPAddr * Z) :=
  match fieldNum with
  | 1 => let* (b, pos) := readLen "IP" wireType buf pos in
      Ok (m <| UDPAddr_IP := setBytes b (UDPAddr_IP m) |>, pos)
  | 2 => let* (num, pos) := readVarint "Port" wireType buf pos in
      Ok (m <| UDPAddr_Port := i64 num |>, pos)
  | 3 => let* (b, pos) := readLen "Zone" wireType buf pos in
      Ok (m <| UDPAddr_Zone := b |>, pos)
  | _ => skipField wireType buf pos m
  end.

Definition UDPAddr_wire (m : UDPAddr) : list Z :=
  fWhen (0 <? len (UDPAddr_Zone m)) (fLen 3 (UDPAddr_Zone m)) ++
  fWhen (negb (UDPAddr_Port m =? 0)) (fInt 2 (UDPAddr_Port m)) ++
  fWhen (0 <? len (UDPAddr_IP m)) (fLen 1 (UDPAddr_IP m)).

Definition UDPAddr_ok (strict : bool) (m : UDPAddr) : Prop :=
  bytes (UDPAddr_Zone m) /\
  bytes (UDPAddr_IP m) /\
  is_i64 (UDPAddr_Port m).

#[export] Instance UDPAddr_codec : Codec UDPAddr :=
  { zero := UDPAddr_zero;
    SizeProto := UDPAddr_SizeProto;
    MarshalProto := UDPAddr_MarshalProto;
    UnmarshalProto := unmarshalFields UDPAddr_step;
    wire := UDPAddr_wire;
    wellFormed := UDPAddr_ok }.

Lemma UDPAddr_enc strict m :
  UDPAddr_ok strict m -> Encodes (UDPAddr_MarshalProto m) (UDPAddr_SizeProto m) (UDPAddr_wire m).
Proof. enc_message strict UDPAddr_ok. Qed.

Lemma UDPAddr_rd m :
  UDPAddr_ok true m -> Rd UDPAddr_step (UDPAddr_wire m) UDPAddr_zero m.
Proof.
  rd_message m UDPAddr_ok UDPAddr_wire.
  rd_string 3 "Zone" UDPAddr_Zone.
  rd_int i64 i64_u64 2 "Port" UDPAddr_Port.
  rd_bytes 1 "IP" UDPAddr_IP.
Qed.

Lemma UDPAddr_safe : SafeStep UDPAddr_step (UDPAddr_ok false).
Proof. safe_message UDPAddr_step UDPAddr_ok. Qed.

#[export] Instance UDPAddr_laws : CodecLaws UDPAddr.
Proof.
  apply (fields_laws UDPAddr_step); [done| | | |].
  - apply UDPAddr_enc.
  - apply UDPAddr_rd.
  - apply UDPAddr_safe.
  - zero_ok UDPAddr_ok.
Qed.

(** ** UnixAddr *)
Record UnixAddr := mkUnixAddr {
  UnixAddr_Name : list Z;
  UnixAddr_Net : list Z;
}.

Definition UnixAddr_zero : UnixAddr :=
  mkUnixAddr [] [].

#[export] Instance UnixAddr_settable : Settable UnixAddr :=
  settable! mkUnixAddr <UnixAddr_Name; UnixAddr_Net>.

Definition UnixAddr_SizeProto (m : UnixAddr) : Z :=
  (if 0 <? len (UnixAddr_Name m) then sizeLen 1 (len (UnixAddr_Name m)) else 0) +
  (if 0 <? len (UnixAddr_Net m) then sizeLen 1 (len (UnixAddr_Net m)) else 0).

Definition UnixAddr_MarshalProto (m : UnixAddr) : list Z -> res (Z * list Z) :=
  runW (
    wWhen (0 <? len (UnixAddr_Name m)) (wLen (wByte 0xa) (UnixAddr_Name m)) >;>
    wWhen (0 <? len (UnixAddr_Net m)) (wLen (wByte 0x12) (UnixAddr_Net m))).

Definition UnixAddr_step (fieldNum wireType : Z) (buf : list Z) (pos : Z) (m : UnixAddr) :
  res (UnixAddr * Z) :=
  match fieldNum with
  | 1 => let* (b, pos) := readLen "Name" wireType buf pos in
      Ok (m <| UnixAddr_Name := b |>, pos)
  | 2 => let* (b, pos) := readLen "Net" wireType buf pos in
      Ok (m <| UnixAddr_Net := b |>, pos)
  | _ => skipField wireType buf pos m
  end.

Definition UnixAddr_wire (m : UnixAddr) : list Z :=
  fWhen (0 <? len (UnixAddr_Net m)) (fLen 2 (UnixAddr_Net m)) ++
  fWhen (0 <? len (UnixAddr_Name m)) (fLen 1 (UnixAddr_Name m)).

Definition UnixAddr_ok (strict : bool) (m : UnixAddr) : Prop :=
  bytes (UnixAddr_Name m) /\
  bytes (UnixAddr_Net m).

#[export] Instance UnixAddr_codec : Codec UnixAddr :=
  { zero := UnixAddr_zero;
    SizeProto := UnixAddr_SizeProto;
    MarshalProto := UnixAddr_MarshalProto;
    UnmarshalProto := unmarshalFields UnixAddr_step;
    wire := UnixAddr_wire;
    wellFormed := UnixAddr_ok }.

Lemma UnixAddr_enc strict m :
  UnixAddr_ok strict m -> Encodes (UnixAddr_MarshalProto m) (UnixAddr_SizeProto m) (UnixAddr_wire m).
Proof. enc_message strict UnixAddr_ok. Qed.

Lemma UnixAddr_rd m :
  UnixAddr_ok true m -> Rd UnixAddr_step (UnixAddr_wire m) UnixAddr_zero m.
Proof.
  rd_message m UnixAddr_ok UnixAddr_wire.
  rd_string 2 "Net" UnixAddr_Net.
  rd_string 1 "Name" UnixAddr_Name.
Qed.

Lemma UnixAddr_safe : SafeStep UnixAddr_step (UnixAddr_ok false).
Proof. safe_message UnixAddr_step UnixAddr_ok. Qed.

#[export] Instance UnixAddr_laws : CodecLaws UnixAddr.
Proof.
  apply (fields_laws UnixAddr_step); [done| | | |].
  - apply UnixAddr_enc.
  - apply UnixAddr_rd.
  - apply UnixAddr_safe.
  - zero_ok UnixAddr_ok.
Qed.

(** ** RequestContext *)
Inductive RequestContext_oneofClientAddress :=
  | RequestContext_noClientAddress
  | RequestContext_IP (IP : option IPAddr)
  | RequestContext_TCP (TCP : option TCPAddr)
  | RequestContext_UDP (UDP : option UDPAddr)
  | RequestContext_Unix (Unix : option UnixAddr).

Record RequestContext := mkRequestContext {
  RequestContext_ClientAddress : RequestContext_oneofClientAddress;
  RequestContext_SpanContext : option SpanContext;
  RequestContext_ClientMetadata : list KeyValue;
}.

Definition RequestContext_zero : RequestContext :=
  mkRequestContext RequestContext_noClientAddress None [].

#[export] Instance RequestContext_settable : Settable RequestContext :=
  settable! mkRequestContext <RequestContext_ClientAddress; RequestContext_SpanContext;
    RequestContext_ClientMetadata>.

Definition RequestContext_ClientAddress_SizeProto (v : RequestContext_oneofClientAddress) : Z :=
  match v with
  | RequestContext_noClientAddress => 0
  | RequestContext_IP x => sizePtr 1 x
  | RequestContext_TCP x => sizePtr 1 x
  | RequestContext_UDP x => sizePtr 1 x
  | RequestContext_Unix x => sizePtr 1 x
  end.
Definition RequestContext_ClientAddress_fields (v : RequestContext_oneofClientAddress) : W :=
  match v with
  | RequestContext_noClientAddress => wSkip
  | RequestContext_IP x => wPtr (wByte 0x1a) x
  | RequestContext_TCP x => wPtr (wByte 0x22) x
  | RequestContext_UDP x => wPtr (wByte 0x2a) x
  | RequestContext_Unix x => wPtr (wByte 0x32) x
  end.
Definition RequestContext_ClientAddress_wire (v : RequestContext_oneofClientAddress) : list Z :=
  match v with
  | RequestContext_noClientAddress => []
  | RequestContext_IP x => fPtr 3 x
  | RequestContext_TCP x => fPtr 4 x
  | RequestContext_UDP x => fPtr 5 x
  | RequestContext_Unix x => fPtr 6 x
  end.
Definition RequestContext_ClientAddress_ok (strict : bool) (v : RequestContext_oneofClientAddress) : Prop :=
  match v with
  | RequestContext_noClientAddress => True
  | RequestContext_IP x => ptrSet strict x
  | RequestContext_TCP x => ptrSet strict x
  | RequestContext_UDP x => ptrSet strict x
  | RequestContext_Unix x => ptrSet strict x
  end.

Definition RequestContext_SizeProto (m : RequestContext) : Z :=
  sizePtr 1 (RequestContext_SpanContext m) +
  sizeRepeated (fun x => sizeLen 1 (SizeProto x)) (RequestContext_ClientMetadata m) +
  RequestContext_ClientAddress_SizeProto (RequestContext_ClientAddress m).

Definition RequestContext_MarshalProto (m : RequestContext) : list Z -> res (Z * list Z) :=
  runW (
    wPtr (wByte 0xa) (RequestContext_SpanContext m) >;>
    wRepeated (fun x => wMsg (wByte 0x12) (MarshalProto x)) (RequestContext_ClientMetadata m) >;>
    RequestContext_ClientAddress_fields (RequestContext_ClientAddress m)).

Definition RequestContext_step (fieldNum wireType : Z) (buf : list Z) (pos : Z) (m : RequestContext) :
  res (RequestContext * Z) :=
  match fieldNum with
  | 1 => let* (b, pos) := readLen "SpanContext" wireType buf pos in
      let* v := UnmarshalProto b zero in
      Ok (m <| RequestContext_SpanContext := (Some v) |>, pos)
  | 2 => let* (b, pos) := readLen "ClientMetadata" wireType buf pos in
      let* v := UnmarshalProto b zero in
      Ok (m <| RequestContext_ClientMetadata := RequestContext_ClientMetadata m ++ [v] |>, pos)
  | 3 => let* (b, pos) := readLen "IP" wireType buf pos in
      let* ov := UnmarshalProto b zero in
      Ok (m <| RequestContext_ClientAddress := RequestContext_IP (Some ov) |>, pos)
  | 4 => let* (b, pos) := readLen "TCP" wireType buf pos in
      let* ov := UnmarshalProto b zero in
      Ok (m <| RequestContext_ClientAddress := RequestContext_TCP (Some ov) |>, pos)
  | 5 => let* (b, pos) := readLen "UDP" wireType buf pos in
      let* ov := UnmarshalProto b zero in
      Ok (m <| RequestContext_ClientAddress := RequestContext_UDP (Some ov) |>, pos)
  | 6 => let* (b, pos) := readLen "Unix" wireType buf pos in
      let* ov := UnmarshalProto b zero in
      Ok (m <| RequestContext_ClientAddress := RequestContext_Unix (Some ov) |>, pos)
  | _ => skipField wireType buf pos m
  end.

Definition RequestContext_wire (m : RequestContext) : list Z :=
  RequestContext_ClientAddress_wire (RequestContext_ClientAddress m) ++
  fRepeated (fun x => fLen 2 (wire x)) (RequestContext_ClientMetadata m) ++
  fPtr 1 (RequestContext_SpanContext m).

Definition RequestContext_ok (strict : bool) (m : RequestContext) : Prop :=
  RequestContext_ClientAddress_ok strict (RequestContext_ClientAddress m) /\
  ptrOk strict (RequestContext_SpanContext m) /\
  Forall (wellFormed strict) (RequestContext_ClientMetadata m).

#[export] Instance RequestContext_codec : Codec RequestContext :=
  { zero := RequestContext_zero;
    SizeProto := RequestContext_SizeProto;
    MarshalProto := RequestContext_MarshalProto;
    UnmarshalProto := unmarshalFields RequestContext_step;
    wire := RequestContext_wire;
    wellFormed := RequestContext_ok }.

Lemma RequestContext_ClientAddress_enc strict v :
  RequestContext_ClientAddress_ok strict v -> Enc (RequestContext_ClientAddress_fields v)
    (RequestContext_ClientAddress_SizeProto v) (RequestContext_ClientAddress_wire v).
Proof.
  destruct v; cbn; intros Hv; [apply Enc_skip|..]; try (apply ptrSet_ok in Hv); enc_field strict.
Qed.
#[local] Hint Resolve RequestContext_ClientAddress_enc : oneofs.

Lemma RequestContext_ClientAddress_rd m v :
  RequestContext_ClientAddress_ok true v -> RequestContext_ClientAddress m = RequestContext_noClientAddress -> Rd
    RequestContext_step (RequestContext_ClientAddress_wire v) m (m <| RequestContext_ClientAddress := v |>).
Proof.
  intros Hv Hm. destruct v; cbn in Hv.
  - destruct m. cbn in Hm. subst. apply Rd_nil.
  - rd_some 3 "IP" (fun v => m <| RequestContext_ClientAddress := RequestContext_IP (Some v) |>).
  - rd_some 4 "TCP" (fun v => m <| RequestContext_ClientAddress := RequestContext_TCP (Some v) |>).
  - rd_some 5 "UDP" (fun v => m <| RequestContext_ClientAddress := RequestContext_UDP (Some v) |>).
  - rd_some 6 "Unix" (fun v => m <| RequestContext_ClientAddress := RequestContext_Unix (Some v) |>).
Qed.

Lemma RequestContext_enc strict m :
  RequestContext_ok strict m -> Encodes (RequestContext_MarshalProto m) (RequestContext_SizeProto m)
    (RequestContext_wire m).
Proof. enc_message strict RequestContext_ok. Qed.

Lemma RequestContext_rd m :
  RequestContext_ok true m -> Rd RequestContext_step (RequestContext_wire m) RequestContext_zero m.
Proof.
  rd_message m RequestContext_ok RequestContext_wire.
  rd_oneof RequestContext_ClientAddress_rd RequestContext_ClientAddress.
  rd_msgs 2 "ClientMetadata" RequestContext_ClientMetadata.
  rd_ptr 1 "SpanContext" RequestContext_SpanContext.
Qed.

Lemma RequestContext_safe : SafeStep RequestContext_step (RequestContext_ok false).
Proof. safe_message RequestContext_step RequestContext_ok. Qed.

#[export] Instance RequestContext_laws : CodecLaws RequestContext.
Proof.
  apply (fields_laws RequestContext_step); [done| | | |].
  - apply RequestContext_enc.
  - apply RequestContext_rd.
  - apply RequestContext_safe.
  - zero_ok RequestContext_ok.
Qed.

(** ** LogsData *)
Record LogsData := mkLogsData {
  LogsData_ResourceLogs : list ResourceLogs;
}.

Definition LogsData_zero : LogsData :=
  mkLogsData [].

#[export] Instance LogsData_settable : Settable LogsData :=
  settable! mkLogsData <LogsData_ResourceLogs>.

Definition LogsData_SizeProto (m : LogsData) : Z :=
  sizeRepeated (fun x => sizeLen 1 (SizeProto x)) (LogsData_ResourceLogs m).

Definition LogsData_MarshalProto (m : LogsData) : list Z -> res (Z * list Z) :=
  runW (
    wRepeated (fun x => wMsg (wByte 0xa) (MarshalProto x)) (LogsData_ResourceLogs m)).

Definition LogsData_step (fieldNum wireType : Z) (buf : list Z) (pos : Z) (m : LogsData) :
  res (LogsData * Z) :=
  match fieldNum with
  | 1 => let* (b, pos) := readLen "ResourceLogs" wireType buf pos in
      let* v := UnmarshalProto b zero in
      Ok (m <| LogsData_ResourceLogs := LogsData_ResourceLogs m ++ [v] |>, pos)
  | _ => skipField wireType buf pos m
  end.

Definition LogsData_wire (m : LogsData) : list Z :=
  fRepeated (fun x => fLen 1 (wire x)) (LogsData_ResourceLogs m).

Definition LogsData_ok (strict : bool) (m : LogsData) : Prop :=
  Forall (wellFormed strict) (LogsData_ResourceLogs m).

#[export] Instance LogsData_codec : Codec LogsData :=
  { zero := LogsData_zero;
    SizeProto := LogsData_SizeProto;
    MarshalProto := LogsData_MarshalProto;
    UnmarshalProto := unmarshalFields LogsData_step;
    wire := LogsData_wire;
    wellFormed := LogsData_ok }.

Lemma LogsData_enc strict m :
  LogsData_ok strict m -> Encodes (LogsData_MarshalProto m) (LogsData_SizeProto m) (LogsData_wire m).
Proof. enc_message strict LogsData_ok. Qed.

Lemma LogsData_rd m :
  LogsData_ok true m -> Rd LogsData_step (LogsData_wire m) LogsData_zero m.
Proof.
  rd_message m LogsData_ok LogsData_wire.
  rd_msgs 1 "ResourceLogs" LogsData_ResourceLogs.
Qed.

Lemma LogsData_safe : SafeStep LogsData_step (LogsData_ok false).
Proof. safe_message LogsData_step LogsData_ok. Qed.

#[export] Instance LogsData_laws : CodecLaws LogsData.
Proof.
  apply (fields_laws LogsData_step); [done| | | |].
  - apply LogsData_enc.
  - apply LogsData_rd.
  - apply LogsData_safe.
  - zero_ok LogsData_ok.
Qed.

(** ** TracesData *)
Record TracesData := mkTracesData {
  TracesData_ResourceSpans : list ResourceSpans;
}.

Definition TracesData_zero : TracesData :=
  mkTracesData [].

#[export] Instance TracesData_settable : Settable TracesData :=
  settable! mkTracesData <TracesData_ResourceSpans>.

Definition TracesData_SizeProto (m : TracesData) : Z :=
  sizeRepeated (fun x => sizeLen 1 (SizeProto x)) (TracesData_ResourceSpans m).

Definition TracesData_MarshalProto (m : TracesData) : list Z -> res (Z * list Z) :=
  runW (
    wRepeated (fun x => wMsg (wByte 0xa) (MarshalProto x)) (TracesData_ResourceSpans m)).

Definition TracesData_step (fieldNum wireType : Z) (buf : list Z) (pos : Z) (m : TracesData) :
  res (TracesData * Z) :=
  match fieldNum with
  | 1 => let* (b, pos) := readLen "ResourceSpans" wireType buf pos in
      let* v := UnmarshalProto b zero in
      Ok (m <| TracesData_ResourceSpans := TracesData_ResourceSpans m ++ [v] |>, pos)
  | _ => skipField wireType buf pos m
  end.

Definition TracesData_wire (m : TracesData) : list Z :=
  fRepeated (fun x => fLen 1 (wire x)) (TracesData_ResourceSpans m).

Definition TracesData_ok (strict : bool) (m : TracesData) : Prop :=
  Forall (wellFormed strict) (TracesData_ResourceSpans m).

#[export] Instance TracesData_codec : Codec TracesData :=
  { zero := TracesData_zero;
    SizeProto := TracesData_SizeProto;
    MarshalProto := TracesData_MarshalProto;
    UnmarshalProto := unmarshalFields TracesData_step;
    wire := TracesData_wire;
    wellFormed := TracesData_ok }.

Lemma TracesData_enc strict m :
  TracesData_ok strict m -> Encodes (TracesData_MarshalProto m) (TracesData_SizeProto m) (TracesData_wire m).
Proof. enc_message strict TracesData_ok. Qed.

Lemma TracesData_rd m :
  TracesData_ok true m -> Rd TracesData_step (TracesData_wire m) TracesData_zero m.
Proof.
  rd_message m TracesData_ok TracesData_wire.
  rd_msgs 1 "ResourceSpans" TracesData_ResourceSpans.
Qed.

Lemma TracesData_safe : SafeStep TracesData_step (TracesData_ok false).
Proof. safe_message TracesData_step TracesData_ok. Qed.

#[export] Instance TracesData_laws : CodecLaws TracesData.
Proof.
  apply (fields_laws TracesData_step); [done| | | |].
  - apply TracesData_enc.
  - apply TracesData_rd.
  - apply TracesData_safe.
  - zero_ok TracesData_ok.
Qed.

(** ** MetricsData *)
Record MetricsData := mkMetricsData {
  MetricsData_ResourceMetrics : list ResourceMetrics;
}.

Definition MetricsData_zero : MetricsData :=
  mkMetricsData [].

#[export] Instance MetricsData_settable : Settable MetricsData :=
  settable! mkMetricsData <MetricsData_ResourceMetrics>.

Definition MetricsData_SizeProto (m : MetricsData) : Z :=
  sizeRepeated (fun x => sizeLen 1 (SizeProto x)) (MetricsData_ResourceMetrics m).

Definition MetricsData_MarshalProto (m : MetricsData) : list Z -> res (Z * list Z) :=
  runW (
    wRepeated (fun x => wMsg (wByte 0xa) (MarshalProto x)) (MetricsData_ResourceMetrics m)).

Definition MetricsData_step (fieldNum wireType : Z) (buf : list Z) (pos : Z) (m : MetricsData) :
  res (MetricsData * Z) :=
  match fieldNum with
  | 1 => let* (b, pos) := readLen "ResourceMetrics" wireType buf pos in
      let* v := UnmarshalProto b zero in
      Ok (m <| MetricsData_ResourceMetrics := MetricsData_ResourceMetrics m ++ [v] |>, pos)
  | _ => skipField wireType buf pos m
  end.

Definition MetricsData_wire (m : MetricsData) : list Z :=
  fRepeated (fun x => fLen 1 (wire x)) (MetricsData_ResourceMetrics m).

Definition MetricsData_ok (strict : bool) (m : MetricsData) : Prop :=
  Forall (wellFormed strict) (MetricsData_ResourceMetrics m).

#[export] Instance MetricsData_codec : Codec MetricsData :=
  { zero := MetricsData_zero;
    SizeProto := MetricsData_SizeProto;
    MarshalProto := MetricsData_MarshalProto;
    UnmarshalProto := unmarshalFields MetricsData_step;
    wire := MetricsData_wire;
    wellFormed := MetricsData_ok }.

Lemma MetricsData_enc strict m :
  MetricsData_ok strict m -> Encodes (MetricsData_MarshalProto m) (MetricsData_SizeProto m) (MetricsData_wire m).
Proof. enc_message strict MetricsData_ok. Qed.

Lemma MetricsData_rd m :
  MetricsData_ok true m -> Rd MetricsData_step (MetricsData_wire m) MetricsData_zero m.
Proof.
  rd_message m MetricsData_ok MetricsData_wire.
  rd_msgs 1 "ResourceMetrics" MetricsData_ResourceMetrics.
Qed.

Lemma MetricsData_safe : SafeStep MetricsData_step (MetricsData_ok false).
Proof. safe_message MetricsData_step MetricsData_ok. Qed.

#[export] Instance MetricsData_laws : CodecLaws MetricsData.
Proof.
  apply (fields_laws MetricsData_step); [done| | | |].
  - apply MetricsData_enc.
  - apply MetricsData_rd.
  - apply MetricsData_safe.
  - zero_ok MetricsData_ok.
Qed.

(** ** LogsRequest *)
Record LogsRequest := mkLogsRequest {
  LogsRequest_RequestContext : option RequestContext;
  LogsRequest_LogsData : LogsData;
  LogsRequest_FormatVersion : Z;
}.

Definition LogsRequest_zero : LogsRequest :=
  mkLogsRequest None zero 0.

#[export] Instance LogsRequest_settable : Settable LogsRequest :=
  settable! mkLogsRequest <LogsRequest_RequestContext; LogsRequest_LogsData; LogsRequest_FormatVersion>.

Definition LogsRequest_SizeProto (m : LogsRequest) : Z :=
  sizePtr 1 (LogsRequest_RequestContext m) +
  sizeLen 1 (SizeProto (LogsRequest_LogsData m)) +
  (if negb (LogsRequest_FormatVersion m =? 0) then 5 else 0).

Definition LogsRequest_MarshalProto (m : LogsRequest) : list Z -> res (Z * list Z) :=
  runW (
    wPtr (wByte 0x12) (LogsRequest_RequestContext m) >;>
    wMsg (wByte 0x1a) (MarshalProto (LogsRequest_LogsData m)) >;>
    wWhen (negb (LogsRequest_FormatVersion m =? 0)) (wI32 (wByte 0xd) (LogsRequest_FormatVersion m))).

Definition LogsRequest_step (fieldNum wireType : Z) (buf : list Z) (pos : Z) (m : LogsRequest) :
  res (LogsRequest * Z) :=
  match fieldNum with
  | 2 => let* (b, pos) := readLen "RequestContext" wireType buf pos in
      let* v := UnmarshalProto b zero in
      Ok (m <| LogsRequest_RequestContext := (Some v) |>, pos)
  | 3 => let* (b, pos) := readLen "LogsData" wireType buf pos in
      let* v := UnmarshalProto b (LogsRequest_LogsData m) in
      Ok (m <| LogsRequest_LogsData := v |>, pos)
  | 1 => let* (num, pos) := readI32 "FormatVersion" wireType buf pos in
      Ok (m <| LogsRequest_FormatVersion := num |>, pos)
  | _ => skipField wireType buf pos m
  end.

Definition LogsRequest_wire (m : LogsRequest) : list Z :=
  fWhen (negb (LogsRequest_FormatVersion m =? 0)) (fI32 1 (LogsRequest_FormatVersion m)) ++
  fLen 3 (wire (LogsRequest_LogsData m)) ++
  fPtr 2 (LogsRequest_RequestContext m).

Definition LogsRequest_ok (strict : bool) (m : LogsRequest) : Prop :=
  ptrOk strict (LogsRequest_RequestContext m) /\
  wellFormed strict (LogsRequest_LogsData m) /\
  is_u32 (LogsRequest_FormatVersion m).

#[export] Instance LogsRequest_codec : Codec LogsRequest :=
  { zero := LogsRequest_zero;
    SizeProto := LogsRequest_SizeProto;
    MarshalProto := LogsRequest_MarshalProto;
    UnmarshalProto := unmarshalFields LogsRequest_step;
    wire := LogsRequest_wire;
    wellFormed := LogsRequest_ok }.

Lemma LogsRequest_enc strict m :
  LogsRequest_ok strict m -> Encodes (LogsRequest_MarshalProto m) (LogsRequest_SizeProto m) (LogsRequest_wire m).
Proof. enc_message strict LogsRequest_ok. Qed.

Lemma LogsRequest_rd m :
  LogsRequest_ok true m -> Rd LogsRequest_step (LogsRequest_wire m) LogsRequest_zero m.
Proof.
  rd_message m LogsRequest_ok LogsRequest_wire.
  rd_i32 1 "FormatVersion" LogsRequest_FormatVersion.
  rd_msg 3 "LogsData" LogsRequest_LogsData.
  rd_ptr 2 "RequestContext" LogsRequest_RequestContext.
Qed.

Lemma LogsRequest_safe : SafeStep LogsRequest_step (LogsRequest_ok false).
Proof. safe_message LogsRequest_step LogsRequest_ok. Qed.

#[export] Instance LogsRequest_laws : CodecLaws LogsRequest.
Proof.
  apply (fields_laws LogsRequest_step); [done| | | |].
  - apply LogsRequest_enc.
  - apply LogsRequest_rd.
  - apply LogsRequest_safe.
  - zero_ok LogsRequest_ok.
Qed.

(** ** TracesRequest *)
Record TracesRequest := mkTracesRequest {
  TracesRequest_RequestContext : option RequestContext;
  TracesRequest_TracesData : TracesData;
  TracesRequest_FormatVersion : Z;
}.

Definition TracesRequest_zero : TracesRequest :=
  mkTracesRequest None zero 0.

#[export] Instance TracesRequest_settable : Settable TracesRequest :=
  settable! mkTracesRequest <TracesRequest_RequestContext; TracesRequest_TracesData; TracesRequest_FormatVersion>.

Definition TracesRequest_SizeProto (m : TracesRequest) : Z :=
  sizePtr 1 (TracesRequest_RequestContext m) +
  sizeLen 1 (SizeProto (TracesRequest_TracesData m)) +
  (if negb (TracesRequest_FormatVersion m =? 0) then 5 else 0).

Definition TracesRequest_MarshalProto (m : TracesRequest) : list Z -> res (Z * list Z) :=
  runW (
    wPtr (wByte 0x12) (TracesRequest_RequestContext m) >;>
    wMsg (wByte 0x1a) (MarshalProto (TracesRequest_TracesData m)) >;>
    wWhen (negb (TracesRequest_FormatVersion m =? 0)) (wI32 (wByte 0xd) (TracesRequest_FormatVersion m))).

Definition TracesRequest_step (fieldNum wireType : Z) (buf : list Z) (pos : Z) (m : TracesRequest) :
  res (TracesRequest * Z) :=
  match fieldNum with
  | 2 => let* (b, pos) := readLen "RequestContext" wireType buf pos in
      let* v := UnmarshalProto b zero in
      Ok (m <| TracesRequest_RequestContext := (Some v) |>, pos)
  | 3 => let* (b, pos) := readLen "TracesData" wireType buf pos in
      let* v := UnmarshalProto b (TracesRequest_TracesData m) in
      Ok (m <| TracesRequest_TracesData := v |>, pos)
  | 1 => let* (num, pos) := readI32 "FormatVersion" wireType buf pos in
      Ok (m <| TracesRequest_FormatVersion := num |>, pos)
  | _ => skipField wireType buf pos m
  end.

Definition TracesRequest_wire (m : TracesRequest) : list Z :=
  fWhen (negb (TracesRequest_FormatVersion m =? 0)) (fI32 1 (TracesRequest_FormatVersion m)) ++
  fLen 3 (wire (TracesRequest_TracesData m)) ++
  fPtr 2 (TracesRequest_RequestContext m).

Definition TracesRequest_ok (strict : bool) (m : TracesRequest) : Prop :=
  ptrOk strict (TracesRequest_RequestContext m) /\
  wellFormed strict (TracesRequest_TracesData m) /\
  is_u32 (TracesRequest_FormatVersion m).

#[export] Instance TracesRequest_codec : Codec TracesRequest :=
  { zero := TracesRequest_zero;
    SizeProto := TracesRequest_SizeProto;
    MarshalProto := TracesRequest_MarshalProto;
    UnmarshalProto := unmarshalFields TracesRequest_step;
    wire := TracesRequest_wire;
    wellFormed := TracesRequest_ok }.

Lemma TracesRequest_enc strict m :
  TracesRequest_ok strict m -> Encodes (TracesRequest_MarshalProto m) (TracesRequest_SizeProto m)
    (TracesRequest_wire m).
Proof. enc_message strict TracesRequest_ok. Qed.

Lemma TracesRequest_rd m :
  TracesRequest_ok true m -> Rd TracesRequest_step (TracesRequest_wire m) TracesRequest_zero m.
Proof.
  rd_message m TracesRequest_ok TracesRequest_wire.
  rd_i32 1 "FormatVersion" TracesRequest_FormatVersion.
  rd_msg 3 "TracesData" TracesRequest_TracesData.
  rd_ptr 2 "RequestContext" TracesRequest_RequestContext.
Qed.

Lemma TracesRequest_safe : SafeStep TracesRequest_step (TracesRequest_ok false).
Proof. safe_message TracesRequest_step TracesRequest_ok. Qed.

#[export] Instance TracesRequest_laws : CodecLaws TracesRequest.
Proof.
  apply (fields_laws TracesRequest_step); [done| | | |].
  - apply TracesRequest_enc.
  - apply TracesRequest_rd.
  - apply TracesRequest_safe.
  - zero_ok TracesRequest_ok.
Qed.

(** ** MetricsRequest *)
Record MetricsRequest := mkMetricsRequest {
  MetricsRequest_RequestContext : option RequestContext;
  MetricsRequest_MetricsData : MetricsData;
  MetricsRequest_FormatVersion : Z;
}.

Definition MetricsRequest_zero : MetricsRequest :=
  mkMetricsRequest None zero 0.

#[export] Instance MetricsRequest_settable : Settable MetricsRequest :=
  settable! mkMetricsRequest <MetricsRequest_RequestContext; MetricsRequest_MetricsData;
    MetricsRequest_FormatVersion>.

Definition MetricsRequest_SizeProto (m : MetricsRequest) : Z :=
  sizePtr 1 (MetricsRequest_RequestContext m) +
  sizeLen 1 (SizeProto (MetricsRequest_MetricsData m)) +
  (if negb (MetricsRequest_FormatVersion m =? 0) then 5 else 0).

Definition MetricsRequest_MarshalProto (m : MetricsRequest) : list Z -> res (Z * list Z) :=
  runW (
    wPtr (wByte 0x12) (MetricsRequest_RequestContext m) >;>
    wMsg (wByte 0x1a) (MarshalProto (MetricsRequest_MetricsData m)) >;>
    wWhen (negb (MetricsRequest_FormatVersion m =? 0)) (wI32 (wByte 0xd) (MetricsRequest_FormatVersion m))).

Definition MetricsRequest_step (fieldNum wireType : Z) (buf : list Z) (pos : Z) (m : MetricsRequest) :
  res (MetricsRequest * Z) :=
  match fieldNum with
  | 2 => let* (b, pos) := readLen "RequestContext" wireType buf pos in
      let* v := UnmarshalProto b zero in
      Ok (m <| MetricsRequest_RequestContext := (Some v) |>, pos)
  | 3 => let* (b, pos) := readLen "MetricsData" wireType buf pos in
      let* v := UnmarshalProto b (MetricsRequest_MetricsData m) in
      Ok (m <| MetricsRequest_MetricsData := v |>, pos)
  | 1 => let* (num, pos) := readI32 "FormatVersion" wireType buf pos in
      Ok (m <| MetricsRequest_FormatVersion := num |>, pos)
  | _ => skipField wireType buf pos m
  end.

Definition MetricsRequest_wire (m : MetricsRequest) : list Z :=
  fWhen (negb (MetricsRequest_FormatVersion m =? 0)) (fI32 1 (MetricsRequest_FormatVersion m)) ++
  fLen 3 (wire (MetricsRequest_MetricsData m)) ++
  fPtr 2 (MetricsRequest_RequestContext m).

Definition MetricsRequest_ok (strict : bool) (m : MetricsRequest) : Prop :=
  ptrOk strict (MetricsRequest_RequestContext m) /\
  wellFormed strict (MetricsRequest_MetricsData m) /\
  is_u32 (MetricsRequest_FormatVersion m).

#[export] Instance MetricsRequest_codec : Codec MetricsRequest :=
  { zero := MetricsRequest_zero;
    SizeProto := MetricsRequest_SizeProto;
    MarshalProto := MetricsRequest_MarshalProto;
    UnmarshalProto := unmarshalFields MetricsRequest_step;
    wire := MetricsRequest_wire;
    wellFormed := MetricsRequest_ok }.

Lemma MetricsRequest_enc strict m :
  MetricsRequest_ok strict m -> Encodes (MetricsRequest_MarshalProto m) (MetricsRequest_SizeProto m)
    (MetricsRequest_wire m).
Proof. enc_message strict MetricsRequest_ok. Qed.

Lemma MetricsRequest_rd m :
  MetricsRequest_ok true m -> Rd MetricsRequest_step (MetricsRequest_wire m) MetricsRequest_zero m.
Proof.
  rd_message m MetricsRequest_ok MetricsRequest_wire.
  rd_i32 1 "FormatVersion" MetricsRequest_FormatVersion.
  rd_msg 3 "MetricsData" MetricsRequest_MetricsData.
  rd_ptr 2 "RequestContext" MetricsRequest_RequestContext.
Qed.

Lemma MetricsRequest_safe : SafeStep MetricsRequest_step (MetricsRequest_ok false).
Proof. safe_message MetricsRequest_step MetricsRequest_ok. Qed.

#[export] Instance MetricsRequest_laws : CodecLaws MetricsRequest.
Proof.
  apply (fields_laws MetricsRequest_step); [done| | | |].
  - apply MetricsRequest_enc.
  - apply MetricsRequest_rd.
  - apply MetricsRequest_safe.
  - zero_ok MetricsRequest_ok.
Qed.
