(* ===== verification/ProtoApi.v ===== *)
(** * Marshalers and unmarshalers of the signals

    The pb.go files of pdata/plog, ptrace and pmetric; the protobuf methods of the
    requests of plogotlp, ptraceotlp and pmetricotlp, with the migration of the
    deprecated fields of pdata/internal/otlp.

    The theorems are about whole export requests: the bytes written, their
    length, the way back, and what any bytes at all decode to. *)

From S2P Require Import Prelude RecordUpdate Errors Sizers ProtoWire ProtoWireProofs ProtoFields ProtoCommon ProtoCommonProofs ProtoMessage ProtoKinds ProtoIds ProtoResource ProtoLogs ProtoTraces ProtoMetrics.
Local Open Scope Z_scope.
Local Open Scope otel_scope.

(** ** pb.go *)

(** [buf := make([]byte, m.SizeProto()); m.MarshalProto(buf)]. *)
Definition marshalNew {M} `{Codec M} (m : M) : res (list Z) :=
  let* (_, buf) := MarshalProto m (replicate (Z.to_nat (SizeProto m)) 0) in
  Ok buf.

Definition plog_MarshalLogs (ld : ExportLogsServiceRequest) : res (list Z) := marshalNew ld.
Definition plog_LogsSize (ld : ExportLogsServiceRequest) : Z := SizeProto ld.
Definition plog_UnmarshalLogs (buf : list Z) : res ExportLogsServiceRequest := UnmarshalProto buf zero.

Definition ptrace_MarshalTraces (td : ExportTraceServiceRequest) : res (list Z) := marshalNew td.
Definition ptrace_TracesSize (td : ExportTraceServiceRequest) : Z := SizeProto td.
Definition ptrace_UnmarshalTraces (buf : list Z) : res ExportTraceServiceRequest := UnmarshalProto buf zero.

Definition pmetric_MarshalMetrics (md : ExportMetricsServiceRequest) : res (list Z) := marshalNew md.
Definition pmetric_MetricsSize (md : ExportMetricsServiceRequest) : Z := SizeProto md.
Definition pmetric_UnmarshalMetrics (buf : list Z) : res ExportMetricsServiceRequest := UnmarshalProto buf zero.

(** ** pdata/internal/otlp *)
Definition MigrateLogs (rls : list ResourceLogs) : list ResourceLogs :=
  map (fun rl =>
    let rl := if len (ResourceLogs_ScopeLogs rl) =? 0
              then rl <| ResourceLogs_ScopeLogs := ResourceLogs_DeprecatedScopeLogs rl |> else rl in
    rl <| ResourceLogs_DeprecatedScopeLogs := [] |>) rls.

Definition MigrateTraces (rss : list ResourceSpans) : list ResourceSpans :=
  map (fun rs =>
    let rs := if len (ResourceSpans_ScopeSpans rs) =? 0
              then rs <| ResourceSpans_ScopeSpans := ResourceSpans_DeprecatedScopeSpans rs |> else rs in
    rs <| ResourceSpans_DeprecatedScopeSpans := [] |>) rss.

Definition MigrateMetrics (rms : list ResourceMetrics) : list ResourceMetrics :=
  map (fun rm =>
    let rm := if len (ResourceMetrics_ScopeMetrics rm) =? 0
              then rm <| ResourceMetrics_ScopeMetrics := ResourceMetrics_DeprecatedScopeMetrics rm |> else rm in
    rm <| ResourceMetrics_DeprecatedScopeMetrics := [] |>) rms.

(** ** plogotlp, ptraceotlp and pmetricotlp *)
Definition plogotlp_UnmarshalProto (ms : ExportLogsServiceRequest) (data : list Z) : res ExportLogsServiceRequest :=
  let* orig := UnmarshalProto data ms in
  Ok (orig <| ExportLogsServiceRequest_ResourceLogs := MigrateLogs (ExportLogsServiceRequest_ResourceLogs orig) |>).

Definition ptraceotlp_UnmarshalProto (ms : ExportTraceServiceRequest) (data : list Z) : res ExportTraceServiceRequest :=
  let* orig := UnmarshalProto data ms in
  Ok (orig <| ExportTraceServiceRequest_ResourceSpans := MigrateTraces (ExportTraceServiceRequest_ResourceSpans orig) |>).

Definition pmetricotlp_UnmarshalProto (ms : ExportMetricsServiceRequest) (data : list Z) : res ExportMetricsServiceRequest :=
  let* orig := UnmarshalProto data ms in
  Ok (orig <| ExportMetricsServiceRequest_ResourceMetrics := MigrateMetrics (ExportMetricsServiceRequest_ResourceMetrics orig) |>).

(** ** Any message with the laws *)
Section AnyMessage.
Context {M : Type} `{CodecLaws M}.

Lemma marshalNew_wire strict (m : M) : wellFormed strict m -> fits (wire m) ->
  marshalNew m = Ok (wire m) /\ SizeProto m = len (wire m).
Proof.
  intros Hw Hf. pose proof (codec_size _ _ Hw Hf) as Hs. split; [|done]. unfold marshalNew.
  pose proof (codec_marshals _ _ Hw Hf [] (replicate (Z.to_nat (SizeProto m)) 0)) as Hm. cbn [app] in Hm.
  rewrite Hm; [done|]. unfold len at 1. rewrite length_replicate, Hs. pose proof (len_nonneg (wire m)). lia.
Qed.

Lemma marshalNew_back (m : M) : wellFormed true m -> fits (wire m) ->
  exists buf, marshalNew m = Ok buf /\ UnmarshalProto buf zero = Ok m.
Proof. intros Hw Hf. exists (wire m). split; [by eapply marshalNew_wire|by apply codec_roundtrip]. Qed.

Lemma decode_safe buf : bytes buf -> fits buf -> Safe (wellFormed (M := M) false) (UnmarshalProto buf zero).
Proof. intros Hb Hf. apply codec_safe; [done..|apply codec_zero]. Qed.
End AnyMessage.

(** C15: [MarshalLogs], [MarshalTraces] and [MarshalMetrics], of any request whose
    fields have their Go types and whose encoding has a Go length, succeed: they
    index no byte out of the buffer that [SizeProto] sized, fill it exactly with
    the bytes of the wire format, and [LogsSize], [TracesSize] and [MetricsSize]
    give its length. *)
Theorem marshal_exact strict :
  (forall ld, ExportLogsServiceRequest_ok strict ld -> fits (ExportLogsServiceRequest_wire ld) ->
     plog_MarshalLogs ld = Ok (ExportLogsServiceRequest_wire ld) /\ plog_LogsSize ld = len (ExportLogsServiceRequest_wire ld)) /\
  (forall td, ExportTraceServiceRequest_ok strict td -> fits (ExportTraceServiceRequest_wire td) ->
     ptrace_MarshalTraces td = Ok (ExportTraceServiceRequest_wire td) /\ ptrace_TracesSize td = len (ExportTraceServiceRequest_wire td)) /\
  (forall md, ExportMetricsServiceRequest_ok strict md -> fits (ExportMetricsServiceRequest_wire md) ->
     pmetric_MarshalMetrics md = Ok (ExportMetricsServiceRequest_wire md) /\
     pmetric_MetricsSize md = len (ExportMetricsServiceRequest_wire md)).
Proof. split_and!; intros m Hw Hf; exact (marshalNew_wire strict m Hw Hf). Qed.

(** *** Concrete requests *)
Definition sampleResource : Resource :=
  Resource_zero <| Resource_Attributes := [mkKeyValue [107] (AnyValue_StringValue [118]) 0] |>.
Definition sampleLogs : ExportLogsServiceRequest :=
  mkExportLogsServiceRequest
    [ResourceLogs_zero <| ResourceLogs_Resource := sampleResource |>
       <| ResourceLogs_ScopeLogs :=
            [ScopeLogs_zero <| ScopeLogs_LogRecords :=
               [LogRecord_zero <| LogRecord_SeverityNumber := 9 |> <| LogRecord_TimeUnixNano := 1234 |>
                  <| LogRecord_Body := AnyValue_IntValue (-1) |>] |>] |>].
Definition sampleTraces : ExportTraceServiceRequest :=
  mkExportTraceServiceRequest
    [ResourceSpans_zero <| ResourceSpans_Resource := sampleResource |>
       <| ResourceSpans_ScopeSpans :=
            [ScopeSpans_zero <| ScopeSpans_Spans :=
               [Span_zero <| Span_Name := [97; 98] |> <| Span_TraceId := mkTraceID (replicate 16 7) |> <| Span_Flags := 1 |>] |>] |>].
Definition sampleMetrics : ExportMetricsServiceRequest :=
  mkExportMetricsServiceRequest
    [ResourceMetrics_zero
       <| ResourceMetrics_ScopeMetrics :=
            [ScopeMetrics_zero <| ScopeMetrics_Metrics :=
               [Metric_zero <| Metric_Name := [109] |>
                  <| Metric_Data := Metric_Histogram (Some (Histogram_zero <| Histogram_DataPoints :=
                       [HistogramDataPoint_SetMax 5 HistogramDataPoint_zero <| HistogramDataPoint_BucketCounts := [1; 2] |>] |>)) |>] |>] |>].

(** The well-formedness of a closed message, by unfolding it down to the ranges
    of its integers. *)
Ltac sample_ok :=
  repeat match goal with
  | |- _ /\ _ => split
  | |- _ \/ _ => left
  | |- True => exact Logic.I
  | |- _ = _ => reflexivity
  | |- _ <= _ => by vm_compute
  | |- _ < _ => by vm_compute
  | |- _ -> _ => intros ?
  | |- Forall _ ?l => let l' := eval hnf in l in change l with l'; constructor
  | |- _ => progress hnf
  end; try done.

Lemma sampleLogs_ok : ExportLogsServiceRequest_ok true sampleLogs.
Proof. sample_ok. Qed.
Lemma sampleTraces_ok : ExportTraceServiceRequest_ok true sampleTraces.
Proof. sample_ok. Qed.
Lemma sampleMetrics_ok : ExportMetricsServiceRequest_ok true sampleMetrics.
Proof. sample_ok. Qed.

Lemma marshal_exact_witness :
  (plog_MarshalLogs sampleLogs = Ok (ExportLogsServiceRequest_wire sampleLogs) /\ plog_LogsSize sampleLogs = 48) /\
  (ptrace_MarshalTraces sampleTraces = Ok (ExportTraceServiceRequest_wire sampleTraces)) /\
  (pmetric_MarshalMetrics sampleMetrics = Ok (ExportMetricsServiceRequest_wire sampleMetrics)).
Proof.
  destruct (marshal_exact true) as (Hl & Ht & Hm). split_and!.
  - exact (proj1 (Hl sampleLogs sampleLogs_ok ltac:(by vm_compute))).
  - by vm_compute.
  - exact (proj1 (Ht sampleTraces sampleTraces_ok ltac:(by vm_compute))).
  - exact (proj1 (Hm sampleMetrics sampleMetrics_ok ltac:(by vm_compute))).
Defined.

(** C16: What [MarshalLogs], [MarshalTraces] and [MarshalMetrics] write,
    [UnmarshalLogs], [UnmarshalTraces] and [UnmarshalMetrics] read back: the same
    request, field by field, with its attributes nested up to the depth limit, the
    alternatives of its oneofs, its packed lists, its zig-zag integers and the
    presence of its optional fields. *)
Theorem unmarshal_marshal :
  (forall ld, ExportLogsServiceRequest_ok true ld -> fits (ExportLogsServiceRequest_wire ld) ->
     exists buf, plog_MarshalLogs ld = Ok buf /\ plog_UnmarshalLogs buf = Ok ld) /\
  (forall td, ExportTraceServiceRequest_ok true td -> fits (ExportTraceServiceRequest_wire td) ->
     exists buf, ptrace_MarshalTraces td = Ok buf /\ ptrace_UnmarshalTraces buf = Ok td) /\
  (forall md, ExportMetricsServiceRequest_ok true md -> fits (ExportMetricsServiceRequest_wire md) ->
     exists buf, pmetric_MarshalMetrics md = Ok buf /\ pmetric_UnmarshalMetrics buf = Ok md).
Proof. split_and!; intros m Hw Hf; exact (marshalNew_back m Hw Hf). Qed.

Lemma unmarshal_marshal_witness :
  (exists buf, plog_MarshalLogs sampleLogs = Ok buf /\ plog_UnmarshalLogs buf = Ok sampleLogs) /\
  (exists buf, ptrace_MarshalTraces sampleTraces = Ok buf /\ ptrace_UnmarshalTraces buf = Ok sampleTraces) /\
  (exists buf, pmetric_MarshalMetrics sampleMetrics = Ok buf /\ pmetric_UnmarshalMetrics buf = Ok sampleMetrics).
Proof.
  destruct unmarshal_marshal as (Hl & Ht & Hm). split_and!.
  - exact (Hl sampleLogs sampleLogs_ok ltac:(by vm_compute)).
  - exact (Ht sampleTraces sampleTraces_ok ltac:(by vm_compute)).
  - exact (Hm sampleMetrics sampleMetrics_ok ltac:(by vm_compute)).
Defined.

(** C17: On any bytes at all, [UnmarshalLogs], [UnmarshalTraces] and
    [UnmarshalMetrics] end with an error or with a request whose every field has
    its Go type, whose nesting is within the depth limit and whose oneofs hold no
    nil pointer: they do not panic (no index or slice is out of range) and their
    loops terminate within the length of the input. *)
Theorem unmarshal_typed buf : bytes buf -> fits buf ->
  Safe (ExportLogsServiceRequest_ok false) (plog_UnmarshalLogs buf) /\
  Safe (ExportTraceServiceRequest_ok false) (ptrace_UnmarshalTraces buf) /\
  Safe (ExportMetricsServiceRequest_ok false) (pmetric_UnmarshalMetrics buf).
Proof. intros Hb Hf. split_and!; exact (decode_safe buf Hb Hf). Qed.

(** Bytes that end within a record, which is an error, and bytes of an unknown
    field, which is skipped. *)
Lemma unmarshal_typed_witness :
  Safe (ExportLogsServiceRequest_ok false) (plog_UnmarshalLogs [10; 200; 1; 7]) /\
  plog_UnmarshalLogs [10; 200; 1; 7] = Err ErrUnexpectedEOF /\
  plog_UnmarshalLogs [72; 5] = Ok ExportLogsServiceRequest_zero.
Proof.
  split; [|by vm_compute]. refine (proj1 (unmarshal_typed [10; 200; 1; 7] _ _)); [|by vm_compute].
  repeat constructor; by vm_compute.
Defined.

(** ** Migration *)
Definition logsMigrated (rl : ResourceLogs) : Prop := ResourceLogs_DeprecatedScopeLogs rl = [].

(** Of the two lists of scopes, the migration keeps the new one, or the
    deprecated one when the new one is empty, and leaves the rest alone. *)
Lemma MigrateLogs_spec rls :
  Forall logsMigrated (MigrateLogs rls) /\
  Forall2 (fun rl rl' =>
    ResourceLogs_ScopeLogs rl' = match ResourceLogs_ScopeLogs rl with [] => ResourceLogs_DeprecatedScopeLogs rl | l => l end /\
    ResourceLogs_Resource rl' = ResourceLogs_Resource rl /\ ResourceLogs_SchemaUrl rl' = ResourceLogs_SchemaUrl rl)
    rls (MigrateLogs rls).
Proof.
  split.
  - apply Forall_map, Forall_forall. intros rl _. done.
  - unfold MigrateLogs. induction rls as [|rl rls IH]; simpl; constructor; [|done].
    destruct rl as [res [|x l] url dep]; done.
Qed.

(** The protobuf method of a received export request of logs decodes as
    [UnmarshalLogs] does and then migrates: no resource keeps deprecated scopes,
    and none is lost. [UnmarshalLogs] itself does not: on the bytes of a request
    whose scopes are in the deprecated field, the scope logs of the request are
    visible after the one and absent after the other. *)
Theorem export_request_migrates :
  (forall data,
     plogotlp_UnmarshalProto zero data =
     let* ld := plog_UnmarshalLogs data in
     Ok (ld <| ExportLogsServiceRequest_ResourceLogs := MigrateLogs (ExportLogsServiceRequest_ResourceLogs ld) |>)) /\
  (forall data ms ld, plogotlp_UnmarshalProto ms data = Ok ld ->
     Forall logsMigrated (ExportLogsServiceRequest_ResourceLogs ld)) /\
  (exists data, 
     (exists rl, plog_UnmarshalLogs data = Ok (mkExportLogsServiceRequest [rl]) /\ ResourceLogs_ScopeLogs rl = []) /\
     (exists rl sl, plogotlp_UnmarshalProto zero data = Ok (mkExportLogsServiceRequest [rl]) /\ ResourceLogs_ScopeLogs rl = [sl])).
Proof.
  split_and!.
  - done.
  - intros data ms ld. unfold plogotlp_UnmarshalProto. destruct (UnmarshalProto data ms) as [orig| | |]; cbn [rbind]; try done.
    intros [= <-]. apply MigrateLogs_spec.
  - exists [10; 3; 194; 62; 0]. split; vm_compute; repeat eexists.
Qed.

(** ** The depth limit

    An attribute whose lists are nested to the limit, and whose innermost entry has
    no value: the bytes another producer may send. *)
Fixpoint nestedAttribute (n : nat) : list Z :=
  match n with
  | O => []
  | S n => fLen 2 (fLen 6 (fLen 1 (nestedAttribute n)))
  end.
Definition nestedRequest : list Z := fLen 1 (fLen 1 (fLen 1 (nestedAttribute 33))).

Definition isOk {X} (r : res X) : bool := match r with Ok _ => true | _ => false end.

(** What the next receiver makes of a request that was received and sent on. *)
Definition forwarded (buf : list Z) : res ExportLogsServiceRequest :=
  let* ld := plog_UnmarshalLogs buf in
  let* buf := plog_MarshalLogs ld in
  plog_UnmarshalLogs buf.

(** The request is accepted, but what [MarshalLogs] makes of it is not: the entry
    without a value is written with an empty one, which is a level deeper. *)
Theorem accepted_not_forwarded :
  isOk (plog_UnmarshalLogs nestedRequest) = true /\ forwarded nestedRequest = Err ErrRecursionDepth.
Proof. split; vm_compute; reflexivity. Qed.

(** ** Packed lists

    Two packed chunks of bucket counts: the second replaces the first, while the
    packed counts of an exponential histogram are collected. *)
Theorem packed_chunks :
  (exists m, UnmarshalProto (fLen 6 (leBytes 8 1) ++ fLen 6 (leBytes 8 2)) HistogramDataPoint_zero = Ok m /\
     HistogramDataPoint_BucketCounts m = [2]) /\
  (exists m, UnmarshalProto (fLen 2 (varint 1) ++ fLen 2 (varint 2))
               ExponentialHistogramDataPointBuckets_zero = Ok m /\
     ExponentialHistogramDataPointBuckets_BucketCounts m = [1; 2]).
Proof. split; eexists; vm_compute; split; reflexivity. Qed.

(** A double that is a negative zero is not written, and is read as zero. *)
Theorem negative_zero_dropped v : SummaryDataPointValueAtQuantile_wire (mkSummaryDataPointValueAtQuantile negativeZero v) =
  SummaryDataPointValueAtQuantile_wire (mkSummaryDataPointValueAtQuantile 0 v).
Proof. reflexivity. Qed.
