(* ===== verification/ProfilesRefs.v ===== *)
(** * References to strings in the attributes of profiles

    pdata/internal/otlp/profiles_dictionary.go: on the wire, the keys and string values of
    the attributes of resources and scopes are references into the string table of the
    dictionary; in memory they are strings.  MarshalProfiles and UnmarshalProfiles of
    pdata/pprofile/pb.go, with the encoding in between, and the two ends of the gRPC call
    of pdata/pprofile/pprofileotlp/grpc.go. *)

From stdpp Require Import gmap.
From S2P Require Import Prelude RecordUpdate Errors Sizers ProtoWire ProtoWireProofs ProtoFields ProtoCommon ProtoCommonProofs PcommonValue PcommonMap ProtoMessage ProtoKinds ProtoIds ProtoResource ProtoProfiles ProtoExport ProtoApi ProfilesDict.
Local Open Scope Z_scope.
Local Open Scope otel_scope.

Local Abbreviation strings := ProfilesDictionary_StringTable.

(** ** To references *)

(** The variables of [ConvertProfilesToReferences] that [getStringIndex] captures. *)
Record interning := mkInterning {
  stringTable : list (list Z);
  stringIndex : gmap (list Z) Z;
}.

(** The map is never nil: the error of an index that is not initialized cannot happen. *)
Definition getStringIndex (s : list Z) (st : interning) : Z * interning :=
  match stringIndex st !! s with
  | Some index => (index, st)
  | None => let index := i32 (len (stringTable st)) in (index, mkInterning (stringTable st ++ [s]) (<[s := index]> (stringIndex st)))
  end.

Fixpoint indexStringTable (i : Z) (table : list (list Z)) (m : gmap (list Z) Z) : gmap (list Z) Z :=
  match table with
  | [] => m
  | value :: table =>
      let m :=
        if (i =? 0) && negb (bool_decide (value = [])) then m
        else match m !! value with Some _ => m | None => <[value := i32 i]> m end in
      indexStringTable (i + 1) table m
  end.

Section ConvertKeyValues.
Context (ConvertAnyValue : AnyValue -> interning -> res (AnyValue * interning)).

Fixpoint convertKeyValues (i : Z) (keyValues : list KeyValue) (st : interning) {struct keyValues} : res (list KeyValue * interning) :=
  match keyValues with
  | [] => Ok ([], st)
  | mkKeyValue key value keyStrindex :: keyValues =>
      if negb (bool_decide (key = [])) && negb (keyStrindex =? 0) then Err (Errorf "attribute %d has both key and key_strindex set" [ArgZ i])
      else
        let '(key, keyStrindex, st) :=
          if negb (bool_decide (key = [])) then let '(index, st) := getStringIndex key st in ([], index, st) else (key, keyStrindex, st) in
        let* (value, st) := ConvertAnyValue value st in
        let* (keyValues, st) := convertKeyValues (i + 1) keyValues st in
        Ok (mkKeyValue key value keyStrindex :: keyValues, st)
  end.

Fixpoint convertValues (values : list AnyValue) (st : interning) {struct values} : res (list AnyValue * interning) :=
  match values with
  | [] => Ok ([], st)
  | v :: values => let* (v, st) := ConvertAnyValue v st in let* (values, st) := convertValues values st in Ok (v :: values, st)
  end.
End ConvertKeyValues.

Fixpoint ConvertProfilesAnyValueToReference (value : AnyValue) (st : interning) {struct value} : res (AnyValue * interning) :=
  match value with
  | AnyValue_StringValueStrindex i => Ok (AnyValue_StringValueStrindex i, st)
  | AnyValue_StringValue s => let '(index, st) := getStringIndex s st in Ok (AnyValue_StringValueStrindex index, st)
  | AnyValue_KvlistValue (Some values) =>
      let* (values, st) := convertKeyValues ConvertProfilesAnyValueToReference 0 values st in
      Ok (AnyValue_KvlistValue (Some values), st)
  | AnyValue_ArrayValue (Some values) =>
      let* (values, st) := convertValues ConvertProfilesAnyValueToReference values st in
      Ok (AnyValue_ArrayValue (Some values), st)
  | value => Ok (value, st)
  end.

Definition ConvertProfilesKeyValuesToReferences : list KeyValue -> interning -> res (list KeyValue * interning) :=
  convertKeyValues ConvertProfilesAnyValueToReference 0.

Fixpoint convertScopes (resourceIndex scopeIndex : Z) (l : list ScopeProfiles) (st : interning) : res (list ScopeProfiles * interning) :=
  match l with
  | [] => Ok ([], st)
  | sp :: l =>
      let* (attrs, st) :=
        wrap "resource profiles %d scope profiles %d attributes: %w" [ArgZ resourceIndex; ArgZ scopeIndex]
          (ConvertProfilesKeyValuesToReferences (InstrumentationScope_Attributes (ScopeProfiles_Scope sp)) st) in
      let* (l, st) := convertScopes resourceIndex (scopeIndex + 1) l st in
      Ok (sp <| ScopeProfiles_Scope := ScopeProfiles_Scope sp <| InstrumentationScope_Attributes := attrs |> |> :: l, st)
  end.

Fixpoint convertResources (resourceIndex : Z) (l : list ResourceProfiles) (st : interning) : res (list ResourceProfiles * interning) :=
  match l with
  | [] => Ok ([], st)
  | rp :: l =>
      let* (attrs, st) :=
        wrap "resource profiles %d resource attributes: %w" [ArgZ resourceIndex]
          (ConvertProfilesKeyValuesToReferences (Resource_Attributes (ResourceProfiles_Resource rp)) st) in
      let* (sps, st) := convertScopes resourceIndex 0 (ResourceProfiles_ScopeProfiles rp) st in
      let* (l, st) := convertResources (resourceIndex + 1) l st in
      Ok (rp <| ResourceProfiles_Resource := ResourceProfiles_Resource rp <| Resource_Attributes := attrs |> |>
             <| ResourceProfiles_ScopeProfiles := sps |> :: l, st)
  end.

(** The request as it is left when no error is returned. *)
Definition ConvertProfilesToReferences (request : ExportProfilesServiceRequest) : res ExportProfilesServiceRequest :=
  let dict := ExportProfilesServiceRequest_Dictionary request in
  let table := if len (strings dict) =? 0 then strings dict ++ [ [] ] else strings dict in
  let* (rps, st) := convertResources 0 (ExportProfilesServiceRequest_ResourceProfiles request) (mkInterning table (indexStringTable 0 table ∅)) in
  Ok (mkExportProfilesServiceRequest rps (dict <| ProfilesDictionary_StringTable := stringTable st |>)).

(** ** From references *)
Section Resolve.
Context (stringTable : list (list Z)).

Section ResolveKeyValues.
Context (ResolveAnyValue : AnyValue -> res AnyValue).

Fixpoint resolveKeyValues (i : Z) (keyValues : list KeyValue) {struct keyValues} : res (list KeyValue) :=
  match keyValues with
  | [] => Ok []
  | mkKeyValue key value keyStrindex :: keyValues =>
      if negb (bool_decide (key = [])) && negb (keyStrindex =? 0) then Err (Errorf "attribute %d has both key and key_strindex set" [ArgZ i])
      else if (keyStrindex <? 0) || (0 <? keyStrindex) && (len stringTable <=? keyStrindex)
      then Err (Errorf "attribute %d has invalid key_strindex %d" [ArgZ i; ArgZ keyStrindex])
      else
        let* (key, keyStrindex) := if 0 <? keyStrindex then let* s := at_ stringTable keyStrindex in Ok (s, 0) else Ok (key, keyStrindex) in
        let* value := wrap "attribute %d value: %w" [ArgZ i] (ResolveAnyValue value) in
        let* keyValues := resolveKeyValues (i + 1) keyValues in
        Ok (mkKeyValue key value keyStrindex :: keyValues)
  end.

Fixpoint resolveValues (i : Z) (values : list AnyValue) {struct values} : res (list AnyValue) :=
  match values with
  | [] => Ok []
  | v :: values =>
      let* v := wrap "array value %d: %w" [ArgZ i] (ResolveAnyValue v) in
      let* values := resolveValues (i + 1) values in Ok (v :: values)
  end.
End ResolveKeyValues.

Fixpoint ResolveProfilesAnyValueReference (value : AnyValue) {struct value} : res AnyValue :=
  match value with
  | AnyValue_StringValueStrindex i =>
      if (i <? 0) || (len stringTable <=? i) then Err (Errorf "invalid string_value_strindex %d" [ArgZ i])
      else let* s := at_ stringTable i in Ok (AnyValue_StringValue s)
  | AnyValue_KvlistValue (Some values) =>
      let* values := resolveKeyValues ResolveProfilesAnyValueReference 0 values in Ok (AnyValue_KvlistValue (Some values))
  | AnyValue_ArrayValue (Some values) =>
      let* values := resolveValues ResolveProfilesAnyValueReference 0 values in
      Ok (AnyValue_ArrayValue (Some values))
  | value => Ok value
  end.

Definition ResolveProfilesKeyValueReferences : list KeyValue -> res (list KeyValue) := resolveKeyValues ResolveProfilesAnyValueReference 0.

Fixpoint resolveScopes (resourceIndex scopeIndex : Z) (l : list ScopeProfiles) : res (list ScopeProfiles) :=
  match l with
  | [] => Ok []
  | sp :: l =>
      let* attrs :=
        wrap "resource profiles %d scope profiles %d attributes: %w" [ArgZ resourceIndex; ArgZ scopeIndex]
          (ResolveProfilesKeyValueReferences (InstrumentationScope_Attributes (ScopeProfiles_Scope sp))) in
      let* l := resolveScopes resourceIndex (scopeIndex + 1) l in
      Ok (sp <| ScopeProfiles_Scope := ScopeProfiles_Scope sp <| InstrumentationScope_Attributes := attrs |> |> :: l)
  end.

Fixpoint resolveResources (resourceIndex : Z) (l : list ResourceProfiles) : res (list ResourceProfiles) :=
  match l with
  | [] => Ok []
  | rp :: l =>
      let* attrs :=
        wrap "resource profiles %d resource attributes: %w" [ArgZ resourceIndex]
          (ResolveProfilesKeyValueReferences (Resource_Attributes (ResourceProfiles_Resource rp))) in
      let* sps := resolveScopes resourceIndex 0 (ResourceProfiles_ScopeProfiles rp) in
      let* l := resolveResources (resourceIndex + 1) l in
      Ok (rp <| ResourceProfiles_Resource := ResourceProfiles_Resource rp <| Resource_Attributes := attrs |> |>
             <| ResourceProfiles_ScopeProfiles := sps |> :: l)
  end.
End Resolve.

Definition ResolveProfilesReferences (request : ExportProfilesServiceRequest) : res ExportProfilesServiceRequest :=
  let* rps := resolveResources (strings (ExportProfilesServiceRequest_Dictionary request)) 0 (ExportProfilesServiceRequest_ResourceProfiles request) in
  Ok (request <| ExportProfilesServiceRequest_ResourceProfiles := rps |>).

(** ** pb.go *)

(** The bytes, and the profiles as they are left: data that is not read-only is converted
    in place. *)
Definition pprofile_MarshalProfiles (readOnly : bool) (pd : ExportProfilesServiceRequest) : res (list Z * ExportProfilesServiceRequest) :=
  let* pdToUse := ConvertProfilesToReferences pd in
  let* buf := marshalNew pdToUse in
  Ok (buf, if readOnly then pd else pdToUse).

(** [MigrateProfiles] does nothing. *)
Definition pprofile_UnmarshalProfiles (buf : list Z) : res ExportProfilesServiceRequest :=
  let* pd := UnmarshalProto buf zero in
  ResolveProfilesReferences pd.

(** ** pprofileotlp *)

(** [grpcClient.Export]: the request sent and what the raw client answers to it.  The
    conversion works on a copy. *)
Definition grpcClient_Export {Rsp} (rawExport : ExportProfilesServiceRequest -> Rsp + error) (request : ExportProfilesServiceRequest) : res Rsp :=
  let* request := ConvertProfilesToReferences request in
  match rawExport request with inl rsp => Ok rsp | inr err => Err err end.

(** [rawProfilesServer.Export]: [status.Error(codes.InvalidArgument, ...)] for references
    that are not in the table, with the text of the error. *)
Definition rawProfilesServer_Export {Rsp} (Error : error -> string) (srv : ExportProfilesServiceRequest -> Rsp + error)
  (request : ExportProfilesServiceRequest) : res (Rsp + error) :=
  match ResolveProfilesReferences request with
  | Ok request => Ok (srv request)
  | Err err => Ok (inr (StatusErr (mkStatus InvalidArgument (Error err))))
  | Panic => Panic
  | OutOfFuel => OutOfFuel
  end.

(** ** Without references *)

(** What the API shows as it is: no key and no value is a reference. *)
Fixpoint plainAny (v : AnyValue) : bool :=
  match v with
  | AnyValue_StringValueStrindex _ => false
  | AnyValue_KvlistValue (Some l) =>
      (fix each (l : list KeyValue) : bool := match l with [] => true | mkKeyValue _ v i :: l => (i =? 0) && plainAny v && each l end) l
  | AnyValue_ArrayValue (Some l) => (fix each (l : list AnyValue) : bool := match l with [] => true | v :: l => plainAny v && each l end) l
  | _ => true
  end.

Definition plainKeyValue (kv : KeyValue) : bool := (KeyStrindex kv =? 0) && plainAny (Value kv).

Definition plainProfiles (pd : ExportProfilesServiceRequest) : bool :=
  forallb (fun rp =>
    forallb plainKeyValue (Resource_Attributes (ResourceProfiles_Resource rp)) &&
    forallb (fun sp => forallb plainKeyValue (InstrumentationScope_Attributes (ScopeProfiles_Scope sp))) (ResourceProfiles_ScopeProfiles rp))
    (ExportProfilesServiceRequest_ResourceProfiles pd).

Lemma plainAny_array l : plainAny (AnyValue_ArrayValue (Some l)) = forallb plainAny l.
Proof. cbn. induction l as [|v l IH]; [done|]. cbn. by rewrite IH. Qed.

Lemma plainAny_kvlist l : plainAny (AnyValue_KvlistValue (Some l)) = forallb plainKeyValue l.
Proof. cbn. induction l as [|[k v i] l IH]; [done|]. cbn. by rewrite IH. Qed.

(** ** Without strings *)

(** What is sent: every key and every string of a value is a reference. *)
Fixpoint bareAny (v : AnyValue) : bool :=
  match v with
  | AnyValue_StringValue _ => false
  | AnyValue_KvlistValue (Some l) =>
      (fix each (l : list KeyValue) : bool := match l with [] => true | mkKeyValue k v _ :: l => bool_decide (k = []) && bareAny v && each l end) l
  | AnyValue_ArrayValue (Some l) => (fix each (l : list AnyValue) : bool := match l with [] => true | v :: l => bareAny v && each l end) l
  | _ => true
  end.

Definition bareKeyValue (kv : KeyValue) : bool := bool_decide (Key kv = []) && bareAny (Value kv).
Definition bareScope (sp : ScopeProfiles) : bool := forallb bareKeyValue (InstrumentationScope_Attributes (ScopeProfiles_Scope sp)).
Definition bareResource (rp : ResourceProfiles) : bool :=
  forallb bareKeyValue (Resource_Attributes (ResourceProfiles_Resource rp)) && forallb bareScope (ResourceProfiles_ScopeProfiles rp).
Definition bareProfiles (pd : ExportProfilesServiceRequest) : bool := forallb bareResource (ExportProfilesServiceRequest_ResourceProfiles pd).

Lemma bareAny_array l : bareAny (AnyValue_ArrayValue (Some l)) = forallb bareAny l.
Proof. cbn. induction l as [|v l IH]; [done|]. cbn. by rewrite IH. Qed.

Lemma bareAny_kvlist l : bareAny (AnyValue_KvlistValue (Some l)) = forallb bareKeyValue l.
Proof. cbn. induction l as [|[k v i] l IH]; [done|]. cbn. by rewrite IH. Qed.

(** A conversion whose results satisfy [p]. *)
Definition Leaves {A} (p : A -> bool) (f : interning -> res (A * interning)) : Prop := forall st a st', f st = Ok (a, st') -> p a = true.

Lemma leaves_bind {A B} (p : A -> bool) (q : B -> bool) f g :
  Leaves p f -> (forall a, p a = true -> Leaves q (g a)) -> Leaves q (fun st => let* (a, st) := f st in g a st).
Proof. intros Hf Hg st b st'. destruct (f st) as [ [a st1]| | |] eqn:E; [|done..]. cbn. apply Hg, (Hf _ _ _ E). Qed.

Lemma leaves_wrap {A} (p : A -> bool) fmt args f : Leaves p f -> Leaves p (fun st => wrap fmt args (f st)).
Proof. intros Hf st a st'. destruct (f st) as [ [b st1]| | |] eqn:E; [|done..]. cbn. intros [= <- <-]. exact (Hf _ _ _ E). Qed.

Lemma convertKeyValues_bare f l i : Forall (fun kv => Leaves bareAny (f (Value kv))) l -> Leaves (forallb bareKeyValue) (convertKeyValues f i l).
Proof.
  intros HF. revert i. induction HF as [|[k v ki] l Hv HF IH]; intros i st l' st'; cbn [convertKeyValues]; [by intros [= <- _] |].
  assert (Hrest : forall ki', Leaves (forallb bareKeyValue) (fun st => let* (v', st) := f v st in let* (l', st) := convertKeyValues f (i + 1) l st in Ok (mkKeyValue [] v' ki' :: l', st))).
  { intros ki'. apply (leaves_bind bareAny); [exact Hv|]. intros v' Hv'. apply (leaves_bind (forallb bareKeyValue)); [apply IH|].
    intros l2 Hl2 st1 l3 st2 [= <- _]. cbn. unfold bareKeyValue at 1. cbn. by rewrite Hv'. }
  destruct (_ && _); [done|]. destruct (bool_decide_reflect (k = [])) as [->|_]; cbn [negb]; [apply Hrest|].
  destruct (getStringIndex k st). apply Hrest.
Qed.

Lemma convertValues_bare f l : Forall (fun v => Leaves bareAny (f v)) l -> Leaves (forallb bareAny) (convertValues f l).
Proof.
  induction 1 as [|v l Hv HF IH]; cbn [convertValues]; [by intros st l' st' [= <- _] |].
  apply (leaves_bind bareAny); [exact Hv|]. intros v' Hv'. apply (leaves_bind (forallb bareAny)); [exact IH|]. intros l' Hl' st1 l2 st2 [= <- _]. cbn. by rewrite Hv'.
Qed.

Lemma convertAny_bare v : Leaves bareAny (ConvertProfilesAnyValueToReference v).
Proof.
  induction v as [v Hv|l IH|l IH] using AnyValue_induction.
  - intros st a st'. destruct v as [|s| | | |[]|[]| |]; try done; cbn; try (by intros [= <- _]). by destruct (getStringIndex s st); intros [= <- _].
  - apply (leaves_bind (forallb bareAny)); [by apply convertValues_bare|]. intros l' Hl' st a st' [= <- _]. by rewrite bareAny_array.
  - apply (leaves_bind (forallb bareKeyValue)); [by apply convertKeyValues_bare|]. intros l' Hl' st a st' [= <- _]. by rewrite bareAny_kvlist.
Qed.

Lemma attributes_bare l : Leaves (forallb bareKeyValue) (ConvertProfilesKeyValuesToReferences l).
Proof. apply convertKeyValues_bare, Forall_forall. intros kv _. apply convertAny_bare. Qed.

Lemma scopes_bare r i l : Leaves (forallb bareScope) (convertScopes r i l).
Proof.
  revert i. induction l as [|sp l IH]; intros i; cbn [convertScopes]; [by intros st l' st' [= <- _] |].
  apply (leaves_bind (forallb bareKeyValue)); [apply leaves_wrap, attributes_bare|]. intros attrs Ha.
  apply (leaves_bind (forallb bareScope)); [apply IH|]. intros l' Hl' st l2 st2 [= <- _]. apply andb_true_iff. by split.
Qed.

Lemma resources_bare i l : Leaves (forallb bareResource) (convertResources i l).
Proof.
  revert i. induction l as [|rp l IH]; intros i; cbn [convertResources]; [by intros st l' st' [= <- _] |].
  apply (leaves_bind (forallb bareKeyValue)); [apply leaves_wrap, attributes_bare|]. intros attrs Ha.
  apply (leaves_bind (forallb bareScope)); [apply scopes_bare|]. intros sps Hs.
  apply (leaves_bind (forallb bareResource)); [apply IH|]. intros l' Hl' st l2 st2 [= <- _]. apply andb_true_iff. split; [apply andb_true_iff; by split|done].
Qed.

Lemma convert_bare pd sent : ConvertProfilesToReferences pd = Ok sent -> bareProfiles sent = true.
Proof.
  unfold ConvertProfilesToReferences. destruct (convertResources _ _ _) as [ [rps st]| | |] eqn:E; [|done..]. cbn. intros [= <-]. exact (resources_bare _ _ _ _ _ E).
Qed.

(** ** The number of strings, keys included *)
Fixpoint anyStrings (v : AnyValue) : Z :=
  match v with
  | AnyValue_StringValue _ => 1
  | AnyValue_KvlistValue (Some l) =>
      (fix each (l : list KeyValue) : Z := match l with [] => 0 | mkKeyValue _ v _ :: l => 1 + anyStrings v + each l end) l
  | AnyValue_ArrayValue (Some l) => (fix each (l : list AnyValue) : Z := match l with [] => 0 | v :: l => anyStrings v + each l end) l
  | _ => 0
  end.

Definition kvStrings (kv : KeyValue) : Z := 1 + anyStrings (Value kv).
Definition scopeStrings (sp : ScopeProfiles) : Z := sumZ kvStrings (InstrumentationScope_Attributes (ScopeProfiles_Scope sp)).
Definition resourceStrings (rp : ResourceProfiles) : Z :=
  sumZ kvStrings (Resource_Attributes (ResourceProfiles_Resource rp)) + sumZ scopeStrings (ResourceProfiles_ScopeProfiles rp).
Definition profilesStrings (pd : ExportProfilesServiceRequest) : Z := sumZ resourceStrings (ExportProfilesServiceRequest_ResourceProfiles pd).

Lemma anyStrings_array l : anyStrings (AnyValue_ArrayValue (Some l)) = sumZ anyStrings l.
Proof. cbn. induction l as [|v l IH]; [done|]. cbn. by rewrite IH. Qed.

Lemma anyStrings_kvlist l : anyStrings (AnyValue_KvlistValue (Some l)) = sumZ kvStrings l.
Proof. cbn. induction l as [|[k v i] l IH]; [done|]. cbn. by rewrite IH. Qed.

Lemma anyStrings_nonneg v : 0 <= anyStrings v.
Proof.
  induction v as [v Hv|l IH|l IH] using AnyValue_induction; [by destruct v as [| | | | |[]|[]| |]|rewrite anyStrings_array|rewrite anyStrings_kvlist];
    apply sumZ_nonneg; rewrite Forall_forall in IH; intros x Hx; specialize (IH x Hx); unfold kvStrings; lia.
Qed.

Lemma kvStrings_nonneg kv : 0 <= kvStrings kv.
Proof. unfold kvStrings. pose proof (anyStrings_nonneg (Value kv)). lia. Qed.

Lemma scopeStrings_nonneg sp : 0 <= scopeStrings sp.
Proof. apply sumZ_nonneg. intros. apply kvStrings_nonneg. Qed.

Lemma resourceStrings_nonneg rp : 0 <= resourceStrings rp.
Proof. apply Z.add_nonneg_nonneg; apply sumZ_nonneg; intros; [apply kvStrings_nonneg|apply scopeStrings_nonneg]. Qed.

(** ** Interning strings *)

(** An index of the map is where its string is in the table, and 0 is only the empty one's. *)
Definition indexes (table : list (list Z)) (m : gmap (list Z) Z) : Prop := forall s i, m !! s = Some i ->
  0 <= i < len table /\ table !! Z.to_nat i = Some s /\ (i = 0 -> s = []).

Record Interns (st : interning) : Prop := {
  in_index : indexes (stringTable st) (stringIndex st);
  in_bytes : Forall bytes (stringTable st);
  in_some : 0 < len (stringTable st);
}.

Lemma indexes_prefix table table' m : table `prefix_of` table' -> indexes table m -> indexes table' m.
Proof.
  intros [l ->] Hm s i Hi. destruct (Hm s i Hi) as (Hr & Hl & Hz). rewrite len_app. pose proof (len_nonneg l). split; [lia|]. split; [|done].
  rewrite lookup_app_l; [done|]. unfold len in Hr. lia.
Qed.

Lemma getStringIndex_ok s st n : bytes s -> Interns st -> 0 <= n -> len (stringTable st) + (1 + n) <= 2 ^ 31 ->
  let '(i, st') := getStringIndex s st in
  Interns st' /\ len (stringTable st') + n <= 2 ^ 31 /\ stringTable st `prefix_of` stringTable st' /\
  is_i32 i /\ 0 <= i < len (stringTable st') /\ stringTable st' !! Z.to_nat i = Some s /\ (i = 0 -> s = []).
Proof.
  intros Hs [Hi Hb Hp] Hn Hroom. unfold getStringIndex. destruct (stringIndex st !! s) as [i|] eqn:E.
  - destruct (Hi _ _ E) as (Hr & Hl & Hz). split; [done|]. split; [lia|]. split; [done|]. split; [unfold is_i32; lia|done].
  - cbn. rewrite i32_id by (unfold is_i32; lia). rewrite len_app. change (len [s]) with 1. pose proof (len_nonneg (stringTable st)).
    assert (Hl : (stringTable st ++ [s]) !! Z.to_nat (len (stringTable st)) = Some s).
    { unfold len. rewrite Nat2Z.id. apply list_lookup_middle. done. }
    assert (Hpre : stringTable st `prefix_of` stringTable st ++ [s]) by by eexists.
    split; [|split; [lia|split; [done|split; [unfold is_i32; lia|split; [lia|split; [done|lia] ] ] ] ] ]. constructor; cbn.
    + intros s' i. destruct (decide (s = s')) as [<-|Hne].
      * rewrite lookup_insert_eq. intros [= <-]. rewrite len_app. change (len [s]) with 1. split; [lia|]. split; [done|lia].
      * rewrite lookup_insert_ne by done. by apply (indexes_prefix _ _ _ Hpre Hi).
    + apply Forall_app. split; [done|by apply Forall_singleton].
    + rewrite len_app. change (len [s]) with 1. lia.
Qed.

Lemma indexStringTable_ok before table m : len (before ++ table) <= 2 ^ 31 -> indexes (before ++ table) m ->
  indexes (before ++ table) (indexStringTable (len before) table m).
Proof.
  revert before m. induction table as [|value table IH]; intros before m Hl Hm; [done|]. cbn [indexStringTable].
  replace (len before + 1) with (len (before ++ [value])) by (by rewrite len_app).
  replace (before ++ value :: table) with ((before ++ [value]) ++ table) in * by (by rewrite <- app_assoc). apply IH; [done|].
  destruct (_ && _) eqn:E; [done|]. destruct (m !! value) eqn:Ev; [done|]. intros s i. destruct (decide (value = s)) as [<-|Hne]; [|by rewrite lookup_insert_ne; [apply Hm|]].
  rewrite lookup_insert_eq. intros [= <-]. rewrite !len_app in *. change (len [value]) with 1 in *. pose proof (len_nonneg before). pose proof (len_nonneg table).
  rewrite i32_id by (unfold is_i32; lia). split; [lia|]. split.
  - unfold len. rewrite Nat2Z.id. rewrite lookup_app_l by (rewrite length_app; cbn; lia). by apply list_lookup_middle.
  - intros Hz. rewrite Hz in E. cbn in E. by apply negb_false_iff, bool_decide_eq_true in E.
Qed.

(** A conversion that adds at most [c] strings and gives what [R] says of it, in any table
    that goes on after the one it leaves. *)
Definition Conv {A} (c : Z) (R : list (list Z) -> A -> Prop) (f : interning -> res (A * interning)) : Prop := forall st n,
  0 <= n -> Interns st -> len (stringTable st) + (c + n) <= 2 ^ 31 ->
  exists a st', f st = Ok (a, st') /\ Interns st' /\ len (stringTable st') + n <= 2 ^ 31 /\ stringTable st `prefix_of` stringTable st' /\
    forall table, stringTable st' `prefix_of` table -> R table a.

Lemma conv_ret {A} (R : list (list Z) -> A -> Prop) a : (forall table, R table a) -> Conv 0 R (fun st => Ok (a, st)).
Proof. intros HR st n Hn Hst Hroom. exists a, st. split; [done|]. split; [done|]. split; [lia|]. by split. Qed.

Lemma conv_bind {A B} c1 c2 (R1 : list (list Z) -> A -> Prop) (R2 : list (list Z) -> B -> Prop) f g :
  0 <= c2 -> Conv c1 R1 f -> (forall a, Conv c2 (fun table b => R1 table a -> R2 table b) (g a)) ->
  Conv (c1 + c2) R2 (fun st => let* (a, st) := f st in g a st).
Proof.
  intros Hc Hf Hg st n Hn Hst Hroom. destruct (Hf st (c2 + n)) as (a & st1 & -> & Hst1 & Hroom1 & Hp1 & HR1); [lia|done|lia|]. cbn.
  destruct (Hg a st1 n) as (b & st2 & -> & Hst2 & Hroom2 & Hp2 & HR2); [done..|]. exists b, st2. split; [done|]. split; [done|]. split; [done|].
  split; [by etransitivity|]. intros table Ht. apply HR2; [done|]. apply HR1. by etransitivity.
Qed.

Lemma conv_wrap {A} c (R : list (list Z) -> A -> Prop) fmt args f : Conv c R f -> Conv c R (fun st => wrap fmt args (f st)).
Proof. intros Hf st n Hn Hst Hroom. destruct (Hf st n) as (a & st' & -> & H); [done..|]. by exists a, st'. Qed.

Lemma conv_weaken {A} c c' (R R' : list (list Z) -> A -> Prop) f : Conv c R f -> c <= c' -> (forall table a, R table a -> R' table a) -> Conv c' R' f.
Proof.
  intros Hf Hc HR st n Hn Hst Hroom. destruct (Hf st n) as (a & st' & -> & Hst' & Hr & Hp & HR'); [done..|lia|]. exists a, st'. do 4 (split; [done|]).
  intros table Ht. by apply HR, HR'.
Qed.

(** A reference to [s] in the table. *)
Definition refersTo (table : list (list Z)) (s : list Z) (i : Z) : Prop := is_i32 i /\ 0 <= i < len table /\ at_ table i = Ok s /\ (i = 0 -> s = []).

Lemma conv_string s : bytes s -> Conv 1 (fun table i => refersTo table s i) (fun st => Ok (getStringIndex s st)).
Proof.
  intros Hs st n Hn Hst Hroom. pose proof (getStringIndex_ok s st n Hs Hst Hn Hroom) as HG. destruct (getStringIndex s st) as [i st'].
  destruct HG as (Hst' & Hr & Hp & Hi & Hl & Hs' & Hz). exists i, st'. split; [done|]. split; [done|]. split; [done|]. split; [done|]. intros table [l ->].
  split; [done|]. rewrite len_app. pose proof (len_nonneg l). split; [lia|]. split; [|done]. unfold at_. destruct (Z.ltb_spec i 0); [lia|].
  rewrite lookup_app_l by (unfold len in Hl; lia). by rewrite Hs'.
Qed.

Lemma conv_ext {A} c (R : list (list Z) -> A -> Prop) f g : (forall st, f st = g st) -> Conv c R g -> Conv c R f.
Proof. intros E Hg st n Hn Hst Hroom. rewrite E. by apply Hg. Qed.

Definition anyTo (budget : nat) (v : AnyValue) (table : list (list Z)) (a : AnyValue) : Prop :=
  AnyOk true budget a /\ ResolveProfilesAnyValueReference table a = Ok v.

Definition kvsTo (budget : nat) (l : list KeyValue) (table : list (list Z)) (l' : list KeyValue) : Prop :=
  Forall (KvOk true budget) l' /\ forall j, resolveKeyValues table (ResolveProfilesAnyValueReference table) j l' = Ok l.

Definition convAny (v : AnyValue) : Prop := forall budget, AnyOk true budget v -> plainAny v = true ->
  Conv (anyStrings v) (anyTo budget v) (ConvertProfilesAnyValueToReference v).

(** The value and the rest of the entries, once the key has become [k] and [i]. *)
Lemma resolve_cons budget key v l table k i v' l' : (k = [] /\ refersTo table key i \/ k = key /\ key = [] /\ i = 0) -> bytes key ->
  anyTo budget v table v' -> kvsTo (S budget) l table l' -> kvsTo (S budget) (mkKeyValue key v 0 :: l) table (mkKeyValue k v' i :: l').
Proof.
  intros Hk Hb [Hv Ev] [Hl El]. split.
  - constructor; [|done]. cbn. split; [destruct Hk as [ [-> _]|(-> & _ & _)]; [constructor|done]|]. split; [by left|].
    destruct Hk as [ [_ [Hi _] ]|(_ & _ & ->)]; [done|]. unfold is_i32. lia.
  - intros j. cbn. destruct Hk as [ [-> (Hi & Hr & Ha & Hz)]|(-> & -> & ->)]; cbn.
    + destruct (Z.ltb_spec i 0); [lia|]. destruct (Z.ltb_spec 0 i); cbn.
      * destruct (Z.leb_spec (len table) i); [lia|]. rewrite Ha. cbn. rewrite Ev. cbn. by rewrite El.
      * rewrite Ev. cbn. rewrite El. cbn. assert (i = 0) as -> by lia. by rewrite Hz.
    + rewrite Ev. cbn. by rewrite El.
Qed.

Lemma convertKeyValues_conv budget l i : Forall (fun kv => convAny (Value kv)) l -> Forall (KvOk true budget) l -> forallb plainKeyValue l = true ->
  Conv (sumZ kvStrings l) (kvsTo budget l) (convertKeyValues ConvertProfilesAnyValueToReference i l).
Proof.
  intros HF. revert i. induction HF as [|[key v ks] l Hv HF IH]; intros i Hok Hplain; [by apply conv_ret|].
  apply Forall_cons in Hok as [Hkv Hok]. destruct budget as [|budget]; [done|]. destruct Hkv as (Hkey & [Hany|[ [=] _] ] & Hks).
  cbn [forallb] in Hplain. apply andb_true_iff in Hplain as [ [Hks0%Z.eqb_eq Hpv]%andb_true_iff Hpl]. cbn in Hks0, Hpv. subst ks.
  specialize (Hv budget Hany Hpv). cbn [Value] in Hv. specialize (IH (i + 1) Hok Hpl). pose proof (anyStrings_nonneg v).
  assert (0 <= sumZ kvStrings l) by (apply sumZ_nonneg; intros; apply kvStrings_nonneg).
  set (rest k ki st := let* (value, st) := ConvertProfilesAnyValueToReference v st in
    let* (keyValues, st) := convertKeyValues ConvertProfilesAnyValueToReference (i + 1) l st in Ok (mkKeyValue k value ki :: keyValues, st)).
  assert (Hrest : forall k ki, Conv (anyStrings v + (sumZ kvStrings l + 0))
    (fun table l' => (k = [] /\ refersTo table key ki \/ k = key /\ key = [] /\ ki = 0) -> kvsTo (S budget) (mkKeyValue key v 0 :: l) table l') (rest k ki)).
  { intros k ki. eapply conv_bind; [lia|exact Hv|]. intros v'. eapply conv_bind; [lia|exact IH|]. intros l'.
    apply conv_ret. intros table Hl' Hv' Hk. by apply resolve_cons. }
  unfold convertKeyValues at 1. fold (convertKeyValues ConvertProfilesAnyValueToReference). rewrite andb_false_r. destruct (bool_decide_reflect (key = [])) as [->|Hne]; cbn [negb].
  - eapply conv_weaken; [apply Hrest|cbn; unfold kvStrings; cbn; lia|]. intros table l' Hl'. apply Hl'. by right.
  - apply (conv_ext _ _ _ (fun st => let* (ki, st) := Ok (getStringIndex key st) in rest [] ki st)).
    + intros st. by destruct (getStringIndex key st) as [ki st'].
    + eapply conv_weaken; [eapply (conv_bind 1 (anyStrings v + (sumZ kvStrings l + 0)) _ (kvsTo (S budget) (mkKeyValue key v 0 :: l)) _ (rest []));
        [lia|by apply conv_string|]|cbn; unfold kvStrings; cbn; lia|done].
      intros ki. eapply conv_weaken; [apply (Hrest [] ki)|reflexivity|]. intros table l' Hl' Hr. apply Hl'. by left.
Qed.

Lemma convertValues_conv budget l : Forall convAny l -> Forall (AnyOk true budget) l -> forallb plainAny l = true ->
  Conv (sumZ anyStrings l)
    (fun table l' => Forall (AnyOk true budget) l' /\ forall j, resolveValues (ResolveProfilesAnyValueReference table) j l' = Ok l)
    (convertValues ConvertProfilesAnyValueToReference l).
Proof.
  induction 1 as [|v l Hv HF IH]; intros Hok Hplain; [by apply conv_ret|]. apply Forall_cons in Hok as [Hany Hok]. apply andb_true_iff in Hplain as [Hpv Hpl].
  assert (0 <= sumZ anyStrings l) by (apply sumZ_nonneg; intros; apply anyStrings_nonneg). cbn [convertValues sumZ]. rewrite <- (Z.add_0_r (sumZ _ _)).
  eapply conv_bind; [lia|by apply Hv|]. intros v'. eapply conv_bind; [lia|by apply IH|]. intros l'. apply conv_ret. intros table [Hl El] [Hv' Ev].
  split; [by constructor|]. intros j. cbn. rewrite Ev. cbn. by rewrite El.
Qed.

Lemma convertAny_conv v : convAny v.
Proof.
  induction v as [v Hv|l IH|l IH] using AnyValue_induction; intros budget Hok Hplain.
  - destruct v as [|s| | | |[]|[]| |]; try done; try (apply conv_ret; intros table; by split).
    apply (conv_ext _ _ _ (fun st => let* (i, st) := Ok (getStringIndex s st) in Ok (AnyValue_StringValueStrindex i, st))).
    { intros st. cbn. by destruct (getStringIndex s st). }
    destruct budget as [|budget]; [done|]. eapply conv_weaken; [eapply (conv_bind 1 0 _ (anyTo (S budget) (AnyValue_StringValue s)) _ (fun i st => Ok (AnyValue_StringValueStrindex i, st)));
      [done|by apply conv_string|]|cbn; lia|done].
    intros i. apply conv_ret. intros table (Hi & Hr & Ha & _). split; [done|]. cbn. destruct (Z.ltb_spec i 0); [lia|]. destruct (Z.leb_spec (len table) i); [lia|]. by rewrite Ha.
  - rewrite plainAny_array in Hplain. rewrite anyStrings_array. destruct budget as [|[|budget]]; [done..|]. cbn in Hok.
    eapply conv_weaken; [eapply (conv_bind _ 0 _ (anyTo (S (S budget)) (AnyValue_ArrayValue (Some l)))); [done|by apply (convertValues_conv budget)|]|lia|done].
    intros l'. apply conv_ret. intros table [Hl' El']. split; [done|]. cbn. by rewrite El'.
  - rewrite plainAny_kvlist in Hplain. rewrite anyStrings_kvlist. destruct budget as [|[|budget]]; [done..|]. cbn in Hok.
    eapply conv_weaken; [eapply (conv_bind _ 0 _ (anyTo (S (S budget)) (AnyValue_KvlistValue (Some l)))); [done|by apply (convertKeyValues_conv budget)|]|lia|done].
    intros l'. apply conv_ret. intros table [Hl' El']. split; [done|]. cbn. by rewrite El'.
Qed.

(** The budget of 100 stays folded in the proofs. *)
#[local] Opaque RecursionLimit.

Lemma attributes_conv l : Forall (wellFormed true) l -> forallb plainKeyValue l = true ->
  Conv (sumZ kvStrings l) (fun table l' => Forall (wellFormed true) l' /\ ResolveProfilesKeyValueReferences table l' = Ok l) (ConvertProfilesKeyValuesToReferences l).
Proof.
  intros Hok Hplain. eapply conv_weaken; [apply (convertKeyValues_conv RecursionLimit)|done|]; [|exact Hok|done|].
  - apply Forall_forall. intros kv _. apply convertAny_conv.
  - intros table l' [Hl' El']. split; [exact Hl'|apply El'].
Qed.

Definition plainScope (sp : ScopeProfiles) : bool := forallb plainKeyValue (InstrumentationScope_Attributes (ScopeProfiles_Scope sp)).

Lemma scopes_conv l r i : Forall (wellFormed true) l -> forallb plainScope l = true ->
  Conv (sumZ scopeStrings l) (fun table l' => Forall (wellFormed true) l' /\ forall j k, resolveScopes table j k l' = Ok l) (convertScopes r i l).
Proof.
  intros Hok. revert i. induction Hok as [|sp l Hsp Hok IH]; intros i Hplain; [by apply conv_ret|]. apply andb_true_iff in Hplain as [Hp Hpl].
  assert (0 <= sumZ scopeStrings l) by (apply sumZ_nonneg; intros; apply scopeStrings_nonneg).
  destruct sp as [url ps [name version attrs dropped] ]. destruct Hsp as (Hurl & Hps & Hname & Hversion & Hattrs & Hdropped).
  cbn [convertScopes sumZ]. rewrite <- (Z.add_0_r (sumZ scopeStrings l)). eapply conv_bind; [lia|apply conv_wrap, attributes_conv; [exact Hattrs|exact Hp]|].
  intros attrs'. eapply conv_bind; [lia|by apply IH|]. intros l'. apply conv_ret. intros table [Hl El] [Ha Ea]. split.
  - constructor; [|done]. split; [done|]. split; [done|]. split; [done|]. split; [done|]. split; done.
  - intros j k. cbn. rewrite Ea. cbn. by rewrite El.
Qed.

Definition plainResource (rp : ResourceProfiles) : bool :=
  forallb plainKeyValue (Resource_Attributes (ResourceProfiles_Resource rp)) && forallb plainScope (ResourceProfiles_ScopeProfiles rp).

Lemma resources_conv l i : Forall (wellFormed true) l -> forallb plainResource l = true ->
  Conv (sumZ resourceStrings l) (fun table l' => Forall (wellFormed true) l' /\ forall j, resolveResources table j l' = Ok l) (convertResources i l).
Proof.
  intros Hok. revert i. induction Hok as [|rp l Hrp Hok IH]; intros i Hplain; [by apply conv_ret|]. apply andb_true_iff in Hplain as [ [Hp Hps]%andb_true_iff Hpl].
  assert (0 <= sumZ resourceStrings l) by (apply sumZ_nonneg; intros; apply resourceStrings_nonneg).
  destruct rp as [url [attrs refs dropped] sps]. destruct Hrp as (Hurl & (Hattrs & Hrefs & Hdropped) & Hsps). cbn in Hp, Hps, Hattrs, Hsps.
  assert (0 <= sumZ scopeStrings sps) by (apply sumZ_nonneg; intros; apply scopeStrings_nonneg).
  cbn [convertResources sumZ]. unfold resourceStrings at 1. cbn. rewrite <- Z.add_assoc. rewrite <- (Z.add_0_r (sumZ resourceStrings l)).
  eapply conv_bind; [lia|apply conv_wrap, attributes_conv; [exact Hattrs|exact Hp]|]. intros attrs'. eapply conv_bind; [lia|by apply scopes_conv|]. intros sps'.
  eapply conv_bind; [lia|by apply IH|]. intros l'. apply conv_ret. intros table [Hl El] [Hs Es] [Ha Ea]. split.
  - constructor; [|done]. split; [done|]. split; [|done]. split; [done|]. split; done.
  - intros j. cbn. rewrite Ea. cbn. rewrite Es. cbn. by rewrite El.
Qed.

(** The dictionary with a longer string table. *)
Definition moreStrings (d d' : ProfilesDictionary) : Prop := exists l, d' = d <| ProfilesDictionary_StringTable := strings d ++ l |>.

Lemma convert_resolve pd : wellFormed true pd -> plainProfiles pd = true -> len (strings (ExportProfilesServiceRequest_Dictionary pd)) + profilesStrings pd < 2 ^ 31 ->
  exists pd', ConvertProfilesToReferences pd = Ok pd' /\ wellFormed true pd' /\
    ResolveProfilesReferences pd' = Ok (pd <| ExportProfilesServiceRequest_Dictionary := ExportProfilesServiceRequest_Dictionary pd' |>) /\
    moreStrings (ExportProfilesServiceRequest_Dictionary pd) (ExportProfilesServiceRequest_Dictionary pd').
Proof.
  destruct pd as [rps d]. intros [Hrps Hd] Hplain Hroom. unfold ConvertProfilesToReferences.
  cbn [ExportProfilesServiceRequest_Dictionary ExportProfilesServiceRequest_ResourceProfiles] in Hroom |- *.
  set (table := if len (strings d) =? 0 then strings d ++ [ [] ] else strings d).
  assert (Hpre : strings d `prefix_of` table) by (unfold table; destruct (_ =? _); [by eexists|done]).
  assert (Hlen : len table <= len (strings d) + 1 /\ 0 < len table).
  { unfold table. pose proof (len_nonneg (strings d)). destruct (Z.eqb_spec (len (strings d)) 0); [rewrite len_app; change (len [ [] ]) with 1; lia|lia]. }
  assert (0 <= profilesStrings (mkExportProfilesServiceRequest rps d)) by (apply sumZ_nonneg; intros; apply resourceStrings_nonneg).
  destruct (resources_conv rps 0 Hrps Hplain (mkInterning table (indexStringTable 0 table ∅)) 0) as (rps' & st & -> & [_ Hb _] & _ & Hp & HR).
  - done.
  - constructor; cbn.
    + apply (indexStringTable_ok [] table ∅); cbn; [lia|]. intros s i Hi. by rewrite lookup_empty in Hi.
    + assert (Forall bytes (strings d)) by apply Hd. unfold table. destruct (_ =? _); [|done]. apply Forall_app. split; [done|]. by repeat constructor.
    + lia.
  - unfold profilesStrings in *. cbn [stringTable ExportProfilesServiceRequest_ResourceProfiles] in *. lia.
  - cbn. destruct (HR (stringTable st)) as [Hrps' Er]; [done|]. eexists. split; [done|]. split; [|split].
    + split; [done|]. cbn. destruct Hd as (?&?&?&?&?&?&?). by repeat (split; [done|]).
    + unfold ResolveProfilesReferences. cbn. by rewrite Er.
    + destruct Hpre as [l1 Hl1], Hp as [l2 Hl2]. cbn in Hl2. exists (l1 ++ l2). cbn. by rewrite Hl2, Hl1, app_assoc.
Qed.

(** ** What resolves *)

(** Every reference is in the table, and no key comes with a reference. *)
Definition keyIn (table : list (list Z)) (kv : KeyValue) : bool :=
  (bool_decide (Key kv = []) || (KeyStrindex kv =? 0)) && (0 <=? KeyStrindex kv) && ((KeyStrindex kv <=? 0) || (KeyStrindex kv <? len table)).

Fixpoint refsIn (table : list (list Z)) (v : AnyValue) : bool :=
  match v with
  | AnyValue_StringValueStrindex i => (0 <=? i) && (i <? len table)
  | AnyValue_KvlistValue (Some l) =>
      (fix each (l : list KeyValue) : bool :=
         match l with [] => true | mkKeyValue k v i :: l => keyIn table (mkKeyValue k v i) && refsIn table v && each l end) l
  | AnyValue_ArrayValue (Some l) => (fix each (l : list AnyValue) : bool := match l with [] => true | v :: l => refsIn table v && each l end) l
  | _ => true
  end.

Definition entryIn (table : list (list Z)) (kv : KeyValue) : bool := keyIn table kv && refsIn table (Value kv).

Definition profilesIn (pd : ExportProfilesServiceRequest) : bool :=
  let table := strings (ExportProfilesServiceRequest_Dictionary pd) in
  forallb (fun rp =>
    forallb (entryIn table) (Resource_Attributes (ResourceProfiles_Resource rp)) &&
    forallb (fun sp => forallb (entryIn table) (InstrumentationScope_Attributes (ScopeProfiles_Scope sp))) (ResourceProfiles_ScopeProfiles rp))
    (ExportProfilesServiceRequest_ResourceProfiles pd).

Lemma refsIn_array table l : refsIn table (AnyValue_ArrayValue (Some l)) = forallb (refsIn table) l.
Proof. cbn. induction l as [|v l IH]; [done|]. cbn. by rewrite IH. Qed.

Lemma refsIn_kvlist table l : refsIn table (AnyValue_KvlistValue (Some l)) = forallb (entryIn table) l.
Proof. cbn. induction l as [|[k v i] l IH]; [done|]. cbn. by rewrite IH. Qed.

(** A check that succeeds exactly when [b], with what [P] says. *)
Definition Resolves {A} (b : bool) (P : A -> Prop) (r : res A) : Prop :=
  match r with Ok a => b = true /\ P a | Err _ => b = false | _ => False end.

Lemma resolves_bind {A B} b1 b2 (P1 : A -> Prop) (P2 : B -> Prop) r f : Resolves b1 P1 r -> (forall a, P1 a -> Resolves b2 P2 (f a)) -> Resolves (b1 && b2) P2 (rbind r f).
Proof.
  intros Hr Hf. destruct r as [a| | |]; cbn in *; [|by rewrite Hr|done..]. destruct Hr as [-> Ha]. specialize (Hf a Ha). by destruct (f a).
Qed.

Lemma resolves_wrap {A} b (P : A -> Prop) fmt args r : Resolves b P r -> Resolves b P (wrap fmt args r).
Proof. by destruct r. Qed.

Lemma resolves_weaken {A} b b' (P P' : A -> Prop) r : Resolves b P r -> b = b' -> (forall a, P a -> P' a) -> Resolves b' P' r.
Proof. intros Hr <- HP. destruct r; cbn in *; [|done..]. destruct Hr as [-> Ha]. split; [done|by apply HP]. Qed.

Lemma at_in {A} (table : list A) i : 0 <= i < len table -> exists x, at_ table i = Ok x.
Proof.
  intros Hi. unfold at_, len in *. destruct (Z.ltb_spec i 0); [lia|]. destruct (lookup_lt_is_Some_2 table (Z.to_nat i)) as [x ->]; [lia|]. by eexists.
Qed.

Lemma resolveKeyValues_resolves table l j :
  Forall (fun kv => Resolves (refsIn table (Value kv)) (fun a => plainAny a = true) (ResolveProfilesAnyValueReference table (Value kv))) l ->
  Resolves (forallb (entryIn table) l) (fun l' => forallb plainKeyValue l' = true) (resolveKeyValues table (ResolveProfilesAnyValueReference table) j l).
Proof.
  intros HF. revert j. induction HF as [|[k v i] l Hv HF IH]; intros j; [done|]. cbn in Hv. cbn [resolveKeyValues forallb]. unfold entryIn at 1. cbn [Value].
  assert (Hrest : forall k', Resolves (refsIn table v && forallb (entryIn table) l) (fun l' => forallb plainKeyValue l' = true)
    (let* value := wrap "attribute %d value: %w" [ArgZ j] (ResolveProfilesAnyValueReference table v) in
     let* keyValues := resolveKeyValues table (ResolveProfilesAnyValueReference table) (j + 1) l in Ok (mkKeyValue k' value 0 :: keyValues))).
  { intros k'. eapply resolves_bind; [by apply resolves_wrap|]. intros v' Hv'. rewrite <- (andb_true_r (forallb _ _)). eapply resolves_bind; [apply IH|].
    intros l' Hl'. split; [done|]. cbn. unfold plainKeyValue. cbn. rewrite Hv'. exact Hl'. }
  rewrite <- andb_assoc. unfold keyIn. cbn [Key KeyStrindex]. destruct (bool_decide (k = [])); cbn [negb andb orb].
  - destruct (Z.ltb_spec i 0), (Z.leb_spec 0 i); try lia; [done|]. cbn [orb andb].
    destruct (Z.ltb_spec 0 i), (Z.leb_spec i 0); try lia; cbn [orb andb].
    + destruct (Z.leb_spec (len table) i), (Z.ltb_spec i (len table)); try lia; [done|]. destruct (at_in table i) as [x ->]; [lia|]. apply Hrest.
    + assert (i = 0) as -> by lia. apply Hrest.
  - destruct (Z.eqb_spec i 0) as [->|]; [|done]. apply Hrest.
Qed.

Lemma resolveValues_resolves table l j :
  Forall (fun v => Resolves (refsIn table v) (fun a => plainAny a = true) (ResolveProfilesAnyValueReference table v)) l ->
  Resolves (forallb (refsIn table) l) (fun l' => forallb plainAny l' = true) (resolveValues (ResolveProfilesAnyValueReference table) j l).
Proof.
  intros HF. revert j. induction HF as [|v l Hv HF IH]; intros j; [done|]. cbn. eapply resolves_bind; [by apply resolves_wrap|]. intros v' Hv'.
  rewrite <- (andb_true_r (forallb _ _)). eapply resolves_bind; [apply IH|]. intros l' Hl'. split; [done|]. cbn. rewrite Hv'. exact Hl'.
Qed.

Lemma resolveAny_resolves table v : Resolves (refsIn table v) (fun a => plainAny a = true) (ResolveProfilesAnyValueReference table v).
Proof.
  induction v as [v Hv|l IH|l IH] using AnyValue_induction.
  - destruct v as [| | | | |[]|[]| |i]; try done. cbn. destruct (Z.ltb_spec i 0), (Z.leb_spec 0 i); try lia; [done|]. cbn.
    destruct (Z.leb_spec (len table) i), (Z.ltb_spec i (len table)); try lia; [done|]. by destruct (at_in table i) as [x ->].
  - rewrite refsIn_array, <- (andb_true_r (forallb _ _)). cbn [ResolveProfilesAnyValueReference]. eapply resolves_bind; [by apply resolveValues_resolves|].
    intros l' Hl'. split; [done|]. by rewrite plainAny_array.
  - rewrite refsIn_kvlist, <- (andb_true_r (forallb _ _)). cbn [ResolveProfilesAnyValueReference]. eapply resolves_bind; [by apply resolveKeyValues_resolves|].
    intros l' Hl'. split; [done|]. by rewrite plainAny_kvlist.
Qed.

Lemma attributes_resolves table l : Resolves (forallb (entryIn table) l) (fun l' => forallb plainKeyValue l' = true) (ResolveProfilesKeyValueReferences table l).
Proof. apply resolveKeyValues_resolves, Forall_forall. intros kv _. apply resolveAny_resolves. Qed.

Lemma scopes_resolves table r i l :
  Resolves (forallb (fun sp => forallb (entryIn table) (InstrumentationScope_Attributes (ScopeProfiles_Scope sp))) l) (fun l' => forallb plainScope l' = true) (resolveScopes table r i l).
Proof.
  revert i. induction l as [|sp l IH]; intros i; [done|]. cbn. eapply resolves_bind; [apply resolves_wrap, attributes_resolves|]. intros attrs Ha.
  rewrite <- (andb_true_r (forallb _ l)). eapply resolves_bind; [apply IH|]. intros l' Hl'. split; [done|]. cbn. unfold plainScope at 1. cbn. rewrite Ha. exact Hl'.
Qed.

Lemma profiles_resolves pd : Resolves (profilesIn pd)
  (fun pd' => plainProfiles pd' = true /\ ExportProfilesServiceRequest_Dictionary pd' = ExportProfilesServiceRequest_Dictionary pd) (ResolveProfilesReferences pd).
Proof.
  destruct pd as [rps d]. unfold profilesIn, ResolveProfilesReferences. cbn [ExportProfilesServiceRequest_Dictionary ExportProfilesServiceRequest_ResourceProfiles].
  rewrite <- (andb_true_r (forallb _ _)). eapply (resolves_bind _ _ (fun l' => forallb plainResource l' = true)); [|by intros rps' Hr].
  generalize 0 as i. induction rps as [|rp rps IH]; intros i; [done|]. cbn [resolveResources forallb]. rewrite <- andb_assoc.
  eapply resolves_bind; [apply resolves_wrap, attributes_resolves|]. intros attrs Ha. eapply resolves_bind; [apply scopes_resolves|]. intros sps Hs.
  rewrite <- (andb_true_r (forallb _ rps)). eapply resolves_bind; [apply IH|]. intros l' Hl'. split; [done|]. cbn [forallb]. unfold plainResource at 1. cbn. rewrite Ha, Hs. exact Hl'.
Qed.

(** ** There and back *)

(** C20: Profiles whose attributes are strings, with room for them in the string table, are
    marshaled as profiles in which every attribute key and every string in an attribute
    value, of resources and scopes, is a reference: what UnmarshalProfiles reads from the bytes has the same resources, scopes,
    profiles and samples, with the strings back in place of their references, and the same
    dictionary with strings added at the end of its table only, so that every index kept
    its meaning.  Data that is read-only is left as it was.  Over gRPC the handler of the
    server gets the same, and the client does not change the data at all. *)
Theorem profiles_roundtrip readOnly pd : ExportProfilesServiceRequest_ok true pd -> plainProfiles pd = true ->
  len (strings (ExportProfilesServiceRequest_Dictionary pd)) + profilesStrings pd < 2 ^ 31 ->
  (forall sent, ConvertProfilesToReferences pd = Ok sent -> fits (ExportProfilesServiceRequest_wire sent)) ->
  exists sent received,
    ConvertProfilesToReferences pd = Ok sent /\ bareProfiles sent = true /\
    pprofile_MarshalProfiles readOnly pd = Ok (ExportProfilesServiceRequest_wire sent, if readOnly then pd else sent) /\
    pprofile_UnmarshalProfiles (ExportProfilesServiceRequest_wire sent) = Ok received /\
    ExportProfilesServiceRequest_ResourceProfiles received = ExportProfilesServiceRequest_ResourceProfiles pd /\
    moreStrings (ExportProfilesServiceRequest_Dictionary pd) (ExportProfilesServiceRequest_Dictionary received) /\
    (forall Rsp Error (srv : _ -> Rsp + error) rawExport,
       (forall request, rawProfilesServer_Export Error srv request = Ok (rawExport request)) ->
       grpcClient_Export rawExport pd = match srv received with inl rsp => Ok rsp | inr err => Err err end).
Proof.
  intros Hok Hplain Hroom Hfits. destruct (convert_resolve pd Hok Hplain Hroom) as (sent & Hc & Hw & Hr & Hm). specialize (Hfits sent Hc).
  exists sent, (pd <| ExportProfilesServiceRequest_Dictionary := ExportProfilesServiceRequest_Dictionary sent |>).
  split; [done|]. split; [by eapply convert_bare|]. split; [|split; [|split; [done|split; [done|] ] ] ].
  - unfold pprofile_MarshalProfiles. rewrite Hc. cbn [rbind]. destruct (marshalNew_wire true sent Hw Hfits) as [-> _]. done.
  - unfold pprofile_UnmarshalProfiles. change (ExportProfilesServiceRequest_wire sent) with (wire sent). rewrite (codec_roundtrip sent Hw Hfits). exact Hr.
  - intros Rsp Error srv rawExport Hraw. unfold grpcClient_Export. rewrite Hc. cbn [rbind]. specialize (Hraw sent). unfold rawProfilesServer_Export in Hraw.
    rewrite Hr in Hraw. injection Hraw as <-. done.
Qed.

(** C21: UnmarshalProfiles, of any bytes at all, does not panic.  It gives an error when the
    bytes are not a message, or when a reference in an attribute of a resource or a scope
    is not in the string table or comes with a key, and profiles without any reference in
    these attributes otherwise. *)
Theorem unmarshal_profiles_total buf : bytes buf -> fits buf ->
  match UnmarshalProto buf ExportProfilesServiceRequest_zero with
  | Ok pd =>
      match pprofile_UnmarshalProfiles buf with
      | Ok pd' => profilesIn pd = true /\ plainProfiles pd' = true /\ ExportProfilesServiceRequest_Dictionary pd' = ExportProfilesServiceRequest_Dictionary pd
      | Err _ => profilesIn pd = false
      | _ => False
      end
  | Err e => pprofile_UnmarshalProfiles buf = Err e
  | _ => False
  end.
Proof.
  intros Hb Hf. pose proof (decode_safe (M := ExportProfilesServiceRequest) buf Hb Hf) as HS. unfold pprofile_UnmarshalProfiles.
  change ExportProfilesServiceRequest_zero with (zero (M := ExportProfilesServiceRequest)). destruct (UnmarshalProto buf zero) as [pd| | |]; [|done..]. cbn [rbind].
  exact (profiles_resolves pd).
Qed.

(** ** Examples *)
#[local] Transparent RecursionLimit.

Definition attributeResource : Resource :=
  Resource_zero <| Resource_Attributes :=
    [mkKeyValue [107] (AnyValue_StringValue [118]) 0; mkKeyValue [] (AnyValue_ArrayValue (Some [AnyValue_StringValue [118]; AnyValue_StringValue [] ])) 0] |>.

Definition attributeProfiles : ExportProfilesServiceRequest :=
  mkExportProfilesServiceRequest
    [mkResourceProfiles [] attributeResource [mkScopeProfiles [] [Profile_zero] InstrumentationScope_zero] ] ProfilesDictionary_zero.

Lemma attributes_ok : Forall (wellFormed true)
  [mkKeyValue [107] (AnyValue_StringValue [118]) 0; mkKeyValue [] (AnyValue_ArrayValue (Some [AnyValue_StringValue [118]; AnyValue_StringValue [] ])) 0].
Proof.
  change (wellFormed true) with (KvOk true RecursionLimit). change RecursionLimit with (4 + 96)%nat. generalize 96%nat as n. intros n.
  repeat constructor; cbn; unfold is_byte, is_i32; lia.
Qed.

Lemma attributeResource_ok : Resource_ok true attributeResource.
Proof. split; [exact attributes_ok|]. split; [constructor|done]. Qed.

Lemma attributeScope_ok : ScopeProfiles_ok true (mkScopeProfiles [] [Profile_zero] InstrumentationScope_zero).
Proof.
  split; [constructor|]. split; [|sample_ok]. constructor; [|constructor].
  split; [constructor|]. split; [constructor|]. do 2 (split; [constructor|]). do 6 (split; [done|]). split; [|reflexivity]. by apply Forall_replicate.
Qed.

Lemma attributeProfiles_ok : ExportProfilesServiceRequest_ok true attributeProfiles.
Proof.
  unfold attributeProfiles, ExportProfilesServiceRequest_ok. cbn [ExportProfilesServiceRequest_ResourceProfiles ExportProfilesServiceRequest_Dictionary].
  split; [|sample_ok]. apply Forall_singleton. split; [constructor|]. split; [exact attributeResource_ok|]. apply Forall_singleton. exact attributeScope_ok.
Qed.

Lemma profiles_roundtrip_witness : exists sent received,
  pprofile_MarshalProfiles true attributeProfiles = Ok (ExportProfilesServiceRequest_wire sent, attributeProfiles) /\
  pprofile_UnmarshalProfiles (ExportProfilesServiceRequest_wire sent) = Ok received /\
  ExportProfilesServiceRequest_ResourceProfiles received = ExportProfilesServiceRequest_ResourceProfiles attributeProfiles /\
  strings (ExportProfilesServiceRequest_Dictionary received) = [ []; [107]; [118] ].
Proof.
  destruct (profiles_roundtrip true attributeProfiles attributeProfiles_ok) as (sent & received & Hc & _ & Hm & Hu & Hr & _).
  - reflexivity.
  - vm_compute. reflexivity.
  - intros sent Hc. vm_compute in Hc. injection Hc as <-. vm_compute. reflexivity.
  - exists sent, received. split; [exact Hm|]. split; [exact Hu|]. split; [exact Hr|].
    vm_compute in Hc. injection Hc as <-. vm_compute in Hu. injection Hu as <-. reflexivity.
Defined.

Lemma unmarshal_profiles_total_witness :
  match pprofile_UnmarshalProfiles (ExportProfilesServiceRequest_wire attributeProfiles) with Ok pd' => plainProfiles pd' = true | _ => False end.
Proof.
  pose proof (unmarshal_profiles_total (ExportProfilesServiceRequest_wire attributeProfiles)) as H.
  destruct (UnmarshalProto _ _) eqn:E; [|vm_compute in E; discriminate E..]. destruct (pprofile_UnmarshalProfiles _) eqn:E2; [|vm_compute in E2; discriminate E2..].
  apply H; [|reflexivity]. apply (Forall_impl (fun b => (0 <=? b) && (b <? 256) = true)).
  - apply Forall_forall. intros b Hb. revert b Hb. rewrite <- Forall_forall. vm_compute. repeat constructor.
  - intros b Hb. apply andb_true_iff in Hb as [Hb1%Z.leb_le Hb2%Z.ltb_lt]. split; done.
Defined.

(** MarshalProfiles of data that is not read-only leaves references in it: the API no
    longer finds the attribute of the resource, nor the text of its value. *)
Theorem marshal_leaves_references :
  Get (flat_map (fun rp => Resource_Attributes (ResourceProfiles_Resource rp)) (ExportProfilesServiceRequest_ResourceProfiles attributeProfiles)) [107] =
    Some (AnyValue_StringValue [118]) /\
  match pprofile_MarshalProfiles false attributeProfiles with
  | Ok (_, pd) =>
      Get (flat_map (fun rp => Resource_Attributes (ResourceProfiles_Resource rp)) (ExportProfilesServiceRequest_ResourceProfiles pd)) [107] = None
  | _ => False
  end.
Proof. vm_compute. done. Qed.
