(* ===== verification/ProfilesSplit.v ===== *)
(** * Batching of profiles

    exporter/exporterhelper/xexporterhelper/profiles_batch.go, with the request of
    profiles.go and the sizers of internal/sizer/profiles_sizer.go: two requests are merged
    into one dictionary and split by size.

    The extraction at each of the three levels is proved with the lemmas of SignalSplit,
    and merging with those of ProfilesMerge. *)

From stdpp Require Import gmap.
From S2P Require Import Prelude RecordUpdate Errors Sizers ProtoWire ProtoWireProofs ProtoFields ProtoCommon ProtoCommonProofs PcommonValue PcommonMap ProtoMessage ProtoKinds ProtoIds ProtoResource ProtoProfiles ProtoExport SignalSplit ProfilesDict ProfilesIndex ProfilesMeaning ProfilesMerge.
Local Open Scope Z_scope.
Local Open Scope otel_scope.

Local Abbreviation dictOf := ExportProfilesServiceRequest_Dictionary.
Local Abbreviation resourcesOf := ExportProfilesServiceRequest_ResourceProfiles.

(** ** Sizers *)
Record ProfilesSizer := mkProfilesSizer {
  ProfilesSize : ExportProfilesServiceRequest -> Z;
  ResourceProfilesSize : ResourceProfiles -> Z;
  ScopeProfilesSize : ScopeProfiles -> Z;
  ProfileSize : Profile -> Z;
  ProfilesDeltaSize : Z -> Z;
}.

(** [Profiles.SampleCount]. *)
Definition SampleCount (ms : ExportProfilesServiceRequest) : Z :=
  sumZ (fun rp => sumZ (fun sp => sumZ (fun p => len (Profile_Samples p)) (ScopeProfiles_Profiles sp)) (ResourceProfiles_ScopeProfiles rp)) (resourcesOf ms).

Definition ProfilesCountSizer : ProfilesSizer := {|
  ProfilesSize := SampleCount;
  ResourceProfilesSize rp := sumZ (fun sp => len (ScopeProfiles_Profiles sp)) (ResourceProfiles_ScopeProfiles rp);
  ScopeProfilesSize sp := len (ScopeProfiles_Profiles sp);
  ProfileSize _ := 1;
  ProfilesDeltaSize newItemSize := newItemSize;
|}.

Definition ProfilesBytesSizer : ProfilesSizer := {|
  ProfilesSize pd := SizeProto pd;
  ResourceProfilesSize rp := SizeProto rp;
  ScopeProfilesSize sp := SizeProto sp;
  ProfileSize p := SizeProto p;
  ProfilesDeltaSize := protoDeltaSize;
|}.

(** ** Extraction *)
Section Extract.
Context (sz : ProfilesSizer).

Definition profileStep (maxProfileSize : Z) (st : Z * Z * list Profile) (srcProfile : Profile) : (Z * Z * list Profile) * Profile * bool :=
  let '(capacityLeft, removedSize, dest) := st in
  if capacityLeft =? 0 then (st, srcProfile, false)
  else
    let profileSize := ProfilesDeltaSize sz (ProfileSize sz srcProfile) in
    if maxProfileSize <? profileSize then ((capacityLeft, removedSize + profileSize, dest), srcProfile, true)
    else if capacityLeft <? profileSize then ((0, removedSize, dest), srcProfile, false)
    else ((capacityLeft - profileSize, removedSize + profileSize, dest ++ [srcProfile]), srcProfile, true).

(** The destination, the removed size, and the source as it is left. *)
Definition extractScopeProfiles (srcSP : ScopeProfiles) (capacity maxScopeSize : Z) : ScopeProfiles * Z * ScopeProfiles :=
  let destSP := mkScopeProfiles (ScopeProfiles_SchemaUrl srcSP) [] (ScopeProfiles_Scope srcSP) in
  let capacityLeft := capacity - (ProfilesDeltaSize sz capacity - capacity) - ScopeProfilesSize sz destSP in
  let maxProfileSize := maxScopeSize - (ProfilesDeltaSize sz maxScopeSize - maxScopeSize) - ScopeProfilesSize sz destSP in
  let '((_, removedSize, dest), rest) := removeIf (profileStep maxProfileSize) (capacityLeft, 0, []) (ScopeProfiles_Profiles srcSP) in
  (destSP <| ScopeProfiles_Profiles := dest |>, removedSize, srcSP <| ScopeProfiles_Profiles := rest |>).

Definition scopeProfilesStep (maxScopeSize : Z) (st : Z * Z * list ScopeProfiles) (srcSP : ScopeProfiles)
  : (Z * Z * list ScopeProfiles) * ScopeProfiles * bool :=
  let '(capacityLeft, removedSize, dest) := st in
  if capacityLeft =? 0 then (st, srcSP, false)
  else
    let rawSpSize := ScopeProfilesSize sz srcSP in
    let spSize := ProfilesDeltaSize sz rawSpSize in
    if capacityLeft <? spSize then
      let '(extSrcSP, extSpSize, srcSP) := extractScopeProfiles srcSP capacityLeft maxScopeSize in
      let dest := if (0 <? length (ScopeProfiles_Profiles extSrcSP))%nat then dest ++ [extSrcSP] else dest in
      if (length (ScopeProfiles_Profiles srcSP) =? 0)%nat then ((0, removedSize + spSize, dest), srcSP, true)
      else ((0, removedSize + (spSize - ProfilesDeltaSize sz (rawSpSize - extSpSize)), dest), srcSP, false)
    else ((capacityLeft - spSize, removedSize + spSize, dest ++ [srcSP]), srcSP, true).

Definition extractResourceProfiles (srcRP : ResourceProfiles) (capacity maxSize : Z) : ResourceProfiles * Z * ResourceProfiles :=
  let destRP := mkResourceProfiles (ResourceProfiles_SchemaUrl srcRP) (ResourceProfiles_Resource srcRP) [] in
  let capacityLeft := capacity - (ProfilesDeltaSize sz capacity - capacity) - ResourceProfilesSize sz destRP in
  let maxScopeSize := maxSize - (ProfilesDeltaSize sz maxSize - maxSize) - ResourceProfilesSize sz destRP in
  let '((_, removedSize, dest), rest) := removeIf (scopeProfilesStep maxScopeSize) (capacityLeft, 0, []) (ResourceProfiles_ScopeProfiles srcRP) in
  (destRP <| ResourceProfiles_ScopeProfiles := dest |>, removedSize, srcRP <| ResourceProfiles_ScopeProfiles := rest |>).

Definition resourceProfilesStep (capacity : Z) (st : Z * Z * list ResourceProfiles) (srcRP : ResourceProfiles)
  : (Z * Z * list ResourceProfiles) * ResourceProfiles * bool :=
  let '(capacityLeft, removedSize, dest) := st in
  if capacityLeft =? 0 then (st, srcRP, false)
  else
    let rawRpSize := ResourceProfilesSize sz srcRP in
    let rpSize := ProfilesDeltaSize sz rawRpSize in
    if capacityLeft <? rpSize then
      let '(extSrcRP, extRpSize, srcRP) := extractResourceProfiles srcRP capacityLeft capacity in
      let dest := if (0 <? length (ResourceProfiles_ScopeProfiles extSrcRP))%nat then dest ++ [extSrcRP] else dest in
      if (length (ResourceProfiles_ScopeProfiles srcRP) =? 0)%nat then ((0, removedSize + rpSize, dest), srcRP, true)
      else ((0, removedSize + (rpSize - ProfilesDeltaSize sz (rawRpSize - extRpSize)), dest), srcRP, false)
    else ((capacityLeft - rpSize, removedSize + rpSize, dest ++ [srcRP]), srcRP, true).

(** The dictionary of the source is copied. *)
Definition extractProfiles (src : ExportProfilesServiceRequest) (capacity : Z) : ExportProfilesServiceRequest * Z * ExportProfilesServiceRequest :=
  let capacityLeft := capacity - ProfilesSize sz ExportProfilesServiceRequest_zero in
  let '((_, removedSize, dest), rest) := removeIf (resourceProfilesStep capacity) (capacityLeft, 0, []) (resourcesOf src) in
  (mkExportProfilesServiceRequest dest (dictOf src), removedSize, src <| ExportProfilesServiceRequest_ResourceProfiles := rest |>).
End Extract.

(** ** Requests *)
Record profilesRequest := mkProfilesRequest {
  pd : ExportProfilesServiceRequest;
  pd_readOnly : bool;
  cachedSize : Z;
}.

#[export] Instance profilesRequest_settable : Settable profilesRequest := settable! mkProfilesRequest <pd; pd_readOnly; cachedSize>.

Definition newProfilesRequest (d : ExportProfilesServiceRequest) : profilesRequest := mkProfilesRequest d false (-1).

(** The size, and the request with its size cached. *)
Definition profilesRequest_size (sz : ProfilesSizer) (req : profilesRequest) : Z * profilesRequest :=
  let req := if cachedSize req =? -1 then req <| cachedSize := ProfilesSize sz (pd req) |> else req in
  (cachedSize req, req).

(** The source is marked read-only by [MergeTo].  What an error leaves of the two is not
    described. *)
Definition profilesRequest_mergeTo (sz : ProfilesSizer) (req dst : profilesRequest) : res (profilesRequest * profilesRequest) :=
  let '(n1, dst) := profilesRequest_size sz dst in
  let '(n2, req) := profilesRequest_size sz req in
  let dst := dst <| cachedSize := n1 + n2 |> in
  let req := req <| cachedSize := 0 |> in
  let* (src, dest) := MergeTo (pd_readOnly req) (pd_readOnly dst) (pd req) (pd dst) in
  Ok (req <| pd := src |> <| pd_readOnly := true |>, dst <| pd := dest |>).

Definition errProfilesCannotSplit (n : Z) : error :=
  Errorf "request size is greater than max size and cannot be split further, dropping items: %d" [ArgZ n].
Definition errProfilesDropped (n : Z) : error := Errorf "single profile exceeds the max size limit, dropping items: %d" [ArgZ n].

(** The loop.  [RemoveIf] panics on read-only data. *)
Fixpoint profilesSplitLoop (sz : ProfilesSizer) (maxSize : Z) (fuel : nat) (req : profilesRequest) (out : list profilesRequest) (droppedItems : Z)
  : res (list profilesRequest * option error) :=
  match fuel with
  | O => OutOfFuel
  | S fuel =>
      let '(n, req) := profilesRequest_size sz req in
      if maxSize <? n then
        let samplesBefore := SampleCount (pd req) in
        if pd_readOnly req then Panic
        else
          let '(ext, removedSize, src) := extractProfiles sz (pd req) maxSize in
          let req := req <| pd := src |> in
          if removedSize =? 0 then Ok (out, Some (errProfilesCannotSplit (droppedItems + SampleCount (pd req))))
          else
            let '(n, req) := profilesRequest_size sz req in
            let req := req <| cachedSize := n - removedSize |> in
            let droppedItems := droppedItems + (samplesBefore - SampleCount (pd req) - SampleCount ext) in
            let out := if 0 <? SampleCount ext then out ++ [newProfilesRequest ext] else out in
            profilesSplitLoop sz maxSize fuel req out droppedItems
      else
        let out := if 0 <? SampleCount (pd req) then out ++ [req] else out in
        Ok (out, if 0 <? droppedItems then Some (errProfilesDropped droppedItems) else None)
  end.

Definition resourcesSize (sz : ProfilesSizer) (d : ExportProfilesServiceRequest) : Z :=
  sumZ (fun rp => ProfilesDeltaSize sz (ResourceProfilesSize sz rp)) (resourcesOf d).

(** Each round takes something from the resources: as many rounds as their size are
    enough, and one to see that it is done. *)
Definition profilesRequest_split (sz : ProfilesSizer) (maxSize : Z) (req : profilesRequest) : res (list profilesRequest * option error) :=
  let '(n, req) := profilesRequest_size sz req in
  if n <=? maxSize then Ok ([req], None)
  else profilesSplitLoop sz maxSize (S (Z.to_nat (resourcesSize sz (pd req)))) req [] 0.

(** The second request is absent ([None]), of another type ([Some None]) with that many
    items, or of the same type. *)
Definition profilesRequest_MergeSplit (req : profilesRequest) (maxSize : Z) (szt : SizerType) (r2 : option (profilesRequest + Z))
  : res (list profilesRequest * option error) :=
  let go sz :=
    let merged :=
      match r2 with
      | Some (inl req2) =>
          if 0 <? SampleCount (pd req2)
          then match profilesRequest_mergeTo sz req2 req with
               | Ok (_, req) => Ok (inl req)
               | Err e => Ok (inr (Wrapf "failed merging profiles; %w" [] e))
               | Panic => Panic
               | OutOfFuel => OutOfFuel
               end
          else Ok (inl req)
      | Some (inr n) => if 0 <? n then Ok (inr (New "invalid input type")) else Ok (inl req)
      | None => Ok (inl req)
      end in
    let* merged := merged in
    match merged with
    | inr e => Ok ([], Some e)
    | inl req => if maxSize =? 0 then Ok ([req], None) else profilesRequest_split sz maxSize req
    end in
  if decide (szt = SizerTypeItems) then go ProfilesCountSizer
  else if decide (szt = SizerTypeBytes) then go ProfilesBytesSizer
  else Ok ([], Some (New "unknown sizer type")).
