(* ===== verification/ProfilesSplitProofs.v ===== *)
(** * Batching of profiles: the theorems

    What a sizer of profiles promises, discharged for the two of them; extraction at the
    three levels; and the account that MergeSplit gives of every sample, composed with the
    meaning that merging keeps. *)

From stdpp Require Import gmap.
From S2P Require Import Prelude RecordUpdate Errors Sizers ProtoWire ProtoWireProofs ProtoFields ProtoCommon ProtoCommonProofs PcommonValue PcommonMap ProtoMessage ProtoKinds ProtoIds ProtoResource ProtoProfiles ProtoExport SignalSplit SplitProps ProfilesDict ProfilesIndex ProfilesMeaning ProfilesMerge ProfilesSplit.
Local Open Scope Z_scope.
Local Open Scope otel_scope.

Local Abbreviation dictOf := ExportProfilesServiceRequest_Dictionary.
Local Abbreviation resourcesOf := ExportProfilesServiceRequest_ResourceProfiles.

(** ** Sizes are not negative *)
Lemma sizeLen_nonneg l : 0 <= l -> 0 <= sizeLen 1 l.
Proof. intros Hl. unfold sizeLen. pose proof (sov_pos l Hl). lia. Qed.

Lemma sizeRepeated_nonneg {A} (f : A -> Z) l : (forall x, x ∈ l -> 0 <= f x) -> 0 <= sizeRepeated f l.
Proof.
  induction l as [|x l IH]; intros Hf; [done|]. cbn. pose proof (Hf x ltac:(left)). assert (0 <= sizeRepeated f l) by (apply IH; intros; apply Hf; by right). unfold sizeRepeated in *. lia.
Qed.

Lemma sov_u64_nonneg i : 0 <= 1 + sov (u64 i).
Proof. pose proof (u64_range i) as [Hi _]. pose proof (sov_pos _ Hi). lia. Qed.

Lemma sizePackedInt_nonneg l : 0 <= sizePackedInt 1 l.
Proof. apply sizeLen_nonneg, sizeRepeated_nonneg. intros x _. pose proof (u64_range x) as [Hi _]. pose proof (sov_pos _ Hi). lia. Qed.

Create HintDb sizes.
#[local] Hint Resolve sizeLen_nonneg sizeRepeated_nonneg sov_u64_nonneg sizePackedInt_nonneg len_nonneg : sizes.

(** A sum of fields, each there or not. *)
Ltac size_nonneg :=
  repeat match goal with
  | |- 0 <= _ + _ => first [apply sov_u64_nonneg|apply Z.add_nonneg_nonneg]
  | |- 0 <= (if _ then _ else _) => case_match
  | |- 0 <= sizeRepeated _ _ => apply sizeRepeated_nonneg; intros ? _
  | |- _ => progress auto with sizes
  end; try lia.

Lemma AnyValue_SizeProto_nonneg v : 0 <= AnyValue_SizeProto v.
Proof.
  induction v as [v Hv|l IH|l IH] using AnyValue_induction.
  - destruct v as [| | | | |[]|[]| |]; try done; cbn; size_nonneg.
  - cbn. apply sizeLen_nonneg, sizeRepeated_nonneg. intros v Hv. rewrite Forall_forall in IH. by apply sizeLen_nonneg, IH.
  - cbn. apply sizeLen_nonneg, sizeRepeated_nonneg. intros [k v i] Hv. rewrite Forall_forall in IH. specialize (IH _ Hv). cbn in IH.
    apply sizeLen_nonneg. cbn. size_nonneg.
Qed.

Lemma KeyValue_SizeProto_nonneg kv : 0 <= KeyValue_SizeProto kv.
Proof. destruct kv as [k v i]. pose proof (AnyValue_SizeProto_nonneg v). cbn. size_nonneg. Qed.
#[local] Hint Resolve KeyValue_SizeProto_nonneg : sizes.

Lemma EntityRef_SizeProto_nonneg m : 0 <= EntityRef_SizeProto m.
Proof. unfold EntityRef_SizeProto. size_nonneg. Qed.
#[local] Hint Resolve EntityRef_SizeProto_nonneg : sizes.

Lemma Resource_SizeProto_nonneg m : 0 <= Resource_SizeProto m.
Proof. unfold Resource_SizeProto. cbn. size_nonneg. Qed.

Lemma InstrumentationScope_SizeProto_nonneg m : 0 <= InstrumentationScope_SizeProto m.
Proof. unfold InstrumentationScope_SizeProto. cbn. size_nonneg. Qed.

Lemma ValueType_SizeProto_nonneg m : 0 <= ValueType_SizeProto m.
Proof. unfold ValueType_SizeProto. size_nonneg. Qed.

Lemma Sample_SizeProto_nonneg m : 0 <= Sample_SizeProto m.
Proof. unfold Sample_SizeProto. pose proof (len_nonneg (Sample_TimestampsUnixNano m)). size_nonneg. apply sizeLen_nonneg. lia. Qed.
#[local] Hint Resolve Resource_SizeProto_nonneg InstrumentationScope_SizeProto_nonneg ValueType_SizeProto_nonneg Sample_SizeProto_nonneg : sizes.

Lemma Profile_SizeProto_nonneg m : 0 <= Profile_SizeProto m.
Proof.
  unfold Profile_SizeProto. cbn. assert (0 <= ProfileID_SizeProto (Profile_ProfileId m)) by (unfold ProfileID_SizeProto, ID_SizeProto; by case_match).
  size_nonneg.
Qed.
#[local] Hint Resolve Profile_SizeProto_nonneg : sizes.

(** ** What a sizer promises

    Sizes are Go [int]s: the size of a message is the sum of what it is made of as long as
    each of them is below 2^63. *)
Class ProfilesSizerLaws (sz : ProfilesSizer) : Prop := {
  pl_delta_ge x : x <= ProfilesDeltaSize sz x;
  pl_delta_mono x y : 0 <= x <= y -> y < 2 ^ 63 -> y - x <= ProfilesDeltaSize sz y - ProfilesDeltaSize sz x;
  pl_delta_fit x c : 0 <= x -> c < 2 ^ 63 -> x <= c - (ProfilesDeltaSize sz c - c) -> ProfilesDeltaSize sz x <= c;
  pl_profile p : 1 <= ProfilesDeltaSize sz (ProfileSize sz p);
  pl_scope_base url sc : 0 <= ScopeProfilesSize sz (mkScopeProfiles url [] sc);
  pl_scope url ps sc : Forall (fun p => ProfileSize sz p < 2 ^ 63) ps -> ScopeProfilesSize sz (mkScopeProfiles url ps sc) =
    ScopeProfilesSize sz (mkScopeProfiles url [] sc) + sumZ (fun p => ProfilesDeltaSize sz (ProfileSize sz p)) ps;
  pl_scope_parts sp : ScopeProfilesSize sz sp < 2 ^ 63 -> Forall (fun p => ProfileSize sz p < 2 ^ 63) (ScopeProfiles_Profiles sp);
  pl_resource_base url res : 0 <= ResourceProfilesSize sz (mkResourceProfiles url res []);
  pl_resource url res sps : Forall (fun sp => ScopeProfilesSize sz sp < 2 ^ 63) sps -> ResourceProfilesSize sz (mkResourceProfiles url res sps) =
    ResourceProfilesSize sz (mkResourceProfiles url res []) + sumZ (fun sp => ProfilesDeltaSize sz (ScopeProfilesSize sz sp)) sps;
  pl_resource_parts rp : ResourceProfilesSize sz rp < 2 ^ 63 -> Forall (fun sp => ScopeProfilesSize sz sp < 2 ^ 63) (ResourceProfiles_ScopeProfiles rp);
  pl_scope_rows sp : len (ScopeProfiles_Profiles sp) <= ScopeProfilesSize sz sp;
  pl_resource_rows rp : sumZ (fun sp => len (ScopeProfiles_Profiles sp)) (ResourceProfiles_ScopeProfiles rp) <= ResourceProfilesSize sz rp;
}.

#[export] Instance ProfilesCountSizer_laws : ProfilesSizerLaws ProfilesCountSizer.
Proof.
  split; cbn; intros; try lia; try apply len_nonneg.
  - rewrite sumZ_const. unfold len. cbn [length]. lia.
  - by apply Forall_true.
  - apply Forall_forall. intros sp Hsp.
    pose proof (sumZ_le_elem (fun sp => len (ScopeProfiles_Profiles sp)) _ sp ltac:(intros; apply len_nonneg) Hsp). cbn in *. lia.
Qed.

(** The size of a repeated field. *)
Lemma sizeRepeated_delta {A} (f : A -> Z) l : (forall x, x ∈ l -> 0 <= f x < 2 ^ 63) -> sizeRepeated (fun x => sizeLen 1 (f x)) l = sumZ (fun x => protoDeltaSize (f x)) l.
Proof.
  induction l as [|x l IH]; intros Hf; [done|]. cbn. rewrite <- IH by (intros; apply Hf; by right). unfold sizeRepeated. f_equal. unfold sizeLen, protoDeltaSize.
  rewrite u64_id; [lia|]. pose proof (Hf x ltac:(left)). unfold is_u64. lia.
Qed.

Lemma sizeRepeated_parts {A} (f : A -> Z) l x : (forall x, x ∈ l -> 0 <= f x) -> x ∈ l -> f x <= sizeRepeated (fun x => sizeLen 1 (f x)) l.
Proof.
  induction l as [|y l IH]; intros Hf Hx; [by apply not_elem_of_nil in Hx|]. pose proof (Hf y ltac:(left)) as Hy. cbn. pose proof (sov_pos _ Hy).
  assert (0 <= sizeRepeated (fun x => sizeLen 1 (f x)) l) by (apply sizeRepeated_nonneg; intros; apply sizeLen_nonneg, Hf; by right).
  unfold sizeRepeated, sizeLen in *. apply elem_of_cons in Hx as [->|Hx]; [lia|]. specialize (IH ltac:(intros; apply Hf; by right) Hx). lia.
Qed.

Lemma sizeRepeated_len {A} (f : A -> Z) l : (forall x, x ∈ l -> 0 <= f x) -> len l <= sizeRepeated (fun x => sizeLen 1 (f x)) l.
Proof.
  induction l as [|y l IH]; intros Hf; [done|]. pose proof (Hf y ltac:(left)) as Hy. cbn. pose proof (sov_pos _ Hy). rewrite len_cons.
  specialize (IH ltac:(intros; apply Hf; by right)). unfold sizeRepeated, sizeLen in *. lia.
Qed.

Lemma ScopeProfiles_SizeProto_nonneg m : 0 <= ScopeProfiles_SizeProto m.
Proof. unfold ScopeProfiles_SizeProto. cbn. size_nonneg. Qed.
#[local] Hint Resolve ScopeProfiles_SizeProto_nonneg : sizes.

Lemma ScopeProfiles_SizeProto_parts sp : sizeRepeated (fun x => sizeLen 1 (Profile_SizeProto x)) (ScopeProfiles_Profiles sp) <= ScopeProfiles_SizeProto sp.
Proof.
  unfold ScopeProfiles_SizeProto. cbn. assert (0 <= sizeLen 1 (InstrumentationScope_SizeProto (ScopeProfiles_Scope sp))) by auto with sizes.
  assert (0 <= if 0 <? len (ScopeProfiles_SchemaUrl sp) then sizeLen 1 (len (ScopeProfiles_SchemaUrl sp)) else 0) by size_nonneg. lia.
Qed.

Lemma ResourceProfiles_SizeProto_parts rp : sizeRepeated (fun x => sizeLen 1 (ScopeProfiles_SizeProto x)) (ResourceProfiles_ScopeProfiles rp) <= ResourceProfiles_SizeProto rp.
Proof.
  unfold ResourceProfiles_SizeProto. cbn. assert (0 <= sizeLen 1 (Resource_SizeProto (ResourceProfiles_Resource rp))) by auto with sizes.
  assert (0 <= if 0 <? len (ResourceProfiles_SchemaUrl rp) then sizeLen 1 (len (ResourceProfiles_SchemaUrl rp)) else 0) by size_nonneg. lia.
Qed.

Lemma ScopeProfiles_SizeProto_rows sp : len (ScopeProfiles_Profiles sp) <= ScopeProfiles_SizeProto sp.
Proof. etransitivity; [|apply ScopeProfiles_SizeProto_parts]. apply sizeRepeated_len. intros. apply Profile_SizeProto_nonneg. Qed.

#[export] Instance ProfilesBytesSizer_laws : ProfilesSizerLaws ProfilesBytesSizer.
Proof.
  split; cbn; intros.
  - pose proof (protoDeltaSize_ge x). lia.
  - by apply protoDeltaSize_mono.
  - by apply protoDeltaSize_fit.
  - pose proof (protoDeltaSize_ge (Profile_SizeProto p)). pose proof (Profile_SizeProto_nonneg p). lia.
  - apply ScopeProfiles_SizeProto_nonneg.
  - rewrite <- (sizeRepeated_delta Profile_SizeProto ps).
    + unfold ScopeProfiles_SizeProto, sizeRepeated. cbn. lia.
    + intros p Hp. rewrite Forall_forall in H. split; [apply Profile_SizeProto_nonneg|by apply H].
  - apply Forall_forall. intros p Hp. pose proof (ScopeProfiles_SizeProto_parts sp).
    pose proof (sizeRepeated_parts Profile_SizeProto _ p ltac:(intros; apply Profile_SizeProto_nonneg) Hp). lia.
  - unfold ResourceProfiles_SizeProto. cbn. size_nonneg.
  - rewrite <- (sizeRepeated_delta ScopeProfiles_SizeProto sps).
    + unfold ResourceProfiles_SizeProto, sizeRepeated. cbn. lia.
    + intros p Hp. rewrite Forall_forall in H. split; [apply ScopeProfiles_SizeProto_nonneg|by apply H].
  - apply Forall_forall. intros p Hp. pose proof (ResourceProfiles_SizeProto_parts rp).
    pose proof (sizeRepeated_parts ScopeProfiles_SizeProto _ p ltac:(intros; apply ScopeProfiles_SizeProto_nonneg) Hp). lia.
  - apply ScopeProfiles_SizeProto_rows.
  - etransitivity; [|apply ResourceProfiles_SizeProto_parts]. induction (ResourceProfiles_ScopeProfiles rp) as [|sp l IH]; [done|]. cbn.
    pose proof (ScopeProfiles_SizeProto_rows sp). pose proof (sov_pos _ (ScopeProfiles_SizeProto_nonneg sp)). unfold sizeRepeated, sizeLen in *. lia.
Qed.

(** ** Extraction *)
Section ExtractProofs.
Context (sz : ProfilesSizer) `{!ProfilesSizerLaws sz}.

Local Abbreviation δ := (ProfilesDeltaSize sz).

(** The profiles of a structure, each with the headers above it. *)
Definition scopeProfileRows (sp : ScopeProfiles) : list (InstrumentationScope * list Z * Profile) :=
  map (fun p => (ScopeProfiles_Scope sp, ScopeProfiles_SchemaUrl sp, p)) (ScopeProfiles_Profiles sp).
Definition resourceProfileRows (rp : ResourceProfiles) : list (Resource * list Z * (InstrumentationScope * list Z * Profile)) :=
  map (fun t => (ResourceProfiles_Resource rp, ResourceProfiles_SchemaUrl rp, t)) (flat_map scopeProfileRows (ResourceProfiles_ScopeProfiles rp)).
Definition profileRows (d : ExportProfilesServiceRequest) := flat_map resourceProfileRows (resourcesOf d).

(** A profile too large for an otherwise empty batch of [maxSize]. *)
Definition maxProfileSize (maxScopeSize : Z) (sc : InstrumentationScope) (url : list Z) : Z :=
  maxScopeSize - (δ maxScopeSize - maxScopeSize) - ScopeProfilesSize sz (mkScopeProfiles url [] sc).
Definition maxScopeSize (maxSize : Z) (res : Resource) (url : list Z) : Z :=
  maxSize - (δ maxSize - maxSize) - ResourceProfilesSize sz (mkResourceProfiles url res []).
Definition tooLarge (m : Z) (p : Profile) : Prop := m < δ (ProfileSize sz p).
Definition tooLargeInScope (m : Z) (t : InstrumentationScope * list Z * Profile) : Prop := tooLarge (maxProfileSize m t.1.1 t.1.2) t.2.
Definition oversizedProfile (maxSize : Z) (t : Resource * list Z * (InstrumentationScope * list Z * Profile)) : Prop :=
  tooLargeInScope (maxScopeSize maxSize t.1.1 t.1.2) t.2.

Lemma profileStep_ok m :
  step_ok (fun p => δ (ProfileSize sz p)) (fun p => [p]) (tooLarge m) (fun p => ProfileSize sz p < 2 ^ 63) (2 ^ 63 - 1) (profileStep sz m).
Proof.
  intros c r d x Hx _. unfold profileStep.
  destruct (Z.eqb_spec c 0) as [->|Hc]; [eexists _, _, _, _, _; split; [done|]; left; split_and!; done|].
  destruct (Z.ltb_spec m (δ (ProfileSize sz x))) as [Hm|Hm].
  { eexists _, _, _, _, _; split; [done|]. right; right; left. split_and!; try done. by constructor. }
  destruct (Z.ltb_spec c (δ (ProfileSize sz x))) as [Hl|Hl].
  - eexists _, _, _, _, _; split; [done|]. right; right; right. split; [done|]. split; [done|].
    exists [], [x]. rewrite app_nil_r. unfold nrows. cbn. split_and!; try done; try lia; [apply (kept_of_refl _ [x])|by left|by constructor].
  - eexists _, _, _, _, _; split; [done|]. right; left. split_and!; try done; lia.
Qed.

Lemma allRows_single {A} (l : list A) : allRows (fun x => [x]) l = l.
Proof. induction l as [|x l IH]; [done|]. by rewrite <- IH at 2. Qed.

Lemma extractScopeProfiles_ok s c m dest rem s' : c < 2 ^ 63 -> ScopeProfilesSize sz s < 2 ^ 63 ->
  extractScopeProfiles sz s c m = (dest, rem, s') ->
  kept_of (tooLargeInScope m) (scopeProfileRows dest ++ scopeProfileRows s') (scopeProfileRows s) /\
  ScopeProfilesSize sz s' = ScopeProfilesSize sz s - rem /\
  Z.of_nat (length (scopeProfileRows s)) - Z.of_nat (length (scopeProfileRows s')) <= rem /\
  (length (ScopeProfiles_Profiles dest) = 0%nat \/ δ (ScopeProfilesSize sz dest) <= c).
Proof.
  intros Hc Hs. apply pl_scope_parts in Hs. destruct s as [url ps sc]. cbn in Hs. unfold extractScopeProfiles. cbn [ScopeProfiles_SchemaUrl ScopeProfiles_Profiles ScopeProfiles_Scope].
  set (h := ScopeProfilesSize sz _). assert (0 <= h) by apply pl_scope_base. pose proof (pl_delta_ge c).
  destruct (level_ok (fun p => δ (ProfileSize sz p)) (fun p => [p]) _ _ (2 ^ 63 - 1) ltac:(lia) _ ps (c - (δ c - c) - h) 0 [] (profileStep_ok (m - (δ m - m) - h)))
    as (c' & r' & m1 & kept & -> & Hk & Hr & Hfit & _ & Hle & HPk & HPm); [done| |lia|].
  { apply Forall_true. intros p. apply pl_profile. }
  intros [= <- <- <-]. rewrite !allRows_single in Hk. unfold nrows in Hle. rewrite !allRows_single in Hle. unfold scopeProfileRows. cbn. split_and!.
  - rewrite <- map_app. eapply kept_of_map; [|exact Hk]. intros x Hx. exact Hx.
  - change (ScopeProfilesSize sz (mkScopeProfiles url kept sc) = ScopeProfilesSize sz (mkScopeProfiles url ps sc) - r').
    rewrite (pl_scope _ kept), (pl_scope _ ps) by done. lia.
  - rewrite !length_map. lia.
  - destruct Hfit as [->|Hfit]; [by left|right].
    assert (0 <= sumZ (fun p => δ (ProfileSize sz p)) m1) by (apply sumZ_nonneg; intros p _; pose proof (pl_profile p); lia).
    change (δ (ScopeProfilesSize sz (mkScopeProfiles url m1 sc)) <= c). apply pl_delta_fit; [|done|]; rewrite pl_scope by done; fold h; lia.
Qed.

Lemma scopeRows_le s : Z.of_nat (length (scopeProfileRows s)) <= ScopeProfilesSize sz s.
Proof. unfold scopeProfileRows. rewrite length_map. apply pl_scope_rows. Qed.

Lemma resourceRows_le r : Z.of_nat (length (resourceProfileRows r)) <= ResourceProfilesSize sz r.
Proof.
  etransitivity; [|apply pl_resource_rows]. unfold resourceProfileRows. rewrite length_map. induction (ResourceProfiles_ScopeProfiles r) as [|s l IH]; [done|].
  cbn [flat_map sumZ]. rewrite length_app, Nat2Z.inj_add. unfold scopeProfileRows at 1. rewrite length_map. unfold len at 1. lia.
Qed.

Lemma scopeProfilesStep_ok m :
  step_ok (fun s => δ (ScopeProfilesSize sz s)) scopeProfileRows (tooLargeInScope m) (fun s => ScopeProfilesSize sz s < 2 ^ 63) (2 ^ 63 - 1) (scopeProfilesStep sz m).
Proof.
  apply (level_step_ok _ pl_delta_ge pl_delta_mono _ _ _ (fun s => length (ScopeProfiles_Profiles s)) (fun s c => extractScopeProfiles sz s c m)).
  - apply scopeRows_le.
  - intros s Hs%length_zero_iff_nil. unfold scopeProfileRows. by rewrite Hs.
  - intros s c dest rem s' Hc Hs He. by apply extractScopeProfiles_ok in He.
  - done.
Qed.

Lemma scopesSize_nonneg l : 0 <= sumZ (fun s => δ (ScopeProfilesSize sz s)) l.
Proof. apply sumZ_nonneg. intros s _. pose proof (pl_delta_ge (ScopeProfilesSize sz s)). pose proof (scopeRows_le s). lia. Qed.

Lemma extractResourceProfiles_ok r c m dest rem r' : c < 2 ^ 63 -> ResourceProfilesSize sz r < 2 ^ 63 ->
  extractResourceProfiles sz r c m = (dest, rem, r') ->
  kept_of (oversizedProfile m) (resourceProfileRows dest ++ resourceProfileRows r') (resourceProfileRows r) /\
  ResourceProfilesSize sz r' = ResourceProfilesSize sz r - rem /\
  Z.of_nat (length (resourceProfileRows r)) - Z.of_nat (length (resourceProfileRows r')) <= rem /\
  (length (ResourceProfiles_ScopeProfiles dest) = 0%nat \/ δ (ResourceProfilesSize sz dest) <= c).
Proof.
  intros Hc Hs. apply pl_resource_parts in Hs. destruct r as [url res sps]. cbn in Hs. unfold extractResourceProfiles.
  cbn [ResourceProfiles_SchemaUrl ResourceProfiles_Resource ResourceProfiles_ScopeProfiles].
  set (h := ResourceProfilesSize sz _). assert (0 <= h) by apply pl_resource_base. pose proof (pl_delta_ge c).
  destruct (level_ok (fun s => δ (ScopeProfilesSize sz s)) scopeProfileRows _ _ (2 ^ 63 - 1) ltac:(lia) _ sps (c - (δ c - c) - h) 0 [] (scopeProfilesStep_ok (m - (δ m - m) - h)))
    as (c' & removed & m1 & kept & -> & Hk & Hr & Hfit & _ & Hle & HPk & HPm); [done| |lia|].
  { apply Forall_true. intros s. pose proof (scopeRows_le s). pose proof (pl_delta_ge (ScopeProfilesSize sz s)). lia. }
  intros [= <- <- <-]. unfold nrows, allRows in *. unfold resourceProfileRows. cbn. split_and!.
  - rewrite <- map_app, <- flat_map_app. eapply kept_of_map; [|exact Hk]. intros x Hx. exact Hx.
  - change (ResourceProfilesSize sz (mkResourceProfiles url res kept) = ResourceProfilesSize sz (mkResourceProfiles url res sps) - removed).
    rewrite (pl_resource _ _ kept), (pl_resource _ _ sps) by done. lia.
  - rewrite !length_map. lia.
  - destruct Hfit as [->|Hfit]; [by left|right]. pose proof (scopesSize_nonneg m1).
    change (δ (ResourceProfilesSize sz (mkResourceProfiles url res m1)) <= c). apply pl_delta_fit; [|done|]; rewrite pl_resource by done; fold h; lia.
Qed.

Lemma resourceProfilesStep_ok m :
  step_ok (fun r => δ (ResourceProfilesSize sz r)) resourceProfileRows (oversizedProfile m) (fun r => ResourceProfilesSize sz r < 2 ^ 63) (2 ^ 63 - 1) (resourceProfilesStep sz m).
Proof.
  apply (level_step_ok _ pl_delta_ge pl_delta_mono _ _ _ (fun r => length (ResourceProfiles_ScopeProfiles r)) (fun r c => extractResourceProfiles sz r c m)).
  - apply resourceRows_le.
  - intros r Hr%length_zero_iff_nil. unfold resourceProfileRows. by rewrite Hr.
  - intros r c dest rem r' Hc Hr He. by apply extractResourceProfiles_ok in He.
  - done.
Qed.

(** No resource is too large for an [int]. *)
Definition sized (d : ExportProfilesServiceRequest) : Prop := Forall (fun r => ResourceProfilesSize sz r < 2 ^ 63) (resourcesOf d).

Lemma resourcesSize_nonneg d : 0 <= resourcesSize sz d.
Proof. apply sumZ_nonneg. intros r _. pose proof (pl_delta_ge (ResourceProfilesSize sz r)). pose proof (resourceRows_le r). lia. Qed.

Lemma extractProfiles_ok d cap dest rem d' : cap < 2 ^ 63 -> 0 <= ProfilesSize sz ExportProfilesServiceRequest_zero -> sized d -> extractProfiles sz d cap = (dest, rem, d') ->
  kept_of (oversizedProfile cap) (profileRows dest ++ profileRows d') (profileRows d) /\
  resourcesSize sz d' = resourcesSize sz d - rem /\ 0 <= rem /\ sized d' /\ dictOf dest = dictOf d /\ dictOf d' = dictOf d /\
  (rem = 0 -> length (profileRows d') = length (profileRows d)) /\
  (resourcesOf dest = [] \/ resourcesSize sz dest <= cap - ProfilesSize sz ExportProfilesServiceRequest_zero).
Proof.
  intros Hc H0 Hd. unfold extractProfiles.
  destruct (level_ok (fun r => δ (ResourceProfilesSize sz r)) resourceProfileRows _ _ (2 ^ 63 - 1) ltac:(lia) _ (resourcesOf d)
    (cap - ProfilesSize sz ExportProfilesServiceRequest_zero) 0 [] (resourceProfilesStep_ok cap))
    as (c' & r' & m1 & kept & -> & Hk & Hr & Hfit & _ & Hle & HPk & HPm); [done| |lia|].
  { apply Forall_true. intros r. pose proof (resourceRows_le r). pose proof (pl_delta_ge (ResourceProfilesSize sz r)). lia. }
  intros [= <- <- <-]. unfold nrows, allRows in *. rewrite flat_map_app in Hk. pose proof (kept_of_length _ _ _ Hk) as Hlen. rewrite length_app in Hlen.
  unfold profileRows, resourcesSize, sized. cbn. split; [exact Hk|]. split; [lia|]. split; [lia|]. do 3 (split; [done|]). split; [lia|done].
Qed.
End ExtractProofs.

(** ** Splitting *)

(** The samples, each with its profile and the headers above it. *)
Definition sampleRows (d : ExportProfilesServiceRequest) : list (Resource * list Z * (InstrumentationScope * list Z * Profile) * Sample) :=
  flat_map (fun t => map (pair t) (Profile_Samples t.2.2)) (profileRows d).

Lemma flat_map_map {A B C} (f : B -> list C) (g : A -> B) l : flat_map f (map g l) = flat_map (fun x => f (g x)) l.
Proof. induction l as [|x l IH]; [done|]. cbn. by rewrite IH. Qed.

Lemma length_flat_map {A B} (f : A -> list B) l : len (flat_map f l) = sumZ (fun x => len (f x)) l.
Proof. induction l as [|x l IH]; [done|]. cbn. rewrite len_app, IH. done. Qed.

Lemma flat_map_assoc {A B C} (f : A -> list B) (g : B -> list C) l : flat_map g (flat_map f l) = flat_map (fun x => flat_map g (f x)) l.
Proof. induction l as [|x l IH]; [done|]. cbn. by rewrite flat_map_app, IH. Qed.

Lemma SampleCount_rows d : SampleCount d = len (sampleRows d).
Proof.
  unfold sampleRows, profileRows, SampleCount. rewrite flat_map_assoc, length_flat_map. apply sumZ_ext. intros rp _.
  unfold resourceProfileRows. rewrite flat_map_map, flat_map_assoc, length_flat_map. apply sumZ_ext. intros sp _.
  unfold scopeProfileRows. rewrite flat_map_map, length_flat_map. apply sumZ_ext. intros p _. cbn. unfold len. by rewrite length_map.
Qed.

Lemma sublist_flat_map {A B} (f : A -> list B) l1 l2 : l1 `sublist_of` l2 -> flat_map f l1 `sublist_of` flat_map f l2.
Proof. induction 1; cbn; [done|by apply sublist_app|by apply sublist_inserts_l]. Qed.

Lemma kept_of_flat_map {A B} (f : A -> list B) (bad : A -> Prop) (bad' : B -> Prop) out inp : (forall x, bad x -> Forall bad' (f x)) ->
  kept_of bad out inp -> kept_of bad' (flat_map f out) (flat_map f inp).
Proof.
  intros Hb [Hs (d & Hp & Hd)]. split; [by apply sublist_flat_map|]. exists (flat_map f d). split.
  - rewrite <- flat_map_app. by apply Permutation_flat_map.
  - apply Forall_flat_map. eapply Forall_impl; [exact Hd|]. done.
Qed.

Section SplitProofs.
Context (sz : ProfilesSizer) `{!ProfilesSizerLaws sz} (Hempty : 0 <= ProfilesSize sz ExportProfilesServiceRequest_zero).
Context (maxSize : Z) (HmaxSize : maxSize < 2 ^ 63).

Definition oversizedSample (t : Resource * list Z * (InstrumentationScope * list Z * Profile) * Sample) : Prop := oversizedProfile sz maxSize t.1.

Definition outSamples (out : list profilesRequest) := flat_map (fun r => sampleRows (pd r)) out.

(** How an outcome accounts for the [lost] samples that are not in it. *)
Definition profilesAccount (lost : Z) (nothingLeft : Prop) (err : option error) : Prop :=
  (err = None /\ lost = 0 /\ nothingLeft) \/
  (err = Some (errProfilesDropped lost) /\ 0 < lost /\ nothingLeft) \/
  err = Some (errProfilesCannotSplit lost).

Lemma extract_samples d dest rem d' : sized sz d -> extractProfiles sz d maxSize = (dest, rem, d') ->
  kept_of oversizedSample (sampleRows dest ++ sampleRows d') (sampleRows d) /\
  resourcesSize sz d' = resourcesSize sz d - rem /\ 0 <= rem /\ sized sz d' /\ dictOf dest = dictOf d /\ dictOf d' = dictOf d /\
  (rem = 0 -> sampleRows dest = [] /\ SampleCount d' = SampleCount d).
Proof.
  intros Hd He. apply extractProfiles_ok in He as (Hk & Hs & Hr & Hd' & Hdict & Hdict' & H0 & _); [|done..].
  assert (Hks : kept_of oversizedSample (sampleRows dest ++ sampleRows d') (sampleRows d)).
  { unfold sampleRows. rewrite <- flat_map_app. eapply kept_of_flat_map; [|exact Hk]. intros t Ht. apply Forall_map, Forall_true. done. }
  do 6 (split; [done|]). intros Hz. pose proof (kept_of_length _ _ _ Hk) as Hlen. rewrite length_app, (H0 Hz) in Hlen.
  assert (profileRows dest = []) as E by (apply length_zero_iff_nil; lia). assert (sampleRows dest = []) as E' by (unfold sampleRows; by rewrite E).
  split; [done|]. rewrite !SampleCount_rows. destruct Hk as [Hsub _]. rewrite E in Hsub. cbn in Hsub. unfold sampleRows.
  assert (profileRows d' = profileRows d) as ->; [|done]. apply sublist_length_eq; [done|]. by apply H0.
Qed.

Lemma append_samples out d ro c : exists outs,
  (if 0 <? SampleCount d then out ++ [mkProfilesRequest d ro c] else out) = out ++ outs /\ outSamples outs = sampleRows d /\
  Forall (fun r => dictOf (pd r) = dictOf d) outs.
Proof.
  destruct (Z.ltb_spec 0 (SampleCount d)) as [Hc|Hc].
  - exists [mkProfilesRequest d ro c]. cbn. rewrite app_nil_r. split; [done|]. split; [done|]. by repeat constructor.
  - exists []. rewrite app_nil_r. split; [done|]. split; [|constructor]. rewrite SampleCount_rows in Hc. pose proof (len_nonneg (sampleRows d)).
    symmetry. apply length_zero_iff_nil. unfold len in *. lia.
Qed.

Lemma size_keeps req : exists n c, profilesRequest_size sz req = (n, req <| cachedSize := c |>).
Proof. destruct req as [d ro c]. unfold profilesRequest_size. cbn. destruct (c =? -1); by eexists _, _. Qed.

#[local] Arguments profilesRequest_size : simpl never.

(** The loop ends within the fuel, whatever size is cached, and accounts for every sample. *)
Lemma profilesSplitLoop_ok fuel d c out dropped : sized sz d -> 0 <= dropped -> (Z.to_nat (resourcesSize sz d) < fuel)%nat ->
  exists outs rest err, profilesSplitLoop sz maxSize fuel (mkProfilesRequest d false c) out dropped = Ok (out ++ outs, err) /\
    Forall (fun r => dictOf (pd r) = dictOf d) outs /\
    kept_of oversizedSample (outSamples outs ++ rest) (sampleRows d) /\
    profilesAccount (dropped + (SampleCount d - len (outSamples outs))) (rest = []) err.
Proof.
  revert d c out dropped. induction fuel as [|fuel IH]; intros d c out dropped Hd Hdr Hf; [lia|]. cbn [profilesSplitLoop].
  destruct (size_keeps (mkProfilesRequest d false c)) as (n & c1 & ->). cbn. destruct (maxSize <? n).
  - destruct (extractProfiles sz d maxSize) as [ [ext rem] src] eqn:Ee. apply extract_samples in Ee as (Hk & Hs & Hrem & Hsrc & Hdict & Hdict' & H0); [|done].
    destruct (Z.eqb_spec rem 0) as [Hz|Hz].
    + destruct (H0 Hz) as [En Ec]. rewrite En in Hk. exists [], (sampleRows src), (Some (errProfilesCannotSplit (dropped + SampleCount src))).
      rewrite app_nil_r. split; [done|]. split; [constructor|]. split; [done|]. right; right. rewrite Ec. do 2 f_equal. cbn. unfold len. cbn. lia.
    + destruct (size_keeps (mkProfilesRequest src false c1)) as (n2 & c2 & E2). unfold reader_ap, reader_pure. cbn [pd pd_readOnly cachedSize]. rewrite E2. cbn.
      destruct (append_samples out ext false (-1)) as (outs1 & E1 & Hout1 & Hd1). unfold newProfilesRequest. rewrite E1.
      pose proof (resourcesSize_nonneg sz src). pose proof (kept_of_length _ _ _ Hk) as Hlen. rewrite length_app in Hlen.
      assert (Hlost : 0 <= SampleCount d - SampleCount src - SampleCount ext) by (rewrite !SampleCount_rows; unfold len; lia).
      destruct (IH src (n2 - rem) (out ++ outs1) (dropped + (SampleCount d - SampleCount src - SampleCount ext))) as (outs & rest & err & E & Hdo & Hko & Hacc); [done|lia|lia|].
      exists (outs1 ++ outs), rest, err. rewrite app_assoc. split; [exact E|]. unfold outSamples in *. rewrite flat_map_app, Hout1. split; [|split].
      * apply Forall_app. rewrite Hdict in Hd1. by rewrite Hdict' in Hdo.
      * eapply kept_of_trans; [|exact Hk]. rewrite <- app_assoc. by apply kept_of_app; [apply kept_of_refl|].
      * rewrite len_app. rewrite (SampleCount_rows ext) in Hacc. replace (dropped + _) with (dropped + (SampleCount d - SampleCount src - len (sampleRows ext)) +
          (SampleCount src - len (flat_map (fun r => sampleRows (pd r)) outs))) by lia. done.
  - destruct (append_samples out d false c1) as (outs & E & Hout & Hdo). exists outs, [], (if 0 <? dropped then Some (errProfilesDropped dropped) else None).
    split; [by rewrite <- E|]. split; [done|]. rewrite Hout, app_nil_r, <- SampleCount_rows. split; [apply kept_of_refl|]. rewrite Z.sub_diag, Z.add_0_r.
    destruct (Z.ltb_spec 0 dropped); [right; left|left]; split_and!; try done; lia.
Qed.

Lemma profilesRequest_split_ok d c : sized sz d ->
  exists outs rest err, profilesRequest_split sz maxSize (mkProfilesRequest d false c) = Ok (outs, err) /\
    Forall (fun r => dictOf (pd r) = dictOf d) outs /\
    kept_of oversizedSample (outSamples outs ++ rest) (sampleRows d) /\
    profilesAccount (SampleCount d - len (outSamples outs)) (rest = []) err.
Proof.
  intros Hd. unfold profilesRequest_split. destruct (size_keeps (mkProfilesRequest d false c)) as (n & c1 & ->). cbn [pd]. destruct (n <=? maxSize).
  - eexists [_], [], None. split; [done|]. split; [by repeat constructor|]. cbn. rewrite !app_nil_r. split; [apply kept_of_refl|]. left. rewrite SampleCount_rows. split_and!; [done|lia|done].
  - destruct (profilesSplitLoop_ok (S (Z.to_nat (resourcesSize sz d))) d c1 [] 0) as (outs & rest & err & E & H); [done|lia|lia|]. by exists outs, rest, err.
Qed.
End SplitProofs.

(** ** Merging and splitting *)
Inductive profilesSizerFor : SizerType -> ProfilesSizer -> Prop :=
  | profiles_items : profilesSizerFor SizerTypeItems ProfilesCountSizer
  | profiles_bytes : profilesSizerFor SizerTypeBytes ProfilesBytesSizer.

Lemma profilesSizerFor_laws szt sz : profilesSizerFor szt sz -> ProfilesSizerLaws sz /\ 0 <= ProfilesSize sz ExportProfilesServiceRequest_zero.
Proof. intros []; (split; [apply _|by vm_compute]). Qed.

(** The samples in what profiles mean. *)
Definition samplesIn {A S P T X} (m : list (Resource * list Z * list (InstrumentationScope * list Z * list (A * list S * P * T * X))))
  : list (Resource * list Z * InstrumentationScope * list Z * (A * list S * P * T * X) * S) :=
  flat_map (fun '(res, url, scopes) => flat_map (fun '(sc, surl, ps) => flat_map (fun '(ats, samples, period, stype, rest) =>
    map (pair (res, url, sc, surl, (ats, [], period, stype, rest))) samples) ps) scopes) m.

Lemma samplesIn_app {A S P T X} (m1 m2 : list (Resource * list Z * list (InstrumentationScope * list Z * list (A * list S * P * T * X)))) :
  samplesIn (m1 ++ m2) = samplesIn m1 ++ samplesIn m2.
Proof. apply flat_map_app. Qed.

Section Meaning.
Context {V : Type} (obs : AnyValue -> V).

(** What a sample means, with its profile and the headers above it. *)
Definition rowMeaning (d : ProfilesDictionary) (row : Resource * list Z * (InstrumentationScope * list Z * Profile) * Sample) :=
  let '(res, url, (sc, surl, p), s) := row in
  (res, url, sc, surl, profileMeaning obs d (p <| Profile_Samples := [] |>), sampleMeaning obs d s).

Definition sampleMeanings (d : ExportProfilesServiceRequest) := map (rowMeaning (dictOf d)) (sampleRows d).

Lemma samplesIn_meaning d : sampleMeanings d = samplesIn (profilesMeaning obs d).
Proof.
  unfold sampleMeanings, sampleRows, profileRows, samplesIn, profilesMeaning. rewrite flat_map_assoc, flat_map_map, map_flat_map. apply flat_map_ext. intros rp.
  unfold resourceProfileRows, resourceMeaning. rewrite flat_map_map, flat_map_assoc, flat_map_map, map_flat_map. apply flat_map_ext. intros sp.
  unfold scopeProfileRows, scopeMeaning. rewrite !flat_map_map, map_flat_map. apply flat_map_ext. intros p.
  unfold profileMeaning. by rewrite !map_map.
Qed.

Lemma outMeanings d outs : Forall (fun r => dictOf (pd r) = d) outs -> flat_map (fun r => sampleMeanings (pd r)) outs = map (rowMeaning d) (outSamples outs).
Proof. induction 1 as [|r outs Hr _ IH]; [done|]. unfold outSamples in *. cbn. rewrite IH, map_app. unfold sampleMeanings at 1. by rewrite Hr. Qed.

Lemma SampleCount_meanings d : SampleCount d = len (sampleMeanings d).
Proof. unfold sampleMeanings, len. rewrite length_map. apply SampleCount_rows. Qed.
End Meaning.

Lemma kept_sublist {A B} (f : A -> B) (bad : A -> Prop) out inp : kept_of bad out inp -> map f out `sublist_of` map f inp.
Proof. intros [Hs _]. induction Hs; cbn; by constructor. Qed.

Lemma mergeTo_merged sz d1 c1 d2 c2 : exists c, profilesRequest_mergeTo sz (mkProfilesRequest d2 false c2) (mkProfilesRequest d1 false c1) =
  let* (src, merged) := MergeTo false false d2 d1 in Ok (mkProfilesRequest src true 0, mkProfilesRequest merged false c).
Proof.
  destruct (size_keeps sz (mkProfilesRequest d1 false c1)) as (n1 & k1 & E1), (size_keeps sz (mkProfilesRequest d2 false c2)) as (n2 & k2 & E2).
  exists (n1 + n2). unfold profilesRequest_mergeTo. rewrite E1, E2. reflexivity.
Qed.

(** MergeSplit with a second request, whose data has samples. *)
Lemma MergeSplit_merged szt sz d1 c1 d2 c2 maxSize : profilesSizerFor szt sz -> maxSize <> 0 -> 0 < SampleCount d2 ->
  exists c, profilesRequest_MergeSplit (mkProfilesRequest d1 false c1) maxSize szt (Some (inl (mkProfilesRequest d2 false c2))) =
    match MergeTo false false d2 d1 with
    | Ok (_, merged) => profilesRequest_split sz maxSize (mkProfilesRequest merged false c)
    | Err e => Ok ([], Some (Wrapf "failed merging profiles; %w" [] e))
    | Panic => Panic
    | OutOfFuel => OutOfFuel
    end.
Proof.
  intros Hsz Hmax Hc. destruct (mergeTo_merged sz d1 c1 d2 c2) as [c E]. exists c. apply Z.eqb_neq in Hmax. apply Z.ltb_lt in Hc.
  destruct Hsz; unfold profilesRequest_MergeSplit; [rewrite decide_True by done|rewrite decide_False, decide_True by done];
    cbn [pd]; rewrite Hc, E; (destruct (MergeTo false false d2 d1) as [ [src merged]| | |]; [|done..]); cbn [rbind]; by rewrite Hmax.
Qed.

(** C6: Two requests of profiles, the first of them with a dictionary in order, are merged
    and split.  When every reference of the second is in its dictionary, [MergeSplit] ends,
    and the samples of the requests it returns mean, each in its own dictionary, what
    samples of the two requests meant, in order, for any view of attribute values that does
    not tell equal ones apart.  Such a view takes a value that is a reference to a string
    for an empty value, since [Value.Equal] does; the string that such a value refers to is
    not kept ([merge_value_references]).  The samples that are missing are those of
    profiles too large for any request, or what is left when nothing more can be taken.
    Their number is what the error says, and there is no error when there are none.
    Otherwise the error of merging is returned. *)
Theorem profiles_merge_split {V} (obs : AnyValue -> V) d1 c1 d2 c2 maxSize szt sz :
  profilesSizerFor szt sz -> 0 < maxSize < 2 ^ 63 -> (forall a b, wellMade a -> wellMade b -> Value_Equal a b = Ok true -> obs a = obs b) ->
  profilesClosed obs d1 -> dictGrounded obs (dictOf d1) -> Forall attrMade (ProfilesDictionary_AttributeTable (dictOf d2)) ->
  room (dictOf d1) (profilesRefs d2) -> 0 < SampleCount d2 -> (forall src merged, MergeTo false false d2 d1 = Ok (src, merged) -> sized sz merged) ->
  (profilesClosed obs d2 -> exists merged outs rest err,
     profilesRequest_MergeSplit (mkProfilesRequest d1 false c1) maxSize szt (Some (inl (mkProfilesRequest d2 false c2))) = Ok (outs, err) /\
     flat_map (fun r => sampleMeanings obs (pd r)) outs ++ map (rowMeaning obs (dictOf merged)) rest `sublist_of` sampleMeanings obs d1 ++ sampleMeanings obs d2 /\
     kept_of (oversizedSample sz maxSize) (outSamples outs ++ rest) (sampleRows merged) /\
     profilesAccount (SampleCount d1 + SampleCount d2 - len (outSamples outs)) (rest = []) err) /\
  (~ profilesClosed obs d2 -> exists e,
     profilesRequest_MergeSplit (mkProfilesRequest d1 false c1) maxSize szt (Some (inl (mkProfilesRequest d2 false c2))) =
     Ok ([], Some (Wrapf "failed merging profiles; %w" [] e))).
Proof.
  intros Hsz Hmax Hobs Hc1 Hg Hmade Hroom Hc2 Hsized. destruct (profilesSizerFor_laws _ _ Hsz) as [Hlaws Hempty].
  destruct (MergeSplit_merged szt sz d1 c1 d2 c2 maxSize Hsz) as [c ->]; [lia|done|].
  pose proof (MergeTo_meaning obs d2 d1 Hobs Hc1 Hg Hmade Hroom) as HM. destruct (MergeTo false false d2 d1) as [ [src merged]| | |]; [| |done..].
  - destruct HM as (Hc & _ & Hm & _ & _). split; [|done]. intros _.
    destruct (profilesRequest_split_ok sz Hempty maxSize ltac:(lia) merged c (Hsized _ _ eq_refl)) as (outs & rest & err & E & Hdict & Hk & Hacc).
    assert (Em : sampleMeanings obs merged = sampleMeanings obs d1 ++ sampleMeanings obs d2) by by rewrite !samplesIn_meaning, Hm, samplesIn_app.
    exists merged, outs, rest, err. split; [done|]. split; [|split; [done|] ].
    + rewrite (outMeanings obs _ _ Hdict), <- map_app, <- Em. by eapply kept_sublist.
    + rewrite (SampleCount_meanings obs merged), Em, len_app, <- !SampleCount_meanings in Hacc. done.
  - split; [done|]. intros _. by eexists.
Qed.

(** ** Examples *)
Definition callOf (name value : list Z) : ExportProfilesServiceRequest := callProfiles (callDict name (AnyValue_StringValue value)).

Lemma profiles_merge_split_witness : exists outs,
  profilesRequest_MergeSplit (newProfilesRequest (callOf [103] [2])) 1 SizerTypeItems (Some (inl (newProfilesRequest (callOf [102] [1])))) = Ok (outs, None) /\
  map (fun r => SampleCount (pd r)) outs = [1; 1] /\
  flat_map (fun r => sampleMeanings textOf (pd r)) outs = sampleMeanings textOf (callOf [103] [2]) ++ sampleMeanings textOf (callOf [102] [1]).
Proof.
  destruct (profiles_merge_split textOf (callOf [103] [2]) (-1) (callOf [102] [1]) (-1) 1 SizerTypeItems ProfilesCountSizer) as [H _].
  - constructor.
  - lia.
  - apply textOf_Equal.
  - apply callProfiles_closed.
  - by constructor.
  - repeat constructor.
  - constructor; vm_compute; discriminate.
  - reflexivity.
  - intros src merged E. vm_compute in E. injection E as _ <-. repeat constructor.
  - destruct (H (callProfiles_closed _ _)) as (merged & outs & rest & err & E & _ & _ & Hacc). exists outs. unfold newProfilesRequest. rewrite E.
    vm_compute in E. injection E as <- <-. split; [reflexivity|]. split; vm_compute; reflexivity.
Defined.

Definition outcome (r : res (list profilesRequest * option error)) (size : ExportProfilesServiceRequest -> Z) : option (list Z * list Z * option error) :=
  match r with Ok (outs, err) => Some (map (fun o => SampleCount (pd o)) outs, map (fun o => size (pd o)) outs, err) | _ => None end.

(** With the items sizer a request is measured in samples and its parts in profiles: a
    profile of four samples goes out whole in a request for at most two, and an error is
    returned although no sample is dropped. *)
Definition fourSamples : ExportProfilesServiceRequest :=
  mkExportProfilesServiceRequest [mkResourceProfiles [] zero [mkScopeProfiles [] [zero <| Profile_Samples := [zero; zero; zero; zero] |>] zero] ] zero.

Theorem items_split_measures :
  outcome (profilesRequest_MergeSplit (newProfilesRequest fourSamples) 2 SizerTypeItems None) SampleCount = Some ([4], [4], Some (errProfilesCannotSplit 0)).
Proof. vm_compute. reflexivity. Qed.

(** With the bytes sizer the dictionary, which goes with every part, is not counted: of a
    request for at most 100 bytes, with a string of 200, one of more than 200 goes out,
    with an error although no sample is dropped. *)
Theorem bytes_split_dictionary :
  outcome (profilesRequest_MergeSplit (newProfilesRequest (callOf (replicate 200 97) [])) 100 SizerTypeBytes None) (ProfilesSize ProfilesBytesSizer) =
    Some ([1], [280], Some (errProfilesCannotSplit 0)).
Proof. vm_compute. reflexivity. Qed.
