(* ===== verification/ProtoQueue.v ===== *)
(** * Requests of the sending queue as bytes

    pdata/xpdata/request: a request is stored as its data together with the span,
    the client metadata and the client address of its context.  The encodings of
    exporterhelper/internal/queuebatch read such requests, and the bare data that
    older versions stored.

    Of the OpenTelemetry trace API, [TraceState] with its text form and
    [SpanContext.IsValid] are parameters, as are the order in which Go ranges over
    a map and [strings.ToLower] on text that is not ASCII. *)

From S2P Require Import Prelude RecordUpdate Errors Sizers ProtoWire ProtoWireProofs ProtoFields ProtoCommon ProtoCommonProofs ProtoMessage ProtoKinds ProtoIds ProtoResource ProtoLogs ProtoTraces ProtoMetrics ProtoRequests ProtoApi.
From stdpp Require Import gmap.
Local Open Scope Z_scope.
Local Open Scope otel_scope.

(** ** Contexts *)

(** Text is a list of bytes. *)
Abbreviation text := (list Z).

(** The trace API of OpenTelemetry. *)
Class TraceApi := {
  TraceState : Type;
  traceStateString : TraceState -> text;
  ParseTraceState : text -> TraceState * option error;
  emptyTraceState : TraceState;
}.

Record trace_SpanContext `{TraceApi} := mkSpanCtx {
  sc_TraceID : list Z;
  sc_SpanID : list Z;
  sc_TraceFlags : Z;
  sc_TraceState : TraceState;
  sc_Remote : bool;
}.

(** [net.Addr]; any other type of address is [OtherAddr]. *)
Inductive netAddr :=
  | net_IPAddr (IP : list Z) (Zone : text)
  | net_TCPAddr (IP : list Z) (Port : Z) (Zone : text)
  | net_UDPAddr (IP : list Z) (Port : Z) (Zone : text)
  | net_UnixAddr (Name Net : text)
  | OtherAddr.

(** client.Info; [A] is the type of its authentication data. *)
Record Info (A : Type) := mkInfo {
  Addr : option netAddr;
  Auth : option A;
  Metadata : gmap text (list text);
}.
Arguments mkInfo {A} _ _ _.
Arguments Addr {A} _.
Arguments Auth {A} _.
Arguments Metadata {A} _.

(** What the code reads of a [context.Context]. *)
Record Context `{TraceApi} (A : Type) := mkContext {
  ctx_span : trace_SpanContext;
  ctx_client : Info A;
}.
Arguments mkContext {_ A} _ _.
Arguments ctx_span {_ A} _.
Arguments ctx_client {_ A} _.

Section Queue.
Context `{TraceApi} {A : Type}.
Context (IsValid : trace_SpanContext -> bool).
Context (rangeKeys : gmap text (list text) -> list text).
Context (rangeEntries : gmap text (list text) -> list (text * list text)).
Context (toLowerUnicode : text -> text).

Definition zeroSpanContext : trace_SpanContext := mkSpanCtx _ (replicate 16 0) (replicate 8 0) 0 emptyTraceState false.
Definition Background : Context A := mkContext zeroSpanContext (mkInfo None None ∅).

(** ** client.Metadata *)

(** [strings.ToLower]. *)
Definition ToLower (s : text) : text :=
  if forallb (fun b => b <? 128) s
  then map (fun b => if (65 <=? b) && (b <=? 90) then b + 32 else b) s
  else toLowerUnicode s.

Definition NewMetadata (md : gmap text (list text)) : gmap text (list text) :=
  foldl (fun c '(k, v) => <[ToLower k := v]> c) ∅ (rangeEntries md).

Definition Get (m : gmap text (list text)) (key : text) : list text := default [] (m !! ToLower key).

(** ** encodeContext *)
Definition encodeSpanContext (ctx : Context A) (rc : RequestContext) : RequestContext :=
  let spanCtx := ctx_span ctx in
  if negb (IsValid spanCtx) then rc
  else rc <| RequestContext_SpanContext := Some
         (SpanContext_zero <| SpanContext_TraceID := mkTraceID (sc_TraceID spanCtx) |>
                           <| SpanContext_SpanID := mkSpanID (sc_SpanID spanCtx) |>
                           <| SpanContext_TraceFlags := sc_TraceFlags spanCtx |>
                           <| SpanContext_TraceState := traceStateString (sc_TraceState spanCtx) |>
                           <| SpanContext_Remote := sc_Remote spanCtx |>) |>.

Definition encodeMetadataKey (md : gmap text (list text)) (k : text) : KeyValue :=
  match Get md k with
  | [v] => mkKeyValue k (AnyValue_StringValue v) 0
  | vals => mkKeyValue k (AnyValue_ArrayValue (Some (map AnyValue_StringValue vals))) 0
  end.

Definition encodeClientMetadata (ctx : Context A) (rc : RequestContext) : RequestContext :=
  let md := Metadata (ctx_client ctx) in
  rc <| RequestContext_ClientMetadata := RequestContext_ClientMetadata rc ++ map (encodeMetadataKey md) (rangeKeys md) |>.

Definition encodeClientAddress (ctx : Context A) (rc : RequestContext) : RequestContext :=
  match Addr (ctx_client ctx) with
  | Some (net_IPAddr ip zone) =>
      rc <| RequestContext_ClientAddress := RequestContext_IP (Some (mkIPAddr zone ip)) |>
  | Some (net_TCPAddr ip port zone) =>
      rc <| RequestContext_ClientAddress := RequestContext_TCP (Some (mkTCPAddr zone ip port)) |>
  | Some (net_UDPAddr ip port zone) =>
      rc <| RequestContext_ClientAddress := RequestContext_UDP (Some (mkUDPAddr zone ip port)) |>
  | Some (net_UnixAddr name net) =>
      rc <| RequestContext_ClientAddress := RequestContext_Unix (Some (mkUnixAddr name net)) |>
  | _ => rc
  end.

Definition encodeContext (ctx : Context A) : RequestContext :=
  encodeClientAddress ctx (encodeClientMetadata ctx (encodeSpanContext ctx RequestContext_zero)).

(** ** decodeContext *)
Definition decodeSpanContext (ctx : Context A) (sc : option SpanContext) : Context A :=
  match sc with
  | None => ctx
  | Some sc =>
      mkContext (mkSpanCtx _ (traceBytes (SpanContext_TraceID sc)) (spanBytes (SpanContext_SpanID sc))
                   (SpanContext_TraceFlags sc mod 256) (ParseTraceState (SpanContext_TraceState sc)).1
                   (SpanContext_Remote sc))
                (ctx_client Background)
  end.

Definition GetStringValue (v : AnyValue) : text := match v with AnyValue_StringValue s => s | _ => [] end.

(** A nil [ArrayValue] would be dereferenced. *)
Fixpoint decodeClientMetadata (clientMetadata : list KeyValue) (metadataMap : gmap text (list text)) :
  res (gmap text (list text)) :=
  match clientMetadata with
  | [] => Ok metadataMap
  | mkKeyValue key value _ :: clientMetadata =>
      match value with
      | AnyValue_StringValue s => decodeClientMetadata clientMetadata (<[key := [s]]> metadataMap)
      | AnyValue_ArrayValue (Some l) => decodeClientMetadata clientMetadata (<[key := map GetStringValue l]> metadataMap)
      | AnyValue_ArrayValue None => Panic
      | _ => decodeClientMetadata clientMetadata metadataMap
      end
  end.

Definition decodeClientAddress (rc : RequestContext) : res (option netAddr) :=
  match RequestContext_ClientAddress rc with
  | RequestContext_noClientAddress => Ok None
  | RequestContext_IP (Some a) => Ok (Some (net_IPAddr (IPAddr_IP a) (IPAddr_Zone a)))
  | RequestContext_TCP (Some a) => Ok (Some (net_TCPAddr (TCPAddr_IP a) (TCPAddr_Port a) (TCPAddr_Zone a)))
  | RequestContext_UDP (Some a) => Ok (Some (net_UDPAddr (UDPAddr_IP a) (UDPAddr_Port a) (UDPAddr_Zone a)))
  | RequestContext_Unix (Some a) => Ok (Some (net_UnixAddr (UnixAddr_Name a) (UnixAddr_Net a)))
  | _ => Panic
  end.

Definition decodeContext (ctx : Context A) (rc : option RequestContext) : res (Context A) :=
  match rc with
  | None => Ok ctx
  | Some rc =>
      let ctx := decodeSpanContext ctx (RequestContext_SpanContext rc) in
      let* metadataMap := decodeClientMetadata (RequestContext_ClientMetadata rc) ∅ in
      let* clientAddress := decodeClientAddress rc in
      if negb (bool_decide (metadataMap = ∅)) || bool_decide (is_Some clientAddress)
      then Ok (mkContext (ctx_span ctx) (mkInfo clientAddress None (NewMetadata metadataMap)))
      else Ok ctx
  end.

(** ** version_check.go *)
Definition protoTag1TypeByte : Z := 0x0D.
Definition requestFormatVersion : Z := 1.
Definition invalidFormat : string := "invalid request payload format".
Definition ErrInvalidFormat : error := New invalidFormat.

Definition isRequestPayloadV1 (data : list Z) : res bool :=
  if len data <? 5 then Ok false
  else
    let* b := getByte data 0 in
    if negb (b =? protoTag1TypeByte) then Ok false
    else
      let* v := slice data 1 5 in
      Ok (leValue v =? requestFormatVersion).

(** ** logs_request.go, traces_request.go and metrics_request.go

    They differ by the messages; the result is the context, the data and the
    error. *)
Definition unmarshalRequest {R D} `{Codec R} (what : string) (rc : R -> option RequestContext) (data : R -> D) (noData : D)
    (buf : list Z) : res (Context A * D * option error) :=
  let* v1 := isRequestPayloadV1 buf in
  if negb v1 then Ok (Background, noData, Some ErrInvalidFormat)
  else
    match UnmarshalProto buf zero with
    | Ok r => let* ctx := decodeContext Background (rc r) in Ok (ctx, data r, None)
    | Err e => Ok (Background, noData, Some (Wrapf (String.append "failed to unmarshal " (String.append what " request: %w")) [] e))
    | Panic => Panic
    | OutOfFuel => OutOfFuel
    end.

(** pdata/internal/wrapper_logs.go, wrapper_traces.go and wrapper_metrics.go. *)
Definition LogsToProto (l : ExportLogsServiceRequest) : LogsData := mkLogsData (ExportLogsServiceRequest_ResourceLogs l).
Definition LogsFromProto (orig : LogsData) : ExportLogsServiceRequest := mkExportLogsServiceRequest (LogsData_ResourceLogs orig).
Definition TracesToProto (t : ExportTraceServiceRequest) : TracesData := mkTracesData (ExportTraceServiceRequest_ResourceSpans t).
Definition TracesFromProto (orig : TracesData) : ExportTraceServiceRequest := mkExportTraceServiceRequest (TracesData_ResourceSpans orig).
Definition MetricsToProto (m : ExportMetricsServiceRequest) : MetricsData := mkMetricsData (ExportMetricsServiceRequest_ResourceMetrics m).
Definition MetricsFromProto (orig : MetricsData) : ExportMetricsServiceRequest :=
  mkExportMetricsServiceRequest (MetricsData_ResourceMetrics orig).

Definition MarshalLogs (ctx : Context A) (ld : ExportLogsServiceRequest) : res (list Z) :=
  marshalNew (mkLogsRequest (Some (encodeContext ctx)) (LogsToProto ld) requestFormatVersion).
Definition UnmarshalLogs : list Z -> res (Context A * ExportLogsServiceRequest * option error) :=
  unmarshalRequest "logs" LogsRequest_RequestContext
    (fun lr => LogsFromProto (LogsRequest_LogsData lr)) zero.

Definition MarshalTraces (ctx : Context A) (td : ExportTraceServiceRequest) : res (list Z) :=
  marshalNew (mkTracesRequest (Some (encodeContext ctx)) (TracesToProto td) requestFormatVersion).
Definition UnmarshalTraces : list Z -> res (Context A * ExportTraceServiceRequest * option error) :=
  unmarshalRequest "traces" TracesRequest_RequestContext
    (fun tr => TracesFromProto (TracesRequest_TracesData tr)) zero.

Definition MarshalMetrics (ctx : Context A) (md : ExportMetricsServiceRequest) : res (list Z) :=
  marshalNew (mkMetricsRequest (Some (encodeContext ctx)) (MetricsToProto md) requestFormatVersion).
Definition UnmarshalMetrics : list Z -> res (Context A * ExportMetricsServiceRequest * option error) :=
  unmarshalRequest "metrics" MetricsRequest_RequestContext
    (fun mr => MetricsFromProto (MetricsRequest_MetricsData mr)) zero.

(** ** The encodings of queuebatch: logs.go, traces.go and metrics.go *)
Definition isInvalidFormat (err : option error) : bool :=
  match err with Some e => errors_is invalidFormat e | None => false end.

Definition encodingUnmarshal {D} (noData : D) (withContext : list Z -> res (Context A * D * option error)) (bare : list Z -> res D)
    (buf : list Z) : res (Context A * D * option error) :=
  let* (ctx, d, err) := withContext buf in
  if isInvalidFormat err then
    match bare buf with
    | Ok d => Ok (ctx, d, None)
    | Err e => Ok (ctx, noData, Some e)
    | Panic => Panic
    | OutOfFuel => OutOfFuel
    end
  else Ok (ctx, d, err).

Definition logsEncoding_Marshal : Context A -> ExportLogsServiceRequest -> res (list Z) := MarshalLogs.
Definition logsEncoding_Unmarshal : list Z -> res (Context A * ExportLogsServiceRequest * option error) :=
  encodingUnmarshal zero UnmarshalLogs plog_UnmarshalLogs.
Definition tracesEncoding_Marshal : Context A -> ExportTraceServiceRequest -> res (list Z) := MarshalTraces.
Definition tracesEncoding_Unmarshal : list Z -> res (Context A * ExportTraceServiceRequest * option error) :=
  encodingUnmarshal zero UnmarshalTraces ptrace_UnmarshalTraces.
Definition metricsEncoding_Marshal : Context A -> ExportMetricsServiceRequest -> res (list Z) := MarshalMetrics.
Definition metricsEncoding_Unmarshal : list Z -> res (Context A * ExportMetricsServiceRequest * option error) :=
  encodingUnmarshal zero UnmarshalMetrics pmetric_UnmarshalMetrics.

(** ** Contexts survive *)

(** A context whose span, metadata and address have their Go types: metadata keys
    are in lower case, as [NewMetadata] makes them. *)
Definition addrOk (a : netAddr) : Prop :=
  match a with
  | net_IPAddr ip zone => bytes ip /\ bytes zone
  | net_TCPAddr ip port zone | net_UDPAddr ip port zone => bytes ip /\ bytes zone /\ is_i64 port
  | net_UnixAddr name net => bytes name /\ bytes net
  | OtherAddr => False
  end.

Definition spanOk (sc : trace_SpanContext) : Prop :=
  ID_ok traceIDSize (sc_TraceID sc) /\ ID_ok spanIDSize (sc_SpanID sc) /\ is_byte (sc_TraceFlags sc) /\
  bytes (traceStateString (sc_TraceState sc)).

Definition metadataOk (md : gmap text (list text)) : Prop :=
  map_Forall (fun k vals => bytes k /\ ToLower k = k /\ Forall bytes vals) md.

Definition contextOk (ctx : Context A) : Prop :=
  spanOk (ctx_span ctx) /\ metadataOk (Metadata (ctx_client ctx)) /\
  match Addr (ctx_client ctx) with Some a => addrOk a | None => True end.

(** What the round trip keeps of a context: a valid span, the metadata and the
    address; the authentication data is not stored. *)
Definition stored (ctx : Context A) : Context A :=
  mkContext (if IsValid (ctx_span ctx) then ctx_span ctx else zeroSpanContext)
            (mkInfo (Addr (ctx_client ctx)) None (Metadata (ctx_client ctx))).

Hypothesis parse_string : forall ts, ParseTraceState (traceStateString ts) = (ts, None).
Hypothesis range_keys : forall m, rangeKeys m ≡ₚ (map_to_list m).*1.
Hypothesis range_entries : forall m, rangeEntries m ≡ₚ map_to_list m.

Lemma encodeSpanContext_spec ctx : spanOk (ctx_span ctx) ->
  let rc := encodeSpanContext ctx RequestContext_zero in
  ptrOk true (RequestContext_SpanContext rc) /\
  decodeSpanContext Background (RequestContext_SpanContext rc) =
    mkContext (if IsValid (ctx_span ctx) then ctx_span ctx else zeroSpanContext) (ctx_client Background) /\
  RequestContext_ClientMetadata rc = [] /\ RequestContext_ClientAddress rc = RequestContext_noClientAddress.
Proof.
  intros (Ht & Hs & Hf & Hst). unfold encodeSpanContext. destruct (IsValid (ctx_span ctx)); cbn [negb]; [|by split_and!].
  unfold is_byte in Hf. split_and!; try done.
  - unfold ptrOk. cbn. unfold SpanContext_ok. cbn. split_and!; try done; unfold is_u32; lia.
  - cbn. rewrite parse_string, Z.mod_small by lia. by destruct (ctx_span ctx).
Qed.

(** Insertions of entries with distinct keys, in any order. *)
Definition insertAll (l : list (text * list text)) (m : gmap text (list text)) : gmap text (list text) :=
  foldl (fun c '(k, v) => <[k := v]> c) m l.

Lemma insertAll_union l m : NoDup l.*1 -> insertAll l m = list_to_map l ∪ m.
Proof.
  revert m. induction l as [|[k v] l IH]; intros m Hn; [simpl; by rewrite (left_id_L ∅ (∪))|].
  apply NoDup_cons in Hn as [Hk Hn]. simpl. rewrite IH by done. rewrite <- insert_union_l, <- insert_union_r; [done|].
  by apply not_elem_of_list_to_map_1.
Qed.

Lemma insertAll_to_list l m : l ≡ₚ map_to_list m -> insertAll l ∅ = m.
Proof.
  intros Hp. assert (Hn : NoDup l.*1) by (rewrite Hp; apply NoDup_fst_map_to_list).
  rewrite insertAll_union, (right_id_L ∅ (∪)) by done. rewrite <- (list_to_map_to_list m). by apply list_to_map_proper.
Qed.

Lemma NewMetadata_id md : metadataOk md -> NewMetadata md = md.
Proof.
  intros Hm. transitivity (insertAll (rangeEntries md) ∅); [|by apply insertAll_to_list].
  assert (Hl : Forall (fun '(k, _) => ToLower k = k) (rangeEntries md)).
  { rewrite range_entries. apply Forall_forall. intros [k v] Hk%elem_of_map_to_list. by apply Hm in Hk as (_ & ? & _). }
  unfold NewMetadata, insertAll. generalize (∅ : gmap text (list text)). induction Hl as [|[k v] l Hk Hl IH]; intros m; [done|].
  simpl. by rewrite Hk, IH.
Qed.

Lemma GetStringValue_map vals : map GetStringValue (map AnyValue_StringValue vals) = vals.
Proof. induction vals; simpl; congruence. Qed.

Lemma decode_encoded_key md k rest m : ToLower k = k ->
  decodeClientMetadata (encodeMetadataKey md k :: rest) m = decodeClientMetadata rest (<[k := default [] (md !! k)]> m).
Proof.
  intros Hk. unfold encodeMetadataKey, Get. rewrite Hk. destruct (default [] (md !! k)) as [|v [|v' vals] ] eqn:E; [done..|].
  cbn [decodeClientMetadata]. by rewrite GetStringValue_map.
Qed.

Lemma decodeClientMetadata_spec md : metadataOk md ->
  decodeClientMetadata (map (encodeMetadataKey md) (rangeKeys md)) ∅ = Ok md.
Proof.
  intros Hm. set (pairs := (fun k => (k, default [] (md !! k))) <$> rangeKeys md).
  assert (Hl : Forall (fun k => ToLower k = k) (rangeKeys md)).
  { rewrite range_keys. apply Forall_fmap, Forall_forall. intros [k v] Hk%elem_of_map_to_list. by apply Hm in Hk as (_ & ? & _). }
  assert (Hp : pairs ≡ₚ map_to_list md).
  { unfold pairs. rewrite range_keys, <- list_fmap_compose. rewrite <- (list_fmap_id (map_to_list md)) at 2.
    apply reflexive_eq, list_fmap_ext. intros i [k v] Hk%list_elem_of_lookup_2%elem_of_map_to_list. simpl. by rewrite Hk. }
  rewrite <- (insertAll_to_list pairs md Hp) at 3. unfold pairs, insertAll. clear Hp pairs. clear Hm.
  generalize (∅ : gmap text (list text)). induction Hl as [|k l Hk Hl IH]; intros m; [done|].
  cbn [map]. rewrite decode_encoded_key by done. apply IH.
Qed.

Lemma encodeMetadataKey_ok md k : metadataOk md -> k ∈ rangeKeys md -> wellFormed true (encodeMetadataKey md k).
Proof.
  rewrite range_keys. intros Hm [ [k' vals] [Hk Hin] ]%list_elem_of_fmap. simpl in Hk. subst k'.
  apply elem_of_map_to_list in Hin. destruct (Hm _ _ Hin) as (Hb & Hl & Hv). unfold encodeMetadataKey, Get. rewrite Hl, Hin. simpl default.
  change (wellFormed true) with (KvOk true RecursionLimit). change RecursionLimit with (4 + 96)%nat. generalize 96%nat as n. intros n.
  assert (Harr : KvOk true (4 + n) (mkKeyValue k (AnyValue_ArrayValue (Some (map AnyValue_StringValue vals))) 0)).
  { simpl. split_and!; [done| |unfold is_i32; lia..]. left. apply Forall_map. eapply Forall_impl; [exact Hv|]. done. }
  destruct vals as [|v [|v' vals] ]; try exact Harr.
  rewrite Forall_singleton in Hv. simpl. split_and!; [done|by left|unfold is_i32; lia..].
Qed.

#[local] Opaque RecursionLimit.

Lemma encodeContext_ok ctx : contextOk ctx -> RequestContext_ok true (encodeContext ctx).
Proof.
  intros (Hs & Hm & Ha). destruct (encodeSpanContext_spec ctx Hs) as (Hsp & _ & Hmd & Had). unfold encodeContext.
  set (rc := encodeSpanContext ctx RequestContext_zero) in *.
  assert (Hrc : RequestContext_ok true (encodeClientMetadata ctx rc)).
  { unfold RequestContext_ok, encodeClientMetadata. cbn. rewrite Hmd, Had. split_and!; [done..|]. cbn [app].
    apply Forall_map, Forall_forall. intros k Hk. by apply encodeMetadataKey_ok. }
  unfold encodeClientAddress. destruct (Addr (ctx_client ctx)) as [ [] |]; try done;
    (destruct Hrc as (_ & H1 & H2); split_and!; [|exact H1|exact H2]); clear H1 H2; cbn in Ha |- *; unfold IPAddr_ok, TCPAddr_ok, UDPAddr_ok, UnixAddr_ok; cbn; tauto.
Qed.

Lemma decode_encode ctx : contextOk ctx -> decodeContext Background (Some (encodeContext ctx)) = Ok (stored ctx).
Proof.
  intros (Hs & Hm & Ha). destruct (encodeSpanContext_spec ctx Hs) as (_ & Hdec & Hmd & Had).
  set (rc := encodeSpanContext ctx RequestContext_zero) in *.
  assert (Hspan : RequestContext_SpanContext (encodeContext ctx) = RequestContext_SpanContext rc).
  { unfold encodeContext, encodeClientAddress. by destruct (Addr (ctx_client ctx)) as [ [] |]. }
  assert (Hmeta : RequestContext_ClientMetadata (encodeContext ctx) =
    map (encodeMetadataKey (Metadata (ctx_client ctx))) (rangeKeys (Metadata (ctx_client ctx)))).
  { unfold encodeContext, encodeClientAddress. destruct (Addr (ctx_client ctx)) as [ [] |]; cbn; fold rc; by rewrite Hmd. }
  assert (Haddr : decodeClientAddress (encodeContext ctx) = Ok (Addr (ctx_client ctx))).
  { unfold encodeContext, encodeClientAddress, decodeClientAddress. destruct (Addr (ctx_client ctx)) as [ [] |]; try done.
    cbn. fold rc. by rewrite Had. }
  unfold decodeContext, stored. rewrite Hspan, Hmeta, Hdec, decodeClientMetadata_spec, Haddr by done. cbn [rbind ctx_span].
  destruct (bool_decide_reflect (Metadata (ctx_client ctx) = ∅)) as [He|He]; cbn [negb orb].
  - destruct (Addr (ctx_client ctx)) as [a|] eqn:Ea; [by rewrite bool_decide_eq_true_2, NewMetadata_id|].
    rewrite bool_decide_eq_false_2, He by (by intros [? [=] ]). done.
  - by rewrite NewMetadata_id.
Qed.

(** ** The version check *)
Lemma versionBytes : fI32 1 requestFormatVersion = [13; 1; 0; 0; 0].
Proof. reflexivity. Qed.

Lemma isRequestPayloadV1_version rest : isRequestPayloadV1 (fI32 1 requestFormatVersion ++ rest) = Ok true.
Proof.
  rewrite versionBytes. unfold isRequestPayloadV1. rewrite len_app. change (len [13; 1; 0; 0; 0]) with 5. pose proof (len_nonneg rest).
  destruct (Z.ltb_spec (5 + len rest) 5); [lia|]. cbn [app].
  pose proof (slice_app [13] [1; 0; 0; 0] rest) as Hs. cbn [app] in Hs. change (len [13]) with 1 in Hs.
  change (1 + len [1; 0; 0; 0]) with 5 in Hs. cbn [rbind getByte]. rewrite Hs. done.
Qed.

(** Bare data begins with the tag of a resource, or is empty. *)
Lemma isRequestPayloadV1_bare {X} (f : X -> list Z) l : isRequestPayloadV1 (fRepeated (fun x => fLen 1 (f x)) l) = Ok false.
Proof.
  unfold isRequestPayloadV1. destruct l as [|x l]; [done|]. unfold fRepeated. cbn [map concat]. unfold fLen at 1 2 3.
  change (tag 1 2) with [10]. cbn [app]. destruct (_ <? 5); done.
Qed.

Lemma isRequestPayloadV1_safe data : Safe (fun _ => True) (isRequestPayloadV1 data).
Proof.
  unfold isRequestPayloadV1. destruct (Z.ltb_spec (len data) 5); [done|].
  destruct (getByte_ok data 0) as (b & -> & _); [lia|]. cbn [rbind]. destruct (b =? protoTag1TypeByte); [|done]. cbn [negb].
  destruct (slice_ok data 1 5) as (s & -> & _); [lia..|]. done.
Qed.

(** ** Any signal *)
Section Signal.
Context {R D : Type} `{CodecLaws R} `{CodecLaws D}.
Context (what : string) (rc : R -> option RequestContext) (data : R -> D).

Local Abbreviation decode := (encodingUnmarshal zero (unmarshalRequest what rc data zero) (fun buf => UnmarshalProto buf zero)).

Lemma request_roundtrip (r : R) rest ctx : wellFormed true r -> fits (wire r) ->
  wire r = fI32 1 requestFormatVersion ++ rest -> rc r = Some (encodeContext ctx) -> contextOk ctx ->
  exists buf, marshalNew r = Ok buf /\ decode buf = Ok (stored ctx, data r, None).
Proof.
  intros Hw Hf Hv Hrc Hctx. exists (wire r). split; [by eapply marshalNew_wire|].
  unfold encodingUnmarshal, unmarshalRequest. rewrite Hv at 1. rewrite isRequestPayloadV1_version. cbn [rbind negb].
  rewrite codec_roundtrip by done. rewrite Hrc, decode_encode by done. done.
Qed.

Lemma bare_roundtrip (d : D) : wellFormed true d -> fits (wire d) -> isRequestPayloadV1 (wire d) = Ok false ->
  exists buf, marshalNew d = Ok buf /\ decode buf = Ok (Background, d, None).
Proof.
  intros Hw Hf Hv. exists (wire d). split; [by eapply marshalNew_wire|].
  unfold encodingUnmarshal, unmarshalRequest. rewrite Hv. cbn [rbind negb isInvalidFormat].
  rewrite codec_roundtrip by done. done.
Qed.

Lemma decode_total buf :
  (forall r, wellFormed false r -> Safe (fun _ => True) (decodeContext Background (rc r)) /\ wellFormed false (data r)) ->
  bytes buf -> fits buf -> Safe (fun '(_, d, err) => wellFormed false d) (decode buf).
Proof.
  intros Hr Hb Hf. unfold encodingUnmarshal. eapply (Safe_bind (fun '(_, d, _) => wellFormed false d)).
  - unfold unmarshalRequest. eapply Safe_bind; [apply isRequestPayloadV1_safe|]. intros v1 _. destruct v1; cbn [negb]; [|apply codec_zero].
    pose proof (decode_safe (M := R) buf Hb Hf) as Hs. destruct (UnmarshalProto buf zero) as [r| | |]; try done; [|apply codec_zero].
    destruct (Hr r Hs) as [Hc Hd]. eapply Safe_bind; [exact Hc|]. done.
  - intros [ [ctx d] err] Hd. destruct (isInvalidFormat err); [|done].
    pose proof (decode_safe (M := D) buf Hb Hf) as Hs. destruct (UnmarshalProto buf zero); try done. apply codec_zero.
Qed.
End Signal.

Lemma KvOk_value k v i : wellFormed false (mkKeyValue k v i) -> v <> AnyValue_ArrayValue None.
Proof.
  change (wellFormed false) with (KvOk false RecursionLimit). change RecursionLimit with (2 + 98)%nat. generalize 98%nat as n.
  intros n (_ & [Hv|[_ Hv] ] & _) ->; done.
Qed.

Lemma decodeContext_safe rc : ptrOk false rc -> Safe (fun _ => True) (decodeContext Background rc).
Proof.
  destruct rc as [rc|]; [|done]. intros (Ha & _ & Hm). unfold decodeContext.
  eapply (Safe_bind (fun _ => True)).
  - generalize (∅ : gmap text (list text)). induction Hm as [|kv l Hk Hl IH]; intros m; [done|].
    destruct kv as [k v i]. cbn [decodeClientMetadata]. apply KvOk_value in Hk.
    destruct v as [| | | | |[?|]| | |]; try apply IH. done.
  - intros md _. eapply (Safe_bind (fun _ => True)).
    + unfold decodeClientAddress. destruct (RequestContext_ClientAddress rc) as [|[]|[]|[]|[] ]; done.
    + intros a _. by destruct (_ || _).
Qed.

(** C18: A request the persistent queue stores is the request it later reads: for
    logs, traces and metrics, [Unmarshal] of what [Marshal] wrote gives the same
    data without an error, in a context with the same valid span, the same client
    metadata (in whatever order Go ranged over it) and the same client address;
    the payload is recognised by its version field. *)
Theorem queue_encoding_roundtrip ctx : contextOk ctx ->
  (forall ld, ExportLogsServiceRequest_ok true ld ->
     fits (LogsRequest_wire (mkLogsRequest (Some (encodeContext ctx)) (LogsToProto ld) requestFormatVersion)) ->
     exists buf, logsEncoding_Marshal ctx ld = Ok buf /\ logsEncoding_Unmarshal buf = Ok (stored ctx, ld, None)) /\
  (forall td, ExportTraceServiceRequest_ok true td ->
     fits (TracesRequest_wire (mkTracesRequest (Some (encodeContext ctx)) (TracesToProto td) requestFormatVersion)) ->
     exists buf, tracesEncoding_Marshal ctx td = Ok buf /\ tracesEncoding_Unmarshal buf = Ok (stored ctx, td, None)) /\
  (forall md, ExportMetricsServiceRequest_ok true md ->
     fits (MetricsRequest_wire (mkMetricsRequest (Some (encodeContext ctx)) (MetricsToProto md) requestFormatVersion)) ->
     exists buf, metricsEncoding_Marshal ctx md = Ok buf /\ metricsEncoding_Unmarshal buf = Ok (stored ctx, md, None)).
Proof.
  intros Hctx. pose proof (encodeContext_ok ctx Hctx) as He. split_and!.
  - intros [l] Hw Hf.
    refine (request_roundtrip "logs" LogsRequest_RequestContext (fun r => LogsFromProto (LogsRequest_LogsData r)) _ _ ctx _ Hf eq_refl eq_refl Hctx).
    split_and!; [exact He|exact Hw|done..].
  - intros [l] Hw Hf.
    refine (request_roundtrip "traces" TracesRequest_RequestContext (fun r => TracesFromProto (TracesRequest_TracesData r)) _ _ ctx _ Hf eq_refl eq_refl Hctx).
    split_and!; [exact He|exact Hw|done..].
  - intros [l] Hw Hf.
    refine (request_roundtrip "metrics" MetricsRequest_RequestContext (fun r => MetricsFromProto (MetricsRequest_MetricsData r)) _ _ ctx _ Hf eq_refl eq_refl Hctx).
    split_and!; [exact He|exact Hw|done..].
Qed.

(** C19: On any stored bytes the encodings end with well-formed data, with or
    without an error, and never panic: neither decoding a message, nor following
    the pointers of the stored context.  Bytes stored without a context, as older
    versions did, are told apart from requests by their first byte and read back
    whole, in an empty context. *)
Theorem queue_encoding_any_bytes :
  (forall buf, bytes buf -> fits buf ->
     Safe (fun '(_, ld, _) => ExportLogsServiceRequest_ok false ld) (logsEncoding_Unmarshal buf) /\
     Safe (fun '(_, td, _) => ExportTraceServiceRequest_ok false td) (tracesEncoding_Unmarshal buf) /\
     Safe (fun '(_, md, _) => ExportMetricsServiceRequest_ok false md) (metricsEncoding_Unmarshal buf)) /\
  (forall ld, ExportLogsServiceRequest_ok true ld -> fits (ExportLogsServiceRequest_wire ld) ->
     exists buf, plog_MarshalLogs ld = Ok buf /\ logsEncoding_Unmarshal buf = Ok (Background, ld, None)) /\
  (forall td, ExportTraceServiceRequest_ok true td -> fits (ExportTraceServiceRequest_wire td) ->
     exists buf, ptrace_MarshalTraces td = Ok buf /\ tracesEncoding_Unmarshal buf = Ok (Background, td, None)) /\
  (forall md, ExportMetricsServiceRequest_ok true md -> fits (ExportMetricsServiceRequest_wire md) ->
     exists buf, pmetric_MarshalMetrics md = Ok buf /\ metricsEncoding_Unmarshal buf = Ok (Background, md, None)).
Proof.
  split; [|split_and!; intros [l] Hw Hf; (eapply bare_roundtrip; [exact Hw|exact Hf|apply isRequestPayloadV1_bare])].
  intros buf Hb Hf. split_and!.
  - refine (decode_total "logs" LogsRequest_RequestContext (fun r => LogsFromProto (LogsRequest_LogsData r)) buf _ Hb Hf).
    intros r (Hc & Hd & _). split; [by apply decodeContext_safe|exact Hd].
  - refine (decode_total "traces" TracesRequest_RequestContext (fun r => TracesFromProto (TracesRequest_TracesData r)) buf _ Hb Hf).
    intros r (Hc & Hd & _). split; [by apply decodeContext_safe|exact Hd].
  - refine (decode_total "metrics" MetricsRequest_RequestContext (fun r => MetricsFromProto (MetricsRequest_MetricsData r)) buf _ Hb Hf).
    intros r (Hc & Hd & _). split; [by apply decodeContext_safe|exact Hd].
Qed.
End Queue.

(** ** A concrete context *)
#[local] Instance textTraceApi : TraceApi :=
  { TraceState := text; traceStateString ts := ts; ParseTraceState s := (s, None); emptyTraceState := [] }.

Definition sampleContext : Context unit :=
  mkContext (mkSpanCtx _ (replicate 16 7) (replicate 8 9) 1 [97] true)
            (mkInfo (Some (net_TCPAddr [127; 0; 0; 1] 4317 [])) None {[ [107] := [[118]; [119]] ]}).

Definition sampleValid (sc : trace_SpanContext) : bool :=
  negb (ID_IsEmpty traceIDSize (sc_TraceID sc)) && negb (ID_IsEmpty spanIDSize (sc_SpanID sc)).
Definition sampleKeys (m : gmap text (list text)) : list text := (map_to_list m).*1.

Lemma sampleContext_ok : contextOk (fun s => s) sampleContext.
Proof.
  split_and!.
  - cbn. sample_ok.
  - apply map_Forall_singleton. split_and!; [|done|]; repeat constructor; by vm_compute.
  - cbn. sample_ok.
Qed.

Lemma queue_encoding_roundtrip_witness :
  exists buf,
    logsEncoding_Marshal sampleValid sampleKeys (fun s => s) sampleContext sampleLogs = Ok buf /\
    logsEncoding_Unmarshal (A := unit) map_to_list (fun s => s) buf = Ok (sampleContext, sampleLogs, None).
Proof.
  refine (proj1 (queue_encoding_roundtrip sampleValid sampleKeys map_to_list (fun s => s) _ _ _ sampleContext sampleContext_ok)
            sampleLogs sampleLogs_ok _); [done..|by vm_compute].
Defined.

Lemma queue_encoding_any_bytes_witness :
  (exists buf, plog_MarshalLogs sampleLogs = Ok buf /\
     logsEncoding_Unmarshal (A := unit) map_to_list (fun s => s) buf = Ok (Background, sampleLogs, None)) /\
  Safe (fun '(_, ld, _) => ExportLogsServiceRequest_ok false ld)
    (logsEncoding_Unmarshal (A := unit) map_to_list (fun s => s) [13; 1; 0; 0; 0; 26]) /\
  logsEncoding_Unmarshal (A := unit) map_to_list (fun s => s) [13; 1; 0; 0; 0; 26] =
    Ok (Background, zero, Some (Wrapf "failed to unmarshal logs request: %w" [] ErrUnexpectedEOF)).
Proof.
  destruct (queue_encoding_any_bytes (A := unit) map_to_list (fun s => s)) as (Hany & Hbare & _). split_and!.
  - exact (Hbare sampleLogs sampleLogs_ok ltac:(by vm_compute)).
  - refine (proj1 (Hany [13; 1; 0; 0; 0; 26] _ _)); [repeat constructor; by vm_compute|by vm_compute].
  - by vm_compute.
Defined.
