(* ===== verification/ProfilesQueue.v ===== *)
(** * Profiles in the sending queue

    The messages that the persistent sending queue stores for profiles
    (generated_proto_profilesdata.go and generated_proto_profilesrequest.go), the encoding
    of pdata/xpdata/request/profiles_request.go with the helpers of wrapper_profiles.go, and
    profilesEncoding of xexporterhelper/profiles.go, as ProtoQueue has them for the other
    signals. *)

From stdpp Require Import gmap.
From S2P Require Import Prelude RecordUpdate Errors Sizers ProtoWire ProtoWireProofs ProtoFields ProtoCommon ProtoCommonProofs ProtoMessage ProtoKinds ProtoIds ProtoResource ProtoLogs ProtoTraces ProtoMetrics ProtoProfiles ProtoExport ProtoRequests ProtoApi ProfilesRefs ProtoQueue.
Local Open Scope Z_scope.
Local Open Scope otel_scope.

#[local] Opaque RecursionLimit.

(** ** ProfilesData *)
Record ProfilesData := mkProfilesData {
  ProfilesData_ResourceProfiles : list ResourceProfiles;
  ProfilesData_Dictionary : ProfilesDictionary;
}.

Definition ProfilesData_zero : ProfilesData :=
  mkProfilesData [] zero.

#[export] Instance ProfilesData_settable : Settable ProfilesData :=
  settable! mkProfilesData <ProfilesData_ResourceProfiles; ProfilesData_Dictionary>.

Definition ProfilesData_SizeProto (m : ProfilesData) : Z :=
  sizeRepeated (fun x => sizeLen 1 (SizeProto x)) (ProfilesData_ResourceProfiles m) +
  sizeLen 1 (SizeProto (ProfilesData_Dictionary m)).

Definition ProfilesData_MarshalProto (m : ProfilesData) : list Z -> res (Z * list Z) :=
  runW (
    wRepeated (fun x => wMsg (wByte 0xa) (MarshalProto x)) (ProfilesData_ResourceProfiles m) >;>
    wMsg (wByte 0x12) (MarshalProto (ProfilesData_Dictionary m))).

Definition ProfilesData_step (fieldNum wireType : Z) (buf : list Z) (pos : Z) (m : ProfilesData) :
  res (ProfilesData * Z) :=
  match fieldNum with
  | 1 => let* (b, pos) := readLen "ResourceProfiles" wireType buf pos in
      let* v := UnmarshalProto b zero in
      Ok (m <| ProfilesData_ResourceProfiles := ProfilesData_ResourceProfiles m ++ [v] |>, pos)
  | 2 => let* (b, pos) := readLen "Dictionary" wireType buf pos in
      let* v := UnmarshalProto b (ProfilesData_Dictionary m) in
      Ok (m <| ProfilesData_Dictionary := v |>, pos)
  | _ => skipField wireType buf pos m
  end.

Definition ProfilesData_wire (m : ProfilesData) : list Z :=
  fLen 2 (wire (ProfilesData_Dictionary m)) ++
  fRepeated (fun x => fLen 1 (wire x)) (ProfilesData_ResourceProfiles m).

Definition ProfilesData_ok (strict : bool) (m : ProfilesData) : Prop :=
  Forall (wellFormed strict) (ProfilesData_ResourceProfiles m) /\
  wellFormed strict (ProfilesData_Dictionary m).

#[export] Instance ProfilesData_codec : Codec ProfilesData :=
  { zero := ProfilesData_zero;
    SizeProto := ProfilesData_SizeProto;
    MarshalProto := ProfilesData_MarshalProto;
    UnmarshalProto := unmarshalFields ProfilesData_step;
    wire := ProfilesData_wire;
    wellFormed := ProfilesData_ok }.

Lemma ProfilesData_enc strict m :
  ProfilesData_ok strict m -> Encodes (ProfilesData_MarshalProto m) (ProfilesData_SizeProto m)
    (ProfilesData_wire m).
Proof. enc_message strict ProfilesData_ok. Qed.

Lemma ProfilesData_rd m :
  ProfilesData_ok true m -> Rd ProfilesData_step (ProfilesData_wire m)
    ProfilesData_zero m.
Proof.
  rd_message m ProfilesData_ok ProfilesData_wire.
  rd_msg 2 "Dictionary" ProfilesData_Dictionary.
  rd_msgs 1 "ResourceProfiles" ProfilesData_ResourceProfiles.
Qed.

Lemma ProfilesData_safe : SafeStep ProfilesData_step (ProfilesData_ok false).
Proof. safe_message ProfilesData_step ProfilesData_ok. Qed.

#[export] Instance ProfilesData_laws : CodecLaws ProfilesData.
Proof.
  apply (fields_laws ProfilesData_step); [done| | | |].
  - apply ProfilesData_enc.
  - apply ProfilesData_rd.
  - apply ProfilesData_safe.
  - zero_ok ProfilesData_ok.
Qed.

(** ** ProfilesRequest *)
Record ProfilesRequest := mkProfilesRequest {
  ProfilesRequest_RequestContext : option RequestContext;
  ProfilesRequest_ProfilesData : ProfilesData;
  ProfilesRequest_FormatVersion : Z;
}.

Definition ProfilesRequest_zero : ProfilesRequest :=
  mkProfilesRequest None zero 0.

#[export] Instance ProfilesRequest_settable : Settable ProfilesRequest :=
  settable! mkProfilesRequest <ProfilesRequest_RequestContext; ProfilesRequest_ProfilesData; ProfilesRequest_FormatVersion>.

Definition ProfilesRequest_SizeProto (m : ProfilesRequest) : Z :=
  sizePtr 1 (ProfilesRequest_RequestContext m) +
  sizeLen 1 (SizeProto (ProfilesRequest_ProfilesData m)) +
  (if negb (ProfilesRequest_FormatVersion m =? 0) then 5 else 0).

Definition ProfilesRequest_MarshalProto (m : ProfilesRequest) : list Z -> res (Z * list Z) :=
  runW (
    wPtr (wByte 0x12) (ProfilesRequest_RequestContext m) >;>
    wMsg (wByte 0x1a) (MarshalProto (ProfilesRequest_ProfilesData m)) >;>
    wWhen (negb (ProfilesRequest_FormatVersion m =? 0)) (wI32 (wByte 0xd) (ProfilesRequest_FormatVersion m))).

Definition ProfilesRequest_step (fieldNum wireType : Z) (buf : list Z) (pos : Z) (m : ProfilesRequest) :
  res (ProfilesRequest * Z) :=
  match fieldNum with
  | 2 => let* (b, pos) := readLen "RequestContext" wireType buf pos in
      let* v := UnmarshalProto b zero in
      Ok (m <| ProfilesRequest_RequestContext := (Some v) |>, pos)
  | 3 => let* (b, pos) := readLen "ProfilesData" wireType buf pos in
      let* v := UnmarshalProto b (ProfilesRequest_ProfilesData m) in
      Ok (m <| ProfilesRequest_ProfilesData := v |>, pos)
  | 1 => let* (num, pos) := readI32 "FormatVersion" wireType buf pos in
      Ok (m <| ProfilesRequest_FormatVersion := num |>, pos)
  | _ => skipField wireType buf pos m
  end.

Definition ProfilesRequest_wire (m : ProfilesRequest) : list Z :=
  fWhen (negb (ProfilesRequest_FormatVersion m =? 0)) (fI32 1 (ProfilesRequest_FormatVersion m)) ++
  fLen 3 (wire (ProfilesRequest_ProfilesData m)) ++
  fPtr 2 (ProfilesRequest_RequestContext m).

Definition ProfilesRequest_ok (strict : bool) (m : ProfilesRequest) : Prop :=
  ptrOk strict (ProfilesRequest_RequestContext m) /\
  wellFormed strict (ProfilesRequest_ProfilesData m) /\
  is_u32 (ProfilesRequest_FormatVersion m).

#[export] Instance ProfilesRequest_codec : Codec ProfilesRequest :=
  { zero := ProfilesRequest_zero;
    SizeProto := ProfilesRequest_SizeProto;
    MarshalProto := ProfilesRequest_MarshalProto;
    UnmarshalProto := unmarshalFields ProfilesRequest_step;
    wire := ProfilesRequest_wire;
    wellFormed := ProfilesRequest_ok }.

Lemma ProfilesRequest_enc strict m :
  ProfilesRequest_ok strict m -> Encodes (ProfilesRequest_MarshalProto m) (ProfilesRequest_SizeProto m) (ProfilesRequest_wire m).
Proof. enc_message strict ProfilesRequest_ok. Qed.

Lemma ProfilesRequest_rd m :
  ProfilesRequest_ok true m -> Rd ProfilesRequest_step (ProfilesRequest_wire m) ProfilesRequest_zero m.
Proof.
  rd_message m ProfilesRequest_ok ProfilesRequest_wire.
  rd_i32 1 "FormatVersion" ProfilesRequest_FormatVersion.
  rd_msg 3 "ProfilesData" ProfilesRequest_ProfilesData.
  rd_ptr 2 "RequestContext" ProfilesRequest_RequestContext.
Qed.

Lemma ProfilesRequest_safe : SafeStep ProfilesRequest_step (ProfilesRequest_ok false).
Proof. safe_message ProfilesRequest_step ProfilesRequest_ok. Qed.

#[export] Instance ProfilesRequest_laws : CodecLaws ProfilesRequest.
Proof.
  apply (fields_laws ProfilesRequest_step); [done| | | |].
  - apply ProfilesRequest_enc.
  - apply ProfilesRequest_rd.
  - apply ProfilesRequest_safe.
  - zero_ok ProfilesRequest_ok.
Qed.

(** ** wrapper_profiles.go *)
Definition ProfilesToProto (l : ExportProfilesServiceRequest) : ProfilesData :=
  mkProfilesData (ExportProfilesServiceRequest_ResourceProfiles l) (ExportProfilesServiceRequest_Dictionary l).
Definition ProfilesFromProto (orig : ProfilesData) : ExportProfilesServiceRequest :=
  mkExportProfilesServiceRequest (ProfilesData_ResourceProfiles orig) (ProfilesData_Dictionary orig).

Section Queue.
Context `{TraceApi} {A : Type}.
Context (IsValid : trace_SpanContext -> bool).
Context (rangeKeys : gmap text (list text) -> list text).
Context (rangeEntries : gmap text (list text) -> list (text * list text)).
Context (toLowerUnicode : text -> text).

Local Abbreviation encode := (encodeContext IsValid rangeKeys toLowerUnicode).

(** ** profiles_request.go *)
Definition MarshalProfiles (ctx : Context A) (ld : ExportProfilesServiceRequest) : res (list Z) :=
  marshalNew (mkProfilesRequest (Some (encode ctx)) (ProfilesToProto ld) requestFormatVersion).
Definition UnmarshalProfiles : list Z -> res (Context A * ExportProfilesServiceRequest * option error) :=
  unmarshalRequest rangeEntries toLowerUnicode "profiles" ProfilesRequest_RequestContext (fun pr => ProfilesFromProto (ProfilesRequest_ProfilesData pr)) zero.

(** ** profilesEncoding *)
Definition profilesEncoding_Marshal : Context A -> ExportProfilesServiceRequest -> res (list Z) := MarshalProfiles.
Definition profilesEncoding_Unmarshal : list Z -> res (Context A * ExportProfilesServiceRequest * option error) :=
  encodingUnmarshal zero UnmarshalProfiles pprofile_UnmarshalProfiles.

Hypothesis parse_string : forall ts, ParseTraceState (traceStateString ts) = (ts, None).
Hypothesis range_keys : forall m, rangeKeys m ≡ₚ (map_to_list m).*1.
Hypothesis range_entries : forall m, rangeEntries m ≡ₚ map_to_list m.

Lemma isRequestPayloadV1_dictionary s rest : isRequestPayloadV1 (fLen 2 s ++ rest) = Ok false.
Proof. unfold isRequestPayloadV1, fLen. change (tag 2 2) with [18]. cbn [app]. destruct (_ <? 5); done. Qed.

(** C22: A request of profiles that the persistent queue stores is the request it later
    reads, in a context with the same valid span, client metadata and client address.
    Profiles stored without a context, as older versions did with their attributes as
    references, are recognised and read back with their strings, in an empty context. *)
Theorem profiles_queue_roundtrip ctx pd : contextOk toLowerUnicode ctx -> ExportProfilesServiceRequest_ok true pd ->
  (fits (ProfilesRequest_wire (mkProfilesRequest (Some (encode ctx)) (ProfilesToProto pd) requestFormatVersion)) ->
   exists buf, profilesEncoding_Marshal ctx pd = Ok buf /\ profilesEncoding_Unmarshal buf = Ok (stored IsValid ctx, pd, None)) /\
  (plainProfiles pd = true -> len (ProfilesDictionary_StringTable (ExportProfilesServiceRequest_Dictionary pd)) + profilesStrings pd < 2 ^ 31 ->
   (forall sent, ConvertProfilesToReferences pd = Ok sent -> fits (ExportProfilesServiceRequest_wire sent)) ->
   exists buf after received, pprofile_MarshalProfiles true pd = Ok (buf, after) /\ profilesEncoding_Unmarshal buf = Ok (Background, received, None) /\
     ExportProfilesServiceRequest_ResourceProfiles received = ExportProfilesServiceRequest_ResourceProfiles pd).
Proof.
  intros Hctx Hok. split.
  - intros Hf. set (r := mkProfilesRequest _ _ _) in *. assert (Hw : wellFormed true r).
    { split; [by apply encodeContext_ok|]. split; [exact Hok|done]. }
    exists (wire r). split; [by eapply (marshalNew_wire true r)|]. unfold profilesEncoding_Unmarshal, encodingUnmarshal, UnmarshalProfiles, unmarshalRequest.
    assert (Hv : isRequestPayloadV1 (wire r) = Ok true) by apply isRequestPayloadV1_version. rewrite Hv. cbn [rbind negb].
    rewrite codec_roundtrip by done. cbn [ProfilesRequest_RequestContext r]. rewrite decode_encode by done. by destruct pd.
  - intros Hplain Hroom Hfits. destruct (convert_resolve pd Hok Hplain Hroom) as (sent & Hc & Hw & Hr & _). specialize (Hfits sent Hc).
    exists (wire sent), pd, (pd <| ExportProfilesServiceRequest_Dictionary := ExportProfilesServiceRequest_Dictionary sent |>). split; [|split; [|done] ].
    + unfold pprofile_MarshalProfiles. rewrite Hc. cbn [rbind]. by destruct (marshalNew_wire true sent Hw Hfits) as [-> _].
    + unfold profilesEncoding_Unmarshal, encodingUnmarshal, UnmarshalProfiles, unmarshalRequest.
      assert (Hv : isRequestPayloadV1 (wire sent) = Ok false) by apply isRequestPayloadV1_dictionary. rewrite Hv. cbn [rbind negb isInvalidFormat].
      unfold pprofile_UnmarshalProfiles. rewrite (codec_roundtrip sent Hw Hfits). cbn [rbind]. by rewrite Hr.
Qed.
End Queue.

(** ** A concrete context *)
#[local] Existing Instance textTraceApi.

Lemma profiles_queue_roundtrip_witness :
  (exists buf, profilesEncoding_Marshal sampleValid sampleKeys (fun s => s) sampleContext attributeProfiles = Ok buf /\
     profilesEncoding_Unmarshal (A := unit) map_to_list (fun s => s) buf = Ok (sampleContext, attributeProfiles, None)) /\
  (exists buf after received, pprofile_MarshalProfiles true attributeProfiles = Ok (buf, after) /\
     profilesEncoding_Unmarshal (A := unit) map_to_list (fun s => s) buf = Ok (Background, received, None) /\
     ExportProfilesServiceRequest_ResourceProfiles received = ExportProfilesServiceRequest_ResourceProfiles attributeProfiles).
Proof.
  destruct (profiles_queue_roundtrip (A := unit) sampleValid sampleKeys map_to_list (fun s => s) ltac:(done) ltac:(done) ltac:(done) sampleContext attributeProfiles
    sampleContext_ok attributeProfiles_ok) as [H1 H2]. split.
  - apply H1. by vm_compute.
  - apply H2; [reflexivity|by vm_compute|]. intros sent E. vm_compute in E. injection E as <-. by vm_compute.
Defined.
