(* ===== verification/FeatureGates.v ===== *)
(** * Feature gates (featuregate/registry.go, gate.go, flag.go, stage.go)

    The registry of gates: [Register] with its options and checks, [Set] by stage,
    [VisitAll] in the order of the identifiers, and the value of the command line
    flag, which prints the gates and sets them from a list.

    A [*Gate] is kept by the registry under its identifier and never replaced, so the
    state of a gate is the entry of the registry.  The versions of a gate are those of
    a third-party package, [NewVersion], [Version_String] and [LessThan]; [parseURL] is the check of a
    reference URL.  What [Set] prints is left out, and so is the value of a flag without
    a registry, which prints as the empty string. *)

From S2P Require Import Prelude Errors Confmap.
From Stdlib Require Import Ascii Sorted.
Local Open Scope Z_scope.

(** ** Strings *)
Fixpoint Split (sep : ascii) (s : str) : list str :=
  match s with
  | [] => [[]]
  | c :: s =>
      if decide (c = sep) then [] :: Split sep s
      else match Split sep s with [] => [[c]] | w :: ws => (c :: w) :: ws end
  end.

Fixpoint Join (sep : ascii) (l : list str) : str :=
  match l with
  | [] => []
  | [w] => w
  | w :: l => w ++ sep :: Join sep l
  end.

(** The order of strings, by bytes. *)
Fixpoint strLess (a b : str) : bool :=
  match a, b with
  | _, [] => false
  | [], _ :: _ => true
  | x :: a, y :: b =>
      (nat_of_ascii x <? nat_of_ascii y)%nat || ((nat_of_ascii x =? nat_of_ascii y)%nat && strLess a b)
  end.

(** ** Gates *)
Definition StageAlpha : Z := 0.
Definition StageBeta : Z := 1.
Definition StageStable : Z := 2.
Definition StageDeprecated : Z := 3.

Definition Stage_String (s : Z) : string :=
  if s =? StageAlpha then "Alpha" else if s =? StageBeta then "Beta"
  else if s =? StageStable then "Stable" else if s =? StageDeprecated then "Deprecated" else "Unknown".

Section Gates.
Context {Version : Type}.

Record Gate := mkGate {
  g_id : str;
  g_description : str;
  g_referenceURL : str;
  g_fromVersion : option Version;
  g_toVersion : option Version;
  g_stage : Z;
  g_enabled : bool;
}.

Abbreviation Registry := (gmap str Gate).

Inductive RegisterOption :=
  | WithRegisterDescription (description : str)
  | WithRegisterReferenceURL (referenceURL : str)
  | WithRegisterFromVersion (fromVersion : str)
  | WithRegisterToVersion (toVersion : str).

(** [^[0-9a-zA-Z_]+(\.[0-9a-zA-Z_]+)*$] *)
Definition between (a b c : ascii) : bool := (nat_of_ascii a <=? nat_of_ascii c)%nat && (nat_of_ascii c <=? nat_of_ascii b)%nat.
Definition idChar (c : ascii) : bool := between "0" "9" c || between "a" "z" c || between "A" "Z" c || bool_decide (c = "_"%char).
Definition idRegexp (id : str) : bool :=
  forallb (fun segment => negb (bool_decide (segment = [])) && forallb idChar segment) (Split "." id).

Definition validateID (id : str) : option error :=
  if decide (id = []) then Some (New "empty ID")
  else if idRegexp id then None else Some (New "invalid character(s) in ID").

Section Register.
Context (NewVersion : str -> Version + error) (Version_String : Version -> string) (LessThan : Version -> Version -> bool) (parseURL : str -> option error).

Definition apply (opt : RegisterOption) (g : Gate) : Gate + error :=
  let 'mkGate id description referenceURL from to stage enabled := g in
  match opt with
  | WithRegisterDescription d => inl (mkGate id d referenceURL from to stage enabled)
  | WithRegisterReferenceURL u =>
      match parseURL u with
      | Some err => inr (Wrapf "WithRegisterReferenceURL: invalid reference URL %q: %w" [ArgS (text u)] err)
      | None => inl (mkGate id description u from to stage enabled)
      end
  | WithRegisterFromVersion v =>
      match NewVersion v with
      | inr err => inr (Wrapf "WithRegisterFromVersion: invalid version %q: %w" [ArgS (text v)] err)
      | inl from => inl (mkGate id description referenceURL (Some from) to stage enabled)
      end
  | WithRegisterToVersion v =>
      match NewVersion v with
      | inr err => inr (Wrapf "WithRegisterToVersion: invalid version %q:  %w" [ArgS (text v)] err)
      | inl to => inl (mkGate id description referenceURL from (Some to) stage enabled)
      end
  end.

Fixpoint applyAll (opts : list RegisterOption) (g : Gate) : Gate + error :=
  match opts with
  | [] => inl g
  | opt :: opts =>
      match apply opt g with
      | inr err => inr (Wrapf "failed to apply option: %w" [] err)
      | inl g => applyAll opts g
      end
  end.

(** The value of a gate that is registered without being set. *)
Definition initial (stage : Z) : option bool :=
  if (stage =? StageAlpha) || (stage =? StageDeprecated) then Some false
  else if (stage =? StageBeta) || (stage =? StageStable) then Some true
  else None.

(** Whether both versions are given and the second is before the first. *)
Definition reversed (g : Gate) : bool :=
  match g_fromVersion g, g_toVersion g with Some from, Some to => LessThan to from | _, _ => false end.

Definition ErrAlreadyRegistered : error := New "gate is already registered".

Definition Register (id : str) (stage : Z) (opts : list RegisterOption) (r : Registry) : Registry * (Gate + error) :=
  match validateID id with
  | Some err => (r, inr (Wrapf "invalid ID %q: %w" [ArgS (text id)] err))
  | None =>
      match applyAll opts (mkGate id [] [] None None stage false) with
      | inr err => (r, inr err)
      | inl (mkGate id' description referenceURL from to stage' _) =>
          match initial stage' with
          | None => (r, inr (Errorf "unknown stage value %q for gate %q" [ArgS (Stage_String stage); ArgS (text id)]))
          | Some enabled =>
              let g := mkGate id' description referenceURL from to stage' enabled in
              if ((stage' =? StageStable) || (stage' =? StageDeprecated)) && negb (bool_decide (is_Some to)) then
                (r, inr (Errorf "no removal version set for %v gate %q" [ArgS (Stage_String stage'); ArgS (text id)]))
              else if reversed g then
                (r, inr (Errorf "toVersion %q is before fromVersion %q" (map (ArgS ∘ Version_String) (omap (fun v => v) [to; from]))))
              else match r !! id with
              | Some _ => (r, inr (Wrapf "failed to register %q: %w" [ArgS (text id)] ErrAlreadyRegistered))
              | None => (<[id := g]> r, inl g)
              end
          end
      end
  end.

End Register.

(** [sort.Slice] by identifier: an insertion sort of the gates in the order in which
    [Range] finds them. *)
Fixpoint insertGate (g : Gate) (l : list Gate) : list Gate :=
  match l with
  | [] => [g]
  | h :: t => if strLess (g_id h) (g_id g) then h :: insertGate g t else g :: l
  end.

(** The gates that [VisitAll] calls its function with. *)
Definition VisitAll (r : Registry) : list Gate := foldr insertGate [] (map snd (map_to_list r)).

Definition IsEnabled (r : Registry) (id : str) : option bool := g_enabled <$> r !! id.

Definition store (enabled : bool) (g : Gate) : Gate :=
  mkGate (g_id g) (g_description g) (g_referenceURL g) (g_fromVersion g) (g_toVersion g) (g_stage g) enabled.

Definition Registry_Set (id : str) (enabled : bool) (r : Registry) : Registry * option error :=
  match r !! id with
  | None => (r, Some (Errorf "no such feature gate %q. valid gates: %v" [ArgS (text id); ArgL (map (text ∘ g_id) (VisitAll r))]))
  | Some g =>
      if g_stage g =? StageStable then
        if negb enabled then (r, Some (Errorf "feature gate %q is stable, can not be disabled" [ArgS (text id)])) else (r, None)
      else if g_stage g =? StageDeprecated then
        if enabled then (r, Some (Errorf "feature gate %q is deprecated, can not be enabled" [ArgS (text id)])) else (r, None)
      else (<[id := store enabled g]> r, None)
  end.

(** ** The flag *)
Definition flagValue_String (r : Registry) : str :=
  Join "," (map (fun g => if g_enabled g then g_id g else "-"%char :: g_id g) (VisitAll r)).

Fixpoint setLoop (i : Z) (ids : list str) (r : Registry) (errs : option error) : Registry * option error :=
  match ids with
  | [] => (r, errs)
  | [] :: ids => setLoop (i + 1) ids r (multierr_Append errs (Some (Errorf "empty feature gate identifier at index %d" [ArgZ i])))
  | (c :: id) :: ids =>
      let '(id, val) := if decide (c = "-"%char) then (id, false) else if decide (c = "+"%char) then (id, true) else (c :: id, true) in
      let '(r, err) := Registry_Set id val r in
      setLoop (i + 1) ids r (multierr_Append errs err)
  end.

Definition flagValue_Set (s : str) (r : Registry) : Registry * option error :=
  if decide (s = []) then (r, None) else setLoop 0 (Split "," s) r None.

(** ** What holds of every registry *)

(** Stable gates are enabled and deprecated ones disabled, and both say when they go. *)
Record GateOk (LessThan : Version -> Version -> bool) (id : str) (g : Gate) : Prop := {
  ok_id : g_id g = id;
  ok_valid : validateID id = None;
  ok_stage : 0 <= g_stage g <= 3;
  ok_stable : g_stage g = StageStable -> g_enabled g = true /\ is_Some (g_toVersion g);
  ok_deprecated : g_stage g = StageDeprecated -> g_enabled g = false /\ is_Some (g_toVersion g);
  ok_versions : reversed LessThan g = false;
}.

Definition RegistryOk (LessThan : Version -> Version -> bool) (r : Registry) : Prop := map_Forall (GateOk LessThan) r.

(** Two registries of the same gates, set differently. *)
Definition sameGates (r r' : Registry) : Prop := store false <$> r = store false <$> r'.

(** ** The order of identifiers *)
Lemma strLess_irrefl a : strLess a a = false.
Proof. induction a as [|x a IH]; [done|]. cbn [strLess]. rewrite Nat.ltb_irrefl, Nat.eqb_refl. done. Qed.

Lemma strLess_trans a b c : strLess a b = true -> strLess b c = true -> strLess a c = true.
Proof.
  revert b c. induction a as [|x a IH]; intros [|y b] [|z c]; cbn [strLess]; try done. intros H1 H2.
  apply orb_true_iff in H1, H2. apply orb_true_iff. rewrite andb_true_iff, Nat.ltb_lt, Nat.eqb_eq in *.
  destruct H1 as [H1|[H1 L1] ], H2 as [H2|[H2 L2] ]; [left; lia..|right]. split; [lia|eauto].
Qed.

Lemma strLess_total a b : strLess a b = false -> strLess b a = false -> a = b.
Proof.
  revert b. induction a as [|x a IH]; intros [|y b]; cbn [strLess]; try done.
  rewrite !orb_false_iff, !andb_false_iff, !Nat.ltb_ge, !Nat.eqb_neq. intros [H1 L1] [H2 L2].
  assert (E : nat_of_ascii x = nat_of_ascii y) by lia. f_equal; [|apply IH; naive_solver].
  by rewrite <- (ascii_nat_embedding x), E, ascii_nat_embedding.
Qed.

Definition before (g h : Gate) : Prop := strLess (g_id g) (g_id h) = true.

Lemma insertGate_perm g l : insertGate g l ≡ₚ g :: l.
Proof. induction l as [|h t IH]; cbn; [done|]. destruct (strLess _ _); [rewrite IH; constructor|done]. Qed.

Lemma insertGate_sorted g l : g_id g ∉ map g_id l -> StronglySorted before l -> StronglySorted before (insertGate g l).
Proof.
  induction l as [|h t IH]; cbn; intros Hn Hs; [by repeat constructor|].
  apply not_elem_of_cons in Hn as [Hne Hn]. inversion_clear Hs as [|?? Ht Hh].
  destruct (strLess (g_id h) (g_id g)) eqn:E.
  - constructor; [by apply IH|]. rewrite insertGate_perm. by constructor.
  - assert (L : before g h). { unfold before. destruct (strLess (g_id g) (g_id h)) eqn:E'; [done|]. by destruct Hne; apply strLess_total. }
    constructor; [by constructor|]. constructor; [done|]. eapply Forall_impl; [exact Hh|]. intros k. by apply strLess_trans.
Qed.

Lemma VisitAll_perm r : VisitAll r ≡ₚ map snd (map_to_list r).
Proof. unfold VisitAll. induction (map snd _) as [|g l IH]; cbn; [done|]. by rewrite insertGate_perm, IH. Qed.

Lemma elem_of_VisitAll r g : g ∈ VisitAll r <-> exists id, r !! id = Some g.
Proof.
  rewrite VisitAll_perm, list_elem_of_fmap. split.
  - intros ([id g'] & -> & H%elem_of_map_to_list). eauto.
  - intros [id H]. exists (id, g). split; [done|by apply elem_of_map_to_list].
Qed.

Section Ok.
Context (LessThan : Version -> Version -> bool).

Lemma ids_of r : RegistryOk LessThan r -> map g_id (map snd (map_to_list r)) = map fst (map_to_list r).
Proof.
  intros Hr. rewrite map_map. apply map_ext_in. intros [id g] H%list_elem_of_In%elem_of_map_to_list. by eapply ok_id, Hr.
Qed.

Lemma VisitAll_NoDup r : RegistryOk LessThan r -> NoDup (map g_id (VisitAll r)).
Proof. intros Hr. change (map g_id ?l) with (g_id <$> l). rewrite VisitAll_perm. change (g_id <$> ?l) with (map g_id l). rewrite ids_of by done. apply NoDup_fst_map_to_list. Qed.

(** [VisitAll] visits every gate once, in the order of the identifiers. *)
Theorem visit_all_sorted r : RegistryOk LessThan r ->
  StronglySorted before (VisitAll r) /\ VisitAll r ≡ₚ map snd (map_to_list r).
Proof.
  intros Hr. split; [|apply VisitAll_perm]. unfold VisitAll.
  assert (N : NoDup (map g_id (map snd (map_to_list r)))) by (rewrite ids_of by done; apply NoDup_fst_map_to_list).
  revert N. induction (map snd _) as [|g l IH]; cbn; [constructor|]. intros [Hn N]%NoDup_cons.
  apply insertGate_sorted; [|by apply IH].
  assert (P : foldr insertGate [] l ≡ₚ l). { clear. induction l as [|g l IH]; cbn; [done|]. by rewrite insertGate_perm, IH. }
  change (map g_id ?l) with (g_id <$> l) in *. by rewrite P.
Qed.

(** ** Registering and setting keep the registry well formed *)
Lemma applyAll_keeps NewVersion parseURL opts g g' :
  applyAll NewVersion parseURL opts g = inl g' -> g_id g' = g_id g /\ g_stage g' = g_stage g.
Proof.
  revert g. induction opts as [|opt opts IH]; cbn; intros g; [by intros [= ->] |].
  destruct (apply NewVersion parseURL opt g) as [g1|] eqn:E; [|done]. intros [-> ->]%IH.
  destruct g, opt; cbn in E; repeat case_match; by simplify_eq.
Qed.

Lemma initial_spec stage b : initial stage = Some b ->
  0 <= stage <= 3 /\ (stage = StageStable -> b = true) /\ (stage = StageDeprecated -> b = false).
Proof. unfold initial, StageAlpha, StageBeta, StageStable, StageDeprecated. repeat case_match; intros [= <-]; zbool; lia. Qed.

Lemma Register_ok NewVersion Version_String parseURL id stage opts r r' res :
  Register NewVersion Version_String LessThan parseURL id stage opts r = (r', res) -> RegistryOk LessThan r -> RegistryOk LessThan r'.
Proof.
  unfold Register. intros H Hr. destruct (validateID id) eqn:Hv; [by simplify_eq|].
  destruct (applyAll _ _ _ _) as [ [id' d u from to stage' b]|] eqn:Ha; [|by simplify_eq]. apply applyAll_keeps in Ha as [Ei Es]. cbn in Ei, Es. subst id' stage'.
  destruct (initial stage) as [en|] eqn:Hi; [|by simplify_eq]. apply initial_spec in Hi as (Hs & H2 & H3).
  destruct (_ && _) eqn:Hto; [by simplify_eq|]. destruct (reversed _ _) eqn:Hv'; [by simplify_eq|].
  destruct (r !! id); simplify_eq; [done|]. apply map_Forall_insert_2; [|done].
  rewrite andb_false_iff, orb_false_iff, negb_false_iff, !Z.eqb_neq, bool_decide_eq_true in Hto.
  constructor; cbn; intros; try naive_solver.
Qed.

Lemma store_ok id b g : g_stage g <> StageStable -> g_stage g <> StageDeprecated -> GateOk LessThan id g -> GateOk LessThan id (store b g).
Proof. intros ?? []. constructor; naive_solver. Qed.

Lemma store_same g b : g_enabled g = b -> store b g = g.
Proof. intros <-. by destruct g. Qed.

Lemma store_back g g' b : store false g' = store false g -> store b g' = store b g.
Proof. destruct g, g'. unfold store. cbn. congruence. Qed.

(** A gate is set as asked or [Set] fails.  It fails exactly for a gate that is not
    registered, a stable one to be disabled and a deprecated one to be enabled, and
    then nothing changes; other gates never change. *)
Theorem set_gate id b r : RegistryOk LessThan r ->
  let '(r', err) := Registry_Set id b r in
  RegistryOk LessThan r' /\
  (err = None -> r' = alter (store b) id r /\ IsEnabled r' id = Some b) /\
  (err <> None -> r' = r) /\
  (err <> None <-> match r !! id with
                   | None => True
                   | Some g => g_stage g = StageStable /\ b = false \/ g_stage g = StageDeprecated /\ b = true
                   end).
Proof.
  intros Hr. unfold Registry_Set, IsEnabled. destruct (r !! id) as [g|] eqn:E; [|naive_solver].
  pose proof (map_Forall_lookup_1 _ _ _ _ Hr E) as Hg.
  assert (StageStable <> StageDeprecated) by done.
  assert (Hid : g_enabled g = b -> alter (store b) id r = r).
  { intros Hb. apply map_eq. intros k. destruct (decide (k = id)) as [->|]; [|by rewrite lookup_alter_ne].
    rewrite lookup_alter_eq, E. cbn. by rewrite store_same. }
  destruct (Z.eqb_spec (g_stage g) StageStable) as [Hs|Hs].
  { destruct (ok_stable _ _ _ Hg Hs) as [He _]. destruct b; cbn [negb]; split_and!; try done; [rewrite Hid, E by done; cbn; by rewrite He|intuition congruence..]. }
  destruct (Z.eqb_spec (g_stage g) StageDeprecated) as [Hd|Hd].
  { destruct (ok_deprecated _ _ _ Hg Hd) as [He _]. destruct b; split_and!; try done; [intuition congruence|rewrite Hid, E by done; cbn; by rewrite He|intuition congruence..]. }
  rewrite lookup_insert_eq. split_and!; [by apply map_Forall_insert_2; [apply store_ok|]| |done|intuition congruence].
  intros _. split; [|done]. apply map_eq. intros k. destruct (decide (k = id)) as [->|].
  - by rewrite lookup_insert_eq, lookup_alter_eq, E.
  - by rewrite lookup_insert_ne, lookup_alter_ne.
Qed.

(** ** The flag *)
Lemma Split_app_sep sep w s : sep ∉ w -> Split sep (w ++ sep :: s) = w :: Split sep s.
Proof.
  induction w as [|c w IH]; cbn; intros H; [by rewrite decide_True|]. apply not_elem_of_cons in H as [Hc H].
  rewrite decide_False by done. by rewrite IH.
Qed.

Lemma Split_none sep w : sep ∉ w -> Split sep w = [w].
Proof.
  induction w as [|c w IH]; cbn; intros H; [done|]. apply not_elem_of_cons in H as [Hc H].
  rewrite decide_False by done. by rewrite IH.
Qed.

Lemma Split_Join sep l : l <> [] -> Forall (fun w => sep ∉ w) l -> Split sep (Join sep l) = l.
Proof.
  intros Hl H. induction H as [|w l Hw H IH]; [done|]. destruct l as [|w' l]; [by apply Split_none|].
  change (Join sep (w :: w' :: l)) with (w ++ sep :: Join sep (w' :: l)). rewrite Split_app_sep by done. by rewrite IH.
Qed.

Lemma Split_elem sep s c : c ∈ s -> c = sep \/ exists w, w ∈ Split sep s /\ c ∈ w.
Proof.
  induction s as [|d s IH]; [by intros ?%elem_of_nil|]. cbn. intros [->|H]%elem_of_cons.
  - destruct (decide (d = sep)); [by left|right]. destruct (Split sep s) as [|w ws]; [exists [d]|exists (d :: w)]; split; left.
  - destruct (IH H) as [->|(w & Hw & Hc)]; [by left|right]. destruct (decide (d = sep)); [set_solver|].
    destruct (Split sep s) as [|w' ws]; [set_solver|]. apply elem_of_cons in Hw as [->|Hw]; [|set_solver].
    exists (d :: w'). set_solver.
Qed.

(** The characters of a valid identifier. *)
Lemma valid_chars id c : validateID id = None -> c ∈ id -> idChar c = true \/ c = "."%char.
Proof.
  unfold validateID, idRegexp. intros H Hc. destruct (decide _); [done|]. destruct (forallb _ _) eqn:E; [|done].
  destruct (Split_elem "." id c Hc) as [->|(w & Hw & Hcw)]; [by right|left].
  rewrite forallb_forall in E. apply list_elem_of_In in Hw. specialize (E w Hw). apply andb_true_iff in E as [_ E].
  rewrite forallb_forall in E. by apply E, list_elem_of_In.
Qed.

Lemma valid_not id c : validateID id = None -> idChar c = false -> c <> "."%char -> c ∉ id.
Proof. intros Hv Hc Hd Hin. destruct (valid_chars id c Hv Hin); congruence. Qed.

Definition printed (g : Gate) : str := if g_enabled g then g_id g else "-"%char :: g_id g.

Lemma set_printed i g ids r errs : validateID (g_id g) = None ->
  setLoop i (printed g :: ids) r errs =
  let '(r, err) := Registry_Set (g_id g) (g_enabled g) r in setLoop (i + 1) ids r (multierr_Append errs err).
Proof.
  intros Hv. unfold printed. destruct (g_enabled g); [|done]. destruct (g_id g) as [|c id] eqn:E; [done|].
  assert (c ∈ c :: id) by set_solver. cbn [setLoop].
  rewrite !decide_False; [done|intros ->; by eapply valid_not in Hv..].
Qed.

(** Setting a gate as it is in another registry of the same gates. *)
Lemma set_as_other id g g' r : GateOk LessThan id g -> GateOk LessThan id g' -> store false g' = store false g -> r !! id = Some g' ->
  Registry_Set id (g_enabled g) r = (<[id := g]> r, None).
Proof.
  intros H H' E L. unfold Registry_Set. rewrite L. pose proof (f_equal g_stage E) as Es. cbn in Es. rewrite Es.
  assert (Hsame : g_enabled g' = g_enabled g -> (r : Registry) = <[id := g]> r).
  { intros Hb. symmetry. apply insert_id. rewrite L. f_equal. rewrite <- (store_same g' _ eq_refl), <- (store_same g _ eq_refl), Hb. by apply store_back. }
  destruct (Z.eqb_spec (g_stage g) StageStable) as [Hs|Hs].
  { destruct (ok_stable _ _ _ H Hs) as [Hb _], (ok_stable _ _ _ H' ltac:(congruence)) as [Hb' _]. rewrite Hb. cbn. rewrite <- Hsame; congruence. }
  destruct (Z.eqb_spec (g_stage g) StageDeprecated) as [Hd|Hd].
  { destruct (ok_deprecated _ _ _ H Hd) as [Hb _], (ok_deprecated _ _ _ H' ltac:(congruence)) as [Hb' _]. rewrite Hb. cbn. rewrite <- Hsame; congruence. }
  by rewrite (store_back g g'), store_same.
Qed.

Lemma setLoop_printed l i r errs :
  NoDup (map g_id l) ->
  (forall g, g ∈ l -> GateOk LessThan (g_id g) g /\ exists g', r !! g_id g = Some g' /\ GateOk LessThan (g_id g) g' /\ store false g' = store false g) ->
  setLoop i (map printed l) r errs = (foldl (fun r g => <[g_id g := g]> r) r l, errs).
Proof.
  revert i r. induction l as [|g l IH]; cbn [map foldl]; intros i r N H; [done|]. apply NoDup_cons in N as [Hn N].
  destruct (H g) as (Hg & g' & L & Hg' & E); [set_solver|].
  rewrite set_printed, (set_as_other _ g g') by (done || apply Hg).
  assert (A : multierr_Append errs None = errs) by by destruct errs. rewrite A. apply IH; [done|].
  intros h Hh. destruct (H h) as (Hok & h' & L' & ?); [set_solver|]. split; [done|]. exists h'.
  rewrite lookup_insert_ne; [done|]. intros Eq. apply Hn. rewrite Eq. by apply list_elem_of_fmap_2.
Qed.

Lemma foldl_insert_all l r r' :
  (forall g, g ∈ l -> r !! g_id g = Some g) -> (forall k, k ∉ map g_id l -> r' !! k = r !! k) ->
  foldl (fun (r : Registry) g => <[g_id g := g]> r) r' l = r.
Proof.
  revert r'. induction l as [|g l IH]; cbn; intros r' H K; [apply map_eq; intros k; apply K; set_solver|].
  apply IH; [set_solver|]. intros k Hk. destruct (decide (k = g_id g)) as [->|].
  - rewrite lookup_insert_eq. symmetry. apply H. set_solver.
  - rewrite lookup_insert_ne by done. apply K. set_solver.
Qed.

Lemma Join_nonempty sep w l : w <> [] -> Join sep (w :: l) <> [].
Proof. destruct w; [done|]. by destruct l. Qed.

(** C30: The value that the flag prints sets any registry of the same gates, whatever its
    state, to the one that was printed, without an error: gates that may not be changed
    do not have to be, and no identifier is taken for a separator or a sign. *)
Theorem flags_roundtrip r r' : RegistryOk LessThan r -> RegistryOk LessThan r' -> sameGates r r' ->
  flagValue_Set (flagValue_String r) r' = (r, None).
Proof.
  intros Hr Hr' S. assert (Same : forall k, store false <$> r !! k = store false <$> r' !! k).
  { intros k. by rewrite <- !lookup_fmap, S. }
  assert (Ok : forall g, g ∈ VisitAll r -> r !! g_id g = Some g /\ GateOk LessThan (g_id g) g).
  { intros g [id L]%elem_of_VisitAll. pose proof (map_Forall_lookup_1 _ _ _ _ Hr L) as Hg. by rewrite (ok_id _ _ _ Hg). }
  assert (Fold : foldl (fun (r : Registry) g => <[g_id g := g]> r) r' (VisitAll r) = r).
  { apply foldl_insert_all; [naive_solver|]. intros k Hk. destruct (r !! k) as [g|] eqn:L.
    - destruct Hk. assert (Hg : g ∈ VisitAll r) by (apply elem_of_VisitAll; eauto).
      rewrite <- (ok_id _ _ _ (map_Forall_lookup_1 _ _ _ _ Hr L)). by apply list_elem_of_fmap_2.
    - specialize (Same k). rewrite L in Same. by destruct (r' !! k). }
  unfold flagValue_Set, flagValue_String. fold printed. change (fun g : Gate => _) with printed.
  destruct (VisitAll r) as [|g l] eqn:E; [by rewrite <- Fold|]. rewrite <- E in *.
  assert (Ne : Join "," (map printed (VisitAll r)) <> []).
  { rewrite E. apply Join_nonempty. destruct (Ok g) as [_ Hg]; [rewrite E; set_solver|]. unfold printed.
    destruct (g_enabled g); [|done]. apply ok_valid in Hg. intros Hn. by rewrite Hn in Hg. }
  rewrite decide_False by done. rewrite Split_Join.
  - rewrite setLoop_printed; [by rewrite Fold|by apply VisitAll_NoDup|]. intros h Hh. destruct (Ok h Hh) as [L Hok]. split; [done|].
    specialize (Same (g_id h)). rewrite L in Same. destruct (r' !! g_id h) as [h'|] eqn:L'; [|done]. exists h'.
    split; [done|]. split; [exact (map_Forall_lookup_1 _ _ _ _ Hr' L')|cbn in Same; congruence].
  - by rewrite E.
  - apply Forall_forall. intros w (h & -> & Hh)%list_elem_of_fmap. destruct (Ok h Hh) as [_ Hok].
    pose proof (valid_not _ ","%char (ok_valid _ _ _ Hok) eq_refl ltac:(done)) as Hc. unfold printed. destruct (g_enabled h); set_solver.
Qed.

End Ok.

End Gates.
Arguments Gate : clear implicits.

(** A registry of four gates, as registered and with two of them set otherwise. *)
Definition versionOf (s : str) : nat + error := match s with [] => inr (New "no version") | _ => inl (length s) end.
Definition sampleRegister id stage opts := Register versionOf (fun _ => EmptyString) Nat.ltb (fun _ => None) (lit id) stage opts.

Definition sampleRegistry : gmap str (Gate nat) :=
  let removal := [WithRegisterToVersion (lit "v2")] in
  fst (sampleRegister "d.old" StageDeprecated removal
    (fst (sampleRegister "c_3" StageStable removal
      (fst (sampleRegister "b.two" StageBeta [] (fst (sampleRegister "a" StageAlpha [] ∅))))))).

Definition sampleChanged : gmap str (Gate nat) := fst (flagValue_Set (lit "a,-b.two,+c_3") sampleRegistry).

Lemma sampleRegister_ok id stage opts r : RegistryOk Nat.ltb r -> RegistryOk Nat.ltb (fst (sampleRegister id stage opts r)).
Proof. intros Hr. unfold sampleRegister. destruct (Register _ _ _ _ _ _ _ _) as [r' res] eqn:E. exact (Register_ok _ _ _ _ _ _ _ _ _ _ E Hr). Qed.

Lemma sampleRegistry_ok : RegistryOk Nat.ltb sampleRegistry.
Proof. unfold sampleRegistry. repeat apply sampleRegister_ok. apply map_Forall_empty. Qed.

Lemma setLoop_ok {Version} (LessThan : Version -> Version -> bool) (ids : list str) (i : Z) (r : gmap str (Gate Version)) errs :
  RegistryOk LessThan r -> RegistryOk LessThan (fst (setLoop i ids r errs)).
Proof.
  revert i r errs. induction ids as [|[|c id] ids IH]; intros i r errs Hr; [done|by apply IH|]. cbn [setLoop].
  destruct (if decide _ then _ else _) as [id' val]. pose proof (set_gate LessThan id' val r Hr) as S.
  destruct (Registry_Set id' val r) as [r' err]. apply IH, S.
Qed.

Lemma flagValue_Set_ok {Version} (LessThan : Version -> Version -> bool) (s : str) (r : gmap str (Gate Version)) :
  RegistryOk LessThan r -> RegistryOk LessThan (fst (flagValue_Set s r)).
Proof. intros Hr. unfold flagValue_Set. destruct (decide _); [done|]. by apply setLoop_ok. Qed.

Lemma flags_roundtrip_witness :
  flagValue_String sampleChanged = lit "a,-b.two,c_3,-d.old" /\
  flagValue_Set (lit "a,-b.two,c_3,-d.old") sampleRegistry = (sampleChanged, None).
Proof.
  assert (E : flagValue_String sampleChanged = lit "a,-b.two,c_3,-d.old") by (vm_compute; reflexivity).
  split; [exact E|]. rewrite <- E. apply (flags_roundtrip Nat.ltb).
  - apply flagValue_Set_ok, sampleRegistry_ok.
  - apply sampleRegistry_ok.
  - vm_compute. reflexivity.
Defined.
