(* ===== verification/SharedComponent.v ===== *)
(** * Shared components (internal/sharedcomponent/sharedcomponent.go)

    One component behind several signals: [LoadOrStore] gives every caller with a key
    the same wrapper, which starts and stops the component once and removes itself from
    the map.  The host it starts the component with passes status events on to the
    reporter of every pipeline, the last five also to those that come later.

    Wrappers are pointers: [cells] is the memory they live in, [components] the map.
    What the wrapped component does in a call (its error, the events it reports while
    it starts) is an argument of the call; a [sync.Once] is whether it has run, and its
    calls do not overlap, as the service makes them one by one. *)

From S2P Require Import Prelude Errors.

Section Shared.
Context {K V Event Reporter : Type} `{Countable K}.

(** ** The host *)

(** [ring.New(5)], from the current element on. *)
Definition newRing : list (option Event) := replicate 5 None.

Record hostWrapper := mkHostWrapper {
  sources : list Reporter;
  previousEvents : list (option Event);
}.

(** What the reporters were told. *)
Abbreviation reports := (list (Reporter * Event)).

(** [h.previousEvents.Value = e; h.previousEvents = h.previousEvents.Next()] *)
Definition remember (e : Event) (ring : list (option Event)) : list (option Event) :=
  match ring with [] => [] | _ :: rest => rest ++ [Some e] end.

Definition Report (e : Event) (h : hostWrapper) : hostWrapper * reports :=
  let h := match sources h with
           | [] => h
           | _ => mkHostWrapper (sources h) (remember e (previousEvents h))
           end in
  (h, map (fun s => (s, e)) (sources h)).

Definition addSource (s : Reporter) (h : hostWrapper) : hostWrapper * reports :=
  (mkHostWrapper (sources h ++ [s]) (previousEvents h), map (fun e => (s, e)) (omap (fun a => a) (previousEvents h))).

Fixpoint ReportAll (es : list Event) (h : hostWrapper) : hostWrapper * reports :=
  match es with
  | [] => (h, [])
  | e :: es => let '(h, out) := Report e h in let '(h, out') := ReportAll es h in (h, out ++ out')
  end.

(** ** The wrapper and the map *)
Record Component := mkComponent {
  component : V;
  key : K;
  started : bool;
  startErr : option error;
  stopped : bool;
  wrapper : option hostWrapper;
}.

Record Map := mkMap { cells : list Component; components : gmap K nat }.

Definition NewMap : Map := mkMap [] ∅.

Definition LoadOrStore (k : K) (create : V + error) (m : Map) : Map * (nat + error) :=
  match components m !! k with
  | Some p => (m, inl p)
  | None =>
      match create with
      | inr err => (m, inr err)
      | inl comp =>
          let p := length (cells m) in
          (mkMap (cells m ++ [mkComponent comp k false None false None]) (<[k := p]> (components m)), inl p)
      end
  end.

(** What a call did to the wrapped component. *)
Inductive call := Started | Stopped | NoCall.

(** [host] is the reporter of the host, when it is one; [es] and [err] are what the
    component reports and returns if it is started. *)
Definition Component_Start (host : option Reporter) (es : list Event) (err : option error) (c : Component) : Component * option error * call * reports :=
  let add h := match host with Some s => addSource s h | None => (h, []) end in
  match wrapper c with
  | None =>
      if started c then (c, startErr c, NoCall, [])
      else
        let '(h, out) := add (mkHostWrapper [] newRing) in
        let '(h, out') := ReportAll es h in
        (mkComponent (component c) (key c) true err (stopped c) (Some h), err, Started, out ++ out')
  | Some h =>
      let '(h, out) := add h in
      (mkComponent (component c) (key c) (started c) (startErr c) (stopped c) (Some h), startErr c, NoCall, out)
  end.

Definition Component_Report (e : Event) (c : Component) : Component * reports :=
  match wrapper c with
  | None => (c, [])
  | Some h => let '(h, out) := Report e h in (mkComponent (component c) (key c) (started c) (startErr c) (stopped c) (Some h), out)
  end.

Definition Component_Shutdown (p : nat) (err : option error) (m : Map) : option (Map * option error * call) :=
  c ← cells m !! p;
  Some (if stopped c then (m, None, NoCall)
        else (mkMap (<[p := mkComponent (component c) (key c) (started c) (startErr c) true (wrapper c)]> (cells m))
                    (delete (key c) (components m)), err, Stopped)).

(** ** The calls of a program, and what came of them *)
Inductive op :=
  | OpLoad (k : K) (create : V + error)
  | OpStart (p : nat) (host : option Reporter) (es : list Event) (err : option error)
  | OpReport (p : nat) (e : Event)
  | OpShutdown (p : nat) (err : option error).

Inductive answer :=
  | Loaded (p : nat + error)
  | Ran (p : nat) (did : call) (err : option error) (out : reports)
  | Invalid.

Definition step (m : Map) (o : op) : Map * answer :=
  match o with
  | OpLoad k create => let '(m, p) := LoadOrStore k create m in (m, Loaded p)
  | OpStart p host es err =>
      match cells m !! p with
      | None => (m, Invalid)
      | Some c => let '(c, err, did, out) := Component_Start host es err c in (mkMap (<[p := c]> (cells m)) (components m), Ran p did err out)
      end
  | OpReport p e =>
      match cells m !! p with
      | None => (m, Invalid)
      | Some c => let '(c, out) := Component_Report e c in (mkMap (<[p := c]> (cells m)) (components m), Ran p NoCall None out)
      end
  | OpShutdown p err =>
      match Component_Shutdown p err m with
      | None => (m, Invalid)
      | Some (m, err, did) => (m, Ran p did err [])
      end
  end.

(** The calls in order, each with its answer. *)
Abbreviation trace := (list (op * answer)).

Definition runStep (s : Map * trace) (o : op) : Map * trace :=
  let '(m, tr) := s in let '(m, a) := step m o in (m, tr ++ [(o, a)]).
Definition run (ops : list op) : Map * trace := foldl runStep (NewMap, []) ops.

(** ** Every component is started and stopped once *)
Definition startedBy (p : nat) (x : op * answer) : bool :=
  match snd x with Ran q Started _ _ => bool_decide (p = q) | _ => false end.
Definition stoppedBy (p : nat) (x : op * answer) : bool :=
  match snd x with Ran q Stopped _ _ => bool_decide (p = q) | _ => false end.
Definition times (f : op * answer -> bool) (tr : trace) : nat := length (filter f tr).

(** What [Start] of a wrapper returned, call by call. *)
Definition startResult (p : nat) (x : op * answer) : option (option error) :=
  match x with (OpStart q _ _ _, Ran _ _ err _) => if decide (p = q) then Some err else None | _ => None end.

Record CellOk (tr : trace) (p : nat) (c : Component) : Prop := {
  cell_started : times (startedBy p) tr = Nat.b2n (started c);
  cell_stopped : times (stoppedBy p) tr = Nat.b2n (stopped c);
  cell_wrapper : started c = bool_decide (is_Some (wrapper c));
  cell_results : Forall (fun err => started c = true /\ err = startErr c) (omap (startResult p) tr);
}.

Record Inv (m : Map) (tr : trace) : Prop := {
  inv_live : forall k p, components m !! k = Some p <-> exists c, cells m !! p = Some c /\ key c = k /\ stopped c = false;
  inv_cells : forall p c, cells m !! p = Some c -> CellOk tr p c;
  inv_new : forall p, (length (cells m) <= p)%nat ->
    times (startedBy p) tr = 0%nat /\ times (stoppedBy p) tr = 0%nat /\ omap (startResult p) tr = [];
}.

Lemma times_snoc f tr x : times f (tr ++ [x]) = (times f tr + Nat.b2n (f x))%nat.
Proof. unfold times. rewrite filter_app, length_app. f_equal. rewrite filter_cons, filter_nil. destruct (f x); by case_decide. Qed.

Lemma results_snoc p tr x : omap (startResult p) (tr ++ [x]) = omap (startResult p) tr ++ option_list (startResult p x).
Proof. rewrite omap_app. cbn. by destruct (startResult p x). Qed.

(** An entry of the trace that is not about [p] leaves what holds of [p]. *)
Definition unrelated (p : nat) (x : op * answer) : Prop := startedBy p x = false /\ stoppedBy p x = false /\ startResult p x = None.

Lemma CellOk_unrelated tr p c x : unrelated p x -> CellOk tr p c -> CellOk (tr ++ [x]) p c.
Proof.
  intros (H1 & H2 & H3) []. constructor; rewrite ?times_snoc, ?results_snoc, ?H1, ?H2, ?H3; cbn [Nat.b2n option_list]; rewrite ?app_nil_r; auto with lia.
Qed.

Lemma new_unrelated tr p x : unrelated p x ->
  times (startedBy p) tr = 0%nat /\ times (stoppedBy p) tr = 0%nat /\ omap (startResult p) tr = [] ->
  times (startedBy p) (tr ++ [x]) = 0%nat /\ times (stoppedBy p) (tr ++ [x]) = 0%nat /\ omap (startResult p) (tr ++ [x]) = [].
Proof. intros (H1 & H2 & H3) (? & ? & ?). rewrite !times_snoc, results_snoc, H1, H2, H3. cbn. rewrite app_nil_r. auto with lia. Qed.

(** A call that changes one wrapper, which stays in the map if it was there. *)
Lemma Inv_update m tr x p c c' :
  cells m !! p = Some c -> key c' = key c -> stopped c' = stopped c ->
  (forall q, q <> p -> unrelated q x) -> CellOk (tr ++ [x]) p c' ->
  Inv m tr -> Inv (mkMap (<[p := c']> (cells m)) (components m)) (tr ++ [x]).
Proof.
  intros L Hk Hs Hu Hc [Hl Hcs Hn]. pose proof (lookup_lt_Some _ _ _ L). constructor; cbn [cells components].
  - intros k q. rewrite Hl. destruct (decide (q = p)) as [->|]; [|by rewrite list_lookup_insert_ne].
    rewrite list_lookup_insert_eq by done. naive_solver congruence.
  - intros q d. destruct (decide (q = p)) as [->|]; [rewrite list_lookup_insert_eq by done; naive_solver|].
    rewrite list_lookup_insert_ne by done. intros Ld. apply CellOk_unrelated; auto.
  - intros q. rewrite length_insert. intros Hq. apply new_unrelated; [apply Hu; lia|by apply Hn].
Qed.

Lemma Inv_unrelated m tr x : (forall q, unrelated q x) -> Inv m tr -> Inv m (tr ++ [x]).
Proof. intros Hu [Hl Hcs Hn]. constructor; [done| |]; intros; [apply CellOk_unrelated|apply new_unrelated]; auto. Qed.

Lemma load_inv m tr k create : Inv m tr -> let '(m', a) := step m (OpLoad k create) in Inv m' (tr ++ [(OpLoad k create, a)]).
Proof.
  intros I. cbn. unfold LoadOrStore. destruct (components m !! k) as [p|] eqn:E; [by apply Inv_unrelated|].
  destruct create as [comp|err]; [|by apply Inv_unrelated]. cbn.
  destruct (Inv_unrelated m tr (OpLoad k (inl comp), Loaded (inl (length (cells m)))) ltac:(done) I) as [Hl Hcs Hn].
  constructor; cbn [cells components].
  - intros k' p. destruct (decide (p = length (cells m))) as [->|Hp].
    + rewrite lookup_app_r, Nat.sub_diag by done. cbn. destruct (decide (k' = k)) as [->|].
      * rewrite lookup_insert_eq. naive_solver.
      * rewrite lookup_insert_ne by done. split; [|naive_solver]. intros (c & L & _)%Hl. apply lookup_lt_Some in L. lia.
    + assert (Eq : forall c : Component, (cells m ++ [mkComponent comp k false None false None]) !! p = Some c <-> cells m !! p = Some c).
      { intros c. rewrite lookup_app_Some. split; [intros [?|[? L] ]; [done|]|by left]. destruct (p - length (cells m))%nat eqn:Z; [lia|done]. }
      setoid_rewrite Eq. rewrite <- Hl. destruct (decide (k' = k)) as [->|]; [rewrite lookup_insert_eq, E; naive_solver|by rewrite lookup_insert_ne].
  - intros p c [L|[Hp L] ]%lookup_app_Some; [by apply Hcs|]. destruct (p - length (cells m))%nat eqn:Z; [|done]. cbn in L. simplify_eq.
    destruct (Hn p) as (N1 & N2 & N3); [lia|]. constructor; cbn; [done..|]. by rewrite N3.
  - intros p. rewrite length_app. cbn. intros. apply Hn. lia.
Qed.

Lemma unrelated_ran o q p did err out :
  q <> p -> (forall host es e, o <> OpStart q host es e) -> unrelated q (o, Ran p did err out).
Proof.
  intros Hq Ho. unfold unrelated, startedBy, stoppedBy, startResult. cbn. rewrite bool_decide_eq_false_2 by done.
  split_and!; [by destruct did..|]. destruct o; try done. by rewrite decide_False by naive_solver.
Qed.

Lemma startedBy_ran o p did err out : startedBy p (o, Ran p did err out) = match did with Started => true | _ => false end.
Proof. unfold startedBy. cbn. by destruct did; rewrite ?bool_decide_eq_true_2. Qed.

Lemma stoppedBy_ran o p did err out : stoppedBy p (o, Ran p did err out) = match did with Stopped => true | _ => false end.
Proof. unfold stoppedBy. cbn. by destruct did; rewrite ?bool_decide_eq_true_2. Qed.

(** What [Start] leaves in the wrapper. *)
Lemma Start_spec host es err c c' err' did out :
  Component_Start host es err c = (c', err', did, out) -> started c = bool_decide (is_Some (wrapper c)) ->
  key c' = key c /\ stopped c' = stopped c /\ started c' = true /\ is_Some (wrapper c') /\ err' = startErr c' /\
  (if started c then did = NoCall /\ startErr c' = startErr c else did = Started).
Proof.
  unfold Component_Start. intros E W. destruct (wrapper c) as [h|] eqn:Hw; cbn in W; rewrite W in *.
  - destruct host; cbn in E; simplify_eq; cbn; eauto 10.
  - destruct host; cbn [addSource] in E; destruct (ReportAll es _); simplify_eq; cbn; eauto 10.
Qed.

Lemma start_inv m tr p host es err : Inv m tr ->
  let '(m', a) := step m (OpStart p host es err) in Inv m' (tr ++ [(OpStart p host es err, a)]).
Proof.
  intros I. cbn [step]. destruct (cells m !! p) as [c|] eqn:L; [|by apply Inv_unrelated].
  destruct (Component_Start host es err c) as [ [ [c' err'] did] out] eqn:E. destruct (inv_cells _ _ I p c L) as [S1 S2 W R].
  destruct (Start_spec _ _ _ _ _ _ _ _ E W) as (Hk & Hs & Hst & Hw & -> & Hd).
  eapply Inv_update; eauto; [intros q Hq; apply unrelated_ran; naive_solver|].
  constructor; rewrite ?times_snoc, ?results_snoc, ?startedBy_ran, ?stoppedBy_ran; cbn [startResult]; rewrite ?decide_True by done.
  - rewrite Hst, S1. destruct (started c); [destruct Hd as [-> _]|rewrite Hd]; done.
  - rewrite Hs, S2. destruct (started c); [destruct Hd as [-> _]|rewrite Hd]; cbn; lia.
  - rewrite Hst. by rewrite bool_decide_eq_true_2.
  - apply Forall_app. split; [|by repeat constructor]. eapply Forall_impl; [exact R|]. cbn. intros e [Hc ->]. rewrite Hc in Hd. destruct Hd as [_ ->]. done.
Qed.

Lemma report_inv m tr p e : Inv m tr -> let '(m', a) := step m (OpReport p e) in Inv m' (tr ++ [(OpReport p e, a)]).
Proof.
  intros I. cbn [step]. destruct (cells m !! p) as [c|] eqn:L; [|by apply Inv_unrelated].
  destruct (Component_Report e c) as [c' out] eqn:E.
  assert (X : key c' = key c /\ stopped c' = stopped c /\ started c' = started c /\ startErr c' = startErr c /\ (is_Some (wrapper c') <-> is_Some (wrapper c))).
  { unfold Component_Report in E. destruct (wrapper c) as [h|] eqn:Hw; [destruct (Report e h)|]; injection E as <- _; cbn; rewrite ?Hw; split_and!; naive_solver. }
  destruct X as (Hk & Hs & Hst & He & Hw). pose proof (inv_cells _ _ I p c L) as Hc.
  eapply Inv_update; eauto; [intros q Hq; by apply unrelated_ran|].
  apply CellOk_unrelated; [split_and!; done|]. destruct Hc as [S1 S2 W R]. constructor; rewrite ?Hst, ?Hs, ?He; try done.
  rewrite W. by apply bool_decide_ext.
Qed.

Lemma shutdown_inv m tr p err : Inv m tr -> let '(m', a) := step m (OpShutdown p err) in Inv m' (tr ++ [(OpShutdown p err, a)]).
Proof.
  intros I. cbn [step]. unfold Component_Shutdown. destruct (cells m !! p) as [c|] eqn:L; cbn; [|by apply Inv_unrelated].
  destruct (stopped c) eqn:Hs; [by apply Inv_unrelated|].
  set (x := (OpShutdown p err, Ran p Stopped err [])). destruct I as [Hl Hcs Hn]. pose proof (lookup_lt_Some _ _ _ L).
  assert (Hu : forall q, q <> p -> unrelated q x) by (intros q Hq; by apply unrelated_ran).
  constructor; cbn [cells components].
  - intros k q. rewrite lookup_delete_Some, Hl. destruct (decide (q = p)) as [->|Hq].
    + rewrite list_lookup_insert_eq by done. split; [intros (? & ? & ? & ? & ?); congruence|naive_solver].
    + rewrite list_lookup_insert_ne by done. split; [naive_solver|]. intros (d & Ld & Hk & Hd). split; [|eauto].
      intros Heq. assert (A : components m !! k = Some p) by (apply Hl; eauto). assert (B : components m !! k = Some q) by (apply Hl; eauto). congruence.
  - intros q d. destruct (decide (q = p)) as [->|]; [|rewrite list_lookup_insert_ne by done; intros; apply CellOk_unrelated; auto].
    rewrite list_lookup_insert_eq by done. intros [= <-]. destruct (Hcs p c L) as [S1 S2 W R].
    constructor; unfold x; rewrite ?times_snoc, ?results_snoc, ?startedBy_ran, ?stoppedBy_ran; cbn; rewrite ?app_nil_r; [lia| |done..].
    by rewrite S2, Hs.
  - intros q. rewrite length_insert. intros Hq. apply new_unrelated; [apply Hu; lia|by apply Hn].
Qed.

Lemma step_inv m tr o : Inv m tr -> let '(m', a) := step m o in Inv m' (tr ++ [(o, a)]).
Proof. destruct o; [apply load_inv|apply start_inv|apply report_inv|apply shutdown_inv]. Qed.

Lemma run_inv ops : let '(m, tr) := run ops in Inv m tr.
Proof.
  unfold run. induction ops as [|o ops IH] using rev_ind.
  { constructor; cbn; [|done..]. intros. split; [by rewrite lookup_empty|]. by intros (? & ? & _). }
  rewrite foldl_app. destruct (foldl _ _ ops) as [m tr]. cbn. apply (step_inv m tr o) in IH. by destruct (step m o).
Qed.

(** C31: Whatever is called in whatever order, the map holds exactly the wrappers that are
    not stopped, no two of them for one key; no component is started or stopped twice;
    and all calls of [Start] of a wrapper return what starting its component returned. *)
Theorem shared_component_once ops : let '(m, tr) := run ops in
  (forall k p, components m !! k = Some p <-> exists c, cells m !! p = Some c /\ key c = k /\ stopped c = false) /\
  (forall p, (times (startedBy p) tr <= 1)%nat /\ (times (stoppedBy p) tr <= 1)%nat) /\
  (forall p e1 e2, e1 ∈ omap (startResult p) tr -> e2 ∈ omap (startResult p) tr -> e1 = e2).
Proof.
  pose proof (run_inv ops) as I. destruct (run ops) as [m tr]. destruct I as [Hl Hc Hn]. split; [done|].
  assert (Bound : forall b, (Nat.b2n b <= 1)%nat) by (intros []; cbn; lia).
  split; intros p; (destruct (cells m !! p) as [c|] eqn:L; [destruct (Hc p c L) as [S1 S2 _ R]|destruct (Hn p) as (N1 & N2 & N3); [by apply lookup_ge_None|] ]).
  - rewrite S1, S2. auto.
  - lia.
  - rewrite Forall_forall in R. intros e1 e2 [_ ->]%R [_ ->]%R. done.
  - rewrite N3. by intros ?? ?%elem_of_nil.
Qed.

(** ** Every pipeline hears of the last events *)
Inductive hostOp := Add (s : Reporter) | Rep (e : Event).

Fixpoint hostRun (ops : list hostOp) (h : hostWrapper) : hostWrapper * reports :=
  match ops with
  | [] => (h, [])
  | o :: ops =>
      let '(h, out) := match o with Add s => addSource s h | Rep e => Report e h end in
      let '(h, out') := hostRun ops h in (h, out ++ out')
  end.

Definition added (ops : list hostOp) : list Reporter := omap (fun o => match o with Add s => Some s | _ => None end) ops.
Definition reported (ops : list hostOp) : list Event := omap (fun o => match o with Rep e => Some e | _ => None end) ops.

(** The events that were passed on to anyone. *)
Fixpoint emitted (any : bool) (ops : list hostOp) : list Event :=
  match ops with
  | [] => []
  | Add _ :: ops => emitted true ops
  | Rep e :: ops => (if any then [e] else []) ++ emitted any ops
  end.

Definition lastn (n : nat) (l : list Event) : list Event := drop (length l - n) l.

Context `{!EqDecision Reporter}.
Definition told (s : Reporter) (out : reports) : list Event := omap (fun x => if decide (fst x = s) then Some (snd x) else None) out.

(** The ring after the events [es]: the last five of five empty places and them. *)
Definition ringOf (es : list Event) : list (option Event) := drop (length es) (replicate 5 None ++ map Some es).

Lemma ringOf_remember es e : remember e (ringOf es) = ringOf (es ++ [e]).
Proof.
  unfold ringOf. rewrite length_app, map_app, app_assoc. cbn [length map]. set (X := replicate 5 None ++ map Some es).
  assert (HX : length X = (5 + length es)%nat) by (unfold X; by rewrite length_app, length_replicate, length_map).
  destruct (drop (length es) X) as [|x rest] eqn:E; [apply (f_equal length) in E; rewrite length_drop, HX in E; cbn [length] in E; lia|].
  cbn [remember]. rewrite drop_app_le by lia. rewrite <- drop_drop, E. done.
Qed.

Lemma ringOf_events es : omap (fun a => a) (ringOf es) = lastn 5 es.
Proof.
  unfold ringOf, lastn. rewrite drop_app, omap_app, length_replicate, drop_replicate.
  assert (N : forall n, omap (fun a : option Event => a) (replicate n None) = []) by (intros n; by induction n).
  rewrite N. cbn [app]. change (map Some es) with (Some <$> es). rewrite <- fmap_drop.
  generalize (drop (length es - 5) es). intros l. induction l as [|e l IH]; cbn; [done|]. by f_equal.
Qed.

Lemma hostRun_app ops1 ops2 h :
  hostRun (ops1 ++ ops2) h = let '(h1, out1) := hostRun ops1 h in let '(h2, out2) := hostRun ops2 h1 in (h2, out1 ++ out2).
Proof.
  revert h. induction ops1 as [|o ops1 IH]; intros h; cbn; [by destruct (hostRun ops2 h)|].
  destruct (match o with Add s => _ | Rep e => _ end) as [h' out]. rewrite IH. destruct (hostRun ops1 h') as [h1 out1].
  destruct (hostRun ops2 h1). by rewrite app_assoc.
Qed.

Lemma told_app s a b : told s (a ++ b) = told s a ++ told s b.
Proof. apply omap_app. Qed.

Lemma told_other s (l : list Reporter) e : s ∉ l -> told s (map (fun s' => (s', e)) l) = [].
Proof.
  induction l as [|s' l IH]; [done|]. intros [Hn Hl]%not_elem_of_cons. cbn. rewrite decide_False by naive_solver. by apply IH.
Qed.

Lemma told_events s s' es : told s (map (fun e => (s', e)) es) = if decide (s' = s) then es else [].
Proof.
  unfold told. induction es as [|e es IH]; cbn; [by destruct (decide _)|]. unfold told in IH. cbn in IH. destruct (decide (s' = s)); [by rewrite IH|done].
Qed.

(** What holds after any operations on a new wrapper. *)
Lemma hostRun_state pre h es : previousEvents h = ringOf es ->
  let '(h', out) := hostRun pre h in
  sources h' = sources h ++ added pre /\
  previousEvents h' = ringOf (es ++ emitted (negb (bool_decide (sources h = []))) pre) /\
  (forall s, s ∉ sources h -> s ∉ added pre -> told s out = []).
Proof.
  revert h es. induction pre as [|[s|e] pre IH]; intros h es Hr; cbn [hostRun added emitted]; [by rewrite !app_nil_r|..].
  - specialize (IH (mkHostWrapper (sources h ++ [s]) (previousEvents h)) es Hr). unfold addSource. destruct (hostRun pre _) as [h' out].
    destruct IH as (-> & -> & T). cbn [sources] in *. split_and!; [cbn; by rewrite <- app_assoc| |].
    + rewrite bool_decide_eq_false_2; [done|by destruct (sources h)].
    + intros s' H1 [H2 H3]%not_elem_of_cons. rewrite told_app, told_events, decide_False by done. apply T; set_solver.
  - unfold Report. destruct (sources h) as [|s0 l] eqn:Hs.
    + specialize (IH h es Hr). rewrite Hs in *. destruct (hostRun pre h) as [h' out]. done.
    + specialize (IH (mkHostWrapper (s0 :: l) (remember e (previousEvents h))) (es ++ [e])). cbn [previousEvents sources] in *. rewrite Hr in *.
      specialize (IH (ringOf_remember es e)). destruct (hostRun pre _) as [h' out]. destruct IH as (H1 & H2 & T).
      split_and!; [done|by rewrite H2, <- app_assoc|]. intros s' Hn Hp. rewrite told_app, told_other by done. by apply T.
Qed.

Lemma told_self s (l : list Reporter) e : s ∈ l -> NoDup l -> told s (map (fun s' => (s', e)) l) = [e].
Proof.
  induction l as [|s' l IH]; [by intros ?%elem_of_nil|]. intros Hin [Hn Hl]%NoDup_cons. cbn. destruct (decide (s' = s)) as [->|Hs].
  - f_equal. by apply told_other.
  - apply IH; set_solver.
Qed.

(** A reporter that is there hears of every event. *)
Lemma hostRun_present s post h : s ∈ sources h -> NoDup (sources h ++ added post) ->
  told s (snd (hostRun post h)) = reported post.
Proof.
  revert h. induction post as [|[s'|e] post IH]; intros h Hs N; [done|..]; cbn [hostRun added omap] in *.
  - specialize (IH (mkHostWrapper (sources h ++ [s']) (previousEvents h))). cbn [sources] in IH. unfold addSource.
    destruct (hostRun post _) as [h' out]. cbn [snd] in *. rewrite told_app, told_events, decide_False.
    + apply IH; [set_solver|]. by rewrite <- app_assoc.
    + intros ->. apply NoDup_app in N as (_ & N & _). apply (N s Hs). left.
  - unfold Report. destruct (sources h) as [|s0 l] eqn:E; [by apply elem_of_nil in Hs|].
    specialize (IH (mkHostWrapper (s0 :: l) (remember e (previousEvents h))) Hs N). cbn [sources]. destruct (hostRun post _) as [h' out].
    cbn [snd] in *. rewrite told_app, told_self, IH; [done|done|]. by apply NoDup_app in N as [N _].
Qed.

Definition newHost : hostWrapper := mkHostWrapper [] newRing.

(** However the additions of reporters and the reports are interleaved, a reporter is
    told the last five events that were passed on before it came, then every event. *)
Theorem status_reaches_every_pipeline pre s post : NoDup (added (pre ++ Add s :: post)) ->
  told s (snd (hostRun (pre ++ Add s :: post) newHost)) = lastn 5 (emitted false pre) ++ reported post.
Proof.
  intros N. unfold added in N. rewrite omap_app in N. cbn in N. fold (added pre) (added post) in N.
  rewrite hostRun_app. pose proof (hostRun_state pre newHost [] eq_refl) as St. destruct (hostRun pre newHost) as [h1 out1].
  destruct St as (S1 & S2 & T). cbn [sources newHost app] in *. cbn [hostRun addSource].
  pose proof (hostRun_present s post (mkHostWrapper (sources h1 ++ [s]) (previousEvents h1))) as P. cbn [sources] in P. unfold addSource.
  destruct (hostRun post _) as [h2 out2]. cbn [snd] in *. rewrite !told_app, told_events, decide_True, P, S2, ringOf_events by (done || set_solver || by rewrite S1, <- app_assoc).
  rewrite T; [done|set_solver|]. apply NoDup_app in N as (_ & N & _). intros Hs. apply (N s Hs). left.
Qed.

End Shared.
